(* ===== verification/_CoqProject ===== *)
-Q . S2P
Prelude.v
Machine.v
KState.v
Spinlock.v
Blocks.v
KString.v
Kalloc.v
Vm.v
VmSpec.v
VmUser.v
VmSpace.v
Proc.v
ProcSpec.v
ProcMem.v
SleepModel.v
Sleeplock.v
Bio.v
BioList.v
BioSpec.v
BioProof.v
Log.v
LogSpec.v
LogProof.v
Fs.v
FsSpec.v
FsAlloc.v
FsFile.v
FsIo.v
FsProof.v
FsInode.v
FsDir.v
FsExample.v
Console.v
Virtio.v
File.v
ProcFs.v
Syscall.v
Trap.v
Ring.v
SleepSpec.v
UserSpec.v
PipeSpec.v
ConsoleSpec.v
VirtioSpec.v
Ulib.v
Grep.v
Primes.v
Xargs.v
Find.v
Wc.v
Sh.v
ShParse.v
ShTrace.v
ShRun.v
Umalloc.v
UmallocSpec.v
Mkfs.v
MkfsSpec.v
MkfsProof.v
MkfsBoot.v
Stable.v
FileRefs.v
SysFrame.v
FdTypes.v
Asm.v
AsmSpec.v
TrapSpec.v
Uprog.v
