(* ===== verification/Prelude.v ===== *)
(** Verification of xv6 for RISC-V, as it is in this repository with the
    programs of the utilities lab.

    The program. The kernel (src/kernel) runs processes with their own page
    tables on several harts. Spinlocks protect its tables; a page allocator
    feeds the page tables and the processes; sleep and wakeup let a process
    wait; sleep locks protect buffers and inodes for long. The file system is
    layered: disk driver, buffer cache, log, blocks and inodes, directories,
    paths. System calls reach it through open files and pipes. User programs
    (src/user) run on top of the system calls; mkfs (src/mkfs) makes the disk.

    How it is modelled. Each C routine is a Rocq definition of the same name.
    The C globals are the fields of one record, [KState.kst]. A routine that
    touches them is a computation [K A := env -> kst -> res A]: it returns,
    panics, makes an undefined access ([Fault]), would wait for ever ([Block])
    or runs out of fuel. [env] is the interference: the list of state changes
    other harts and processes make at the points where the code lets them,
    that is while it spins for a lock and while it is switched out
    ([KState.interfere], [Proc.swtch]). Integers are [Z] with the wrap-around
    of their C width written out ([u32], [i32], ...). Pages, page tables and
    the free list are bytes in a memory; disk blocks are lists of bytes.
    [wp m e s Q] is total correctness: [m] returns, and what it returns
    satisfies [Q].

    The files, and what is modelled where.
    - Prelude: C integers, little-endian bytes, lists, hints and tactics.
    - Machine: riscv.h, memlayout.h, param.h; byte memory.
    - KState: the state, the monad, [wp] and its rules, interference.
    - Spinlock: spinlock.c. [Mutex] is the step relation of several harts
      around the atomic swap.
    - Blocks: integers at offsets inside a block.
    - KString: string.c. Kalloc: kalloc.c, with the invariant of the free list.
    - Vm: vm.c. VmSpec: page tables as maps from virtual pages to entries.
      VmUser: mappages, copyout, copyin, copyinstr. VmSpace: address spaces.
    - Proc: proc.c. ProcSpec: scheduling and channels. ProcMem: allocation of
      processes. SleepModel: two step relations over the lock acquisitions of
      sleep/wakeup ([Rendezvous]) and of the scheduler ([Running]).
    - Sleeplock: sleeplock.c.
    - Bio: bio.c over the class [DiskDriver], what the cache relies on of
      virtio_disk_rw, with [sync_disk] an instance. BioList: the linked list
      of buffers. BioSpec: the cache as a view of the disk ([bview], [bc]).
      BioProof: its theorems.
    - Log: log.c. LogSpec: what each routine does to the view and the disk's
      writes. LogProof: crash atomicity; a crash is a prefix of the writes.
    - Fs: fs.c. FsSpec: a transaction ([fsx]) as blocks that can be read,
      replaced and released. FsAlloc: balloc and bfree over the bitmap.
      FsFile: the block map of a file and bmap. FsIo: readi and writei over
      the content of a file. FsProof: whole writes, up to the disk. FsInode:
      the table of inodes, inodes on the disk. FsDir: directories as lists of
      entries, names, paths. FsExample: a small disk image.
    - Console: uart.c, console.c, printf.c. Virtio: virtio_disk.c; the device
      acts as interference. File: file.c and pipe.c. ProcFs: userinit, fork,
      exit and exec.c. Syscall: syscall.c, sysproc.c, sysfile.c. Trap: trap.c,
      plic.c, start.c, main.c.
    - Ring: ring buffers. SleepSpec: sleep as the sleeper sees it. UserSpec: a
      system call that holds one spinlock, with the memory of its process.
      PipeSpec, ConsoleSpec and VirtioSpec: pipes, the console and the disk
      driver with a device, on top of these.
    - Ulib: user/ulib.c and user/printf.c. Grep, Primes, Xargs, Find, Wc: the
      programs of those names, with their theorems. Sh: sh.c; ShParse: its
      parser against the syntax of commands; ShTrace: processes that fork,
      wait and exit, in any order, and the traces they can have; ShRun: runcmd
      and a session.
      Umalloc: umalloc.c; UmallocSpec: the heap as disjoint blocks. Uprog: cat,
      echo, ls, rm, mkdir, ln, kill, sleep and stat of ulib.c, over system calls
      with laws ([SysLaws]), and a system that keeps these.
    - Mkfs: mkfs/mkfs.c. MkfsSpec: the image as inodes with contents
      ([core], [good]). MkfsProof: the whole program. MkfsBoot: the kernel
      started on its image.
    - Stable: which routines leave a view of the state alone (open files, what
      belongs to each process), derived for each routine of the kernel by a
      type class, and how the others change it ([moves]). FileRefs: the
      reference counts of open files over all system calls, fork and exit.
      SysFrame: what a system call may change of its process. FdTypes: the
      tables of descriptors are well typed.
    - Asm: the instructions of entry.S, kernelvec.S, swtch.S and trampoline.S
      and a machine that runs them. AsmSpec: the registers they keep.
      TrapSpec: usertrapret with uservec, and kerneltrap.

    What the theorems show. Locks: mutual exclusion, nesting of push_off,
    panics on misuse. Memory: the allocator hands out each page once; page
    tables implement a map, address spaces grow, shrink, are copied and freed
    without losing pages; user copies stop at the first unmapped page.
    Processes: no lost wakeup, one hart per process, allocation and freeing,
    kill and wakeup. Cache: a block read is the block last written. Log: after
    a crash at any write, recovery leaves all of a transaction or none of it,
    and a crash during recovery does not matter. Files: what writei stores is
    what readi returns and, after end_op, what the disk holds; directories map
    names to inodes; one entry per inode in memory. Open files: the count of
    each is the number of descriptors that refer to it, before and after every
    system call, whatever it does and whatever others do while it waits (fork,
    when no other thread runs meanwhile). System calls: one that fails leaves
    its process as it was, one that succeeds changes only what it is for; the
    tables of descriptors stay well typed.
    Devices: pipes are bounded queues, the console edits lines, the disk driver
    transfers the block and frees its descriptors. Traps: context switches,
    traps and interrupts give back the registers, a trap in the kernel also
    the program counter and the status, and the way to user space prepares
    the next trap. mkfs: the image has the
    files it was given, in blocks of their own that the bitmap marks, and the
    kernel starts on it. Shell: a line that spells a command is parsed to it,
    every line is parsed or refused, and in every order of the processes each
    program runs with exactly the descriptors the line asks for and when the
    shell has waited for those before it. malloc and free: blocks handed out never
    overlap, free blocks are joined. grep, find, xargs, wc and primes do what
    their lines, trees and numbers ask for, however read cuts the input; cat
    copies its files up to the first that is missing, ls lists a directory, rm
    and mkdir stop at the first failure.

    Fuel and bounds. Loops whose length the code bounds take that bound as
    fuel (LOGSIZE for the log, 8192 bits of a bitmap block, n / BSIZE + 3
    blocks for a transfer of n bytes, size / 16 + 2 entries of a directory),
    and the theorems show it is never used up. Loops that wait take the length
    of the interference plus one: each turn consumes one change of the others.
    The parser of the shell recurses at most 4 n + 8 deep on a line of n bytes
    (the termination theorem of ShParse shows that this is enough), malloc
    goes round the free list once, and once more after morecore, iappend takes
    a byte at least in every round but the last.
    The theorems on files assume a disk with one bitmap block, at most 8192
    blocks (mkfs makes 2000), and bound the blocks one transaction logs by
    [FsSpec.tx_cap], 26, so that buffers remain for the three a routine may
    hold; a write of three blocks, what filewrite does at once, needs fewer.

    Not modelled. The devices themselves (UART, PLIC, CLINT, virtio) are what
    the theorems assume of them; the link scripts, the stubs of usys.pl and
    initcode.S are addresses and bytes; ramdisk.c is not part of the kernel
    that is built; init, pingpong and zombie go on in two processes after fork,
    in the order in which the kernel runs them; _main calls main and exits; the
    test programs and the build.
    Memory is sequentially consistent; other harts act only where the code
    waits. The system calls of user programs are modelled by what their
    programs rely on of them, not by running the kernel. *)

From Stdlib Require Import ZArith Lia String.
From stdpp Require Export base option list list_numbers gmap fin_maps strings.
Export ZArith Lia.

#[global] Open Scope Z_scope.

Declare Scope xv6_scope.
Delimit Scope xv6_scope with xv6.

Create HintDb xv6.

(** ** Fixed-width C integers *)

(** A value of an unsigned C type of width [w] is a [Z] in [0, 2^w); every
    operation that can leave the range is followed by one of these. *)
Definition u8 (x : Z) : Z := x mod 2 ^ 8.
Definition u16 (x : Z) : Z := x mod 2 ^ 16.
Definition u32 (x : Z) : Z := x mod 2 ^ 32.
Definition u64 (x : Z) : Z := x mod 2 ^ 64.

(** Conversion to the signed C types [short] and [int]. *)
Definition i16 (x : Z) : Z := (x + 2 ^ 15) mod 2 ^ 16 - 2 ^ 15.
Definition i32 (x : Z) : Z := (x + 2 ^ 31) mod 2 ^ 32 - 2 ^ 31.
Definition i8 (x : Z) : Z := (x + 2 ^ 7) mod 2 ^ 8 - 2 ^ 7.

Notation is_u8 x := (0 <= x < 256) (only parsing).
Notation is_u32 x := (0 <= x < 4294967296) (only parsing).
Notation is_u64 x := (0 <= x < 18446744073709551616) (only parsing).

(** Reduce the powers of two that the width functions leave. *)
Ltac pow2 :=
  change (2 ^ 7) with 128 in *; change (2 ^ 8) with 256 in *;
  change (2 ^ 9) with 512 in *; change (2 ^ 10) with 1024 in *;
  change (2 ^ 12) with 4096 in *;
  change (2 ^ 15) with 32768 in *; change (2 ^ 16) with 65536 in *;
  change (2 ^ 21) with 2097152 in *; change (2 ^ 30) with 1073741824 in *;
  change (2 ^ 31) with 2147483648 in *; change (2 ^ 32) with 4294967296 in *;
  change (2 ^ 38) with 274877906944 in *;
  change (2 ^ 54) with 18014398509481984 in *;
  change (2 ^ 56) with 72057594037927936 in *;
  change (2 ^ 64) with 18446744073709551616 in *.

(** Linear arithmetic over the width functions. *)
Ltac width_lia := unfold u8, u16, u32, u64, i8, i16, i32 in *; pow2;
  Z.div_mod_to_equations; lia.

Lemma i32_small x : -2147483648 <= x < 2147483648 -> i32 x = x.
Proof. intros. width_lia. Qed.

Lemma u64_small x : is_u64 x -> u64 x = x.
Proof. intros; unfold u64; apply Z.mod_small; pow2; lia. Qed.

Lemma u32_small x : is_u32 x -> u32 x = x.
Proof. intros; unfold u32; apply Z.mod_small; pow2; lia. Qed.

Lemma u8_small x : is_u8 x -> u8 x = x.
Proof. intros; unfold u8; apply Z.mod_small; pow2; lia. Qed.

Lemma u64_range x : is_u64 (u64 x).
Proof. unfold u64; pow2; apply Z.mod_pos_bound; lia. Qed.

Lemma u32_range x : is_u32 (u32 x).
Proof. unfold u32; pow2; apply Z.mod_pos_bound; lia. Qed.

Lemma u8_range x : is_u8 (u8 x).
Proof. unfold u8; pow2; apply Z.mod_pos_bound; lia. Qed.

#[export] Hint Resolve u64_range u32_range u8_range : xv6.
#[export] Hint Rewrite u64_small u32_small u8_small using lia : xv6.

(** ** Bit operations as arithmetic *)

Lemma land_ones_mod a n k : k = Z.ones n -> 0 <= n -> Z.land a k = a mod 2 ^ n.
Proof. intros -> ?. by apply Z.land_ones. Qed.

(** Testing the single bit [k] with a mask, as [x & (1 << k)] does in C. *)
Lemma land_bit_testbit x k m :
  m = 2 ^ k -> 0 <= k -> Z.land x m = if Z.testbit x k then m else 0.
Proof.
  intros -> Hk. apply Z.bits_inj'. intros i Hi.
  rewrite Z.land_spec, Z.pow2_bits_eqb by done.
  destruct (Z.eqb_spec k i) as [->|Hne].
  - rewrite andb_true_r. destruct (Z.testbit x i) eqn:E.
    + by rewrite Z.pow2_bits_eqb, Z.eqb_refl.
    + by rewrite Z.bits_0.
  - rewrite andb_false_r. destruct (Z.testbit x k).
    + rewrite Z.pow2_bits_eqb by done. symmetry. by apply Z.eqb_neq.
    + by rewrite Z.bits_0.
Qed.

(** Or-ing a small value into the zero low bits is an addition. *)
Lemma lor_low_add hi lo n :
  0 <= n -> 0 <= lo < 2 ^ n -> Z.lor (hi * 2 ^ n) lo = hi * 2 ^ n + lo.
Proof.
  intros Hn Hlo. symmetry. rewrite Z.lor_comm, Z.add_comm.
  rewrite Z.add_nocarry_lxor.
  2:{ apply Z.bits_inj'. intros i Hi. rewrite Z.land_spec, Z.bits_0.
      destruct (Z_lt_le_dec i n).
      - by rewrite (Z.mul_pow2_bits_low hi), andb_false_r by lia.
      - replace lo with (lo mod 2 ^ n) by (apply Z.mod_small; lia).
        by rewrite Z.mod_pow2_bits_high by lia. }
  apply Z.bits_inj'. intros i Hi. rewrite Z.lxor_spec, Z.lor_spec.
  destruct (Z_lt_le_dec i n).
  - rewrite (Z.mul_pow2_bits_low hi) by lia. by destruct (Z.testbit lo i).
  - replace lo with (lo mod 2 ^ n) by (apply Z.mod_small; lia).
    rewrite Z.mod_pow2_bits_high by lia. by destruct (Z.testbit _ i).
Qed.

#[global] Arguments Z.to_nat : simpl never.
#[global] Arguments Z.of_nat : simpl never.

(** ** Little-endian byte sequences *)

Fixpoint le_bytes (n : nat) (v : Z) : list Z :=
  match n with
  | O => []
  | S n => v mod 256 :: le_bytes n (v / 256)
  end.

Fixpoint le_val (l : list Z) : Z :=
  match l with
  | [] => 0
  | b :: l => b + 256 * le_val l
  end.

Notation bytes_ok l := (Forall (fun b => 0 <= b < 256) l).

Lemma length_le_bytes n v : length (le_bytes n v) = n.
Proof. revert v; induction n; simpl; auto. Qed.

Lemma le_bytes_ok n v : bytes_ok (le_bytes n v).
Proof.
  revert v; induction n; simpl; constructor; auto.
  apply Z.mod_pos_bound; lia.
Qed.

Lemma le_val_bytes n v : le_val (le_bytes n v) = v mod 256 ^ Z.of_nat n.
Proof.
  revert v; induction n as [|n IH]; intros v; cbn [le_val le_bytes].
  - by rewrite Z.mod_1_r.
  - rewrite IH, Nat2Z.inj_succ, Z.pow_succ_r by lia.
    rewrite (Z.rem_mul_r v 256) by (try apply Z.pow_pos_nonneg; lia). lia.
Qed.

Lemma le_val_range l : bytes_ok l -> 0 <= le_val l < 256 ^ Z.of_nat (length l).
Proof.
  induction 1 as [|b l Hb _ IH]; cbn [le_val length]; [cbn; lia|].
  rewrite Nat2Z.inj_succ, Z.pow_succ_r by lia. lia.
Qed.

Lemma le_bytes_val l : bytes_ok l -> le_bytes (length l) (le_val l) = l.
Proof.
  induction 1 as [|b l Hb _ IH]; cbn [le_val length le_bytes]; [done|].
  f_equal.
  - rewrite Z.mul_comm, Z.mod_add by lia. apply Z.mod_small; lia.
  - rewrite Z.mul_comm, Z.div_add by lia. rewrite Z.div_small by lia. done.
Qed.

#[export] Hint Resolve le_bytes_ok : xv6.
#[export] Hint Rewrite length_le_bytes : xv6.

(** ** Lists *)

Lemma list_alter_insert {A} (f : A -> A) (l : list A) i x :
  l !! i = Some x -> alter f i l = <[i := f x]> l.
Proof.
  revert i; induction l as [|y l IH]; intros [|i] H; simplify_eq/=; [done|].
  f_equal. by apply IH.
Qed.

(** ** Goal handling *)

(** Case split on the boolean comparison that blocks the goal. *)
Ltac bcase :=
  match goal with
  | |- context [?a =? ?b] => destruct (Z.eqb_spec a b)
  | |- context [?a <? ?b] => destruct (Z.ltb_spec a b)
  | |- context [?a <=? ?b] => destruct (Z.leb_spec a b)
  | H : context [?a =? ?b] |- _ => destruct (Z.eqb_spec a b)
  | H : context [?a <? ?b] |- _ => destruct (Z.ltb_spec a b)
  | H : context [?a <=? ?b] |- _ => destruct (Z.leb_spec a b)
  end.

Ltac bcases := repeat (bcase; try lia).
