(* ===== verification/Machine.v ===== *)
(** The machine the kernel runs on: the constants of param.h, memlayout.h and
    fs.h, the page and page-table macros of riscv.h at 64 bits, and
    byte-addressed memory with little-endian word access. *)

From S2P Require Import Prelude.

(** ** param.h *)
Definition NPROC : nat := 64.
Definition NCPU : nat := 8.
Definition NOFILE : nat := 16.
Definition NFILE : nat := 100.
Definition NINODE : nat := 50.
Definition NDEV : Z := 10.
Definition ROOTDEV : Z := 1.
Definition MAXARG : nat := 32.
Definition MAXOPBLOCKS : Z := 10.
Definition LOGSIZE : Z := MAXOPBLOCKS * 3.
Definition NBUF : nat := 30.
Definition FSSIZE : Z := 2000.
Definition MAXPATH : nat := 128.

(** ** riscv.h: pages and page-table entries *)
Definition PGSIZE : Z := 4096.
Definition PGSHIFT : Z := 12.

Definition PGROUNDUP (sz : Z) : Z :=
  Z.land (u64 (sz + PGSIZE - 1)) (u64 (Z.lnot (PGSIZE - 1))).
Definition PGROUNDDOWN (a : Z) : Z := Z.land a (u64 (Z.lnot (PGSIZE - 1))).

Definition PTE_V : Z := Z.shiftl 1 0.
Definition PTE_R : Z := Z.shiftl 1 1.
Definition PTE_W : Z := Z.shiftl 1 2.
Definition PTE_X : Z := Z.shiftl 1 3.
Definition PTE_U : Z := Z.shiftl 1 4.

Definition PA2PTE (pa : Z) : Z := u64 (Z.shiftl (Z.shiftr pa 12) 10).
Definition PTE2PA (pte : Z) : Z := u64 (Z.shiftl (Z.shiftr pte 10) 12).
Definition PTE_FLAGS (pte : Z) : Z := Z.land pte 0x3FF.

Definition PXMASK : Z := 0x1FF.
Definition PXSHIFT (level : Z) : Z := PGSHIFT + 9 * level.
Definition PX (level va : Z) : Z := Z.land (Z.shiftr va (PXSHIFT level)) PXMASK.
Definition MAXVA : Z := Z.shiftl 1 (9 + 9 + 9 + 12 - 1).

(** ** memlayout.h *)
Definition UART0 : Z := 0x10000000.
Definition VIRTIO0 : Z := 0x10001000.
Definition PLIC : Z := 0x0c000000.
Definition KERNBASE : Z := 0x80000000.
Definition PHYSTOP : Z := KERNBASE + 128 * 1024 * 1024.
Definition TRAMPOLINE : Z := MAXVA - PGSIZE.
Definition KSTACK (p : Z) : Z := TRAMPOLINE - (p + 1) * 2 * PGSIZE.
Definition TRAPFRAME : Z := TRAMPOLINE - PGSIZE.

(** ** fs.h *)
Definition ROOTINO : Z := 1.
Definition BSIZE : Z := 1024.
Definition FSMAGIC : Z := 0x10203040.
Definition NDIRECT : Z := 12.
Definition NINDIRECT : Z := BSIZE / 4.
Definition MAXFILE : Z := NDIRECT + NINDIRECT.
Definition DIRSIZ : nat := 14.

(** ** Memory *)

(** Kernel memory, byte-addressed; an address never written reads as 0. *)
Abbreviation mem := (gmap Z Z).

Definition load8 (m : mem) (a : Z) : Z := u8 (default 0 (m !! a)).
Definition store8 (m : mem) (a v : Z) : mem := <[a := u8 v]> m.

Fixpoint load_bytes (m : mem) (a : Z) (n : nat) : list Z :=
  match n with
  | O => []
  | S n => load8 m a :: load_bytes m (a + 1) n
  end.

Fixpoint store_bytes (m : mem) (a : Z) (l : list Z) : mem :=
  match l with
  | [] => m
  | b :: l => store_bytes (store8 m a b) (a + 1) l
  end.

Definition load64 (m : mem) (a : Z) : Z := le_val (load_bytes m a 8).
Definition store64 (m : mem) (a v : Z) : mem := store_bytes m a (le_bytes 8 v).
Definition load32 (m : mem) (a : Z) : Z := le_val (load_bytes m a 4).
Definition store32 (m : mem) (a v : Z) : mem := store_bytes m a (le_bytes 4 v).

(** [x] lies in the [n] bytes that start at [a]. *)
Notation within a n x := (a <= x < a + n) (only parsing).

(** Two memories agree on the [n] bytes at [a]. *)
Definition same_on (m m' : mem) (a n : Z) : Prop :=
  forall x, within a n x -> load8 m x = load8 m' x.

(** ** Memory lemmas *)

Lemma load8_range m a : is_u8 (load8 m a).
Proof. apply u8_range. Qed.

Lemma load8_store8 m a v x :
  load8 (store8 m a v) x = if x =? a then u8 v else load8 m x.
Proof.
  unfold load8, store8. destruct (Z.eqb_spec x a) as [->|].
  - rewrite lookup_insert_eq. simpl. rewrite u8_small; auto with xv6.
  - by rewrite lookup_insert_ne.
Qed.

Lemma length_load_bytes m a n : length (load_bytes m a n) = n.
Proof. revert a; induction n; simpl; auto. Qed.

Lemma load_bytes_ok m a n : bytes_ok (load_bytes m a n).
Proof. revert a; induction n; simpl; constructor; auto using load8_range. Qed.

Lemma lookup_load_bytes m a n i :
  (i < n)%nat -> load_bytes m a n !! i = Some (load8 m (a + Z.of_nat i)).
Proof.
  revert a i; induction n as [|n IH]; intros a [|i] Hi; try lia; simpl.
  - by rewrite Z.add_0_r.
  - rewrite IH by lia. do 2 f_equal. lia.
Qed.

Lemma load_bytes_ext m m' a n :
  same_on m m' a (Z.of_nat n) -> load_bytes m a n = load_bytes m' a n.
Proof.
  revert a; induction n as [|n IH]; intros a H; simpl; [done|].
  f_equal; [apply H; lia|]. apply IH. intros x Hx. apply H. lia.
Qed.

Lemma load8_store_bytes m a l x :
  load8 (store_bytes m a l) x =
  match (if a <=? x then l !! Z.to_nat (x - a) else None) with
  | Some b => u8 b
  | None => load8 m x
  end.
Proof.
  revert m a; induction l as [|b l IH]; intros m a; simpl.
  - by destruct (a <=? x).
  - rewrite IH, load8_store8. destruct (Z.eqb_spec x a) as [->|Hne].
    + rewrite Z.sub_diag. bcases. done.
    + bcases.
      by replace (Z.to_nat (x - a)) with (S (Z.to_nat (x - (a + 1)))) by lia.
Qed.

Lemma load8_store_bytes_out m a l x :
  ~ within a (Z.of_nat (length l)) x -> load8 (store_bytes m a l) x = load8 m x.
Proof.
  intros Hx. rewrite load8_store_bytes. bcases.
  by rewrite lookup_ge_None_2 by lia.
Qed.

Lemma load8_store_bytes_in m a l x b :
  a <= x -> l !! Z.to_nat (x - a) = Some b ->
  load8 (store_bytes m a l) x = u8 b.
Proof. intros Hx Hl. rewrite load8_store_bytes. bcases. by rewrite Hl. Qed.

(** Bytes just stored read back. *)
Lemma load_store_bytes m a l :
  bytes_ok l -> load_bytes (store_bytes m a l) a (length l) = l.
Proof.
  intros Hl. apply list_eq. intros i. destruct (decide (i < length l)%nat) as [Hi|Hi].
  - rewrite lookup_load_bytes by done.
    destruct (lookup_lt_is_Some_2 l i Hi) as [b Hb].
    rewrite load8_store_bytes_in with (b := b); [|lia|].
    + rewrite u8_small; [done|]. by eapply (Forall_lookup_1 _ _ _ _ Hl).
    + by replace (Z.to_nat (a + Z.of_nat i - a)) with i by lia.
  - rewrite !lookup_ge_None_2; [done|lia|rewrite length_load_bytes; lia].
Qed.

Lemma load64_ext m m' a : same_on m m' a 8 -> load64 m a = load64 m' a.
Proof. intros. unfold load64. f_equal. by apply load_bytes_ext. Qed.

Lemma load64_range m a : is_u64 (load64 m a).
Proof.
  unfold load64. pose proof (le_val_range _ (load_bytes_ok m a 8)) as H.
  rewrite length_load_bytes in H.
  change (256 ^ Z.of_nat 8) with 18446744073709551616 in H. lia.
Qed.

Lemma load64_store64_eq m a v : load64 (store64 m a v) a = u64 v.
Proof.
  unfold load64, store64.
  pose proof (load_store_bytes m a _ (le_bytes_ok 8 v)) as H.
  rewrite length_le_bytes in H. rewrite H, le_val_bytes. done.
Qed.

Lemma load8_store64_out m a v x :
  ~ within a 8 x -> load8 (store64 m a v) x = load8 m x.
Proof.
  intros. apply load8_store_bytes_out. rewrite length_le_bytes. lia.
Qed.

Lemma load64_store64_ne m a v b :
  b + 8 <= a \/ a + 8 <= b -> load64 (store64 m a v) b = load64 m b.
Proof. intros. apply load64_ext. intros x ?. apply load8_store64_out. lia. Qed.

Lemma same_on_sub m m' a n b k :
  same_on m m' a n -> a <= b -> b + k <= a + n -> same_on m m' b k.
Proof. intros H ?? x ?. apply H. lia. Qed.

Lemma same_on_trans m m' m'' a n :
  same_on m m' a n -> same_on m' m'' a n -> same_on m m'' a n.
Proof. intros H1 H2 x ?. rewrite H1, H2; auto. Qed.

Lemma same_on_sym m m' a n : same_on m m' a n -> same_on m' m a n.
Proof. intros H x ?. symmetry; auto. Qed.

#[export] Hint Resolve load8_range load64_range load_bytes_ok : xv6.
#[export] Hint Rewrite length_load_bytes : xv6.

(** ** Page arithmetic *)

Lemma PGROUNDDOWN_eq a : is_u64 a -> PGROUNDDOWN a = a - a mod PGSIZE.
Proof.
  intros Ha. unfold PGROUNDDOWN.
  replace (u64 (Z.lnot (PGSIZE - 1))) with (Z.ldiff (Z.ones 64) (Z.ones 12)) by done.
  assert (E : Z.land a (Z.ldiff (Z.ones 64) (Z.ones 12)) = Z.ldiff a (Z.ones 12)).
  { apply Z.bits_inj'. intros i Hi.
    rewrite Z.land_spec, !Z.ldiff_spec.
    destruct (Z_lt_le_dec i 64) as [|Hge].
    - by rewrite (Z.ones_spec_low 64) by lia.
    - replace a with (a mod 2 ^ 64) by (apply Z.mod_small; pow2; lia).
      by rewrite Z.mod_pow2_bits_high by lia. }
  rewrite E, Z.ldiff_ones_r by lia.
  rewrite Z.shiftr_div_pow2, Z.shiftl_mul_pow2 by lia.
  unfold PGSIZE. pow2. pose proof (Z.div_mod a 4096). lia.
Qed.

Lemma PGROUNDUP_eq sz :
  0 <= sz <= 18446744073709551616 - PGSIZE ->
  PGROUNDUP sz = (sz + 4095) / 4096 * 4096.
Proof.
  unfold PGSIZE; intros. unfold PGROUNDUP. fold (PGROUNDDOWN (u64 (sz + PGSIZE - 1))).
  rewrite PGROUNDDOWN_eq by auto with xv6. unfold PGSIZE.
  rewrite u64_small by lia. replace (sz + 4096 - 1) with (sz + 4095) by lia.
  pose proof (Z.div_mod (sz + 4095) 4096). lia.
Qed.

Lemma PX_eq level va : 0 <= level -> PX level va = va / 2 ^ (12 + 9 * level) mod 512.
Proof.
  intros. unfold PX, PXMASK, PXSHIFT, PGSHIFT.
  rewrite (land_ones_mod _ 9) by (done || lia).
  by rewrite Z.shiftr_div_pow2 by lia.
Qed.

Lemma PX_range level va : 0 <= level -> 0 <= PX level va < 512.
Proof. intros. rewrite PX_eq by done. apply Z.mod_pos_bound. lia. Qed.

Lemma PX0_eq va : PX 0 va = va / 4096 mod 512.
Proof. by rewrite PX_eq. Qed.
Lemma PX1_eq va : PX 1 va = va / 2097152 mod 512.
Proof. by rewrite PX_eq. Qed.
Lemma PX2_eq va : PX 2 va = va / 1073741824 mod 512.
Proof. by rewrite PX_eq. Qed.

(** The three indices and the page offset determine the virtual address. *)
Lemma va_split va :
  0 <= va < MAXVA ->
  va = PX 2 va * 1073741824 + PX 1 va * 2097152 + PX 0 va * 4096 + va mod 4096.
Proof.
  change MAXVA with 274877906944. intros.
  rewrite PX0_eq, PX1_eq, PX2_eq. Z.div_mod_to_equations. lia.
Qed.

Lemma PX2_low va : 0 <= va < MAXVA -> PX 2 va < 256.
Proof.
  change MAXVA with 274877906944. intros. rewrite PX2_eq. Z.div_mod_to_equations. lia.
Qed.

(** The address with the given indices. *)
Lemma va_join i2 i1 i0 :
  0 <= i2 < 256 -> 0 <= i1 < 512 -> 0 <= i0 < 512 ->
  let va := i2 * 1073741824 + i1 * 2097152 + i0 * 4096 in
  0 <= va < MAXVA /\ PX 2 va = i2 /\ PX 1 va = i1 /\ PX 0 va = i0.
Proof.
  change MAXVA with 274877906944. intros H2 H1 H0 va. subst va.
  rewrite PX0_eq, PX1_eq, PX2_eq. split; [lia|]. Z.div_mod_to_equations. lia.
Qed.

Lemma PX_inj va va' :
  0 <= va < MAXVA -> 0 <= va' < MAXVA ->
  PX 2 va = PX 2 va' -> PX 1 va = PX 1 va' -> PX 0 va = PX 0 va' ->
  va / 4096 = va' / 4096.
Proof.
  intros H H' E2 E1 E0. pose proof (va_split va H). pose proof (va_split va' H').
  Z.div_mod_to_equations. lia.
Qed.

(** A page-table entry as page number and flag bits. *)
Lemma PA2PTE_eq pa :
  0 <= pa < 72057594037927936 -> pa mod 4096 = 0 -> PA2PTE pa = pa / 4096 * 1024.
Proof.
  intros. unfold PA2PTE.
  rewrite Z.shiftr_div_pow2, Z.shiftl_mul_pow2 by lia. pow2.
  apply u64_small. Z.div_mod_to_equations. lia.
Qed.

Lemma PTE2PA_eq pte :
  0 <= pte < 18014398509481984 -> PTE2PA pte = pte / 1024 * 4096.
Proof.
  intros. unfold PTE2PA.
  rewrite Z.shiftr_div_pow2, Z.shiftl_mul_pow2 by lia. pow2.
  apply u64_small. Z.div_mod_to_equations. lia.
Qed.

(** Building an entry with [PA2PTE(pa) | flags] and taking it apart again. *)
Lemma mkpte_eq pa fl :
  0 <= pa < 72057594037927936 -> pa mod 4096 = 0 -> 0 <= fl < 1024 ->
  Z.lor (PA2PTE pa) fl = pa / 4096 * 1024 + fl.
Proof. intros. rewrite PA2PTE_eq by done. by apply (lor_low_add _ _ 10). Qed.

Lemma PTE2PA_mkpte pa fl :
  0 <= pa < 72057594037927936 -> pa mod 4096 = 0 -> 0 <= fl < 1024 ->
  PTE2PA (Z.lor (PA2PTE pa) fl) = pa.
Proof.
  intros. rewrite mkpte_eq by done.
  rewrite PTE2PA_eq; Z.div_mod_to_equations; lia.
Qed.

Lemma PTE_FLAGS_mkpte pa fl :
  0 <= pa < 72057594037927936 -> pa mod 4096 = 0 -> 0 <= fl < 1024 ->
  PTE_FLAGS (Z.lor (PA2PTE pa) fl) = fl.
Proof.
  intros. rewrite mkpte_eq by done. unfold PTE_FLAGS.
  rewrite (land_ones_mod _ 10) by (done || lia). pow2.
  rewrite Z.add_comm, Z.mod_add by lia. apply Z.mod_small; lia.
Qed.

Lemma mkpte_range pa fl :
  0 <= pa < 72057594037927936 -> pa mod 4096 = 0 -> 0 <= fl < 1024 ->
  0 <= Z.lor (PA2PTE pa) fl < 18014398509481984.
Proof. intros. rewrite mkpte_eq by done. Z.div_mod_to_equations. lia. Qed.
