(* ===== verification/KState.v ===== *)
(** The kernel's state and the monad its code runs in.

    The C globals become the fields of [kst], grouped by what protects them:
    harts and spinlocks ([hw]), physical memory and the page free list
    ([phys]), the process table ([pst]), the file system ([fst_]), open files
    and pipes ([vfs]), the drivers with their devices ([devs]), and what
    [printf] has printed.
    Pointers into static tables are indices, pointers into page memory are
    addresses, a null pointer is [None] or 0.

    A kernel function that returns [T] is a [K T]: it takes the state and the
    interference it will meet, one action of the other kernel threads for every
    time it spins or sleeps, and returns a value, panics, faults (an access C
    leaves undefined), blocks because the interference is used up, or runs out
    of the fuel of a loop. *)

From S2P Require Import Prelude Machine.

(** ** Locks and channels *)

(** spinlock.h. [lk_cpu] is the holder, [None] for a null pointer. *)
Record spinlock := Spinlock {
  lk_locked : Z;
  lk_name : string;
  lk_cpu : option nat }.

(** Every [struct spinlock] of the kernel, by where it is declared. [L_buf i]
    and [L_inode i] are the spinlocks inside the sleeplocks of the buffer cache
    and of the inode table. *)
Inductive lockid :=
  | L_kmem | L_pid | L_wait | L_proc (i : nat)
  | L_bcache | L_buf (i : nat) | L_log | L_itable | L_inode (i : nat)
  | L_ftable | L_pipe (a : Z) | L_tick | L_cons | L_uart | L_pr | L_vdisk.

#[global] Instance lockid_eq_dec : EqDecision lockid.
Proof. solve_decision. Defined.

Definition lockid_code (l : lockid) : nat * Z :=
  match l with
  | L_kmem => (0%nat, 0) | L_pid => (1%nat, 0) | L_wait => (2%nat, 0)
  | L_proc i => (3%nat, Z.of_nat i) | L_bcache => (4%nat, 0)
  | L_buf i => (5%nat, Z.of_nat i) | L_log => (6%nat, 0) | L_itable => (7%nat, 0)
  | L_inode i => (8%nat, Z.of_nat i) | L_ftable => (9%nat, 0)
  | L_pipe a => (10%nat, a) | L_tick => (11%nat, 0) | L_cons => (12%nat, 0)
  | L_uart => (13%nat, 0) | L_pr => (14%nat, 0) | L_vdisk => (15%nat, 0)
  end.

Definition lockid_decode (c : nat * Z) : lockid :=
  match c with
  | (0%nat, _) => L_kmem | (1%nat, _) => L_pid | (2%nat, _) => L_wait
  | (3%nat, z) => L_proc (Z.to_nat z) | (4%nat, _) => L_bcache
  | (5%nat, z) => L_buf (Z.to_nat z) | (6%nat, _) => L_log | (7%nat, _) => L_itable
  | (8%nat, z) => L_inode (Z.to_nat z) | (9%nat, _) => L_ftable
  | (10%nat, a) => L_pipe a | (11%nat, _) => L_tick | (12%nat, _) => L_cons
  | (13%nat, _) => L_uart | (14%nat, _) => L_pr | _ => L_vdisk
  end.

#[global] Program Instance lockid_countable : Countable lockid :=
  inj_countable' lockid_code lockid_decode _.
Next Obligation. by intros []; simpl; rewrite ?Nat2Z.id. Qed.

(** The addresses the kernel sleeps on. *)
Inductive chan :=
  | C_proc (i : nat) | C_buflock (i : nat) | C_inodelock (i : nat) | C_log
  | C_ticks | C_pipe_nread (a : Z) | C_pipe_nwrite (a : Z) | C_cons_r
  | C_uart_tx_r | C_disk_free | C_buf (i : nat).

#[global] Instance chan_eq_dec : EqDecision chan.
Proof. solve_decision. Defined.

(** sleeplock.h, without the inner spinlock, which is [L_buf] or [L_inode]. *)
Record sleeplock := Sleeplock {
  sl_locked : Z;
  sl_name : string;
  sl_pid : Z }.

(** ** proc.h *)

(** [struct context]: ra, sp and s0..s11. *)
Record context := Context_ {
  ctx_ra : Z;
  ctx_sp : Z;
  ctx_s : list Z }.

Record cpu := Cpu {
  c_proc : option nat;
  c_context : context;
  c_noff : Z;
  c_intena : bool }.

Inductive procstate := UNUSED | USED | SLEEPING | RUNNABLE | RUNNING | ZOMBIE.

#[global] Instance procstate_eq_dec : EqDecision procstate.
Proof. solve_decision. Defined.

Record proc := Proc {
  p_state : procstate;
  p_chan : option chan;
  p_killed : Z;
  p_xstate : Z;
  p_pid : Z;
  p_parent : option nat;
  p_kstack : Z;
  p_sz : Z;
  p_pagetable : Z;
  p_trapframe : Z;
  p_context : context;
  p_ofile : list (option nat);
  p_cwd : option nat;
  p_name : list Z }.

(** [struct trapframe] lives in a page of its own: its fields are the 64-bit
    words at these offsets. *)
Definition tf_kernel_satp : Z := 0.
Definition tf_kernel_sp : Z := 8.
Definition tf_kernel_trap : Z := 16.
Definition tf_epc : Z := 24.
Definition tf_kernel_hartid : Z := 32.
Definition tf_sp : Z := 48.
Definition tf_a0 : Z := 112.
Definition tf_a1 : Z := 120.
Definition tf_a2 : Z := 128.
Definition tf_a3 : Z := 136.
Definition tf_a4 : Z := 144.
Definition tf_a5 : Z := 152.
Definition tf_a7 : Z := 168.
Definition sizeof_trapframe : nat := 288.

(** ** buf.h, log.c, fs.h *)

(** [b_prev] and [b_next] index bcache.buf, with [NBUF] for &bcache.head. *)
Record buf := Buf {
  b_valid : Z;
  b_disk : Z;
  b_dev : Z;
  b_blockno : Z;
  b_lock : sleeplock;
  b_refcnt : Z;
  b_prev : nat;
  b_next : nat;
  b_data : list Z }.

Record logheader := Logheader {
  lh_n : Z;
  lh_block : list Z }.

Record log := Log {
  log_start : Z;
  log_size : Z;
  log_outstanding : Z;
  log_committing : Z;
  log_dev : Z;
  log_lh : logheader }.

Record superblock := Superblock {
  sb_magic : Z;
  sb_size : Z;
  sb_nblocks : Z;
  sb_ninodes : Z;
  sb_nlog : Z;
  sb_logstart : Z;
  sb_inodestart : Z;
  sb_bmapstart : Z }.

(** ** file.h, pipe.c *)

(** [struct inode]: the in-memory copy. *)
Record inode := Inode {
  i_dev : Z;
  i_inum : Z;
  i_ref : Z;
  i_lock : sleeplock;
  i_valid : Z;
  i_type : Z;
  i_major : Z;
  i_minor : Z;
  i_nlink : Z;
  i_size : Z;
  i_addrs : list Z }.

Inductive filetype := FD_NONE | FD_PIPE | FD_INODE | FD_DEVICE.

#[global] Instance filetype_eq_dec : EqDecision filetype.
Proof. solve_decision. Defined.

Record file := File {
  f_type : filetype;
  f_ref : Z;
  f_readable : Z;
  f_writable : Z;
  f_pipe : Z;
  f_ip : option nat;
  f_off : Z;
  f_major : Z }.

(** The fields of [struct pipe] besides its spinlock, [L_pipe]. *)
Record pipe := Pipe {
  pi_data : list Z;
  pi_nread : Z;
  pi_nwrite : Z;
  pi_readopen : Z;
  pi_writeopen : Z }.

(** ** console.c, uart.c, virtio_disk.c *)

(** The input buffer of the console; [r], [w] and [e] count bytes. *)
Record console := Console {
  cons_buf : list Z;
  cons_r : Z;
  cons_w : Z;
  cons_e : Z }.

(** The transmit buffer of uart.c and the device: [u_idle] holds what LSR will
    say of the transmitter at the next reads (idle when it is used up), [u_in]
    the bytes that wait in RHR, [u_writes] the register writes, oldest first. *)
Record uart := Uart {
  tx_buf : list Z;
  tx_w : Z;
  tx_r : Z;
  u_idle : list bool;
  u_in : list Z;
  u_writes : list (Z * Z) }.

(** [struct devsw]: which driver a pair of functions belongs to. *)
Inductive driver := CONSOLE_driver.
Record devsw_ := Devsw {
  dev_read : option driver;
  dev_write : option driver }.

(** What a descriptor points to: a request header, the data of a buffer or the
    status byte of a request. *)
Inductive dma := DMA_none | DMA_op (i : nat) | DMA_data (b : nat) | DMA_status (i : nat).

Record virtq_desc := VirtqDesc {
  vd_addr : dma;
  vd_len : Z;
  vd_flags : Z;
  vd_next : Z }.

Record virtio_blk_req := VirtioBlkReq {
  rq_type : Z;
  rq_reserved : Z;
  rq_sector : Z }.

(** [struct disk]. The three pages it allocates hold [dk_desc], the available
    ring [dk_avail_idx], [dk_avail_ring] and the used ring [dk_used_idx],
    [dk_used_ring]; [dk_pages] are their addresses. [dk_seen] is used_idx. *)
Record disk := Disk {
  dk_pages : list Z;
  dk_desc : list virtq_desc;
  dk_avail_idx : Z;
  dk_avail_ring : list Z;
  dk_used_idx : Z;
  dk_used_ring : list Z;
  dk_free : list Z;
  dk_seen : Z;
  dk_info : list (option nat * Z);
  dk_ops : list virtio_blk_req }.

(** The control and status registers of the running hart. *)
Inductive csr :=
  | R_mstatus | R_mepc | R_satp | R_medeleg | R_mideleg | R_sie | R_pmpaddr0 | R_pmpcfg0
  | R_mscratch | R_mtvec | R_mie | R_sstatus | R_stvec | R_sepc | R_scause | R_stval | R_sip | R_mhartid.

#[global] Instance csr_eq_dec : EqDecision csr.
Proof. solve_decision. Defined.

(** The drivers and what they drive. [d_regs] are the memory-mapped registers
    of virtio, PLIC and CLINT; [d_claim] is what the PLIC will give at the
    next claims; [d_started], [d_panicked], [d_locking] and [d_first] are the C
    variables [started], [panicked], [pr.locking] and [first]. *)
Record devs := Devs {
  d_cons : console;
  d_uart : uart;
  d_devsw : list devsw_;
  d_disk : disk;
  d_csr : csr -> Z;
  d_regs : gmap Z Z;
  d_claim : list Z;
  d_started : Z;
  d_panicked : Z;
  d_locking : Z;
  d_first : Z }.

(** ** The state *)

(** Addresses the linker decides. *)
Record layout := Layout {
  ld_end : Z;
  ld_etext : Z;
  ld_trampoline : Z;
  ld_forkret : Z;
  ld_uservec : Z;
  ld_userret : Z;
  ld_kernelvec : Z;
  ld_usertrap : Z;
  ld_main : Z;
  ld_timervec : Z;
  ld_scratch : Z }.

(** The harts: which one runs this thread (its tp register), the SIE bit of
    each one's sstatus, the per-CPU structures, and all spinlocks. *)
Record hw := Hw {
  h_hart : nat;
  h_sie : list bool;
  h_cpus : list cpu;
  h_locks : gmap lockid spinlock }.

Record phys := Phys {
  ph_mem : mem;
  ph_freelist : Z }.

Record pst := Pst {
  ps_procs : list proc;
  ps_initproc : option nat;
  ps_nextpid : Z;
  ps_kpgtbl : Z;
  ps_ticks : Z }.

(** [fs_bufs] holds bcache.buf[0..NBUF) and then bcache.head; [fs_disk] is the
    content of the disk and [fs_writes] the writes it has received, oldest
    first. *)
Record fst_ := Fst {
  fs_bufs : list buf;
  fs_disk : gmap Z (list Z);
  fs_writes : list (Z * list Z);
  fs_log : log;
  fs_sb : superblock;
  fs_inodes : list inode }.

(** Open files, and the pipes by the page that holds each one. *)
Record vfs := Vfs {
  v_files : list file;
  v_pipes : gmap Z pipe }.

Record kst := Kst {
  k_layout : layout;
  k_hw : hw;
  k_phys : phys;
  k_ps : pst;
  k_fs : fst_;
  k_vfs : vfs;
  k_dev : devs;
  k_out : list string }.

(** ** Updates *)

Definition set_hw (h : hw) (s : kst) : kst :=
  Kst (k_layout s) h (k_phys s) (k_ps s) (k_fs s) (k_vfs s) (k_dev s) (k_out s).
Definition set_phys (p : phys) (s : kst) : kst :=
  Kst (k_layout s) (k_hw s) p (k_ps s) (k_fs s) (k_vfs s) (k_dev s) (k_out s).
Definition set_ps (p : pst) (s : kst) : kst :=
  Kst (k_layout s) (k_hw s) (k_phys s) p (k_fs s) (k_vfs s) (k_dev s) (k_out s).
Definition set_fs (f : fst_) (s : kst) : kst :=
  Kst (k_layout s) (k_hw s) (k_phys s) (k_ps s) f (k_vfs s) (k_dev s) (k_out s).
Definition set_vfs (v : vfs) (s : kst) : kst :=
  Kst (k_layout s) (k_hw s) (k_phys s) (k_ps s) (k_fs s) v (k_dev s) (k_out s).
Definition set_dev (d : devs) (s : kst) : kst :=
  Kst (k_layout s) (k_hw s) (k_phys s) (k_ps s) (k_fs s) (k_vfs s) d (k_out s).
Definition set_out (o : list string) (s : kst) : kst :=
  Kst (k_layout s) (k_hw s) (k_phys s) (k_ps s) (k_fs s) (k_vfs s) (k_dev s) o.

Definition hw_set_sie (x : list bool) (h : hw) : hw :=
  Hw (h_hart h) x (h_cpus h) (h_locks h).
Definition hw_set_cpus (x : list cpu) (h : hw) : hw :=
  Hw (h_hart h) (h_sie h) x (h_locks h).
Definition hw_set_locks (x : gmap lockid spinlock) (h : hw) : hw :=
  Hw (h_hart h) (h_sie h) (h_cpus h) x.

Definition ph_set_mem (m : mem) (p : phys) : phys := Phys m (ph_freelist p).
Definition ph_set_freelist (a : Z) (p : phys) : phys := Phys (ph_mem p) a.

Definition ps_set_procs (x : list proc) (p : pst) : pst :=
  Pst x (ps_initproc p) (ps_nextpid p) (ps_kpgtbl p) (ps_ticks p).
Definition ps_set_initproc (x : option nat) (p : pst) : pst :=
  Pst (ps_procs p) x (ps_nextpid p) (ps_kpgtbl p) (ps_ticks p).
Definition ps_set_nextpid (x : Z) (p : pst) : pst :=
  Pst (ps_procs p) (ps_initproc p) x (ps_kpgtbl p) (ps_ticks p).
Definition ps_set_kpgtbl (x : Z) (p : pst) : pst :=
  Pst (ps_procs p) (ps_initproc p) (ps_nextpid p) x (ps_ticks p).
Definition ps_set_ticks (x : Z) (p : pst) : pst :=
  Pst (ps_procs p) (ps_initproc p) (ps_nextpid p) (ps_kpgtbl p) x.

Definition fs_set_bufs (x : list buf) (f : fst_) : fst_ :=
  Fst x (fs_disk f) (fs_writes f) (fs_log f) (fs_sb f) (fs_inodes f).
Definition fs_set_disk (x : gmap Z (list Z)) (w : list (Z * list Z)) (f : fst_) : fst_ :=
  Fst (fs_bufs f) x w (fs_log f) (fs_sb f) (fs_inodes f).
Definition fs_set_log (x : log) (f : fst_) : fst_ :=
  Fst (fs_bufs f) (fs_disk f) (fs_writes f) x (fs_sb f) (fs_inodes f).
Definition fs_set_sb (x : superblock) (f : fst_) : fst_ :=
  Fst (fs_bufs f) (fs_disk f) (fs_writes f) (fs_log f) x (fs_inodes f).
Definition fs_set_inodes (x : list inode) (f : fst_) : fst_ :=
  Fst (fs_bufs f) (fs_disk f) (fs_writes f) (fs_log f) (fs_sb f) x.

Definition v_set_files (x : list file) (v : vfs) : vfs := Vfs x (v_pipes v).
Definition v_set_pipes (x : gmap Z pipe) (v : vfs) : vfs := Vfs (v_files v) x.

Definition d_set_cons (x : console) (d : devs) : devs :=
  Devs x (d_uart d) (d_devsw d) (d_disk d) (d_csr d) (d_regs d) (d_claim d) (d_started d)
    (d_panicked d) (d_locking d) (d_first d).
Definition d_set_uart (x : uart) (d : devs) : devs :=
  Devs (d_cons d) x (d_devsw d) (d_disk d) (d_csr d) (d_regs d) (d_claim d) (d_started d)
    (d_panicked d) (d_locking d) (d_first d).
Definition d_set_devsw (x : list devsw_) (d : devs) : devs :=
  Devs (d_cons d) (d_uart d) x (d_disk d) (d_csr d) (d_regs d) (d_claim d) (d_started d)
    (d_panicked d) (d_locking d) (d_first d).
Definition d_set_disk (x : disk) (d : devs) : devs :=
  Devs (d_cons d) (d_uart d) (d_devsw d) x (d_csr d) (d_regs d) (d_claim d) (d_started d)
    (d_panicked d) (d_locking d) (d_first d).
Definition d_set_csr (x : csr -> Z) (d : devs) : devs :=
  Devs (d_cons d) (d_uart d) (d_devsw d) (d_disk d) x (d_regs d) (d_claim d) (d_started d)
    (d_panicked d) (d_locking d) (d_first d).
Definition d_set_regs (x : gmap Z Z) (d : devs) : devs :=
  Devs (d_cons d) (d_uart d) (d_devsw d) (d_disk d) (d_csr d) x (d_claim d) (d_started d)
    (d_panicked d) (d_locking d) (d_first d).
Definition d_set_claim (x : list Z) (d : devs) : devs :=
  Devs (d_cons d) (d_uart d) (d_devsw d) (d_disk d) (d_csr d) (d_regs d) x (d_started d)
    (d_panicked d) (d_locking d) (d_first d).
Definition d_set_started (x : Z) (d : devs) : devs :=
  Devs (d_cons d) (d_uart d) (d_devsw d) (d_disk d) (d_csr d) (d_regs d) (d_claim d) x
    (d_panicked d) (d_locking d) (d_first d).
Definition d_set_panicked (x : Z) (d : devs) : devs :=
  Devs (d_cons d) (d_uart d) (d_devsw d) (d_disk d) (d_csr d) (d_regs d) (d_claim d) (d_started d)
    x (d_locking d) (d_first d).
Definition d_set_locking (x : Z) (d : devs) : devs :=
  Devs (d_cons d) (d_uart d) (d_devsw d) (d_disk d) (d_csr d) (d_regs d) (d_claim d) (d_started d)
    (d_panicked d) x (d_first d).
Definition d_set_first (x : Z) (d : devs) : devs :=
  Devs (d_cons d) (d_uart d) (d_devsw d) (d_disk d) (d_csr d) (d_regs d) (d_claim d) (d_started d)
    (d_panicked d) (d_locking d) x.

Definition cpu_set_noff (x : Z) (c : cpu) : cpu :=
  Cpu (c_proc c) (c_context c) x (c_intena c).
Definition cpu_set_intena (x : bool) (c : cpu) : cpu :=
  Cpu (c_proc c) (c_context c) (c_noff c) x.
Definition cpu_set_proc (x : option nat) (c : cpu) : cpu :=
  Cpu x (c_context c) (c_noff c) (c_intena c).

Definition p_set_state (x : procstate) (p : proc) : proc :=
  Proc x (p_chan p) (p_killed p) (p_xstate p) (p_pid p) (p_parent p) (p_kstack p) (p_sz p)
    (p_pagetable p) (p_trapframe p) (p_context p) (p_ofile p) (p_cwd p) (p_name p).
Definition p_set_chan (x : option chan) (p : proc) : proc :=
  Proc (p_state p) x (p_killed p) (p_xstate p) (p_pid p) (p_parent p) (p_kstack p) (p_sz p)
    (p_pagetable p) (p_trapframe p) (p_context p) (p_ofile p) (p_cwd p) (p_name p).
Definition p_set_killed (x : Z) (p : proc) : proc :=
  Proc (p_state p) (p_chan p) x (p_xstate p) (p_pid p) (p_parent p) (p_kstack p) (p_sz p)
    (p_pagetable p) (p_trapframe p) (p_context p) (p_ofile p) (p_cwd p) (p_name p).
Definition p_set_xstate (x : Z) (p : proc) : proc :=
  Proc (p_state p) (p_chan p) (p_killed p) x (p_pid p) (p_parent p) (p_kstack p) (p_sz p)
    (p_pagetable p) (p_trapframe p) (p_context p) (p_ofile p) (p_cwd p) (p_name p).
Definition p_set_pid (x : Z) (p : proc) : proc :=
  Proc (p_state p) (p_chan p) (p_killed p) (p_xstate p) x (p_parent p) (p_kstack p) (p_sz p)
    (p_pagetable p) (p_trapframe p) (p_context p) (p_ofile p) (p_cwd p) (p_name p).
Definition p_set_parent (x : option nat) (p : proc) : proc :=
  Proc (p_state p) (p_chan p) (p_killed p) (p_xstate p) (p_pid p) x (p_kstack p) (p_sz p)
    (p_pagetable p) (p_trapframe p) (p_context p) (p_ofile p) (p_cwd p) (p_name p).
Definition p_set_kstack (x : Z) (p : proc) : proc :=
  Proc (p_state p) (p_chan p) (p_killed p) (p_xstate p) (p_pid p) (p_parent p) x (p_sz p)
    (p_pagetable p) (p_trapframe p) (p_context p) (p_ofile p) (p_cwd p) (p_name p).
Definition p_set_sz (x : Z) (p : proc) : proc :=
  Proc (p_state p) (p_chan p) (p_killed p) (p_xstate p) (p_pid p) (p_parent p) (p_kstack p) x
    (p_pagetable p) (p_trapframe p) (p_context p) (p_ofile p) (p_cwd p) (p_name p).
Definition p_set_pagetable (x : Z) (p : proc) : proc :=
  Proc (p_state p) (p_chan p) (p_killed p) (p_xstate p) (p_pid p) (p_parent p) (p_kstack p)
    (p_sz p) x (p_trapframe p) (p_context p) (p_ofile p) (p_cwd p) (p_name p).
Definition p_set_trapframe (x : Z) (p : proc) : proc :=
  Proc (p_state p) (p_chan p) (p_killed p) (p_xstate p) (p_pid p) (p_parent p) (p_kstack p)
    (p_sz p) (p_pagetable p) x (p_context p) (p_ofile p) (p_cwd p) (p_name p).
Definition p_set_context (x : context) (p : proc) : proc :=
  Proc (p_state p) (p_chan p) (p_killed p) (p_xstate p) (p_pid p) (p_parent p) (p_kstack p)
    (p_sz p) (p_pagetable p) (p_trapframe p) x (p_ofile p) (p_cwd p) (p_name p).
Definition p_set_ofile (x : list (option nat)) (p : proc) : proc :=
  Proc (p_state p) (p_chan p) (p_killed p) (p_xstate p) (p_pid p) (p_parent p) (p_kstack p)
    (p_sz p) (p_pagetable p) (p_trapframe p) (p_context p) x (p_cwd p) (p_name p).
Definition p_set_cwd (x : option nat) (p : proc) : proc :=
  Proc (p_state p) (p_chan p) (p_killed p) (p_xstate p) (p_pid p) (p_parent p) (p_kstack p)
    (p_sz p) (p_pagetable p) (p_trapframe p) (p_context p) (p_ofile p) x (p_name p).
Definition p_set_name (x : list Z) (p : proc) : proc :=
  Proc (p_state p) (p_chan p) (p_killed p) (p_xstate p) (p_pid p) (p_parent p) (p_kstack p)
    (p_sz p) (p_pagetable p) (p_trapframe p) (p_context p) (p_ofile p) (p_cwd p) x.

(** ** The monad *)

(** What the other threads do at each point where this one waits. *)
Abbreviation env := (list (kst -> kst)).

Inductive res (A : Type) :=
  | Ok (a : A) (e : env) (s : kst)
  | Panic (msg : string)
  | Fault
  | Block
  | NoFuel.
Arguments Ok {A} _ _ _.
Arguments Panic {A} _.
Arguments Fault {A}.
Arguments Block {A}.
Arguments NoFuel {A}.

(** What a call returned, if it did. *)
Definition value_of {A} (r : res A) : option A := match r with Ok a _ _ => Some a | _ => None end.

Lemma value_of_Some {A} (r : res A) a : value_of r = Some a -> exists e s, r = Ok a e s.
Proof. destruct r; simpl; intros H; inversion H. by do 2 eexists. Qed.

Definition K (A : Type) : Type := env -> kst -> res A.

#[global] Instance K_ret : MRet K := fun A a e s => Ok a e s.
#[global] Instance K_bind : MBind K := fun A B k m e s =>
  match m e s with
  | Ok a e s => k a e s
  | Panic msg => Panic msg
  | Fault => Fault
  | Block => Block
  | NoFuel => NoFuel
  end.

Definition panic {A} (msg : string) : K A := fun _ _ => Panic msg.
Definition fault {A} : K A := fun _ _ => Fault.
Definition nofuel {A} : K A := fun _ _ => NoFuel.
Definition block {A} : K A := fun _ _ => Block.
Definition gets {A} (f : kst -> A) : K A := fun e s => Ok (f s) e s.
Definition modk (f : kst -> kst) : K unit := fun e s => Ok tt e (f s).

(** An array access: out of range is undefined in C. *)
Definition deref {A} (o : option A) : K A :=
  match o with Some a => mret a | None => fault end.

(** Wait once: the other threads take their next action. *)
Definition interfere : K unit := fun e s =>
  match e with
  | [] => Block
  | f :: e => Ok tt e (f s)
  end.

(** Run the condition or skip. *)
Definition when (b : bool) (m : K unit) : K unit := if b then m else mret tt.

Fixpoint forK {A} (l : list A) (body : A -> K unit) : K unit :=
  match l with
  | [] => mret tt
  | x :: l => body x ;; forK l body
  end.

(** ** Memory access *)

Definition getmem : K mem := gets (fun s => ph_mem (k_phys s)).
Definition setmem (f : mem -> mem) : K unit :=
  modk (fun s => set_phys (ph_set_mem (f (ph_mem (k_phys s))) (k_phys s)) s).
Definition printf (msg : string) : K unit := modk (fun s => set_out (k_out s ++ [msg]) s).
Definition kload64 (a : Z) : K Z := m ← getmem; mret (load64 m a).
Definition kstore64 (a v : Z) : K unit := setmem (fun m => store64 m a v).
Definition kload8 (a : Z) : K Z := m ← getmem; mret (load8 m a).
Definition kstore8 (a v : Z) : K unit := setmem (fun m => store8 m a v).

(** ** Reasoning *)

(** [wp m e s Q]: from [s], [m] returns, and what it returns satisfies [Q].
    No panic, no undefined access, no blocking. *)
Definition wp {A} (m : K A) (e : env) (s : kst) (Q : A -> env -> kst -> Prop) : Prop :=
  match m e s with
  | Ok a e' s' => Q a e' s'
  | _ => False
  end.

Lemma wp_bind {A B} (m : K A) (k : A -> K B) e s Q :
  wp m e s (fun a e' s' => wp (k a) e' s' Q) -> wp (x ← m; k x) e s Q.
Proof. unfold wp, mbind, K_bind. by destruct (m e s). Qed.

Lemma wp_seq {A B} (m : K A) (k : K B) e s Q :
  wp m e s (fun _ e' s' => wp k e' s' Q) -> wp (m ;; k) e s Q.
Proof. apply (wp_bind m (fun _ => k)). Qed.

Lemma wp_mono {A} (m : K A) e s (P Q : A -> env -> kst -> Prop) :
  wp m e s P -> (forall a e' s', P a e' s' -> Q a e' s') -> wp m e s Q.
Proof. unfold wp. destruct (m e s); auto. Qed.

Lemma wp_ret {A} (a : A) e s (Q : A -> env -> kst -> Prop) : Q a e s -> wp (mret a) e s Q.
Proof. done. Qed.

Lemma wp_gets {A} (f : kst -> A) e s (Q : A -> env -> kst -> Prop) :
  Q (f s) e s -> wp (gets f) e s Q.
Proof. done. Qed.

Lemma wp_modk f e s (Q : unit -> env -> kst -> Prop) : Q tt e (f s) -> wp (modk f) e s Q.
Proof. done. Qed.

Lemma wp_eq {A} (m : K A) e s a e' s' : m e s = Ok a e' s' <-> wp m e s (fun b f t => b = a /\ f = e' /\ t = s').
Proof.
  unfold wp. destruct (m e s); split; intros H; try done.
  - by inversion H.
  - by destruct H as (-> & -> & ->).
Qed.

Lemma wp_elim {A} (m : K A) e s (Q : A -> env -> kst -> Prop) :
  wp m e s Q -> exists a e' s', m e s = Ok a e' s' /\ Q a e' s'.
Proof. unfold wp. destruct (m e s); try done. eauto. Qed.

(** Replay a known run. *)
Lemma wp_run {A} (m : K A) e s a e' s' (Q : A -> env -> kst -> Prop) :
  m e s = Ok a e' s' -> Q a e' s' -> wp m e s Q.
Proof. unfold wp. by intros ->. Qed.

Lemma bind_run {A B} (m : K A) (k : A -> K B) e s a e' s' :
  m e s = Ok a e' s' -> (x ← m; k x) e s = k a e' s'.
Proof. unfold mbind, K_bind. by intros ->. Qed.

Lemma bind_assoc_run {A B C} (m : K A) (k : A -> K B) (j : B -> K C) e s :
  (y ← (x ← m; k x); j y) e s = (x ← m; (y ← k x; j y)) e s.
Proof. unfold mbind, K_bind. by destruct (m e s). Qed.

(** A loop invariant for [forK]. *)
Lemma wp_forK {A} (body : A -> K unit) e (I : list A -> kst -> Prop) (l : list A) s Q :
  I l s ->
  (forall x l s, I (x :: l) s -> wp (body x) e s (fun _ e' s' => e' = e /\ I l s')) ->
  (forall s, I [] s -> Q tt e s) ->
  wp (forK l body) e s Q.
Proof.
  intros HI Hb HQ. revert s HI. induction l as [|x l IH]; intros s HI; simpl.
  - by apply wp_ret, HQ.
  - apply wp_seq. eapply wp_mono; [by apply Hb|]. intros ? ? ? [-> ?]. by apply IH.
Qed.

(** ** Frames *)

(** [Keeps f m]: when [m] returns, [f] of the state is what it was. The
    instances derive it from the text of [m], so long as [m] does not wait. *)
Class Keeps {A B} (f : kst -> B) (m : K A) : Prop :=
  keeps : forall e s a e' s', m e s = Ok a e' s' -> f s' = f s.

#[global] Instance keeps_ret {A B} (f : kst -> B) (a : A) : Keeps f (mret a).
Proof. intros e s b e' s' H. by injection H as _ _ <-. Qed.

#[global] Instance keeps_bind {A B C} (f : kst -> C) (m : K A) (k : A -> K B) :
  Keeps f m -> (forall a, Keeps f (k a)) -> Keeps f (x ← m; k x).
Proof.
  intros Hm Hk e s b e' s'. unfold mbind, K_bind. destruct (m e s) as [a e1 s1|msg| | |] eqn:E; try done.
  intros H. rewrite (Hk _ _ _ _ _ _ H). by eapply Hm.
Qed.

#[global] Instance keeps_gets {A B} (f : kst -> B) (g : kst -> A) : Keeps f (gets g).
Proof. intros e s b e' s' H. by injection H as _ _ <-. Qed.

#[global] Instance keeps_panic {A B} (f : kst -> B) msg : Keeps f (@panic A msg).
Proof. by intros e s b e' s'. Qed.

#[global] Instance keeps_deref {A B} (f : kst -> B) (o : option A) : Keeps f (deref o).
Proof. destruct o; [apply keeps_ret|by intros e s b e' s']. Qed.

#[global] Instance keeps_if {A B} (f : kst -> B) (b : bool) (m k : K A) :
  Keeps f m -> Keeps f k -> Keeps f (if b then m else k).
Proof. by destruct b. Qed.

#[global] Instance keeps_when {B} (f : kst -> B) (b : bool) (m : K unit) : Keeps f m -> Keeps f (when b m).
Proof. intros H. unfold when. apply keeps_if; [done|apply keeps_ret]. Qed.

Lemma keeps_modk {B} (f : kst -> B) g : (forall s, f (g s) = f s) -> Keeps f (modk g).
Proof. intros H e s b e' s' E. injection E as _ _ <-. apply H. Qed.

#[global] Hint Extern 1 (Keeps _ (modk _)) =>
  apply keeps_modk; intros []; reflexivity : typeclass_instances.

(** ** A machine just after boot *)

(** All memory zero, hart 0 running with interrupts on, and eight pages of
    free memory between [end] and PHYSTOP. *)
Definition context0 : context := Context_ 0 0 (replicate 12 0).
Definition cpu0 : cpu := Cpu None context0 0 true.
Definition layout0 : layout :=
  Layout (PHYSTOP - 8 * PGSIZE) (KERNBASE + 0x8000) (KERNBASE + 0x7000) (KERNBASE + 0x2000)
    (KERNBASE + 0x7000) (KERNBASE + 0x709c) (KERNBASE + 0x5b60) (KERNBASE + 0x27f0) (KERNBASE + 0xea2)
    (KERNBASE + 0x5c00) (KERNBASE + 0x8a30).
Definition hw0 : hw := Hw 0 (replicate NCPU true) (replicate NCPU cpu0) ∅.
Definition proc0 : proc :=
  Proc UNUSED None 0 0 0 None 0 0 0 0 context0 (replicate NOFILE None) None (replicate 16 0).
Definition buf0 : buf := Buf 0 0 0 0 (Sleeplock 0 "" 0) 0 0 0 (replicate (Z.to_nat BSIZE) 0).
Definition log0 : log := Log 0 0 0 0 0 (Logheader 0 (replicate (Z.to_nat LOGSIZE) 0)).
Definition inode0 : inode := Inode 0 0 0 (Sleeplock 0 "" 0) 0 0 0 0 0 0 (replicate 13 0).
Definition file0 : file := File FD_NONE 0 0 0 0 None 0 0.
Definition disk0 : disk :=
  Disk [] (replicate 8 (VirtqDesc DMA_none 0 0 0)) 0 (replicate 8 0) 0 (replicate 8 0) (replicate 8 0) 0
    (replicate 8 (None, 0)) (replicate 8 (VirtioBlkReq 0 0 0)).
Definition devs0 : devs :=
  Devs (Console (replicate 128 0) 0 0 0) (Uart (replicate 32 0) 0 0 [] [] []) (replicate 10 (Devsw None None))
    disk0 (fun _ => 0) ∅ [] 0 0 0 1.
Definition kst0 : kst :=
  Kst layout0 hw0 (Phys ∅ 0) (Pst (replicate NPROC proc0) None 1 0 0)
    (Fst (replicate (S NBUF) buf0) ∅ [] log0 (Superblock 0 0 0 0 0 0 0 0)
       (replicate NINODE inode0))
    (Vfs (replicate NFILE file0) ∅) devs0 [].
