(* ===== verification/Spinlock.v ===== *)
(** spinlock.c: interrupt nesting ([push_off], [pop_off]) and spinlocks, with
    the hart access they need from riscv.h and proc.c.

    [Spinlock] runs the code of one thread. [Mutex] models every hart at once,
    one mutex_step per memory access of [acquire] and [release], for mutual
    exclusion. *)

From S2P Require Import Prelude Machine KState.

(** ** riscv.h and proc.c: the running hart *)

Definition cpuid : K nat := gets (fun s => h_hart (k_hw s)).
Definition mycpu : K nat := cpuid.

Definition intr_get : K bool :=
  id ← cpuid; h ← gets k_hw; deref (h_sie h !! id).

Definition intr_set (b : bool) : K unit :=
  id ← cpuid;
  modk (fun s => set_hw (hw_set_sie (<[id := b]> (h_sie (k_hw s))) (k_hw s)) s).

Definition intr_on : K unit := intr_set true.
Definition intr_off : K unit := intr_set false.

Definition get_cpu (c : nat) : K cpu := h ← gets k_hw; deref (h_cpus h !! c).
Definition upd_cpu (c : nat) (f : cpu -> cpu) : K unit :=
  x ← get_cpu c;
  modk (fun s => set_hw (hw_set_cpus (<[c := f x]> (h_cpus (k_hw s))) (k_hw s)) s).

(** ** spinlock.c *)

Definition get_lock (l : lockid) : K spinlock := h ← gets k_hw; deref (h_locks h !! l).
Definition put_lock (l : lockid) (x : spinlock) : K unit :=
  modk (fun s => set_hw (hw_set_locks (<[l := x]> (h_locks (k_hw s))) (k_hw s)) s).

Definition initlock (l : lockid) (name : string) : K unit :=
  put_lock l (Spinlock 0 name None).

Definition holding (l : lockid) : K bool :=
  lk ← get_lock l;
  me ← mycpu;
  mret (negb (lk_locked lk =? 0) && bool_decide (lk_cpu lk = Some me)).

Definition push_off : K unit :=
  old ← intr_get;
  intr_off ;;
  c ← mycpu;
  x ← get_cpu c;
  when (c_noff x =? 0) (upd_cpu c (cpu_set_intena old)) ;;
  upd_cpu c (fun x => cpu_set_noff (c_noff x + 1) x).

Definition pop_off : K unit :=
  c ← mycpu;
  i ← intr_get;
  when i (panic "pop_off - interruptible") ;;
  x ← get_cpu c;
  when (c_noff x <? 1) (panic "pop_off") ;;
  upd_cpu c (fun x => cpu_set_noff (c_noff x - 1) x) ;;
  x ← get_cpu c;
  when ((c_noff x =? 0) && c_intena x) intr_on.

(** [while(__sync_lock_test_and_set(&lk->locked, 1) != 0);]: the swap stores 1
    and returns the old value; each failed try is a wait. *)
Fixpoint acquire_spin (l : lockid) (e : env) (s : kst) : res unit :=
  match h_locks (k_hw s) !! l with
  | None => Fault
  | Some lk =>
    let s := set_hw (hw_set_locks
               (<[l := Spinlock 1 (lk_name lk) (lk_cpu lk)]> (h_locks (k_hw s))) (k_hw s)) s in
    if lk_locked lk =? 0 then Ok tt e s
    else match e with
         | [] => Block
         | f :: e => acquire_spin l e (f s)
         end
  end.

Definition acquire (l : lockid) : K unit :=
  push_off ;;
  h ← holding l;
  when h (panic "acquire") ;;
  acquire_spin l ;;
  c ← mycpu;
  lk ← get_lock l;
  put_lock l (Spinlock (lk_locked lk) (lk_name lk) (Some c)).

Definition release (l : lockid) : K unit :=
  h ← holding l;
  when (negb h) (panic "release") ;;
  lk ← get_lock l;
  put_lock l (Spinlock (lk_locked lk) (lk_name lk) None) ;;
  lk ← get_lock l;
  put_lock l (Spinlock 0 (lk_name lk) (lk_cpu lk)) ;;
  pop_off.

(** Everything here but the spinning touches the harts only. *)
Section keeps.
Context {B : Type} (f : kst -> B) (Hf : forall h s, f (set_hw h s) = f s).

Lemma keeps_hw g : Keeps f (modk (fun s => set_hw (g s) s)).
Proof using Hf. apply keeps_modk. intros. apply Hf. Qed.

#[local] Hint Extern 0 (Keeps _ (modk _)) => apply keeps_hw : typeclass_instances.

Lemma keeps_release l : Keeps f (release l).
Proof using Hf.
  unfold release, holding, get_lock, put_lock, pop_off, intr_get, intr_on, intr_set, mycpu, cpuid,
    upd_cpu, get_cpu. apply _.
Qed.
End keeps.

(** ** What a thread can rely on *)

(** The running hart exists, interrupts are off while any lock is held, and the
    saved interrupt state is the current one while none is. *)
Definition hart_ok (h : hw) : Prop :=
  exists c b, h_cpus h !! h_hart h = Some c /\ h_sie h !! h_hart h = Some b /\
    0 <= c_noff c /\ (c_noff c = 0 -> c_intena c = b) /\ (0 < c_noff c -> b = false).

Definition lock_free (l : lockid) (h : hw) : Prop :=
  exists name, h_locks h !! l = Some (Spinlock 0 name None).

(** The harts after [acquire l] took a free lock. *)
Definition acq (l : lockid) (h : hw) : hw :=
  let upd c := Cpu (c_proc c) (c_context c) (c_noff c + 1) (c_intena c) in
  let name := default "" (lk_name <$> h_locks h !! l) in
  Hw (h_hart h) (<[h_hart h := false]> (h_sie h)) (alter upd (h_hart h) (h_cpus h))
     (<[l := Spinlock 1 name (Some (h_hart h))]> (h_locks h)).

(** ** Running the operations *)

Ltac krun := unfold when, deref, panic, fault, gets, modk, mbind, K_bind, mret, K_ret.

Lemma push_off_run e s c b :
  h_cpus (k_hw s) !! h_hart (k_hw s) = Some c ->
  h_sie (k_hw s) !! h_hart (k_hw s) = Some b ->
  push_off e s = Ok tt e (set_hw (Hw (h_hart (k_hw s)) (<[h_hart (k_hw s) := false]> (h_sie (k_hw s)))
    (<[h_hart (k_hw s) := Cpu (c_proc c) (c_context c) (c_noff c + 1)
        (if c_noff c =? 0 then b else c_intena c)]> (h_cpus (k_hw s)))
    (h_locks (k_hw s))) s).
Proof.
  intros Hc Hb. destruct s as [ly [ht sie cpus lks] ph ps fs]; simpl in *.
  unfold push_off, intr_get, intr_off, intr_set, mycpu, cpuid, upd_cpu, get_cpu. krun.
  simpl. rewrite Hb. simpl. rewrite Hc. simpl.
  destruct (c_noff c =? 0); simpl; rewrite ?Hc; simpl.
  - rewrite list_lookup_insert_eq by (by eapply lookup_lt_Some).
    unfold set_hw, hw_set_cpus; simpl. by rewrite list_insert_insert_eq.
  - done.
Qed.

Lemma pop_off_run e s c :
  h_cpus (k_hw s) !! h_hart (k_hw s) = Some c ->
  h_sie (k_hw s) !! h_hart (k_hw s) = Some false ->
  1 <= c_noff c ->
  pop_off e s = Ok tt e (set_hw (Hw (h_hart (k_hw s))
    (if (c_noff c =? 1) && c_intena c then <[h_hart (k_hw s) := true]> (h_sie (k_hw s))
     else h_sie (k_hw s))
    (<[h_hart (k_hw s) := cpu_set_noff (c_noff c - 1) c]> (h_cpus (k_hw s)))
    (h_locks (k_hw s))) s).
Proof.
  intros Hc Hb Hn. destruct s as [ly [ht sie cpus lks] ph ps fs]; simpl in *.
  unfold pop_off, intr_get, intr_on, intr_set, mycpu, cpuid, upd_cpu, get_cpu. krun.
  simpl. rewrite Hb. simpl. rewrite Hc. simpl.
  destruct (Z.ltb_spec (c_noff c) 1); [lia|]. simpl. rewrite Hc. simpl.
  rewrite list_lookup_insert_eq by (by eapply lookup_lt_Some). simpl.
  replace (c_noff c - 1 =? 0) with (c_noff c =? 1) by lia.
  destruct ((c_noff c =? 1) && c_intena c); done.
Qed.

Lemma holding_run l e s lk :
  h_locks (k_hw s) !! l = Some lk ->
  holding l e s =
  Ok (negb (lk_locked lk =? 0) && bool_decide (lk_cpu lk = Some (h_hart (k_hw s)))) e s.
Proof. intros H. unfold holding, get_lock, mycpu, cpuid. krun. by rewrite H. Qed.

Lemma hart_ok_acq l h : hart_ok h -> hart_ok (acq l h).
Proof.
  intros (c & b & Hc & Hb & Hn0 & Hn1 & Hn2).
  exists (Cpu (c_proc c) (c_context c) (c_noff c + 1) (c_intena c)), false.
  unfold acq; simpl. rewrite list_lookup_alter_eq, Hc, list_lookup_insert_eq by (by eapply lookup_lt_Some).
  split_and!; try done; simpl; lia.
Qed.

Lemma lock_free_acq l l' h : l <> l' -> lock_free l h -> lock_free l (acq l' h).
Proof. intros Hne [name H]. exists name. unfold acq; simpl. by rewrite lookup_insert_ne. Qed.

#[export] Hint Resolve hart_ok_acq lock_free_acq : xv6.

(** A free lock is taken at once. *)
Lemma acquire_run l e s :
  hart_ok (k_hw s) -> lock_free l (k_hw s) ->
  acquire l e s = Ok tt e (set_hw (acq l (k_hw s)) s).
Proof.
  intros (c & b & Hc & Hb & Hn0 & Hn1 & Hn2) [name Hl].
  unfold acquire. erewrite bind_run by (by apply push_off_run).
  erewrite bind_run by (by apply holding_run).
  simpl. rewrite (bind_run _ _ _ _ tt e _ eq_refl).
  destruct s as [ly [ht sie cpus lks] ph ps fs]; simpl in *.
  unfold acquire_spin. krun. unfold mycpu, cpuid, get_lock, put_lock. krun.
  destruct e; simpl; rewrite Hl; simpl; rewrite lookup_insert_eq; simpl;
    unfold acq, set_hw, hw_set_locks; simpl; rewrite Hl; simpl;
    rewrite insert_insert_eq, (list_alter_insert _ _ _ _ Hc);
    (destruct (Z.eqb_spec (c_noff c) 0); [rewrite Hn1 by done|]; reflexivity).
Qed.

(** Giving the lock back restores the harts exactly. *)
Lemma release_run l e s h :
  hart_ok h -> lock_free l h -> k_hw s = acq l h ->
  release l e s = Ok tt e (set_hw h s).
Proof.
  intros (c & b & Hc & Hb & Hn0 & Hn1 & Hn2) [name Hl] Hs.
  destruct s as [ly hs ph ps fs], h as [ht sie cpus lks]; simpl in *. subst hs.
  unfold acq; simpl. rewrite Hl. simpl. rewrite (list_alter_insert _ _ _ _ Hc).
  unfold release. erewrite bind_run by (apply holding_run; apply lookup_insert_eq).
  simpl. rewrite bool_decide_eq_true_2 by done. simpl.
  rewrite (bind_run _ _ _ _ tt e _ eq_refl).
  unfold get_lock, put_lock. krun. simpl. rewrite lookup_insert_eq. simpl.
  rewrite lookup_insert_eq. simpl.
  assert (Hlt : (ht < length cpus)%nat) by (by eapply lookup_lt_Some).
  assert (Hlt' : (ht < length sie)%nat) by (by eapply lookup_lt_Some).
  erewrite pop_off_run; simpl; [|by rewrite list_lookup_insert_eq..|simpl; lia].
  unfold set_hw; simpl. do 4 f_equal.
  - replace (c_noff c + 1 =? 1) with (c_noff c =? 0) by lia.
    destruct (Z.eqb_spec (c_noff c) 0) as [E|E]; simpl.
    + rewrite Hn1 by done. destruct b; [rewrite list_insert_insert_eq|]; by apply list_insert_id.
    + rewrite <- Hn2 by lia. by apply list_insert_id.
  - rewrite list_insert_insert_eq. apply list_insert_id. rewrite Hc. f_equal.
    destruct c; unfold cpu_set_noff; simpl. f_equal. lia.
  - rewrite !insert_insert_eq. by apply insert_id.
Qed.

Lemma wp_acquire l e s (Q : unit -> env -> kst -> Prop) :
  hart_ok (k_hw s) -> lock_free l (k_hw s) ->
  Q tt e (set_hw (acq l (k_hw s)) s) -> wp (acquire l) e s Q.
Proof. intros. eapply wp_run; [by apply acquire_run|done]. Qed.

Lemma wp_release l e s h (Q : unit -> env -> kst -> Prop) :
  hart_ok h -> lock_free l h -> k_hw s = acq l h -> Q tt e (set_hw h s) -> wp (release l) e s Q.
Proof. intros. eapply wp_run; [by apply release_run|done]. Qed.

(** [acquire] ends with the lock held by the calling hart, whatever the other
    threads did while it span. *)
Lemma acquire_spin_locked l e s e' s' :
  acquire_spin l e s = Ok tt e' s' ->
  exists name c, h_locks (k_hw s') !! l = Some (Spinlock 1 name c).
Proof.
  revert s. induction e as [|f e IH]; intros s; simpl;
    (destruct (h_locks (k_hw s) !! l) as [lk|]; [|done]);
    destruct (lk_locked lk =? 0); intros H; simplify_eq; simpl;
    try (eexists _, _; by rewrite lookup_insert_eq).
  by eapply IH.
Qed.

Lemma bind_inv {A B} (m : K A) (k : A -> K B) e s b e' s' :
  (x ← m; k x) e s = Ok b e' s' ->
  exists a e1 s1, m e s = Ok a e1 s1 /\ k a e1 s1 = Ok b e' s'.
Proof. unfold mbind, K_bind. destruct (m e s); naive_solver. Qed.

(** Invert a run of a composed operation. *)
Ltac kinv H := let a := fresh "a" in let e := fresh "e" in let s := fresh "s" in
  let E := fresh "E" in
  apply bind_inv in H as (a & e & s & E & H).

(** Runs of [n] copies of an operation. *)
Fixpoint repeatK (n : nat) (m : K unit) : K unit :=
  match n with O => mret tt | S n => m ;; repeatK n m end.

Definition noff_of (h : hw) : option Z := c_noff <$> h_cpus h !! h_hart h.
Definition sie_of (h : hw) : option bool := h_sie h !! h_hart h.

(** A hart [d] levels deep in [push_off] that had interrupts [b] outside. *)
Definition nested (d : Z) (b : bool) (h : hw) : Prop :=
  exists c, h_cpus h !! h_hart h = Some c /\ c_noff c = d /\ 0 <= d /\
    (0 < d -> c_intena c = b) /\
    h_sie h !! h_hart h = Some (if d =? 0 then b else false).

Lemma push_off_nested d b e s :
  nested d b (k_hw s) -> wp push_off e s (fun _ e' s' => e' = e /\ nested (d + 1) b (k_hw s')).
Proof.
  intros (c & Hc & Hd & H0 & Hi & Hs).
  eapply wp_run; [by apply push_off_run|]. split; [done|]. simpl.
  assert ((h_hart (k_hw s) < length (h_cpus (k_hw s)))%nat) by (by eapply lookup_lt_Some).
  assert ((h_hart (k_hw s) < length (h_sie (k_hw s)))%nat) by (by eapply lookup_lt_Some).
  eexists; simpl. rewrite !list_lookup_insert_eq by done.
  split_and!; [done|simpl; lia|lia| |by bcases]; simpl.
  rewrite Hd. intros _. bcases; [done|]. apply Hi; lia.
Qed.

Lemma pop_off_nested d b e s :
  0 < d -> nested d b (k_hw s) ->
  wp pop_off e s (fun _ e' s' => e' = e /\ nested (d - 1) b (k_hw s')).
Proof.
  intros Hpos (c & Hc & Hd & H0 & Hi & Hs).
  replace (d =? 0) with false in Hs by lia.
  eapply wp_run; [apply pop_off_run; [done..|lia]|]. split; [done|]. simpl.
  assert ((h_hart (k_hw s) < length (h_cpus (k_hw s)))%nat) by (by eapply lookup_lt_Some).
  assert ((h_hart (k_hw s) < length (h_sie (k_hw s)))%nat) by (by eapply lookup_lt_Some).
  eexists; simpl. rewrite list_lookup_insert_eq by done.
  split_and!; [done|simpl; lia|lia|intros _; simpl; by apply Hi|].
  rewrite Hi, Hd by lia. bcases; simpl; [|done].
  destruct b; [by rewrite list_lookup_insert_eq|done].
Qed.

Lemma repeat_push_nested n d b e s :
  nested d b (k_hw s) ->
  wp (repeatK n push_off) e s (fun _ e' s' => e' = e /\ nested (d + Z.of_nat n) b (k_hw s')).
Proof.
  revert d s. induction n as [|n IH]; intros d s H; cbn [repeatK].
  - apply wp_ret. by rewrite Z.add_0_r.
  - apply wp_seq. eapply wp_mono; [by apply push_off_nested|]. intros ? ? ? [-> H'].
    eapply wp_mono; [by apply IH|]. intros ? ? ? [-> ?]. split; [done|].
    by replace (d + Z.of_nat (S n)) with (d + 1 + Z.of_nat n) by lia.
Qed.

Lemma repeat_pop_nested n d b e s :
  Z.of_nat n <= d -> nested d b (k_hw s) ->
  wp (repeatK n pop_off) e s (fun _ e' s' => e' = e /\ nested (d - Z.of_nat n) b (k_hw s')).
Proof.
  revert d s. induction n as [|n IH]; intros d s Hn H; cbn [repeatK].
  - apply wp_ret. by rewrite Z.sub_0_r.
  - apply wp_seq. eapply wp_mono; [apply (pop_off_nested d b); [lia|done]|]. intros ? ? ? [-> H'].
    eapply wp_mono; [apply (IH (d - 1)); [lia|done]|]. intros ? ? ? [-> ?]. split; [done|].
    by replace (d - Z.of_nat (S n)) with (d - 1 - Z.of_nat n) by lia.
Qed.

(** ** Mutual exclusion between harts *)

Module Mutex.

(** Where a hart is in [acquire] or [release]; the argument of [AcqChk] and
    [RelChk] is the value of lk->locked that [holding] has read. *)
Inductive pc :=
  | Out | AcqChk (b : bool) | Trying | Got
  | Crit | RelChk (b : bool) | Clearing | Unlocking | Panicked.

Record mstate := MState {
  m_locked : bool;
  m_cpu : option nat;
  m_pc : nat -> pc }.

Definition goto (i : nat) (p : pc) (f : nat -> pc) : nat -> pc :=
  fun j => if decide (j = i) then p else f j.

(** One memory access of hart [i]. *)
Inductive mutex_step (i : nat) : mstate -> mstate -> Prop :=
  | st_acq_locked l c f : f i = Out ->
      mutex_step i (MState l c f) (MState l c (goto i (AcqChk l) f))
  | st_acq_cpu l c f b : f i = AcqChk b ->
      mutex_step i (MState l c f)
        (MState l c (goto i (if b && bool_decide (c = Some i) then Panicked else Trying) f))
  | st_swap l c f : f i = Trying ->
      mutex_step i (MState l c f) (MState true c (goto i (if l then Trying else Got) f))
  | st_set_cpu l c f : f i = Got ->
      mutex_step i (MState l c f) (MState l (Some i) (goto i Crit f))
  | st_rel_locked l c f : f i = Crit ->
      mutex_step i (MState l c f) (MState l c (goto i (RelChk l) f))
  | st_rel_cpu l c f b : f i = RelChk b ->
      mutex_step i (MState l c f)
        (MState l c (goto i (if b && bool_decide (c = Some i) then Clearing else Panicked) f))
  | st_clear_cpu l c f : f i = Clearing ->
      mutex_step i (MState l c f) (MState l None (goto i Unlocking f))
  | st_unlock l c f : f i = Unlocking ->
      mutex_step i (MState l c f) (MState false c (goto i Out f)).

Inductive reachable : mstate -> Prop :=
  | reach_init : reachable (MState false None (fun _ => Out))
  | reach_step i s s' : reachable s -> mutex_step i s s' -> reachable s'.

(** Between winning the swap and storing 0. *)
Definition inside (p : pc) : Prop :=
  match p with Got | Crit | RelChk _ | Clearing | Unlocking => True | _ => False end.
(** While lk->cpu names the hart. *)
Definition owner (p : pc) : Prop :=
  match p with Crit | RelChk _ | Clearing => True | _ => False end.

Record inv (s : mstate) : Prop := {
  inv_one : forall i j, inside (m_pc s i) -> inside (m_pc s j) -> i = j;
  inv_locked : forall i, inside (m_pc s i) -> m_locked s = true;
  inv_cpu : forall i, m_cpu s = Some i <-> owner (m_pc s i);
  inv_relchk : forall i b, m_pc s i = RelChk b -> b = true;
  inv_panic : forall i, m_pc s i <> Panicked }.

Lemma owner_inside p : owner p -> inside p.
Proof. by destruct p. Qed.

(** The cases of [inv] for the state after a step of hart [i]. *)
Ltac mutex_cases :=
  split; simpl; unfold goto; intros; repeat case_decide; subst; simpl in *;
  try done; try congruence; try (solve [eauto 4]); try (solve [exfalso; eauto 4]);
  try (solve [split; [congruence | intros; exfalso; eauto]]).

Lemma mutex_step_inv i s s' : inv s -> mutex_step i s s' -> inv s'.
Proof.
  intros [H1 H2 H3 H4 H5] Hst.
  assert (Hno : inside (m_pc s i) -> forall j, j <> i -> inside (m_pc s j) -> False) by eauto.
  assert (Hno' : inside (m_pc s i) -> forall j, j <> i -> owner (m_pc s j) -> False)
    by (intros ? j Hj Ho%owner_inside; by eapply Hno).
  pose proof (H3 i) as H3i. pose proof (H2 i) as H2i.
  destruct Hst as [l c f Hi|l c f b Hi|l c f Hi|l c f Hi|l c f Hi|l c f b Hi|l c f Hi|l c f Hi];
    simpl in *; rewrite Hi in *; simpl in *.
  - mutex_cases.
  - assert (c <> Some i) by tauto.
    rewrite bool_decide_eq_false_2, andb_false_r by done. mutex_cases.
  - destruct l; [mutex_cases|].
    assert (forall j, inside (f j) -> False) by (intros j Hj; by specialize (H2 j Hj)). mutex_cases.
  - specialize (Hno I). specialize (Hno' I). mutex_cases.
  - rewrite (H2i I). mutex_cases.
  - assert (c = Some i) as -> by tauto. assert (b = true) as -> by eauto.
    rewrite bool_decide_eq_true_2 by done. simpl. mutex_cases.
  - specialize (Hno I). specialize (Hno' I). mutex_cases.
  - specialize (Hno I). mutex_cases.
Qed.

Lemma mutex_reachable_inv s : reachable s -> inv s.
Proof.
  induction 1; [|by eapply mutex_step_inv].
  split; simpl; try done.
Qed.

(** C21: In every interleaving of the memory accesses of [acquire] and [release]
    by any number of harts, at most one hart is between winning the swap and
    storing 0, the [holding] checks never make a hart panic, and a hart finds
    its own id in lk->cpu only while it owns the lock. *)
Theorem mutual_exclusion s :
  reachable s ->
  (forall i j, inside (m_pc s i) -> inside (m_pc s j) -> i = j) /\
  (forall i, m_pc s i <> Panicked) /\
  (forall i, m_cpu s = Some i <-> owner (m_pc s i)).
Proof. intros [? ? ? ? ?]%mutex_reachable_inv. auto. Qed.

Lemma reach_crit :
  reachable (MState true (Some 0%nat) (goto 0 Crit (goto 1 Trying (goto 1 (AcqChk true)
    (goto 0 Got (goto 0 Trying (goto 0 (AcqChk false) (fun _ => Out)))))))).
Proof.
  eapply reach_step; [|by apply (st_set_cpu 0 true None)].
  eapply reach_step; [|by apply (st_acq_cpu 1 true None _ true)].
  eapply reach_step; [|by apply (st_acq_locked 1 true None)].
  eapply reach_step; [|by apply (st_swap 0 false None)].
  eapply reach_step; [|by apply (st_acq_cpu 0 false None _ false)].
  eapply reach_step; [|by apply (st_acq_locked 0 false None)].
  apply reach_init.
Qed.

(** Hart 0 in its critical section while hart 1 spins. *)
Definition crit_pcs : nat -> pc := goto 0 Crit (goto 1 Trying (goto 1 (AcqChk true)
    (goto 0 Got (goto 0 Trying (goto 0 (AcqChk false) (fun _ => Out)))))).

Lemma mutual_exclusion_witness :
  crit_pcs 0%nat = Crit /\ crit_pcs 1%nat <> Panicked /\
  (inside (crit_pcs 1%nat) -> 1%nat = 0%nat).
Proof.
  pose proof (mutual_exclusion _ reach_crit) as (H1 & H2 & _).
  split; [done|]. split; [exact (H2 1%nat)|]. intros Hi. exact (H1 1%nat 0%nat Hi I).
Defined.

End Mutex.

(** [push_off] and [pop_off] nest: after [n] [push_off]s and [k <= n]
    [pop_off]s the nesting depth is [n - k] above the start, interrupts are off
    while any level is open, and closing the last one restores the interrupt
    state from before the first [push_off]. *)
Theorem push_off_pop_off_nest n k b e s :
  nested 0 b (k_hw s) -> (k <= n)%nat ->
  wp (repeatK n push_off ;; repeatK k pop_off) e s (fun _ e' s' =>
    e' = e /\ noff_of (k_hw s') = Some (Z.of_nat n - Z.of_nat k) /\
    sie_of (k_hw s') = Some (if (n =? k)%nat then b else false)).
Proof.
  intros H Hk. apply wp_seq.
  eapply wp_mono; [by apply repeat_push_nested|]. intros ? ? ? [-> H1].
  eapply wp_mono; [eapply (repeat_pop_nested k); [|exact H1]; lia|].
  intros ? ? s2 [-> (c & Hc & Hd & _ & _ & Hs)]. split; [done|].
  unfold noff_of, sie_of. rewrite Hc, Hs. simpl. rewrite Hd. split; [f_equal; lia|].
  f_equal. destruct (Nat.eqb_spec n k); bcases; done.
Qed.

(** The life of a lock in one thread: taking a free lock and releasing it
    leaves the machine as it was; when [acquire] returns, [holding] is true for
    the caller whatever other threads did while it span; acquiring a lock this
    hart already holds, or releasing one it does not hold, panics. *)
Theorem lock_protocol l e s :
  hart_ok (k_hw s) ->
  (lock_free l (k_hw s) -> (acquire l ;; release l) e s = Ok tt e s) /\
  (forall e' s', acquire l e s = Ok tt e' s' -> holding l e' s' = Ok true e' s') /\
  (forall name n, n <> 0 -> h_locks (k_hw s) !! l = Some (Spinlock n name (Some (h_hart (k_hw s)))) ->
     acquire l e s = Panic "acquire") /\
  (forall name n c, h_locks (k_hw s) !! l = Some (Spinlock n name c) ->
     n = 0 \/ c <> Some (h_hart (k_hw s)) -> release l e s = Panic "release").
Proof.
  intros Hok. split_and!.
  - intros Hf. erewrite bind_run by (by apply acquire_run).
    erewrite release_run; [|done..]. by destruct s.
  - intros e' s' H. unfold acquire in H. repeat kinv H.
    unfold mycpu, cpuid, gets in E3. destruct a2. simplify_eq.
    destruct (acquire_spin_locked _ _ _ _ _ E2) as (nm & c & Hl).
    unfold get_lock, put_lock in *. revert E4 H. krun. rewrite Hl. intros. simplify_eq/=.
    erewrite holding_run; simpl; [|by apply lookup_insert_eq]. simpl.
    by rewrite bool_decide_eq_true_2.
  - intros name n Hn Hl. destruct Hok as (c & b & Hc & Hb & _).
    unfold acquire. erewrite bind_run by (by apply push_off_run).
    erewrite bind_run by (by apply holding_run). simpl.
    rewrite bool_decide_eq_true_2, (proj2 (Z.eqb_neq n 0)) by done. done.
  - intros name n c Hl Hor. unfold release.
    erewrite bind_run by (by apply holding_run). simpl.
    replace (negb (n =? 0) && bool_decide (c = Some (h_hart (k_hw s)))) with false; [done|].
    symmetry. destruct Hor as [-> | Hne]; [done|].
    by rewrite bool_decide_eq_false_2, andb_false_r.
Qed.

Lemma nested_kst0 : nested 0 true (k_hw kst0).
Proof. by exists cpu0. Qed.

Lemma push_off_pop_off_nest_witness :
  wp (repeatK 3 push_off ;; repeatK 2 pop_off) [] kst0 (fun _ e' s' =>
    e' = [] /\ noff_of (k_hw s') = Some 1 /\ sie_of (k_hw s') = Some false).
Proof. apply (push_off_pop_off_nest 3 2 true [] kst0 nested_kst0). lia. Defined.

(** The boot state with one initialised lock. *)
Definition kst_locked (lk : spinlock) : kst :=
  set_hw (hw_set_locks {[L_kmem := lk]} hw0) kst0.

Lemma hart_ok_kst0 lk : hart_ok (k_hw (kst_locked lk)).
Proof. exists cpu0, true. by split_and!. Qed.

Lemma lock_protocol_witness :
  (acquire L_kmem ;; release L_kmem) [] (kst_locked (Spinlock 0 "kmem" None)) =
    Ok tt [] (kst_locked (Spinlock 0 "kmem" None)) /\
  acquire L_kmem [] (kst_locked (Spinlock 1 "kmem" (Some 0%nat))) = Panic "acquire".
Proof.
  split.
  - apply (proj1 (lock_protocol L_kmem [] _ (hart_ok_kst0 _))). by exists "kmem"%string.
  - exact (proj1 (proj2 (proj2 (lock_protocol L_kmem [] _ (hart_ok_kst0 _))))
             "kmem"%string 1 ltac:(lia) eq_refl).
Defined.
