(* ===== verification/Blocks.v ===== *)
(** Structures inside a disk block: integers at byte offsets. *)

From S2P Require Import Prelude Machine KState.

(** [n] bytes of [l] from [off] on, and [src] stored there. *)
Definition slice (off n : Z) (l : list Z) : list Z := take (Z.to_nat n) (drop (Z.to_nat off) l).
Definition put (off : Z) (src l : list Z) : list Z :=
  take (Z.to_nat off) l ++ src ++ drop (Z.to_nat off + length src) l.

Definition get16 (off : Z) (l : list Z) : Z := le_val (slice off 2 l).
Definition put16 (off v : Z) (l : list Z) : list Z := put off (le_bytes 2 v) l.
Definition get32 (off : Z) (l : list Z) : Z := le_val (slice off 4 l).
Definition put32 (off v : Z) (l : list Z) : list Z := put off (le_bytes 4 v) l.

Lemma length_slice off n l :
  0 <= off -> 0 <= n -> off + n <= Z.of_nat (length l) -> length (slice off n l) = Z.to_nat n.
Proof. intros. unfold slice. rewrite length_take, length_drop. lia. Qed.

Lemma length_put off src l :
  0 <= off -> off + Z.of_nat (length src) <= Z.of_nat (length l) -> length (put off src l) = length l.
Proof. intros. unfold put. rewrite !length_app, length_take, length_drop. lia. Qed.

Lemma lookup_slice off n l i :
  0 <= off -> slice off n l !! i = if decide (i < Z.to_nat n)%nat then l !! (Z.to_nat off + i)%nat else None.
Proof.
  intros. unfold slice. case_decide.
  - rewrite lookup_take_lt by done. by rewrite lookup_drop.
  - by rewrite lookup_take_ge by lia.
Qed.

(** What is stored past the end extends the list. *)
Lemma lookup_put off src l i :
  0 <= off -> (Z.to_nat off <= length l)%nat ->
  put off src l !! i =
    if decide (Z.to_nat off <= i < Z.to_nat off + length src)%nat then src !! (i - Z.to_nat off)%nat else l !! i.
Proof.
  intros. unfold put. case_decide.
  - rewrite lookup_app_r by (rewrite length_take; lia). rewrite length_take, Nat.min_l by lia.
    by rewrite lookup_app_l by lia.
  - destruct (decide (i < Z.to_nat off)%nat).
    + rewrite lookup_app_l by (rewrite length_take; lia). by rewrite lookup_take_lt.
    + rewrite lookup_app_r by (rewrite length_take; lia). rewrite length_take, Nat.min_l by lia.
      rewrite lookup_app_r by lia. rewrite lookup_drop. f_equal. lia.
Qed.

Lemma slice_put off src l :
  0 <= off -> off + Z.of_nat (length src) <= Z.of_nat (length l) ->
  slice off (Z.of_nat (length src)) (put off src l) = src.
Proof.
  intros. apply list_eq. intros i. rewrite lookup_slice by done. case_decide.
  - rewrite lookup_put, decide_True by lia. f_equal. lia.
  - symmetry. apply lookup_ge_None_2. lia.
Qed.

Lemma slice_put_ne off src l a n :
  0 <= off -> off + Z.of_nat (length src) <= Z.of_nat (length l) -> 0 <= a ->
  a + n <= off \/ off + Z.of_nat (length src) <= a ->
  slice a n (put off src l) = slice a n l.
Proof.
  intros. apply list_eq. intros i. rewrite !lookup_slice by done. case_decide; [|done].
  by rewrite lookup_put, decide_False by lia.
Qed.

Lemma get32_put32 off v l :
  0 <= off -> off + 4 <= Z.of_nat (length l) -> get32 off (put32 off v l) = u32 v.
Proof.
  intros. unfold get32, put32. pose proof (slice_put off (le_bytes 4 v) l) as E. rewrite length_le_bytes in E.
  change 4 with (Z.of_nat 4) at 1. rewrite E by lia. rewrite le_val_bytes. reflexivity.
Qed.

Lemma get32_put32_ne off v l a :
  0 <= off -> off + 4 <= Z.of_nat (length l) -> 0 <= a -> a + 4 <= off \/ off + 4 <= a ->
  get32 a (put32 off v l) = get32 a l.
Proof.
  intros. unfold get32, put32. rewrite slice_put_ne; [done|done|rewrite length_le_bytes; lia|done|].
  rewrite length_le_bytes. lia.
Qed.

Lemma length_put32 off v l : 0 <= off -> off + 4 <= Z.of_nat (length l) -> length (put32 off v l) = length l.
Proof. intros. apply length_put; rewrite ?length_le_bytes; lia. Qed.

Lemma get16_put16 off v l :
  0 <= off -> off + 2 <= Z.of_nat (length l) -> get16 off (put16 off v l) = u16 v.
Proof.
  intros. unfold get16, put16. pose proof (slice_put off (le_bytes 2 v) l) as E. rewrite length_le_bytes in E.
  change 2 with (Z.of_nat 2) at 1. rewrite E by lia. rewrite le_val_bytes. reflexivity.
Qed.

Lemma length_put16 off v l : 0 <= off -> off + 2 <= Z.of_nat (length l) -> length (put16 off v l) = length l.
Proof. intros. apply length_put; rewrite ?length_le_bytes; lia. Qed.
