(* ===== verification/KString.v ===== *)
(** string.c: the kernel's memory and string routines over byte memory. *)

From S2P Require Import Prelude Machine.

(** ** Definitions *)

Fixpoint memset (m : mem) (dst c : Z) (n : nat) : mem :=
  match n with
  | O => m
  | S n => memset (store8 m dst c) (dst + 1) c n
  end.

Fixpoint memcmp (m : mem) (s1 s2 : Z) (n : nat) : Z :=
  match n with
  | O => 0
  | S n => if negb (load8 m s1 =? load8 m s2) then load8 m s1 - load8 m s2
           else memcmp m (s1 + 1) (s2 + 1) n
  end.

(** The two loops of memmove: upwards from [d] and [s], and downwards from one
    past the end. *)
Fixpoint copy_up (m : mem) (d s : Z) (n : nat) : mem :=
  match n with
  | O => m
  | S n => copy_up (store8 m d (load8 m s)) (d + 1) (s + 1) n
  end.

Fixpoint copy_down (m : mem) (d s : Z) (n : nat) : mem :=
  match n with
  | O => m
  | S n => copy_down (store8 m (d - 1) (load8 m (s - 1))) (d - 1) (s - 1) n
  end.

Definition memmove (m : mem) (dst src : Z) (n : nat) : mem :=
  if Nat.eqb n 0 then m
  else if (src <? dst) && (dst <? src + Z.of_nat n)
  then copy_down m (dst + Z.of_nat n) (src + Z.of_nat n) n
  else copy_up m dst src n.

Definition memcpy (m : mem) (dst src : Z) (n : nat) : mem := memmove m dst src n.

Fixpoint strncmp (m : mem) (p q : Z) (n : nat) : Z :=
  match n with
  | O => 0
  | S n' => if negb (load8 m p =? 0) && (load8 m p =? load8 m q)
            then strncmp m (p + 1) (q + 1) n'
            else load8 m p - load8 m q
  end.

(** The first loop of strncpy, returning where it stopped with what is left of
    [n], and the second, which pads. *)
Fixpoint strncpy_copy (m : mem) (s t : Z) (n : nat) : mem * Z * nat :=
  match n with
  | O => (m, s, O)
  | S n => let c := load8 m t in
           let m := store8 m s c in
           if c =? 0 then (m, s + 1, n) else strncpy_copy m (s + 1) (t + 1) n
  end.

Definition strncpy (m : mem) (s t : Z) (n : Z) : mem :=
  let '(m, s, n) := strncpy_copy m s t (Z.to_nat n) in memset m s 0 n.

(** The loop of safestrcpy over the [n - 1] bytes it may copy, returning the
    final [s]. *)
Fixpoint safestrcpy_copy (m : mem) (s t : Z) (n : nat) : mem * Z :=
  match n with
  | O => (m, s)
  | S n => let c := load8 m t in
           let m := store8 m s c in
           if c =? 0 then (m, s + 1) else safestrcpy_copy m (s + 1) (t + 1) n
  end.

Definition safestrcpy (m : mem) (s t : Z) (n : Z) : mem :=
  if n <=? 0 then m
  else let '(m, s) := safestrcpy_copy m s t (Z.to_nat (n - 1)) in store8 m s 0.

(** strlen scans with no bound: [fuel] bytes are looked at. *)
Fixpoint strlen (m : mem) (s : Z) (fuel : nat) : option Z :=
  match fuel with
  | O => None
  | S fuel => if load8 m s =? 0 then Some 0 else Z.succ <$> strlen m (s + 1) fuel
  end.

(** ** What a C string denotes *)

(** The characters at [p] before the first NUL, at most [n] of them. *)
Fixpoint cstr (m : mem) (p : Z) (n : nat) : list Z :=
  match n with
  | O => []
  | S n => if load8 m p =? 0 then [] else load8 m p :: cstr m (p + 1) n
  end.

(** ** Lemmas *)

Lemma load8_memset m dst c n x :
  load8 (memset m dst c n) x =
  if (dst <=? x) && (x <? dst + Z.of_nat n) then u8 c else load8 m x.
Proof.
  revert m dst; induction n as [|n IH]; intros m dst; cbn [memset].
  - bcases; try done.
  - rewrite IH, load8_store8. bcases; simpl; done.
Qed.

Lemma load8_memset_out m dst c n x :
  ~ within dst (Z.of_nat n) x -> load8 (memset m dst c n) x = load8 m x.
Proof. intros. rewrite load8_memset. bcases; try done. Qed.

Lemma load_bytes_memset m dst c n a k :
  dst <= a -> a + Z.of_nat k <= dst + Z.of_nat n ->
  load_bytes (memset m dst c n) a k = replicate k (u8 c).
Proof.
  revert a; induction k as [|k IH]; intros a ??; simpl; [done|].
  f_equal; [|apply IH; lia]. rewrite load8_memset. bcases; try done.
Qed.

Lemma load64_memset0 m dst n a :
  dst <= a -> a + 8 <= dst + Z.of_nat n -> load64 (memset m dst 0 n) a = 0.
Proof. intros. unfold load64. by rewrite load_bytes_memset by lia. Qed.

Lemma load8_copy_up m d s n x :
  d <= s \/ s + Z.of_nat n <= d ->
  load8 (copy_up m d s n) x =
  if (d <=? x) && (x <? d + Z.of_nat n) then load8 m (s + (x - d)) else load8 m x.
Proof.
  revert m d s; induction n as [|n IH]; intros m d s H; simpl; [by bcases|].
  rewrite IH, !load8_store8 by lia.
  rewrite (u8_small (load8 m s)) by auto with xv6.
  bcases; simpl; try done; f_equal; lia.
Qed.

Lemma load8_copy_down m d s n x :
  s <= d ->
  load8 (copy_down m d s n) x =
  if (d - Z.of_nat n <=? x) && (x <? d) then load8 m (s - (d - x)) else load8 m x.
Proof.
  revert m d s; induction n as [|n IH]; intros m d s H; simpl; [by bcases|].
  rewrite IH, !load8_store8 by lia.
  rewrite (u8_small (load8 m (s - 1))) by auto with xv6.
  bcases; simpl; try done; f_equal; lia.
Qed.

Lemma load8_memmove m dst src n x :
  load8 (memmove m dst src n) x =
  if (dst <=? x) && (x <? dst + Z.of_nat n) then load8 m (src + (x - dst)) else load8 m x.
Proof.
  unfold memmove. destruct (Nat.eqb_spec n 0) as [->|]; [by bcases|].
  destruct ((src <? dst) && (dst <? src + Z.of_nat n)) eqn:E.
  - rewrite load8_copy_down by lia. bcases; simpl; try done. f_equal; lia.
  - apply load8_copy_up. lia.
Qed.

Lemma length_cstr m p n : (length (cstr m p n) <= n)%nat.
Proof. revert p; induction n; intros p; simpl; [done|]. bcases; simpl; [lia|]. specialize (IHn (p + 1)). lia. Qed.

Lemma cstr_ext m m' p n :
  same_on m m' p (Z.of_nat n) -> cstr m p n = cstr m' p n.
Proof.
  revert p; induction n as [|n IH]; intros p H; simpl; [done|].
  rewrite <- (H p) by lia. destruct (load8 m p =? 0); [done|]. f_equal.
  apply IH. intros x ?. apply H. lia.
Qed.

Lemma strncmp_cstr m p q n : strncmp m p q n = 0 <-> cstr m p n = cstr m q n.
Proof.
  revert p q; induction n as [|n IH]; intros p q; simpl; [done|].
  destruct (Z.eqb_spec (load8 m p) 0) as [Hp|Hp], (Z.eqb_spec (load8 m q) 0) as [Hq|Hq];
    destruct (Z.eqb_spec (load8 m p) (load8 m q)) as [Heq|Hne]; simpl;
    try lia; try (split; [lia|congruence]); try (split; [intros; lia|done]).
  - split; [done|]. lia.
  - rewrite IH. split; [intros ->; by rewrite Heq|]. by intros [= _ ->].
Qed.

(** strncpy when source and destination do not overlap. *)
Lemma strncpy_copy_spec m s t n m' s' k :
  strncpy_copy m s t n = (m', s', k) ->
  (s + Z.of_nat n <= t \/ t + Z.of_nat n <= s) ->
  s' + Z.of_nat k = s + Z.of_nat n /\
  (forall i, (i < n)%nat -> s + Z.of_nat i < s' ->
     load8 m' (s + Z.of_nat i) = default 0 (cstr m t n !! i)) /\
  (length (cstr m t n) <= Z.to_nat (s' - s))%nat /\
  s <= s' /\
  (forall x, ~ within s (s' - s) x -> load8 m' x = load8 m x).
Proof.
  revert m s t; induction n as [|n IH]; intros m s t; simpl.
  { intros [= <- <- <-] _. split_and!; [lia|lia|simpl; lia|lia|done]. }
  destruct (Z.eqb_spec (load8 m t) 0) as [Hz|Hz]; intros H Hd.
  - simplify_eq. split_and!; [lia| |simpl; lia|lia|].
    + intros i Hi Hlt. assert (i = 0%nat) as -> by lia.
      rewrite load8_store8. bcases. simpl. by rewrite Hz.
    + intros x Hx. rewrite load8_store8. bcases; try done.
  - apply IH in H as (H1 & H2 & H3 & H4 & H5); [|lia].
    assert (E : cstr (store8 m s (load8 m t)) (t + 1) n = cstr m (t + 1) n).
    { apply cstr_ext. intros x ?. rewrite load8_store8. bcases; try done. }
    rewrite E in *. split_and!; [lia| |simpl; lia|lia|].
    + intros [|i] Hi Hlt; simpl.
      * rewrite H5 by lia. rewrite load8_store8. bcases. rewrite u8_small; auto with xv6.
      * rewrite <- H2 by lia. f_equal. lia.
    + intros x Hx. rewrite H5 by lia. rewrite load8_store8. bcases; try done.
Qed.

Lemma safestrcpy_copy_spec m s t n m' s' :
  safestrcpy_copy m s t n = (m', s') ->
  (s + Z.of_nat n <= t \/ t + Z.of_nat n <= s) ->
  s <= s' <= s + Z.of_nat n /\
  cstr (store8 m' s' 0) s (S n) = cstr m t n /\
  (forall x, ~ within s (s' - s) x -> load8 m' x = load8 m x).
Proof.
  revert m s t; induction n as [|n IH]; intros m s t; simpl.
  { intros [= <- <-] _. split_and!; [lia|lia| |done].
    rewrite load8_store8. bcases; try done. }
  destruct (Z.eqb_spec (load8 m t) 0) as [Hz|Hz]; intros H Hd.
  - simplify_eq. split_and!; [lia|lia| |].
    + rewrite Hz, !load8_store8. replace (s =? s + 1) with false by lia.
      by rewrite Z.eqb_refl.
    + intros x Hx. rewrite load8_store8. bcases; try done.
  - apply IH in H as (H1 & H2 & H3); [|lia].
    split_and!; [lia|lia| |].
    + rewrite load8_store8. replace (s =? s') with false by lia.
      rewrite H3, load8_store8, Z.eqb_refl, u8_small by (auto with xv6 || lia).
      rewrite (proj2 (Z.eqb_neq _ _) Hz). f_equal.
      simpl in H2. rewrite H2. apply cstr_ext. intros x ?. rewrite load8_store8. bcases; try done.
    + intros x Hx. rewrite H3, load8_store8 by lia. bcases; try done.
Qed.

(** Memmove copies the [n] bytes at [src] as they were before the call to
    [dst] and changes nothing else, for every overlap of the two regions. *)
Theorem memmove_correct m dst src n x :
  load8 (memmove m dst src n) x =
  if (dst <=? x) && (x <? dst + Z.of_nat n) then load8 m (src + (x - dst)) else load8 m x.
Proof. apply load8_memmove. Qed.

(** The bounded string routines agree with C strings: strncmp is 0 exactly
    when the two strings agree up to [n] characters; strncpy to a disjoint
    buffer stores the string padded with NULs to exactly [n] bytes; safestrcpy
    stores at most [n - 1] characters followed by a NUL, inside [n] bytes. *)
Theorem string_routines_correct m s t n :
  (s + Z.of_nat n <= t \/ t + Z.of_nat n <= s) -> (0 < n)%nat ->
  (strncmp m s t n = 0 <-> cstr m s n = cstr m t n) /\
  (forall i, (i < n)%nat ->
     load8 (strncpy m s t (Z.of_nat n)) (s + Z.of_nat i) = default 0 (cstr m t n !! i)) /\
  cstr (safestrcpy m s t (Z.of_nat n)) s n = cstr m t (n - 1) /\
  (forall x, ~ within s (Z.of_nat n) x ->
     load8 (strncpy m s t (Z.of_nat n)) x = load8 m x /\
     load8 (safestrcpy m s t (Z.of_nat n)) x = load8 m x).
Proof.
  intros Hd Hn.
  unfold strncpy, safestrcpy. rewrite Nat2Z.id.
  destruct (strncpy_copy m s t n) as [[m1 s1] k] eqn:E1.
  destruct (strncpy_copy_spec _ _ _ _ _ _ _ E1 Hd) as (A1 & A2 & A3 & A4 & A5).
  replace (Z.to_nat (Z.of_nat n - 1)) with (n - 1)%nat by lia.
  destruct (safestrcpy_copy m s t (n - 1)) as [m2 s2] eqn:E2.
  destruct (safestrcpy_copy_spec _ _ _ _ _ _ E2) as (B1 & B2 & B3); [lia|].
  replace (Z.of_nat n <=? 0) with false by lia.
  split_and!.
  - apply strncmp_cstr.
  - intros i Hi. rewrite load8_memset. bcases; simpl.
    + rewrite lookup_ge_None_2 by lia. done.
    + apply A2; lia.
  - replace n with (S (n - 1)) at 1 by lia. exact B2.
  - intros x Hx. split.
    + rewrite load8_memset_out by lia. apply A5. lia.
    + rewrite load8_store8. bcases. apply B3. lia.
Qed.

Lemma string_routines_correct_witness :
  let m := store_bytes ∅ 100 [104; 105; 0] in
  cstr (safestrcpy m 200 100 4) 200 4 = [104; 105] /\
  load8 (strncpy m 200 100 4) 203 = 0.
Proof.
  destruct (string_routines_correct (store_bytes ∅ 100 [104; 105; 0]) 200 100 4)
    as (_ & H1 & H2 & _); [lia|lia|].
  split; [exact H2|exact (H1 3%nat ltac:(lia))].
Defined.

#[global] Arguments memset : simpl never.
#[global] Arguments memcmp : simpl never.
#[global] Arguments memmove : simpl never.
