(* ===== verification/Kalloc.v ===== *)
(** kalloc.c: the allocator of physical pages. The free list is threaded
    through the free pages themselves, so it lives in kernel memory. *)

From S2P Require Import Prelude Machine KState Spinlock KString.

(** ** Definitions *)

Definition kmemset (dst c : Z) (n : nat) : K unit := setmem (fun m => memset m dst c n).
Definition kmemmove (dst src : Z) (n : nat) : K unit := setmem (fun m => memmove m dst src n).

Definition get_freelist : K Z := gets (fun s => ph_freelist (k_phys s)).
Definition set_freelist (a : Z) : K unit :=
  modk (fun s => set_phys (ph_set_freelist a (k_phys s)) s).

Definition kfree (pa : Z) : K unit :=
  ly ← gets k_layout;
  when (negb (pa mod PGSIZE =? 0) || (pa <? ld_end ly) || (PHYSTOP <=? pa)) (panic "kfree") ;;
  kmemset pa 1 (Z.to_nat PGSIZE) ;;
  acquire L_kmem ;;
  fl ← get_freelist;
  kstore64 pa fl ;;
  set_freelist pa ;;
  release L_kmem.

Fixpoint freerange_loop (fuel : nat) (p pa_end : Z) : K unit :=
  match fuel with
  | O => nofuel
  | S fuel =>
    if p + PGSIZE <=? pa_end then kfree p ;; freerange_loop fuel (p + PGSIZE) pa_end
    else mret tt
  end.

Definition freerange (pa_start pa_end : Z) : K unit :=
  let p := PGROUNDUP pa_start in
  freerange_loop (S (Z.to_nat ((pa_end - p) / PGSIZE))) p pa_end.

Definition kinit : K unit :=
  initlock L_kmem "kmem" ;;
  ly ← gets k_layout;
  freerange (ld_end ly) PHYSTOP.

Definition kalloc : K Z :=
  acquire L_kmem ;;
  r ← get_freelist;
  when (negb (r =? 0)) (n ← kload64 r; set_freelist n) ;;
  release L_kmem ;;
  when (negb (r =? 0)) (kmemset r 5 (Z.to_nat PGSIZE)) ;;
  mret r.

(** ** The free list *)

Definition page_ok (ly : layout) (p : Z) : Prop :=
  p mod PGSIZE = 0 /\ ld_end ly <= p < PHYSTOP.

Definition layout_ok (ly : layout) : Prop :=
  KERNBASE <= ld_etext ly <= ld_end ly /\ ld_end ly <= PHYSTOP /\
  KERNBASE <= ld_trampoline ly < ld_etext ly /\ ld_trampoline ly mod PGSIZE = 0.

(** The list of pages reachable from [head]. *)
Fixpoint free_rep (m : mem) (head : Z) (l : list Z) : Prop :=
  match l with
  | [] => head = 0
  | p :: l => head = p /\ free_rep m (load64 m p) l
  end.

Record kmem_ok (ly : layout) (ph : phys) (l : list Z) : Prop := {
  km_rep : free_rep (ph_mem ph) (ph_freelist ph) l;
  km_nodup : NoDup l;
  km_valid : Forall (page_ok ly) l }.

(** The running thread may use the allocator. *)
Definition kctx (s : kst) : Prop :=
  hart_ok (k_hw s) /\ lock_free L_kmem (k_hw s) /\ layout_ok (k_layout s).

(** ** Lemmas *)

Lemma page_disjoint p q x :
  p mod PGSIZE = 0 -> q mod PGSIZE = 0 -> p <> q ->
  within p PGSIZE x -> ~ within q PGSIZE x.
Proof. unfold PGSIZE. intros. Z.div_mod_to_equations. lia. Qed.

Lemma page_ok_range ly p :
  layout_ok ly -> page_ok ly p -> 0 < p < 72057594037927936 /\ p mod 4096 = 0.
Proof.
  unfold layout_ok, page_ok, PHYSTOP, KERNBASE, PGSIZE. lia.
Qed.

Lemma free_rep_ext m m' h l :
  free_rep m h l -> (forall p, p ∈ l -> same_on m m' p 8) -> free_rep m' h l.
Proof.
  revert h; induction l as [|p l IH]; intros h; simpl; [done|].
  intros [-> H] Hs. split; [done|].
  rewrite <- (load64_ext m m') by (apply Hs; set_solver).
  apply IH; [done|]. intros q Hq. apply Hs. set_solver.
Qed.

(** Memory may change outside the free pages. *)
Lemma kmem_ok_frame ly m m' fl l :
  kmem_ok ly (Phys m fl) l ->
  (forall p x, p ∈ l -> within p PGSIZE x -> load8 m' x = load8 m x) ->
  kmem_ok ly (Phys m' fl) l.
Proof.
  intros [H1 H2 H3] Hs. split; simpl in *; [|done..].
  eapply free_rep_ext; [done|]. intros p Hp x Hx. symmetry. apply (Hs p); [done|].
  unfold PGSIZE. lia.
Qed.

Lemma kmem_ok_nonzero ly ph p l :
  layout_ok ly -> kmem_ok ly ph (p :: l) -> p <> 0.
Proof.
  intros Hly [_ _ Hv]. apply Forall_cons_1 in Hv as [Hp _].
  pose proof (page_ok_range _ _ Hly Hp). lia.
Qed.

Lemma release_set_phys l h ph s e :
  hart_ok h -> lock_free l h -> k_hw s = h ->
  release l e (set_phys ph (set_hw (acq l h) s)) = Ok tt e (set_phys ph s).
Proof.
  intros Hok Hf <-. rewrite (release_run l e _ (k_hw s)) by done. by destruct s.
Qed.

Lemma kalloc_run e s l :
  kctx s -> kmem_ok (k_layout s) (k_phys s) l ->
  kalloc e s =
  match l with
  | [] => Ok 0 e s
  | p :: _ => Ok p e (set_phys (Phys (memset (ph_mem (k_phys s)) p 5 (Z.to_nat PGSIZE))
                                     (load64 (ph_mem (k_phys s)) p)) s)
  end.
Proof.
  intros (Hok & Hf & Hly) Hkm. unfold kalloc.
  erewrite bind_run by (by apply acquire_run).
  unfold get_freelist. erewrite bind_run by reflexivity. simpl.
  destruct l as [|p l].
  - pose proof (km_rep _ _ _ Hkm) as Hr. simpl in Hr. rewrite Hr. simpl.
    erewrite bind_run by reflexivity.
    erewrite bind_run by (by apply release_run).
    unfold when. simpl. erewrite bind_run by reflexivity. by destruct s.
  - pose proof (kmem_ok_nonzero _ _ _ _ Hly Hkm) as Hp.
    pose proof (km_rep _ _ _ Hkm) as Hr. simpl in Hr. destruct Hr as [-> _].
    apply Z.eqb_neq in Hp. rewrite Hp. simpl.
    erewrite bind_run by reflexivity.
    erewrite bind_run by (by apply release_set_phys). reflexivity.
Qed.

Lemma kalloc_wp e s l (Q : Z -> env -> kst -> Prop) :
  kctx s -> kmem_ok (k_layout s) (k_phys s) l ->
  (forall p l' m' fl', l = p :: l' -> page_ok (k_layout s) p -> p ∉ l' ->
     kmem_ok (k_layout s) (Phys m' fl') l' ->
     (forall x, within p PGSIZE x -> load8 m' x = 5) ->
     (forall x, ~ within p PGSIZE x -> load8 m' x = load8 (ph_mem (k_phys s)) x) ->
     Q p e (set_phys (Phys m' fl') s)) ->
  (l = [] -> Q 0 e s) ->
  wp kalloc e s Q.
Proof.
  intros Hc Hkm HQ HQ0. unfold wp. rewrite (kalloc_run e s l) by done.
  destruct l as [|p l]; [by apply HQ0|].
  pose proof Hkm as [Hr Hnd Hv]. apply NoDup_cons in Hnd as [Hni Hnd].
  apply Forall_cons_1 in Hv as [Hp Hv]. destruct Hr as [Hh Hr].
  apply (HQ p l); try done.
  - eapply (kmem_ok_frame _ (ph_mem (k_phys s))); [by split|].
    intros q x Hq Hx. apply load8_memset_out. rewrite Z2Nat.id by done.
    eapply (Forall_forall (page_ok _) l) in Hv; [|done].
    eapply page_disjoint; [apply Hv|apply Hp|congruence|exact Hx].
  - intros x Hx. rewrite load8_memset, Z2Nat.id by done. bcases; done.
  - intros x Hx. apply load8_memset_out. by rewrite Z2Nat.id.
Qed.

Lemma kfree_run pa e s :
  kctx s -> page_ok (k_layout s) pa ->
  kfree pa e s = Ok tt e (set_phys (Phys
    (store64 (memset (ph_mem (k_phys s)) pa 1 (Z.to_nat PGSIZE)) pa (ph_freelist (k_phys s))) pa) s).
Proof.
  intros (Hok & Hf & Hly) [Hal Hrg]. unfold kfree. erewrite bind_run by reflexivity.
  rewrite Hal. simpl. replace (pa <? ld_end (k_layout s)) with false by lia.
  replace (PHYSTOP <=? pa) with false by lia. simpl.
  erewrite bind_run by reflexivity.
  erewrite bind_run by reflexivity.
  erewrite bind_run by (by apply acquire_run).
  do 3 (erewrite bind_run by reflexivity).
  erewrite (release_run L_kmem e _ (k_hw s)) by done. by destruct s.
Qed.

Lemma kfree_wp pa e s l (Q : unit -> env -> kst -> Prop) :
  kctx s -> kmem_ok (k_layout s) (k_phys s) l -> page_ok (k_layout s) pa -> pa ∉ l ->
  (forall m', kmem_ok (k_layout s) (Phys m' pa) (pa :: l) ->
     (forall x, ~ within pa PGSIZE x -> load8 m' x = load8 (ph_mem (k_phys s)) x) ->
     Q tt e (set_phys (Phys m' pa) s)) ->
  wp (kfree pa) e s Q.
Proof.
  intros Hc Hkm Hp Hni HQ. eapply wp_run; [by apply kfree_run|].
  set (m' := store64 _ _ _).
  assert (Hout : forall x, ~ within pa PGSIZE x -> load8 m' x = load8 (ph_mem (k_phys s)) x).
  { intros x Hx. unfold m'. rewrite load8_store64_out by (unfold PGSIZE in *; lia).
    apply load8_memset_out. by rewrite Z2Nat.id. }
  apply HQ; [|done]. destruct Hkm as [Hr Hnd Hv].
  assert (Hly := proj2 (proj2 Hc)).
  split; simpl.
  - split; [done|].
    assert (Hn : load64 m' pa = u64 (ph_freelist (k_phys s))) by apply load64_store64_eq.
    rewrite Hn, u64_small.
    + eapply free_rep_ext; [exact Hr|]. intros q Hq x Hx. symmetry. apply Hout.
      eapply (Forall_forall (page_ok _) l) in Hv; [|done].
      eapply page_disjoint; [apply Hv|apply Hp|congruence|unfold PGSIZE; lia].
    + destruct l as [|q l]; simpl in Hr; [lia|]. destruct Hr as [-> _].
      apply Forall_cons_1 in Hv as [Hq _]. pose proof (page_ok_range _ _ Hly Hq). lia.
  - by apply NoDup_cons.
  - by apply Forall_cons.
Qed.

Lemma kctx_set_phys ph s : kctx (set_phys ph s) <-> kctx s.
Proof. done. Qed.

(** Freeing everything from the page [p] up. *)
Lemma freerange_loop_wp fuel p e s l (Q : unit -> env -> kst -> Prop) :
  kctx s -> kmem_ok (k_layout s) (k_phys s) l ->
  p mod PGSIZE = 0 -> ld_end (k_layout s) <= p <= PHYSTOP ->
  (forall q, q ∈ l -> q < p) -> (Z.to_nat ((PHYSTOP - p) / PGSIZE) < fuel)%nat ->
  (forall ph' l', kmem_ok (k_layout s) ph' l' ->
     (forall q, q ∈ l' <-> q ∈ l \/ (q mod PGSIZE = 0 /\ p <= q < PHYSTOP)) ->
     Q tt e (set_phys ph' s)) ->
  wp (freerange_loop fuel p PHYSTOP) e s Q.
Proof.
  revert p s l. induction fuel as [|fuel IH]; intros p s l Hc Hkm Hal Hp Hlt Hfuel HQ; [lia|].
  assert (Hps : PHYSTOP mod PGSIZE = 0) by done.
  cbn [freerange_loop]. destruct (Z.leb_spec (p + PGSIZE) PHYSTOP) as [Hle|Hgt].
  - apply wp_seq. eapply kfree_wp; [done|done|..].
    + split; [done|]. unfold PGSIZE in *. lia.
    + intros Hin%Hlt. lia.
    + intros m' Hkm' Hout. apply (IH _ _ (p :: l)); try done.
      * unfold PGSIZE in *. Z.div_mod_to_equations. lia.
      * simpl. unfold PGSIZE in *. lia.
      * intros q [->|Hq%Hlt]%elem_of_cons; unfold PGSIZE; lia.
      * replace (PHYSTOP - p) with (1 * PGSIZE + (PHYSTOP - (p + PGSIZE))) in Hfuel by lia.
        rewrite Z.div_add_l in Hfuel by done.
        pose proof (Z.div_pos (PHYSTOP - (p + PGSIZE)) PGSIZE ltac:(lia) ltac:(done)). lia.
      * intros ph' l' Hkm'' Hl'. apply (HQ ph' l'); [done|].
        intros q. rewrite Hl', elem_of_cons.
        unfold PGSIZE in *. split; [intros [[->|?]|?]; auto; right; lia|].
        intros [?|[? ?]]; [tauto|]. destruct (Z.eq_dec q p); [tauto|].
        right. split; [done|]. Z.div_mod_to_equations. lia.
  - apply wp_ret. replace s with (set_phys (k_phys s) s) by (by destruct s).
    apply (HQ (k_phys s) l); [done|]. intros q. split; [tauto|].
    intros [?|[? ?]]; [done|]. exfalso. unfold PGSIZE in *. Z.div_mod_to_equations. lia.
Qed.

Lemma PGROUNDUP_page a :
  0 <= a <= 18446744073709551616 - PGSIZE ->
  PGROUNDUP a mod PGSIZE = 0 /\ a <= PGROUNDUP a < a + PGSIZE.
Proof.
  intros. rewrite PGROUNDUP_eq by done. unfold PGSIZE. split.
  - apply Z.mod_mul. lia.
  - Z.div_mod_to_equations. lia.
Qed.

(** [kalloc] takes a page out of the free list: with pages [l] free it
    returns the first one, aligned and in the kernel's RAM, filled with 5s and
    no longer in the list, and touches no other byte; with none free it returns
    0 and changes nothing. The list invariant (no duplicates, every page valid)
    is kept. *)
Theorem kalloc_correct e s l :
  kctx s -> kmem_ok (k_layout s) (k_phys s) l ->
  wp kalloc e s (fun r e' s' => e' = e /\
    match l with
    | [] => r = 0 /\ s' = s
    | p :: l' => r = p /\ page_ok (k_layout s) p /\ p ∉ l' /\
        kmem_ok (k_layout s) (k_phys s') l' /\ s' = set_phys (k_phys s') s /\
        (forall x, load8 (ph_mem (k_phys s')) x =
           if (p <=? x) && (x <? p + PGSIZE) then 5 else load8 (ph_mem (k_phys s)) x)
    end).
Proof.
  intros Hc Hkm. apply (kalloc_wp e s l); [done|done| |].
  - intros p l' m' fl' -> Hp Hni Hkm' H5 Hout. split_and!; try done.
    intros x. simpl. destruct (Z.leb_spec p x), (Z.ltb_spec x (p + PGSIZE)); simpl;
      [apply H5; lia|apply Hout; lia..].
  - by intros ->.
Qed.

(** [kfree] of a page in the kernel's RAM that is not free puts it at the
    head of the free list, keeps the list invariant and changes no byte outside
    the page, so the next [kalloc] returns it; any other address (unaligned,
    below [end], or at or above PHYSTOP) panics. *)
Theorem kfree_correct pa e s l :
  kctx s -> kmem_ok (k_layout s) (k_phys s) l -> pa ∉ l ->
  (page_ok (k_layout s) pa ->
     wp (kfree pa) e s (fun _ e' s' => e' = e /\ kmem_ok (k_layout s) (k_phys s') (pa :: l) /\
       s' = set_phys (k_phys s') s /\
       (forall x, ~ within pa PGSIZE x ->
          load8 (ph_mem (k_phys s')) x = load8 (ph_mem (k_phys s)) x)) /\
     wp (kfree pa ;; kalloc) e s (fun r _ s' =>
       r = pa /\ kmem_ok (k_layout s) (k_phys s') l)) /\
  (~ page_ok (k_layout s) pa -> kfree pa e s = Panic "kfree").
Proof.
  intros Hc Hkm Hni. split.
  - intros Hp. split; [by eapply kfree_wp|].
    apply wp_seq. eapply kfree_wp; [done..|]. intros m' Hkm' _.
    apply (kalloc_wp e _ (pa :: l)); [done|done| |done].
    by intros ? ? ? ? [= <- <-].
  - intros Hn. unfold kfree. erewrite bind_run by reflexivity.
    replace (negb (pa mod PGSIZE =? 0) || (pa <? ld_end (k_layout s)) || (PHYSTOP <=? pa))
      with true; [done|].
    symmetry. apply not_false_iff_true. intros Hf.
    apply Hn. unfold page_ok. lia.
Qed.

(** After [kinit] on a booting machine the free list holds each page of RAM
    between [end] and PHYSTOP exactly once, the allocator's lock is initialised
    and free, and the machine is otherwise as before. *)
Theorem kinit_correct e s :
  hart_ok (k_hw s) -> layout_ok (k_layout s) -> ph_freelist (k_phys s) = 0 ->
  wp kinit e s (fun _ e' s' => e' = e /\ kctx s' /\
    exists l, kmem_ok (k_layout s) (k_phys s') l /\
      (forall p, p ∈ l <-> page_ok (k_layout s) p)).
Proof.
  intros Hok Hly Hfl. unfold kinit. apply wp_seq. unfold initlock, put_lock.
  apply wp_modk, wp_bind, wp_gets. simpl. unfold freerange.
  pose proof Hly as (Hly1 & Hly2 & _).
  assert (Hr : 0 <= ld_end (k_layout s) <= 18446744073709551616 - PGSIZE)
    by (unfold PHYSTOP, KERNBASE, PGSIZE in *; lia).
  destruct (PGROUNDUP_page _ Hr) as [Hal Hb].
  set (s1 := set_hw _ s). set (p0 := PGROUNDUP _) in *.
  assert (Hc : kctx s1).
  { split_and!; try done. exists "kmem"%string. apply lookup_insert_eq. }
  assert (HP : p0 <= PHYSTOP).
  { assert (PHYSTOP mod PGSIZE = 0) by done. unfold PGSIZE in *.
    Z.div_mod_to_equations. lia. }
  apply (freerange_loop_wp _ p0 e s1 []); try done.
  - split; [simpl; done|constructor|constructor].
  - simpl. lia.
  - set_solver.
  - lia.
  - intros ph' l' Hkm Hl'. split_and!; try done. exists l'. split; [done|].
    intros p. rewrite Hl', elem_of_nil. unfold page_ok. split; [intros [?|?]; [done|]|].
    + split; [tauto|]. lia.
    + intros [? ?]. right. split; [done|]. split; [|lia].
      unfold PGSIZE in *. Z.div_mod_to_equations. lia.
Qed.

(** Witnesses on the boot state, which has eight pages of RAM after [end]. *)

Definition kst_km : kst := kst_locked (Spinlock 0 "kmem" None).

Lemma layout_ok0 : layout_ok layout0.
Proof. by vm_compute. Qed.

Lemma kctx_km : kctx kst_km.
Proof. split_and!; [apply hart_ok_kst0|by exists "kmem"%string|apply layout_ok0]. Qed.

Lemma kmem_ok_km : kmem_ok (k_layout kst_km) (k_phys kst_km) [].
Proof. split; [done|constructor|constructor]. Qed.

Definition page7 : Z := PHYSTOP - PGSIZE.

Lemma page7_ok : page_ok (k_layout kst_km) page7.
Proof. by vm_compute. Qed.

Lemma kfree_correct_witness :
  wp (kfree page7 ;; kalloc) [] kst_km (fun r _ s' =>
    r = page7 /\ kmem_ok (k_layout kst_km) (k_phys s') []) /\
  kfree (page7 + 1) [] kst_km = Panic "kfree".
Proof.
  split.
  - exact (proj2 (proj1 (kfree_correct page7 [] kst_km [] kctx_km kmem_ok_km
      ltac:(set_solver)) page7_ok)).
  - apply (proj2 (kfree_correct (page7 + 1) [] kst_km [] kctx_km kmem_ok_km
      ltac:(set_solver))). vm_compute. intros [? _]. done.
Defined.

(** The free list after one page was freed. *)
Definition kst_km1 : kst :=
  set_phys (Phys (store64 (memset ∅ page7 1 (Z.to_nat PGSIZE)) page7 0) page7) kst_km.

Lemma kmem_ok_km1 : kmem_ok (k_layout kst_km1) (k_phys kst_km1) [page7].
Proof.
  split; simpl.
  - split; [done|]. by rewrite load64_store64_eq.
  - apply NoDup_singleton.
  - constructor; [apply page7_ok|constructor].
Qed.

Lemma kalloc_correct_witness :
  wp kalloc [] kst_km1 (fun r _ s' =>
    r = page7 /\ load8 (ph_mem (k_phys s')) (page7 + 9) = 5).
Proof.
  eapply wp_mono; [exact (kalloc_correct [] kst_km1 [page7] kctx_km kmem_ok_km1)|].
  intros r e' s' (_ & -> & _ & _ & _ & _ & H). split; [done|]. by rewrite H.
Defined.

Lemma kinit_correct_witness :
  wp kinit [] kst_km (fun _ _ s' => exists l,
    kmem_ok (k_layout kst_km) (k_phys s') l /\ page7 ∈ l).
Proof.
  eapply wp_mono; [exact (kinit_correct [] kst_km (hart_ok_kst0 _) layout_ok0 eq_refl)|].
  intros r e' s' (_ & _ & l & Hl & Hp). exists l. split; [done|].
  apply Hp, page7_ok.
Defined.
