(* ===== verification/Vm.v ===== *)
(** vm.c: Sv39 page tables and user memory. Page-table pages and user pages
    are pages of kernel memory; a [pagetable_t] is the address of the root
    page, and a [pte_t *] the address of an entry. *)

From S2P Require Import Prelude Machine KState Spinlock KString Kalloc.

(** [v & PTE_x] as a condition. *)
Definition flag (v f : Z) : bool := negb (Z.land v f =? 0).

(** ** Walking *)

(** The loop of walk from [level] down to 1, at the table page [pagetable]. *)
Fixpoint walk_loop (level : nat) (pagetable va : Z) (alloc : bool) : K Z :=
  match level with
  | O => mret (pagetable + 8 * PX 0 va)
  | S level' =>
    let pte := pagetable + 8 * PX (Z.of_nat level) va in
    v ← kload64 pte;
    if flag v PTE_V then walk_loop level' (PTE2PA v) va alloc
    else if negb alloc then mret 0
    else
      pg ← kalloc;
      if pg =? 0 then mret 0
      else
        kmemset pg 0 (Z.to_nat PGSIZE) ;;
        kstore64 pte (Z.lor (PA2PTE pg) PTE_V) ;;
        walk_loop level' pg va alloc
  end.

Definition walk (pagetable va : Z) (alloc : bool) : K Z :=
  if MAXVA <=? va then panic "walk" else walk_loop 2 pagetable va alloc.

Definition walkaddr (pagetable va : Z) : K Z :=
  if MAXVA <=? va then mret 0
  else
    pte ← walk pagetable va false;
    if pte =? 0 then mret 0
    else
      v ← kload64 pte;
      if negb (flag v PTE_V) then mret 0
      else if negb (flag v PTE_U) then mret 0
      else mret (PTE2PA v).

(** ** Mapping *)

Fixpoint mappages_loop (fuel : nat) (pagetable a last pa perm : Z) : K Z :=
  match fuel with
  | O => nofuel
  | S fuel =>
    pte ← walk pagetable a true;
    if pte =? 0 then mret (-1)
    else
      v ← kload64 pte;
      when (flag v PTE_V) (panic "mappages: remap") ;;
      kstore64 pte (Z.lor (Z.lor (PA2PTE pa) perm) PTE_V) ;;
      if a =? last then mret 0
      else mappages_loop fuel pagetable (u64 (a + PGSIZE)) last (u64 (pa + PGSIZE)) perm
  end.

(** The loop stops at [last], or at MAXVA where walk panics when the range
    wraps around. *)
Definition mappages (pagetable va size pa perm : Z) : K Z :=
  when (size =? 0) (panic "mappages: size") ;;
  let a := PGROUNDDOWN va in
  let last := PGROUNDDOWN (u64 (va + size - 1)) in
  let stop := if a <=? last then last else MAXVA in
  mappages_loop (S (S (Z.to_nat ((stop - a) / PGSIZE)))) pagetable a last pa perm.

Definition kvmmap (kpgtbl va pa sz perm : Z) : K unit :=
  r ← mappages kpgtbl va sz pa perm;
  when (negb (r =? 0)) (panic "kvmmap").

Fixpoint uvmunmap_loop (fuel : nat) (pagetable a bound : Z) (do_free : bool) : K unit :=
  match fuel with
  | O => nofuel
  | S fuel =>
    if a <? bound then
      pte ← walk pagetable a false;
      when (pte =? 0) (panic "uvmunmap: walk") ;;
      v ← kload64 pte;
      when (negb (flag v PTE_V)) (panic "uvmunmap: not mapped") ;;
      when (PTE_FLAGS v =? PTE_V) (panic "uvmunmap: not a leaf") ;;
      when do_free (kfree (PTE2PA v)) ;;
      kstore64 pte 0 ;;
      uvmunmap_loop fuel pagetable (u64 (a + PGSIZE)) bound do_free
    else mret tt
  end.

Definition uvmunmap (pagetable va npages : Z) (do_free : bool) : K unit :=
  when (negb (va mod PGSIZE =? 0)) (panic "uvmunmap: not aligned") ;;
  let bound := u64 (va + u64 (npages * PGSIZE)) in
  uvmunmap_loop (S (Z.to_nat ((bound - va + PGSIZE - 1) / PGSIZE))) pagetable va bound do_free.

Definition uvmcreate : K Z :=
  pagetable ← kalloc;
  if pagetable =? 0 then mret 0
  else kmemset pagetable 0 (Z.to_nat PGSIZE) ;; mret pagetable.

(** [src] is the code to load, [sizeof] bytes of it. *)
Definition uvmfirst (pagetable : Z) (src : list Z) : K unit :=
  when (PGSIZE <=? Z.of_nat (length src)) (panic "uvmfirst: more than a page") ;;
  pg ← kalloc;
  kmemset pg 0 (Z.to_nat PGSIZE) ;;
  mappages pagetable 0 PGSIZE pg (Z.lor (Z.lor (Z.lor PTE_W PTE_R) PTE_X) PTE_U) ;;
  setmem (fun m => store_bytes m pg src).

Definition uvmdealloc (pagetable oldsz newsz : Z) : K Z :=
  if oldsz <=? newsz then mret oldsz
  else
    when (PGROUNDUP newsz <? PGROUNDUP oldsz)
      (uvmunmap pagetable (PGROUNDUP newsz)
         (i32 ((PGROUNDUP oldsz - PGROUNDUP newsz) / PGSIZE)) true) ;;
    mret newsz.

Fixpoint uvmalloc_loop (fuel : nat) (pagetable oldsz a newsz xperm : Z) : K Z :=
  match fuel with
  | O => nofuel
  | S fuel =>
    if a <? newsz then
      pg ← kalloc;
      if pg =? 0 then uvmdealloc pagetable a oldsz ;; mret 0
      else
        kmemset pg 0 (Z.to_nat PGSIZE) ;;
        r ← mappages pagetable a PGSIZE pg (Z.lor (Z.lor PTE_R PTE_U) xperm);
        if negb (r =? 0) then kfree pg ;; uvmdealloc pagetable a oldsz ;; mret 0
        else uvmalloc_loop fuel pagetable oldsz (u64 (a + PGSIZE)) newsz xperm
    else mret newsz
  end.

Definition uvmalloc (pagetable oldsz newsz xperm : Z) : K Z :=
  if newsz <? oldsz then mret oldsz
  else
    let oldsz := PGROUNDUP oldsz in
    uvmalloc_loop (S (Z.to_nat ((newsz - oldsz + PGSIZE - 1) / PGSIZE)))
      pagetable oldsz oldsz newsz xperm.

(** ** Freeing *)

(** The indices of a table's entries. *)
Definition pte_indices : list Z := seqZ 0 512.
#[global] Opaque pte_indices.

(** [depth] bounds the recursion: a table of three levels needs 3. *)
Fixpoint freewalk (depth : nat) (pagetable : Z) : K unit :=
  match depth with
  | O => nofuel
  | S depth =>
    forK pte_indices (fun i =>
      pte ← kload64 (pagetable + 8 * i);
      if flag pte PTE_V && negb (flag pte (Z.lor (Z.lor PTE_R PTE_W) PTE_X)) then
        freewalk depth (PTE2PA pte) ;;
        kstore64 (pagetable + 8 * i) 0
      else when (flag pte PTE_V) (panic "freewalk: leaf")) ;;
    kfree pagetable
  end.

Definition uvmfree (pagetable sz : Z) : K unit :=
  when (0 <? sz) (uvmunmap pagetable 0 (PGROUNDUP sz / PGSIZE) true) ;;
  freewalk 3 pagetable.

Fixpoint uvmcopy_loop (fuel : nat) (old new i sz : Z) : K Z :=
  match fuel with
  | O => nofuel
  | S fuel =>
    if i <? sz then
      pte ← walk old i false;
      when (pte =? 0) (panic "uvmcopy: pte should exist") ;;
      v ← kload64 pte;
      when (negb (flag v PTE_V)) (panic "uvmcopy: page not present") ;;
      let pa := PTE2PA v in
      let flags := PTE_FLAGS v in
      pg ← kalloc;
      if pg =? 0 then uvmunmap new 0 (i / PGSIZE) true ;; mret (-1)
      else
        kmemmove pg pa (Z.to_nat PGSIZE) ;;
        r ← mappages new i PGSIZE pg flags;
        if negb (r =? 0) then
          kfree pg ;; uvmunmap new 0 (i / PGSIZE) true ;; mret (-1)
        else uvmcopy_loop fuel old new (u64 (i + PGSIZE)) sz
    else mret 0
  end.

Definition uvmcopy (old new sz : Z) : K Z :=
  uvmcopy_loop (S (Z.to_nat ((sz + PGSIZE - 1) / PGSIZE))) old new 0 sz.

Definition uvmclear (pagetable va : Z) : K unit :=
  pte ← walk pagetable va false;
  when (pte =? 0) (panic "uvmclear") ;;
  v ← kload64 pte;
  kstore64 pte (Z.land v (u64 (Z.lnot PTE_U))).

(** ** Copying between kernel and user memory *)

(** The kernel's [len] bytes at [src] are the list [src]. *)
Fixpoint copyout_loop (fuel : nat) (pagetable dstva : Z) (src : list Z) : K Z :=
  match fuel with
  | O => nofuel
  | S fuel =>
    if bool_decide (src = []) then mret 0
    else
      let va0 := PGROUNDDOWN dstva in
      pa0 ← walkaddr pagetable va0;
      if pa0 =? 0 then mret (-1)
      else
        let n := Z.min (PGSIZE - (dstva - va0)) (Z.of_nat (length src)) in
        setmem (fun m => store_bytes m (pa0 + (dstva - va0)) (take (Z.to_nat n) src)) ;;
        copyout_loop fuel pagetable (u64 (va0 + PGSIZE)) (drop (Z.to_nat n) src)
  end.

Definition copyout (pagetable dstva : Z) (src : list Z) : K Z :=
  copyout_loop (S (length src)) pagetable dstva src.

(** Returns the result with the bytes written to [dst]. *)
Fixpoint copyin_loop (fuel : nat) (pagetable srcva len : Z) (acc : list Z) : K (Z * list Z) :=
  match fuel with
  | O => nofuel
  | S fuel =>
    if len =? 0 then mret (0, acc)
    else
      let va0 := PGROUNDDOWN srcva in
      pa0 ← walkaddr pagetable va0;
      if pa0 =? 0 then mret (-1, acc)
      else
        let n := Z.min (PGSIZE - (srcva - va0)) len in
        m ← getmem;
        copyin_loop fuel pagetable (u64 (va0 + PGSIZE)) (len - n)
          (acc ++ load_bytes m (pa0 + (srcva - va0)) (Z.to_nat n))
  end.

Definition copyin (pagetable srcva len : Z) : K (Z * list Z) :=
  copyin_loop (S (Z.to_nat len)) pagetable srcva len [].

(** The inner loop: up to [n] bytes at [p]; the flag is got_null. *)
Fixpoint copyinstr_page (m : mem) (p : Z) (n : nat) : list Z * bool :=
  match n with
  | O => ([], false)
  | S n => if load8 m p =? 0 then ([0], true)
           else let '(l, b) := copyinstr_page m (p + 1) n in (load8 m p :: l, b)
  end.

Fixpoint copyinstr_loop (fuel : nat) (pagetable srcva max : Z) (acc : list Z) : K (Z * list Z) :=
  match fuel with
  | O => nofuel
  | S fuel =>
    if max =? 0 then mret (-1, acc)
    else
      let va0 := PGROUNDDOWN srcva in
      pa0 ← walkaddr pagetable va0;
      if pa0 =? 0 then mret (-1, acc)
      else
        let n := Z.min (PGSIZE - (srcva - va0)) max in
        m ← getmem;
        let '(l, got_null) := copyinstr_page m (pa0 + (srcva - va0)) (Z.to_nat n) in
        if (got_null : bool) then mret (0, acc ++ l)
        else copyinstr_loop fuel pagetable (u64 (va0 + PGSIZE)) (max - n) (acc ++ l)
  end.

Definition copyinstr (pagetable srcva max : Z) : K (Z * list Z) :=
  copyinstr_loop (S (Z.to_nat max)) pagetable srcva max [].

(** ** The kernel's page table *)

(** proc.c: a stack page for every process, each below a guard page. *)
Definition proc_mapstacks (kpgtbl : Z) : K unit :=
  forK (seqZ 0 (Z.of_nat NPROC)) (fun p =>
    pa ← kalloc;
    when (pa =? 0) (panic "kalloc") ;;
    kvmmap kpgtbl (KSTACK p) pa PGSIZE (Z.lor PTE_R PTE_W)).

Definition kvmmake : K Z :=
  kpgtbl ← kalloc;
  kmemset kpgtbl 0 (Z.to_nat PGSIZE) ;;
  ly ← gets k_layout;
  kvmmap kpgtbl UART0 UART0 PGSIZE (Z.lor PTE_R PTE_W) ;;
  kvmmap kpgtbl VIRTIO0 VIRTIO0 PGSIZE (Z.lor PTE_R PTE_W) ;;
  kvmmap kpgtbl PLIC PLIC 0x400000 (Z.lor PTE_R PTE_W) ;;
  kvmmap kpgtbl KERNBASE KERNBASE (ld_etext ly - KERNBASE) (Z.lor PTE_R PTE_X) ;;
  kvmmap kpgtbl (ld_etext ly) (ld_etext ly) (PHYSTOP - ld_etext ly) (Z.lor PTE_R PTE_W) ;;
  kvmmap kpgtbl TRAMPOLINE (ld_trampoline ly) PGSIZE (Z.lor PTE_R PTE_X) ;;
  proc_mapstacks kpgtbl ;;
  mret kpgtbl.

Definition kvminit : K unit :=
  pt ← kvmmake;
  modk (fun s => set_ps (ps_set_kpgtbl pt (k_ps s)) s).
