(* ===== verification/VmSpec.v ===== *)
(** Page tables as finite maps: the invariant of a three-level table in memory,
    its abstraction to a map from virtual pages to entries, and the proofs that
    [walk] and [mappages] implement lookup and insertion on it. *)

From S2P Require Import Prelude Machine KState Spinlock KString Kalloc Vm.

(** ** The table in memory *)

(** [T] gives the page of every node of the tree by its path: the root at [[]],
    the second-level tables at [[i2]], the last-level tables at [[i2; i1]]. *)
Abbreviation ptree := (gmap (list Z) Z).

Record pt_wf (ly : layout) (m : mem) (root : Z) (T : ptree) : Prop := {
  pt_root : T !! [] = Some root;
  pt_inj : forall k k' p, T !! k = Some p -> T !! k' = Some p -> k = k';
  pt_page : forall k p, T !! k = Some p -> page_ok ly p;
  pt_len : forall k p, T !! k = Some p -> (length k <= 2)%nat;
  pt_prefix : forall k i p, T !! (k ++ [i]) = Some p -> is_Some (T !! k) /\ 0 <= i < 512;
  pt_node : forall k p i, T !! k = Some p -> (length k < 2)%nat -> 0 <= i < 512 ->
    T !! (k ++ [i]) = if flag (load64 m (p + 8 * i)) PTE_V
                      then Some (PTE2PA (load64 m (p + 8 * i))) else None;
  pt_inner : forall k p i, T !! k = Some p -> (length k < 2)%nat -> 0 <= i < 512 ->
    flag (load64 m (p + 8 * i)) PTE_V = true ->
    flag (load64 m (p + 8 * i)) (Z.lor (Z.lor PTE_R PTE_W) PTE_X) = false;
  pt_low : forall i k p, T !! (i :: k) = Some p -> i < 256 }.

(** The table, the free list, and that they do not overlap. *)
Record vm_ok (ly : layout) (ph : phys) (root : Z) (T : ptree) (l : list Z) : Prop := {
  vm_km : kmem_ok ly ph l;
  vm_pt : pt_wf ly (ph_mem ph) root T;
  vm_dis : forall k p, T !! k = Some p -> p ∉ l }.

(** The address of the last-level entry for [va], and the entry if valid. *)
Definition slot (T : ptree) (va : Z) : option Z :=
  (fun p => p + 8 * PX 0 va) <$> T !! [PX 2 va; PX 1 va].

Definition pte_at (m : mem) (T : ptree) (va : Z) : option Z :=
  a ← slot T va;
  let v := load64 m a in if flag v PTE_V then Some v else None.

(** No byte outside the pages of [T] differs. *)
Definition outside_same (T : ptree) (m m' : mem) : Prop :=
  forall x, (forall k p, T !! k = Some p -> ~ within p PGSIZE x) -> load8 m' x = load8 m x.

(** What building tables may do: nodes are added from the free list, entries of
    mapped pages stay, and only pages of the tree change. *)
Record vm_grow (m : mem) (T : ptree) (l : list Z) (m' : mem) (T' : ptree) (l' : list Z) : Prop := {
  gr_sub : T ⊆ T';
  gr_new : forall k p, T' !! k = Some p -> T !! k = Some p \/ p ∈ l;
  gr_free : exists new, l = new ++ l';
  gr_out : outside_same T' m m';
  gr_all : forall p, p ∈ l -> p ∈ l' \/ exists k, T' !! k = Some p }.

(** ** Basic facts *)

Lemma flag_V_0 : flag 0 PTE_V = false.
Proof. done. Qed.

Lemma flag_V_mk x : flag (Z.lor x PTE_V) PTE_V = true.
Proof.
  unfold flag, PTE_V. rewrite (land_bit_testbit _ 0) by done.
  by rewrite Z.lor_spec, orb_true_r.
Qed.

Lemma vm_grow_refl m T l : vm_grow m T l m T l.
Proof. split; [done|auto|by exists []|done|auto]. Qed.

Lemma vm_grow_trans m T l m1 T1 l1 m2 T2 l2 :
  vm_grow m T l m1 T1 l1 -> vm_grow m1 T1 l1 m2 T2 l2 -> vm_grow m T l m2 T2 l2.
Proof.
  intros [A1 A2 [n1 A3] A4 A5] [B1 B2 [n2 B3] B4 B5]. split.
  - by etrans.
  - intros k p [H|H]%B2; [auto|]. right. rewrite A3. set_solver.
  - exists (n1 ++ n2). by rewrite A3, B3, (assoc_L (++)).
  - intros x Hx. rewrite B4 by done. apply A4. intros k p Hk. apply (Hx k).
    by eapply lookup_weaken.
  - intros p [Hp|[k Hk]]%A5; [auto|]. right. exists k. by eapply lookup_weaken.
Qed.

Lemma pt_slot_bounds ly m root T va a :
  pt_wf ly m root T -> slot T va = Some a ->
  exists p, T !! [PX 2 va; PX 1 va] = Some p /\ a = p + 8 * PX 0 va /\
    p <= a /\ a + 8 <= p + PGSIZE.
Proof.
  intros Hpt. unfold slot. rewrite fmap_Some. intros (p & Hp & ->).
  exists p. pose proof (PX_range 0 va). unfold PGSIZE. split_and!; try done; lia.
Qed.

(** Pages of the tree are disjoint. *)
Lemma pt_disjoint ly m root T k p k' p' x :
  pt_wf ly m root T -> T !! k = Some p -> T !! k' = Some p' -> k <> k' ->
  within p PGSIZE x -> ~ within p' PGSIZE x.
Proof.
  intros Hpt Hk Hk' Hne. eapply page_disjoint.
  - by apply (pt_page _ _ _ _ Hpt k).
  - by apply (pt_page _ _ _ _ Hpt k').
  - intros ->. apply Hne. by eapply pt_inj.
Qed.

(** Two distinct 8-byte slots of one table page. *)
Lemma slot_neq p i j : i <> j -> p + 8 * i + 8 <= p + 8 * j \/ p + 8 * j + 8 <= p + 8 * i.
Proof. lia. Qed.

(** An entry of one page is not affected by a change confined to others. *)
Lemma load64_page_same m m' p i :
  0 <= i < 512 -> (forall x, within p PGSIZE x -> load8 m' x = load8 m x) ->
  load64 m' (p + 8 * i) = load64 m (p + 8 * i).
Proof. intros Hi H. apply load64_ext. intros x Hx. apply H. unfold PGSIZE. lia. Qed.

(** Memory may change outside the tree. *)
Lemma pt_wf_frame ly m m' root T :
  pt_wf ly m root T ->
  (forall k p x, T !! k = Some p -> within p PGSIZE x -> load8 m' x = load8 m x) ->
  pt_wf ly m' root T.
Proof.
  intros [H1 H2 H3 H4 H5 H6 H7 H8] Hs. split; try done;
    intros k p i Hk Hl Hi; rewrite (load64_page_same m m' p i) by eauto; eauto.
Qed.

Lemma pte_at_frame ly m m' root T va :
  pt_wf ly m root T ->
  (forall k p x, T !! k = Some p -> within p PGSIZE x -> load8 m' x = load8 m x) ->
  pte_at m' T va = pte_at m T va.
Proof.
  intros Hpt Hs. unfold pte_at. destruct (slot T va) as [a|] eqn:E; [|done]. simpl.
  destruct (pt_slot_bounds _ _ _ _ _ _ Hpt E) as (p & Hp & -> & _).
  rewrite (load64_page_same m m') by (eauto using PX_range with lia || (apply PX_range; lia)).
  done.
Qed.

(** ** Adding a node *)

(** An entry with no flag but PTE_V is not a leaf. *)
Lemma node_flags pg :
  0 <= pg < 72057594037927936 -> pg mod 4096 = 0 ->
  flag (Z.lor (PA2PTE pg) PTE_V) (Z.lor (Z.lor PTE_R PTE_W) PTE_X) = false.
Proof.
  intros H1 H2. unfold flag. change (Z.lor (Z.lor PTE_R PTE_W) PTE_X) with (Z.land 0x3FF 14).
  rewrite Z.land_assoc. fold (PTE_FLAGS (Z.lor (PA2PTE pg) PTE_V)).
  by rewrite PTE_FLAGS_mkpte.
Qed.

Lemma pt_add_node ly m root T k p i pg m' :
  layout_ok ly ->
  pt_wf ly m root T -> T !! k = Some p -> (length k < 2)%nat -> 0 <= i < 512 ->
  (k = [] -> i < 256) ->
  T !! (k ++ [i]) = None -> page_ok ly pg -> (forall k q, T !! k = Some q -> q <> pg) ->
  (forall x, ~ within pg PGSIZE x -> load8 m' x = load8 m x) ->
  (forall x, within pg PGSIZE x -> load8 m' x = 0) ->
  pt_wf ly (store64 m' (p + 8 * i) (Z.lor (PA2PTE pg) PTE_V)) root (<[k ++ [i] := pg]> T).
Proof.
  intros Hly Hpt Hk Hlen Hi Hlow Hnone Hpg Hfresh Hout Hz.
  pose proof (page_ok_range _ _ Hly Hpg) as [Hpgr Hpga].
  set (v := Z.lor _ _). set (m2 := store64 _ _ _).
  assert (Hp : page_ok ly p) by by eapply pt_page.
  assert (Hld : forall q j, 0 <= j < 512 -> q mod PGSIZE = 0 -> (q <> p \/ j <> i) ->
            load64 m2 (q + 8 * j) = load64 m' (q + 8 * j)).
  { intros q j Hj Hq Hne. unfold m2. apply load64_store64_ne.
    destruct Hp as [Hpa _]. unfold PGSIZE in *. Z.div_mod_to_equations. lia. }
  assert (Hv : load64 m2 (p + 8 * i) = v).
  { unfold m2. rewrite load64_store64_eq. apply u64_small.
    pose proof (mkpte_range pg PTE_V ltac:(lia) Hpga ltac:(done)). unfold v. lia. }
  assert (HnonePre : forall j, T !! ((k ++ [i]) ++ [j]) = None).
  { intros j. destruct (T !! ((k ++ [i]) ++ [j])) eqn:E; [|done].
    apply (pt_prefix _ _ _ _ Hpt) in E as [[? E] _]. congruence. }
  destruct Hpt as [H1 H2 H3 H4 H5 H6 H7 H8].
  assert (HldNew : forall j, 0 <= j < 512 -> load64 m2 (pg + 8 * j) = 0).
  { intros j Hj. rewrite Hld; [|done|apply Hpg|left; intros <-; by eapply Hfresh].
    rewrite (load64_ext _ ∅); [done|]. intros x Hx. apply Hz. unfold PGSIZE. lia. }
  assert (HldOld : forall k1 q j, T !! k1 = Some q -> 0 <= j < 512 -> ~ (k1 = k /\ j = i) ->
            load64 m2 (q + 8 * j) = load64 m (q + 8 * j)).
  { intros k1 q j Hq Hj Hne. rewrite Hld; [|done|by apply (H3 k1)|].
    2:{ destruct (decide (j = i)) as [->|]; [|tauto]. left. intros ->. apply Hne.
        split; [by eapply H2|done]. }
    apply load64_page_same; [done|]. intros x Hx. apply Hout.
    eapply page_disjoint; [..|exact Hx]; [by apply (H3 k1)|apply Hpg|by eapply Hfresh]. }
  split.
  - rewrite lookup_insert_ne; [done|]. by destruct k.
  - intros k1 k2 q Hq1 Hq2.
    apply lookup_insert_Some in Hq1 as [[<- <-]|[? Hq1]];
    apply lookup_insert_Some in Hq2 as [[<- ?]|[? Hq2]]; try done; subst;
    [by apply Hfresh in Hq2|by apply Hfresh in Hq1|by eapply H2].
  - intros k1 q [[<- <-]|[? Hq]]%lookup_insert_Some; eauto.
  - intros k1 q [[<- <-]|[? Hq]]%lookup_insert_Some; eauto.
    rewrite length_app. simpl. lia.
  - intros k1 j q [[E <-]|[? Hq]]%lookup_insert_Some.
    + apply app_inj_2 in E as [<- [= <-]]; [|done]. split; [|done].
      rewrite lookup_insert_ne; [by eexists|]. intros E. apply (f_equal length) in E.
      rewrite length_app in E. simpl in E. lia.
    + apply H5 in Hq as [[q' Hq'] ?]. split; [|done].
      apply lookup_insert_is_Some'. right. by eexists.
  - intros k1 q j [[<- <-]|[Hk1 Hq]]%lookup_insert_Some Hl1 Hj.
    + rewrite lookup_insert_ne.
      2:{ intros E. apply (f_equal length) in E. rewrite !length_app in E. simpl in E. lia. }
      by rewrite HnonePre, HldNew.
    + destruct (decide (k1 = k /\ j = i)) as [[-> ->]|Hne].
      * rewrite lookup_insert_eq. assert (q = p) as -> by congruence.
        rewrite Hv. unfold v. rewrite flag_V_mk, PTE2PA_mkpte; [done|lia|done|done].
      * rewrite lookup_insert_ne by (intros E; apply app_inj_2 in E as [<- [= <-]]; [|done]; tauto).
        rewrite (HldOld k1); eauto.
  - intros k1 q j [[<- <-]|[Hk1 Hq]]%lookup_insert_Some Hl1 Hj.
    + by rewrite HldNew.
    + destruct (decide (k1 = k /\ j = i)) as [[-> ->]|Hne].
      * assert (q = p) as -> by congruence. intros _. rewrite Hv. apply node_flags; [lia|done].
      * rewrite (HldOld k1); eauto.
  - intros j k1 q [[E _]|[_ Hq]]%lookup_insert_Some; [|by eapply H8].
    destruct k as [|j' k']; injection E as <- _; [auto|by eapply H8].
Qed.

(** The new node changes no entry that was valid. *)
Lemma pt_add_node_pte ly m root T k p i pg m' va v :
  pt_wf ly m root T -> T !! k = Some p -> (length k < 2)%nat -> 0 <= i < 512 ->
  T !! (k ++ [i]) = None -> page_ok ly pg -> (forall k q, T !! k = Some q -> q <> pg) ->
  (forall x, ~ within pg PGSIZE x -> load8 m' x = load8 m x) ->
  (forall x, within pg PGSIZE x -> load8 m' x = 0) ->
  pte_at (store64 m' (p + 8 * i) v) (<[k ++ [i] := pg]> T) va = pte_at m T va.
Proof.
  intros Hpt Hk Hlen Hi Hnone Hpg Hfresh Hout Hz.
  pose proof (PX_range 0 va) as HPX.
  assert (Hp : page_ok ly p) by by eapply pt_page.
  unfold pte_at, slot. destruct (decide (k ++ [i] = [PX 2 va; PX 1 va])) as [E|E].
  - rewrite E, lookup_insert_eq. rewrite E in Hnone. rewrite Hnone. simpl.
    rewrite load64_store64_ne.
    2:{ assert (p <> pg) by by eapply Hfresh. destruct Hp as [Hp _], Hpg as [Hpg _].
        unfold PGSIZE in *. Z.div_mod_to_equations. lia. }
    rewrite (load64_ext _ ∅); [done|]. intros x Hx. apply Hz. unfold PGSIZE. lia.
  - rewrite lookup_insert_ne by done.
    destruct (T !! [PX 2 va; PX 1 va]) as [q|] eqn:Eq; [simpl|done].
    assert (q <> p).
    { intros ->. assert (k = [PX 2 va; PX 1 va]) as -> by by eapply pt_inj. simpl in Hlen. lia. }
    assert (page_ok ly q) by by eapply pt_page.
    rewrite load64_store64_ne.
    2:{ destruct Hp as [Hp _], H0 as [Hq _]. unfold PGSIZE in *. Z.div_mod_to_equations. lia. }
    rewrite (load64_page_same m m' q); [done|lia|].
    intros x Hx. apply Hout. eapply page_disjoint; [..|exact Hx];
      [apply H0|apply Hpg|by eapply Hfresh].
Qed.

(** ** walk *)

(** The path of [va] in the tree. *)
Definition path (va : Z) : list Z := [PX 2 va; PX 1 va].

Lemma walk_loop_noalloc level k p va e s root T :
  pt_wf (k_layout s) (ph_mem (k_phys s)) root T ->
  (level <= 2)%nat -> k = take (2 - level) (path va) -> T !! k = Some p ->
  walk_loop level p va false e s = Ok (default 0 (slot T va)) e s.
Proof.
  intros Hpt. revert k p. induction level as [|level IH]; intros k p Hl Hk Hp.
  - simpl in Hk. subst k. simpl. unfold slot. by rewrite Hp.
  - cbn [walk_loop]. unfold kload64, getmem. krun.
    set (i := PX (Z.of_nat (S level)) va).
    assert (Hi : 0 <= i < 512) by (apply PX_range; lia).
    assert (Hki : k ++ [i] = take (2 - level) (path va)).
    { subst k i. destruct level as [|[|?]]; [done|done|lia]. }
    assert (Hlk : (length k < 2)%nat).
    { subst k. rewrite length_take. simpl. lia. }
    pose proof (pt_node _ _ _ _ Hpt k p i Hp Hlk Hi) as Hn.
    destruct (flag _ PTE_V) eqn:E.
    + apply (IH (k ++ [i])); [lia|done|done].
    + simpl. f_equal. unfold slot.
      destruct (T !! [PX 2 va; PX 1 va]) eqn:Es; [exfalso|done].
      destruct level as [|[|?]]; [| |lia]; simpl in Hki.
      * rewrite Hki in Hn. unfold path in Hn. congruence.
      * rewrite Hki in Hn.
        destruct (pt_prefix _ _ _ _ Hpt [PX 2 va] (PX 1 va) _ Es) as [[? ?] _]. congruence.
Qed.

Lemma walk_noalloc e s root T va :
  pt_wf (k_layout s) (ph_mem (k_phys s)) root T -> 0 <= va < MAXVA ->
  walk root va false e s = Ok (default 0 (slot T va)) e s.
Proof.
  intros Hpt Hva. unfold walk. replace (MAXVA <=? va) with false by lia.
  eapply (walk_loop_noalloc 2 []); [exact Hpt|done|done|by eapply pt_root].
Qed.

(** The post-state of a walk that may allocate. *)
Definition walk_post (ly : layout) (root va : Z) (m : mem) (T : ptree) (l : list Z)
    (r : Z) (ph' : phys) (T' : ptree) (l' : list Z) : Prop :=
  vm_ok ly ph' root T' l' /\ vm_grow m T l (ph_mem ph') T' l' /\
  (forall va', pte_at (ph_mem ph') T' va' = pte_at m T va') /\
  ((slot T' va = Some r /\ 0 < r) \/ (r = 0 /\ l' = [])).

Lemma walk_loop_alloc level k p va e s root T l (Q : Z -> env -> kst -> Prop) :
  kctx s -> vm_ok (k_layout s) (k_phys s) root T l ->
  0 <= va < MAXVA -> (level <= 2)%nat -> k = take (2 - level) (path va) -> T !! k = Some p ->
  (forall r ph' T' l',
     walk_post (k_layout s) root va (ph_mem (k_phys s)) T l r ph' T' l' ->
     Q r e (set_phys ph' s)) ->
  wp (walk_loop level p va true) e s Q.
Proof.
  revert k p s T l. induction level as [|level IH]; intros k p s T l Hc Hvm Hva Hl Hk Hp HQ.
  - simpl in Hk. subst k. simpl. apply wp_ret.
    replace s with (set_phys (k_phys s) s) by (by destruct s).
    eapply (HQ _ _ T l). split_and!; [done|apply vm_grow_refl|done|].
    left. unfold slot. rewrite Hp. split; [done|]. simpl.
    pose proof (pt_page _ _ _ _ (vm_pt _ _ _ _ _ Hvm) _ _ Hp) as Hpg.
    pose proof (page_ok_range _ _ (proj2 (proj2 Hc)) Hpg). pose proof (PX_range 0 va). lia.
  - cbn [walk_loop]. unfold kload64, getmem. apply wp_bind, wp_bind, wp_gets, wp_ret.
    pose proof (vm_pt _ _ _ _ _ Hvm) as Hpt.
    set (i := PX (Z.of_nat (S level)) va).
    assert (Hi : 0 <= i < 512) by (apply PX_range; lia).
    assert (Hki : k ++ [i] = take (2 - level) (path va)).
    { subst k i. destruct level as [|[|?]]; [done|done|lia]. }
    assert (Hlk : (length k < 2)%nat).
    { subst k. rewrite length_take. simpl. lia. }
    assert (Hlow : k = [] -> i < 256).
    { intros ->. destruct level as [|[|?]]; [done| |lia]. subst i. by apply PX2_low. }
    pose proof (pt_node _ _ _ _ Hpt k p i Hp Hlk Hi) as Hn.
    destruct (flag _ PTE_V) eqn:E.
    + eapply (IH (k ++ [i])); [done..|lia|done|done|]. done.
    + simpl. apply wp_bind. apply (kalloc_wp e s l); [done|apply Hvm| |].
      * intros pg l1 m1 fl1 -> Hpg Hni Hkm _ Hout1.
        replace (pg =? 0) with false
          by (pose proof (page_ok_range _ _ (proj2 (proj2 Hc)) Hpg); lia).
        apply wp_seq, wp_modk, wp_seq, wp_modk. simpl.
        set (m2 := memset m1 pg 0 (Z.to_nat PGSIZE)).
        set (m3 := store64 m2 (p + 8 * i) (Z.lor (PA2PTE pg) PTE_V)).
        assert (Hfresh : forall k q, T !! k = Some q -> q <> pg).
        { intros k' q Hq ->. apply (vm_dis _ _ _ _ _ Hvm _ _ Hq). set_solver. }
        assert (Hout2 : forall x, ~ within pg PGSIZE x -> load8 m2 x = load8 (ph_mem (k_phys s)) x).
        { intros x Hx. unfold m2. rewrite load8_memset_out by (by rewrite Z2Nat.id). by apply Hout1. }
        assert (Hz : forall x, within pg PGSIZE x -> load8 m2 x = 0).
        { intros x Hx. unfold m2. rewrite load8_memset, Z2Nat.id by done. bcases; done. }
        assert (Hp' : page_ok (k_layout s) p) by by eapply pt_page.
        assert (Hout3 : forall x, ~ within pg PGSIZE x -> ~ within p PGSIZE x ->
                  load8 m3 x = load8 (ph_mem (k_phys s)) x).
        { intros x H1 H2. unfold m3. rewrite load8_store64_out by (unfold PGSIZE in *; lia).
          by apply Hout2. }
        assert (Hpt3 : pt_wf (k_layout s) m3 root (<[k ++ [i] := pg]> T))
          by (eapply pt_add_node; eauto; apply Hc).
        assert (Hnp : forall q, q ∈ l1 -> q <> p /\ q <> pg /\ page_ok (k_layout s) q).
        { intros q Hq. split_and!; [|by intros ->|].
          - intros ->. apply (vm_dis _ _ _ _ _ Hvm _ _ Hp). set_solver.
          - eapply (Forall_forall (page_ok _) l1); [by apply (km_valid _ _ _ Hkm)|done]. }
        eapply (IH (k ++ [i]) pg (set_phys (Phys m3 fl1) s) (<[k ++ [i] := pg]> T) l1);
          [done| |done|lia|done|apply lookup_insert_eq|].
        -- split; simpl; [|done|].
           ++ eapply kmem_ok_frame; [exact Hkm|]. intros q x Hq Hx.
              destruct (Hnp q Hq) as (N1 & N2 & Hqo).
              rewrite Hout3.
              ** symmetry. apply Hout1. eapply page_disjoint; [apply Hqo|apply Hpg|done|done].
              ** eapply page_disjoint; [apply Hqo|apply Hpg|done|done].
              ** eapply page_disjoint; [apply Hqo|apply Hp'|done|done].
           ++ intros k' q [[_ <-]|[_ Hq]]%lookup_insert_Some; [done|].
              intros Hin. apply (vm_dis _ _ _ _ _ Hvm _ _ Hq). set_solver.
        -- simpl. intros r ph' T' l' (Hvm' & Hgr & Hpte & Hr).
           apply (HQ r ph' T' l'). split_and!; [done| | |done].
           ++ eapply vm_grow_trans; [|exact Hgr]. split.
              ** apply insert_subseteq. congruence.
              ** intros k' q [[_ <-]|[_ Hq]]%lookup_insert_Some; [right; set_solver|by left].
              ** by exists [pg].
              ** intros x Hx. apply Hout3.
                 --- apply (Hx (k ++ [i])), lookup_insert_eq.
                 --- apply (Hx k). rewrite lookup_insert_ne; [done|].
                     intros Ek. apply (f_equal length) in Ek. rewrite length_app in Ek. simpl in Ek. lia.
              ** intros q [->|Hq]%elem_of_cons; [|by left]. right. exists (k ++ [i]). apply lookup_insert_eq.
           ++ intros va'. rewrite Hpte. eapply pt_add_node_pte; eauto.
      * intros ->. simpl. apply wp_ret.
        replace s with (set_phys (k_phys s) s) by (by destruct s).
        eapply (HQ _ _ T []). split_and!; [done|apply vm_grow_refl|done|by right].
Qed.

Lemma walk_alloc e s root T l va (Q : Z -> env -> kst -> Prop) :
  kctx s -> vm_ok (k_layout s) (k_phys s) root T l -> 0 <= va < MAXVA ->
  (forall r ph' T' l',
     walk_post (k_layout s) root va (ph_mem (k_phys s)) T l r ph' T' l' ->
     Q r e (set_phys ph' s)) ->
  wp (walk root va true) e s Q.
Proof.
  intros Hc Hvm Hva HQ. unfold walk. replace (MAXVA <=? va) with false by lia.
  eapply (walk_loop_alloc 2 []); [done|exact Hvm|done|done|done|eapply pt_root, Hvm|done].
Qed.

(** ** Writing an entry *)

Lemma lor_lt_pow2 a b n : 0 <= n -> 0 <= a < 2 ^ n -> 0 <= b < 2 ^ n -> 0 <= Z.lor a b < 2 ^ n.
Proof.
  intros Hn Ha Hb. split; [by apply Z.lor_nonneg; lia|].
  replace (Z.lor a b) with (Z.lor a b mod 2 ^ n); [apply Z.mod_pos_bound; lia|].
  rewrite <- Z.land_ones, Z.land_lor_distr_l, !Z.land_ones by lia.
  by rewrite !Z.mod_small.
Qed.

(** The entry [mappages] writes. *)
Definition mkleaf (pa perm : Z) : Z := Z.lor (Z.lor (PA2PTE pa) perm) PTE_V.

Lemma mkleaf_eq pa perm :
  mkleaf pa perm = Z.lor (PA2PTE pa) (Z.lor perm PTE_V).
Proof. unfold mkleaf. by rewrite Z.lor_assoc. Qed.

Lemma perm_range perm : 0 <= perm < 1024 -> 0 <= Z.lor perm PTE_V < 1024.
Proof. intros. by apply (lor_lt_pow2 _ _ 10). Qed.

Section leaf.
Context (pa perm : Z).
Hypothesis Hpa : 0 <= pa < 72057594037927936.
Hypothesis Hal : pa mod 4096 = 0.
Hypothesis Hperm : 0 <= perm < 1024.

Lemma mkleaf_range : is_u64 (mkleaf pa perm).
Proof.
  rewrite mkleaf_eq.
  pose proof (mkpte_range pa (Z.lor perm PTE_V) Hpa Hal (perm_range _ Hperm)). lia.
Qed.

Lemma mkleaf_V : flag (mkleaf pa perm) PTE_V = true.
Proof. apply flag_V_mk. Qed.

Lemma PTE2PA_mkleaf : PTE2PA (mkleaf pa perm) = pa.
Proof. rewrite mkleaf_eq. apply PTE2PA_mkpte; auto using perm_range. Qed.

Lemma PTE_FLAGS_mkleaf : PTE_FLAGS (mkleaf pa perm) = Z.lor perm PTE_V.
Proof. rewrite mkleaf_eq. apply PTE_FLAGS_mkpte; auto using perm_range. Qed.

(** Flag bits other than V come from [perm]. *)
Lemma mkleaf_flag k : 0 < k < 10 -> flag (mkleaf pa perm) (2 ^ k) = flag perm (2 ^ k).
Proof.
  intros Hk. unfold flag. rewrite !(land_bit_testbit _ k) by (done || lia).
  do 2 f_equal. rewrite mkleaf_eq, PA2PTE_eq by done.
  rewrite !Z.lor_spec. change 1024 with (2 ^ 10). rewrite Z.mul_pow2_bits_low by lia.
  unfold PTE_V. replace (Z.testbit (Z.shiftl 1 0) k) with false; [by rewrite orb_false_r|].
  symmetry. change (Z.shiftl 1 0) with (2 ^ 0). apply Z.pow2_bits_false. lia.
Qed.

Lemma mkleaf_U : flag (mkleaf pa perm) PTE_U = flag perm PTE_U.
Proof. apply (mkleaf_flag 4). lia. Qed.

End leaf.

Lemma slot_inj ly m root T va va' a a' :
  pt_wf ly m root T -> 0 <= va < MAXVA -> 0 <= va' < MAXVA ->
  slot T va = Some a -> slot T va' = Some a' -> va / 4096 <> va' / 4096 ->
  a + 8 <= a' \/ a' + 8 <= a.
Proof.
  intros Hpt H H' Hs Hs' Hne.
  destruct (pt_slot_bounds _ _ _ _ _ _ Hpt Hs) as (p & Hp & Ea & Hb).
  destruct (pt_slot_bounds _ _ _ _ _ _ Hpt Hs') as (p' & Hp' & Ea' & Hb').
  destruct (decide ([PX 2 va; PX 1 va] = [PX 2 va'; PX 1 va'])) as [E|E].
  - rewrite E in Hp. assert (p = p') as -> by congruence.
    assert (PX 0 va <> PX 0 va').
    { intros E0. apply Hne. apply PX_inj; congruence. }
    lia.
  - assert (p <> p') by (intros ->; apply E; by eapply pt_inj).
    destruct (pt_page _ _ _ _ Hpt _ _ Hp) as [A _].
    destruct (pt_page _ _ _ _ Hpt _ _ Hp') as [A' _].
    unfold PGSIZE in *. Z.div_mod_to_equations. lia.
Qed.

Lemma slot_same_page T va va' :
  0 <= va < MAXVA -> 0 <= va' < MAXVA -> va / 4096 = va' / 4096 -> slot T va = slot T va'.
Proof.
  change MAXVA with 274877906944. intros H H' E. unfold slot.
  assert (forall l, 0 <= l -> PX l va = PX l va') as EP.
  { intros lv Hl. rewrite !PX_eq by done. f_equal.
    rewrite Z.pow_add_r by lia. change (2 ^ 12) with 4096.
    rewrite <- !Z.div_div by (try apply Z.pow_pos_nonneg; lia). by rewrite E. }
  by rewrite !EP by lia.
Qed.

(** Storing the entry [v] for the page of [va]. *)
Lemma store_leaf ly ph root T l va a v :
  vm_ok ly ph root T l -> 0 <= va < MAXVA -> slot T va = Some a -> is_u64 v ->
  let m' := store64 (ph_mem ph) a v in
  vm_ok ly (Phys m' (ph_freelist ph)) root T l /\
  outside_same T (ph_mem ph) m' /\
  (forall va', 0 <= va' < MAXVA ->
     pte_at m' T va' = if va' / 4096 =? va / 4096
                       then (if flag v PTE_V then Some v else None)
                       else pte_at (ph_mem ph) T va').
Proof.
  intros [Hkm Hpt Hdis] Hva Hs Hv m'.
  destruct (pt_slot_bounds _ _ _ _ _ _ Hpt Hs) as (p & Hp & Ea & Hb & Hb').
  assert (Hout : forall x, ~ within p PGSIZE x -> load8 m' x = load8 (ph_mem ph) x).
  { intros x Hx. apply load8_store64_out. lia. }
  split_and!.
  - split; [| |done].
    + destruct ph as [m fl]. eapply kmem_ok_frame; [exact Hkm|]. intros q x Hq Hx.
      apply Hout. apply (page_disjoint q p); [| |intros ->|exact Hx].
      * by eapply (Forall_forall (page_ok _) l); [apply Hkm|].
      * by eapply pt_page.
      * by eapply Hdis.
    + simpl. destruct Hpt as [H1 H2 H3 H4 H5 H6 H7 H8].
      assert (Hld : forall k q i, T !! k = Some q -> (length k < 2)%nat -> 0 <= i < 512 ->
        load64 m' (q + 8 * i) = load64 (ph_mem ph) (q + 8 * i)).
      { intros k q i Hk Hl Hi. apply load64_page_same; [done|].
        intros x Hx. apply Hout. eapply page_disjoint; [..|exact Hx];
          [by apply (H3 k)|by eapply H3|].
        intros ->. assert (k = path va) as -> by by eapply H2. simpl in Hl. lia. }
      split; try done; intros k q i Hk Hl Hi; rewrite (Hld k) by done; eauto.
  - intros x Hx. apply Hout. by apply (Hx (path va)).
  - intros va' Hva'. destruct (Z.eqb_spec (va' / 4096) (va / 4096)) as [E|E].
    + unfold pte_at. rewrite (slot_same_page T va' va) by done. rewrite Hs. simpl.
      unfold m'. by rewrite load64_store64_eq, u64_small.
    + unfold pte_at. destruct (slot T va') as [a'|] eqn:Es; [simpl|done].
      unfold m'. rewrite load64_store64_ne; [done|].
      eapply (slot_inj _ _ _ T va' va); eauto.
Qed.

(** Every entry of the [n] pages at [a] is set by [f], the others are as
    before. *)
Definition remapped (m : mem) (T : ptree) (m' : mem) (T' : ptree) (a n : Z)
    (f : Z -> option Z) : Prop :=
  forall va, 0 <= va < MAXVA ->
    pte_at m' T' va = if (a <=? va) && (va <? a + 4096 * n) then f va else pte_at m T va.

(** The entry [mappages] gives the page of [va] when [a] goes to [pa]. *)
Definition leaf_for (a pa perm va : Z) : option Z :=
  Some (mkleaf (pa + (va / 4096 * 4096 - a)) perm).

Lemma page_range_split a va n :
  a mod 4096 = 0 -> 0 <= n ->
  ((a <=? va) && (va <? a + 4096 * (n + 1))) =
  (va / 4096 =? a / 4096) || ((a + 4096 <=? va) && (va <? a + 4096 + 4096 * n)).
Proof. intros. Z.div_mod_to_equations. lia. Qed.

Lemma mappages_loop_wp fuel (n : nat) a last pa perm e s root T l (Q : Z -> env -> kst -> Prop) :
  kctx s -> vm_ok (k_layout s) (k_phys s) root T l ->
  a mod 4096 = 0 -> 0 <= a -> last = a + 4096 * Z.of_nat n -> last < MAXVA -> (n < fuel)%nat ->
  pa mod 4096 = 0 -> 0 <= pa -> pa + 4096 * Z.of_nat n < 72057594037927936 ->
  0 <= perm < 1024 ->
  (forall va, a <= va < last + 4096 -> va < MAXVA -> pte_at (ph_mem (k_phys s)) T va = None) ->
  (forall r ph' T' l' k, vm_ok (k_layout s) ph' root T' l' ->
     vm_grow (ph_mem (k_phys s)) T l (ph_mem ph') T' l' ->
     remapped (ph_mem (k_phys s)) T (ph_mem ph') T' a k (leaf_for a pa perm) ->
     (r = 0 /\ k = Z.of_nat n + 1) \/ (r = -1 /\ 0 <= k <= Z.of_nat n /\ l' = []) ->
     Q r e (set_phys ph' s)) ->
  wp (mappages_loop fuel root a last pa perm) e s Q.
Proof.
  revert n a pa s T l. induction fuel as [|fuel IH];
    intros n a pa s T l Hc Hvm Ha Ha0 Hlast Hmax Hfuel Hpa Hpa0 Hpam Hperm Hun HQ; [lia|].
  cbn [mappages_loop]. apply wp_bind.
  apply (walk_alloc e s root T l); [done..|lia|].
  intros r ph1 T1 l1 (Hvm1 & Hgr1 & Hpte1 & Hr).
  destruct Hr as [[Hs Hrpos]|[-> ->]].
  2:{ simpl. apply wp_ret. eapply (HQ (-1) ph1 T1 [] 0); [done..| |right; split_and!; [done|lia|lia|done]].
      intros va Hva. rewrite Hpte1. by bcases. }
  replace (r =? 0) with false by lia.
  apply wp_bind. unfold kload64, getmem. apply wp_bind, wp_gets, wp_ret.
  assert (Hnv : flag (load64 (ph_mem ph1) r) PTE_V = false).
  { assert (HN : pte_at (ph_mem ph1) T1 a = None) by (rewrite Hpte1; apply Hun; lia).
    unfold pte_at in HN. rewrite Hs in HN. simpl in HN. by destruct (flag _ _). }
  simpl. rewrite Hnv. apply wp_seq, wp_ret, wp_seq. unfold kstore64, setmem. apply wp_modk. simpl.
  fold (mkleaf pa perm).
  assert (Hrange := mkleaf_range pa perm ltac:(lia) Hpa Hperm).
  destruct (store_leaf _ ph1 root T1 l1 a r (mkleaf pa perm) Hvm1 ltac:(lia) Hs Hrange)
    as (Hvm2 & Hout2 & Hpte2).
  rewrite mkleaf_V in Hpte2.
  set (m2 := store64 _ _ _) in *.
  assert (Hgr2 : vm_grow (ph_mem (k_phys s)) T l m2 T1 l1).
  { eapply vm_grow_trans; [exact Hgr1|]. split; [done|auto|by exists []|done|auto]. }
  assert (Hq : a / 4096 * 4096 = a) by (Z.div_mod_to_equations; lia).
  destruct (Z.eqb_spec a last) as [E|E].
  - apply wp_ret. assert (n = 0%nat) as -> by lia.
    eapply (HQ 0 (Phys m2 (ph_freelist ph1)) T1 l1 (0 + 1)); [done|done| |by left].
    intros va Hva. cbn [ph_mem]. rewrite Hpte2 by done.
    rewrite (page_range_split a va 0) by (done || lia).
    destruct (Z.eqb_spec (va / 4096) (a / 4096)) as [E'|E']; simpl.
    + unfold leaf_for. rewrite E', Hq. by replace (pa + (a - a)) with pa by lia.
    + replace ((a + 4096 <=? va) && (va <? a + 4096 + 4096 * 0)) with false by lia. apply Hpte1.
  - rewrite !u64_small by (unfold PGSIZE; change MAXVA with 274877906944 in *; lia).
    eapply (IH (n - 1)%nat (a + PGSIZE) (pa + PGSIZE)
              (set_phys (Phys m2 (ph_freelist ph1)) (set_phys ph1 s)) T1 l1);
      unfold PGSIZE; [done|done|Z.div_mod_to_equations; lia|lia|lia|lia|lia
        |Z.div_mod_to_equations; lia|lia|lia|done| |].
    + intros va Hva Hva'. simpl. rewrite Hpte2 by lia.
      replace (va / 4096 =? a / 4096) with false by (Z.div_mod_to_equations; lia).
      rewrite Hpte1. apply Hun; lia.
    + simpl. intros r' ph' T' l' k Hvm' Hgr' Hre Hr'.
      assert (0 <= k) by lia.
      eapply (HQ r' ph' T' l' (k + 1)); [done|by eapply vm_grow_trans| |].
      * intros va Hva. rewrite Hre, Hpte2 by done.
        rewrite (page_range_split a va k) by (done || lia).
        destruct ((a + 4096 <=? va) && (va <? a + 4096 + 4096 * k)) eqn:E1; simpl.
        -- rewrite orb_true_r. unfold leaf_for. do 2 f_equal. lia.
        -- rewrite orb_false_r. destruct (Z.eqb_spec (va / 4096) (a / 4096)) as [E'|E']; [|apply Hpte1].
           unfold leaf_for. rewrite E', Hq. by replace (pa + (a - a)) with pa by lia.
      * destruct Hr' as [[-> ->]|(-> & ? & ->)]; [left|right]; split_and!; try done; lia.
Qed.

(** ** mappages *)

Lemma mappages_wp va size pa perm e s root T l (Q : Z -> env -> kst -> Prop) :
  let a := va / 4096 * 4096 in
  let n := (va + size - 1) / 4096 - va / 4096 in
  kctx s -> vm_ok (k_layout s) (k_phys s) root T l ->
  0 <= va -> 0 < size -> va + size <= MAXVA ->
  pa mod 4096 = 0 -> 0 <= pa -> pa + size + 4096 < 72057594037927936 -> 0 <= perm < 1024 ->
  (forall x, a <= x < a + 4096 * (n + 1) -> x < MAXVA -> pte_at (ph_mem (k_phys s)) T x = None) ->
  (forall r ph' T' l' k, vm_ok (k_layout s) ph' root T' l' ->
     vm_grow (ph_mem (k_phys s)) T l (ph_mem ph') T' l' ->
     remapped (ph_mem (k_phys s)) T (ph_mem ph') T' a k (leaf_for a pa perm) ->
     (r = 0 /\ k = n + 1) \/ (r = -1 /\ 0 <= k <= n /\ l' = []) ->
     Q r e (set_phys ph' s)) ->
  wp (mappages root va size pa perm) e s Q.
Proof.
  intros a n Hc Hvm Hva Hsz Hmax Hpa Hpa0 Hpam Hperm Hun HQ.
  change MAXVA with 274877906944 in *.
  unfold mappages. replace (size =? 0) with false by lia.
  apply wp_seq, wp_ret. rewrite (u64_small (va + size - 1)) by lia.
  rewrite !PGROUNDDOWN_eq by lia. unfold PGSIZE.
  replace (va - va mod 4096) with a by (subst a; Z.div_mod_to_equations; lia).
  replace (va + size - 1 - (va + size - 1) mod 4096) with (a + 4096 * n)
    by (subst a n; Z.div_mod_to_equations; lia).
  assert (Hn : 0 <= n) by (subst n; Z.div_mod_to_equations; lia).
  replace (a <=? a + 4096 * n) with true by lia.
  assert (Han : a + 4096 * n < 274877906944) by (subst a n; Z.div_mod_to_equations; lia).
  assert (Hsz' : 4096 * n <= size + 4096) by (subst n; Z.div_mod_to_equations; lia).
  apply (mappages_loop_wp _ (Z.to_nat n)) with (T := T) (l := l);
    rewrite ?Z2Nat.id by done; try done.
  - subst a. apply Z.mod_mul. lia.
  - subst a. Z.div_mod_to_equations; lia.
  - replace (a + 4096 * n - a) with (n * 4096) by lia. rewrite Z.div_mul by lia. lia.
  - lia.
  - intros x Hx Hx'. apply Hun; [lia|done].
Qed.

(** ** uvmunmap *)

(** The entries [vs] of consecutive pages at [a], which [uvmunmap] accepts: valid
    leaves, and when the memory is freed too, distinct pages outside the table
    and the free list. *)
Record unmappable (ly : layout) (m : mem) (T : ptree) (l : list Z) (a : Z) (vs : list Z)
    (do_free : bool) : Prop := {
  um_pte : forall i v, vs !! i = Some v -> pte_at m T (a + 4096 * Z.of_nat i) = Some v;
  um_leaf : Forall (fun v => PTE_FLAGS v <> PTE_V) vs;
  um_page : do_free = true -> Forall (fun v => page_ok ly (PTE2PA v)) vs;
  um_free : do_free = true -> Forall (fun v => PTE2PA v ∉ l) vs;
  um_nodup : do_free = true -> NoDup (PTE2PA <$> vs);
  um_tree : do_free = true -> forall k p, T !! k = Some p -> p ∉ PTE2PA <$> vs }.

(** No byte outside the tree and the freed pages differs. *)
Definition outside_same2 (T : ptree) (ps : list Z) (m m' : mem) : Prop :=
  forall x, (forall k p, T !! k = Some p -> ~ within p PGSIZE x) ->
    (forall p, p ∈ ps -> ~ within p PGSIZE x) -> load8 m' x = load8 m x.

Definition freed (do_free : bool) (vs : list Z) : list Z :=
  if do_free then PTE2PA <$> vs else [].

Lemma pte_at_slot ly m root T va v :
  layout_ok ly -> pt_wf ly m root T -> pte_at m T va = Some v ->
  exists a, slot T va = Some a /\ a <> 0 /\ load64 m a = v /\ flag v PTE_V = true.
Proof.
  intros Hly Hpt. unfold pte_at. destruct (slot T va) as [a|] eqn:E; [simpl|done].
  destruct (flag _ _) eqn:Ef; [|done]. intros [= <-]. exists a. split_and!; try done.
  destruct (pt_slot_bounds _ _ _ _ _ _ Hpt E) as (p & Hp & -> & Hb & _).
  pose proof (page_ok_range _ _ Hly (pt_page _ _ _ _ Hpt _ _ Hp)). lia.
Qed.

(** Freeing a page that is not part of the table. *)
Lemma kfree_vm_wp pa e s root T l (Q : unit -> env -> kst -> Prop) :
  kctx s -> vm_ok (k_layout s) (k_phys s) root T l ->
  page_ok (k_layout s) pa -> pa ∉ l -> (forall k p, T !! k = Some p -> p <> pa) ->
  (forall m', vm_ok (k_layout s) (Phys m' pa) root T (pa :: l) ->
     (forall x, ~ within pa PGSIZE x -> load8 m' x = load8 (ph_mem (k_phys s)) x) ->
     (forall va, pte_at m' T va = pte_at (ph_mem (k_phys s)) T va) ->
     Q tt e (set_phys (Phys m' pa) s)) ->
  wp (kfree pa) e s Q.
Proof.
  intros Hc [Hkm Hpt Hdis] Hp Hni HT HQ. eapply kfree_wp; [done..|].
  intros m' Hkm' Hout.
  assert (Hs : forall k p x, T !! k = Some p -> within p PGSIZE x ->
    load8 m' x = load8 (ph_mem (k_phys s)) x).
  { intros k p x Hk Hx. apply Hout. eapply (page_disjoint p pa); [..|exact Hx];
      [by eapply pt_page|apply Hp|by eapply HT]. }
  apply HQ; [split|done|].
  - done.
  - by eapply pt_wf_frame.
  - intros k p Hk [->|Hin]%elem_of_cons; [by eapply HT|by eapply Hdis].
  - intros va. by eapply pte_at_frame.
Qed.

Lemma uvmunmap_loop_wp fuel a vs do_free e s root T l (Q : unit -> env -> kst -> Prop) :
  kctx s -> vm_ok (k_layout s) (k_phys s) root T l ->
  a mod 4096 = 0 -> 0 <= a -> a + 4096 * Z.of_nat (length vs) <= MAXVA ->
  (length vs < fuel)%nat ->
  unmappable (k_layout s) (ph_mem (k_phys s)) T l a vs do_free ->
  (forall ph', vm_ok (k_layout s) ph' root T (rev (freed do_free vs) ++ l) ->
     remapped (ph_mem (k_phys s)) T (ph_mem ph') T a (Z.of_nat (length vs)) (fun _ => None) ->
     outside_same2 T (freed do_free vs) (ph_mem (k_phys s)) (ph_mem ph') ->
     Q tt e (set_phys ph' s)) ->
  wp (uvmunmap_loop fuel root a (a + 4096 * Z.of_nat (length vs)) do_free) e s Q.
Proof.
  revert a vs s l. induction fuel as [|fuel IH];
    intros a vs s l Hc Hvm Ha Ha0 Hmax Hfuel Hum HQ; [lia|].
  cbn [uvmunmap_loop]. destruct vs as [|v vs].
  { simpl length. destruct (Z.ltb_spec a (a + 4096 * Z.of_nat 0)); [lia|]. apply wp_ret.
    replace s with (set_phys (k_phys s) s) by (by destruct s).
    apply (HQ (k_phys s)); [by destruct do_free|intros va ?; simpl length; by bcases|done]. }
  cbn [length] in *. destruct (Z.ltb_spec a (a + 4096 * Z.of_nat (S (length vs)))); [|lia].
  pose proof (vm_pt _ _ _ _ _ Hvm) as Hpt.
  destruct Hum as [U1 U2 U3 U4 U5 U6].
  pose proof (U1 0%nat v eq_refl) as Hv. rewrite Z.mul_0_r, Z.add_0_r in Hv.
  destruct (pte_at_slot _ _ _ _ _ _ (proj2 (proj2 Hc)) Hpt Hv) as (r & Hs & Hr0 & Hld & HV).
  apply wp_bind. eapply wp_run; [by apply walk_noalloc; [|lia]|].
  rewrite Hs. simpl. replace (r =? 0) with false by lia.
  apply wp_seq, wp_ret, wp_bind. unfold kload64, getmem. apply wp_bind, wp_gets, wp_ret.
  rewrite Hld, HV. apply wp_seq, wp_ret.
  apply Forall_cons_1 in U2 as [U2 U2'].
  replace (PTE_FLAGS v =? PTE_V) with false by lia.
  apply wp_seq, wp_ret, wp_seq.
  (* the entry is cleared; [s1] is the state after the optional kfree *)
  assert (Hrest : forall ph1 l1,
    vm_ok (k_layout s) ph1 root T l1 ->
    (forall va, pte_at (ph_mem ph1) T va = pte_at (ph_mem (k_phys s)) T va) ->
    (do_free = true -> Forall (fun v => PTE2PA v ∉ l1) vs) ->
    rev (freed do_free vs) ++ l1 = rev (freed do_free (v :: vs)) ++ l ->
    outside_same2 T (freed do_free (v :: vs)) (ph_mem (k_phys s)) (ph_mem ph1) ->
    wp (kstore64 r 0 ;; uvmunmap_loop fuel root (u64 (a + PGSIZE))
          (a + 4096 * Z.of_nat (S (length vs))) do_free) e (set_phys ph1 s) Q).
  { intros ph1 l1 Hvm1 Hpte1 Hfr Hl1 Hout1.
    destruct (store_leaf _ ph1 root T l1 a r 0 Hvm1 ltac:(lia) Hs ltac:(lia))
      as (Hvm2 & Hout2 & Hpte2). rewrite flag_V_0 in Hpte2.
    apply wp_seq. unfold kstore64, setmem. apply wp_modk. simpl.
    change MAXVA with 274877906944 in *.
    rewrite u64_small by (unfold PGSIZE; lia). unfold PGSIZE.
    replace (a + 4096 * Z.of_nat (S (length vs))) with (a + 4096 + 4096 * Z.of_nat (length vs)) by lia.
    eapply (IH (a + 4096) vs _ l1); [done|exact Hvm2|Z.div_mod_to_equations; lia|lia|lia|lia| |].
    - simpl. split; try done.
      + intros i w Hw. rewrite Hpte2, Hpte1.
        2:{ apply lookup_lt_Some in Hw. lia. }
        replace ((a + 4096 + 4096 * Z.of_nat i) / 4096 =? a / 4096) with false
          by (Z.div_mod_to_equations; lia).
        replace (a + 4096 + 4096 * Z.of_nat i) with (a + 4096 * Z.of_nat (S i)) by lia.
        by apply (U1 (S i)).
      + intros Hd. by apply U3, Forall_cons_1 in Hd as [_ ?].
      + intros Hd. by apply U5 in Hd as [_ ?]%NoDup_cons.
      + intros Hd k p Hk Hin. apply (U6 Hd k p Hk). csimpl. set_solver.
    - simpl. intros ph' Hvm' Hre Hout'. apply (HQ ph').
      + by rewrite <- Hl1.
      + intros va Hva. change MAXVA with 274877906944 in *.
        rewrite Hre, Hpte2, Hpte1 by (change MAXVA with 274877906944; lia).
        replace (Z.of_nat (S (length vs))) with (Z.of_nat (length vs) + 1) by lia.
        rewrite (page_range_split a va (Z.of_nat (length vs))) by lia.
        destruct (va / 4096 =? a / 4096); simpl; [by destruct (_ && _)|done].
      + intros x Hx1 Hx2. rewrite Hout', Hout2, Hout1; try done.
        intros p Hin. apply Hx2. unfold freed in *. destruct do_free; [csimpl; set_solver|done]. }
  destruct do_free; simpl.
  - specialize (U3 eq_refl). specialize (U4 eq_refl). specialize (U5 eq_refl). specialize (U6 eq_refl).
    apply Forall_cons_1 in U3 as [U3 _]. apply Forall_cons_1 in U4 as [U4 U4'].
    apply NoDup_cons in U5 as [U5 _].
    eapply (kfree_vm_wp (PTE2PA v) e s root T l); [done|done|done|done| |].
    { intros k p Hk ->. apply (U6 k _ Hk). csimpl. set_solver. }
    intros m' Hvm1 Hout1 Hpte1.
    apply (Hrest (Phys m' (PTE2PA v)) (PTE2PA v :: l)); [done|done| | |].
    + intros _. apply Forall_forall. intros w Hw [E|Hin]%elem_of_cons.
      * apply U5. rewrite <- E. by apply list_elem_of_fmap_2.
      * by eapply (Forall_forall (fun v => PTE2PA v ∉ l) vs) in Hw; [|done].
    + unfold freed. csimpl. by rewrite <- (assoc_L (++)).
    + intros x Hx1 Hx2. apply Hout1. apply Hx2. unfold freed. csimpl. set_solver.
  - apply wp_ret. replace s with (set_phys (k_phys s) s) at 1 by (by destruct s).
    by apply (Hrest (k_phys s) l).
Qed.

Lemma uvmunmap_wp a vs do_free e s root T l (Q : unit -> env -> kst -> Prop) :
  kctx s -> vm_ok (k_layout s) (k_phys s) root T l ->
  a mod 4096 = 0 -> 0 <= a -> a + 4096 * Z.of_nat (length vs) <= MAXVA ->
  unmappable (k_layout s) (ph_mem (k_phys s)) T l a vs do_free ->
  (forall ph', vm_ok (k_layout s) ph' root T (rev (freed do_free vs) ++ l) ->
     remapped (ph_mem (k_phys s)) T (ph_mem ph') T a (Z.of_nat (length vs)) (fun _ => None) ->
     outside_same2 T (freed do_free vs) (ph_mem (k_phys s)) (ph_mem ph') ->
     Q tt e (set_phys ph' s)) ->
  wp (uvmunmap root a (Z.of_nat (length vs)) do_free) e s Q.
Proof.
  intros Hc Hvm Ha Ha0 Hmax Hum HQ. unfold uvmunmap, PGSIZE. rewrite Ha.
  apply wp_seq, wp_ret. change MAXVA with 274877906944 in *.
  rewrite (u64_small (Z.of_nat (length vs) * 4096)) by lia.
  rewrite (Z.mul_comm (Z.of_nat (length vs))), u64_small by lia.
  eapply uvmunmap_loop_wp; try done.
  replace (a + 4096 * Z.of_nat (length vs) - a + 4096 - 1)
    with (Z.of_nat (length vs) * 4096 + 4095) by lia.
  rewrite Z.div_add_l by lia. change (4095 / 4096) with 0. lia.
Qed.
