(* ===== verification/VmUser.v ===== *)
(** User memory through a page table: [walkaddr] as address translation, and
    [copyout], [copyin] and [copyinstr] as reads and writes of the user's
    address space. *)

From S2P Require Import Prelude Machine KState Spinlock KString Kalloc Vm VmSpec.

(** ** The user's view *)

(** The physical page behind the user address [va]. *)
Definition ua (m : mem) (T : ptree) (va : Z) : option Z :=
  if va <? MAXVA then
    v ← pte_at m T va; if flag v PTE_U then Some (PTE2PA v) else None
  else None.

(** The byte a user program reads at [va]. *)
Definition uload (m : mem) (T : ptree) (va : Z) : option Z :=
  pa ← ua m T va; Some (load8 m (pa + va mod 4096)).

(** User pages are pages of RAM, outside the table and the free list, and no
    two user addresses share one. *)
Record uspace (ly : layout) (m : mem) (T : ptree) (l : list Z) : Prop := {
  us_page : forall va pa, 0 <= va -> ua m T va = Some pa -> page_ok ly pa;
  us_tree : forall va pa k p, 0 <= va -> ua m T va = Some pa -> T !! k = Some p -> p <> pa;
  us_free : forall va pa, 0 <= va -> ua m T va = Some pa -> pa ∉ l;
  us_inj : forall va va' pa, 0 <= va -> 0 <= va' ->
    ua m T va = Some pa -> ua m T va' = Some pa -> va / 4096 = va' / 4096 }.

(** ** walkaddr *)

Lemma walkaddr_run e s root T va :
  kctx s -> pt_wf (k_layout s) (ph_mem (k_phys s)) root T -> 0 <= va ->
  walkaddr root va e s = Ok (default 0 (ua (ph_mem (k_phys s)) T va)) e s.
Proof.
  intros Hc Hpt Hva. unfold walkaddr, ua.
  destruct (Z.leb_spec MAXVA va), (Z.ltb_spec va MAXVA); try lia; [done|].
  erewrite bind_run by (apply walk_noalloc; [exact Hpt|lia]).
  unfold pte_at. destruct (slot T va) as [a|] eqn:Es; simpl; [|done].
  destruct (pt_slot_bounds _ _ _ _ _ _ Hpt Es) as (p & Hp & -> & Hb & _).
  pose proof (page_ok_range _ _ (proj2 (proj2 Hc)) (pt_page _ _ _ _ Hpt _ _ Hp)).
  replace (p + 8 * PX 0 va =? 0) with false by lia.
  unfold kload64, getmem. krun.
  destruct (flag _ PTE_V) eqn:E1; simpl; [|done].
  by destruct (flag _ PTE_U) eqn:E2.
Qed.

Lemma ua_same_page m T va va' :
  0 <= va -> 0 <= va' -> va / 4096 = va' / 4096 -> ua m T va = ua m T va'.
Proof.
  intros H H' E. unfold ua, pte_at.
  assert ((va <? MAXVA) = (va' <? MAXVA)) as ->.
  { change MAXVA with (67108864 * 4096). Z.div_mod_to_equations. lia. }
  destruct (Z.ltb_spec va' MAXVA); [|done].
  rewrite (slot_same_page T va va'); [done| |lia|done].
  change MAXVA with (67108864 * 4096) in *. Z.div_mod_to_equations. lia.
Qed.

Section user.
Context (ly : layout) (root : Z) (T : ptree).

(** Writing inside the page of a user address leaves tables and translation
    alone. *)
Lemma user_write_frame ph l va pa m' :
  layout_ok ly ->
  vm_ok ly ph root T l -> uspace ly (ph_mem ph) T l -> 0 <= va ->
  ua (ph_mem ph) T va = Some pa ->
  (forall x, ~ within pa PGSIZE x -> load8 m' x = load8 (ph_mem ph) x) ->
  vm_ok ly (Phys m' (ph_freelist ph)) root T l /\ uspace ly m' T l /\
  (forall v, ua m' T v = ua (ph_mem ph) T v).
Proof.
  intros Hly [Hkm Hpt Hdis] Hus Hva Hua Hout.
  assert (Hpa := us_page _ _ _ _ Hus _ _ Hva Hua).
  assert (Hs : forall k p x, T !! k = Some p -> within p PGSIZE x ->
    load8 m' x = load8 (ph_mem ph) x).
  { intros k p x Hk Hx. apply Hout. eapply (page_disjoint p pa); [..|exact Hx];
      [by eapply pt_page|apply Hpa|by eapply us_tree]. }
  assert (Hpte : forall v, pte_at m' T v = pte_at (ph_mem ph) T v)
    by (intros v; by eapply pte_at_frame).
  assert (Hu : forall v, ua m' T v = ua (ph_mem ph) T v) by (intros v; unfold ua; by rewrite Hpte).
  split_and!; [|destruct Hus as [A B C D]; split; setoid_rewrite Hu; eauto|done].
  split; [|by eapply pt_wf_frame|done].
  destruct ph as [m fl]. eapply kmem_ok_frame; [exact Hkm|]. intros q x Hq Hx. apply Hout.
  apply (page_disjoint q pa); [| |intros ->|exact Hx].
  - by eapply (Forall_forall (page_ok _) l); [apply Hkm|].
  - apply Hpa.
  - by eapply (us_free _ _ _ _ Hus).
Qed.

(** Storing [bs] at a user address, inside its page. *)
Lemma user_store ph l va pa bs :
  layout_ok ly ->
  vm_ok ly ph root T l -> uspace ly (ph_mem ph) T l -> 0 <= va ->
  ua (ph_mem ph) T va = Some pa -> bytes_ok bs ->
  va mod 4096 + Z.of_nat (length bs) <= 4096 ->
  let m' := store_bytes (ph_mem ph) (pa + va mod 4096) bs in
  vm_ok ly (Phys m' (ph_freelist ph)) root T l /\ uspace ly m' T l /\
  (forall v, ua m' T v = ua (ph_mem ph) T v) /\
  (forall v, 0 <= v ->
     uload m' T v = match (if va <=? v then bs !! Z.to_nat (v - va) else None) with
                    | Some b => Some b
                    | None => uload (ph_mem ph) T v
                    end).
Proof.
  intros Hly Hvm Hus Hva Hua Hbs Hfit m'.
  assert (Hmod : 0 <= va mod 4096 < 4096) by (apply Z.mod_pos_bound; lia).
  assert (Hout : forall x, ~ within pa PGSIZE x -> load8 m' x = load8 (ph_mem ph) x).
  { intros x Hx. apply load8_store_bytes_out. unfold PGSIZE in *. lia. }
  destruct (user_write_frame ph l va pa m' Hly Hvm Hus Hva Hua Hout) as (A & B & C).
  split_and!; try done. intros v Hv. unfold uload. rewrite C.
  assert (Hpaal : pa mod 4096 = 0) by apply (us_page _ _ _ _ Hus _ _ Hva Hua).
  destruct (decide (v / 4096 = va / 4096)) as [E|E].
  - rewrite (ua_same_page _ T v va), Hua by done. simpl. unfold m'.
    rewrite load8_store_bytes.
    replace (pa + va mod 4096 <=? pa + v mod 4096) with (va <=? v)
      by (Z.div_mod_to_equations; lia).
    replace (pa + v mod 4096 - (pa + va mod 4096)) with (v - va)
      by (Z.div_mod_to_equations; lia).
    destruct (va <=? v); [|done]. destruct (bs !! _) eqn:Eb; [|done].
    rewrite u8_small; [done|]. by eapply (Forall_lookup_1 _ _ _ _ Hbs).
  - assert ((if va <=? v then bs !! Z.to_nat (v - va) else None) = None) as ->.
    { destruct (Z.leb_spec va v); [|done]. apply lookup_ge_None_2.
      Z.div_mod_to_equations. lia. }
    destruct (ua (ph_mem ph) T v) as [pv|] eqn:Ev; [simpl|done].
    f_equal. apply Hout.
    assert (Hpv : page_ok ly pv) by exact (us_page _ _ _ _ Hus _ _ Hv Ev).
    assert (pv <> pa). { intros ->. apply E. exact (us_inj _ _ _ _ Hus _ _ _ Hv Hva Ev Hua). }
    destruct Hpv as [Hpv _].
    pose proof (Z.mod_pos_bound v 4096 ltac:(lia)).
    unfold PGSIZE in *. Z.div_mod_to_equations. lia.
Qed.

End user.

(** ** copyout *)

(** Bytes [0..k) of [src] written at [dst] in the user's view. *)
Definition written (m : mem) (T : ptree) (m' : mem) (dst : Z) (src : list Z) (k : Z) : Prop :=
  forall v, 0 <= v ->
    uload m' T v = match (if (dst <=? v) && (v <? dst + k) then src !! Z.to_nat (v - dst) else None) with
                   | Some b => Some b
                   | None => uload m T v
                   end.

Lemma PGROUNDDOWN_va va : is_u64 va -> PGROUNDDOWN va = va - va mod 4096.
Proof. intros. by rewrite PGROUNDDOWN_eq. Qed.

Lemma copyout_loop_wp fuel dst src e s root T l (Q : Z -> env -> kst -> Prop) :
  kctx s -> vm_ok (k_layout s) (k_phys s) root T l ->
  uspace (k_layout s) (ph_mem (k_phys s)) T l -> is_u64 dst -> bytes_ok src ->
  (length src < fuel)%nat ->
  (forall r ph' k, vm_ok (k_layout s) ph' root T l -> uspace (k_layout s) (ph_mem ph') T l ->
     (forall v, ua (ph_mem ph') T v = ua (ph_mem (k_phys s)) T v) ->
     written (ph_mem (k_phys s)) T (ph_mem ph') dst src k ->
     (r = 0 /\ k = Z.of_nat (length src) /\
        (forall v, dst <= v < dst + k -> is_Some (ua (ph_mem (k_phys s)) T v))) \/
     (r = -1 /\ 0 <= k < Z.of_nat (length src) /\ ua (ph_mem (k_phys s)) T (dst + k) = None) ->
     Q r e (set_phys ph' s)) ->
  wp (copyout_loop fuel root dst src) e s Q.
Proof.
  revert dst src s. induction fuel as [|fuel IH];
    intros dst src s Hc Hvm Hus Hdst Hsrc Hfuel HQ; [lia|].
  cbn [copyout_loop].
  assert (Hsame : s = set_phys (k_phys s) s) by (by destruct s).
  assert (Hw0 : written (ph_mem (k_phys s)) T (ph_mem (k_phys s)) dst src 0).
  { intros v Hv. destruct (_ && _) eqn:E; [lia|done]. }
  destruct (bool_decide_reflect (src = [])) as [->|Hne].
  { apply wp_ret. rewrite Hsame. apply (HQ 0 _ 0); try done. left. split_and!; try done. lia. }
  assert (Hlen : (0 < length src)%nat) by (destruct src; simpl; [done|lia]).
  rewrite PGROUNDDOWN_va by done.
  assert (Hmod : 0 <= dst mod 4096 < 4096) by (apply Z.mod_pos_bound; lia).
  assert (Hle : dst mod 4096 <= dst) by (apply Z.mod_le; lia).
  apply wp_bind. eapply wp_run; [apply walkaddr_run; [done|apply Hvm|lia]|].
  rewrite (ua_same_page _ T (dst - dst mod 4096) dst); [|lia|lia|Z.div_mod_to_equations; lia].
  destruct (ua (ph_mem (k_phys s)) T dst) as [pa|] eqn:Hua; simpl.
  2:{ apply wp_ret. rewrite Hsame. apply (HQ (-1) _ 0); try done. right. rewrite Z.add_0_r. split_and!; try done; lia. }
  assert (Hpa := us_page _ _ _ _ Hus _ _ (proj1 Hdst) Hua).
  pose proof (page_ok_range _ _ (proj2 (proj2 Hc)) Hpa).
  replace (pa =? 0) with false by lia.
  replace (dst - (dst - dst mod 4096)) with (dst mod 4096) by lia.
  set (n := Z.min _ _).
  assert (Hn : 0 < n <= Z.of_nat (length src) /\ n <= 4096 - dst mod 4096) by (subst n; unfold PGSIZE; lia).
  assert (HlenT : length (take (Z.to_nat n) src) = Z.to_nat n) by (rewrite length_take; lia).
  assert (Hdm : dst < MAXVA).
  { unfold ua in Hua. destruct (Z.ltb_spec dst MAXVA); [done|congruence]. }
  change MAXVA with (67108864 * 4096) in Hdm.
  destruct (user_store (k_layout s) root T (k_phys s) l dst pa (take (Z.to_nat n) src))
    as (Hvm1 & Hus1 & Hua1 & Hul1); try done.
  { apply Hc. } { lia. } { by apply Forall_take. } { lia. }
  apply wp_seq. unfold setmem. apply wp_modk. simpl.
  rewrite u64_small by (unfold PGSIZE; Z.div_mod_to_equations; lia).
  set (m1 := store_bytes _ _ _) in *.
  eapply (IH _ (drop (Z.to_nat n) src) (set_phys (Phys m1 (ph_freelist (k_phys s))) s));
    [done|done|done|unfold PGSIZE; Z.div_mod_to_equations; lia|by apply Forall_drop
    |rewrite length_drop; lia|].
  simpl. intros r ph' k Hvm' Hus' Hua' Hw Hr.
  assert (Hnext : Z.of_nat (length src) <= n \/ dst - dst mod 4096 + PGSIZE = dst + n).
  { subst n. unfold PGSIZE. lia. }
  rewrite length_drop in Hr.
  apply (HQ r ph' (n + k)); try done.
  - intros v. by rewrite Hua', Hua1.
  - intros v Hv. rewrite Hw, Hul1 by done.
    assert (Hk0 : 0 <= k) by lia.
    destruct Hnext as [Hall|Hnx].
    + assert (k = 0) as -> by lia. replace (n + 0) with n by lia.
      destruct (_ && _) eqn:E1 in |- * at 1; [lia|].
      destruct (Z.leb_spec dst v); simpl; [|done].
      destruct (Z.ltb_spec v (dst + n)).
      * rewrite lookup_take_lt by lia. done.
      * rewrite lookup_ge_None_2 by lia. done.
    + rewrite Hnx. destruct (Z.leb_spec dst v); simpl.
      * destruct (Z.leb_spec (dst + n) v); simpl.
        -- rewrite (lookup_ge_None_2 (take _ _)) by lia.
           replace (v <? dst + (n + k)) with (v <? dst + n + k) by lia.
           destruct (v <? dst + n + k); [|done]. rewrite lookup_drop.
           by replace (Z.to_nat n + Z.to_nat (v - (dst + n)))%nat with (Z.to_nat (v - dst)) by lia.
        -- rewrite lookup_take_lt by lia. by replace (v <? dst + (n + k)) with true by lia.
      * by replace (dst + n <=? v) with false by lia.
  - destruct Hr as [(-> & -> & Hall)|(-> & Hk & Hnone)].
    + left. split_and!; [done|lia|]. intros v Hv.
      destruct (decide (v < dst + n)).
      * rewrite (ua_same_page _ T v dst), Hua; [by eexists|lia|lia|Z.div_mod_to_equations; lia].
      * rewrite <- Hua1. apply Hall. lia.
    + right. split_and!; [done|lia|lia|]. rewrite <- Hua1.
      by replace (dst + (n + k)) with (dst - dst mod 4096 + PGSIZE + k) by lia.
Qed.

(** ** copyin *)

(** [bs] is what the user has at [va]. *)
Definition uread (m : mem) (T : ptree) (va : Z) (bs : list Z) : Prop :=
  forall i b, bs !! i = Some b -> uload m T (va + Z.of_nat i) = Some b.

Lemma uread_app m T va bs1 bs2 va2 :
  uread m T va bs1 -> (bs2 <> [] -> va2 = va + Z.of_nat (length bs1)) -> uread m T va2 bs2 ->
  uread m T va (bs1 ++ bs2).
Proof.
  intros H1 E H2 i b Hi. apply lookup_app_Some in Hi as [Hi|[Hle Hi]]; [by apply H1|].
  apply H2 in Hi as Hi'. rewrite E in Hi' by (intros ->; done).
  rewrite <- Hi'. f_equal. lia.
Qed.

Lemma uread_page ly root T m l va pa n :
  uspace ly m T l -> pt_wf ly m root T -> 0 <= va -> ua m T va = Some pa ->
  va mod 4096 + Z.of_nat n <= 4096 ->
  uread m T va (load_bytes m (pa + va mod 4096) n).
Proof.
  intros Hus Hpt Hva Hua Hfit i b Hi.
  assert (Hlt := lookup_lt_Some _ _ _ Hi). rewrite length_load_bytes in Hlt.
  rewrite lookup_load_bytes in Hi by done. injection Hi as <-.
  pose proof (Z.mod_pos_bound va 4096 ltac:(lia)).
  unfold uload. rewrite (ua_same_page _ T _ va), Hua; [|lia|lia|Z.div_mod_to_equations; lia].
  simpl. do 2 f_equal. Z.div_mod_to_equations; lia.
Qed.

Lemma ua_lt_MAXVA m T va pa : ua m T va = Some pa -> va < 67108864 * 4096.
Proof. unfold ua. change MAXVA with (67108864 * 4096). destruct (Z.ltb_spec va (67108864 * 4096)); by intros. Qed.

(** The next page of a copy loop. *)
Lemma copy_next va : 0 <= va < 67108864 * 4096 ->
  u64 (PGROUNDDOWN va + PGSIZE) = va - va mod 4096 + 4096.
Proof.
  intros. rewrite PGROUNDDOWN_va by lia. unfold PGSIZE. apply u64_small.
  Z.div_mod_to_equations; lia.
Qed.

Lemma copyin_loop_run fuel src len acc e s root T l :
  kctx s -> vm_ok (k_layout s) (k_phys s) root T l ->
  uspace (k_layout s) (ph_mem (k_phys s)) T l -> is_u64 src -> 0 <= len < Z.of_nat fuel ->
  exists r bs, copyin_loop fuel root src len acc e s = Ok (r, acc ++ bs) e s /\
    uread (ph_mem (k_phys s)) T src bs /\
    ((r = 0 /\ Z.of_nat (length bs) = len) \/
     (r = -1 /\ Z.of_nat (length bs) < len /\
        ua (ph_mem (k_phys s)) T (src + Z.of_nat (length bs)) = None)).
Proof.
  intros Hc Hvm Hus. revert src len acc.
  induction fuel as [|fuel IH]; intros src len acc Hsrc Hlen; [lia|]. cbn [copyin_loop].
  destruct (Z.eqb_spec len 0) as [->|Hne].
  { exists 0, []. rewrite app_nil_r. split_and!; [done|by intros [] ? ?|by left]. }
  assert (Hmod : 0 <= src mod 4096 < 4096) by (apply Z.mod_pos_bound; lia).
  assert (Hle : src mod 4096 <= src) by (apply Z.mod_le; lia).
  erewrite bind_run by (apply walkaddr_run; [done|apply Hvm|rewrite PGROUNDDOWN_va by done; lia]).
  rewrite (ua_same_page _ T (PGROUNDDOWN src) src);
    [|rewrite PGROUNDDOWN_va by done; lia|lia|rewrite PGROUNDDOWN_va by done; Z.div_mod_to_equations; lia].
  destruct (ua (ph_mem (k_phys s)) T src) as [pa|] eqn:Hua; simpl.
  2:{ exists (-1), []. rewrite app_nil_r, Z.add_0_r. split_and!; [done|by intros [] ? ?|right; split_and!; [done|simpl; lia|done]]. }
  pose proof (page_ok_range _ _ (proj2 (proj2 Hc)) (us_page _ _ _ _ Hus _ _ (proj1 Hsrc) Hua)).
  replace (pa =? 0) with false by lia.
  assert (Hm := ua_lt_MAXVA _ _ _ _ Hua).
  rewrite copy_next by lia. rewrite PGROUNDDOWN_va by done.
  replace (src - (src - src mod 4096)) with (src mod 4096) by lia.
  set (n := Z.min _ _).
  assert (Hn : 0 < n <= len /\ n <= 4096 - src mod 4096 /\ (n = len \/ n = 4096 - src mod 4096))
    by (subst n; unfold PGSIZE; lia).
  set (b1 := load_bytes (ph_mem (k_phys s)) (pa + src mod 4096) (Z.to_nat n)).
  destruct (IH (src - src mod 4096 + 4096) (len - n) (acc ++ b1)) as (r & bs & Hrun & Hrd & Hr);
    [Z.div_mod_to_equations; lia|lia|].
  exists r, (b1 ++ bs). rewrite app_assoc. split_and!; [exact Hrun| |].
  - eapply uread_app; [eapply uread_page; [done|apply Hvm|lia|done|lia]| |exact Hrd].
    subst b1. rewrite length_load_bytes. destruct bs; [done|simpl in Hr]. lia.
  - rewrite length_app. subst b1. rewrite length_load_bytes.
    destruct Hr as [[-> Hr]|(-> & Hr & Hnone)]; [left; lia|right; split_and!; [done|lia|]].
    rewrite <- Hnone. f_equal. lia.
Qed.

(** ** copyinstr *)

Lemma copyinstr_page_spec m p n :
  let '(l, b) := copyinstr_page m p n in
  l = load_bytes m p (length l) /\ (length l <= n)%nat /\
  if b then exists s, l = s ++ [0] /\ Forall (fun c => c <> 0) s
  else length l = n /\ Forall (fun c => c <> 0) l.
Proof.
  revert p. induction n as [|n IH]; intros p; [done|]. cbn [copyinstr_page].
  destruct (Z.eqb_spec (load8 m p) 0) as [E|E].
  - simpl. rewrite E. split_and!; [done|lia|exists []; by split].
  - specialize (IH (p + 1)). destruct (copyinstr_page m (p + 1) n) as [l b].
    destruct IH as (Hl & Hle & Hb). cbn [length load_bytes]. split_and!; [by rewrite <- Hl|lia|].
    destruct b.
    + destruct Hb as (s & -> & Hs). exists (load8 m p :: s). split; [done|by constructor].
    + destruct Hb. split; [lia|by constructor].
Qed.

Lemma copyinstr_loop_run fuel src max acc e s root T l :
  kctx s -> vm_ok (k_layout s) (k_phys s) root T l ->
  uspace (k_layout s) (ph_mem (k_phys s)) T l -> is_u64 src -> 0 <= max < Z.of_nat fuel ->
  exists r bs, copyinstr_loop fuel root src max acc e s = Ok (r, acc ++ bs) e s /\
    uread (ph_mem (k_phys s)) T src bs /\ Z.of_nat (length bs) <= max /\
    ((r = 0 /\ exists str, bs = str ++ [0] /\ Forall (fun c => c <> 0) str) \/
     (r = -1 /\ Forall (fun c => c <> 0) bs /\
        (Z.of_nat (length bs) = max \/ ua (ph_mem (k_phys s)) T (src + Z.of_nat (length bs)) = None))).
Proof.
  intros Hc Hvm Hus. revert src max acc.
  induction fuel as [|fuel IH]; intros src max acc Hsrc Hlen; [lia|]. cbn [copyinstr_loop].
  destruct (Z.eqb_spec max 0) as [->|Hne].
  { exists (-1), []. rewrite app_nil_r. split_and!; [done|by intros [] ? ?|done|right; split_and!; [done..|by left]]. }
  assert (Hmod : 0 <= src mod 4096 < 4096) by (apply Z.mod_pos_bound; lia).
  assert (Hle : src mod 4096 <= src) by (apply Z.mod_le; lia).
  erewrite bind_run by (apply walkaddr_run; [done|apply Hvm|rewrite PGROUNDDOWN_va by done; lia]).
  rewrite (ua_same_page _ T (PGROUNDDOWN src) src);
    [|rewrite PGROUNDDOWN_va by done; lia|lia|rewrite PGROUNDDOWN_va by done; Z.div_mod_to_equations; lia].
  destruct (ua (ph_mem (k_phys s)) T src) as [pa|] eqn:Hua; simpl.
  2:{ exists (-1), []. rewrite app_nil_r, Z.add_0_r. split_and!; [done|by intros [] ? ?|simpl; lia|right; split_and!; [done..|by right]]. }
  pose proof (page_ok_range _ _ (proj2 (proj2 Hc)) (us_page _ _ _ _ Hus _ _ (proj1 Hsrc) Hua)).
  replace (pa =? 0) with false by lia.
  assert (Hm := ua_lt_MAXVA _ _ _ _ Hua).
  rewrite copy_next by lia. rewrite PGROUNDDOWN_va by done.
  replace (src - (src - src mod 4096)) with (src mod 4096) by lia.
  set (n := Z.min _ _).
  assert (Hn : 0 < n <= max /\ n <= 4096 - src mod 4096 /\ (n = max \/ n = 4096 - src mod 4096))
    by (subst n; unfold PGSIZE; lia).
  pose proof (copyinstr_page_spec (ph_mem (k_phys s)) (pa + src mod 4096) (Z.to_nat n)) as Hpg.
  destruct (copyinstr_page _ _ _) as [b1 nul] eqn:Epg.
  destruct Hpg as (Hb1 & Hl1 & Hnul).
  assert (Hrd1 : uread (ph_mem (k_phys s)) T src b1).
  { rewrite Hb1. eapply uread_page; [done|apply Hvm|lia|done|lia]. }
  erewrite bind_run by reflexivity. rewrite Epg. destruct nul.
  { exists 0, b1. split_and!; [done|done|lia|left; by split]. }
  destruct Hnul as [Hlen1 Hnz].
  destruct (IH (src - src mod 4096 + 4096) (max - n) (acc ++ b1)) as (r & bs & Hrun & Hrd & Hmx & Hr);
    [Z.div_mod_to_equations; lia|lia|].
  exists r, (b1 ++ bs). rewrite app_assoc, length_app. split_and!; [exact Hrun| |lia|].
  - eapply uread_app; [done| |exact Hrd]. destruct bs; [done|simpl in Hmx]. lia.
  - destruct Hr as [(-> & str & -> & Hs)|(-> & Hs & Hr)].
    + left. split; [done|]. exists (b1 ++ str). by rewrite app_assoc, Forall_app.
    + right. rewrite Forall_app. split_and!; [done..|].
      destruct Hr as [Hr|Hr]; [left; lia|].
      destruct (decide (n = max)); [left; lia|right].
      rewrite <- Hr. f_equal. lia.
Qed.

(** ** A small address space *)

(** A zeroed page is an empty table. *)
Lemma pt_wf_empty ly m p :
  page_ok ly p -> (forall x, within p PGSIZE x -> load8 m x = 0) ->
  pt_wf ly m p {[ [] := p ]}.
Proof.
  intros Hp Hz. split.
  - apply lookup_singleton_eq.
  - by intros k k' q [<- <-]%lookup_singleton_Some [<- _]%lookup_singleton_Some.
  - by intros k q [<- <-]%lookup_singleton_Some.
  - intros k q [<- <-]%lookup_singleton_Some. simpl. lia.
  - intros k i q [E _]%lookup_singleton_Some. by destruct k.
  - intros k q i [<- <-]%lookup_singleton_Some _ Hi.
    rewrite (load64_ext m ∅).
    + by rewrite lookup_singleton_ne.
    + intros x Hx. apply Hz. unfold PGSIZE. lia.
  - intros k q i [<- <-]%lookup_singleton_Some _ Hi.
    rewrite (load64_ext m ∅); [done|]. intros x Hx. apply Hz. unfold PGSIZE. lia.
  - by intros i k q [E _]%lookup_singleton_Some.
Qed.

Lemma pte_at_empty m p va : pte_at m {[ [] := p ]} va = None.
Proof. unfold pte_at, slot. by rewrite lookup_singleton_ne. Qed.

(** The [i]-th page from the top of memory. *)
Definition pgn (i : Z) : Z := PHYSTOP - PGSIZE * i.

Definition perm_rwu : Z := Z.lor (Z.lor PTE_R PTE_W) PTE_U.

(** Page 4 mapped at address 0 by the tables in pages 1, 2 and 3; page 5 free. *)
Definition m_vm0 : mem := store64 ∅ (pgn 5) 0.
Definition m_vm2 : mem :=
  store64 (store64 m_vm0 (pgn 1 + 8 * 0) (Z.lor (PA2PTE (pgn 2)) PTE_V))
    (pgn 2 + 8 * 0) (Z.lor (PA2PTE (pgn 3)) PTE_V).
Definition m_vm : mem := store64 m_vm2 (pgn 3 + 8 * PX 0 0) (mkleaf (pgn 4) perm_rwu).
Definition T_vm : ptree := <[ [] ++ [0] ++ [0] := pgn 3 ]> (<[ [] ++ [0] := pgn 2 ]> {[ [] := pgn 1 ]}).
Definition kst_vm : kst := set_phys (Phys m_vm (pgn 5)) kst_km.

Lemma pgn_ok i : 1 <= i <= 8 -> page_ok layout0 (pgn i).
Proof.
  intros Hi. unfold page_ok, pgn. change (ld_end layout0) with (PHYSTOP - 8 * 4096).
  unfold PGSIZE. change PHYSTOP with (557056 * 4096). split; [|lia].
  Z.div_mod_to_equations; lia.
Qed.

Lemma load8_m_vm0 x : load8 m_vm0 x = 0.
Proof.
  unfold m_vm0, store64. rewrite load8_store_bytes.
  destruct (pgn 5 <=? x); [|done]. destruct (le_bytes 8 0 !! _) as [b|] eqn:E; [|done].
  change (le_bytes 8 0) with (replicate 8 0) in E. by apply lookup_replicate in E as [-> _].
Qed.

Lemma pt_wf_vm2 : pt_wf layout0 m_vm2 (pgn 1) T_vm.
Proof.
  apply (pt_add_node _ (store64 m_vm0 (pgn 1 + 8 * 0) (Z.lor (PA2PTE (pgn 2)) PTE_V))
    _ _ [0] (pgn 2) 0 (pgn 3));
    [apply layout_ok0| |done|simpl; lia|lia|lia|done|by apply pgn_ok| |done|].
  - apply (pt_add_node _ m_vm0 _ _ [] (pgn 1) 0 (pgn 2));
      [apply layout_ok0| |done|simpl; lia|lia|lia|done|by apply pgn_ok| |done|].
    + apply pt_wf_empty; [by apply pgn_ok|]. intros. apply load8_m_vm0.
    + by intros k q [<- <-]%lookup_singleton_Some.
    + intros. apply load8_m_vm0.
  - intros k q [[<- <-]|[_ [<- <-]%lookup_singleton_Some]]%lookup_insert_Some; done.
  - intros x Hx. rewrite load8_store64_out; [apply load8_m_vm0|].
    unfold pgn, PGSIZE in *. lia.
Qed.

Lemma T_vm_pages k p : T_vm !! k = Some p -> p = pgn 1 \/ p = pgn 2 \/ p = pgn 3.
Proof.
  unfold T_vm.
  intros [[_ <-]|[_ [[_ <-]|[_ [_ <-]%lookup_singleton_Some]]%lookup_insert_Some]]%lookup_insert_Some;
    auto.
Qed.

Lemma vm_ok_vm_pte :
  vm_ok layout0 (Phys m_vm (pgn 5)) (pgn 1) T_vm [pgn 5] /\
  (forall va, 0 <= va < MAXVA ->
     pte_at m_vm T_vm va = if va / 4096 =? 0 then Some (mkleaf (pgn 4) perm_rwu) else None).
Proof.
  assert (Hvm : vm_ok layout0 (Phys m_vm2 (pgn 5)) (pgn 1) T_vm [pgn 5]).
  { split; [|apply pt_wf_vm2|].
    - split; simpl; [split; [done|]|apply NoDup_singleton|].
      + unfold m_vm2. rewrite !load64_store64_ne by (unfold pgn, PGSIZE; lia).
        unfold m_vm0. by rewrite load64_store64_eq.
      + repeat constructor; by apply pgn_ok.
    - intros k p Hk. apply T_vm_pages in Hk. rewrite list_elem_of_singleton.
      unfold pgn, PGSIZE in *. lia. }
  destruct (store_leaf layout0 (Phys m_vm2 (pgn 5)) (pgn 1) T_vm [pgn 5] 0 (pgn 3 + 8 * PX 0 0)
    (mkleaf (pgn 4) perm_rwu) Hvm) as (A & _ & B); [by vm_compute|done|by vm_compute|].
  split; [exact A|]. intros va Hva. etrans; [apply (B va Hva)|]. cbn [ph_mem].
  change (0 / 4096) with 0. destruct (Z.eqb_spec (va / 4096) 0) as [E|E].
  - by rewrite (eq_refl : flag (mkleaf (pgn 4) perm_rwu) PTE_V = true).
  - unfold pte_at, slot. destruct (T_vm !! [PX 2 va; PX 1 va]) as [p|] eqn:Ep; [|done]. cbn [fmap option_fmap option_map mbind option_bind].
    assert (Hk : [PX 2 va; PX 1 va] = [0; 0] /\ p = pgn 3).
    { unfold T_vm in Ep. apply lookup_insert_Some in Ep as [[E1 E2]|[_ Ep]]; [by rewrite <- E1|].
      apply lookup_insert_Some in Ep as [[E1 E2]|[_ Ep]]; [done|].
      by apply lookup_singleton_Some in Ep as [E1 _]. }
    destruct Hk as [Hk ->]. injection Hk as H2 H1.
    rewrite (load64_ext _ ∅); [done|]. intros x Hx. unfold m_vm2.
    pose proof (PX_range 0 va).
    rewrite !load8_store64_out by (unfold pgn, PGSIZE in *; lia). apply load8_m_vm0.
Qed.

Lemma vm_ok_vm : vm_ok (k_layout kst_vm) (k_phys kst_vm) (pgn 1) T_vm [pgn 5].
Proof. apply vm_ok_vm_pte. Qed.

Lemma ua_vm va : 0 <= va -> ua m_vm T_vm va = if va <? 4096 then Some (pgn 4) else None.
Proof.
  intros Hva. unfold ua. change MAXVA with (67108864 * 4096).
  destruct (Z.ltb_spec va (67108864 * 4096)).
  - rewrite (proj2 vm_ok_vm_pte) by (change MAXVA with (67108864 * 4096); lia).
    replace (va / 4096 =? 0) with (va <? 4096) by (Z.div_mod_to_equations; lia).
    by destruct (va <? 4096).
  - by replace (va <? 4096) with false by lia.
Qed.

Lemma uspace_vm : uspace (k_layout kst_vm) m_vm T_vm [pgn 5].
Proof.
  assert (H : forall va pa, 0 <= va -> ua m_vm T_vm va = Some pa -> pa = pgn 4 /\ va / 4096 = 0).
  { intros va pa Hva. rewrite ua_vm by done. destruct (Z.ltb_spec va 4096); [|done].
    intros [= <-]. split; [done|]. Z.div_mod_to_equations; lia. }
  split.
  - intros va pa Hva [-> _]%H; [|done]. by apply pgn_ok.
  - intros va pa k p Hva [-> _]%H; [|done]. intros Hk%T_vm_pages. unfold pgn, PGSIZE in *. lia.
  - intros va pa Hva [-> _]%H; [|done]. rewrite list_elem_of_singleton. unfold pgn, PGSIZE in *. lia.
  - intros va va' pa Hva Hva' [_ E]%H [_ E']%H; [lia|done..].
Qed.

Lemma kctx_vm : kctx kst_vm.
Proof. apply kctx_km. Qed.

(** ** What the copy routines do *)

(** C32: copyout returns 0 exactly when every page of the destination is mapped
    for the user, and then the user reads the [len] source bytes at [dstva] and
    everything else as before; otherwise it returns -1 having written the bytes
    before the first unmapped page. In no case does it change a translation,
    the page tables or the free list, or panic. *)
Theorem copyout_correct dst src e s root T l :
  kctx s -> vm_ok (k_layout s) (k_phys s) root T l ->
  uspace (k_layout s) (ph_mem (k_phys s)) T l -> is_u64 dst -> bytes_ok src ->
  wp (copyout root dst src) e s (fun r e' s' => exists ph' k,
    e' = e /\ s' = set_phys ph' s /\
    vm_ok (k_layout s) ph' root T l /\ uspace (k_layout s) (ph_mem ph') T l /\
    (forall v, ua (ph_mem ph') T v = ua (ph_mem (k_phys s)) T v) /\
    written (ph_mem (k_phys s)) T (ph_mem ph') dst src k /\
    ((r = 0 /\ k = Z.of_nat (length src) /\
        (forall v, dst <= v < dst + k -> is_Some (ua (ph_mem (k_phys s)) T v))) \/
     (r = -1 /\ 0 <= k < Z.of_nat (length src) /\ ua (ph_mem (k_phys s)) T (dst + k) = None))).
Proof.
  intros Hc Hvm Hus Hdst Hsrc. eapply copyout_loop_wp; [done..|lia|].
  intros r ph' k A B C D E. by exists ph', k.
Qed.

(** Copyin returns 0 exactly when the [len] bytes at [srcva] are all mapped
    for the user, and then gives those bytes; a copyout followed by a copyin of
    the same range gives back what was written. Neither copyin changes the
    state. *)
Theorem copyin_copyout src e s root T l va n :
  kctx s -> vm_ok (k_layout s) (k_phys s) root T l ->
  uspace (k_layout s) (ph_mem (k_phys s)) T l -> is_u64 va -> 0 <= n -> bytes_ok src ->
  (exists r bs, copyin root va n e s = Ok (r, bs) e s /\
     uread (ph_mem (k_phys s)) T va bs /\
     ((r = 0 /\ Z.of_nat (length bs) = n) \/
      (r = -1 /\ Z.of_nat (length bs) < n /\
         ua (ph_mem (k_phys s)) T (va + Z.of_nat (length bs)) = None))) /\
  ((forall v, va <= v < va + Z.of_nat (length src) -> is_Some (ua (ph_mem (k_phys s)) T v)) ->
   wp (copyout root va src ;; copyin root va (Z.of_nat (length src))) e s
     (fun r e' s' => r = (0, src))).
Proof.
  intros Hc Hvm Hus Hva Hn Hsrc. split.
  { destruct (copyin_loop_run (S (Z.to_nat n)) va n [] e s root T l) as (r & bs & H & H');
      [done..|lia|]. by exists r, bs. }
  intros Hmap. apply wp_seq. eapply copyout_loop_wp; [done..|lia|].
  intros r ph' k Hvm' Hus' Hua' Hw Hr.
  destruct (copyin_loop_run (S (Z.to_nat (Z.of_nat (length src)))) va (Z.of_nat (length src)) [] e
    (set_phys ph' s) root T l) as (r' & bs & Hrun & Hrd & Hr'); [done..|lia|].
  eapply wp_run; [exact Hrun|]. simpl in *.
  assert (Hm : forall j, 0 <= j < Z.of_nat (length src) -> ua (ph_mem (k_phys s)) T (va + j) <> None).
  { intros j Hj E. destruct (Hmap (va + j)) as [? E']; [lia|congruence]. }
  destruct Hr as [(_ & -> & _)|(_ & Hk & Hnone)]; [|by apply Hm in Hnone].
  destruct Hr' as [[-> Hlen]|(_ & Hk & Hnone)].
  2:{ rewrite Hua' in Hnone. apply Hm in Hnone; [done|lia]. }
  f_equal. apply list_eq_same_length with (length src); [done|lia|].
  intros i x y Hi Hx Hy. apply Hrd in Hx. rewrite Hw in Hx by lia.
  replace (_ && _) with true in Hx by lia.
  replace (Z.to_nat (va + Z.of_nat i - va)) with i in Hx by lia. rewrite Hy in Hx. congruence.
Qed.

(** Copyinstr returns 0 with a string and its NUL when the user has one of
    at most [max] bytes, NUL included, at [srcva]; it returns -1 when the bytes
    up to [max] or up to the first unmapped page hold no NUL. *)
Theorem copyinstr_correct va n e s root T l :
  kctx s -> vm_ok (k_layout s) (k_phys s) root T l ->
  uspace (k_layout s) (ph_mem (k_phys s)) T l -> is_u64 va -> 0 <= n ->
  exists r bs, copyinstr root va n e s = Ok (r, bs) e s /\
    uread (ph_mem (k_phys s)) T va bs /\ Z.of_nat (length bs) <= n /\
    ((r = 0 /\ exists str, bs = str ++ [0] /\ Forall (fun c => c <> 0) str) \/
     (r = -1 /\ Forall (fun c => c <> 0) bs /\
        (Z.of_nat (length bs) = n \/ ua (ph_mem (k_phys s)) T (va + Z.of_nat (length bs)) = None))).
Proof.
  intros Hc Hvm Hus Hva Hn.
  destruct (copyinstr_loop_run (S (Z.to_nat n)) va n [] e s root T l) as (r & bs & H & H');
    [done..|lia|]. by exists r, bs.
Qed.

Lemma bytes_789 : bytes_ok [7; 8; 9].
Proof. repeat constructor; done. Qed.

Lemma copyout_correct_witness :
  wp (copyout (pgn 1) 4094 [7; 8; 9]) [] kst_vm (fun r _ s' =>
    r = -1 /\ uload (ph_mem (k_phys s')) T_vm 4095 = Some 8).
Proof.
  eapply wp_mono; [exact (copyout_correct 4094 [7; 8; 9] [] kst_vm (pgn 1) T_vm [pgn 5]
    kctx_vm vm_ok_vm uspace_vm ltac:(lia) bytes_789)|].
  intros r e' s' (ph' & k & _ & -> & _ & _ & _ & Hw & Hr). cbn [k_phys set_phys] in *.
  change (ph_mem (k_phys kst_vm)) with m_vm in *.
  destruct Hr as [(_ & -> & Hall)|(-> & Hk & Hnone)].
  - destruct (Hall 4096 ltac:(simpl; lia)) as [pa Hpa]. by rewrite ua_vm in Hpa.
  - split; [done|]. rewrite ua_vm in Hnone by lia.
    destruct (Z.ltb_spec (4094 + k) 4096); [done|].
    rewrite Hw by lia. by replace (4095 <? 4094 + k) with true by lia.
Defined.

Lemma copyin_copyout_witness :
  wp (copyout (pgn 1) 4093 [7; 8; 9] ;; copyin (pgn 1) 4093 (Z.of_nat (length [7; 8; 9]))) [] kst_vm
    (fun r _ _ => r = (0, [7; 8; 9])).
Proof.
  refine (proj2 (copyin_copyout [7; 8; 9] [] kst_vm (pgn 1) T_vm [pgn 5] 4093 3
    kctx_vm vm_ok_vm uspace_vm ltac:(lia) ltac:(lia) bytes_789) _).
  intros v Hv. simpl in Hv. change (ph_mem (k_phys kst_vm)) with m_vm.
  rewrite ua_vm by lia. replace (v <? 4096) with true by lia. by eexists.
Defined.

Lemma copyinstr_correct_witness :
  exists r bs, copyinstr (pgn 1) 4000 10 [] kst_vm = Ok (r, bs) [] kst_vm /\
    Z.of_nat (length bs) <= 10.
Proof.
  destruct (copyinstr_correct 4000 10 [] kst_vm (pgn 1) T_vm [pgn 5]
    kctx_vm vm_ok_vm uspace_vm ltac:(lia) ltac:(lia)) as (r & bs & H & _ & Hl & _).
  exists r, bs. split; [exact H|exact Hl].
Defined.

(** ** What mappages does *)

(** C30: On an unmapped range below MAXVA, mappages does not panic. If it returns
    0, every page of the range has a leaf entry for the corresponding physical
    page with the given permissions, and [walkaddr] finds it when PTE_U is among
    them. If it returns -1, the allocator had no page left for a table and only
    a proper prefix of the range is mapped. Entries outside the range, and all
    memory outside the tables, are unchanged. *)
Theorem mappages_correct va size pa perm e s root T l :
  let a := va / 4096 * 4096 in
  let n := (va + size - 1) / 4096 - va / 4096 + 1 in
  kctx s -> vm_ok (k_layout s) (k_phys s) root T l ->
  0 <= va -> 0 < size -> va + size <= MAXVA ->
  pa mod 4096 = 0 -> 0 <= pa -> pa + size + 4096 < 72057594037927936 -> 0 <= perm < 1024 ->
  (forall x, a <= x < a + 4096 * n -> x < MAXVA -> pte_at (ph_mem (k_phys s)) T x = None) ->
  wp (mappages root va size pa perm) e s (fun r e' s' => exists ph' T' l' k,
    e' = e /\ s' = set_phys ph' s /\ vm_ok (k_layout s) ph' root T' l' /\ T ⊆ T' /\
    outside_same T' (ph_mem (k_phys s)) (ph_mem ph') /\
    (forall x, 0 <= x < MAXVA ->
       pte_at (ph_mem ph') T' x =
         if (a <=? x) && (x <? a + 4096 * k)
         then Some (mkleaf (pa + (x / 4096 * 4096 - a)) perm)
         else pte_at (ph_mem (k_phys s)) T x) /\
    ((r = 0 /\ k = n /\
        (flag perm PTE_U = true -> forall x, a <= x < a + 4096 * n -> x < MAXVA ->
           walkaddr root x e' s' = Ok (pa + (x / 4096 * 4096 - a)) e' s')) \/
     (r = -1 /\ 0 <= k < n /\ l' = []))).
Proof.
  intros a n Hc Hvm Hva Hsz Hmax Hpa Hpa0 Hpam Hperm Hun.
  assert (Hn : n = (va + size - 1) / 4096 - va / 4096 + 1) by done.
  eapply mappages_wp; [done..| |].
  { intros x Hx. apply Hun. subst n. fold a in Hx. lia. }
  intros r ph' T' l' k Hvm' [G1 _ _ G4 _] Hre Hr. fold a in Hre.
  exists ph', T', l', k. split_and!; try done.
  destruct Hr as [[-> ->]|(-> & Hk & ->)]; [left|right; split_and!; [done|lia|lia|done]].
  split_and!; [done|lia|]. intros HU x Hx Hx'.
  assert (Ha : 0 <= a <= va) by (subst a; Z.div_mod_to_equations; lia).
  change MAXVA with 274877906944 in *.
  rewrite (walkaddr_run e (set_phys ph' s) root T' x Hc) by (apply Hvm' || lia).
  simpl. unfold ua. change MAXVA with 274877906944 in *. replace (x <? 274877906944) with true by lia.
  rewrite Hre by (change MAXVA with 274877906944; lia). replace (_ && _) with true by lia.
  unfold leaf_for. simpl.
  assert (Hq : x / 4096 * 4096 - a = 4096 * (x / 4096 - va / 4096)) by (subst a; lia).
  assert (0 <= x / 4096 - va / 4096 < n) by (subst a n; Z.div_mod_to_equations; lia).
  assert (4096 * n <= size + 8192) by (subst n; Z.div_mod_to_equations; lia).
  rewrite mkleaf_U, HU, PTE2PA_mkleaf; [done|..]; try (Z.div_mod_to_equations; lia).
Qed.

Lemma mappages_correct_witness :
  wp (mappages (pgn 1) 4096 8192 (pgn 7) perm_rwu) [] kst_vm (fun r _ s' =>
    r = 0 -> exists T' , pte_at (ph_mem (k_phys s')) T' 8192 = Some (mkleaf (pgn 7 + 4096) perm_rwu)).
Proof.
  eapply wp_mono; [eapply (mappages_correct 4096 8192 (pgn 7) perm_rwu [] kst_vm (pgn 1) T_vm [pgn 5]
    kctx_vm vm_ok_vm)|].
  1-7: by vm_compute.
  - intros x Hx Hx'. change (ph_mem (k_phys kst_vm)) with m_vm. change (4096 / 4096 * 4096) with 4096 in Hx.
    rewrite (proj2 vm_ok_vm_pte) by lia.
    by replace (x / 4096 =? 0) with false by (Z.div_mod_to_equations; lia).
  - intros r e' s' (ph' & T' & l' & k & _ & -> & _ & _ & _ & Hpte & Hr) ->.
    exists T'. cbn [k_phys set_phys]. rewrite Hpte by (by vm_compute).
    destruct Hr as [(_ & -> & _)|(? & _)]; [by vm_compute|done].
Defined.
