(* ===== verification/VmSpace.v ===== *)
(** Growing, shrinking, copying and freeing user address spaces: [uvmalloc],
    [uvmdealloc], [uvmcopy], [uvmfree] on top of the page-table abstraction. *)

From S2P Require Import Prelude Machine KState Spinlock KString Kalloc Vm VmSpec VmUser.

(** ** Pages that are neither table nor free *)

Lemma page_write_frame ly ph root T l p m' :
  vm_ok ly ph root T l -> page_ok ly p -> (forall k q, T !! k = Some q -> q <> p) -> p ∉ l ->
  (forall x, ~ within p PGSIZE x -> load8 m' x = load8 (ph_mem ph) x) ->
  vm_ok ly (Phys m' (ph_freelist ph)) root T l /\
  (forall va, pte_at m' T va = pte_at (ph_mem ph) T va).
Proof.
  intros [Hkm Hpt Hdis] Hp HT Hl Hout.
  assert (Hs : forall k q x, T !! k = Some q -> within q PGSIZE x ->
    load8 m' x = load8 (ph_mem ph) x).
  { intros k q x Hk Hx. apply Hout. eapply (page_disjoint q p); [..|exact Hx];
      [by eapply pt_page|apply Hp|by eapply HT]. }
  split; [|intros va; by eapply pte_at_frame].
  split; [|by eapply pt_wf_frame|done].
  destruct ph as [m fl]. eapply kmem_ok_frame; [exact Hkm|]. intros q x Hq Hx. apply Hout.
  apply (page_disjoint q p); [| |intros ->; done|exact Hx].
  - by eapply (Forall_forall (page_ok _) l); [apply Hkm|].
  - apply Hp.
Qed.

Lemma kalloc_vm_wp e s root T l (Q : Z -> env -> kst -> Prop) :
  kctx s -> vm_ok (k_layout s) (k_phys s) root T l ->
  (forall p l' ph', l = p :: l' -> page_ok (k_layout s) p -> p ∉ l' ->
     (forall k q, T !! k = Some q -> q <> p) ->
     vm_ok (k_layout s) ph' root T l' ->
     (forall va, pte_at (ph_mem ph') T va = pte_at (ph_mem (k_phys s)) T va) ->
     (forall x, ~ within p PGSIZE x -> load8 (ph_mem ph') x = load8 (ph_mem (k_phys s)) x) ->
     Q p e (set_phys ph' s)) ->
  (l = [] -> Q 0 e s) ->
  wp kalloc e s Q.
Proof.
  intros Hc [Hkm Hpt Hdis] HQ HQ0. eapply kalloc_wp; [done|exact Hkm| |done].
  intros p l' m' fl' -> Hp Hni Hkm' _ Hout.
  assert (HT : forall k q, T !! k = Some q -> q <> p).
  { intros k q Hk ->. apply (Hdis _ _ Hk). set_solver. }
  assert (Hs : forall k q x, T !! k = Some q -> within q PGSIZE x ->
    load8 m' x = load8 (ph_mem (k_phys s)) x).
  { intros k q x Hk Hx. apply Hout. eapply (page_disjoint q p); [..|exact Hx];
      [by eapply pt_page|apply Hp|by eapply HT]. }
  apply (HQ p l'); try done.
  - split; [done|by eapply pt_wf_frame|]. intros k q Hk Hin. apply (Hdis _ _ Hk). set_solver.
  - intros va. by eapply pte_at_frame.
Qed.

(** ** A region under construction *)

(** From the memory [m0] with tables [T0] and free pages [l0], the entries [vs]
    have been installed for consecutive pages at [a]; the page of the [i]-th
    one holds the bytes [c i]. *)
Record region (ly : layout) (root : Z) (m0 : mem) (T0 : ptree) (l0 : list Z) (a : Z)
    (c : nat -> Z -> Z) (ph : phys) (T : ptree) (l vs : list Z) : Prop := {
  rg_vm : vm_ok ly ph root T l;
  rg_sub : T0 ⊆ T;
  rg_new : forall k p, T !! k = Some p -> T0 !! k = Some p \/ p ∈ l0;
  rg_l : forall p, p ∈ l -> p ∈ l0;
  rg_nodup : NoDup (PTE2PA <$> vs);
  rg_page : forall p, p ∈ PTE2PA <$> vs -> page_ok ly p /\ p ∈ l0 /\ p ∉ l;
  rg_tree : forall k p, T !! k = Some p -> p ∉ PTE2PA <$> vs;
  rg_leaf : Forall (fun v => PTE_FLAGS v <> PTE_V) vs;
  rg_map : forall va, 0 <= va < MAXVA ->
    pte_at (ph_mem ph) T va =
      if (a <=? va) && (va <? a + 4096 * Z.of_nat (length vs))
      then vs !! Z.to_nat ((va - a) / 4096) else pte_at m0 T0 va;
  rg_cont : forall i v x, vs !! i = Some v -> 0 <= x < 4096 ->
    load8 (ph_mem ph) (PTE2PA v + x) = c i x;
  rg_out : forall x, (forall k p, T !! k = Some p -> ~ within p PGSIZE x) ->
    (forall p, p ∈ l0 -> ~ within p PGSIZE x) -> load8 (ph_mem ph) x = load8 m0 x;
  rg_all : forall p, p ∈ l0 -> p ∈ l \/ p ∈ PTE2PA <$> vs \/ exists k, T !! k = Some p }.

Lemma region_init ly root ph T l a c :
  vm_ok ly ph root T l -> region ly root (ph_mem ph) T l a c ph T l [].
Proof.
  intros Hvm. split; try done; try (by auto).
  - constructor.
  - by intros p ?%elem_of_nil.
  - intros k p _ ?%elem_of_nil. done.
  - intros va Hva. change (Z.of_nat (length [])) with 0.
    destruct (_ && _) eqn:E; [lia|done].
Qed.

(** Giving the region up: its pages go back to the free list and every address
    translates as it did at the start. *)
Lemma region_undo_wp ly root m0 T0 l0 a c l vs e s T (Q : unit -> env -> kst -> Prop) :
  k_layout s = ly -> kctx s -> region ly root m0 T0 l0 a c (k_phys s) T l vs ->
  a mod 4096 = 0 -> 0 <= a -> a + 4096 * Z.of_nat (length vs) <= MAXVA ->
  (forall va, a <= va < a + 4096 * Z.of_nat (length vs) -> pte_at m0 T0 va = None) ->
  (forall ph', vm_ok ly ph' root T (rev (PTE2PA <$> vs) ++ l) ->
     (forall va, 0 <= va < MAXVA -> pte_at (ph_mem ph') T va = pte_at m0 T0 va) ->
     (forall x, (forall k p, T !! k = Some p -> ~ within p PGSIZE x) ->
        (forall p, p ∈ l0 -> ~ within p PGSIZE x) -> load8 (ph_mem ph') x = load8 m0 x) ->
     Q tt e (set_phys ph' s)) ->
  wp (uvmunmap root a (Z.of_nat (length vs)) true) e s Q.
Proof.
  intros <- Hc [R1 R2 R3 R4 R5 R6 R7 R8 R9 R10 R11 R12] Ha Ha0 Hmax Hun HQ.
  eapply uvmunmap_wp; [done|exact R1|done..| |].
  - split; try done.
    + intros i v Hi. pose proof (lookup_lt_Some _ _ _ Hi).
      rewrite R9 by lia. replace (_ && _) with true by lia.
      replace (a + 4096 * Z.of_nat i - a) with (Z.of_nat i * 4096) by lia.
      by rewrite Z.div_mul, Nat2Z.id by lia.
    + intros _. apply Forall_forall. intros v Hv. by apply R6, list_elem_of_fmap_2.
    + intros _. apply Forall_forall. intros v Hv. by apply R6, list_elem_of_fmap_2.
  - intros ph' Hvm Hre Hout. apply HQ; [done| |].
    + intros va Hva. rewrite Hre, R9 by done.
      destruct (_ && _) eqn:E; [|done]. symmetry. apply Hun. lia.
    + intros x Hx Hl. rewrite Hout; [by apply R11|done|].
      intros p Hp. apply Hl. apply R6, Hp.
Qed.

(** What both [uvmalloc] and [uvmcopy] do for one more page: allocate it, give
    it its content and map it, backing out through [fail]. *)
Definition add_page (root a perm : Z) (fill : Z -> mem -> mem) (fail k : K Z) : K Z :=
  pg ← kalloc;
  if pg =? 0 then fail
  else
    setmem (fill pg) ;;
    r ← mappages root a PGSIZE pg perm;
    if negb (r =? 0) then kfree pg ;; fail else k.

Lemma lookup_snoc_region {A} (vs : list A) v a va :
  a <= va < a + 4096 * (Z.of_nat (length vs) + 1) ->
  (vs ++ [v]) !! Z.to_nat ((va - a) / 4096) =
  if va <? a + 4096 * Z.of_nat (length vs) then vs !! Z.to_nat ((va - a) / 4096) else Some v.
Proof.
  intros H. destruct (Z.ltb_spec va (a + 4096 * Z.of_nat (length vs))).
  - rewrite lookup_app_l; [done|]. Z.div_mod_to_equations; lia.
  - replace (Z.to_nat ((va - a) / 4096)) with (length vs) by (Z.div_mod_to_equations; lia).
    by rewrite lookup_app_r, Nat.sub_diag.
Qed.

Section add_page.
Context (root a perm : Z) (m0 : mem) (T0 : ptree) (l0 : list Z) (c : nat -> Z -> Z).
Context (fill : Z -> mem -> mem) (fail k : K Z) (e : env) (Q : Z -> env -> kst -> Prop).

(** One more page when [mappages] succeeded. *)
Lemma region_snoc ly ph T l vs pg ph1 T1 l1 m2 :
  layout_ok ly ->
  region ly root m0 T0 l0 a c ph T l vs ->
  a mod 4096 = 0 -> 0 <= perm < 1024 -> Z.land perm 14 <> 0 ->
  a + 4096 * Z.of_nat (length vs) < MAXVA -> 0 <= a ->
  page_ok ly pg -> pg ∈ l -> (forall p, p ∈ l1 -> p ∈ l /\ p <> pg) ->
  (forall k p, T1 !! k = Some p -> T !! k = Some p \/ (p ∈ l /\ p <> pg)) -> T ⊆ T1 ->
  (forall p, p ∈ l -> p = pg \/ p ∈ l1 \/ exists k, T1 !! k = Some p) ->
  (forall va, pte_at m2 T va = pte_at (ph_mem ph) T va) ->
  (forall x, ~ within pg PGSIZE x -> load8 m2 x = load8 (ph_mem ph) x) ->
  (forall x, 0 <= x < 4096 -> load8 m2 (pg + x) = c (length vs) x) ->
  vm_ok ly ph1 root T1 l1 -> outside_same T1 m2 (ph_mem ph1) ->
  remapped m2 T (ph_mem ph1) T1 (a + 4096 * Z.of_nat (length vs)) 1
    (leaf_for (a + 4096 * Z.of_nat (length vs)) pg perm) ->
  region ly root m0 T0 l0 a c ph1 T1 l1 (vs ++ [mkleaf pg perm]).
Proof.
  intros Hly [R1 R2 R3 R4 R5 R6 R7 R8 R9 R10 R11 R12] Ha Hperm Hp14 Hmax Ha0 Hpg Hin Hl1 HT1 HTT Hall1
    Hpte2 Hout2 Hc2 Hvm1 Hos Hre.
  pose proof (page_ok_range _ _ Hly Hpg) as [Hpr Hpa].
  assert (HPA : PTE2PA (mkleaf pg perm) = pg) by (apply PTE2PA_mkleaf; lia).
  assert (Hvs : forall p, p ∈ PTE2PA <$> vs -> p <> pg /\ p ∉ l1).
  { intros p Hp. destruct (R6 p Hp) as (_ & _ & Hn). split; [by intros ->|].
    intros Hp1. apply Hn, Hl1, Hp1. }
  assert (Hpg1 : forall kk p, T1 !! kk = Some p -> p <> pg).
  { intros kk p [Hk|[_ Hk]]%HT1; [|done]. intros ->. by apply (vm_dis _ _ _ _ _ R1 _ _ Hk). }
  assert (Hvs1 : forall kk p, T1 !! kk = Some p -> p ∉ PTE2PA <$> vs).
  { intros kk p [Hk|[Hk _]]%HT1; [by eapply R7|]. intros Hp. by apply (R6 p Hp). }
  split.
  - done.
  - by etrans.
  - intros kk p [Hk|[Hk _]]%HT1; auto.
  - intros p [Hp _]%Hl1. auto.
  - rewrite fmap_app, NoDup_app. split_and!; [done| |apply NoDup_singleton].
    intros p Hp. simpl. rewrite HPA, list_elem_of_singleton. by apply Hvs.
  - intros p. rewrite fmap_app, elem_of_app. simpl. rewrite HPA, list_elem_of_singleton.
    intros [Hp| ->].
    + destruct (R6 p Hp) as (? & ? & ?). split_and!; [done..|by apply Hvs].
    + split_and!; [done|auto|]. intros [_ ?]%Hl1. done.
  - intros kk p Hk. rewrite fmap_app, elem_of_app. simpl. rewrite HPA, list_elem_of_singleton.
    intros [Hp| ->]; [by eapply Hvs1|by eapply Hpg1].
  - apply Forall_app. split; [done|]. constructor; [|done].
    rewrite PTE_FLAGS_mkleaf by lia. intros E. apply Hp14.
    apply (f_equal (fun z => Z.land z 14)) in E. rewrite Z.land_lor_distr_l in E.
    change (Z.land PTE_V 14) with 0 in E. by rewrite Z.lor_0_r in E.
  - intros va Hva. rewrite (Hre va Hva), Hpte2, R9 by done. rewrite length_app. cbn [length].
    replace (Z.of_nat (length vs + 1)) with (Z.of_nat (length vs) + 1) by lia.
    destruct ((a <=? va) && (va <? a + 4096 * (Z.of_nat (length vs) + 1))) eqn:E.
    + rewrite lookup_snoc_region by lia. destruct (Z.ltb_spec va (a + 4096 * Z.of_nat (length vs))).
      * destruct (_ && _) eqn:E1 in |- * at 1; [lia|].
        by replace (a <=? va) with true by lia.
      * destruct (_ && _) eqn:E1 in |- * at 1; [|lia].
        unfold leaf_for. do 2 f_equal. Z.div_mod_to_equations; lia.
    + destruct (_ && _) eqn:E1 in |- * at 1; [lia|].
      by destruct (_ && _) eqn:E2 in |- * at 1; [lia|].
  - intros i v x Hi Hx. rewrite Hos.
    2:{ intros kk p Hk. apply lookup_app_Some in Hi as [Hi|[_ Hi]].
        - apply (page_disjoint (PTE2PA v) p).
          + apply R6, list_elem_of_fmap_2. by eapply list_elem_of_lookup_2.
          + eapply pt_page; [by apply (vm_pt _ _ _ _ _ Hvm1)|done].
          + intros <-. eapply Hvs1; [done|]. apply list_elem_of_fmap_2. by eapply list_elem_of_lookup_2.
          + unfold PGSIZE. lia.
        - apply list_lookup_singleton_Some in Hi as [_ <-]. rewrite HPA.
          apply (page_disjoint pg p); [apply Hpg| | |unfold PGSIZE; lia].
          + eapply pt_page; [by apply (vm_pt _ _ _ _ _ Hvm1)|done].
          + intros <-. by eapply Hpg1. }
    apply lookup_app_Some in Hi as [Hi|[Hle Hi]].
    + assert (Hv : PTE2PA v ∈ PTE2PA <$> vs)
        by (apply list_elem_of_fmap_2; by eapply list_elem_of_lookup_2).
      rewrite Hout2; [by apply R10|]. apply (page_disjoint (PTE2PA v) pg);
        [by apply R6|apply Hpg|by apply Hvs|unfold PGSIZE; lia].
    + apply list_lookup_singleton_Some in Hi as [Hi <-]. rewrite HPA.
      replace i with (length vs) by lia. by apply Hc2.
  - intros x Hx Hl. rewrite Hos by done. rewrite Hout2 by auto. apply R11; [|done].
    intros kk p Hk. apply (Hx kk). by eapply lookup_weaken.
  - intros p Hp. rewrite fmap_app, elem_of_app. simpl. rewrite HPA, list_elem_of_singleton.
    destruct (R12 p Hp) as [Hq|[Hq|[kk Hk]]]; [|tauto|right; right; exists kk; by eapply lookup_weaken].
    apply Hall1 in Hq. tauto.
Qed.

(** [kfree] of the page that could not be mapped. *)
Lemma region_shrink ly ph T l vs ph1 T1 l1 :
  region ly root m0 T0 l0 a c ph T l vs ->
  vm_ok ly ph1 root T1 l1 -> T ⊆ T1 ->
  (forall k p, T1 !! k = Some p -> T !! k = Some p \/ p ∈ l) ->
  (forall p, p ∈ l1 -> p ∈ l) -> (forall p, p ∈ l -> p ∈ l1 \/ exists k, T1 !! k = Some p) ->
  (forall va, 0 <= va < MAXVA -> pte_at (ph_mem ph1) T1 va = pte_at (ph_mem ph) T va) ->
  (forall x, (forall k p, T1 !! k = Some p -> ~ within p PGSIZE x) ->
     (forall p, p ∈ l -> ~ within p PGSIZE x) -> load8 (ph_mem ph1) x = load8 (ph_mem ph) x) ->
  region ly root m0 T0 l0 a c ph1 T1 l1 vs.
Proof.
  intros [R1 R2 R3 R4 R5 R6 R7 R8 R9 R10 R11 R12] Hvm1 HTT HT1 Hl1 Hall1 Hpte Hout.
  assert (Hvs1 : forall kk p, T1 !! kk = Some p -> p ∉ PTE2PA <$> vs).
  { intros kk p [Hk|Hk]%HT1; [by eapply R7|]. intros Hp. by apply (R6 p Hp). }
  split; try done.
  - by etrans.
  - intros kk p [Hk|Hk]%HT1; auto.
  - auto.
  - intros p Hp. destruct (R6 p Hp) as (A & B & C). split_and!; auto.
  - intros va Hva. by rewrite Hpte, R9.
  - intros i v x Hi Hx.
    assert (Hv : PTE2PA v ∈ PTE2PA <$> vs)
      by (apply list_elem_of_fmap_2; by eapply list_elem_of_lookup_2).
    destruct (R6 _ Hv) as (A & B & C).
    rewrite Hout; [by apply R10| |].
    + intros kk p Hk. apply (page_disjoint (PTE2PA v) p); [apply A| | |unfold PGSIZE; lia].
      * eapply pt_page; [by apply (vm_pt _ _ _ _ _ Hvm1)|done].
      * intros <-. by eapply Hvs1.
    + intros p Hp. apply (page_disjoint (PTE2PA v) p); [apply A| |by intros <-|unfold PGSIZE; lia].
      eapply (Forall_forall (page_ok ly) l); [apply R1|done].
  - intros x Hx Hl. rewrite Hout by auto. apply R11; [|done].
    intros kk p Hk. apply (Hx kk). by eapply lookup_weaken.
  - intros p Hp. destruct (R12 p Hp) as [Hq|[Hq|[kk Hk]]].
    + apply Hall1 in Hq. tauto.
    + tauto.
    + right. right. exists kk. by eapply lookup_weaken.
Qed.

Lemma add_page_wp s T l vs :
  kctx s -> region (k_layout s) root m0 T0 l0 a c (k_phys s) T l vs ->
  a mod 4096 = 0 -> 0 <= a -> a + 4096 * Z.of_nat (length vs) < MAXVA ->
  0 <= perm < 1024 -> Z.land perm 14 <> 0 ->
  (forall va, a <= va < a + 4096 * (Z.of_nat (length vs) + 1) -> pte_at m0 T0 va = None) ->
  (forall p m x, ~ within p PGSIZE x -> load8 (fill p m) x = load8 m x) ->
  (forall p m x, p ∈ l0 ->
     (forall x, ~ within p PGSIZE x -> load8 m x = load8 (ph_mem (k_phys s)) x) ->
     0 <= x < 4096 -> load8 (fill p m) (p + x) = c (length vs) x) ->
  (forall ph' T' l', region (k_layout s) root m0 T0 l0 a c ph' T' l' vs -> (length l' <= 1)%nat ->
     wp fail e (set_phys ph' s) Q) ->
  (forall ph' T' l' pg, region (k_layout s) root m0 T0 l0 a c ph' T' l' (vs ++ [mkleaf pg perm]) ->
     wp k e (set_phys ph' s) Q) ->
  wp (add_page root (a + 4096 * Z.of_nat (length vs)) perm fill fail k) e s Q.
Proof.
  intros Hc Hrg Ha Ha0 Hmax Hperm Hp14 Hun Hfo Hfc Hfail Hk. unfold add_page.
  apply wp_bind. eapply kalloc_vm_wp; [done|apply Hrg| |].
  2:{ intros ->. simpl. replace s with (set_phys (k_phys s) s) by (by destruct s).
      eapply Hfail; [exact Hrg|simpl; lia]. }
  intros pg l1 ph1 -> Hpg Hni HT Hvm1 Hpte1 Hout1.
  pose proof (page_ok_range _ _ (proj2 (proj2 Hc)) Hpg) as [Hpr Hpa].
  replace (pg =? 0) with false by lia.
  apply wp_seq. unfold setmem. apply wp_modk. simpl.
  set (m2 := fill pg (ph_mem ph1)).
  destruct (page_write_frame (k_layout s) ph1 root T l1 pg m2 Hvm1 Hpg HT Hni) as [Hvm2 Hpte2].
  { intros x Hx. by apply Hfo. }
  assert (Hout2 : forall x, ~ within pg PGSIZE x -> load8 m2 x = load8 (ph_mem (k_phys s)) x).
  { intros x Hx. unfold m2. rewrite Hfo by done. by apply Hout1. }
  assert (Hpte2' : forall va, pte_at m2 T va = pte_at (ph_mem (k_phys s)) T va)
    by (intros; by rewrite Hpte2).
  set (b := a + 4096 * Z.of_nat (length vs)).
  assert (Hb : b mod 4096 = 0) by (subst b; Z.div_mod_to_equations; lia).
  assert (Hbd : b / 4096 * 4096 = b) by (Z.div_mod_to_equations; lia).
  assert (Hn : (b + PGSIZE - 1) / 4096 - b / 4096 = 0) by (unfold PGSIZE; Z.div_mod_to_equations; lia).
  apply wp_bind. change MAXVA with (67108864 * 4096) in Hmax.
  eapply (mappages_wp b PGSIZE pg perm e _ root T l1);
    [exact Hc|exact Hvm2|lia|done|change MAXVA with (67108864 * 4096); unfold PGSIZE; Z.div_mod_to_equations; lia
    |done|lia|unfold PGSIZE; pose proof (proj2 Hpg); change PHYSTOP with 2281701376 in *; lia|done| |].
  - rewrite Hn, Hbd. simpl. intros x Hx Hx'. rewrite Hpte2', (rg_map _ _ _ _ _ _ _ _ _ _ _ Hrg) by lia.
    replace (_ && _) with false by lia. apply Hun. lia.
  - rewrite Hn, Hbd. simpl. intros r ph' T' l' kk Hvm' [G1 G2 [new G3] G4 G5] Hre Hr.
    destruct Hr as [[-> ->]|(-> & Hkk & ->)]; simpl.
    + eapply Hk. eapply region_snoc with (m2 := m2); try done.
      * apply Hc.
      * set_solver.
      * intros p Hp. subst l1. split; [set_solver|]. intros ->. apply Hni. set_solver.
      * intros k' p [?|Hp]%G2; [by left|right]. split; [set_solver|]. by intros ->.
      * intros p [->|Hp]%elem_of_cons; [by left|right]. by apply G5.
      * intros x Hx. apply Hfc; [|done|done].
        apply (rg_l _ _ _ _ _ _ _ _ _ _ _ Hrg). set_solver.
    + assert (kk = 0) as -> by lia. apply wp_seq.
      assert (HTpg : forall k' p, T' !! k' = Some p -> p <> pg).
      { intros k' p [?|Hp]%G2; [by eapply HT|]. by intros ->. }
      eapply kfree_vm_wp; [exact Hc|exact Hvm'|done|set_solver|done|].
      simpl. intros m4 Hvm4 Hout4 Hpte4.
      eapply (Hfail (Phys m4 pg) T' [pg]); [|simpl; lia].
      eapply region_shrink; [exact Hrg|done|done| | | | |].
      * intros k' p [?|Hp]%G2; [by left|right]. set_solver.
      * intros p ->%list_elem_of_singleton. set_solver.
      * intros p [->|Hp]%elem_of_cons; [left; set_solver|].
        apply G5 in Hp as [?%elem_of_nil|?]; [done|by right].
      * intros va Hva. simpl. rewrite Hpte4, (Hre va Hva), Hpte2'.
        destruct (_ && _) eqn:E; [lia|done].
      * intros x Hx Hl. simpl. rewrite Hout4 by (apply Hl; set_solver). rewrite G4 by done.
        apply Hout2. apply Hl. set_solver.
Qed.

End add_page.

(** ** uvmalloc and uvmdealloc *)

(** The number of the first page past [sz]. *)
Abbreviation npages sz := ((sz + 4095) / 4096).

Lemma PGROUNDUP_npages sz : 0 <= sz <= MAXVA -> PGROUNDUP sz = npages sz * 4096.
Proof.
  change MAXVA with 274877906944. intros. apply PGROUNDUP_eq. unfold PGSIZE. lia.
Qed.

Lemma uvmdealloc_run root old new e s :
  0 <= new < old -> old <= MAXVA ->
  uvmdealloc root old new e s =
  ((if npages new <? npages old
    then uvmunmap root (npages new * 4096) (npages old - npages new) true else mret tt) ;;
   mret new) e s.
Proof.
  intros H Hm. unfold uvmdealloc. replace (old <=? new) with false by lia.
  rewrite !PGROUNDUP_npages by lia. unfold when.
  replace (npages new * 4096 <? npages old * 4096) with (npages new <? npages old) by lia.
  replace ((npages old * 4096 - npages new * 4096) / PGSIZE) with (npages old - npages new)
    by (unfold PGSIZE; replace (npages old * 4096 - npages new * 4096)
          with ((npages old - npages new) * 4096) by lia; by rewrite Z.div_mul).
  rewrite i32_small; [done|]. change MAXVA with 274877906944 in Hm. unfold PGSIZE in *.
  Z.div_mod_to_equations; lia.
Qed.

(** Backing out of a region that starts at a page boundary. *)
Lemma uvmdealloc_undo_wp ly root m0 T0 l0 a c l vs e s T (Q : Z -> env -> kst -> Prop) :
  k_layout s = ly -> kctx s -> region ly root m0 T0 l0 a c (k_phys s) T l vs ->
  a mod 4096 = 0 -> 0 <= a -> a + 4096 * Z.of_nat (length vs) <= MAXVA ->
  (forall va, a <= va < a + 4096 * Z.of_nat (length vs) -> pte_at m0 T0 va = None) ->
  (forall ph', vm_ok ly ph' root T (rev (PTE2PA <$> vs) ++ l) ->
     (forall va, 0 <= va < MAXVA -> pte_at (ph_mem ph') T va = pte_at m0 T0 va) ->
     (forall x, (forall k p, T !! k = Some p -> ~ within p PGSIZE x) ->
        (forall p, p ∈ l0 -> ~ within p PGSIZE x) -> load8 (ph_mem ph') x = load8 m0 x) ->
     Q a e (set_phys ph' s)) ->
  wp (uvmdealloc root (a + 4096 * Z.of_nat (length vs)) a) e s Q.
Proof.
  intros Hly Hc Hrg Ha Ha0 Hmax Hun HQ.
  destruct vs as [|v vs'] eqn:Evs.
  - change (Z.of_nat (length [])) with 0. rewrite Z.mul_0_r, Z.add_0_r.
    unfold uvmdealloc. rewrite Z.leb_refl. apply wp_ret.
    replace s with (set_phys (k_phys s) s) by (by destruct s).
    destruct Hrg as [R1 _ _ _ _ _ _ _ R9 _ R11 _]. apply HQ; [done| |done].
    intros va Hva. rewrite (R9 va Hva). change (Z.of_nat (length [])) with 0.
    destruct (_ && _) eqn:E; [lia|done].
  - rewrite <- Evs in *. assert (0 < Z.of_nat (length vs)) by (subst vs; simpl; lia).
    unfold wp. rewrite uvmdealloc_run by lia.
    replace (npages (a + 4096 * Z.of_nat (length vs))) with (a / 4096 + Z.of_nat (length vs))
      by (Z.div_mod_to_equations; lia).
    replace (npages a) with (a / 4096) by (Z.div_mod_to_equations; lia).
    replace (a / 4096 <? _) with true by lia.
    replace (a / 4096 * 4096) with a by (Z.div_mod_to_equations; lia).
    replace (a / 4096 + Z.of_nat (length vs) - a / 4096) with (Z.of_nat (length vs)) by lia.
    apply wp_seq. eapply region_undo_wp; [done..|].
    intros ph' A B C. by apply wp_ret, HQ.
Qed.

(** What a failed allocation leaves: the translation and the memory of the
    start, with at most [n] pages free besides the tables. *)
Record undone (ly : layout) (root : Z) (m0 : mem) (T0 : ptree) (l0 : list Z) (n : Z)
    (ph : phys) (T : ptree) (l : list Z) : Prop := {
  ud_vm : vm_ok ly ph root T l;
  ud_sub : T0 ⊆ T;
  ud_new : forall k p, T !! k = Some p -> T0 !! k = Some p \/ p ∈ l0;
  ud_l : forall p, p ∈ l -> p ∈ l0;
  ud_map : forall va, 0 <= va < MAXVA -> pte_at (ph_mem ph) T va = pte_at m0 T0 va;
  ud_out : forall x, (forall k p, T !! k = Some p -> ~ within p PGSIZE x) ->
    (forall p, p ∈ l0 -> ~ within p PGSIZE x) -> load8 (ph_mem ph) x = load8 m0 x;
  ud_all : forall p, p ∈ l0 -> p ∈ l \/ exists k, T !! k = Some p;
  ud_oom : Z.of_nat (length l) <= n }.

Lemma region_undone ly root m0 T0 l0 a c ph T l vs n ph' :
  region ly root m0 T0 l0 a c ph T l vs -> (length l <= 1)%nat -> Z.of_nat (length vs) < n ->
  vm_ok ly ph' root T (rev (PTE2PA <$> vs) ++ l) ->
  (forall va, 0 <= va < MAXVA -> pte_at (ph_mem ph') T va = pte_at m0 T0 va) ->
  (forall x, (forall k p, T !! k = Some p -> ~ within p PGSIZE x) ->
     (forall p, p ∈ l0 -> ~ within p PGSIZE x) -> load8 (ph_mem ph') x = load8 m0 x) ->
  undone ly root m0 T0 l0 n ph' T (rev (PTE2PA <$> vs) ++ l).
Proof.
  intros [R1 R2 R3 R4 R5 R6 R7 R8 R9 R10 R11 R12] Hl Hn A B C. split; try done.
  - intros p [Hp|Hp]%elem_of_app; [|auto]. apply R6.
    apply list_elem_of_In, in_rev, list_elem_of_In, Hp.
  - intros p Hp. rewrite elem_of_app, list_elem_of_In, <- in_rev, <- list_elem_of_In.
    destruct (R12 p Hp) as [?|[?|?]]; auto.
  - rewrite length_app, length_rev, length_map. lia.
Qed.

Lemma uvmalloc_loop_wp fuel root m0 T0 l0 b new xperm e s T l vs (Q : Z -> env -> kst -> Prop) :
  let perm := Z.lor (Z.lor PTE_R PTE_U) xperm in
  let a := b * 4096 in
  let n := npages new - b in
  kctx s -> region (k_layout s) root m0 T0 l0 a (fun _ _ => 0) (k_phys s) T l vs ->
  0 <= b -> new <= MAXVA -> 0 <= n -> 0 <= xperm < 1024 ->
  Z.of_nat (length vs) <= n < Z.of_nat (length vs + fuel) ->
  Forall (fun v => exists p, v = mkleaf p perm) vs ->
  (forall va, a <= va < npages new * 4096 -> pte_at m0 T0 va = None) ->
  (forall ph' T' l' vs', region (k_layout s) root m0 T0 l0 a (fun _ _ => 0) ph' T' l' vs' ->
     Z.of_nat (length vs') = n ->
     Forall (fun v => exists p, v = mkleaf p perm) vs' ->
     Q new e (set_phys ph' s)) ->
  (forall ph' T' l', undone (k_layout s) root m0 T0 l0 n ph' T' l' -> Q 0 e (set_phys ph' s)) ->
  wp (uvmalloc_loop fuel root a (a + 4096 * Z.of_nat (length vs)) new xperm) e s Q.
Proof.
  intros perm a n. revert s T l vs. induction fuel as [|fuel IH];
    intros s T l vs Hc Hrg Hb Hnew Hn Hx Hlen Hvs Hun HQ HQ0; [lia|].
  change MAXVA with (67108864 * 4096) in Hnew.
  assert (Ha : a mod 4096 = 0) by (apply Z.mod_mul; lia).
  assert (Hpn : npages new <= 67108864) by (Z.div_mod_to_equations; lia).
  cbn [uvmalloc_loop]. destruct (Z.ltb_spec (a + 4096 * Z.of_nat (length vs)) new) as [Hlt|Hge].
  2:{ apply wp_ret. replace s with (set_phys (k_phys s) s) by (by destruct s).
      eapply HQ; [exact Hrg| |done]. subst a n. Z.div_mod_to_equations; lia. }
  assert (Hk : Z.of_nat (length vs) < n) by (subst a n; Z.div_mod_to_equations; lia).
  eapply (add_page_wp root a perm m0 T0 l0 (fun _ _ => 0)
    (fun pg m => memset m pg 0 (Z.to_nat PGSIZE))); [done|exact Hrg|done|lia| | | | | | | |].
  - change MAXVA with (67108864 * 4096). lia.
  - subst perm. apply (lor_lt_pow2 _ _ 10); [lia|done|lia].
  - subst perm. rewrite !Z.land_lor_distr_l. intros E. apply (f_equal (fun z => Z.testbit z 1)) in E.
    by rewrite !Z.lor_spec in E.
  - intros va Hva. apply Hun. lia.
  - intros p m x Hxx. by rewrite load8_memset_out by (by rewrite Z2Nat.id).
  - intros p m x _ _ Hxx. rewrite load8_memset. rewrite Z2Nat.id by done.
    replace (_ && _) with true by (unfold PGSIZE; lia). done.
  - intros ph' T' l' Hrg' Hl'. apply wp_seq.
    eapply (uvmdealloc_undo_wp (k_layout s)); [done|done|exact Hrg'|done|lia| | |].
    + change MAXVA with (67108864 * 4096). lia.
    + intros va Hva. apply Hun. lia.
    + intros ph2 A B C. apply wp_ret. eapply HQ0. by eapply region_undone.
  - intros ph' T' l' pg Hrg'.
    replace (u64 _) with (a + 4096 * Z.of_nat (length (vs ++ [mkleaf pg perm]))).
    2:{ rewrite length_app. unfold PGSIZE. cbn [length]. rewrite u64_small; lia. }
    eapply (IH (set_phys ph' s)); try done.
    + rewrite length_app. cbn [length]. lia.
    + apply Forall_app. split; [done|]. constructor; [by eexists|constructor].
Qed.

(** ** uvmcopy *)

(** The parent's side: entries [vo] of its pages from 0, in a table [To] that
    shares no page with the child's table [T0] or the free list. *)
Record copyable (ly : layout) (m : mem) (rooto : Z) (To T0 : ptree) (l0 vo : list Z) : Prop := {
  co_pt : pt_wf ly m rooto To;
  co_tree : forall k p k' p', To !! k = Some p -> T0 !! k' = Some p' -> p <> p';
  co_free : forall k p, To !! k = Some p -> p ∉ l0;
  co_pte : forall i v, vo !! i = Some v -> pte_at m To (4096 * Z.of_nat i) = Some v;
  co_leaf : Forall (fun v => Z.land (PTE_FLAGS v) 14 <> 0) vo;
  co_page : Forall (fun v => page_ok ly (PTE2PA v)) vo;
  co_page_tree : forall k p, T0 !! k = Some p -> p ∉ PTE2PA <$> vo;
  co_page_free : forall p, p ∈ l0 -> p ∉ PTE2PA <$> vo }.

(** The child's entry for a parent's entry: a page of its own, the same flags. *)
Definition copy_of (v v' : Z) : Prop := exists pg, v' = mkleaf pg (PTE_FLAGS v).

Lemma PTE_FLAGS_range v : 0 <= PTE_FLAGS v < 1024.
Proof.
  unfold PTE_FLAGS. change 0x3FF with (Z.ones 10). rewrite Z.land_ones by lia.
  apply Z.mod_pos_bound. lia.
Qed.

Section uvmcopy.
Context (ly : layout) (rooto root : Z) (m0 : mem) (To T0 : ptree) (l0 vo : list Z).
Context (Hco : copyable ly m0 rooto To T0 l0 vo).

Let c (i : nat) (x : Z) : Z := load8 m0 (PTE2PA (default 0 (vo !! i)) + x).

(** Building the child's table does not touch the parent. *)
Lemma copyable_frame ph T l vs q x :
  region ly root m0 T0 l0 0 c ph T l vs -> page_ok ly q ->
  (forall k p, T0 !! k = Some p -> p <> q) -> q ∉ l0 ->
  Forall (page_ok ly) l0 ->
  within q PGSIZE x -> load8 (ph_mem ph) x = load8 m0 x.
Proof.
  intros Hrg Hq HT Hl Hv Hx. apply (rg_out _ _ _ _ _ _ _ _ _ _ _ Hrg).
  - intros k p Hk. apply (page_disjoint q p); [apply Hq| | |done].
    + eapply pt_page; [apply (rg_vm _ _ _ _ _ _ _ _ _ _ _ Hrg)|done].
    + intros <-. apply (rg_new _ _ _ _ _ _ _ _ _ _ _ Hrg) in Hk as [Hk|Hk]; [|done].
      by apply HT in Hk.
  - intros p Hp. apply (page_disjoint q p); [apply Hq| |by intros <-|done].
    by eapply (Forall_forall (page_ok ly) l0).
Qed.

Lemma uvmcopy_loop_wp fuel sz e s T l vs (Q : Z -> env -> kst -> Prop) :
  k_layout s = ly ->
  kctx s -> region ly root m0 T0 l0 0 c (k_phys s) T l vs -> Forall (page_ok ly) l0 ->
  0 <= sz <= MAXVA -> Z.of_nat (length vo) = npages sz ->
  (length vs <= length vo < length vs + fuel)%nat ->
  Forall2 copy_of (take (length vs) vo) vs ->
  (forall va, 0 <= va < npages sz * 4096 -> pte_at m0 T0 va = None) ->
  (forall ph' T' l' vs', region ly root m0 T0 l0 0 c ph' T' l' vs' ->
     Forall2 copy_of vo vs' -> Q 0 e (set_phys ph' s)) ->
  (forall ph' T' l', undone ly root m0 T0 l0 (npages sz) ph' T' l' -> Q (-1) e (set_phys ph' s)) ->
  wp (uvmcopy_loop fuel rooto root (4096 * Z.of_nat (length vs)) sz) e s Q.
Proof.
  revert s T l vs. induction fuel as [|fuel IH];
    intros s T l vs Hly Hc Hrg Hl0 Hsz Hvo Hlen Hcp Hun HQ HQ0; [lia|].
  change MAXVA with (67108864 * 4096) in Hsz.
  assert (Hpn : npages sz <= 67108864) by (Z.div_mod_to_equations; lia).
  cbn [uvmcopy_loop]. destruct (Z.ltb_spec (4096 * Z.of_nat (length vs)) sz) as [Hlt|Hge].
  2:{ apply wp_ret. replace s with (set_phys (k_phys s) s) by (by destruct s).
      eapply HQ; [exact Hrg|]. assert (length vs = length vo) as E by (Z.div_mod_to_equations; lia).
      rewrite E, firstn_all in Hcp. exact Hcp. }
  assert (Hk : (length vs < length vo)%nat) by (Z.div_mod_to_equations; lia).
  destruct (lookup_lt_is_Some_2 vo (length vs) Hk) as [v Hv].
  set (i := 4096 * Z.of_nat (length vs)) in *.
  assert (Hvin : v ∈ vo) by by eapply list_elem_of_lookup_2.
  assert (HTo : forall k p x, To !! k = Some p -> within p PGSIZE x ->
    load8 (ph_mem (k_phys s)) x = load8 m0 x).
  { intros k p x Hkk Hx. eapply copyable_frame; [exact Hrg| | | |done|exact Hx].
    - eapply pt_page; [apply Hco|done].
    - intros k' p' Hk' ->. by eapply (co_tree _ _ _ _ _ _ _ Hco).
    - by eapply (co_free _ _ _ _ _ _ _ Hco). }
  assert (Hpto : pt_wf ly (ph_mem (k_phys s)) rooto To)
    by (eapply pt_wf_frame; [apply Hco|done]).
  assert (Hpte : pte_at (ph_mem (k_phys s)) To i = Some v).
  { erewrite pte_at_frame; [by apply (co_pte _ _ _ _ _ _ _ Hco)|apply Hco|done]. }
  destruct (pte_at_slot ly (ph_mem (k_phys s)) rooto To i v) as (sl & Esl & Hsl0 & Hld & HV);
    [rewrite <- Hly; apply Hc|done|done|].
  apply wp_bind. eapply wp_run.
  { apply walk_noalloc; [rewrite Hly; exact Hpto|]. change MAXVA with (67108864 * 4096). lia. }
  rewrite Esl. simpl default. replace (sl =? 0) with false by lia.
  apply wp_seq, wp_ret. unfold kload64, getmem. apply wp_bind, wp_bind, wp_gets, wp_ret.
  rewrite Hld, HV. apply wp_seq, wp_ret.
  assert (Hvp : page_ok ly (PTE2PA v)) by exact (Forall_lookup_1 _ _ _ _ (co_page _ _ _ _ _ _ _ Hco) Hv).
  assert (Hmap : PTE2PA v ∈ PTE2PA <$> vo) by by apply list_elem_of_fmap_2.
  assert (Hfr : forall p, p ∈ l0 -> PTE2PA v <> p).
  { intros p Hp <-. by eapply (co_page_free _ _ _ _ _ _ _ Hco). }
  rewrite <- Hly in Hrg. replace i with (0 + 4096 * Z.of_nat (length vs)) by lia.
  eapply (add_page_wp root 0 (PTE_FLAGS v) m0 T0 l0 c
    (fun pg m => memmove m pg (PTE2PA v) (Z.to_nat PGSIZE)));
    [done|exact Hrg|done|lia|change MAXVA with (67108864 * 4096); lia|apply PTE_FLAGS_range| | | | | |].
  - exact (Forall_lookup_1 _ _ _ _ (co_leaf _ _ _ _ _ _ _ Hco) Hv).
  - intros va Hva. apply Hun. lia.
  - intros p m x Hx. rewrite load8_memmove, Z2Nat.id by done.
    destruct (_ && _) eqn:E; [lia|done].
  - intros p m x Hp Hm Hx. rewrite load8_memmove, Z2Nat.id by done.
    replace (_ && _) with true by (unfold PGSIZE; lia).
    replace (PTE2PA v + (p + x - p)) with (PTE2PA v + x) by lia.
    unfold c. rewrite Hv. change (default 0 (Some v)) with v. rewrite Hm.
    + eapply copyable_frame; [rewrite <- Hly; exact Hrg|exact Hvp| | |done|unfold PGSIZE; lia].
      * intros k p' Hk' ->. by eapply (co_page_tree _ _ _ _ _ _ _ Hco).
      * intros Hin. by eapply Hfr.
    + apply (page_disjoint (PTE2PA v) p); [apply Hvp| |by apply Hfr|unfold PGSIZE; lia].
      by eapply (Forall_forall (page_ok ly) l0).
  - intros ph' T' l' Hrg' Hl'. apply wp_seq. subst i.
    replace (_ / PGSIZE) with (Z.of_nat (length vs))
      by (rewrite Z.mul_comm; unfold PGSIZE; by rewrite Z.add_0_l, Z.div_mul).
    eapply (region_undo_wp (k_layout s)); [done|done|exact Hrg'|done|lia| | |].
    + change MAXVA with (67108864 * 4096). lia.
    + intros va Hva. apply Hun. lia.
    + intros ph2 A B C. apply wp_ret. eapply HQ0. rewrite <- Hly. eapply region_undone; [done..|lia|done|done|done].
  - intros ph' T' l' pg Hrg'.
    replace (u64 _) with (4096 * Z.of_nat (length (vs ++ [mkleaf pg (PTE_FLAGS v)]))).
    2:{ rewrite length_app. unfold PGSIZE. cbn [length]. rewrite u64_small; lia. }
    eapply (IH (set_phys ph' s)); try done.
    + by rewrite <- Hly.
    + rewrite length_app. cbn [length]. lia.
    + rewrite length_app, Nat.add_1_r. erewrite take_S_r by done.
      apply Forall2_app; [done|]. constructor; [by eexists|constructor].
Qed.

End uvmcopy.

(** ** freewalk *)

(** The pages of the tables below the entries [ix] of the page [p], in the
    order in which freewalk frees them; [sub] describes a table one level
    down. *)
Fixpoint children (sub : Z -> list Z -> Prop) (m : mem) (p : Z) (ix ps : list Z) : Prop :=
  match ix with
  | [] => ps = []
  | i :: ix =>
    let v := load64 m (p + 8 * i) in
    if flag v PTE_V
    then flag v (Z.lor (Z.lor PTE_R PTE_W) PTE_X) = false /\
      exists ps1 ps2, ps = ps1 ++ ps2 /\ sub (PTE2PA v) ps1 /\ children sub m p ix ps2
    else children sub m p ix ps
  end.

(** A table of [n] levels without leaves at [p], and all its pages. *)
Fixpoint table (n : nat) (m : mem) (p : Z) (ps : list Z) : Prop :=
  match n with
  | O => False
  | S n => exists qs, ps = qs ++ [p] /\ children (table n m) m p pte_indices qs
  end.

Lemma elem_of_pte_indices i : i ∈ pte_indices <-> 0 <= i < 512.
Proof. Transparent pte_indices. unfold pte_indices. rewrite elem_of_seqZ. lia. Qed.

Lemma NoDup_pte_indices : NoDup pte_indices.
Proof. apply NoDup_seqZ. Qed.
#[global] Opaque pte_indices.

Lemma children_frame (sub sub' : Z -> list Z -> Prop) m m' p ix ps :
  (forall i, i ∈ ix -> load64 m' (p + 8 * i) = load64 m (p + 8 * i)) ->
  (forall q qs, qs ⊆ ps -> sub q qs -> sub' q qs) ->
  children sub m p ix ps -> children sub' m' p ix ps.
Proof.
  revert ps. induction ix as [|i ix IH]; intros ps Hld Hsub; [done|]. cbn [children].
  rewrite Hld by set_solver. destruct (flag _ PTE_V).
  - intros (Hf & ps1 & ps2 & -> & H1 & H2). split; [done|]. exists ps1, ps2. split_and!; [done| |].
    + apply Hsub; [set_solver|done].
    + apply IH; [set_solver| |done]. intros q qs Hq. apply Hsub. set_solver.
  - apply IH; [set_solver|done].
Qed.

Lemma table_frame n m m' p ps :
  (forall q x, q ∈ ps -> within q PGSIZE x -> load8 m' x = load8 m x) ->
  table n m p ps -> table n m' p ps.
Proof.
  revert p ps. induction n as [|n IH]; intros p ps Hs; [done|]. cbn [table].
  intros (qs & -> & Hch). exists qs. split; [done|].
  eapply children_frame; [| |exact Hch].
  - intros i Hi%elem_of_pte_indices. apply load64_page_same; [lia|].
    intros x Hx. apply (Hs p); [set_solver|done].
  - intros q qs' Hq. apply IH. intros q' x Hq' Hx. apply (Hs q'); [set_solver|done].
Qed.

Section freewalk.
Context (s0 : kst).
Context (Hc : kctx s0).

(** What freeing the pages [ps] does. *)
Definition pages_freed (ph : phys) (l ps : list Z) (ph' : phys) : Prop :=
  kmem_ok (k_layout s0) ph' (rev ps ++ l) /\
  forall x, (forall p, p ∈ ps -> ~ within p PGSIZE x) -> load8 (ph_mem ph') x = load8 (ph_mem ph) x.

(** The body of freewalk's loop, for tables of [n] levels below. *)
Abbreviation freewalk_body n p := (fun i =>
  pte ← kload64 (p + 8 * i);
  if flag pte PTE_V && negb (flag pte (Z.lor (Z.lor PTE_R PTE_W) PTE_X)) then
    freewalk n (PTE2PA pte) ;;
    kstore64 (p + 8 * i) 0
  else when (flag pte PTE_V) (panic "freewalk: leaf")).

Definition freewalk_spec (n : nat) : Prop :=
  forall p ps ph l e (Q : unit -> env -> kst -> Prop),
  table n (ph_mem ph) p ps -> kmem_ok (k_layout s0) ph l ->
  NoDup (ps ++ l) -> Forall (page_ok (k_layout s0)) ps ->
  (forall ph', pages_freed ph l ps ph' -> Q tt e (set_phys ph' s0)) ->
  wp (freewalk n p) e (set_phys ph s0) Q.

Lemma freewalk_loop_wp n p ix qs ph l e (Q : unit -> env -> kst -> Prop) :
  freewalk_spec n ->
  children (table n (ph_mem ph)) (ph_mem ph) p ix qs ->
  NoDup ix -> (forall i, i ∈ ix -> 0 <= i < 512) ->
  kmem_ok (k_layout s0) ph l -> page_ok (k_layout s0) p ->
  NoDup (qs ++ p :: l) -> Forall (page_ok (k_layout s0)) qs ->
  (forall ph', kmem_ok (k_layout s0) ph' (rev qs ++ l) ->
     (forall x, (forall q, q ∈ qs ++ [p] -> ~ within q PGSIZE x) ->
        load8 (ph_mem ph') x = load8 (ph_mem ph) x) ->
     Q tt e (set_phys ph' s0)) ->
  wp (forK ix (freewalk_body n p)) e (set_phys ph s0) Q.
Proof.
  intros Hspec. revert qs ph l Q.
  induction ix as [|i ix IH]; intros qs ph l Q Hch Hnd Hrange Hkm Hp Hndq Hqs HQ; cbn [forK].
  { simpl in Hch. subst qs. apply wp_ret. by apply HQ. }
  apply NoDup_cons in Hnd as [Hi Hnd].
  unfold kload64, getmem. apply wp_seq, wp_bind, wp_bind, wp_gets, wp_ret. simpl.
  cbn [children] in Hch. destruct (flag _ PTE_V) eqn:EV; cbn [andb].
  2:{ apply wp_ret. eapply IH; [exact Hch|done|set_solver|done..]. }
  destruct Hch as (-> & q1 & q2 & -> & Htab & Hch). cbn [negb].
  rewrite <- (assoc_L (++)) in Hndq.
  pose proof Hndq as (Hnd1 & Hdis1 & Hnd2)%NoDup_app.
  apply Forall_app in Hqs as [Hq1 Hq2].
  apply wp_seq. eapply Hspec; [exact Htab|exact Hkm| |done|].
  { apply NoDup_app. split_and!; [done| |].
    - intros x Hx Hl. apply (Hdis1 x Hx). set_solver.
    - apply NoDup_app in Hnd2 as (_ & _ & [_ ?]%NoDup_cons). done. }
  intros ph1 [Hkm1 Hout1]. unfold kstore64, setmem. apply wp_modk. simpl.
  set (m2 := store64 _ _ _).
  assert (Hpq : p ∉ q1) by (intros Hx; apply (Hdis1 p Hx); set_solver).
  assert (Hpl : p ∉ rev q1 ++ l).
  { apply not_elem_of_app. split.
    - by rewrite list_elem_of_In, <- in_rev, <- list_elem_of_In.
    - apply NoDup_app in Hnd2 as (_ & _ & [? _]%NoDup_cons). done. }
  assert (Hi' : 0 <= i < 512) by (apply Hrange; set_solver).
  assert (Hout2 : forall x, ~ within p PGSIZE x -> load8 m2 x = load8 (ph_mem ph1) x).
  { intros x Hx. apply load8_store64_out. unfold PGSIZE in *. lia. }
  assert (Hpg : forall q x, q ∈ q2 -> within q PGSIZE x -> load8 m2 x = load8 (ph_mem ph) x).
  { intros q x Hq Hx. assert (Hqp : page_ok (k_layout s0) q) by by eapply Forall_forall.
    rewrite Hout2.
    - apply Hout1. intros q' Hq' Hx'.
      eapply (page_disjoint q q'); [apply Hqp| | |exact Hx|exact Hx'].
      + by eapply (Forall_forall (page_ok _) q1).
      + intros <-. apply (Hdis1 q Hq'). set_solver.
    - apply (page_disjoint q p); [apply Hqp|apply Hp| |done].
      intros ->. apply NoDup_app in Hnd2 as (_ & Hd & _). apply (Hd p Hq). set_solver. }
  eapply (IH q2 (Phys m2 (ph_freelist ph1)) (rev q1 ++ l)); [|done|set_solver| |done| |done|].
  - eapply children_frame; [| |exact Hch].
    + intros j Hj. simpl. unfold m2.
      assert (Hj' : 0 <= j < 512) by (apply Hrange; set_solver).
      rewrite load64_store64_ne by (assert (j <> i) by (by intros ->); lia).
      apply load64_page_same; [lia|]. intros x Hx. apply Hout1. intros q' Hq' Hx'.
      eapply (page_disjoint p q'); [apply Hp| | |exact Hx|exact Hx'].
      * by eapply (Forall_forall (page_ok _) q1).
      * by intros <-.
    + intros q qs' Hsub. apply table_frame. intros q' x Hq' Hx. apply (Hpg q'); [set_solver|done].
  - destruct ph1 as [m1 fl1]. eapply kmem_ok_frame; [exact Hkm1|]. simpl. intros q x Hq Hx.
    apply Hout2. apply (page_disjoint q p); [|apply Hp|by intros ->|done].
    by eapply (Forall_forall (page_ok _) (rev q1 ++ l)); [apply Hkm1|].
  - apply NoDup_app in Hnd2 as (H2 & Hd2 & H3).
    apply NoDup_app. split_and!; [done| |].
    + intros x Hx. rewrite elem_of_cons, elem_of_app, list_elem_of_In, <- in_rev, <- list_elem_of_In.
      intros [->|[Hx'|Hx']]; [apply (Hd2 p Hx); set_solver|apply (Hdis1 x Hx'); set_solver|].
      apply (Hd2 x Hx). set_solver.
    + apply NoDup_cons. split; [done|]. apply Hkm1.
  - intros ph' Hkm' Hout'. apply HQ.
    + by rewrite rev_app_distr, <- (assoc_L (++)).
    + intros x Hx. rewrite Hout' by set_solver. simpl. rewrite Hout2 by (apply Hx; set_solver).
      apply Hout1. set_solver.
Qed.

Lemma freewalk_wp n : freewalk_spec n.
Proof.
  induction n as [|n IH]; intros p ps ph l e Q Htab Hkm Hnd Hps HQ; [done|].
  destruct Htab as (qs & -> & Hch). cbn [freewalk].
  rewrite <- (assoc_L (++)) in Hnd. apply Forall_app in Hps as [Hqs [Hp _]%Forall_cons].
  apply wp_seq. eapply freewalk_loop_wp; [exact IH|exact Hch|apply NoDup_pte_indices| |done|done|done|done|].
  { by intros i Hi%elem_of_pte_indices. }
  intros ph1 Hkm1 Hout1.
  assert (Hpl : p ∉ rev qs ++ l).
  { apply NoDup_app in Hnd as (_ & Hd & [Hpl _]%NoDup_cons). apply not_elem_of_app. split; [|done].
    rewrite list_elem_of_In, <- in_rev, <- list_elem_of_In. intros Hx. apply (Hd p Hx). set_solver. }
  eapply (kfree_wp p e (set_phys ph1 s0)); [exact Hc|exact Hkm1|done|done|].
  intros m' Hkm' Hout'. apply HQ. split.
  - by rewrite rev_app_distr.
  - intros x Hx. simpl. rewrite Hout' by (apply Hx; set_solver). by apply Hout1.
Qed.

End freewalk.

(** A table without leaves, as a list of pages. *)
Section pt_table.
Context (ly : layout) (m : mem) (root : Z) (T : ptree).
Context (Hpt : pt_wf ly m root T).
Context (Hnl : forall va, 0 <= va < MAXVA -> pte_at m T va = None).

Definition subtree (k : list Z) (ps : list Z) : Prop :=
  NoDup ps /\ forall q, q ∈ ps <-> exists k', T !! (k ++ k') = Some q.

Lemma pt_children k p n ix :
  T !! k = Some p -> (length k < 2)%nat ->
  (forall i q, T !! (k ++ [i]) = Some q -> exists ps, table n m q ps /\ subtree (k ++ [i]) ps) ->
  NoDup ix -> (forall i, i ∈ ix -> 0 <= i < 512) ->
  exists qs, children (table n m) m p ix qs /\ NoDup qs /\
    forall q, q ∈ qs <-> exists i k', i ∈ ix /\ T !! (k ++ i :: k') = Some q.
Proof.
  intros Hk Hlen Hsub. induction ix as [|i ix IH]; intros Hnd Hr.
  { exists []. split_and!; [done|constructor|]. intros q. split; [by intros ?%elem_of_nil|].
    intros (i & k' & ?%elem_of_nil & _). done. }
  apply NoDup_cons in Hnd as [Hni Hnd]. destruct IH as (qs & Hch & Hndq & Hq); [done|set_solver|].
  assert (Hi : 0 <= i < 512) by (apply Hr; set_solver).
  pose proof (pt_node _ _ _ _ Hpt k p i Hk Hlen Hi) as Hn. cbn [children].
  pose proof (pt_inner _ _ _ _ Hpt k p i Hk Hlen Hi) as Hin.
  destruct (flag _ PTE_V).
  - destruct (Hsub _ _ Hn) as (ps & Htab & Hndp & Hps).
    exists (ps ++ qs). split_and!.
    + by apply Hin.
    + by exists ps, qs.
    + apply NoDup_app. split_and!; [done| |done]. intros q (k1 & H1)%Hps (j & k2 & Hj & H2)%Hq.
      pose proof (pt_inj _ _ _ _ Hpt _ _ _ H1 H2) as E.
      rewrite <- (assoc_L (++)) in E. apply app_inv_head in E. injection E as -> _. done.
    + intros q. rewrite elem_of_app, Hps, Hq. split.
      * intros [(k' & H)|(j & k' & Hj & H)].
        -- exists i, k'. rewrite <- (assoc_L (++)) in H. split; [set_solver|done].
        -- exists j, k'. split; [set_solver|done].
      * intros (j & k' & [->|Hj]%elem_of_cons & H); [left|right; eauto].
        exists k'. by rewrite <- (assoc_L (++)).
  - exists qs. split_and!; [done..|]. intros q. rewrite Hq. split.
    + intros (j & k' & Hj & H). exists j, k'. split; [set_solver|done].
    + intros (j & k' & [->|Hj]%elem_of_cons & H); [|eauto].
      exfalso. assert (HT : T !! (k ++ [i]) = None) by done.
      clear -Hpt H HT. revert H. replace (k ++ i :: k') with ((k ++ [i]) ++ k')
        by (by rewrite <- (assoc_L (++))).
      revert q. induction k' as [|j k' IH] using rev_ind; intros q; [rewrite app_nil_r; congruence|].
      rewrite (assoc_L (++)). intros H. apply (pt_prefix _ _ _ _ Hpt) in H as [[q' H] _].
      by eapply IH.
Qed.

Lemma pt_sub_leaf i2 i1 p : T !! [i2; i1] = Some p -> exists ps, table 1 m p ps /\ subtree [i2; i1] ps.
Proof.
  intros Hp. pose proof (pt_low _ _ _ _ Hpt _ _ _ Hp) as Hlow.
  destruct (pt_prefix _ _ _ _ Hpt [i2] i1 p Hp) as [[p2 Hp2] Hi1].
  destruct (pt_prefix _ _ _ _ Hpt [] i2 p2 Hp2) as [_ Hi2].
  exists [p]. split.
  - exists []. split; [done|].
    assert (H : forall i, i ∈ pte_indices -> flag (load64 m (p + 8 * i)) PTE_V = false).
    { intros i Hi%elem_of_pte_indices.
      destruct (va_join i2 i1 i) as (Hva & E2 & E1 & E0); [lia|done..|].
      specialize (Hnl _ Hva). unfold pte_at, slot in Hnl. rewrite E2, E1, E0, Hp in Hnl. simpl in Hnl.
      by destruct (flag _ PTE_V). }
    induction pte_indices as [|i ix IH]; [done|]. cbn [children].
    rewrite H by set_solver. apply IH. set_solver.
  - split; [apply NoDup_singleton|]. intros q. rewrite list_elem_of_singleton. split.
    + intros ->. exists []. by rewrite app_nil_r.
    + intros (k' & H). pose proof (pt_len _ _ _ _ Hpt _ _ H) as Hl. rewrite length_app in Hl.
      destruct k'; [|simpl in Hl; lia]. rewrite app_nil_r in H. congruence.
Qed.

(** One level up. *)
Lemma pt_sub_node k p n :
  T !! k = Some p -> (length k < 2)%nat ->
  (forall i q, T !! (k ++ [i]) = Some q -> exists ps, table n m q ps /\ subtree (k ++ [i]) ps) ->
  exists ps, table (S n) m p ps /\ subtree k ps.
Proof.
  intros Hk Hlen Hsub.
  destruct (pt_children k p n pte_indices Hk Hlen Hsub NoDup_pte_indices) as (qs & Hch & Hnd & Hq).
  { by intros i Hi%elem_of_pte_indices. }
  exists (qs ++ [p]). split; [by exists qs|]. split.
  - apply NoDup_app. split_and!; [done| |apply NoDup_singleton].
    intros q (i & k' & _ & H)%Hq ->%list_elem_of_singleton.
    pose proof (pt_inj _ _ _ _ Hpt _ _ _ H Hk) as E.
    apply (f_equal length) in E. rewrite length_app in E. simpl in E. lia.
  - intros q. rewrite elem_of_app, Hq, list_elem_of_singleton. split.
    + intros [(i & k' & _ & H)| ->]; [by exists (i :: k')|exists []]. by rewrite app_nil_r.
    + intros ([|i k'] & H); [right; rewrite app_nil_r in H; congruence|left].
      exists i, k'. split; [|done]. apply elem_of_pte_indices.
      revert q H. induction k' as [|j k' IH] using rev_ind; intros q H.
      * by apply (pt_prefix _ _ _ _ Hpt k i q).
      * change (i :: k' ++ [j]) with ((i :: k') ++ [j]) in H. rewrite (assoc_L (++)) in H.
        apply (pt_prefix _ _ _ _ Hpt) in H as [[q' H] _]. by eapply IH.
Qed.

Lemma pt_table : exists ps, table 3 m root ps /\ subtree [] ps.
Proof.
  apply pt_sub_node; [apply Hpt|simpl; lia|]. intros i2 p2 H2.
  apply pt_sub_node; [done|simpl; lia|]. intros i1 p1 H1. by apply pt_sub_leaf.
Qed.

End pt_table.

(** ** What the address-space operations do *)

(** Uvmalloc is all or nothing. When it grows a space whose new pages are
    unmapped, it either returns [newsz] with every new page mapped, with the
    permissions R, U and [xperm], to a zeroed page of its own taken from the
    free list, or it returns 0 with every address translating as before and the
    pages back on the free list, which happens only when no more than the pages
    it needed are left. Memory outside the tables and the free list never
    changes. *)
Theorem uvmalloc_correct root oldsz newsz xperm e s T l :
  let perm := Z.lor (Z.lor PTE_R PTE_U) xperm in
  let m := ph_mem (k_phys s) in
  kctx s -> vm_ok (k_layout s) (k_phys s) root T l ->
  0 <= oldsz <= newsz -> newsz <= MAXVA -> 0 <= xperm < 1024 ->
  (forall va, npages oldsz * 4096 <= va < npages newsz * 4096 -> pte_at m T va = None) ->
  wp (uvmalloc root oldsz newsz xperm) e s (fun r e' s' => exists ph' T' l',
    e' = e /\ s' = set_phys ph' s /\
    ((r = newsz /\ exists vs,
        region (k_layout s) root m T l (npages oldsz * 4096) (fun _ _ => 0) ph' T' l' vs /\
        Z.of_nat (length vs) = npages newsz - npages oldsz /\
        Forall (fun v => exists p, v = mkleaf p perm) vs) \/
     (r = 0 /\ undone (k_layout s) root m T l (npages newsz - npages oldsz) ph' T' l'))).
Proof.
  intros perm m Hc Hvm Hsz Hmax Hx Hun. unfold uvmalloc.
  replace (newsz <? oldsz) with false by lia.
  rewrite PGROUNDUP_npages by lia. unfold PGSIZE.
  assert (Hle : npages oldsz <= npages newsz) by (apply Z.div_le_mono; lia).
  set (a := npages oldsz * 4096) in *. set (fuel := S _).
  replace (uvmalloc_loop fuel root a a newsz xperm)
    with (uvmalloc_loop fuel root a (a + 4096 * Z.of_nat (length (@nil Z))) newsz xperm)
    by (f_equal; change (Z.of_nat (length [])) with 0; lia).
  eapply (uvmalloc_loop_wp fuel root m T l (npages oldsz)); try done.
  - by apply region_init.
  - Z.div_mod_to_equations; lia.
  - lia.
  - subst fuel a. simpl length. change (Z.of_nat 0) with 0. split; [lia|]. Z.div_mod_to_equations; lia.
  - intros ph' T' l' vs' A B C. exists ph', T', l'. split_and!; [done..|]. left. eauto.
  - intros ph' T' l' A. exists ph', T', l'. split_and!; [done..|]. by right.
Qed.

(** Uvmdealloc to a smaller size unmaps exactly the pages between the two
    rounded sizes and puts them on the free list; the rest of the address space
    and all memory outside the tables and the freed pages stay. It returns the
    new size, or the old one when asked to grow. *)
Theorem uvmdealloc_correct root oldsz newsz vs e s T l :
  let m := ph_mem (k_phys s) in
  kctx s -> vm_ok (k_layout s) (k_phys s) root T l ->
  0 <= newsz -> 0 <= oldsz <= MAXVA ->
  Z.of_nat (length vs) = Z.max 0 (npages oldsz - npages newsz) ->
  unmappable (k_layout s) m T l (npages newsz * 4096) vs true ->
  wp (uvmdealloc root oldsz newsz) e s (fun r e' s' => exists ph',
    r = Z.min oldsz newsz /\ e' = e /\ s' = set_phys ph' s /\
    vm_ok (k_layout s) ph' root T (rev (PTE2PA <$> vs) ++ l) /\
    remapped m T (ph_mem ph') T (npages newsz * 4096) (Z.of_nat (length vs)) (fun _ => None) /\
    outside_same2 T (PTE2PA <$> vs) m (ph_mem ph')).
Proof.
  intros m Hc Hvm Hnew Hold Hlen Hum.
  assert (Hnil : (length vs = 0)%nat -> exists ph', Ok tt e s = Ok tt e (set_phys ph' s) /\
    vm_ok (k_layout s) ph' root T (rev (PTE2PA <$> vs) ++ l) /\
    remapped m T (ph_mem ph') T (npages newsz * 4096) (Z.of_nat (length vs)) (fun _ => None) /\
    outside_same2 T (PTE2PA <$> vs) m (ph_mem ph')).
  { intros Hz. destruct vs; [|done]. exists (k_phys s). split_and!; [by destruct s|done| |done].
    intros va Hva. change (Z.of_nat (length [])) with 0. destruct (_ && _) eqn:E; [lia|done]. }
  destruct (Z.leb_spec oldsz newsz) as [Hle|Hlt].
  - unfold uvmdealloc. replace (oldsz <=? newsz) with true by lia. apply wp_ret.
    assert (npages oldsz <= npages newsz) by (apply Z.div_le_mono; lia).
    destruct Hnil as (ph' & [= E] & A & B & C); [lia|]. exists ph'. split_and!; [lia|done..].
  - unfold wp. rewrite uvmdealloc_run by lia.
    destruct (Z.ltb_spec (npages newsz) (npages oldsz)).
    + apply wp_seq. replace (npages oldsz - npages newsz) with (Z.of_nat (length vs)) by lia.
      change MAXVA with (67108864 * 4096) in Hold.
      eapply uvmunmap_wp; [done|exact Hvm|apply Z.mod_mul; lia| | |exact Hum|].
      * Z.div_mod_to_equations; lia.
      * change MAXVA with (67108864 * 4096). Z.div_mod_to_equations; lia.
      * intros ph' A B C. apply wp_ret. exists ph'. split_and!; [lia|done..].
    + apply wp_ret. destruct Hnil as (ph' & [= E] & A & B & C); [lia|].
      exists ph'. split_and!; [lia|done..].
Qed.

(** C31: uvmcopy gives a child whose space is empty a copy of the parent's [sz]
    bytes: on success each page has a page of its own with the parent's flags
    and the parent's bytes; on failure, which needs an exhausted free list, the
    child's translations are as before. The parent's memory and tables, and
    everything else outside the child's tables and the free list, do not
    change. *)
Theorem uvmcopy_correct rooto root sz vo e s To T l :
  let m := ph_mem (k_phys s) in
  kctx s -> vm_ok (k_layout s) (k_phys s) root T l ->
  copyable (k_layout s) m rooto To T l vo ->
  0 <= sz <= MAXVA -> Z.of_nat (length vo) = npages sz ->
  (forall va, 0 <= va < npages sz * 4096 -> pte_at m T va = None) ->
  wp (uvmcopy rooto root sz) e s (fun r e' s' => exists ph' T' l',
    e' = e /\ s' = set_phys ph' s /\
    ((r = 0 /\ exists vs,
        region (k_layout s) root m T l 0
          (fun i x => load8 m (PTE2PA (default 0 (vo !! i)) + x)) ph' T' l' vs /\
        Forall2 copy_of vo vs) \/
     (r = -1 /\ undone (k_layout s) root m T l (npages sz) ph' T' l'))).
Proof.
  intros m Hc Hvm Hco Hsz Hvo Hun. unfold uvmcopy.
  set (fuel := S _).
  replace (uvmcopy_loop fuel rooto root 0 sz)
    with (uvmcopy_loop fuel rooto root (4096 * Z.of_nat (length (@nil Z))) sz) by done.
  eapply (uvmcopy_loop_wp (k_layout s) rooto root m To T l vo Hco fuel); try done.
  - by apply region_init.
  - apply Hvm.
  - subst fuel. simpl length. unfold PGSIZE. replace (sz + 4096 - 1) with (sz + 4095) by lia. lia.
  - intros ph' T' l' vs' A B. exists ph', T', l'. split_and!; [done..|]. left. eauto.
  - intros ph' T' l' A. exists ph', T', l'. split_and!; [done..|]. by right.
Qed.

Lemma uvmfree_wp root sz vs e s T l (Q : unit -> env -> kst -> Prop) :
  let m := ph_mem (k_phys s) in
  kctx s -> vm_ok (k_layout s) (k_phys s) root T l ->
  0 <= sz <= MAXVA -> Z.of_nat (length vs) = npages sz ->
  unmappable (k_layout s) m T l 0 vs true ->
  (forall va, npages sz * 4096 <= va < MAXVA -> pte_at m T va = None) ->
  (forall ph' l', kmem_ok (k_layout s) ph' l' ->
    (forall p, p ∈ l' <-> p ∈ l \/ p ∈ PTE2PA <$> vs \/ exists k, T !! k = Some p) ->
    outside_same2 T (PTE2PA <$> vs) m (ph_mem ph') -> Q tt e (set_phys ph' s)) ->
  wp (uvmfree root sz) e s Q.
Proof.
  intros m Hc Hvm Hsz Hlen Hum Hrest HQ. unfold uvmfree. apply wp_seq.
  assert (Hfree : forall ph1, vm_ok (k_layout s) ph1 root T (rev (PTE2PA <$> vs) ++ l) ->
    (forall va, 0 <= va < MAXVA -> pte_at (ph_mem ph1) T va = None) ->
    outside_same2 T (PTE2PA <$> vs) m (ph_mem ph1) ->
    wp (freewalk 3 root) e (set_phys ph1 s) Q).
  { intros ph1 [Hkm1 Hpt1 Hdis1] Hnl Hout1.
    destruct (pt_table _ _ _ _ Hpt1 Hnl) as (ps & Htab & Hnd & Hps). simpl in Hps.
    eapply (freewalk_wp s Hc 3); [exact Htab|exact Hkm1| | |].
    - apply NoDup_app. split_and!; [done| |apply Hkm1].
      intros p [k Hk]%Hps. by eapply Hdis1.
    - apply Forall_forall. intros p [k Hk]%Hps. by eapply pt_page.
    - intros ph' [Hkm' Hout']. apply (HQ ph' (rev ps ++ rev (PTE2PA <$> vs) ++ l)); [done| |].
      + intros p. rewrite !elem_of_app, !list_elem_of_In, <- !in_rev, <- !list_elem_of_In, Hps. tauto.
      + intros x Hx1 Hx2. rewrite Hout'; [by apply Hout1|]. intros p [k Hk]%Hps. by eapply Hx1. }
  change MAXVA with (67108864 * 4096) in Hsz. unfold when.
  destruct (Z.ltb_spec 0 sz) as [Hpos|Hz].
  - rewrite PGROUNDUP_npages by (change MAXVA with (67108864 * 4096); lia).
    unfold PGSIZE. rewrite Z.div_mul by lia. rewrite <- Hlen.
    assert (Hm : 0 + 4096 * Z.of_nat (length vs) <= MAXVA).
    { change MAXVA with (67108864 * 4096). Z.div_mod_to_equations; lia. }
    eapply uvmunmap_wp; [done|exact Hvm|done|done|exact Hm|exact Hum|].
    intros ph1 Hvm1 Hre1 Hout1. apply Hfree; [done| |done].
    intros va Hva. rewrite Hre1 by done. destruct (_ && _) eqn:E; [done|]. apply Hrest. lia.
  - apply wp_ret. assert (sz = 0) as -> by lia.
    change (npages 0) with 0 in *. destruct vs; [|simpl in Hlen; lia].
    replace s with (set_phys (k_phys s) s) by (by destruct s).
    apply Hfree; [done| |done]. intros va Hva. apply Hrest. lia.
Qed.

(** Uvmfree of a space that maps exactly the pages of its [sz] bytes returns
    every page to the free list: the user's pages and the pages of all three
    levels of the table, each once, and no other memory changes. *)
Theorem uvmfree_correct root sz vs e s T l :
  let m := ph_mem (k_phys s) in
  kctx s -> vm_ok (k_layout s) (k_phys s) root T l ->
  0 <= sz <= MAXVA -> Z.of_nat (length vs) = npages sz ->
  unmappable (k_layout s) m T l 0 vs true ->
  (forall va, npages sz * 4096 <= va < MAXVA -> pte_at m T va = None) ->
  wp (uvmfree root sz) e s (fun _ e' s' => exists ph' l',
    e' = e /\ s' = set_phys ph' s /\ kmem_ok (k_layout s) ph' l' /\
    (forall p, p ∈ l' <-> p ∈ l \/ p ∈ PTE2PA <$> vs \/ exists k, T !! k = Some p) /\
    outside_same2 T (PTE2PA <$> vs) m (ph_mem ph')).
Proof.
  intros m Hc Hvm Hsz Hlen Hum Hrest. eapply uvmfree_wp; [done..|].
  intros ph' l' A B C. by exists ph', l'.
Qed.

(** ** Witnesses *)

Lemma uvmalloc_correct_witness :
  wp (uvmalloc (pgn 1) 4096 8192 PTE_W) [] kst_vm (fun r _ s' =>
    exists T', r = 8192 /\ is_Some (pte_at (ph_mem (k_phys s')) T' 4096) \/
               r = 0 /\ pte_at (ph_mem (k_phys s')) T' 4096 = None).
Proof.
  eapply wp_mono; [eapply (uvmalloc_correct (pgn 1) 4096 8192 PTE_W [] kst_vm T_vm [pgn 5] kctx_vm vm_ok_vm)|].
  1-3: by vm_compute.
  - intros va Hva. change (npages 4096 * 4096) with 4096 in Hva. change (npages 8192 * 4096) with 8192 in Hva.
    change (ph_mem (k_phys kst_vm)) with m_vm.
    rewrite (proj2 vm_ok_vm_pte) by (change MAXVA with (67108864 * 4096); lia).
    by replace (va / 4096 =? 0) with false by (Z.div_mod_to_equations; lia).
  - intros r e' s' (ph' & T' & l' & _ & -> & [(-> & vs & Hrg & Hlen & _)|(-> & Hud)]); exists T'.
    + left. split; [done|]. cbn [k_phys set_phys]. rewrite (rg_map _ _ _ _ _ _ _ _ _ _ _ Hrg) by done.
      change (npages 8192 - npages 4096) with 1 in Hlen. change (npages 4096 * 4096) with 4096.
      rewrite Hlen. apply lookup_lt_is_Some_2. change (Z.to_nat ((4096 - 4096) / 4096)) with 0%nat. lia.
    + right. split; [done|]. cbn [k_phys set_phys]. rewrite (ud_map _ _ _ _ _ _ _ _ _ Hud) by done.
      change (ph_mem (k_phys kst_vm)) with m_vm. by rewrite (proj2 vm_ok_vm_pte).
Defined.

Lemma unmappable_vm :
  unmappable (k_layout kst_vm) m_vm T_vm [pgn 5] 0 [mkleaf (pgn 4) perm_rwu] true.
Proof.
  assert (E : PTE2PA (mkleaf (pgn 4) perm_rwu) = pgn 4) by by vm_compute.
  split.
  - intros i v Hi. apply list_lookup_singleton_Some in Hi as [-> <-].
    by rewrite (proj2 vm_ok_vm_pte).
  - constructor; [by vm_compute|constructor].
  - intros _. constructor; [rewrite E; by apply pgn_ok|constructor].
  - intros _. constructor; [|constructor]. rewrite E, list_elem_of_singleton. by vm_compute.
  - intros _. apply NoDup_singleton.
  - intros _ k p Hk%T_vm_pages. cbn [fmap list_fmap]. rewrite E, list_elem_of_singleton.
    unfold pgn, PGSIZE in *. lia.
Qed.

Lemma uvmdealloc_correct_witness :
  wp (uvmdealloc (pgn 1) 4096 0) [] kst_vm (fun r _ s' =>
    r = 0 /\ pte_at (ph_mem (k_phys s')) T_vm 0 = None).
Proof.
  eapply wp_mono; [exact (uvmdealloc_correct (pgn 1) 4096 0 [mkleaf (pgn 4) perm_rwu] [] kst_vm T_vm
    [pgn 5] kctx_vm vm_ok_vm ltac:(lia) ltac:(by vm_compute) eq_refl unmappable_vm)|].
  intros r e' s' (ph' & -> & _ & -> & _ & Hre & _). split; [done|].
  cbn [k_phys set_phys]. by rewrite Hre.
Defined.

Lemma uvmfree_correct_witness :
  wp (uvmfree (pgn 1) 4096) [] kst_vm (fun _ _ s' => exists l',
    kmem_ok (k_layout kst_vm) (k_phys s') l' /\ pgn 1 ∈ l' /\ pgn 4 ∈ l').
Proof.
  eapply wp_mono; [refine (uvmfree_correct (pgn 1) 4096 [mkleaf (pgn 4) perm_rwu] [] kst_vm T_vm
    [pgn 5] kctx_vm vm_ok_vm ltac:(by vm_compute) eq_refl unmappable_vm _)|].
  - intros va Hva. change (npages 4096 * 4096) with 4096 in Hva.
    change (ph_mem (k_phys kst_vm)) with m_vm. rewrite (proj2 vm_ok_vm_pte) by lia.
    by replace (va / 4096 =? 0) with false by (Z.div_mod_to_equations; lia).
  - intros r e' s' (ph' & l' & _ & -> & Hkm & Hin & _). exists l'. split_and!; [exact Hkm| |].
    + apply Hin. right. right. by exists [].
    + apply Hin. right. left. apply list_elem_of_singleton. by vm_compute.
Defined.

(** An empty table for the child in page 6. *)
Lemma vm_ok_child : vm_ok (k_layout kst_vm) (k_phys kst_vm) (pgn 6) {[ [] := pgn 6 ]} [pgn 5].
Proof.
  split; [apply vm_ok_vm| |].
  - apply pt_wf_empty; [by apply pgn_ok|]. intros x Hx. change (ph_mem (k_phys kst_vm)) with m_vm.
    unfold m_vm, m_vm2. rewrite !load8_store64_out; [apply load8_m_vm0|..];
      pose proof (PX_range 0 0); unfold pgn, PGSIZE in *; lia.
  - intros k p [<- <-]%lookup_singleton_Some. rewrite list_elem_of_singleton. by vm_compute.
Qed.

Lemma copyable_vm :
  copyable (k_layout kst_vm) m_vm (pgn 1) T_vm {[ [] := pgn 6 ]} [pgn 5] [mkleaf (pgn 4) perm_rwu].
Proof.
  assert (E : PTE2PA (mkleaf (pgn 4) perm_rwu) = pgn 4) by by vm_compute.
  split.
  - apply vm_ok_vm.
  - intros k p k' p' Hk%T_vm_pages [_ <-]%lookup_singleton_Some. unfold pgn, PGSIZE in *. lia.
  - intros k p Hk%T_vm_pages. rewrite list_elem_of_singleton. unfold pgn, PGSIZE in *. lia.
  - intros i v Hi. apply list_lookup_singleton_Some in Hi as [-> <-].
    by rewrite (proj2 vm_ok_vm_pte).
  - constructor; [by vm_compute|constructor].
  - constructor; [rewrite E; by apply pgn_ok|constructor].
  - intros k p [_ <-]%lookup_singleton_Some. cbn [fmap list_fmap].
    rewrite E, list_elem_of_singleton. by vm_compute.
  - intros p ->%list_elem_of_singleton. cbn [fmap list_fmap].
    rewrite E, list_elem_of_singleton. by vm_compute.
Qed.

Lemma uvmcopy_correct_witness :
  wp (uvmcopy (pgn 1) (pgn 6) 4096) [] kst_vm (fun r _ _ => r = 0 \/ r = -1).
Proof.
  eapply wp_mono; [refine (uvmcopy_correct (pgn 1) (pgn 6) 4096 [mkleaf (pgn 4) perm_rwu] [] kst_vm T_vm
    {[ [] := pgn 6 ]} [pgn 5] kctx_vm vm_ok_child copyable_vm ltac:(by vm_compute) eq_refl _)|].
  - intros va Hva. apply pte_at_empty.
  - intros r e' s' (ph' & T' & l' & _ & _ & [[-> _]|[-> _]]); [by left|by right].
Defined.
