(* ===== verification/Proc.v ===== *)
(** proc.c: the process table and the scheduler's interface. Processes are
    indices into the table. Fork, exit and userinit, which also use the file
    system, are in a later file. *)

From S2P Require Import Prelude Machine KState Spinlock KString Kalloc Vm.

(** ** Access to the table *)

Definition get_proc (i : nat) : K proc := ps ← gets k_ps; deref (ps_procs ps !! i).
Definition upd_proc (i : nat) (f : proc -> proc) : K unit :=
  p ← get_proc i;
  modk (fun s => set_ps (ps_set_procs (<[i := f p]> (ps_procs (k_ps s))) (k_ps s)) s).

(** The pointers [proc], ..., [&proc[NPROC-1]]. *)
Definition all_procs : list nat := seq 0 NPROC.
#[global] Opaque all_procs.

Definition procinit : K unit :=
  initlock L_pid "nextpid" ;;
  initlock L_wait "wait_lock" ;;
  forK all_procs (fun i =>
    initlock (L_proc i) "proc" ;;
    upd_proc i (p_set_state UNUSED) ;;
    upd_proc i (p_set_kstack (KSTACK (Z.of_nat i)))).

Definition myproc : K (option nat) :=
  push_off ;;
  c ← mycpu;
  x ← get_cpu c;
  pop_off ;;
  mret (c_proc x).

(** [myproc()] where the code goes on to dereference it. *)
Definition curproc : K nat := p ← myproc; deref p.

Definition allocpid : K Z :=
  acquire L_pid ;;
  pid ← gets (fun s => ps_nextpid (k_ps s));
  modk (fun s => set_ps (ps_set_nextpid (i32 (pid + 1)) (k_ps s)) s) ;;
  release L_pid ;;
  mret pid.

(** ** Page tables of processes *)

Definition proc_pagetable (i : nat) : K Z :=
  pagetable ← uvmcreate;
  if pagetable =? 0 then mret 0
  else
    ly ← gets k_layout;
    r ← mappages pagetable TRAMPOLINE PGSIZE (ld_trampoline ly) (Z.lor PTE_R PTE_X);
    if r <? 0 then uvmfree pagetable 0 ;; mret 0
    else
      p ← get_proc i;
      r ← mappages pagetable TRAPFRAME PGSIZE (p_trapframe p) (Z.lor PTE_R PTE_W);
      if r <? 0 then
        uvmunmap pagetable TRAMPOLINE 1 false ;;
        uvmfree pagetable 0 ;;
        mret 0
      else mret pagetable.

Definition proc_freepagetable (pagetable sz : Z) : K unit :=
  uvmunmap pagetable TRAMPOLINE 1 false ;;
  uvmunmap pagetable TRAPFRAME 1 false ;;
  uvmfree pagetable sz.

(** ** Allocation of processes *)

Definition freeproc (i : nat) : K unit :=
  p ← get_proc i;
  when (negb (p_trapframe p =? 0)) (kfree (p_trapframe p)) ;;
  upd_proc i (p_set_trapframe 0) ;;
  p ← get_proc i;
  when (negb (p_pagetable p =? 0)) (proc_freepagetable (p_pagetable p) (p_sz p)) ;;
  upd_proc i (p_set_pagetable 0) ;;
  upd_proc i (p_set_sz 0) ;;
  upd_proc i (p_set_pid 0) ;;
  upd_proc i (p_set_parent None) ;;
  upd_proc i (fun p => p_set_name (<[0%nat := 0]> (p_name p)) p) ;;
  upd_proc i (p_set_chan None) ;;
  upd_proc i (p_set_killed 0) ;;
  upd_proc i (p_set_xstate 0) ;;
  upd_proc i (p_set_state UNUSED).

(** The search of allocproc: the first UNUSED process, with its lock held. *)
Fixpoint allocproc_find (l : list nat) : K (option nat) :=
  match l with
  | [] => mret None
  | i :: l =>
    acquire (L_proc i) ;;
    p ← get_proc i;
    if bool_decide (p_state p = UNUSED) then mret (Some i)
    else release (L_proc i) ;; allocproc_find l
  end.

Definition allocproc : K (option nat) :=
  found ← allocproc_find all_procs;
  match found with
  | None => mret None
  | Some i =>
    pid ← allocpid;
    upd_proc i (p_set_pid pid) ;;
    upd_proc i (p_set_state USED) ;;
    tf ← kalloc;
    upd_proc i (p_set_trapframe tf) ;;
    if tf =? 0 then freeproc i ;; release (L_proc i) ;; mret None
    else
      pt ← proc_pagetable i;
      upd_proc i (p_set_pagetable pt) ;;
      if pt =? 0 then freeproc i ;; release (L_proc i) ;; mret None
      else
        ly ← gets k_layout;
        upd_proc i (fun p => p_set_context
          (Context_ (ld_forkret ly) (u64 (p_kstack p + PGSIZE)) (replicate 12 0)) p) ;;
        mret (Some i)
  end.

Definition growproc (n : Z) : K Z :=
  i ← curproc;
  p ← get_proc i;
  let sz := p_sz p in
  if 0 <? n then
    sz ← uvmalloc (p_pagetable p) sz (u64 (sz + n)) PTE_W;
    if sz =? 0 then mret (-1)
    else upd_proc i (p_set_sz sz) ;; mret 0
  else if n <? 0 then
    sz ← uvmdealloc (p_pagetable p) sz (u64 (sz + n));
    upd_proc i (p_set_sz sz) ;; mret 0
  else upd_proc i (p_set_sz sz) ;; mret 0.

(** ** Switching *)

(** [swtch] away from this thread: everything else runs until the scheduler
    picks it again. *)
Definition swtch : K unit := interfere.

Definition sched : K unit :=
  i ← curproc;
  h ← holding (L_proc i);
  when (negb h) (panic "sched p->lock") ;;
  c ← mycpu;
  x ← get_cpu c;
  when (negb (c_noff x =? 1)) (panic "sched locks") ;;
  p ← get_proc i;
  when (bool_decide (p_state p = RUNNING)) (panic "sched running") ;;
  ie ← intr_get;
  when ie (panic "sched interruptible") ;;
  c ← mycpu;
  x ← get_cpu c;
  swtch ;;
  c ← mycpu;
  upd_cpu c (cpu_set_intena (c_intena x)).

Definition yield : K unit :=
  i ← curproc;
  acquire (L_proc i) ;;
  upd_proc i (p_set_state RUNNABLE) ;;
  sched ;;
  release (L_proc i).

(** One pass of the scheduler's endless loop, on the hart [c]. *)
Definition scheduler_pass (c : nat) : K unit :=
  intr_on ;;
  forK all_procs (fun i =>
    acquire (L_proc i) ;;
    p ← get_proc i;
    (if bool_decide (p_state p = RUNNABLE) then
       upd_proc i (p_set_state RUNNING) ;;
       upd_cpu c (cpu_set_proc (Some i)) ;;
       swtch ;;
       upd_cpu c (cpu_set_proc None)
     else mret tt) ;;
    release (L_proc i)).

(** The first [n] rounds. *)
Definition scheduler (n : nat) : K unit :=
  c ← mycpu;
  upd_cpu c (cpu_set_proc None) ;;
  forK (seq 0 n) (fun _ => scheduler_pass c).

(** ** Sleeping and waking *)

Definition sleep (ch : chan) (lk : lockid) : K unit :=
  i ← curproc;
  acquire (L_proc i) ;;
  release lk ;;
  upd_proc i (p_set_chan (Some ch)) ;;
  upd_proc i (p_set_state SLEEPING) ;;
  sched ;;
  upd_proc i (p_set_chan None) ;;
  release (L_proc i) ;;
  acquire lk.

(** [ch] is [None] for a null pointer. *)
Definition wakeup (ch : option chan) : K unit :=
  forK all_procs (fun i =>
    me ← myproc;
    if bool_decide (me = Some i) then mret tt
    else
      acquire (L_proc i) ;;
      p ← get_proc i;
      (if bool_decide (p_state p = SLEEPING) && bool_decide (p_chan p = ch)
       then upd_proc i (p_set_state RUNNABLE) else mret tt) ;;
      release (L_proc i)).

(** A loop that sleeps in each round: every round uses up interference, so its
    length bounds the rounds. *)
Definition sleeping {A} (f : nat -> K A) : K A := fun e s => f (S (length e)) e s.

Fixpoint kill_loop (l : list nat) (pid : Z) : K Z :=
  match l with
  | [] => mret (-1)
  | i :: l =>
    acquire (L_proc i) ;;
    p ← get_proc i;
    if p_pid p =? pid then
      upd_proc i (p_set_killed 1) ;;
      (if bool_decide (p_state p = SLEEPING) then upd_proc i (p_set_state RUNNABLE) else mret tt) ;;
      release (L_proc i) ;;
      mret 0
    else release (L_proc i) ;; kill_loop l pid
  end.

Definition kill (pid : Z) : K Z := kill_loop all_procs pid.

Definition setkilled (i : nat) : K unit :=
  acquire (L_proc i) ;;
  upd_proc i (p_set_killed 1) ;;
  release (L_proc i).

Definition killed (i : nat) : K Z :=
  acquire (L_proc i) ;;
  p ← get_proc i;
  release (L_proc i) ;;
  mret (p_killed p).

(** ** Exit and wait *)

Definition reparent (p : nat) : K unit :=
  forK all_procs (fun pp =>
    q ← get_proc pp;
    if bool_decide (p_parent q = Some p) then
      initproc ← gets (fun s => ps_initproc (k_ps s));
      upd_proc pp (p_set_parent initproc) ;;
      wakeup (C_proc <$> initproc)
    else mret tt).

(** The scan of wait: [inl] the result to return, [inr] havekids. *)
Fixpoint wait_scan (l : list nat) (p : nat) (addr : Z) (havekids : bool) : K (Z + bool) :=
  match l with
  | [] => mret (inr havekids)
  | pp :: l =>
    q ← get_proc pp;
    if bool_decide (p_parent q = Some p) then
      acquire (L_proc pp) ;;
      q ← get_proc pp;
      if bool_decide (p_state q = ZOMBIE) then
        let pid := p_pid q in
        r ← (if addr =? 0 then mret 0
             else me ← get_proc p;
                  copyout (p_pagetable me) addr (le_bytes 4 (u32 (p_xstate q))));
        if r <? 0 then
          release (L_proc pp) ;;
          release L_wait ;;
          mret (inl (-1))
        else
          freeproc pp ;;
          release (L_proc pp) ;;
          release L_wait ;;
          mret (inl pid)
      else release (L_proc pp) ;; wait_scan l p addr true
    else wait_scan l p addr havekids
  end.

Fixpoint wait_loop (fuel : nat) (p : nat) (addr : Z) : K Z :=
  match fuel with
  | O => nofuel
  | S fuel =>
    r ← wait_scan all_procs p addr false;
    match r with
    | inl pid => mret pid
    | inr havekids =>
      stop ← (if (havekids : bool) then k ← killed p; mret (negb (k =? 0)) else mret true);
      if (stop : bool) then release L_wait ;; mret (-1)
      else sleep (C_proc p) L_wait ;; wait_loop fuel p addr
    end
  end.

Definition wait (addr : Z) : K Z :=
  p ← curproc;
  acquire L_wait ;;
  sleeping (fun fuel => wait_loop fuel p addr).

(** ** Copying to and from either address space *)

(** Where either_copyout writes: a user address, an address in page memory, or
    a local variable of the caller, which then uses the bytes it is given. *)
Inductive dstaddr := D_user (a : Z) | D_kern (a : Z) | D_local.
Inductive srcaddr := S_user (a : Z) | S_kern (a : Z) | S_local (bs : list Z).

Definition dst_add (d : dstaddr) (n : Z) : dstaddr :=
  match d with
  | D_user a => D_user (u64 (a + n))
  | D_kern a => D_kern (u64 (a + n))
  | D_local => D_local
  end.

Definition src_add (d : srcaddr) (n : Z) : srcaddr :=
  match d with
  | S_user a => S_user (u64 (a + n))
  | S_kern a => S_kern (u64 (a + n))
  | S_local bs => S_local (drop (Z.to_nat n) bs)
  end.

Definition either_copyout (dst : dstaddr) (src : list Z) : K Z :=
  me ← myproc;
  match dst with
  | D_user a => i ← deref me; p ← get_proc i; copyout (p_pagetable p) a src
  | D_kern a => setmem (fun m => store_bytes m a src) ;; mret 0
  | D_local => mret 0
  end.

Definition either_copyin (src : srcaddr) (len : Z) : K (Z * list Z) :=
  me ← myproc;
  match src with
  | S_user a => i ← deref me; p ← get_proc i; copyin (p_pagetable p) a len
  | S_kern a => m ← getmem; mret (0, load_bytes m a (Z.to_nat len))
  | S_local bs => mret (0, take (Z.to_nat len) bs)
  end.
