(* ===== verification/ProcSpec.v ===== *)
(** What the process table operations do when no other hart is in the way:
    lookups, wakeup and kill, and the allocation and freeing of processes with
    their trapframe and page table. *)

From S2P Require Import Prelude Machine KState Spinlock KString Kalloc Vm VmSpec VmUser VmSpace Proc.

(** ** Access to the table *)

Lemma get_proc_run i e s p : ps_procs (k_ps s) !! i = Some p -> get_proc i e s = Ok p e s.
Proof. unfold get_proc. krun. by intros ->. Qed.

(** The state with the process table [q]. *)
Definition with_procs (q : list proc) (s : kst) : kst := set_ps (ps_set_procs q (k_ps s)) s.

Lemma upd_proc_run i f e s p :
  ps_procs (k_ps s) !! i = Some p ->
  upd_proc i f e s = Ok tt e (with_procs (<[i := f p]> (ps_procs (k_ps s))) s).
Proof. intros H. unfold upd_proc. by erewrite bind_run by (by apply get_proc_run). Qed.

Lemma with_procs_id s : with_procs (ps_procs (k_ps s)) s = s.
Proof. by destruct s as [? ? ? [] ? ? ? ?]. Qed.

Lemma procs_with_procs q s : ps_procs (k_ps (with_procs q s)) = q.
Proof. done. Qed.

Lemma with_procs_twice q q' s : with_procs q (with_procs q' s) = with_procs q s.
Proof. by destruct s as [? ? ? [] ? ? ? ?]. Qed.

(** [myproc] reads c->proc with interrupts off and leaves no trace. *)
Lemma myproc_run e s c :
  hart_ok (k_hw s) -> h_cpus (k_hw s) !! h_hart (k_hw s) = Some c ->
  myproc e s = Ok (c_proc c) e s.
Proof.
  intros (c' & b & Hc' & Hb & Hn0 & Hn1 & Hn2) Hc. assert (c' = c) as -> by congruence.
  unfold myproc. erewrite bind_run by (by apply push_off_run).
  destruct s as [ly [ht sie cpus lks] ph ps fs vf dv out]; simpl in *.
  assert (Hlt : (ht < length cpus)%nat) by (by eapply lookup_lt_Some).
  assert (Hlt' : (ht < length sie)%nat) by (by eapply lookup_lt_Some).
  unfold mycpu, cpuid, get_cpu. erewrite bind_run by reflexivity. simpl.
  erewrite bind_run by (krun; simpl; rewrite list_lookup_insert_eq by done; reflexivity).
  erewrite bind_run.
  2:{ apply pop_off_run; simpl; [by apply list_lookup_insert_eq|by apply list_lookup_insert_eq|simpl; lia]. }
  simpl. unfold set_hw; simpl. unfold mret, K_ret. f_equal. f_equal. f_equal.
  - replace (c_noff c + 1 =? 1) with (c_noff c =? 0) by lia.
    destruct (Z.eqb_spec (c_noff c) 0) as [E|E]; simpl.
    + destruct b; [rewrite list_insert_insert_eq|]; by apply list_insert_id.
    + rewrite <- Hn2 by lia. by apply list_insert_id.
  - rewrite list_insert_insert_eq. apply list_insert_id. rewrite Hc. f_equal.
    destruct c as [cp cc cn ci]; unfold cpu_set_noff; simpl in *.
    destruct (Z.eqb_spec cn 0) as [->|]; [rewrite Hn1 by done|]; f_equal; lia.
Qed.

(** ** The caller's situation *)

(** A kernel thread runs for [me] (a process, or the scheduler for [None]) and
    no process lock is taken. *)
Record kthread (me : option nat) (s : kst) : Prop := {
  kt_hart : hart_ok (k_hw s);
  kt_cpu : c_proc <$> h_cpus (k_hw s) !! h_hart (k_hw s) = Some me;
  kt_len : length (ps_procs (k_ps s)) = NPROC;
  kt_locks : forall j, (j < NPROC)%nat -> lock_free (L_proc j) (k_hw s) }.

Lemma kthread_myproc me e s : kthread me s -> myproc e s = Ok me e s.
Proof.
  intros [H1 H2 _ _]. apply fmap_Some in H2 as (c & Hc & ->). by apply myproc_run.
Qed.

Lemma kthread_with_procs me s q :
  kthread me s -> length q = NPROC -> kthread me (with_procs q s).
Proof. intros [H1 H2 _ H4] Hq. by split. Qed.

Lemma elem_of_all_procs i : i ∈ all_procs <-> (i < NPROC)%nat.
Proof.
  Transparent all_procs. unfold all_procs. rewrite elem_of_seq. lia.
Qed.

Lemma all_procs_seq : all_procs = seq 0 NPROC.
Proof. done. Qed.
#[global] Opaque all_procs.

(** A loop over the table that does [f] to each process. *)
Lemma forK_procs me (f : nat -> proc -> proc) body e s :
  kthread me s ->
  (forall i q p, kthread me (with_procs q s) -> q !! i = Some p ->
     body i e (with_procs q s) = Ok tt e (with_procs (<[i := f i p]> q) s)) ->
  forK all_procs body e s = Ok tt e (with_procs (imap f (ps_procs (k_ps s))) s).
Proof.
  intros Hk Hbody. set (ps := ps_procs (k_ps s)).
  assert (H : forall n k q, (k + n = NPROC)%nat -> length q = NPROC ->
    (forall j, q !! j = if (j <? k)%nat then f j <$> ps !! j else ps !! j) ->
    forK (seq k n) body e (with_procs q s) = Ok tt e (with_procs (imap f ps) s)).
  { induction n as [|n IH]; intros k q Hkn Hlen Hq; simpl.
    - unfold mret, K_ret. f_equal. f_equal. apply list_eq. intros j.
      rewrite list_lookup_imap, Hq. destruct (Nat.ltb_spec j k); [done|].
      rewrite lookup_ge_None_2; [done|]. unfold ps. rewrite (kt_len _ _ Hk). lia.
    - destruct (lookup_lt_is_Some_2 q k) as [p Hp]; [lia|].
      erewrite bind_run by (apply Hbody; [by apply kthread_with_procs|done]).
      apply IH; [lia|by rewrite length_insert|]. intros j.
      destruct (decide (j = k)) as [->|Hne].
      + rewrite list_lookup_insert_eq by lia. rewrite Hq in Hp.
        rewrite Nat.ltb_irrefl in Hp. rewrite Hp.
        by replace (k <? S k)%nat with true by (symmetry; apply Nat.ltb_lt; lia).
      + rewrite list_lookup_insert_ne, Hq by done.
        replace (j <? S k)%nat with (j <? k)%nat; [done|].
        destruct (Nat.ltb_spec j k), (Nat.ltb_spec j (S k)); try done; lia. }
  rewrite all_procs_seq. rewrite <- (with_procs_id s) at 1. apply H; [done|apply Hk|done].
Qed.

(** A critical section on one process. *)
Lemma locked_proc_run me i (body : proc -> K unit) g e s p :
  kthread me s -> ps_procs (k_ps s) !! i = Some p ->
  (forall e s, ps_procs (k_ps s) !! i = Some p ->
     body p e s = Ok tt e (with_procs (<[i := g p]> (ps_procs (k_ps s))) s)) ->
  (acquire (L_proc i) ;; p ← get_proc i; body p ;; release (L_proc i)) e s =
  Ok tt e (with_procs (<[i := g p]> (ps_procs (k_ps s))) s).
Proof.
  intros Hk Hp Hbody.
  assert (Hi : (i < NPROC)%nat) by (rewrite <- (kt_len _ _ Hk); by eapply lookup_lt_Some).
  erewrite bind_run by (apply acquire_run; [apply Hk|by apply Hk]).
  erewrite bind_run by (by apply get_proc_run).
  erewrite bind_run by (by apply Hbody).
  erewrite release_run; [|apply Hk|by apply (kt_locks _ _ Hk)|done].
  by destruct s.
Qed.

(** ** wakeup *)

Definition wake_one (me : option nat) (ch : option chan) (i : nat) (p : proc) : proc :=
  if bool_decide (me = Some i) then p
  else if bool_decide (p_state p = SLEEPING) && bool_decide (p_chan p = ch)
       then p_set_state RUNNABLE p else p.

(** The state after [wakeup ch]. *)
Definition woken (me : option nat) (ch : option chan) (s : kst) : kst :=
  with_procs (imap (wake_one me ch) (ps_procs (k_ps s))) s.

Lemma wakeup_run me ch e s : kthread me s -> wakeup ch e s = Ok tt e (woken me ch s).
Proof.
  intros Hk. apply (forK_procs me); [done|]. intros i q p Hkq Hq. unfold wake_one.
  erewrite bind_run by (by apply kthread_myproc).
  case_bool_decide as Hme.
  - unfold mret, K_ret. by rewrite (list_insert_id q).
  - rewrite (locked_proc_run me i (fun p => if bool_decide (p_state p = SLEEPING) && bool_decide (p_chan p = ch)
      then upd_proc i (p_set_state RUNNABLE) else mret tt)
      (fun p => if bool_decide (p_state p = SLEEPING) && bool_decide (p_chan p = ch)
         then p_set_state RUNNABLE p else p) e (with_procs q s) p Hkq Hq).
    + by rewrite with_procs_twice.
    + clear Hq. intros e' s' Hp. destruct (_ && _).
      * by apply upd_proc_run.
      * unfold mret, K_ret. by rewrite list_insert_id, with_procs_id.
Qed.

(** Waking changes nothing when nobody sleeps on the channel. *)
Lemma woken_id me ch s :
  (forall i p, ps_procs (k_ps s) !! i = Some p -> p_state p = SLEEPING -> p_chan p <> ch) ->
  woken me ch s = s.
Proof.
  intros H. unfold woken. replace (imap _ _) with (ps_procs (k_ps s)); [apply with_procs_id|].
  apply list_eq. intros i. rewrite list_lookup_imap.
  destruct (ps_procs (k_ps s) !! i) as [p|] eqn:E; [simpl|done]. f_equal. unfold wake_one.
  case_bool_decide; [done|]. destruct (decide (p_state p = SLEEPING)) as [Hs|Hs].
  - rewrite (bool_decide_eq_false_2 (p_chan p = ch)) by (by eapply H). by rewrite andb_false_r.
  - by rewrite bool_decide_eq_false_2.
Qed.

(** Wakeup makes every process that sleeps on the channel RUNNABLE, the
    caller excepted, and changes nothing else: no other field of any process,
    no lock, no interrupt state. *)
Theorem wakeup_correct me ch e s :
  kthread me s ->
  exists q, wakeup ch e s = Ok tt e (with_procs q s) /\
    forall i p, ps_procs (k_ps s) !! i = Some p ->
      (me <> Some i -> p_state p = SLEEPING -> p_chan p = ch -> q !! i = Some (p_set_state RUNNABLE p)) /\
      (me = Some i \/ p_state p <> SLEEPING \/ p_chan p <> ch -> q !! i = Some p).
Proof.
  intros Hk. eexists. split; [by apply wakeup_run|]. intros i p Hp.
  rewrite list_lookup_imap, Hp. simpl. unfold wake_one. split.
  - intros H1 H2 H3. rewrite (bool_decide_eq_false_2 (me = Some i)), !bool_decide_eq_true_2 by done. done.
  - intros H. f_equal. repeat case_bool_decide; simpl; try done; tauto.
Qed.

(** ** kill *)

Definition kill_one (p : proc) : proc :=
  let p' := p_set_killed 1 p in
  if bool_decide (p_state p = SLEEPING) then p_set_state RUNNABLE p' else p'.

Lemma kill_loop_run me l pid e s :
  kthread me s -> (forall i, i ∈ l -> (i < NPROC)%nat) ->
  kill_loop l pid e s =
  match list_find (fun i => (p_pid <$> ps_procs (k_ps s) !! i) = Some pid) l with
  | Some (_, i) => Ok 0 e (with_procs (alter kill_one i (ps_procs (k_ps s))) s)
  | None => Ok (-1) e s
  end.
Proof.
  intros Hk. induction l as [|i l IH]; intros Hl; [done|]. cbn [kill_loop list_find].
  assert (Hi : (i < NPROC)%nat) by (apply Hl; set_solver).
  destruct (lookup_lt_is_Some_2 (ps_procs (k_ps s)) i) as [p Hp]; [by rewrite (kt_len _ _ Hk)|].
  erewrite bind_run by (apply acquire_run; [apply Hk|by apply Hk]).
  erewrite bind_run by (by apply get_proc_run). rewrite Hp. cbn [fmap option_fmap option_map].
  destruct (Z.eqb_spec (p_pid p) pid) as [E|E].
  - rewrite decide_True by congruence.
    erewrite bind_run by (by apply upd_proc_run).
    assert (Halt : alter kill_one i (ps_procs (k_ps s)) = <[i := kill_one p]> (ps_procs (k_ps s)))
      by (by apply list_alter_insert).
    rewrite Halt. unfold kill_one.
    assert (Hlt : (i < length (ps_procs (k_ps s)))%nat) by (by eapply lookup_lt_Some).
    case_bool_decide as Hs.
    + erewrite bind_run by (apply upd_proc_run; simpl; by apply list_lookup_insert_eq).
      rewrite with_procs_twice, procs_with_procs, list_insert_insert_eq.
      erewrite bind_run by (apply release_run; [apply Hk|by apply (kt_locks _ _ Hk)|done]).
      by destruct s.
    + erewrite bind_run by reflexivity.
      erewrite bind_run by (apply release_run; [apply Hk|by apply (kt_locks _ _ Hk)|done]).
      by destruct s.
  - rewrite decide_False by congruence.
    erewrite bind_run by (apply release_run; [apply Hk|by apply (kt_locks _ _ Hk)|done]).
    replace (set_hw (k_hw s) _) with s by (by destruct s).
    rewrite IH by set_solver. destruct (list_find _ l) as [[? ?]|]; done.
Qed.

(** Kill sets the killed flag of the first process of the table with the
    given pid, makes it RUNNABLE if it slept, and returns 0; without such a
    process it returns -1 and changes nothing. *)
Theorem kill_correct me pid e s :
  kthread me s ->
  (forall i p, ps_procs (k_ps s) !! i = Some p -> p_pid p = pid ->
     (forall j q, (j < i)%nat -> ps_procs (k_ps s) !! j = Some q -> p_pid q <> pid) ->
     kill pid e s = Ok 0 e (with_procs (<[i := kill_one p]> (ps_procs (k_ps s))) s)) /\
  ((forall i p, ps_procs (k_ps s) !! i = Some p -> p_pid p <> pid) ->
     kill pid e s = Ok (-1) e s).
Proof.
  intros Hk. unfold kill. erewrite kill_loop_run; [|done|by intros i ?%elem_of_all_procs].
  rewrite all_procs_seq. split.
  - intros i p Hp Hpid Hfirst.
    assert (Hi : (i < NPROC)%nat) by (rewrite <- (kt_len _ _ Hk); by eapply lookup_lt_Some).
    replace (list_find _ _) with (Some (i, i)); [by erewrite list_alter_insert|].
    symmetry. apply list_find_Some. split_and!.
    + by apply lookup_seq.
    + rewrite Hp. simpl. congruence.
    + intros j y [-> Hj]%lookup_seq Hlt. simpl.
      destruct (lookup_lt_is_Some_2 (ps_procs (k_ps s)) j) as [q Hq]; [by rewrite (kt_len _ _ Hk)|].
      rewrite Hq. simpl. intros [= E]. by eapply Hfirst.
  - intros H. replace (list_find _ _) with (@None (nat * nat)); [done|].
    symmetry. apply list_find_None, Forall_forall. intros i Hi E.
    destruct (ps_procs (k_ps s) !! i) as [p|] eqn:Ep; [|done]. simpl in E. injection E as E.
    by eapply H.
Qed.
