(* ===== verification/ProcMem.v ===== *)
(** The memory of a process: its page table with trampoline and trapframe, and
    the allocation and release of a process with all its pages. *)

From S2P Require Import Prelude Machine KState Spinlock KString Kalloc Vm VmSpec VmUser VmSpace Proc ProcSpec.

(** No byte outside the pages [l] differs. *)
Definition same_outside (l : list Z) (m m' : mem) : Prop :=
  forall x, (forall p, p ∈ l -> ~ within p PGSIZE x) -> load8 m' x = load8 m x.

(** The two mappings every process has. *)
Definition kernel_maps (ly : layout) (tf va : Z) : option Z :=
  if va / 4096 =? TRAMPOLINE / 4096 then Some (mkleaf (ld_trampoline ly) (Z.lor PTE_R PTE_X))
  else if va / 4096 =? TRAPFRAME / 4096 then Some (mkleaf tf (Z.lor PTE_R PTE_W))
  else None.

(** A user page table without user memory. *)
Record new_pt (ly : layout) (ph : phys) (root tf : Z) (T : ptree) (l0 l : list Z) : Prop := {
  np_vm : vm_ok ly ph root T l;
  np_new : forall k p, T !! k = Some p -> p ∈ l0;
  np_l : forall p, p ∈ l -> p ∈ l0;
  np_all : forall p, p ∈ l0 -> p ∈ l \/ exists k, T !! k = Some p;
  np_map : forall va, 0 <= va < MAXVA -> pte_at (ph_mem ph) T va = kernel_maps ly tf va }.

Lemma uvmcreate_wp e s l (Q : Z -> env -> kst -> Prop) :
  kctx s -> kmem_ok (k_layout s) (k_phys s) l ->
  (forall p l' ph', l = p :: l' -> p <> 0 ->
     vm_ok (k_layout s) ph' p {[ [] := p ]} l' ->
     same_outside l (ph_mem (k_phys s)) (ph_mem ph') ->
     Q p e (set_phys ph' s)) ->
  (l = [] -> Q 0 e s) ->
  wp uvmcreate e s Q.
Proof.
  intros Hc Hkm HQ HQ0. unfold uvmcreate. apply wp_bind. eapply kalloc_wp; [done|exact Hkm| |].
  2:{ intros ->. simpl. apply wp_ret. auto. }
  intros p l' m' fl' -> Hp Hni Hkm' _ Hout.
  pose proof (page_ok_range _ _ (proj2 (proj2 Hc)) Hp) as [Hpr _].
  replace (p =? 0) with false by lia. apply wp_seq, wp_modk, wp_ret. simpl.
  set (m2 := memset m' p 0 (Z.to_nat PGSIZE)).
  assert (Hout2 : forall x, ~ within p PGSIZE x -> load8 m2 x = load8 m' x).
  { intros x Hx. unfold m2. by rewrite load8_memset_out by (by rewrite Z2Nat.id). }
  apply (HQ p l'); [done|lia| |].
  - split; simpl.
    + eapply kmem_ok_frame; [exact Hkm'|]. intros q x Hq Hx. apply Hout2.
      apply (page_disjoint q p); [|apply Hp|by intros ->|done].
      by eapply (Forall_forall (page_ok _) l'); [apply Hkm'|].
    + apply pt_wf_empty; [done|]. intros x Hx. unfold m2.
      rewrite load8_memset, Z2Nat.id by done. by replace (_ && _) with true by lia.
    + by intros k q [<- <-]%lookup_singleton_Some.
  - intros x Hx. simpl. rewrite Hout2, Hout by (apply Hx; set_solver). done.
Qed.

(** One page mapped or not, by [mappages]. *)
Lemma mappages1_wp va pa perm e s root T l (Q : Z -> env -> kst -> Prop) :
  kctx s -> vm_ok (k_layout s) (k_phys s) root T l ->
  va mod 4096 = 0 -> 0 <= va -> va + 4096 <= MAXVA ->
  pa mod 4096 = 0 -> 0 <= pa < 4294967296 -> 0 <= perm < 1024 ->
  (forall x, va <= x < va + 4096 -> pte_at (ph_mem (k_phys s)) T x = None) ->
  (forall r ph' T' l', vm_ok (k_layout s) ph' root T' l' ->
     vm_grow (ph_mem (k_phys s)) T l (ph_mem ph') T' l' ->
     (forall x, 0 <= x < MAXVA -> pte_at (ph_mem ph') T' x =
        if (r =? 0) && (x / 4096 =? va / 4096) then Some (mkleaf pa perm)
        else pte_at (ph_mem (k_phys s)) T x) ->
     r = 0 \/ (r = -1 /\ l' = []) ->
     Q r e (set_phys ph' s)) ->
  wp (mappages root va PGSIZE pa perm) e s Q.
Proof.
  intros Hc Hvm Ha Ha0 Hmax Hpa Hpar Hperm Hun HQ.
  assert (Hd : va / 4096 * 4096 = va) by (Z.div_mod_to_equations; lia).
  assert (Hn : (va + PGSIZE - 1) / 4096 - va / 4096 = 0) by (unfold PGSIZE; Z.div_mod_to_equations; lia).
  eapply mappages_wp; [exact Hc|exact Hvm|done|done|done|done|lia|unfold PGSIZE; lia|done| |].
  - rewrite Hd, Hn. intros x Hx _. apply Hun. lia.
  - rewrite Hd, Hn. intros r ph' T' l' k Hvm' Hgr Hre Hr. apply (HQ r ph' T' l'); [done|done| |].
    + intros x Hx. rewrite (Hre x Hx). destruct Hr as [[-> ->]|(-> & Hk & _)].
      * simpl. replace (x / 4096 =? va / 4096) with ((va <=? x) && (x <? va + 4096))
          by (Z.div_mod_to_equations; lia).
        destruct (_ && _) eqn:E; [|done]. unfold leaf_for. do 2 f_equal.
        Z.div_mod_to_equations; lia.
      * simpl. assert (k = 0) as -> by lia. destruct (_ && _) eqn:E; [lia|done].
    + destruct Hr as [[-> _]|(-> & _ & ->)]; auto.
Qed.

Section proc_pagetable.
Context (s : kst) (e : env) (i : nat) (p : proc) (l : list Z).
Context (Hc : kctx s) (Hkm : kmem_ok (k_layout s) (k_phys s) l).
Context (Hp : ps_procs (k_ps s) !! i = Some p).
Context (Htf : page_ok (k_layout s) (p_trapframe p)).

(** Giving the table back after a failure. *)
Lemma uvmfree0_wp {A} (k : K A) root T l' ph (Q : A -> env -> kst -> Prop) :
  vm_ok (k_layout s) ph root T l' ->
  (forall k p, T !! k = Some p -> p ∈ l) -> (forall p, p ∈ l' -> p ∈ l) ->
  (forall p, p ∈ l -> p ∈ l' \/ exists k, T !! k = Some p) ->
  (forall va, 0 <= va < MAXVA -> pte_at (ph_mem ph) T va = None) ->
  same_outside l (ph_mem (k_phys s)) (ph_mem ph) ->
  (forall ph' l', kmem_ok (k_layout s) ph' l' -> (forall q, q ∈ l' <-> q ∈ l) ->
     same_outside l (ph_mem (k_phys s)) (ph_mem ph') -> wp k e (set_phys ph' s) Q) ->
  wp (uvmfree root 0 ;; k) e (set_phys ph s) Q.
Proof.
  intros Hvm HT Hl Hall Hnone Hso HQ. apply wp_seq.
  eapply (uvmfree_wp root 0 [] e (set_phys ph s) T l'); [exact Hc|exact Hvm| |done| | |].
  - by change MAXVA with 274877906944.
  - split; try done; try (intros; constructor). intros _ k' p' _ ?%elem_of_nil. done.
  - intros va Hva. apply Hnone. change (npages 0 * 4096) with 0 in Hva. lia.
  - simpl. intros ph' l'' Hkm' Hin Hout. apply (HQ ph' l''); [done| |].
    + intros q. rewrite Hin. split.
      * intros [?|[?%elem_of_nil|[k' ?]]]; eauto. done.
      * intros [?|?]%Hall; auto.
    + intros x Hx. rewrite Hout; [by apply Hso| |by intros ? ?%elem_of_nil].
      intros k' p' Hk'. apply Hx. eauto.
Qed.

Lemma proc_pagetable_wp (Q : Z -> env -> kst -> Prop) :
  (forall root ph' T l', root <> 0 -> new_pt (k_layout s) ph' root (p_trapframe p) T l l' ->
     same_outside l (ph_mem (k_phys s)) (ph_mem ph') -> Q root e (set_phys ph' s)) ->
  (forall ph' l', kmem_ok (k_layout s) ph' l' -> (forall q, q ∈ l' <-> q ∈ l) ->
     same_outside l (ph_mem (k_phys s)) (ph_mem ph') -> Q 0 e (set_phys ph' s)) ->
  wp (proc_pagetable i) e s Q.
Proof.
  intros HQ HQ0. pose proof Hc as (Hh & Hf & Hly).
  pose proof (page_ok_range _ _ Hly Htf) as [Htr Hta].
  unfold proc_pagetable. apply wp_bind. eapply uvmcreate_wp; [done|exact Hkm| |].
  2:{ intros ->. simpl. apply wp_ret. replace s with (set_phys (k_phys s) s) by (by destruct s).
      by apply (HQ0 _ []). }
  intros root l1 ph1 El Hroot Hvm1 Hso1. replace (root =? 0) with false by lia.
  apply wp_bind, wp_gets. simpl. apply wp_bind.
  assert (Htramp : ld_trampoline (k_layout s) mod 4096 = 0 /\ 0 <= ld_trampoline (k_layout s) < 4294967296).
  { destruct Hly as (? & ? & ? & ?). unfold PGSIZE, KERNBASE in *. change PHYSTOP with 2281701376 in *.
    split; [done|lia]. }
  eapply (mappages1_wp TRAMPOLINE _ _ e (set_phys ph1 s) root _ l1);
    [exact Hc|exact Hvm1|done|done|done|apply Htramp|apply Htramp|done|intros; apply pte_at_empty|].
  simpl. intros r1 ph2 T2 l2 Hvm2 [G1 G2 [n1 G3] G4 G5] Hmap2 Hr1.
  assert (HT2 : forall k q, T2 !! k = Some q -> q ∈ l).
  { intros k q [[_ <-]%lookup_singleton_Some|?]%G2; subst l; set_solver. }
  assert (Hl2 : forall q, q ∈ l2 -> q ∈ l) by (intros q Hq; subst l l1; set_solver).
  assert (Hall2 : forall q, q ∈ l -> q ∈ l2 \/ exists k, T2 !! k = Some q).
  { intros q Hq. subst l. apply elem_of_cons in Hq as [->|Hq]; [|by apply G5]. right. exists [].
    eapply lookup_weaken; [|exact G1]. apply lookup_singleton_eq. }
  assert (Hso2 : same_outside l (ph_mem (k_phys s)) (ph_mem ph2)).
  { intros x Hx. rewrite G4; [by apply Hso1|]. intros k q Hk. apply Hx. eauto. }
  destruct Hr1 as [->|[-> ->]]; simpl in Hmap2 |- *.
  2:{ eapply uvmfree0_wp; [exact Hvm2|done|done|done| |done|].
      - intros va Hva. rewrite Hmap2 by done. apply pte_at_empty.
      - intros ph' l' A B C. apply wp_ret. by apply (HQ0 ph' l'). }
  unfold get_proc. apply wp_bind, wp_bind, wp_gets. simpl. rewrite Hp. apply wp_ret, wp_bind.
  eapply (mappages1_wp TRAPFRAME _ _ e (set_phys ph2 s) root _ l2);
    [exact Hc|exact Hvm2|done|done|done|done| |done| |].
  { destruct Htf as [_ [? ?]]. change PHYSTOP with 2281701376 in *. lia. }
  { intros x Hx. simpl. change TRAPFRAME with 274877898752 in Hx.
    rewrite Hmap2 by (change MAXVA with 274877906944; lia).
    change (TRAMPOLINE / 4096) with 67108863.
    replace (x / 4096 =? 67108863) with false by (Z.div_mod_to_equations; lia). apply pte_at_empty. }
  simpl. intros r2 ph3 T3 l3 Hvm3 [D1 D2 [n3 D3] D4 D5] Hmap3 Hr2.
  assert (HT3 : forall k q, T3 !! k = Some q -> q ∈ l).
  { intros k q [?|?]%D2; [eauto|]. apply Hl2. set_solver. }
  assert (Hl3 : forall q, q ∈ l3 -> q ∈ l) by (intros q Hq; apply Hl2; subst l2; set_solver).
  assert (Hall3 : forall q, q ∈ l -> q ∈ l3 \/ exists k, T3 !! k = Some q).
  { intros q [Hq|[k Hk]]%Hall2; [by apply D5|]. right. exists k. by eapply lookup_weaken. }
  assert (Hso3 : same_outside l (ph_mem (k_phys s)) (ph_mem ph3)).
  { intros x Hx. rewrite D4; [by apply Hso2|]. intros k q Hk. apply Hx. eauto. }
  destruct Hr2 as [->|[-> ->]]; simpl in Hmap3 |- *.
  - apply wp_ret. eapply (HQ root ph3 T3 l3); [done| |done]. split; try done.
    intros va Hva. rewrite Hmap3, Hmap2 by done. unfold kernel_maps.
    change (TRAPFRAME / 4096) with 67108862. change (TRAMPOLINE / 4096) with 67108863.
    rewrite pte_at_empty. destruct (Z.eqb_spec (va / 4096) 67108863) as [E|E]; [|done].
    by replace (va / 4096 =? 67108862) with false by lia.
  - apply wp_seq.
    eapply (uvmunmap_wp TRAMPOLINE [mkleaf (ld_trampoline (k_layout s)) (Z.lor PTE_R PTE_X)] false
      e (set_phys ph3 s) root T3 []); [exact Hc|exact Hvm3|done|done|done| |].
    + split; try done.
      * intros j v Hj. apply list_lookup_singleton_Some in Hj as [-> <-]. simpl.
        rewrite Hmap3, Hmap2 by done. done.
      * constructor; [|constructor]. rewrite PTE_FLAGS_mkleaf by (lia || done). done.
    + simpl. intros ph4 Hvm4 Hre4 Hout4.
      eapply (uvmfree0_wp _ root T3 []); [exact Hvm4|done|done|done| | |].
      * intros va Hva. rewrite Hre4, Hmap3, Hmap2, pte_at_empty by done.
        change (TRAMPOLINE / 4096) with 67108863. change TRAMPOLINE with (67108863 * 4096).
        change (Z.of_nat (length [_])) with 1. change (Z.of_nat 1) with 1.
        destruct (_ && _) eqn:E; [done|]. destruct (Z.eqb_spec (va / 4096) 67108863) as [E'|]; [|done].
        change MAXVA with (67108864 * 4096) in Hva. Z.div_mod_to_equations; lia.
      * intros x Hx. rewrite Hout4; [by apply Hso3| |by intros ? ?%elem_of_nil].
        intros k q Hk. apply Hx. eauto.
      * intros ph' l' A B C. apply wp_ret. by apply (HQ0 ph' l').
Qed.

End proc_pagetable.

(** ** Freeing *)

(** The memory of a process of [sz] bytes: the entries [vs] of its pages, then
    nothing but trapframe and trampoline. *)
Record proc_space (ly : layout) (m : mem) (T : ptree) (l : list Z) (tf sz : Z) (vs : list Z) : Prop := {
  sp_sz : 0 <= sz <= TRAPFRAME;
  sp_len : Z.of_nat (length vs) = npages sz;
  sp_user : unmappable ly m T l 0 vs true;
  sp_map : forall va, npages sz * 4096 <= va < MAXVA -> pte_at m T va = kernel_maps ly tf va }.

Lemma unmappable_frame ly m m' T l l' a vs b :
  unmappable ly m T l a vs b ->
  (forall i v, vs !! i = Some v ->
     pte_at m' T (a + 4096 * Z.of_nat i) = pte_at m T (a + 4096 * Z.of_nat i)) ->
  (forall p, p ∈ PTE2PA <$> vs -> p ∉ l -> p ∉ l') ->
  unmappable ly m' T l' a vs b.
Proof.
  intros [U1 U2 U3 U4 U5 U6] Hpte Hl. split; try done.
  - intros i v Hi. rewrite (Hpte i v Hi). by apply U1.
  - intros Hb. specialize (U4 Hb). rewrite Forall_forall in U4 |- *.
    intros v Hv. apply Hl; [by apply list_elem_of_fmap_2|by apply U4].
Qed.

(** Unmapping one page that is not user memory. *)
Lemma uvmunmap1_wp va v e s root T l (Q : unit -> env -> kst -> Prop) :
  kctx s -> vm_ok (k_layout s) (k_phys s) root T l ->
  va mod 4096 = 0 -> 0 <= va -> va + 4096 <= MAXVA ->
  pte_at (ph_mem (k_phys s)) T va = Some v -> PTE_FLAGS v <> PTE_V ->
  (forall ph', vm_ok (k_layout s) ph' root T l ->
     (forall x, 0 <= x < MAXVA -> pte_at (ph_mem ph') T x =
        if x / 4096 =? va / 4096 then None else pte_at (ph_mem (k_phys s)) T x) ->
     outside_same T (ph_mem (k_phys s)) (ph_mem ph') ->
     Q tt e (set_phys ph' s)) ->
  wp (uvmunmap root va 1 false) e s Q.
Proof.
  intros Hc Hvm Ha Ha0 Hmax Hpte Hfl HQ.
  eapply (uvmunmap_wp va [v] false); [done|exact Hvm|done|done|done| |].
  - split; try done.
    + intros i w Hi. apply list_lookup_singleton_Some in Hi as [-> <-].
      by rewrite Z.add_0_r.
    + by constructor.
  - simpl. intros ph' Hvm' Hre Hout. apply HQ; [done| |].
    + intros x Hx. rewrite (Hre x Hx). change (Z.of_nat 1) with 1.
      replace (x / 4096 =? va / 4096) with ((va <=? x) && (x <? va + 4096 * 1)); [done|].
      Z.div_mod_to_equations; lia.
    + intros x Hx. apply Hout; [done|by intros ? ?%elem_of_nil].
Qed.

Lemma kernel_maps_flags ly tf va v :
  layout_ok ly -> page_ok ly tf -> kernel_maps ly tf va = Some v -> PTE_FLAGS v <> PTE_V.
Proof.
  intros Hly Htf. pose proof (page_ok_range _ _ Hly Htf) as [Htr Hta].
  destruct Hly as (? & ? & ? & ?). unfold PGSIZE, KERNBASE in *. change PHYSTOP with 2281701376 in *.
  unfold kernel_maps. destruct (_ =? _); [|destruct (_ =? _)]; [intros [= <-]..|done];
    (rewrite PTE_FLAGS_mkleaf by (lia || done)); done.
Qed.

Lemma proc_freepagetable_wp root sz tf vs e s T l (Q : unit -> env -> kst -> Prop) :
  kctx s -> vm_ok (k_layout s) (k_phys s) root T l -> page_ok (k_layout s) tf ->
  proc_space (k_layout s) (ph_mem (k_phys s)) T l tf sz vs ->
  (forall ph' l', kmem_ok (k_layout s) ph' l' ->
     (forall p, p ∈ l' <-> p ∈ l \/ p ∈ PTE2PA <$> vs \/ exists k, T !! k = Some p) ->
     outside_same2 T (PTE2PA <$> vs) (ph_mem (k_phys s)) (ph_mem ph') ->
     Q tt e (set_phys ph' s)) ->
  wp (proc_freepagetable root sz) e s Q.
Proof.
  intros Hc Hvm Htf [Hsz Hlen Hum Hmap] HQ. unfold proc_freepagetable.
  change TRAPFRAME with 274877898752 in Hsz.
  assert (Hnp : npages sz * 4096 <= 274877898752).
  { change 274877898752 with (67108862 * 4096) in *. Z.div_mod_to_equations; lia. }
  apply wp_seq. eapply (uvmunmap1_wp TRAMPOLINE); [done|exact Hvm|done|done|done| | |].
  { rewrite Hmap; [done|]. change TRAMPOLINE with 274877902848. change MAXVA with 274877906944. lia. }
  { eapply (kernel_maps_flags _ _ TRAMPOLINE); [apply Hc|exact Htf|done]. }
  intros ph1 Hvm1 Hre1 Hout1. apply wp_seq.
  eapply (uvmunmap1_wp TRAPFRAME); [exact Hc|exact Hvm1|done|done|done| | |].
  { simpl. rewrite Hre1 by done. change (TRAPFRAME / 4096 =? TRAMPOLINE / 4096) with false.
    rewrite Hmap; [done|]. change TRAPFRAME with 274877898752. change MAXVA with 274877906944. lia. }
  { eapply (kernel_maps_flags _ _ TRAPFRAME); [apply Hc|exact Htf|done]. }
  simpl. intros ph2 Hvm2 Hre2 Hout2.
  change (TRAMPOLINE / 4096) with 67108863 in *. change (TRAPFRAME / 4096) with 67108862 in *.
  eapply (uvmfree_wp root sz vs e (set_phys ph2 s) T l);
    [exact Hc|exact Hvm2|change MAXVA with 274877906944; lia|done| | |].
  - eapply unmappable_frame; [exact Hum| |done]. intros i v Hi. simpl.
    pose proof (lookup_lt_Some _ _ _ Hi).
    assert (Hi' : 0 <= 0 + 4096 * Z.of_nat i < 67108862 * 4096) by lia.
    rewrite Hre2, Hre1 by (change MAXVA with (67108864 * 4096); lia).
    replace (_ =? 67108862) with false by (Z.div_mod_to_equations; lia).
    by replace (_ =? 67108863) with false by (Z.div_mod_to_equations; lia).
  - intros va Hva. simpl. assert (0 <= va < MAXVA) by (Z.div_mod_to_equations; lia).
    rewrite Hre2, Hre1, Hmap by done. unfold kernel_maps.
    change (TRAMPOLINE / 4096) with 67108863. change (TRAPFRAME / 4096) with 67108862.
    by destruct (va / 4096 =? 67108862), (va / 4096 =? 67108863).
  - simpl. intros ph' l' Hkm' Hin Hout. apply (HQ ph' l'); [done|done|].
    intros x Hx1 Hx2. rewrite Hout by done. rewrite Hout2, Hout1 by done. done.
Qed.

(** What freeproc leaves in the table. *)
Definition reset_proc (p : proc) : proc :=
  Proc UNUSED None 0 0 0 None (p_kstack p) 0 0 0 (p_context p) (p_ofile p) (p_cwd p)
    (<[0%nat := 0]> (p_name p)).

Lemma wp_upd_proc i f e s p (Q : unit -> env -> kst -> Prop) :
  ps_procs (k_ps s) !! i = Some p ->
  Q tt e (with_procs (<[i := f p]> (ps_procs (k_ps s))) s) -> wp (upd_proc i f) e s Q.
Proof. intros. eapply wp_run; [by apply upd_proc_run|done]. Qed.

Lemma wp_get_proc i e s p (Q : proc -> env -> kst -> Prop) :
  ps_procs (k_ps s) !! i = Some p -> Q p e s -> wp (get_proc i) e s Q.
Proof. intros. eapply wp_run; [by apply get_proc_run|done]. Qed.

(** Updates of one process in a row. *)
Lemma wp_upd_procs i (fs : list (proc -> proc)) e s p (Q : unit -> env -> kst -> Prop) :
  ps_procs (k_ps s) !! i = Some p ->
  Q tt e (with_procs (<[i := foldl (fun p f => f p) p fs]> (ps_procs (k_ps s))) s) ->
  wp (forK fs (upd_proc i)) e s Q.
Proof.
  revert s p. induction fs as [|f fs IH]; intros s p Hp HQ; simpl in *.
  - apply wp_ret. by rewrite list_insert_id, with_procs_id in HQ.
  - apply wp_seq. eapply wp_upd_proc; [done|].
    assert (Hlt : (i < length (ps_procs (k_ps s)))%nat) by (by eapply lookup_lt_Some).
    eapply IH; [simpl; by apply list_lookup_insert_eq|].
    by rewrite with_procs_twice, procs_with_procs, list_insert_insert_eq.
Qed.

Definition reset_fields : list (proc -> proc) :=
  [p_set_pagetable 0; p_set_sz 0; p_set_pid 0; p_set_parent None;
   (fun p => p_set_name (<[0%nat := 0]> (p_name p)) p); p_set_chan None;
   p_set_killed 0; p_set_xstate 0; p_set_state UNUSED].

(** The end of freeproc, as one loop. *)
Lemma wp_reset_fields i e s (Q : unit -> env -> kst -> Prop) :
  wp (forK reset_fields (upd_proc i)) e s Q ->
  wp (upd_proc i (p_set_pagetable 0) ;; upd_proc i (p_set_sz 0) ;; upd_proc i (p_set_pid 0) ;;
      upd_proc i (p_set_parent None) ;;
      upd_proc i (fun p => p_set_name (<[0%nat := 0]> (p_name p)) p) ;;
      upd_proc i (p_set_chan None) ;; upd_proc i (p_set_killed 0) ;;
      upd_proc i (p_set_xstate 0) ;; upd_proc i (p_set_state UNUSED)) e s Q.
Proof.
  unfold reset_fields. cbn [forK]. unfold wp, mbind, K_bind, mret, K_ret.
  repeat (case_match; try done). simplify_eq. by destruct a8.
Qed.

Section freeproc.
Context (i : nat) (p : proc) (e : env) (s : kst) (l : list Z).
Context (Hc : kctx s) (Hp : ps_procs (k_ps s) !! i = Some p).

Let done_state (ph : phys) : kst :=
  set_phys ph (with_procs (<[i := reset_proc p]> (ps_procs (k_ps s))) s).

Lemma freeproc_reset ph (Q : unit -> env -> kst -> Prop) :
  Q tt e (done_state ph) ->
  wp (forK reset_fields (upd_proc i)) e
    (set_phys ph (with_procs (<[i := p_set_trapframe 0 p]> (ps_procs (k_ps s))) s)) Q.
Proof.
  intros HQ. assert (Hlt : (i < length (ps_procs (k_ps s)))%nat) by (by eapply lookup_lt_Some).
  eapply wp_upd_procs; [simpl; by apply list_lookup_insert_eq|]. simpl.
  rewrite list_insert_insert_eq.
  replace (with_procs _ _) with (done_state ph); [done|].
  unfold done_state, reset_proc. by destruct s, p.
Qed.

(** A process that has no page table yet. *)
Lemma freeproc0_wp (Q : unit -> env -> kst -> Prop) :
  kmem_ok (k_layout s) (k_phys s) l -> p_pagetable p = 0 ->
  (p_trapframe p <> 0 -> page_ok (k_layout s) (p_trapframe p) /\ p_trapframe p ∉ l) ->
  (forall ph' l', kmem_ok (k_layout s) ph' l' ->
     (forall q, q ∈ l' <-> q ∈ l \/ (q = p_trapframe p /\ q <> 0)) ->
     same_outside [p_trapframe p] (ph_mem (k_phys s)) (ph_mem ph') ->
     (p_trapframe p = 0 -> ph' = k_phys s) ->
     Q tt e (done_state ph')) ->
  wp (freeproc i) e s Q.
Proof.
  intros Hkm Hpt Htf HQ.
  assert (Hlt : (i < length (ps_procs (k_ps s)))%nat) by (by eapply lookup_lt_Some).
  unfold freeproc. apply wp_bind. eapply wp_get_proc; [done|]. apply wp_seq.
  assert (Hrest : forall ph, Q tt e (done_state ph) ->
    wp (upd_proc i (p_set_trapframe 0) ;; p ← get_proc i;
        when (negb (p_pagetable p =? 0)) (proc_freepagetable (p_pagetable p) (p_sz p)) ;;
        upd_proc i (p_set_pagetable 0) ;; upd_proc i (p_set_sz 0) ;; upd_proc i (p_set_pid 0) ;;
        upd_proc i (p_set_parent None) ;;
        upd_proc i (fun p => p_set_name (<[0%nat := 0]> (p_name p)) p) ;;
        upd_proc i (p_set_chan None) ;; upd_proc i (p_set_killed 0) ;;
        upd_proc i (p_set_xstate 0) ;; upd_proc i (p_set_state UNUSED)) e (set_phys ph s) Q).
  { intros ph Hph. apply wp_seq. eapply wp_upd_proc; [exact Hp|]. apply wp_bind.
    eapply wp_get_proc; [simpl; by apply list_lookup_insert_eq|]. simpl. rewrite Hpt. simpl.
    apply wp_seq, wp_ret, wp_reset_fields.
    match goal with |- wp _ _ ?x _ => replace x with
      (set_phys ph (with_procs (<[i := p_set_trapframe 0 p]> (ps_procs (k_ps s))) s)) by (by destruct s) end.
    by apply freeproc_reset. }
  destruct (Z.eqb_spec (p_trapframe p) 0) as [E|E]; simpl.
  - apply wp_ret. replace s with (set_phys (k_phys s) s) by (by destruct s).
    apply Hrest. apply (HQ _ l); [done| |done|done]. intros q. rewrite E. split; [auto|]. intros [?|[-> ?]]; done.
  - destruct (Htf E) as [Hpg Hni]. eapply kfree_wp; [exact Hc|exact Hkm|done|done|].
    intros m' Hkm' Hout. apply Hrest. apply (HQ _ (p_trapframe p :: l)); [done| | |].
    + intros q. rewrite elem_of_cons. split; [intros [->|?]; auto|intros [?|[-> ?]]; auto].
    + intros x Hx. apply Hout. apply Hx. set_solver.
    + by intros.
Qed.

(** A process with its page table: every page it has goes back. *)
Lemma freeproc_wp T vs (Q : unit -> env -> kst -> Prop) :
  vm_ok (k_layout s) (k_phys s) (p_pagetable p) T l -> p_pagetable p <> 0 ->
  page_ok (k_layout s) (p_trapframe p) -> p_trapframe p ∉ l ->
  (forall k q, T !! k = Some q -> q <> p_trapframe p) -> p_trapframe p ∉ PTE2PA <$> vs ->
  proc_space (k_layout s) (ph_mem (k_phys s)) T l (p_trapframe p) (p_sz p) vs ->
  (forall ph' l', kmem_ok (k_layout s) ph' l' ->
     (forall q, q ∈ l' <-> q ∈ l \/ q = p_trapframe p \/ q ∈ PTE2PA <$> vs \/ exists k, T !! k = Some q) ->
     outside_same2 T (p_trapframe p :: (PTE2PA <$> vs)) (ph_mem (k_phys s)) (ph_mem ph') ->
     Q tt e (done_state ph')) ->
  wp (freeproc i) e s Q.
Proof.
  intros Hvm Hpt0 Hpg Hni HTf Htv [S1 S2 S3 S4] HQ.
  assert (Hlt : (i < length (ps_procs (k_ps s)))%nat) by (by eapply lookup_lt_Some).
  pose proof (page_ok_range _ _ (proj2 (proj2 Hc)) Hpg) as [Hr _].
  unfold freeproc. apply wp_bind. eapply wp_get_proc; [done|]. apply wp_seq.
  replace (p_trapframe p =? 0) with false by lia. simpl.
  eapply kfree_vm_wp; [exact Hc|exact Hvm|done|done|done|]. intros m1 Hvm1 Hout1 Hpte1.
  apply wp_seq. eapply wp_upd_proc; [exact Hp|]. apply wp_bind.
  eapply wp_get_proc; [simpl; by apply list_lookup_insert_eq|]. simpl.
  replace (p_pagetable p =? 0) with false by lia. simpl. apply wp_seq.
  eapply (proc_freepagetable_wp (p_pagetable p) (p_sz p) (p_trapframe p) vs e _ T (p_trapframe p :: l));
    [exact Hc|exact Hvm1|exact Hpg| |].
  - split; [done|done| |].
    + eapply unmappable_frame; [exact S3|intros; by apply Hpte1|]. intros q Hq Hql. simpl.
      intros [->|?]%elem_of_cons; done.
    + intros va Hva. simpl. rewrite Hpte1. by apply S4.
  - simpl. intros ph' l' Hkm' Hin Hout. apply wp_reset_fields.
    match goal with |- wp _ _ ?x _ => replace x with
      (set_phys ph' (with_procs (<[i := p_set_trapframe 0 p]> (ps_procs (k_ps s))) s)) by (by destruct s) end.
    apply freeproc_reset. apply (HQ ph' l'); [done| |].
    + intros q. rewrite Hin, elem_of_cons. tauto.
    + intros x Hx1 Hx2. rewrite Hout by (done || set_solver). simpl. apply Hout1. apply Hx2. set_solver.
Qed.

End freeproc.

(** ** Allocating *)

Lemma allocpid_run e s :
  hart_ok (k_hw s) -> lock_free L_pid (k_hw s) ->
  allocpid e s = Ok (ps_nextpid (k_ps s)) e
    (set_ps (ps_set_nextpid (i32 (ps_nextpid (k_ps s) + 1)) (k_ps s)) s).
Proof.
  intros Hh Hf. unfold allocpid. erewrite bind_run by (by apply acquire_run).
  erewrite bind_run by reflexivity. erewrite bind_run by reflexivity.
  erewrite bind_run by (by apply release_run). by destruct s.
Qed.

Lemma allocproc_find_run me l e s :
  kthread me s -> (forall i, i ∈ l -> (i < NPROC)%nat) ->
  allocproc_find l e s =
  match list_find (fun i => (p_state <$> ps_procs (k_ps s) !! i) = Some UNUSED) l with
  | Some (_, i) => Ok (Some i) e (set_hw (acq (L_proc i) (k_hw s)) s)
  | None => Ok None e s
  end.
Proof.
  intros Hk. induction l as [|i l IH]; intros Hl; [done|]. cbn [allocproc_find list_find].
  assert (Hi : (i < NPROC)%nat) by (apply Hl; set_solver).
  destruct (lookup_lt_is_Some_2 (ps_procs (k_ps s)) i) as [p Hp]; [by rewrite (kt_len _ _ Hk)|].
  erewrite bind_run by (apply acquire_run; [apply Hk|by apply Hk]).
  erewrite bind_run by (by apply get_proc_run). rewrite Hp. cbn [fmap option_fmap option_map].
  case_bool_decide as Hs.
  - by rewrite decide_True by congruence.
  - rewrite decide_False by congruence.
    erewrite bind_run by (apply release_run; [apply Hk|by apply (kt_locks _ _ Hk)|done]).
    replace (set_hw (k_hw s) _) with s by (by destruct s).
    rewrite IH by set_solver. destruct (list_find _ l) as [[? ?]|]; done.
Qed.

(** The process allocproc returns. *)
Definition new_proc (ly : layout) (p : proc) (pid tf root : Z) : proc :=
  p_set_context (Context_ (ld_forkret ly) (u64 (p_kstack p + PGSIZE)) (replicate 12 0))
    (p_set_pagetable root (p_set_trapframe tf (p_set_state USED (p_set_pid pid p)))).

(** The state with process [i] replaced and one more pid used. *)
Definition alloc_state (s : kst) (h : hw) (ph : phys) (i : nat) (p : proc) : kst :=
  Kst (k_layout s) h ph
    (Pst (<[i := p]> (ps_procs (k_ps s))) (ps_initproc (k_ps s))
       (i32 (ps_nextpid (k_ps s) + 1)) (ps_kpgtbl (k_ps s)) (ps_ticks (k_ps s)))
    (k_fs s) (k_vfs s) (k_dev s) (k_out s).

Lemma allocproc_wp me e s l i p (Q : option nat -> env -> kst -> Prop) :
  kthread me s -> kctx s -> lock_free L_pid (k_hw s) ->
  kmem_ok (k_layout s) (k_phys s) l ->
  ps_procs (k_ps s) !! i = Some p -> p_state p = UNUSED ->
  (forall j q, (j < i)%nat -> ps_procs (k_ps s) !! j = Some q -> p_state q <> UNUSED) ->
  p_pagetable p = 0 ->
  (forall tf root ph' T l1 l', l = tf :: l1 -> page_ok (k_layout s) tf -> tf ∉ l1 -> root <> 0 ->
     new_pt (k_layout s) ph' root tf T l1 l' ->
     same_outside l (ph_mem (k_phys s)) (ph_mem ph') ->
     Q (Some i) e (alloc_state s (acq (L_proc i) (k_hw s)) ph' i
                     (new_proc (k_layout s) p (ps_nextpid (k_ps s)) tf root))) ->
  (forall ph' l', kmem_ok (k_layout s) ph' l' -> (forall q, q ∈ l' <-> q ∈ l) ->
     same_outside l (ph_mem (k_phys s)) (ph_mem ph') ->
     Q None e (alloc_state s (k_hw s) ph' i (reset_proc p))) ->
  wp allocproc e s Q.
Proof.
  intros Hk (Hh & Hfk & Hly) Hfp Hkm Hp Hst Hfirst Hpt0 HQ HQ0.
  assert (Hlt : (i < length (ps_procs (k_ps s)))%nat) by (by eapply lookup_lt_Some).
  assert (Hi : (i < NPROC)%nat) by (by rewrite <- (kt_len _ _ Hk)).
  pose proof (kt_locks _ _ Hk i Hi) as Hfi.
  unfold allocproc. apply wp_bind. eapply wp_run.
  { erewrite allocproc_find_run; [|exact Hk|by intros j ?%elem_of_all_procs].
    rewrite all_procs_seq.
    replace (list_find _ _) with (Some (i, i)); [reflexivity|].
    symmetry. apply list_find_Some. split_and!.
    - by apply lookup_seq.
    - rewrite Hp. simpl. congruence.
    - intros j y [-> Hj]%lookup_seq Hji. simpl.
      destruct (lookup_lt_is_Some_2 (ps_procs (k_ps s)) j) as [q Hq]; [by rewrite (kt_len _ _ Hk)|].
      rewrite Hq. simpl. intros [= E]. by eapply Hfirst. }
  set (h1 := acq (L_proc i) (k_hw s)). cbn -[upd_proc].
  apply wp_bind. eapply wp_run; [apply allocpid_run; simpl; unfold h1; auto with xv6|].
  apply wp_seq. eapply wp_upd_proc; [exact Hp|].
  apply wp_seq. eapply wp_upd_proc; [simpl; by apply list_lookup_insert_eq|].
  set (p1 := p_set_state USED (p_set_pid (ps_nextpid (k_ps s)) p)).
  match goal with |- wp _ _ ?x _ => replace x with (alloc_state s h1 (k_phys s) i p1) end.
  2:{ unfold alloc_state, with_procs. simpl. by rewrite list_insert_insert_eq. }
  assert (Hc1 : forall ph q, kctx (alloc_state s h1 ph i q)).
  { intros ph q. split_and!; simpl; unfold h1; auto with xv6. }
  assert (Hlk : forall ph q, ps_procs (k_ps (alloc_state s h1 ph i q)) !! i = Some q).
  { intros ph q. simpl. by apply list_lookup_insert_eq. }
  assert (Hupd : forall ph q f (Q' : unit -> env -> kst -> Prop), Q' tt e (alloc_state s h1 ph i (f q)) ->
    wp (upd_proc i f) e (alloc_state s h1 ph i q) Q').
  { intros ph q f Q' H. eapply wp_upd_proc; [apply Hlk|]. unfold with_procs, alloc_state in *; simpl in *.
    by rewrite list_insert_insert_eq. }
  assert (Hrel : forall ph q (Q' : option nat -> env -> kst -> Prop), Q' None e (alloc_state s (k_hw s) ph i q) ->
    wp (release (L_proc i) ;; mret None) e (alloc_state s h1 ph i q) Q').
  { intros ph q Q' H. apply wp_seq. eapply wp_release; [exact Hh|exact Hfi|done|]. by apply wp_ret. }
  assert (Hset : forall ph ph' q q', set_phys ph' (with_procs (<[i := q']> (<[i := q]> (ps_procs (k_ps s))))
      (alloc_state s h1 ph i q)) = alloc_state s h1 ph' i q').
  { intros ph ph' q q'. unfold alloc_state, with_procs; simpl. by rewrite list_insert_insert_eq. }
  apply wp_bind. eapply (kalloc_wp e _ l); [apply Hc1|exact Hkm| |].
  - intros tf l1 m1 fl1 -> Htf Hni Hkm1 _ Hout1.
    pose proof (page_ok_range _ _ Hly Htf) as [Htr _].
    replace (set_phys _ _) with (alloc_state s h1 (Phys m1 fl1) i p1) by done.
    apply wp_seq, Hupd. replace (tf =? 0) with false by lia.
    apply wp_bind. eapply (proc_pagetable_wp _ e i _ l1); [apply Hc1|exact Hkm1|apply Hlk|exact Htf| |].
    + simpl. intros root ph' T l' Hroot Hnp Hso. apply wp_seq.
      replace (set_phys ph' _) with (alloc_state s h1 ph' i (p_set_trapframe tf p1)) by done.
      apply Hupd. replace (root =? 0) with false by lia. apply wp_bind, wp_gets. apply wp_seq, Hupd, wp_ret.
      apply (HQ tf root ph' T l1 l'); try done.
      intros x Hx. rewrite Hso by set_solver. simpl. apply Hout1. apply Hx. set_solver.
    + simpl. intros ph' l' Hkm' Hin Hso. apply wp_seq.
      replace (set_phys ph' _) with (alloc_state s h1 ph' i (p_set_trapframe tf p1)) by done.
      apply Hupd. simpl. apply wp_seq.
      eapply (freeproc0_wp i _ e _ l'); [apply Hc1|apply Hlk|exact Hkm'|done| |].
      { simpl. intros _. split; [done|]. by rewrite Hin. }
      simpl. intros ph2 l2 Hkm2 Hin2 Hso2 _. rewrite Hset. apply Hrel.
      apply (HQ0 ph2 l2); [done| |].
      * intros q. rewrite Hin2, Hin, elem_of_cons. split; [tauto|]. intros [->|?]; [right; split; [done|lia]|auto].
      * intros x Hx. rewrite Hso2 by set_solver. rewrite Hso by set_solver. simpl. apply Hout1.
        apply Hx. set_solver.
  - intros ->. apply wp_seq, Hupd. simpl. apply wp_seq.
    eapply (freeproc0_wp i _ e _ []); [apply Hc1|apply Hlk|exact Hkm|done|done|].
    simpl. intros ph' l' Hkm' Hin Hso Hph. rewrite Hset. apply Hrel.
    apply (HQ0 ph' l'); [done| |].
    + intros q. rewrite Hin. split; [intros [?|[? ?]]; done|auto].
    + intros x Hx. by rewrite Hph.
Qed.

(** ** What allocation and freeing do *)

(** Allocproc takes the first UNUSED entry. On success it returns it with
    its lock held, a fresh pid, a trapframe page, a page table that maps exactly
    the trampoline and that trapframe, and a context that starts at forkret on
    the process's kernel stack. On failure it returns with no lock held, the
    entry UNUSED again, and every page it took back on the free list. It writes
    no memory but pages that were free. *)
Theorem allocproc_correct me e s l i p :
  kthread me s -> kctx s -> lock_free L_pid (k_hw s) ->
  kmem_ok (k_layout s) (k_phys s) l ->
  ps_procs (k_ps s) !! i = Some p -> p_state p = UNUSED ->
  (forall j q, (j < i)%nat -> ps_procs (k_ps s) !! j = Some q -> p_state q <> UNUSED) ->
  p_pagetable p = 0 ->
  wp allocproc e s (fun r e' s' => exists ph',
    e' = e /\ same_outside l (ph_mem (k_phys s)) (ph_mem ph') /\
    ((r = Some i /\ exists tf root T l1 l',
        l = tf :: l1 /\ new_pt (k_layout s) ph' root tf T l1 l' /\
        s' = alloc_state s (acq (L_proc i) (k_hw s)) ph' i
               (new_proc (k_layout s) p (ps_nextpid (k_ps s)) tf root)) \/
     (r = None /\ (exists l', kmem_ok (k_layout s) ph' l' /\ forall q, q ∈ l' <-> q ∈ l) /\
        s' = alloc_state s (k_hw s) ph' i (reset_proc p)))).
Proof.
  intros Hk Hc Hfp Hkm Hp Hst Hfirst Hpt0. eapply allocproc_wp; [done..| |].
  - intros tf root ph' T l1 l' A B C D E F. exists ph'. split_and!; [done..|]. left. split; [done|].
    by exists tf, root, T, l1, l'.
  - intros ph' l' A B C. exists ph'. split_and!; [done..|]. right. eauto.
Qed.

(** Freeproc of a process with a trapframe and a page table puts all its
    pages on the free list (trapframe, user memory, and the tables of every
    level), touches no other memory, and resets the entry to UNUSED. *)
Theorem freeproc_correct i p e s l T vs :
  kctx s -> ps_procs (k_ps s) !! i = Some p ->
  vm_ok (k_layout s) (k_phys s) (p_pagetable p) T l -> p_pagetable p <> 0 ->
  page_ok (k_layout s) (p_trapframe p) -> p_trapframe p ∉ l ->
  (forall k q, T !! k = Some q -> q <> p_trapframe p) -> p_trapframe p ∉ PTE2PA <$> vs ->
  proc_space (k_layout s) (ph_mem (k_phys s)) T l (p_trapframe p) (p_sz p) vs ->
  wp (freeproc i) e s (fun _ e' s' => exists ph' l',
    e' = e /\ s' = set_phys ph' (with_procs (<[i := reset_proc p]> (ps_procs (k_ps s))) s) /\
    kmem_ok (k_layout s) ph' l' /\
    (forall q, q ∈ l' <-> q ∈ l \/ q = p_trapframe p \/ q ∈ PTE2PA <$> vs \/ exists k, T !! k = Some q) /\
    outside_same2 T (p_trapframe p :: (PTE2PA <$> vs)) (ph_mem (k_phys s)) (ph_mem ph')).
Proof.
  intros Hc Hp H1 H2 H3 H4 H5 H6 H7. eapply freeproc_wp; [done..|].
  intros ph' l' A B C. by exists ph', l'.
Qed.

(** C39: An unused entry has pid 0, so kill(0) succeeds, on an entry that is not
    a process, and sets its killed flag; allocproc does not clear the flag, so
    the next process to get the entry is born killed. *)
Theorem kill_zero_born_killed me e s l i p :
  kthread me s -> kctx s -> lock_free L_pid (k_hw s) ->
  kmem_ok (k_layout s) (k_phys s) l ->
  ps_procs (k_ps s) !! i = Some p -> p_state p = UNUSED -> p_pid p = 0 ->
  (forall j q, (j < i)%nat -> ps_procs (k_ps s) !! j = Some q -> p_state q <> UNUSED /\ p_pid q <> 0) ->
  p_pagetable p = 0 ->
  wp (r ← kill 0; o ← allocproc; mret (r, o)) e s (fun '(r, o) _ s' =>
    r = 0 /\ (o = Some i -> p_killed <$> ps_procs (k_ps s') !! i = Some 1)).
Proof.
  intros Hk Hc Hfp Hkm Hp Hst Hpid Hfirst Hpt0.
  assert (Hlt : (i < length (ps_procs (k_ps s)))%nat) by (by eapply lookup_lt_Some).
  assert (Hi : (i < NPROC)%nat) by (by rewrite <- (kt_len _ _ Hk)).
  apply wp_bind. eapply wp_run.
  { unfold kill. erewrite kill_loop_run; [|done|by intros j ?%elem_of_all_procs].
    rewrite all_procs_seq. replace (list_find _ _) with (Some (i, i)); [reflexivity|].
    symmetry. apply list_find_Some. split_and!.
    - by apply lookup_seq.
    - rewrite Hp. simpl. congruence.
    - intros j y [-> Hj]%lookup_seq Hji. simpl.
      destruct (lookup_lt_is_Some_2 (ps_procs (k_ps s)) j) as [q Hq]; [by rewrite (kt_len _ _ Hk)|].
      rewrite Hq. simpl. intros [= E]. by eapply Hfirst. }
  rewrite (list_alter_insert _ _ _ _ Hp). apply wp_bind.
  assert (Hko : kill_one p = p_set_killed 1 p).
  { unfold kill_one. by rewrite bool_decide_eq_false_2 by congruence. }
  rewrite Hko. eapply (allocproc_wp me e _ l i (p_set_killed 1 p));
    [|exact Hc|exact Hfp|exact Hkm|simpl; by apply list_lookup_insert_eq|done| |done| |].
  - apply kthread_with_procs; [done|]. rewrite length_insert. apply Hk.
  - intros j q Hji Hq. simpl in Hq. rewrite list_lookup_insert_ne in Hq by lia. by eapply Hfirst.
  - intros tf root ph' T l1 l' _ _ _ _ _ _. apply wp_ret. split; [done|]. intros _. simpl.
    rewrite list_insert_insert_eq, list_lookup_insert_eq by done. done.
  - intros ph' l' _ _ _. by apply wp_ret.
Qed.

(** ** Witnesses *)

Definition proc_locks : gmap lockid spinlock :=
  foldr (fun j m => <[L_proc j := Spinlock 0 "proc" None]> m)
    {[ L_kmem := Spinlock 0 "kmem" None; L_pid := Spinlock 0 "nextpid" None;
       L_wait := Spinlock 0 "wait_lock" None ]} (seq 0 NPROC).

(** Process 0 runs on hart 0; one page is free. *)
Definition proc_run : proc := p_set_state RUNNING (p_set_pid 1 proc0).
Definition kst_pr : kst :=
  with_procs (<[0%nat := proc_run]> (replicate NPROC proc0))
    (set_hw (Hw 0 (replicate NCPU true) (<[0%nat := cpu_set_proc (Some 0%nat) cpu0]> (replicate NCPU cpu0))
               proc_locks) kst_km1).

Lemma proc_locks_free j : (j < NPROC)%nat -> proc_locks !! L_proc j = Some (Spinlock 0 "proc" None).
Proof.
  intros Hj. unfold proc_locks. assert (Hin : j ∈ seq 0 NPROC) by (apply elem_of_seq; lia).
  induction (seq 0 NPROC) as [|k l IH]; [by apply elem_of_nil in Hin|]. cbn [foldr].
  destruct (decide (k = j)) as [->|Hne]; [apply lookup_insert_eq|].
  rewrite lookup_insert_ne by congruence. apply IH. set_solver.
Qed.

Lemma kthread_pr : kthread (Some 0%nat) kst_pr.
Proof.
  split.
  - exists (cpu_set_proc (Some 0%nat) cpu0), true. by split_and!.
  - done.
  - done.
  - intros j Hj. exists "proc"%string. by apply proc_locks_free.
Qed.

Lemma kctx_pr : kctx kst_pr.
Proof. split_and!; [apply kthread_pr|by exists "kmem"%string|apply layout_ok0]. Qed.

Lemma first_unused_pr j q :
  (j < 1)%nat -> ps_procs (k_ps kst_pr) !! j = Some q -> p_state q <> UNUSED /\ p_pid q <> 0.
Proof. intros Hj. assert (j = 0%nat) as -> by lia. by intros [= <-]. Qed.

Lemma wakeup_correct_witness :
  exists q, wakeup (Some C_log) [] kst_pr = Ok tt [] (with_procs q kst_pr) /\ q !! 0%nat = Some proc_run.
Proof.
  destruct (wakeup_correct (Some 0%nat) (Some C_log) [] kst_pr kthread_pr) as (q & Hrun & Hq).
  exists q. split; [exact Hrun|]. apply (Hq 0%nat proc_run); [done|by left].
Defined.

Lemma kill_correct_witness :
  kill 1 [] kst_pr = Ok 0 [] (with_procs (<[0%nat := kill_one proc_run]> (ps_procs (k_ps kst_pr))) kst_pr) /\
  kill 7 [] kst_pr = Ok (-1) [] kst_pr.
Proof.
  split.
  - apply (proj1 (kill_correct (Some 0%nat) 1 [] kst_pr kthread_pr)); [done|done|lia].
  - apply (proj2 (kill_correct (Some 0%nat) 7 [] kst_pr kthread_pr)).
    intros i p Hp. destruct (decide (i = 0%nat)) as [->|Hne]; [by injection Hp as <-|].
    change (ps_procs (k_ps kst_pr)) with (<[0%nat := proc_run]> (replicate NPROC proc0)) in Hp.
    rewrite list_lookup_insert_ne in Hp by done. by apply lookup_replicate in Hp as [-> _].
Defined.

Lemma allocproc_correct_witness :
  wp allocproc [] kst_pr (fun r _ _ => r = Some 1%nat \/ r = None).
Proof.
  eapply wp_mono; [exact (allocproc_correct (Some 0%nat) [] kst_pr [page7] 1 proc0 kthread_pr kctx_pr
    (ex_intro _ "nextpid"%string eq_refl) kmem_ok_km1 eq_refl eq_refl
    (fun j q Hj Hq => proj1 (first_unused_pr j q Hj Hq)) eq_refl)|].
  intros r e' s' (ph' & _ & _ & [[-> _]|[-> _]]); [by left|by right].
Defined.

(** The same with six free pages. *)
Definition pages_pr : list Z := [pgn 1; pgn 2; pgn 3; pgn 4; pgn 5; pgn 6].
Definition kst_pr6 : kst :=
  set_phys (Phys (foldr (fun '(a, b) m => store64 m a b) ∅ (zip pages_pr (tail pages_pr ++ [0]))) (pgn 1)) kst_pr.

Lemma kthread_pr6 : kthread (Some 0%nat) kst_pr6.
Proof. by destruct kthread_pr. Qed.
Lemma kctx_pr6 : kctx kst_pr6.
Proof. exact kctx_pr. Qed.

Lemma kmem_ok_pr6 : kmem_ok (k_layout kst_pr6) (k_phys kst_pr6) pages_pr.
Proof.
  split; [vm_compute; tauto| |].
  - apply (bool_decide_unpack _). by vm_compute.
  - repeat (constructor; [by apply pgn_ok|]). constructor.
Qed.

Lemma kill_zero_born_killed_witness : exists e' s',
  (r ← kill 0; o ← allocproc; mret (r, o)) [] kst_pr6 = Ok (0, Some 1%nat) e' s' /\
  p_killed <$> ps_procs (k_ps s') !! 1%nat = Some 1.
Proof.
  pose proof (kill_zero_born_killed (Some 0%nat) [] kst_pr6 pages_pr 1 proc0 kthread_pr6 kctx_pr6
    (ex_intro _ "nextpid"%string eq_refl) kmem_ok_pr6 eq_refl eq_refl eq_refl first_unused_pr eq_refl) as H.
  assert (Hv : value_of ((r ← kill 0; o ← allocproc; mret (r, o)) [] kst_pr6) = Some (0, Some 1%nat)) by (vm_compute; reflexivity).
  apply value_of_Some in Hv as (e' & s' & E). exists e', s'. split; [exact E|].
  apply wp_elim in H as ([r o] & e1 & s1 & E1 & _ & Hk). rewrite E in E1. injection E1 as <- <- <- <-. by apply Hk.
Defined.

(** A process without user memory: trapframe in page 4, tables in 1, 2, 3. *)
Definition tramp_leaf : Z := mkleaf (ld_trampoline layout0) (Z.lor PTE_R PTE_X).
Definition tf_leaf : Z := mkleaf (pgn 4) (Z.lor PTE_R PTE_W).
Definition m_pt1 : mem := store64 m_vm0 (pgn 1 + 8 * 255) (Z.lor (PA2PTE (pgn 2)) PTE_V).
Definition m_pt2 : mem := store64 m_pt1 (pgn 2 + 8 * 511) (Z.lor (PA2PTE (pgn 3)) PTE_V).
Definition m_pt3 : mem := store64 m_pt2 (pgn 3 + 8 * PX 0 TRAMPOLINE) tramp_leaf.
Definition m_pt : mem := store64 m_pt3 (pgn 3 + 8 * PX 0 TRAPFRAME) tf_leaf.
Definition T_pt : ptree := <[ [255] ++ [511] := pgn 3 ]> (<[ [] ++ [255] := pgn 2 ]> {[ [] := pgn 1 ]}).
Definition proc_pt : proc := p_set_trapframe (pgn 4) (p_set_pagetable (pgn 1) proc0).
Definition kst_pt : kst :=
  set_phys (Phys m_pt (pgn 5)) (with_procs (<[3%nat := proc_pt]> (replicate NPROC proc0)) kst_pr).

Lemma T_pt_pages k p : T_pt !! k = Some p -> p = pgn 1 \/ p = pgn 2 \/ p = pgn 3.
Proof.
  unfold T_pt.
  intros [[_ <-]|[_ [[_ <-]|[_ [_ <-]%lookup_singleton_Some]]%lookup_insert_Some]]%lookup_insert_Some;
    auto.
Qed.

Lemma pt_wf_pt2 : pt_wf layout0 m_pt2 (pgn 1) T_pt.
Proof.
  apply (pt_add_node _ m_pt1 _ _ [255] (pgn 2) 511 (pgn 3));
    [apply layout_ok0| |done|simpl; lia|lia|done|done|by apply pgn_ok| |done|].
  - apply (pt_add_node _ m_vm0 _ _ [] (pgn 1) 255 (pgn 2));
      [apply layout_ok0| |done|simpl; lia|lia|lia|done|by apply pgn_ok| |done|].
    + apply pt_wf_empty; [by apply pgn_ok|]. intros. apply load8_m_vm0.
    + by intros k q [<- <-]%lookup_singleton_Some.
    + intros. apply load8_m_vm0.
  - intros k q [[<- <-]|[_ [<- <-]%lookup_singleton_Some]]%lookup_insert_Some; done.
  - intros x Hx. unfold m_pt1. rewrite load8_store64_out; [apply load8_m_vm0|].
    unfold pgn, PGSIZE in *. lia.
Qed.

Lemma vm_ok_pt2 : vm_ok layout0 (Phys m_pt2 (pgn 5)) (pgn 1) T_pt [pgn 5].
Proof.
  split; [|apply pt_wf_pt2|].
  - split; simpl; [split; [done|]|apply NoDup_singleton|].
    + unfold m_pt2, m_pt1. rewrite !load64_store64_ne by (unfold pgn, PGSIZE; lia).
      unfold m_vm0. by rewrite load64_store64_eq.
    + repeat constructor; by apply pgn_ok.
  - intros k p Hk. apply T_pt_pages in Hk. rewrite list_elem_of_singleton.
    unfold pgn, PGSIZE in *. lia.
Qed.

Lemma pte_at_pt2 va : 0 <= va < MAXVA -> pte_at m_pt2 T_pt va = None.
Proof.
  intros Hva. unfold pte_at, slot.
  destruct (T_pt !! [PX 2 va; PX 1 va]) as [p|] eqn:Ep; [|done].
  cbn [fmap option_fmap option_map mbind option_bind].
  assert (p = pgn 3) as ->.
  { unfold T_pt in Ep. apply lookup_insert_Some in Ep as [[E1 E2]|[_ Ep]]; [done|].
    apply lookup_insert_Some in Ep as [[E1 E2]|[_ Ep]]; [done|].
    by apply lookup_singleton_Some in Ep as [E1 _]. }
  rewrite (load64_ext _ ∅); [done|]. intros x Hx. unfold m_pt2, m_pt1.
  pose proof (PX_range 0 va).
  rewrite !load8_store64_out by (unfold pgn, PGSIZE in *; lia). apply load8_m_vm0.
Qed.

Lemma vm_ok_pt :
  vm_ok layout0 (Phys m_pt (pgn 5)) (pgn 1) T_pt [pgn 5] /\
  (forall va, 0 <= va < MAXVA -> pte_at m_pt T_pt va = kernel_maps layout0 (pgn 4) va).
Proof.
  destruct (store_leaf layout0 (Phys m_pt2 (pgn 5)) (pgn 1) T_pt [pgn 5] TRAMPOLINE
    (pgn 3 + 8 * PX 0 TRAMPOLINE) tramp_leaf vm_ok_pt2) as (A1 & _ & B1);
    [by vm_compute|done|by vm_compute|].
  destruct (store_leaf layout0 (Phys m_pt3 (pgn 5)) (pgn 1) T_pt [pgn 5] TRAPFRAME
    (pgn 3 + 8 * PX 0 TRAPFRAME) tf_leaf A1) as (A2 & _ & B2);
    [by vm_compute|done|by vm_compute|].
  split; [exact A2|]. intros va Hva. etrans; [apply (B2 va Hva)|]. cbn [ph_mem].
  rewrite (eq_refl : flag tf_leaf PTE_V = true). unfold kernel_maps.
  change (TRAPFRAME / 4096) with 67108862. change (TRAMPOLINE / 4096) with 67108863.
  destruct (Z.eqb_spec (va / 4096) 67108862) as [E|E].
  - by replace (va / 4096 =? 67108863) with false by lia.
  - etrans; [apply (B1 va Hva)|]. change (TRAMPOLINE / 4096) with 67108863.
    rewrite (eq_refl : flag tramp_leaf PTE_V = true).
    destruct (va / 4096 =? 67108863); [done|]. by apply pte_at_pt2.
Qed.

Lemma proc_space_pt : proc_space layout0 m_pt T_pt [pgn 5] (pgn 4) 0 [].
Proof.
  split; [done|done| |].
  - split; try done; try (intros; constructor). intros _ k p _ ?%elem_of_nil. done.
  - intros va Hva. change (npages 0 * 4096) with 0 in Hva. by apply vm_ok_pt.
Qed.

Lemma freeproc_correct_witness :
  wp (freeproc 3) [] kst_pt (fun _ _ s' => exists l',
    kmem_ok layout0 (k_phys s') l' /\ pgn 1 ∈ l' /\ pgn 2 ∈ l' /\ pgn 3 ∈ l' /\ pgn 4 ∈ l').
Proof.
  eapply wp_mono; [refine (freeproc_correct 3 proc_pt [] kst_pt [pgn 5] T_pt [] kctx_pr eq_refl
    (proj1 vm_ok_pt) _ _ _ _ _ proc_space_pt)|].
  - done.
  - by apply pgn_ok.
  - rewrite list_elem_of_singleton. by vm_compute.
  - intros k q Hk%T_pt_pages. change (p_trapframe proc_pt) with (pgn 4). unfold pgn, PGSIZE in *. lia.
  - by intros ?%elem_of_nil.
  - intros r e' s' (ph' & l' & _ & -> & Hkm & Hin & _). exists l'. split; [exact Hkm|].
    rewrite !Hin. split_and!.
    + right. right. right. by exists [].
    + right. right. right. by exists [255].
    + right. right. right. by exists [255; 511].
    + right. by left.
Defined.
