(* ===== verification/SleepModel.v ===== *)
(** The concurrency of proc.c with every process and every hart at once.
    [Rendezvous] is a step relation over the lock acquisitions of [sleep],
    [wakeup] and the scheduler around one condition, its condition lock and its
    channel, with the proof that no wakeup is lost. [Running] is a step relation
    for the scheduler's handling of p->state and p->lock, with the proof that a
    process never runs on two harts. *)

From S2P Require Import Prelude Machine KState.

Definition upd {A} (i : nat) (x : A) (f : nat -> A) : nat -> A :=
  fun j => if decide (j = i) then x else f j.

Lemma upd_eq {A} i (x : A) f : upd i x f i = x.
Proof. unfold upd. by rewrite decide_True. Qed.

Lemma upd_ne {A} i j (x : A) f : j <> i -> upd i x f j = f j.
Proof. intros. unfold upd. by rewrite decide_False. Qed.

Module Rendezvous.

(** Where a process is. A sleeper runs
      acquire(lk); while(!cond) sleep(ch, lk); ...; release(lk)
    and a waker
      acquire(lk); cond = 1; wakeup(ch); release(lk). *)
Inductive pc :=
  | Idle       (* outside *)
  | Hold       (* has lk, about to test or set the condition *)
  | Want       (* in sleep: has lk, about to acquire p->lock *)
  | Both       (* has lk and p->lock, about to release lk *)
  | Own        (* has p->lock, about to set p->chan and p->state *)
  | Marked     (* SLEEPING, has p->lock, in sched *)
  | Asleep     (* switched out; the scheduler has released p->lock *)
  | Back       (* running again, with p->lock *)
  | Again      (* released p->lock, about to acquire lk *)
  | Scan (k : nat)    (* in wakeup, has lk, at process k *)
  | ScanLk (k : nat). (* in wakeup, has lk and the lock of process k *)

(** [asleep j]: p->state is SLEEPING and p->chan is the channel. *)
Record st := St {
  cond : bool;
  lk : option nat;
  plk : nat -> option nat;
  asleep : nat -> bool;
  at_ : nat -> pc }.

Inductive rdv_step (i : nat) : st -> st -> Prop :=
  | s_acquire c q a f : f i = Idle ->
      rdv_step i (St c None q a f) (St c (Some i) q a (upd i Hold f))
  | s_done l q a f c : f i = Hold ->
      rdv_step i (St true l q a f) (St c None q a (upd i Idle f))
  | s_sleep l q a f : f i = Hold ->
      rdv_step i (St false l q a f) (St false l q a (upd i Want f))
  | s_lock_p c l q a f : f i = Want -> q i = None ->
      rdv_step i (St c l q a f) (St c l (upd i (Some i) q) a (upd i Both f))
  | s_release_lk c l q a f : f i = Both ->
      rdv_step i (St c l q a f) (St c None q a (upd i Own f))
  | s_mark c l q a f : f i = Own ->
      rdv_step i (St c l q a f) (St c l q (upd i true a) (upd i Marked f))
  | s_switch c l q a f : f i = Marked ->
      rdv_step i (St c l q a f) (St c l (upd i None q) a (upd i Asleep f))
  | s_resume c l q a f : f i = Asleep -> a i = false -> q i = None ->
      rdv_step i (St c l q a f) (St c l (upd i (Some i) q) a (upd i Back f))
  | s_unlock_p c l q a f : f i = Back ->
      rdv_step i (St c l q a f) (St c l (upd i None q) a (upd i Again f))
  | s_reacquire c q a f : f i = Again ->
      rdv_step i (St c None q a f) (St c (Some i) q a (upd i Hold f))
  | s_set c l q a f : f i = Hold ->
      rdv_step i (St c l q a f) (St true l q a (upd i (Scan 0) f))
  | s_scan_self c l q a f : f i = Scan i ->
      rdv_step i (St c l q a f) (St c l q a (upd i (Scan (S i)) f))
  | s_scan_lock c l q a f k : f i = Scan k -> (k < NPROC)%nat -> k <> i -> q k = None ->
      rdv_step i (St c l q a f) (St c l (upd k (Some i) q) a (upd i (ScanLk k) f))
  | s_scan_wake c l q a f k : f i = ScanLk k ->
      rdv_step i (St c l q a f) (St c l (upd k None q) (upd k false a) (upd i (Scan (S k)) f))
  | s_scan_end c l q a f : f i = Scan NPROC ->
      rdv_step i (St c l q a f) (St c None q a (upd i Idle f))
  | s_kill c l q a f k : q k = None ->
      rdv_step i (St c l q a f) (St c l q (upd k false a) f).

Inductive reachable : st -> Prop :=
  | r_init : reachable (St false None (fun _ => None) (fun _ => false) (fun _ => Idle))
  | r_step i s s' : reachable s -> (i < NPROC)%nat -> rdv_step i s s' -> reachable s'.

Definition has_lk (p : pc) : Prop :=
  match p with Hold | Want | Both | Scan _ | ScanLk _ => True | _ => False end.
Definition has_own (p : pc) : Prop :=
  match p with Both | Own | Marked | Back => True | _ => False end.
Definition scans (p : pc) (k : nat) : Prop := p = Scan k \/ p = ScanLk k.

(** The process [j] has decided to sleep and can no longer see the condition. *)
Definition committed (s : st) (j : nat) : Prop :=
  at_ s j = Own \/ at_ s j = Marked \/ asleep s j = true.

Record inv (s : st) : Prop := {
  inv_lk : forall i, lk s = Some i <-> has_lk (at_ s i);
  inv_own : forall i, has_own (at_ s i) -> plk s i = Some i;
  inv_scan : forall i k, at_ s i = ScanLk k -> plk s k = Some i /\ k <> i;
  inv_asleep : forall j, asleep s j = true -> at_ s j = Marked \/ at_ s j = Asleep;
  inv_range : forall j, at_ s j <> Idle -> (j < NPROC)%nat;
  inv_cond : forall i, at_ s i = Want \/ at_ s i = Both -> cond s = false;
  inv_wake : forall j, cond s = true -> committed s j ->
    exists w k, scans (at_ s w) k /\ (k <= j)%nat }.

Lemma inv_one s i j : inv s -> has_lk (at_ s i) -> has_lk (at_ s j) -> i = j.
Proof. intros H Hi%(inv_lk _ H) Hj%(inv_lk _ H). congruence. Qed.

(** Case analysis on which entry an update changed. *)
Ltac upd_cases := unfold upd, committed, scans in *; simpl in *; intros;
  repeat case_decide; simplify_eq/=.

Lemma step_lk i s s' : inv s -> rdv_step i s s' -> forall j, lk s' = Some j <-> has_lk (at_ s' j).
Proof.
  intros Hinv Hst j. pose proof (inv_lk _ Hinv) as H. pose proof (inv_one _ i j Hinv) as H1.
  pose proof (H i) as Hi. pose proof (H j) as Hj.
  destruct Hst; simpl in *;
    repeat match goal with E : ?f i = _ |- _ => rewrite E in * end; simpl in *;
    upd_cases; simpl; try tauto; (split; [congruence|]); intros Hh; exfalso;
    first [done | by apply Hj in Hh | (match goal with E : j <> i |- _ => apply E end); symmetry; by apply H1].
Qed.

Lemma step_own i s s' : inv s -> rdv_step i s s' -> forall j, has_own (at_ s' j) -> plk s' j = Some j.
Proof.
  intros Hinv Hst j. pose proof (inv_own _ Hinv) as H. pose proof (inv_scan _ Hinv) as H2.
  destruct Hst; simpl in *;
    repeat match goal with E : ?g i = ScanLk _ |- _ => destruct (H2 _ _ E); clear E end;
    upd_cases; try done; try (by apply H);
    try (match goal with Hh : has_own _ |- _ => apply H in Hh; congruence end);
    try (by apply H; match goal with E : ?g _ = _ |- _ => rewrite E end).
Qed.

Lemma step_scan i s s' : inv s -> rdv_step i s s' ->
  forall j k, at_ s' j = ScanLk k -> plk s' k = Some j /\ k <> j.
Proof.
  intros Hinv Hst j k. pose proof (inv_own _ Hinv) as H. pose proof (inv_scan _ Hinv) as H2.
  destruct Hst; simpl in *; upd_cases; eauto;
    match goal with E : ?g _ = ScanLk _ |- _ => destruct (H2 _ _ E) end; try done;
    try (match goal with E : ?g i = _ |- _ => specialize (H i); rewrite E in H; specialize (H I) end);
    try congruence.
  destruct (H2 _ _ H0). congruence.
Qed.

Lemma step_asleep i s s' : inv s -> rdv_step i s s' ->
  forall j, asleep s' j = true -> at_ s' j = Marked \/ at_ s' j = Asleep.
Proof.
  intros Hinv Hst j. pose proof (inv_asleep _ Hinv) as H.
  destruct Hst; simpl in *; upd_cases; eauto;
    match goal with E : _ = true |- _ => destruct (H _ E) end; congruence.
Qed.

Lemma step_range i s s' : (i < NPROC)%nat -> inv s -> rdv_step i s s' ->
  forall j, at_ s' j <> Idle -> (j < NPROC)%nat.
Proof.
  intros Hi Hinv Hst j. pose proof (inv_range _ Hinv) as H.
  destruct Hst; simpl in *; upd_cases; eauto.
Qed.

Ltac at_rew := repeat match goal with E : ?g ?x = _ |- context [?g ?x] => rewrite E end.

Lemma step_cond i s s' : inv s -> rdv_step i s s' ->
  forall j, at_ s' j = Want \/ at_ s' j = Both -> cond s' = false.
Proof.
  intros Hinv Hst j. pose proof (inv_cond _ Hinv) as H. pose proof (inv_one _ i j Hinv) as H1.
  destruct Hst; simpl in *; upd_cases; try (by destruct_or!); try (by eauto);
    try (by apply (H i); left).
  - by apply H in H2.
  - exfalso. destruct H2 as [E|E]; rewrite H0, E in H1; by apply H3, eq_sym, H1.
Qed.

(** A scan by another process than the one that moves goes on. *)
Lemma scan_other (f : nat -> pc) i p j :
  (forall k, ~ scans (f i) k) ->
  (exists w k, scans (f w) k /\ (k <= j)%nat) ->
  exists w k, scans (upd i p f w) k /\ (k <= j)%nat.
Proof.
  intros Hi (w & k & Hw & Hk). exists w, k. rewrite upd_ne; [done|]. intros ->. by eapply Hi.
Qed.

Lemma step_wake i s s' : (i < NPROC)%nat -> inv s -> rdv_step i s s' ->
  forall j, cond s' = true -> committed s' j ->
  exists w k, scans (at_ s' w) k /\ (k <= j)%nat.
Proof.
  intros Hi Hinv Hst j Hc Hj.
  pose proof (inv_wake _ Hinv j) as H. pose proof (inv_cond _ Hinv i) as Hcond.
  pose proof (inv_own _ Hinv j) as Hown. pose proof (inv_scan _ Hinv i) as Hscan.
  pose proof (inv_asleep _ Hinv j) as Hasl. pose proof (inv_range _ Hinv j) as Hrange.
  destruct Hst as [c q a f E|l q a f c E|l q a f E|c l q a f E Eq|c l q a f E|c l q a f E|c l q a f E
    |c l q a f E Ea Eq|c l q a f E|c q a f E|c l q a f E|c l q a f E|c l q a f k E Ek Ei Eq
    |c l q a f k E|c l q a f E|c l q a f k Eq]; unfold committed in *; simpl in *.
  - apply scan_other; [intros ? [|]; congruence|]. apply H; [done|].
    unfold upd in Hj. case_decide; [subst|done]. destruct Hj as [|[|]]; [done|done|auto].
  - subst c. apply scan_other; [intros ? [|]; congruence|]. apply H; [done|].
    unfold upd in Hj. case_decide; [subst|done]. destruct Hj as [|[|]]; [done|done|auto].
  - done.
  - apply scan_other; [intros ? [|]; congruence|]. apply H; [done|].
    unfold upd in Hj. case_decide; [subst|done]. destruct Hj as [|[|]]; [done|done|auto].
  - rewrite Hcond in Hc by auto. done.
  - apply scan_other; [intros ? [|]; congruence|]. apply H; [done|].
    unfold upd in Hj. case_decide; [subst; auto|done].
  - apply scan_other; [intros ? [|]; congruence|]. apply H; [done|].
    unfold upd in Hj. case_decide; [subst; auto|done].
  - apply scan_other; [intros ? [|]; congruence|]. apply H; [done|].
    unfold upd in Hj. case_decide; [subst|done]. destruct Hj as [|[|]]; [done|done|auto].
  - apply scan_other; [intros ? [|]; congruence|]. apply H; [done|].
    unfold upd in Hj. case_decide; [subst|done]. destruct Hj as [|[|]]; [done|done|auto].
  - apply scan_other; [intros ? [|]; congruence|]. apply H; [done|].
    unfold upd in Hj. case_decide; [subst|done]. destruct Hj as [|[|]]; [done|done|auto].
  - exists i, 0%nat. rewrite upd_eq. split; [by left|lia].
  - destruct (decide (j = i)) as [->|Hne].
    { rewrite upd_eq in Hj. destruct Hj as [|[|Hj]]; [done|done|]. apply Hasl in Hj as [|]; congruence. }
    rewrite upd_ne in Hj by done. destruct (H Hc Hj) as (w & k & Hw & Hk).
    destruct (decide (w = i)) as [->|Hw'].
    + exists i, (S i). rewrite upd_eq. split; [by left|]. destruct Hw as [Hw|Hw]; rewrite E in Hw; simplify_eq; lia.
    + exists w, k. by rewrite upd_ne.
  - destruct (decide (j = i)) as [->|Hne].
    { rewrite upd_eq in Hj. destruct Hj as [|[|Hj]]; [done|done|]. apply Hasl in Hj as [|]; congruence. }
    rewrite upd_ne in Hj by done. destruct (H Hc Hj) as (w & k' & Hw & Hk).
    destruct (decide (w = i)) as [->|Hw'].
    + exists i, k. rewrite upd_eq. split; [by right|]. destruct Hw as [Hw|Hw]; rewrite E in Hw; simplify_eq; lia.
    + exists w, k'. by rewrite upd_ne.
  - destruct (Hscan k E) as [Hq Hki].
    destruct (decide (j = i)) as [->|Hne].
    { rewrite upd_eq, upd_ne in Hj by done. destruct Hj as [|[|Hj]]; [done|done|]. apply Hasl in Hj as [|]; congruence. }
    rewrite upd_ne in Hj by done.
    assert (Hjk : j <> k).
    { intros ->. rewrite upd_eq in Hj. destruct Hj as [Hj|[Hj|Hj]]; [..|done];
        rewrite Hj in Hown; specialize (Hown I); congruence. }
    rewrite upd_ne in Hj by done. destruct (H Hc Hj) as (w & k' & Hw & Hk).
    destruct (decide (w = i)) as [->|Hw'].
    + exists i, (S k). rewrite upd_eq. split; [by left|]. destruct Hw as [Hw|Hw]; rewrite E in Hw; simplify_eq; lia.
    + exists w, k'. by rewrite upd_ne.
  - destruct (decide (j = i)) as [->|Hne].
    { rewrite upd_eq in Hj. destruct Hj as [|[|Hj]]; [done|done|]. apply Hasl in Hj as [|]; congruence. }
    rewrite upd_ne in Hj by done. destruct (H Hc Hj) as (w & k & Hw & Hk).
    destruct (decide (w = i)) as [->|Hw'].
    + assert (j < NPROC)%nat.
      { apply Hrange. intros Ej. destruct Hj as [|[|Hj]]; [congruence..|]. apply Hasl in Hj as [|]; congruence. }
      destruct Hw as [Hw|Hw]; rewrite E in Hw; simplify_eq; lia.
    + exists w, k. by rewrite upd_ne.
  - apply H; [done|]. unfold upd in Hj. case_decide; [|done]. subst. destruct Hj as [|[|]]; auto. done.
Qed.

Lemma rdv_step_inv i s s' : (i < NPROC)%nat -> inv s -> rdv_step i s s' -> inv s'.
Proof.
  intros Hi Hinv Hst. split.
  - by eapply step_lk.
  - by eapply step_own.
  - by eapply step_scan.
  - by eapply step_asleep.
  - by eapply step_range.
  - by eapply step_cond.
  - by eapply step_wake.
Qed.

Lemma rdv_reachable_inv s : reachable s -> inv s.
Proof.
  induction 1; [|by eapply rdv_step_inv].
  split; simpl; done.
Qed.

(** C22: No wakeup is lost. In every interleaving of sleepers, wakers, the
    scheduler and kill: when the condition holds and no process is between
    setting it and the end of its wakeup, no process is asleep on the channel
    and none has gone past the point in [sleep] where it gave up the condition
    lock without yet being asleep. And at every moment, a process that is past
    that point while the condition holds is still ahead of some wakeup's scan. *)
Theorem no_lost_wakeup s :
  reachable s -> cond s = true ->
  (forall j, committed s j -> exists w k, scans (at_ s w) k /\ (k <= j)%nat) /\
  ((forall w k, ~ scans (at_ s w) k) ->
     forall j, asleep s j = false /\ at_ s j <> Own /\ at_ s j <> Marked).
Proof.
  intros Hr%rdv_reachable_inv Hc. pose proof (inv_wake _ Hr) as H. split; [auto|].
  intros Hno j. assert (Hn : ~ committed s j).
  { intros Hj. destruct (H j Hc Hj) as (w & k & Hw & _). by eapply Hno. }
  unfold committed in Hn. destruct (asleep s j); split_and!; try tauto; done.
Qed.

(** Process 0 falls asleep while process 1 sets the condition and wakes it. *)
Definition run_end : st :=
  St true (Some 1%nat) (upd 0 None (upd 0 (Some 1%nat) (upd 0 None (upd 0 (Some 0%nat) (fun _ => None)))))
    (upd 0 false (upd 0 true (fun _ => false)))
    (upd 1 (Scan 1) (upd 1 (ScanLk 0) (upd 0 Asleep (upd 1 (Scan 0) (upd 0 Marked (upd 1 Hold
      (upd 0 Own (upd 0 Both (upd 0 Want (upd 0 Hold (fun _ => Idle))))))))))).

Lemma run_end_reachable : reachable run_end.
Proof.
  eapply (r_step 1); [|unfold NPROC; lia|by apply s_scan_wake].
  eapply (r_step 1); [|unfold NPROC; lia|by apply s_scan_lock; [|unfold NPROC; lia|..]].
  eapply (r_step 0); [|unfold NPROC; lia|by apply s_switch].
  eapply (r_step 1); [|unfold NPROC; lia|by apply s_set].
  eapply (r_step 0); [|unfold NPROC; lia|by apply s_mark].
  eapply (r_step 1); [|unfold NPROC; lia|by apply s_acquire].
  eapply (r_step 0); [|unfold NPROC; lia|by eapply (s_release_lk 0 _ (Some 0%nat))].
  eapply (r_step 0); [|unfold NPROC; lia|by apply s_lock_p].
  eapply (r_step 0); [|unfold NPROC; lia|by apply s_sleep].
  eapply (r_step 0); [|unfold NPROC; lia|by apply s_acquire].
  apply r_init.
Qed.

Lemma no_lost_wakeup_witness :
  reachable run_end /\ (committed run_end 0 -> exists w k, scans (at_ run_end w) k /\ (k <= 0)%nat).
Proof. split; [exact run_end_reachable|]. exact (proj1 (no_lost_wakeup run_end run_end_reachable eq_refl) 0%nat). Defined.

End Rendezvous.

Module Running.

(** What a hart does. [Test] to [Rel] are the scheduler's loop body, [Enter] to
    [Exit] the process between two calls of [sched]. *)
Inductive mode :=
  | Free                (* between two processes of the loop *)
  | Test (p : nat)      (* acquired p->lock *)
  | Enter (p : nat)     (* switched to p, which still holds p->lock *)
  | Run (p : nat)       (* p runs, p->lock released *)
  | Leave (p : nat)     (* p acquired p->lock, about to change p->state *)
  | Exit (p : nat)      (* p->state changed, in sched *)
  | Rel (p : nat).      (* back in the scheduler, about to release p->lock *)

Record st := St {
  state : nat -> procstate;
  plk : nat -> option nat;
  on : nat -> mode }.

(** What a process may set its state to before [sched]: yield, sleep, exit. *)
Definition leaving (x : procstate) : Prop := x = RUNNABLE \/ x = SLEEPING \/ x = ZOMBIE.

(** Changes of p->state by others, each under p->lock: wakeup and kill, fork's
    allocproc and the end of fork, wait's freeproc. *)
Definition remote (x y : procstate) : Prop :=
  (x = SLEEPING /\ y = RUNNABLE) \/ (x = UNUSED /\ y = USED) \/
  (x = USED /\ (y = RUNNABLE \/ y = UNUSED)) \/ (x = ZOMBIE /\ y = UNUSED).

Inductive sched_step (c : nat) : st -> st -> Prop :=
  | t_acquire x q f p : f c = Free -> q p = None ->
      sched_step c (St x q f) (St x (upd p (Some c) q) (upd c (Test p) f))
  | t_run x q f p : f c = Test p -> x p = RUNNABLE ->
      sched_step c (St x q f) (St (upd p RUNNING x) q (upd c (Enter p) f))
  | t_skip x q f p : f c = Test p -> x p <> RUNNABLE ->
      sched_step c (St x q f) (St x q (upd c (Rel p) f))
  | t_enter x q f p : f c = Enter p ->
      sched_step c (St x q f) (St x (upd p None q) (upd c (Run p) f))
  | t_leave x q f p : f c = Run p -> q p = None ->
      sched_step c (St x q f) (St x (upd p (Some c) q) (upd c (Leave p) f))
  | t_set x q f p y : f c = Leave p -> leaving y ->
      sched_step c (St x q f) (St (upd p y x) q (upd c (Exit p) f))
  | t_switch x q f p : f c = Exit p -> x p <> RUNNING ->
      sched_step c (St x q f) (St x q (upd c (Rel p) f))
  | t_release x q f p : f c = Rel p ->
      sched_step c (St x q f) (St x (upd p None q) (upd c Free f))
  | t_remote x q f p y : q p = None -> remote (x p) y ->
      sched_step c (St x q f) (St (upd p y x) q f).

Inductive reachable : st -> Prop :=
  | r_init : reachable (St (fun _ => UNUSED) (fun _ => None) (fun _ => Free))
  | r_step c s s' : reachable s -> sched_step c s s' -> reachable s'.

Definition locks (m : mode) (p : nat) : Prop :=
  match m with Test r | Enter r | Leave r | Exit r | Rel r => r = p | _ => False end.
Definition runs (m : mode) (p : nat) : Prop :=
  match m with Enter r | Run r | Leave r => r = p | _ => False end.

Record inv (s : st) : Prop := {
  inv_lock : forall c p, locks (on s c) p -> plk s p = Some c;
  inv_runs : forall c p, runs (on s c) p -> state s p = RUNNING;
  inv_running : forall p, state s p = RUNNING -> exists c, runs (on s c) p;
  inv_one : forall c c' p, runs (on s c) p -> runs (on s c') p -> c = c';
  inv_exit : forall c p, on s c = Exit p -> leaving (state s p) }.

(** Nobody else holds the lock of [p], so nobody else is in a mode with it. *)
Lemma inv_alone s c d p : inv s -> locks (on s c) p -> locks (on s d) p -> d = c.
Proof. intros H Hc%(inv_lock _ H) Hd%(inv_lock _ H). congruence. Qed.

Lemma inv_nolock s d p : inv s -> plk s p = None -> ~ locks (on s d) p.
Proof. intros H E Hd%(inv_lock _ H). congruence. Qed.

Ltac mode_cases := unfold upd in *; simpl in *; intros; repeat case_decide; simplify_eq/=; try done.

Lemma step_lock c s s' : inv s -> sched_step c s s' ->
  forall d p, locks (on s' d) p -> plk s' p = Some d.
Proof.
  intros Hinv Hst d p. pose proof (inv_lock _ Hinv) as H. pose proof (inv_alone _ c d p Hinv) as H1.
  pose proof (H c p) as Hc. pose proof (H d p) as Hd. pose proof (inv_nolock _ d p Hinv) as Hn.
  destruct Hst as [x q f r E Eq|x q f r E Ex|x q f r E Ex|x q f r E|x q f r E Eq|x q f r y E Ey
    |x q f r E Ex|x q f r E|x q f r y Eq Er]; simpl in *; try rewrite E in *; mode_cases; auto;
    try (by apply Hn in Eq); exfalso; eauto.
Qed.

Lemma step_runs c s s' : inv s -> sched_step c s s' ->
  forall d p, runs (on s' d) p -> state s' p = RUNNING.
Proof.
  intros Hinv Hst d p. pose proof (inv_runs _ Hinv) as H. pose proof (inv_one _ Hinv) as H1.
  pose proof (H c p) as Hc. pose proof (H d p) as Hd. pose proof (H1 d c p) as H1'.
  destruct Hst as [x q f r E Eq|x q f r E Ex|x q f r E Ex|x q f r E|x q f r E Eq|x q f r y E Ey
    |x q f r E Ex|x q f r E|x q f r y Eq Er]; simpl in *; try rewrite E in *; mode_cases; auto;
    try (exfalso; by eauto).
  specialize (Hd H0). rewrite Hd in Er. by destruct Er as [[? ?]|[[? ?]|[[? ?]|[? ?]]]].
Qed.

Lemma step_running c s s' : inv s -> sched_step c s s' ->
  forall p, state s' p = RUNNING -> exists d, runs (on s' d) p.
Proof.
  intros Hinv Hst p Hp. pose proof (inv_running _ Hinv p) as H. pose proof (inv_runs _ Hinv) as Hr.
  destruct Hst as [x q f r E Eq|x q f r E Ex|x q f r E Ex|x q f r E|x q f r E Eq|x q f r y E Ey
    |x q f r E Ex|x q f r E|x q f r y Eq Er]; simpl in *;
    try (destruct (H Hp) as [d Hd]; exists d; destruct (decide (d = c)) as [->|];
         [rewrite upd_eq; rewrite E in Hd; by simpl in *|by rewrite upd_ne]).
  - destruct (decide (p = r)) as [->|].
    + exists c. by rewrite upd_eq.
    + rewrite upd_ne in Hp by done. destruct (H Hp) as [d Hd]. exists d.
      destruct (decide (d = c)) as [->|]; [by rewrite E in Hd|by rewrite upd_ne].
  - destruct (decide (p = r)) as [->|].
    + rewrite upd_eq in Hp. subst. by destruct Ey as [|[|]].
    + rewrite upd_ne in Hp by done. destruct (H Hp) as [d Hd]. exists d.
      destruct (decide (d = c)) as [->|]; [rewrite E in Hd; by simpl in *|by rewrite upd_ne].
  - destruct (decide (p = r)) as [->|].
    + rewrite upd_eq in Hp. subst. by destruct Er as [[? ?]|[[? ?]|[[? [?|?]]|[? ?]]]].
    + rewrite upd_ne in Hp by done. auto.
Qed.

Lemma step_one c s s' : inv s -> sched_step c s s' ->
  forall d d' p, runs (on s' d) p -> runs (on s' d') p -> d = d'.
Proof.
  intros Hinv Hst d d' p. pose proof (inv_one _ Hinv) as H. pose proof (inv_runs _ Hinv) as Hr.
  pose proof (Hr d p) as Hd. pose proof (Hr d' p) as Hd'. pose proof (H c d' p) as Hc.
  pose proof (H d c p) as Hc'. pose proof (H d d' p) as Hdd.
  destruct Hst as [x q f r E Eq|x q f r E Ex|x q f r E Ex|x q f r E|x q f r E Eq|x q f r y E Ey
    |x q f r E Ex|x q f r E|x q f r y Eq Er]; simpl in *; try rewrite E in *; mode_cases; auto;
    try (specialize (Hd H2)); try (specialize (Hd' H2)); try (specialize (Hd' H1));
    try (specialize (Hd H0)); try congruence; auto.
Qed.

Lemma step_exit c s s' : inv s -> sched_step c s s' ->
  forall d p, on s' d = Exit p -> leaving (state s' p).
Proof.
  intros Hinv Hst d p. pose proof (inv_exit _ Hinv d p) as H. pose proof (inv_lock _ Hinv) as Hl.
  pose proof (Hl d p) as Hd. pose proof (inv_alone _ c d p Hinv) as Ha.
  destruct Hst as [x q f r E Eq|x q f r E Ex|x q f r E Ex|x q f r E|x q f r E Eq|x q f r y E Ey
    |x q f r E Ex|x q f r E|x q f r y Eq Er]; simpl in *; try rewrite E in *; mode_cases; auto;
    try match goal with E1 : ?g ?d = Exit _ |- _ => rewrite E1 in * end; simpl in *; auto;
    try (exfalso; by eauto); try (specialize (Hd eq_refl)); try congruence.
Qed.

Lemma sched_reachable_inv s : reachable s -> inv s.
Proof.
  induction 1 as [|c s s' _ IH Hst]; [by split|]. split.
  - by eapply step_lock.
  - by eapply step_runs.
  - by eapply step_running.
  - by eapply step_one.
  - by eapply step_exit.
Qed.

(** C23: In every interleaving of any number of harts, a process runs on at most
    one of them, and p->state is RUNNING exactly while one runs it. While a
    process is giving up its hart (its state already changed, its stack still in
    use until swtch), no other hart runs it or may pick it, and the check in
    [sched] that its state is not RUNNING passes. *)
Theorem one_hart_per_process s :
  reachable s ->
  (forall c c' p, runs (on s c) p -> runs (on s c') p -> c = c') /\
  (forall p, state s p = RUNNING <-> exists c, runs (on s c) p) /\
  (forall c p, on s c = Exit p -> state s p <> RUNNING /\
     forall c', ~ runs (on s c') p /\ on s c' <> Test p).
Proof.
  intros Hr%sched_reachable_inv. pose proof Hr as [H1 H2 H3 H4 H5]. split_and!.
  - done.
  - intros p. split; [apply H3|]. intros [c Hc]. by eapply H2.
  - intros c p Hc. specialize (H5 c p Hc) as Hl.
    assert (Hn : state s p <> RUNNING) by (destruct Hl as [->|[->| ->]]; done).
    split; [done|]. intros c'. split; [intros Hx; by apply Hn, (H2 c')|].
    intros Ht. assert (c' = c) as ->; [|congruence].
    apply (inv_alone _ c c' p Hr); [by rewrite Hc|by rewrite Ht].
Qed.

(** Hart 0 runs process 5 and has it yield while hart 1 waits for the lock. *)
Definition yield_end : st :=
  St (upd 5 RUNNABLE (upd 5 RUNNING (upd 5 RUNNABLE (upd 5 USED (fun _ => UNUSED)))))
    (upd 5 (Some 0%nat) (upd 5 None (upd 5 (Some 0%nat) (fun _ => None))))
    (upd 0 (Exit 5) (upd 0 (Leave 5) (upd 0 (Run 5) (upd 0 (Enter 5) (upd 0 (Test 5) (fun _ => Free)))))).

Lemma yield_end_reachable : reachable yield_end.
Proof.
  eapply (r_step 0); [|apply t_set; [done|by left]].
  eapply (r_step 0); [|by apply t_leave].
  eapply (r_step 0); [|by apply t_enter].
  eapply (r_step 0); [|by apply t_run].
  eapply (r_step 0); [|by apply t_acquire].
  eapply (r_step 0); [|apply t_remote; [done|right; right; left; split; [done|by left]]].
  eapply (r_step 0); [|apply t_remote; [done|right; left; done]].
  apply r_init.
Qed.

Lemma one_hart_per_process_witness :
  reachable yield_end /\ on yield_end 0%nat = Exit 5 /\ ~ runs (on yield_end 1%nat) 5.
Proof.
  split; [exact yield_end_reachable|]. split; [done|].
  exact (proj1 (proj2 (proj2 (proj2 (one_hart_per_process yield_end yield_end_reachable)) 0%nat 5%nat eq_refl) 1%nat)).
Defined.

End Running.
