(* ===== verification/Sleeplock.v ===== *)
(** sleeplock.c: locks that sleep, in the buffers and the inodes. *)

From S2P Require Import Prelude Machine KState Spinlock Kalloc Proc ProcSpec.

(** Every [struct sleeplock] of the kernel, by where it is. *)
Inductive slid := SL_buf (i : nat) | SL_inode (i : nat).

#[global] Instance slid_eq_dec : EqDecision slid.
Proof. solve_decision. Defined.

(** [&lk->lk], and [lk] as a channel. *)
Definition sl_spin (x : slid) : lockid :=
  match x with SL_buf i => L_buf i | SL_inode i => L_inode i end.
Definition sl_chan (x : slid) : chan :=
  match x with SL_buf i => C_buflock i | SL_inode i => C_inodelock i end.

Definition b_set_lock (v : sleeplock) (b : buf) : buf :=
  Buf (b_valid b) (b_disk b) (b_dev b) (b_blockno b) v (b_refcnt b) (b_prev b) (b_next b) (b_data b).
Definition i_set_lock (v : sleeplock) (i : inode) : inode :=
  Inode (i_dev i) (i_inum i) (i_ref i) v (i_valid i) (i_type i) (i_major i) (i_minor i)
    (i_nlink i) (i_size i) (i_addrs i).

Definition sl_of (x : slid) (f : fst_) : option sleeplock :=
  match x with
  | SL_buf i => b_lock <$> fs_bufs f !! i
  | SL_inode i => i_lock <$> fs_inodes f !! i
  end.

Definition sl_put (x : slid) (v : sleeplock) (f : fst_) : fst_ :=
  match x with
  | SL_buf i => fs_set_bufs (alter (b_set_lock v) i (fs_bufs f)) f
  | SL_inode i => fs_set_inodes (alter (i_set_lock v) i (fs_inodes f)) f
  end.

Definition get_sl (x : slid) : K sleeplock := f ← gets k_fs; deref (sl_of x f).
Definition put_sl (x : slid) (v : sleeplock) : K unit :=
  get_sl x ;; modk (fun s => set_fs (sl_put x v (k_fs s)) s).

Definition initsleeplock (x : slid) (name : string) : K unit :=
  initlock (sl_spin x) "sleep lock" ;;
  put_sl x (Sleeplock 0 name 0).

(** [while (lk->locked) sleep(lk, &lk->lk);] *)
Fixpoint acquiresleep_loop (fuel : nat) (x : slid) : K unit :=
  match fuel with
  | O => nofuel
  | S fuel =>
    v ← get_sl x;
    if sl_locked v =? 0 then mret tt
    else sleep (sl_chan x) (sl_spin x) ;; acquiresleep_loop fuel x
  end.

Definition acquiresleep (x : slid) : K unit :=
  acquire (sl_spin x) ;;
  sleeping (fun fuel => acquiresleep_loop fuel x) ;;
  v ← get_sl x;
  put_sl x (Sleeplock 1 (sl_name v) (sl_pid v)) ;;
  i ← curproc;
  p ← get_proc i;
  put_sl x (Sleeplock 1 (sl_name v) (p_pid p)) ;;
  release (sl_spin x).

Definition releasesleep (x : slid) : K unit :=
  acquire (sl_spin x) ;;
  v ← get_sl x;
  put_sl x (Sleeplock 0 (sl_name v) 0) ;;
  wakeup (Some (sl_chan x)) ;;
  release (sl_spin x).

Definition holdingsleep (x : slid) : K bool :=
  acquire (sl_spin x) ;;
  v ← get_sl x;
  r ← (if sl_locked v =? 0 then mret false
       else i ← curproc; p ← get_proc i; mret (sl_pid v =? p_pid p));
  release (sl_spin x) ;;
  mret r.

(** ** The file system's callers *)

(** The spinlocks the file system uses. *)
Definition fs_lock (l : lockid) : Prop :=
  match l with
  | L_bcache | L_log | L_itable | L_vdisk | L_ftable => True
  | L_buf i => (i < NBUF)%nat
  | L_inode i => (i < NINODE)%nat
  | _ => False
  end.

(** Process [me] runs in the file system, no other hart holds a spinlock it
    needs, and the only sleepers are in [wait]. *)
Record fctx (me : nat) (pid : Z) (s : kst) : Prop := {
  fc_thread : kthread (Some me) s;
  fc_locks : forall l, fs_lock l -> lock_free l (k_hw s);
  fc_pid : p_pid <$> ps_procs (k_ps s) !! me = Some pid;
  fc_quiet : forall j p, ps_procs (k_ps s) !! j = Some p -> p_state p = SLEEPING ->
    exists k, p_chan p = Some (C_proc k) }.

(** It depends on the harts and the process table only. *)
Lemma fctx_ext me pid s s' :
  k_hw s' = k_hw s -> k_ps s' = k_ps s -> fctx me pid s -> fctx me pid s'.
Proof. intros Eh Ep [[A1 A2 A3 A4] B C D]. split; [split|..]; rewrite ?Eh, ?Ep; auto. Qed.

Lemma fctx_fs me pid f s : fctx me pid s -> fctx me pid (set_fs f s).
Proof. by apply fctx_ext. Qed.

#[export] Hint Resolve fctx_fs : xv6.

(** Under a spinlock the thread is as before but for that lock. *)
Lemma kthread_acq me l s :
  kthread me s -> (forall j, l <> L_proc j) -> kthread me (set_hw (acq l (k_hw s)) s).
Proof.
  intros [A1 A2 A3 A4] Hl. split; simpl; auto with xv6.
  rewrite list_lookup_alter_eq. rewrite <- A2. by destruct (h_cpus (k_hw s) !! _).
Qed.

Lemma curproc_run me e s : kthread (Some me) s -> curproc e s = Ok me e s.
Proof. intros H. unfold curproc. by erewrite bind_run by (by apply kthread_myproc). Qed.

Lemma wakeup_quiet me pid ch e s :
  fctx me pid s -> (forall k, ch <> C_proc k) -> wakeup (Some ch) e s = Ok tt e s.
Proof.
  intros [A _ _ D] Hch. erewrite wakeup_run by done. rewrite woken_id; [done|].
  intros i p Hp Hs E. destruct (D _ _ Hp Hs) as [k Hk]. rewrite Hk in E. injection E as <-. by eapply Hch.
Qed.

Lemma get_sl_run x e s v : sl_of x (k_fs s) = Some v -> get_sl x e s = Ok v e s.
Proof. intros H. unfold get_sl. krun. by rewrite H. Qed.

Lemma sl_of_put x v f w : sl_of x f = Some w -> sl_of x (sl_put x v f) = Some v.
Proof.
  destruct x as [i|i]; simpl; intros (b & Hb & _)%fmap_Some;
    rewrite list_lookup_alter_eq, Hb; done.
Qed.

Lemma put_sl_run x v e s w : sl_of x (k_fs s) = Some w ->
  put_sl x v e s = Ok tt e (set_fs (sl_put x v (k_fs s)) s).
Proof. intros H. unfold put_sl. by erewrite bind_run by (by apply get_sl_run). Qed.

Lemma sl_put_put x v w f : sl_put x v (sl_put x w f) = sl_put x v f.
Proof.
  destruct x as [i|i], f; simpl; unfold fs_set_bufs, fs_set_inodes; simpl; f_equal;
    apply list_eq; intros j; (destruct (decide (j = i)) as [->|];
      [rewrite !list_lookup_alter_eq|by rewrite !list_lookup_alter_ne by done]);
    (match goal with |- context [?l !! i] => by destruct (l !! i) end).
Qed.

Lemma sl_put_id x v f : sl_of x f = Some v -> sl_put x v f = f.
Proof.
  destruct x as [i|i], f as [bs d w lg sb ins]; simpl; intros (b & Hb & ->)%fmap_Some;
    unfold fs_set_bufs, fs_set_inodes; simpl; f_equal; erewrite list_alter_insert by done;
    apply list_insert_id; by destruct b.
Qed.

Section fctx.
Context (me : nat) (pid : Z) (x : slid) (e : env) (s : kst).
Context (Hf : fctx me pid s) (Hx : fs_lock (sl_spin x)).

Lemma fctx_hart : hart_ok (k_hw s).
Proof. apply Hf. Qed.

Lemma fctx_me : exists p, ps_procs (k_ps s) !! me = Some p /\ p_pid p = pid.
Proof. pose proof (fc_pid _ _ _ Hf) as (p & Hp & Hpid)%fmap_Some. eauto. Qed.

Lemma sl_spin_not_proc : forall j, sl_spin x <> L_proc j.
Proof. by destruct x. Qed.

(** A free sleeplock is taken without sleeping. *)
Lemma acquiresleep_run v :
  sl_of x (k_fs s) = Some v -> sl_locked v = 0 ->
  acquiresleep x e s = Ok tt e (set_fs (sl_put x (Sleeplock 1 (sl_name v) pid) (k_fs s)) s).
Proof.
  intros Hv Hl. pose proof fctx_hart as Hh. pose proof (fc_locks _ _ _ Hf _ Hx) as Hlf.
  destruct fctx_me as (p & Hp & Hpid).
  pose proof (kthread_acq _ _ _ (fc_thread _ _ _ Hf) sl_spin_not_proc) as Hk.
  unfold acquiresleep. erewrite bind_run by (by apply acquire_run).
  erewrite bind_run.
  2:{ unfold sleeping. cbn [acquiresleep_loop]. erewrite bind_run by (by apply get_sl_run).
      by rewrite Hl. }
  erewrite bind_run by (by apply get_sl_run).
  erewrite bind_run by (by eapply put_sl_run).
  erewrite bind_run by (apply (curproc_run me); destruct Hk; by split).
  erewrite bind_run by (by apply get_proc_run).
  erewrite bind_run by (eapply put_sl_run; simpl; by eapply sl_of_put).
  erewrite release_run; [|done|done|done]. simpl. rewrite sl_put_put, Hpid. by destruct s.
Qed.

Lemma releasesleep_run v :
  sl_of x (k_fs s) = Some v ->
  releasesleep x e s = Ok tt e (set_fs (sl_put x (Sleeplock 0 (sl_name v) 0) (k_fs s)) s).
Proof.
  intros Hv. pose proof fctx_hart as Hh. pose proof (fc_locks _ _ _ Hf _ Hx) as Hlf.
  pose proof (kthread_acq _ _ _ (fc_thread _ _ _ Hf) sl_spin_not_proc) as Hk.
  unfold releasesleep. erewrite bind_run by (by apply acquire_run).
  erewrite bind_run by (by apply get_sl_run).
  erewrite bind_run by (by eapply put_sl_run).
  erewrite bind_run.
  2:{ erewrite wakeup_run by (destruct Hk; by split). rewrite woken_id; [reflexivity|].
      intros i p Hp Hs E. destruct (fc_quiet _ _ _ Hf i p Hp Hs) as [k Hk']. rewrite Hk' in E. by destruct x. }
  erewrite release_run; [|done|done|done]. by destruct s.
Qed.

Lemma holdingsleep_run v :
  sl_of x (k_fs s) = Some v ->
  holdingsleep x e s = Ok (negb (sl_locked v =? 0) && (sl_pid v =? pid)) e s.
Proof.
  intros Hv. pose proof fctx_hart as Hh. pose proof (fc_locks _ _ _ Hf _ Hx) as Hlf.
  destruct fctx_me as (p & Hp & Hpid).
  pose proof (kthread_acq _ _ _ (fc_thread _ _ _ Hf) sl_spin_not_proc) as Hk.
  unfold holdingsleep. erewrite bind_run by (by apply acquire_run).
  erewrite bind_run by (by apply get_sl_run).
  destruct (sl_locked v =? 0) eqn:El; simpl.
  - erewrite bind_run by reflexivity. erewrite bind_run by (by apply release_run). by destruct s.
  - erewrite bind_run.
    2:{ erewrite bind_run by (by apply (curproc_run me)).
        erewrite bind_run by (by apply get_proc_run). rewrite Hpid. reflexivity. }
    erewrite bind_run by (by apply release_run). by destruct s.
Qed.

End fctx.

(** ** The protocol *)

(** Whatever other processes did while it slept, [acquiresleep] ends with the
    lock marked as the caller's. *)
Lemma acquiresleep_marks x e s e' s' :
  acquiresleep x e s = Ok tt e' s' ->
  exists name pid, sl_of x (k_fs s') = Some (Sleeplock 1 name pid).
Proof.
  unfold acquiresleep. intros H. kinv H. kinv H. kinv H. kinv H. kinv H. kinv H. kinv H.
  assert (Ef : k_fs s' = k_fs s6) by (exact (keeps_release k_fs (fun _ _ => eq_refl) _ _ _ _ _ _ H)).
  rewrite Ef. exists (sl_name a1), (p_pid a4). unfold put_sl in E5. kinv E5.
  unfold get_sl in E6. revert E5 E6. krun. case_match eqn:Es; [|done].
  intros. simplify_eq/=. by eapply sl_of_put.
Qed.

(** A sleeplock that is free is taken at once; the holder, and only the
    holder, is told by [holdingsleep] that it has it; releasing it restores the
    state from before. When [acquiresleep] returns after sleeping any number of
    times, the lock is marked as taken. *)
Theorem sleeplock_protocol me pid x e s name :
  fctx me pid s -> fs_lock (sl_spin x) ->
  (sl_of x (k_fs s) = Some (Sleeplock 0 name 0) ->
   (acquiresleep x ;; r ← holdingsleep x; releasesleep x ;; mret r) e s = Ok true e s) /\
  (forall n pid', sl_of x (k_fs s) = Some (Sleeplock n name pid') -> n = 0 \/ pid' <> pid ->
     holdingsleep x e s = Ok false e s) /\
  (forall e' s', acquiresleep x e s = Ok tt e' s' ->
     exists name pid', sl_of x (k_fs s') = Some (Sleeplock 1 name pid')).
Proof.
  intros Hf Hx. split_and!.
  - intros Hv. erewrite bind_run by (by eapply acquiresleep_run).
    assert (Hf' := fctx_fs _ _ (sl_put x (Sleeplock 1 name pid) (k_fs s)) _ Hf).
    erewrite bind_run by (eapply holdingsleep_run; [exact Hf'|done|simpl; by eapply sl_of_put]).
    erewrite bind_run by (eapply releasesleep_run; [exact Hf'|done|simpl; by eapply sl_of_put]).
    simpl. rewrite Z.eqb_refl, sl_put_put, sl_put_id by done. by destruct s.
  - intros n pid' Hv Hor. erewrite holdingsleep_run by done. simpl.
    destruct Hor as [->|Hne]; [done|]. by rewrite (proj2 (Z.eqb_neq pid' pid)), andb_false_r.
  - intros e' s'. apply acquiresleep_marks.
Qed.
