(* ===== verification/Bio.v ===== *)
(** bio.c: the buffer cache. A buffer is an index into [fs_bufs]; [NBUF] is the
    list head. The disk driver is an interface: what [virtio_disk_rw] promises
    to its caller. *)

From S2P Require Import Prelude Machine KState Spinlock Kalloc Proc ProcSpec Sleeplock.

(** ** Buffers *)

Definition b_set_valid (v : Z) (b : buf) : buf :=
  Buf v (b_disk b) (b_dev b) (b_blockno b) (b_lock b) (b_refcnt b) (b_prev b) (b_next b) (b_data b).
Definition b_set_id (dev blockno : Z) (b : buf) : buf :=
  Buf (b_valid b) (b_disk b) dev blockno (b_lock b) (b_refcnt b) (b_prev b) (b_next b) (b_data b).
Definition b_set_refcnt (v : Z) (b : buf) : buf :=
  Buf (b_valid b) (b_disk b) (b_dev b) (b_blockno b) (b_lock b) v (b_prev b) (b_next b) (b_data b).
Definition b_set_prev (v : nat) (b : buf) : buf :=
  Buf (b_valid b) (b_disk b) (b_dev b) (b_blockno b) (b_lock b) (b_refcnt b) v (b_next b) (b_data b).
Definition b_set_next (v : nat) (b : buf) : buf :=
  Buf (b_valid b) (b_disk b) (b_dev b) (b_blockno b) (b_lock b) (b_refcnt b) (b_prev b) v (b_data b).
Definition b_set_data (v : list Z) (b : buf) : buf :=
  Buf (b_valid b) (b_disk b) (b_dev b) (b_blockno b) (b_lock b) (b_refcnt b) (b_prev b) (b_next b) v.

Definition get_buf (b : nat) : K buf := f ← gets k_fs; deref (fs_bufs f !! b).
Definition upd_buf (b : nat) (g : buf -> buf) : K unit :=
  x ← get_buf b;
  modk (fun s => set_fs (fs_set_bufs (<[b := g x]> (fs_bufs (k_fs s))) (k_fs s)) s).

(** [&bcache.head] *)
Definition head : nat := NBUF.

(** ** The disk *)

(** A block of the disk; one never written reads as zeros. *)
Definition disk_block (d : gmap Z (list Z)) (n : Z) : list Z :=
  default (replicate (Z.to_nat BSIZE) 0) (d !! n).

(** The file system after [virtio_disk_rw(b, write)]. *)
Definition disk_done (b : nat) (x : buf) (write : bool) (f : fst_) : fst_ :=
  if write then
    fs_set_disk (<[b_blockno x := b_data x]> (fs_disk f))
      (fs_writes f ++ [(b_blockno x, b_data x)]) f
  else fs_set_bufs (<[b := b_set_data (disk_block (fs_disk f) (b_blockno x)) x]> (fs_bufs f)) f.

(** What the cache relies on: called by a process for a buffer of the cache,
    the driver returns after the transfer. *)
Class DiskDriver := {
  virtio_disk_rw : nat -> bool -> K unit;
  disk_rw_run : forall me pid b write x e s,
    fctx me pid s -> (b < NBUF)%nat -> fs_bufs (k_fs s) !! b = Some x ->
    virtio_disk_rw b write e s = Ok tt e (set_fs (disk_done b x write (k_fs s)) s) }.

(** A disk that transfers at once. *)
#[refine] Definition sync_disk : DiskDriver := {|
  virtio_disk_rw b write :=
    x ← get_buf b; modk (fun s => set_fs (disk_done b x write (k_fs s)) s) |}.
Proof.
  intros me pid b write x e s _ _ Hx. unfold get_buf. krun. by rewrite Hx.
Defined.

(** ** bio.c *)

(** The body of the loop of binit. *)
Definition binit_one (b : nat) : K unit :=
  h ← get_buf head;
  upd_buf b (b_set_next (b_next h)) ;;
  upd_buf b (b_set_prev head) ;;
  initsleeplock (SL_buf b) "buffer" ;;
  h ← get_buf head;
  upd_buf (b_next h) (b_set_prev b) ;;
  upd_buf head (b_set_next b).

Definition binit : K unit :=
  initlock L_bcache "bcache" ;;
  upd_buf head (b_set_prev head) ;;
  upd_buf head (b_set_next head) ;;
  forK (seq 0 NBUF) binit_one.

(** The two loops of bget, from the buffer [b] on. The list has NBUF entries. *)
Fixpoint bget_cached (fuel : nat) (b : nat) (dev blockno : Z) : K (option nat) :=
  match fuel with
  | O => nofuel
  | S fuel =>
    if decide (b = head) then mret None
    else
      x ← get_buf b;
      if (b_dev x =? dev) && (b_blockno x =? blockno) then mret (Some b)
      else bget_cached fuel (b_next x) dev blockno
  end.

Fixpoint bget_lru (fuel : nat) (b : nat) : K (option nat) :=
  match fuel with
  | O => nofuel
  | S fuel =>
    if decide (b = head) then mret None
    else
      x ← get_buf b;
      if b_refcnt x =? 0 then mret (Some b)
      else bget_lru fuel (b_prev x)
  end.

Definition bget (dev blockno : Z) : K nat :=
  acquire L_bcache ;;
  h ← get_buf head;
  hit ← bget_cached (S NBUF) (b_next h) dev blockno;
  match hit with
  | Some b =>
    upd_buf b (fun x => b_set_refcnt (u32 (b_refcnt x + 1)) x) ;;
    release L_bcache ;;
    acquiresleep (SL_buf b) ;;
    mret b
  | None =>
    h ← get_buf head;
    free ← bget_lru (S NBUF) (b_prev h);
    match free with
    | Some b =>
      upd_buf b (b_set_id dev blockno) ;;
      upd_buf b (b_set_valid 0) ;;
      upd_buf b (b_set_refcnt 1) ;;
      release L_bcache ;;
      acquiresleep (SL_buf b) ;;
      mret b
    | None => panic "bget: no buffers"
    end
  end.

Section bio.
Context `{DiskDriver}.

Definition bread (dev blockno : Z) : K nat :=
  b ← bget dev blockno;
  x ← get_buf b;
  when (b_valid x =? 0) (virtio_disk_rw b false ;; upd_buf b (b_set_valid 1)) ;;
  mret b.

Definition bwrite (b : nat) : K unit :=
  h ← holdingsleep (SL_buf b);
  when (negb h) (panic "bwrite") ;;
  virtio_disk_rw b true.

End bio.

(** Unlink [b] and put it first. *)
Definition brelse_move (b : nat) : K unit :=
  x ← get_buf b;
  upd_buf (b_next x) (b_set_prev (b_prev x)) ;;
  x ← get_buf b;
  upd_buf (b_prev x) (b_set_next (b_next x)) ;;
  h ← get_buf head;
  upd_buf b (b_set_next (b_next h)) ;;
  upd_buf b (b_set_prev head) ;;
  h ← get_buf head;
  upd_buf (b_next h) (b_set_prev b) ;;
  upd_buf head (b_set_next b).

Definition brelse (b : nat) : K unit :=
  h ← holdingsleep (SL_buf b);
  when (negb h) (panic "brelse") ;;
  releasesleep (SL_buf b) ;;
  acquire L_bcache ;;
  upd_buf b (fun x => b_set_refcnt (u32 (b_refcnt x - 1)) x) ;;
  x ← get_buf b;
  when (b_refcnt x =? 0) (brelse_move b) ;;
  release L_bcache.

Definition bpin (b : nat) : K unit :=
  acquire L_bcache ;;
  upd_buf b (fun x => b_set_refcnt (u32 (b_refcnt x + 1)) x) ;;
  release L_bcache.

Definition bunpin (b : nat) : K unit :=
  acquire L_bcache ;;
  upd_buf b (fun x => b_set_refcnt (u32 (b_refcnt x - 1)) x) ;;
  release L_bcache.
