(* ===== verification/BioList.v ===== *)
(** The list of bio.c: the buffers linked through prev and next, most recently
    used first, as a sequence. *)

From S2P Require Import Prelude Machine KState Spinlock Kalloc Proc ProcSpec Sleeplock Bio.

Definition nxt (bs : list buf) (a : nat) : option nat := b_next <$> bs !! a.
Definition prv (bs : list buf) (a : nat) : option nat := b_prev <$> bs !! a.

(** From [a] through [l] to [z]. *)
Fixpoint chain (bs : list buf) (a : nat) (l : list nat) (z : nat) : Prop :=
  match l with
  | [] => nxt bs a = Some z /\ prv bs z = Some a
  | b :: l => nxt bs a = Some b /\ prv bs b = Some a /\ chain bs b l z
  end.

(** The list head and the buffers in [order]. *)
Record dll (bs : list buf) (order : list nat) : Prop := {
  dl_chain : chain bs head order head;
  dl_perm : order ≡ₚ seq 0 NBUF;
  dl_len : length bs = S NBUF }.

Lemma dll_elem bs order b : dll bs order -> b ∈ order <-> (b < NBUF)%nat.
Proof. intros [_ Hp _]. rewrite Hp, elem_of_seq. lia. Qed.

Lemma dll_nodup bs order : dll bs order -> NoDup order.
Proof. intros [_ Hp _]. rewrite Hp. apply NoDup_seq. Qed.

Lemma dll_head bs order : dll bs order -> head ∉ order.
Proof. intros H Hin. apply (dll_elem _ _ _ H) in Hin. unfold head in Hin. lia. Qed.

Lemma chain_app bs a l1 b l2 z :
  chain bs a (l1 ++ b :: l2) z <-> chain bs a l1 b /\ chain bs b l2 z.
Proof.
  revert a. induction l1 as [|c l1 IH]; intros a; simpl; [tauto|]. rewrite IH. tauto.
Qed.

(** A chain reads next of its start and inner nodes, prev of inner nodes and
    its end. *)
Lemma chain_frame bs bs' a l z :
  (forall x, x ∈ a :: l -> nxt bs' x = nxt bs x) ->
  (forall x, x ∈ l ++ [z] -> prv bs' x = prv bs x) ->
  chain bs a l z -> chain bs' a l z.
Proof.
  revert a. induction l as [|b l IH]; intros a Hn Hp; simpl.
  - rewrite Hn, Hp by set_solver. done.
  - rewrite Hn by set_solver. rewrite Hp by set_solver. intros (? & ? & ?).
    split_and!; [done..|]. apply IH; [set_solver..|done].
Qed.

(** The last and the first node of a chain with its ends. *)
Lemma chain_last bs a l z : chain bs a l z -> prv bs z = Some (default a (last l)).
Proof.
  revert a. induction l as [|b l IH]; intros a; simpl; [tauto|].
  intros (_ & _ & H%IH). rewrite H. destruct l; [done|]. f_equal.
  change (last (b :: n :: l)) with (last (n :: l)).
  destruct (last (n :: l)) eqn:E; [done|]. by apply last_None in E.
Qed.

Lemma chain_first bs a l z : chain bs a l z -> nxt bs a = Some (default z (hd_error l)).
Proof. destruct l; simpl; tauto. Qed.

Lemma nxt_insert bs i x y a :
  bs !! i = Some x -> nxt (<[i := y]> bs) a = if decide (a = i) then Some (b_next y) else nxt bs a.
Proof.
  intros H. unfold nxt. case_decide as E.
  - subst. by rewrite list_lookup_insert_eq by (by eapply lookup_lt_Some).
  - by rewrite list_lookup_insert_ne.
Qed.

Lemma prv_insert bs i x y a :
  bs !! i = Some x -> prv (<[i := y]> bs) a = if decide (a = i) then Some (b_prev y) else prv bs a.
Proof.
  intros H. unfold prv. case_decide as E.
  - subst. by rewrite list_lookup_insert_eq by (by eapply lookup_lt_Some).
  - by rewrite list_lookup_insert_ne.
Qed.

(** Changing fields other than the links. *)
Lemma dll_insert bs order i x y :
  dll bs order -> bs !! i = Some x -> b_next y = b_next x -> b_prev y = b_prev x ->
  dll (<[i := y]> bs) order.
Proof.
  intros [H1 H2 H3] Hi En Ep. split; [|done|by rewrite length_insert].
  eapply chain_frame; [| |exact H1]; intros a _.
  - rewrite (nxt_insert _ _ _ _ _ Hi). case_decide; [subst|done]. unfold nxt. rewrite Hi. simpl. congruence.
  - rewrite (prv_insert _ _ _ _ _ Hi). case_decide; [subst|done]. unfold prv. rewrite Hi. simpl. congruence.
Qed.

(** ** The searches of bget *)

Definition id_matches (dev n : Z) (x : buf) : bool := (b_dev x =? dev) && (b_blockno x =? n).

(** The result of a search: the first buffer of [l] that satisfies [P]. *)
Fixpoint search (bs : list buf) (P : buf -> bool) (l : list nat) : option nat :=
  match l with
  | [] => None
  | b :: l => if default false (P <$> bs !! b) then Some b else search bs P l
  end.

Lemma chain_lookup bs a l z b : chain bs a l z -> b ∈ l -> is_Some (bs !! b).
Proof.
  revert a. induction l as [|c l IH]; intros a; [by intros _ ?%elem_of_nil|]. simpl.
  intros (_ & Hp & Hc) [->|Hb]%elem_of_cons; [|by eapply IH].
  unfold prv in Hp. destruct (bs !! c); [by eexists|done].
Qed.

Lemma bget_cached_run fuel a l dev n e s :
  chain (fs_bufs (k_fs s)) a l head -> head ∉ l -> (length l < fuel)%nat ->
  bget_cached fuel (default head (hd_error l)) dev n e s =
    Ok (search (fs_bufs (k_fs s)) (id_matches dev n) l) e s.
Proof.
  revert a l. induction fuel as [|fuel IH]; intros a l Hc Hh Hf; [lia|]. cbn [bget_cached].
  destruct l as [|b l].
  - change (default head (hd_error [])) with head. by rewrite decide_True.
  - change (default head (hd_error (b :: l))) with b. cbn [search].
    rewrite decide_False by set_solver. simpl in Hc. destruct Hc as (Hn & Hp & Hc).
    destruct (fs_bufs (k_fs s) !! b) as [x|] eqn:Ex.
    2:{ unfold prv in Hp. by rewrite Ex in Hp. }
    unfold get_buf. erewrite bind_run by (krun; rewrite Ex; reflexivity). simpl.
    unfold id_matches. destruct ((b_dev x =? dev) && (b_blockno x =? n)) eqn:E; [done|].
    pose proof (chain_first _ _ _ _ Hc) as Hf'. unfold nxt in Hf'. rewrite Ex in Hf'. simpl in Hf'.
    injection Hf' as ->. apply (IH b); [done|set_solver|simpl in Hf; lia].
Qed.

Lemma bget_lru_run fuel z l e s :
  chain (fs_bufs (k_fs s)) head l z -> head ∉ l -> (length l < fuel)%nat ->
  bget_lru fuel (default head (last l)) e s =
    Ok (search (fs_bufs (k_fs s)) (fun x => b_refcnt x =? 0) (reverse l)) e s.
Proof.
  revert z l. induction fuel as [|fuel IH]; intros z l Hc Hh Hf; [lia|]. cbn [bget_lru].
  destruct l as [|b l _] using rev_ind.
  - change (default head (last [])) with head. by rewrite decide_True.
  - rewrite last_snoc, reverse_snoc. change (default head (Some b)) with b. cbn [search].
    rewrite decide_False by set_solver.
    apply chain_app in Hc as [Hc1 Hc2]. pose proof (chain_last _ _ _ _ Hc1) as Hp.
    destruct (fs_bufs (k_fs s) !! b) as [x|] eqn:Ex.
    2:{ unfold prv in Hp. by rewrite Ex in Hp. }
    unfold get_buf. erewrite bind_run by (krun; rewrite Ex; reflexivity). simpl.
    destruct (b_refcnt x =? 0) eqn:E; [done|].
    unfold prv in Hp. rewrite Ex in Hp. simpl in Hp. injection Hp as ->.
    eapply IH; [exact Hc1|set_solver|rewrite length_app in Hf; simpl in Hf; lia].
Qed.

(** ** Updating buffers *)

Definition with_bufs (bs : list buf) (s : kst) : kst := set_fs (fs_set_bufs bs (k_fs s)) s.

Lemma with_bufs_twice bs bs' s : with_bufs bs (with_bufs bs' s) = with_bufs bs s.
Proof. by destruct s as [? ? ? ? [] ? ? ?]. Qed.

Lemma with_bufs_id s : with_bufs (fs_bufs (k_fs s)) s = s.
Proof. by destruct s as [? ? ? ? [] ? ? ?]. Qed.

Lemma bufs_with_bufs bs s : fs_bufs (k_fs (with_bufs bs s)) = bs.
Proof. done. Qed.

Lemma get_buf_run b e s x : fs_bufs (k_fs s) !! b = Some x -> get_buf b e s = Ok x e s.
Proof. intros H. unfold get_buf. krun. by rewrite H. Qed.

Lemma upd_buf_run b g e s :
  is_Some (fs_bufs (k_fs s) !! b) ->
  upd_buf b g e s = Ok tt e (with_bufs (alter g b (fs_bufs (k_fs s))) s).
Proof.
  intros [x Hx]. unfold upd_buf. erewrite bind_run by (by apply get_buf_run).
  by erewrite list_alter_insert by done.
Qed.

Lemma is_Some_alter {A} (g : A -> A) i j (l : list A) : is_Some (alter g i l !! j) <-> is_Some (l !! j).
Proof. by rewrite !lookup_lt_is_Some, length_alter. Qed.

Section links.
Context (bs : list buf) (i v : nat).

Lemma nxt_set_prev a : nxt (alter (b_set_prev v) i bs) a = nxt bs a.
Proof.
  unfold nxt. destruct (decide (a = i)) as [->|]; [|by rewrite list_lookup_alter_ne].
  rewrite list_lookup_alter_eq. by destruct (bs !! i).
Qed.

Lemma prv_set_next a : prv (alter (b_set_next v) i bs) a = prv bs a.
Proof.
  unfold prv. destruct (decide (a = i)) as [->|]; [|by rewrite list_lookup_alter_ne].
  rewrite list_lookup_alter_eq. by destruct (bs !! i).
Qed.

Lemma prv_set_prev a : is_Some (bs !! i) ->
  prv (alter (b_set_prev v) i bs) a = if decide (a = i) then Some v else prv bs a.
Proof.
  intros [x Hx]. unfold prv. case_decide; [subst|by rewrite list_lookup_alter_ne].
  by rewrite list_lookup_alter_eq, Hx.
Qed.

Lemma nxt_set_next a : is_Some (bs !! i) ->
  nxt (alter (b_set_next v) i bs) a = if decide (a = i) then Some v else nxt bs a.
Proof.
  intros [x Hx]. unfold nxt. case_decide; [subst|by rewrite list_lookup_alter_ne].
  by rewrite list_lookup_alter_eq, Hx.
Qed.
End links.

(** Taking [b] out: its neighbours are joined. *)
Lemma chain_unlink bs bs' a l1 b l2 z :
  chain bs a (l1 ++ b :: l2) z -> NoDup (l1 ++ b :: l2) ->
  a ∉ l1 ++ b :: l2 -> z ∉ l1 ++ b :: l2 ->
  (forall x, nxt bs' x = if decide (x = default a (last l1)) then Some (default z (hd_error l2)) else nxt bs x) ->
  (forall x, prv bs' x = if decide (x = default z (hd_error l2)) then Some (default a (last l1)) else prv bs x) ->
  chain bs' a (l1 ++ l2) z.
Proof.
  revert a. induction l1 as [|c l1 IH]; intros a Hc Hnd Ha Hz Hn Hp; simpl in *.
  - destruct Hc as (_ & _ & Hc). destruct l2 as [|d l2]; simpl in *.
    + rewrite Hn, Hp, !decide_True by done. done.
    + rewrite Hn, Hp, !decide_True by done. split_and!; [done..|]. destruct Hc as (_ & _ & Hc).
      apply NoDup_cons in Hnd as [_ Hnd]. apply NoDup_cons in Hnd as [Hd _].
      eapply chain_frame; [| |exact Hc].
      * intros x Hx. rewrite Hn, decide_False by set_solver. done.
      * intros x Hx. rewrite Hp, decide_False by set_solver. done.
  - destruct Hc as (H1 & H2 & Hc). apply NoDup_cons in Hnd as [Hd Hnd].
    assert (El : default a (last (c :: l1)) = default c (last l1)).
    { destruct l1 as [|d l1]; [done|]. change (last (c :: d :: l1)) with (last (d :: l1)).
      destruct (last (d :: l1)) eqn:E; [done|]. by apply last_None in E. }
    assert (Hin : default c (last l1) ∈ c :: l1).
    { destruct (last l1) as [d|] eqn:E; simpl; [|set_solver]. apply last_Some in E as [l' ->]. set_solver. }
    rewrite El in *.
    assert (Hz' : default z (hd_error l2) ∈ z :: l2) by (destruct l2; set_solver).
    rewrite Hn, Hp, !decide_False by set_solver. split_and!; [done..|].
    apply IH; [done|done|set_solver|set_solver|done|done].
Qed.

(** Putting [b] in front. *)
Lemma chain_push bs bs' b l z :
  chain bs z l z -> b ∉ l -> b <> z -> z ∉ l -> NoDup l ->
  (forall x, nxt bs' x = if decide (x = z) then Some b
     else if decide (x = b) then Some (default z (hd_error l)) else nxt bs x) ->
  (forall x, prv bs' x = if decide (x = default z (hd_error l)) then Some b
     else if decide (x = b) then Some z else prv bs x) ->
  chain bs' z (b :: l) z.
Proof.
  intros Hc Hb Hbz Hz Hnd Hn Hp. simpl.
  assert (Hz' : default z (hd_error l) ∈ z :: l) by (destruct l; set_solver).
  split; [by rewrite Hn, decide_True|]. split.
  { rewrite Hp, decide_False, decide_True by set_solver. done. }
  destruct l as [|c l]; simpl in *.
  - by rewrite Hn, Hp, decide_False, !decide_True.
  - rewrite Hn, Hp. rewrite (decide_False (P := b = z)), !decide_True by done.
    split_and!; [done..|]. destruct Hc as (_ & _ & Hc).
    apply NoDup_cons in Hnd as [Hcl _].
    eapply chain_frame; [| |exact Hc].
    + intros x Hx. rewrite Hn, !decide_False by set_solver. done.
    + intros x Hx. rewrite Hp, !decide_False by set_solver. done.
Qed.

(** Only links differ. *)
Definition links_only (bs bs' : list buf) : Prop :=
  length bs' = length bs /\
  forall i x, bs !! i = Some x ->
    exists n p, bs' !! i = Some (b_set_next n (b_set_prev p x)).

Lemma links_only_refl bs : links_only bs bs.
Proof. split; [done|]. intros i x Hx. exists (b_next x), (b_prev x). rewrite Hx. by destruct x. Qed.

Lemma links_only_alter bs bs' i g :
  links_only bs bs' -> (forall x, exists n p, g x = b_set_next n (b_set_prev p x)) ->
  links_only bs (alter g i bs').
Proof.
  intros [Hl H] Hg. split; [by rewrite length_alter|]. intros j x Hx.
  destruct (H j x Hx) as (n & p & Hj). destruct (decide (j = i)) as [->|].
  - rewrite list_lookup_alter_eq, Hj. simpl.
    destruct (Hg (b_set_next n (b_set_prev p x))) as (n' & p' & ->). by exists n', p'.
  - rewrite list_lookup_alter_ne by done. eauto.
Qed.

Lemma links_only_prev bs bs' i v : links_only bs bs' -> links_only bs (alter (b_set_prev v) i bs').
Proof. intros H. apply links_only_alter; [done|]. intros x. exists (b_next x), v. by destruct x. Qed.

Lemma links_only_next bs bs' i v : links_only bs bs' -> links_only bs (alter (b_set_next v) i bs').
Proof. intros H. apply links_only_alter; [done|]. intros x. exists v, (b_prev x). by destruct x. Qed.

(** The links as total functions, for the moves that follow them. *)
Definition nx (bs : list buf) (a : nat) : nat := default head (nxt bs a).
Definition pv (bs : list buf) (a : nat) : nat := default head (prv bs a).

Definition links_ok (bs : list buf) : Prop :=
  length bs = S NBUF /\ forall a, (nx bs a <= NBUF)%nat /\ (pv bs a <= NBUF)%nat.

Lemma links_lookup bs a : links_ok bs -> (a <= NBUF)%nat -> is_Some (bs !! a).
Proof. intros [Hl _] Ha. apply lookup_lt_is_Some. lia. Qed.

Lemma links_set_prev bs i v : links_ok bs -> (v <= NBUF)%nat -> links_ok (alter (b_set_prev v) i bs).
Proof.
  intros [Hl H] Hv. split; [by rewrite length_alter|]. intros a. unfold nx. rewrite nxt_set_prev.
  split; [apply H|]. unfold pv. destruct (decide (is_Some (bs !! i))) as [Hi|Hi].
  - rewrite prv_set_prev by done. case_decide; [done|apply H].
  - apply eq_None_not_Some in Hi. unfold prv. destruct (decide (a = i)) as [->|].
    + rewrite list_lookup_alter_eq, Hi. simpl. unfold head. lia.
    + rewrite list_lookup_alter_ne by done. apply H.
Qed.

Lemma links_set_next bs i v : links_ok bs -> (v <= NBUF)%nat -> links_ok (alter (b_set_next v) i bs).
Proof.
  intros [Hl H] Hv. split; [by rewrite length_alter|]. intros a. unfold pv. rewrite prv_set_next.
  split; [|apply H]. unfold nx. destruct (decide (is_Some (bs !! i))) as [Hi|Hi].
  - rewrite nxt_set_next by done. case_decide; [done|apply H].
  - apply eq_None_not_Some in Hi. unfold nxt. destruct (decide (a = i)) as [->|].
    + rewrite list_lookup_alter_eq, Hi. simpl. unfold head. lia.
    + rewrite list_lookup_alter_ne by done. apply H.
Qed.

#[export] Hint Resolve links_set_prev links_set_next links_lookup : xv6.

Lemma chain_links bs a l z :
  (a <= NBUF)%nat -> (z <= NBUF)%nat -> (forall x, x ∈ l -> x <= NBUF)%nat -> chain bs a l z ->
  (forall x, x ∈ a :: l -> nx bs x <= NBUF)%nat /\ (forall x, x ∈ l ++ [z] -> pv bs x <= NBUF)%nat.
Proof.
  revert a. induction l as [|b l IH]; intros a Ha Hz Hl; simpl.
  - intros [Hn Hp]. unfold nx, pv. split; intros x ->%list_elem_of_singleton; [by rewrite Hn|by rewrite Hp].
  - intros (Hn & Hp & Hc). destruct (IH b) as [IH1 IH2]; [apply Hl; set_solver|done|set_solver|done|].
    split; intros x [->|Hx]%elem_of_cons; [|by apply IH1| |by apply IH2].
    + unfold nx. rewrite Hn. apply Hl. set_solver.
    + unfold pv. by rewrite Hp.
Qed.

Lemma dll_links bs order : dll bs order -> links_ok bs.
Proof.
  intros Hd. split; [apply Hd|]. intros a.
  destruct (chain_links bs head order head) as [Hn Hp]; [done|done| |apply Hd|].
  { intros x Hx%(dll_elem _ _ _ Hd). lia. }
  destruct (decide (a <= NBUF)%nat) as [Ha|Ha].
  - assert (a = head \/ a ∈ order) as Hin.
    { destruct (decide (a = NBUF)); [by left|right]. apply (dll_elem _ _ _ Hd). lia. }
    split; [apply Hn|apply Hp]; set_solver.
  - unfold nx, pv, nxt, prv. rewrite lookup_ge_None_2 by (rewrite (dl_len _ _ Hd); lia).
    simpl. unfold head. lia.
Qed.

Lemma get_buf_wp b e s Q :
  links_ok (fs_bufs (k_fs s)) -> (b <= NBUF)%nat ->
  (forall x, fs_bufs (k_fs s) !! b = Some x -> b_next x = nx (fs_bufs (k_fs s)) b ->
     b_prev x = pv (fs_bufs (k_fs s)) b -> Q x e s) ->
  wp (get_buf b) e s Q.
Proof.
  intros Hk Hb HQ. destruct (links_lookup _ _ Hk Hb) as [x Hx]. unfold wp.
  rewrite (get_buf_run _ _ _ _ Hx). apply HQ; [done|unfold nx, nxt|unfold pv, prv]; by rewrite Hx.
Qed.

Lemma upd_buf_wp b g e s Q :
  links_ok (fs_bufs (k_fs s)) -> (b <= NBUF)%nat ->
  Q tt e (with_bufs (alter g b (fs_bufs (k_fs s))) s) -> wp (upd_buf b g) e s Q.
Proof. intros Hk Hb HQ. unfold wp. by rewrite upd_buf_run by eauto with xv6. Qed.

(** What [brelse_move] computes. *)
Definition moved (b : nat) (bs : list buf) : list buf :=
  let bs1 := alter (b_set_prev (pv bs b)) (nx bs b) bs in
  let bs2 := alter (b_set_next (nx bs1 b)) (pv bs1 b) bs1 in
  let bs3 := alter (b_set_next (nx bs2 head)) b bs2 in
  let bs4 := alter (b_set_prev head) b bs3 in
  let bs5 := alter (b_set_prev b) (nx bs4 head) bs4 in
  alter (b_set_next b) head bs5.

Lemma links_nx bs a : links_ok bs -> (nx bs a <= NBUF)%nat.
Proof. intros H. apply H. Qed.
Lemma links_pv bs a : links_ok bs -> (pv bs a <= NBUF)%nat.
Proof. intros H. apply H. Qed.
#[export] Hint Resolve links_nx links_pv : xv6.

Ltac links := solve [repeat first
  [ done | apply links_set_prev | apply links_set_next | apply links_nx | apply links_pv ]].

Lemma brelse_move_wp b e s Q :
  links_ok (fs_bufs (k_fs s)) -> (b <= NBUF)%nat ->
  Q tt e (with_bufs (moved b (fs_bufs (k_fs s))) s) -> wp (brelse_move b) e s Q.
Proof.
  intros Hk Hb HQ. assert (Hh : (head <= NBUF)%nat) by done. unfold brelse_move.
  unfold moved in HQ. cbv zeta in HQ.
  apply wp_bind, get_buf_wp; [links..|]. intros x1 _ -> ->.
  apply wp_bind, upd_buf_wp; [links..|].
  apply wp_bind, get_buf_wp; rewrite ?bufs_with_bufs; [links..|]. intros x2 _ -> ->.
  apply wp_bind, upd_buf_wp; rewrite ?bufs_with_bufs; [links..|]. rewrite with_bufs_twice.
  apply wp_bind, get_buf_wp; rewrite ?bufs_with_bufs; [links..|]. intros x3 _ -> _.
  apply wp_bind, upd_buf_wp; rewrite ?bufs_with_bufs; [links..|]. rewrite with_bufs_twice.
  apply wp_bind, upd_buf_wp; rewrite ?bufs_with_bufs; [links..|]. rewrite with_bufs_twice.
  apply wp_bind, get_buf_wp; rewrite ?bufs_with_bufs; [links..|]. intros x4 _ -> _.
  apply wp_bind, upd_buf_wp; rewrite ?bufs_with_bufs; [links..|]. rewrite with_bufs_twice.
  apply upd_buf_wp; rewrite ?bufs_with_bufs; [links..|]. by rewrite with_bufs_twice.
Qed.

Lemma nx_some bs a : links_ok bs -> (a <= NBUF)%nat -> nxt bs a = Some (nx bs a).
Proof. intros Hk Ha. destruct (links_lookup _ _ Hk Ha) as [x Hx]. unfold nx, nxt. by rewrite Hx. Qed.

Lemma moved_links_only b bs : links_only bs (moved b bs).
Proof.
  unfold moved. cbv zeta. repeat first [apply links_only_prev | apply links_only_next]. apply links_only_refl.
Qed.

(** The move of brelse puts [b] first and keeps the others in order. *)
Lemma moved_dll b bs l1 l2 : dll bs (l1 ++ b :: l2) -> dll (moved b bs) (b :: l1 ++ l2).
Proof.
  intros Hd. pose proof (dll_links _ _ Hd) as Hk.
  assert (Hb : (b < NBUF)%nat) by (apply (dll_elem _ _ _ Hd); set_solver).
  assert (Hbh : b <> head) by (unfold head; lia).
  pose proof (dll_nodup _ _ Hd) as Hnd. pose proof (dll_head _ _ Hd) as Hhd.
  pose proof (dl_chain _ _ Hd) as Hc. pose proof Hc as [Hc1 Hc2]%chain_app.
  assert (Hp : pv bs b = default head (last l1)) by (unfold pv; by rewrite (chain_last _ _ _ _ Hc1)).
  assert (Hn : nx bs b = default head (hd_error l2)) by (unfold nx; by rewrite (chain_first _ _ _ _ Hc2)).
  assert (Hnd' : NoDup (b :: l1 ++ l2)) by (by rewrite Permutation_middle).
  apply NoDup_cons in Hnd' as [Hbl Hnd'].
  assert (Hnb : nx bs b <> b) by (rewrite Hn; destruct l2; set_solver).
  unfold moved. cbv zeta.
  set (bs1 := alter (b_set_prev (pv bs b)) (nx bs b) bs).
  assert (Hk1 : links_ok bs1) by links.
  assert (E1 : nx bs1 b = nx bs b) by (unfold nx, bs1; by rewrite nxt_set_prev).
  assert (E2 : pv bs1 b = pv bs b).
  { unfold pv at 1, bs1. rewrite prv_set_prev by (apply links_lookup; links). by rewrite decide_False by done. }
  rewrite E1, E2. set (bs2 := alter (b_set_next (nx bs b)) (pv bs b) bs1).
  assert (Hk2 : links_ok bs2) by links.
  assert (Hc' : chain bs2 head (l1 ++ l2) head).
  { eapply chain_unlink; [exact Hc|done..| |]; intros x; rewrite <- Hp, <- Hn; unfold bs2.
    - rewrite nxt_set_next by (apply links_lookup; links). unfold bs1. by rewrite nxt_set_prev.
    - rewrite prv_set_next. unfold bs1. by rewrite prv_set_prev by (apply links_lookup; links). }
  assert (Hf : nx bs2 head = default head (hd_error (l1 ++ l2)))
    by (unfold nx; by rewrite (chain_first _ _ _ _ Hc')).
  set (bs4 := alter _ b (alter _ b bs2)). assert (Hk4 : links_ok bs4) by (unfold head in *; links).
  assert (E4 : nx bs4 head = nx bs2 head).
  { unfold nx at 1, bs4. rewrite nxt_set_prev, nxt_set_next by (apply links_lookup; [done|lia]).
    by rewrite decide_False by done. }
  rewrite E4. split.
  - eapply chain_push; [exact Hc'|done|done|set_solver|done| |]; intros x; rewrite <- Hf.
    + rewrite nxt_set_next by (apply is_Some_alter, links_lookup; done). case_decide; [done|].
      unfold bs4. rewrite !nxt_set_prev, nxt_set_next by (apply links_lookup; [done|lia]). done.
    + rewrite prv_set_next, prv_set_prev by (apply links_lookup; links). case_decide; [done|].
      unfold bs4. rewrite prv_set_prev by (apply is_Some_alter, links_lookup; [done|lia]).
      by rewrite prv_set_next.
  - rewrite <- (dl_perm _ _ Hd). by rewrite Permutation_middle.
  - rewrite !length_alter. apply Hk4.
Qed.
