(* ===== verification/BioSpec.v ===== *)
(** The buffer cache as the rest of the file system sees it: one copy of each
    block, which [L] gives, whatever is cached. *)

From stdpp Require Import functions.
From S2P Require Import Prelude Machine KState Spinlock Kalloc Proc ProcSpec Sleeplock Bio BioList.

(** ** bget *)

Lemma search_some bs P l b :
  search bs P l = Some b -> b ∈ l /\ exists x, bs !! b = Some x /\ P x = true.
Proof.
  induction l as [|c l IH]; simpl; [done|]. destruct (bs !! c) as [x|] eqn:E; simpl.
  - destruct (P x) eqn:EP.
    + intros [= <-]. split; [set_solver|eauto].
    + intros [? ?]%IH. split; [set_solver|done].
  - intros [? ?]%IH. split; [set_solver|done].
Qed.

Lemma search_none bs P l :
  search bs P l = None <-> forall b x, b ∈ l -> bs !! b = Some x -> P x = false.
Proof.
  induction l as [|c l IH]; simpl.
  - split; [|done]. by intros _ b x ?%elem_of_nil.
  - destruct (bs !! c) as [x|] eqn:E; simpl; [destruct (P x) eqn:EP|].
    + split; [done|]. intros H. rewrite (H c x) in EP; [done|set_solver|done].
    + rewrite IH. split; intros H b y Hb Hy; [|apply (H b y); [set_solver|done]].
      apply elem_of_cons in Hb as [->|Hb]; [congruence|by eapply H].
    + rewrite IH. split; intros H b y Hb Hy; [|apply (H b y); [set_solver|done]].
      apply elem_of_cons in Hb as [->|Hb]; [congruence|by eapply H].
Qed.

(** What bget makes of the buffer it returns: a hit gains a reference, a
    recycled buffer a new identity. *)
Definition taken (pid : Z) (x : buf) : buf := b_set_lock (Sleeplock 1 (sl_name (b_lock x)) pid) x.
Definition ref_up (x : buf) : buf := b_set_refcnt (u32 (b_refcnt x + 1)) x.
Definition ref_down (x : buf) : buf := b_set_refcnt (u32 (b_refcnt x - 1)) x.
Definition recycled (dev n : Z) (x : buf) : buf := b_set_refcnt 1 (b_set_valid 0 (b_set_id dev n x)).

Section bget.
Context (me : nat) (pid : Z) (s : kst) (order : list nat) (dev n : Z) (e : env).
Context (Hf : fctx me pid s) (Hd : dll (fs_bufs (k_fs s)) order).

Lemma bcache_free : lock_free L_bcache (k_hw s).
Proof. by apply (fc_locks _ _ _ Hf). Qed.

Lemma order_fuel : (length order < S NBUF)%nat.
Proof. rewrite (dl_perm _ _ Hd), length_seq. lia. Qed.

Lemma head_buf : exists h, fs_bufs (k_fs s) !! head = Some h /\
  b_next h = default head (hd_error order) /\ b_prev h = default head (last order).
Proof.
  destruct (links_lookup _ head (dll_links _ _ Hd)) as [h Hh]; [done|]. exists h. split; [done|].
  pose proof (chain_first _ _ _ _ (dl_chain _ _ Hd)) as H1.
  pose proof (chain_last _ _ _ _ (dl_chain _ _ Hd)) as H2.
  unfold nxt, prv in *. rewrite Hh in *. by simplify_eq/=.
Qed.

(** Taking the lock of the buffer just found. *)
Lemma take_buf bs b x :
  bs !! b = Some x -> (b < NBUF)%nat -> sl_locked (b_lock x) = 0 ->
  acquiresleep (SL_buf b) e (with_bufs bs s) = Ok tt e (with_bufs (<[b := taken pid x]> bs) s).
Proof.
  intros Hx Hb Hl.
  erewrite acquiresleep_run; [|by apply fctx_fs|done|simpl; by rewrite Hx|done].
  simpl. by erewrite list_alter_insert by done.
Qed.

Lemma bget_hit_run b x :
  search (fs_bufs (k_fs s)) (id_matches dev n) order = Some b ->
  fs_bufs (k_fs s) !! b = Some x -> sl_locked (b_lock x) = 0 ->
  bget dev n e s = Ok b e (with_bufs (<[b := taken pid (ref_up x)]> (fs_bufs (k_fs s))) s).
Proof.
  intros Hs Hx Hl. pose proof bcache_free as Hlf. pose proof (fctx_hart _ _ _ Hf) as Hh.
  destruct head_buf as (h & Hhd & Hn & _). destruct (search_some _ _ _ _ Hs) as [Hin _].
  assert (Hb : (b < NBUF)%nat) by (by apply (dll_elem _ _ _ Hd)).
  unfold bget. erewrite bind_run by (by apply acquire_run).
  erewrite bind_run by (by apply get_buf_run).
  erewrite bind_run by (rewrite Hn; eapply bget_cached_run;
    [apply Hd|by eapply dll_head|exact order_fuel]).
  cbn [k_fs set_hw]. rewrite Hs. erewrite bind_run by (apply upd_buf_run; by exists x).
  erewrite bind_run by (by apply release_run).
  simpl. erewrite list_alter_insert by done.
  erewrite bind_run.
  2:{ apply (take_buf (<[b := ref_up x]> (fs_bufs (k_fs s))) b (ref_up x)); [|done|done].
      by rewrite list_lookup_insert_eq by (by eapply lookup_lt_Some). }
  by rewrite list_insert_insert_eq.
Qed.

Lemma bget_miss_run b x :
  search (fs_bufs (k_fs s)) (id_matches dev n) order = None ->
  search (fs_bufs (k_fs s)) (fun x => b_refcnt x =? 0) (reverse order) = Some b ->
  fs_bufs (k_fs s) !! b = Some x -> sl_locked (b_lock x) = 0 ->
  bget dev n e s = Ok b e (with_bufs (<[b := taken pid (recycled dev n x)]> (fs_bufs (k_fs s))) s).
Proof.
  intros Hs Hs2 Hx Hl. pose proof bcache_free as Hlf. pose proof (fctx_hart _ _ _ Hf) as Hh.
  destruct head_buf as (h & Hhd & Hn & Hp). destruct (search_some _ _ _ _ Hs2) as [Hin _].
  assert (Hb : (b < NBUF)%nat) by (apply (dll_elem _ _ _ Hd); by rewrite <- elem_of_reverse).
  assert (Hlt : (b < length (fs_bufs (k_fs s)))%nat) by (by eapply lookup_lt_Some).
  unfold bget. erewrite bind_run by (by apply acquire_run).
  erewrite bind_run by (by apply get_buf_run).
  erewrite bind_run by (rewrite Hn; eapply bget_cached_run;
    [apply Hd|by eapply dll_head|exact order_fuel]).
  cbn [k_fs set_hw]. rewrite Hs. erewrite bind_run by (by apply get_buf_run).
  erewrite bind_run by (rewrite Hp; eapply bget_lru_run;
    [apply Hd|by eapply dll_head|exact order_fuel]).
  cbn [k_fs set_hw]. rewrite Hs2. erewrite bind_run by (apply upd_buf_run; by exists x).
  erewrite bind_run by (apply upd_buf_run; apply is_Some_alter; by exists x).
  erewrite bind_run by (apply upd_buf_run; apply is_Some_alter, is_Some_alter; by exists x).
  erewrite bind_run by (by apply release_run). simpl.
  assert (E : alter (b_set_refcnt 1) b (alter (b_set_valid 0) b (alter (b_set_id dev n) b (fs_bufs (k_fs s))))
    = <[b := recycled dev n x]> (fs_bufs (k_fs s))).
  { apply list_eq. intros j. destruct (decide (j = b)) as [->|].
    - by rewrite !list_lookup_alter_eq, Hx, list_lookup_insert_eq.
    - by rewrite !list_lookup_alter_ne, list_lookup_insert_ne by done. }
  rewrite E. erewrite bind_run.
  2:{ apply (take_buf (<[b := recycled dev n x]> (fs_bufs (k_fs s))) b (recycled dev n x)); [|done|done].
      by rewrite list_lookup_insert_eq. }
  by rewrite list_insert_insert_eq.
Qed.

Lemma bget_none_run :
  search (fs_bufs (k_fs s)) (id_matches dev n) order = None ->
  search (fs_bufs (k_fs s)) (fun x => b_refcnt x =? 0) (reverse order) = None ->
  bget dev n e s = Panic "bget: no buffers".
Proof.
  intros Hs Hs2. pose proof bcache_free as Hlf. pose proof (fctx_hart _ _ _ Hf) as Hh.
  destruct head_buf as (h & Hhd & Hn & Hp).
  unfold bget. erewrite bind_run by (by apply acquire_run).
  erewrite bind_run by (by apply get_buf_run).
  erewrite bind_run by (rewrite Hn; eapply bget_cached_run;
    [apply Hd|by eapply dll_head|exact order_fuel]).
  cbn [k_fs set_hw]. rewrite Hs. erewrite bind_run by (by apply get_buf_run).
  erewrite bind_run by (rewrite Hp; eapply bget_lru_run;
    [apply Hd|by eapply dll_head|exact order_fuel]).
  cbn [k_fs set_hw]. by rewrite Hs2.
Qed.

End bget.

(** ** The invariant *)

(** What one process sees of the cache: [L] gives the current content of each
    block, [held] the buffers it has locked and their blocks, [pins] the
    blocks pinned by the log, [dirty] those whose content is not yet the
    disk's. *)
Record bview := BView {
  bv_L : Z -> list Z;
  bv_held : gmap nat Z;
  bv_pins : gset Z;
  bv_dirty : gset Z }.

Definition bv_hold (b : nat) (n : Z) (v : bview) : bview :=
  BView (bv_L v) (<[b := n]> (bv_held v)) (bv_pins v) (bv_dirty v).
Definition bv_drop (b : nat) (v : bview) : bview :=
  BView (bv_L v) (delete b (bv_held v)) (bv_pins v) (bv_dirty v).
Definition bv_edit (n : Z) (d : list Z) (v : bview) : bview :=
  BView (<[n := d]> (bv_L v)) (bv_held v) (bv_pins v) (bv_dirty v ∪ {[n]}).
Definition bv_pin (n : Z) (v : bview) : bview :=
  BView (bv_L v) (bv_held v) (bv_pins v ∪ {[n]}) (bv_dirty v).
Definition bv_unpin (n : Z) (v : bview) : bview :=
  BView (bv_L v) (bv_held v) (bv_pins v ∖ {[n]}) (bv_dirty v).
Definition bv_clean (n : Z) (v : bview) : bview :=
  BView (bv_L v) (bv_held v) (bv_pins v) (bv_dirty v ∖ {[n]}).

Section bc.
Context (me : nat) (pid dev : Z).

(** One buffer. A buffer of another device than [dev] was never used. *)
Record buf_ok (v : bview) (i : nat) (x : buf) : Prop := {
  bo_lock : b_lock x = match bv_held v !! i with
    Some _ => Sleeplock 1 "buffer" pid | None => Sleeplock 0 "buffer" 0 end;
  bo_len : length (b_data x) = Z.to_nat BSIZE;
  bo_ref : b_refcnt x = (if decide (is_Some (bv_held v !! i)) then 1 else 0) +
    (if decide (b_dev x = dev /\ b_blockno x ∈ bv_pins v) then 1 else 0);
  bo_data : b_dev x = dev -> b_valid x = 1 /\ b_data x = bv_L v (b_blockno x);
  bo_held : forall n, bv_held v !! i = Some n -> b_dev x = dev /\ b_blockno x = n }.

(** Some buffer caches block [n]. *)
Definition cached (bs : list buf) (n : Z) : Prop :=
  exists i x, (i < NBUF)%nat /\ bs !! i = Some x /\ b_dev x = dev /\ b_blockno x = n.

Record bufs_ok (v : bview) (bs : list buf) : Prop := {
  bk_dll : exists order, dll bs order;
  bk_buf : forall i x, (i < NBUF)%nat -> bs !! i = Some x -> buf_ok v i x;
  bk_uniq : forall i j x y, (i < NBUF)%nat -> (j < NBUF)%nat -> bs !! i = Some x -> bs !! j = Some y ->
    b_dev x = dev -> b_dev y = dev -> b_blockno x = b_blockno y -> i = j;
  bk_held : forall i n, bv_held v !! i = Some n -> (i < NBUF)%nat;
  bk_pins : forall n, n ∈ bv_pins v -> cached bs n }.

Record bc (v : bview) (s : kst) : Prop := {
  bc_ctx : fctx me pid s;
  bc_bufs : bufs_ok v (fs_bufs (k_fs s));
  bc_clean : forall n, n ∉ bv_dirty v -> bv_L v n = disk_block (fs_disk (k_fs s)) n;
  bc_dirty : forall n, n ∈ bv_dirty v -> (exists i, bv_held v !! i = Some n) \/ n ∈ bv_pins v;
  bc_disk : forall n, length (disk_block (fs_disk (k_fs s)) n) = Z.to_nat BSIZE }.

(** Changing one buffer, and the view of it. *)
Lemma bufs_ok_update v v' bs b x x' :
  bufs_ok v bs -> (b < NBUF)%nat -> bs !! b = Some x ->
  b_next x' = b_next x -> b_prev x' = b_prev x -> buf_ok v' b x' ->
  (forall i y, i <> b -> (i < NBUF)%nat -> bs !! i = Some y -> buf_ok v i y -> buf_ok v' i y) ->
  (b_dev x' = dev -> forall j y, j <> b -> (j < NBUF)%nat -> bs !! j = Some y -> b_dev y = dev ->
     b_blockno y <> b_blockno x') ->
  (forall i n, bv_held v' !! i = Some n -> i <> b -> bv_held v !! i = Some n) ->
  (forall n, n ∈ bv_pins v' -> n ∈ bv_pins v \/ (b_dev x' = dev /\ b_blockno x' = n)) ->
  (b_dev x = dev -> b_blockno x ∈ bv_pins v' -> b_dev x' = dev /\ b_blockno x' = b_blockno x) ->
  bufs_ok v' (<[b := x']> bs).
Proof.
  intros [[order Hd] Hbuf Hu Hh Hp] Hb Hx En Ep Hok Hoth Huq Hh' Hp' Hp''.
  assert (Hlt : (b < length bs)%nat) by (by eapply lookup_lt_Some).
  split.
  - exists order. by eapply dll_insert.
  - intros i y Hi. destruct (decide (i = b)) as [->|Hne].
    + rewrite list_lookup_insert_eq by done. by intros [= <-].
    + rewrite list_lookup_insert_ne by done. eauto.
  - intros i j y z Hi Hj. destruct (decide (i = b)) as [->|Hib], (decide (j = b)) as [->|Hjb].
    + done.
    + rewrite list_lookup_insert_eq, list_lookup_insert_ne by done. intros [= <-] Hz D1 D2 E.
      exfalso. by eapply Huq.
    + rewrite list_lookup_insert_eq, list_lookup_insert_ne by done. intros Hz [= <-] D1 D2 E.
      exfalso. by eapply Huq.
    + rewrite !list_lookup_insert_ne by done. eauto.
  - intros i n Hi. destruct (decide (i = b)) as [->|]; [done|]. eauto.
  - intros n Hn. destruct (decide (b_dev x' = dev /\ b_blockno x' = n)) as [[D E]|HnE].
    + exists b, x'. by rewrite list_lookup_insert_eq.
    + destruct (Hp' n Hn) as [Hn'|?]; [|done]. destruct (Hp n Hn') as (i & y & Hi & Hy & D & E).
      destruct (decide (i = b)) as [->|]; [|exists i, y; by rewrite list_lookup_insert_ne].
      simplify_eq. exfalso. apply HnE. by apply Hp''.
Qed.

(** Moving buffers in the list. *)
Lemma bufs_ok_links v bs bs' order :
  bufs_ok v bs -> links_only bs bs' -> dll bs' order -> bufs_ok v bs'.
Proof.
  intros [_ Hbuf Hu Hh Hp] [Hl Hlk] Hd.
  assert (Hback : forall i x', bs' !! i = Some x' -> exists x n p, bs !! i = Some x /\ x' = b_set_next n (b_set_prev p x)).
  { intros i x' Hx'. destruct (lookup_lt_is_Some_2 bs i) as [x Hx].
    { rewrite <- Hl. by eapply lookup_lt_Some. }
    destruct (Hlk i x Hx) as (n & p & E). exists x, n, p. split; [done|congruence]. }
  split; [by exists order| | |done|].
  - intros i x' Hi Hx'. destruct (Hback _ _ Hx') as (x & n & p & Hx & ->).
    destruct (Hbuf i x Hi Hx) as [A1 A2 A3 A4 A5]. by split.
  - intros i j x' y' Hi Hj Hx' Hy'. destruct (Hback _ _ Hx') as (x & n & p & Hx & ->).
    destruct (Hback _ _ Hy') as (y & n' & p' & Hy & ->). exact (Hu i j x y Hi Hj Hx Hy).
  - intros n Hn. destruct (Hp n Hn) as (i & x & Hi & Hx & D & E).
    destruct (Hlk i x Hx) as (m & p & E'). exists i, (b_set_next m (b_set_prev p x)). done.
Qed.

Lemma nodup_size (l : list nat) (X : gset nat) :
  NoDup l -> (forall i, i ∈ l -> i ∈ X) -> (length l <= size X)%nat.
Proof.
  intros Hnd Hin. rewrite <- (size_list_to_set (C := gset nat)) by done.
  apply subseteq_size. intros i. rewrite elem_of_list_to_set. auto.
Qed.

(** A buffer that is neither held nor pinned is free. *)
Lemma free_buffer v bs :
  bufs_ok v bs -> (size (bv_held v) + size (bv_pins v) < NBUF)%nat ->
  exists i x, (i < NBUF)%nat /\ bs !! i = Some x /\ b_refcnt x = 0.
Proof.
  intros Hbs Hsz. destruct (bk_dll _ _ Hbs) as [order Hd].
  destruct (search bs (fun x => b_refcnt x =? 0) (seq 0 NBUF)) as [b|] eqn:Es.
  { apply search_some in Es as (Hin & x & Hx & Hr). exists b, x.
    apply elem_of_seq in Hin. split_and!; [lia|done|lia]. }
  exfalso. pose proof (proj1 (search_none _ _ _) Es) as Hall.
  set (l1 := filter (fun i => is_Some (bv_held v !! i)) (seq 0 NBUF)).
  set (l2 := filter (fun i => ~ is_Some (bv_held v !! i)) (seq 0 NBUF)).
  assert (Hlen : (length l1 + length l2 = NBUF)%nat).
  { rewrite <- length_app. transitivity (length (seq 0 NBUF)); [|apply length_seq].
    apply Permutation_length, filter_app_complement. }
  assert (H1 : (length l1 <= size (bv_held v))%nat).
  { rewrite <- size_dom. apply nodup_size; [apply NoDup_filter, NoDup_seq|].
    intros i [Hi _]%list_elem_of_filter. by apply elem_of_dom. }
  set (f := fun i => default 0 (b_blockno <$> bs !! i)).
  assert (Hpin : forall i, i ∈ l2 -> exists x, (i < NBUF)%nat /\ bs !! i = Some x /\ b_dev x = dev /\ b_blockno x ∈ bv_pins v).
  { intros i [Hi Hin]%list_elem_of_filter. pose proof Hin as [_ Hlt]%elem_of_seq.
    destruct (links_lookup bs i (dll_links _ _ Hd)) as [x Hx]; [lia|]. exists x.
    specialize (Hall i x Hin Hx). cbn beta in Hall. pose proof (bo_ref _ _ _ (bk_buf _ _ Hbs i x ltac:(lia) Hx)) as Hr.
    rewrite decide_False in Hr by done. case_decide; [|lia]. split_and!; [lia|done|tauto..]. }
  assert (H2 : (length l2 <= size (bv_pins v))%nat).
  { rewrite <- (length_fmap f). rewrite <- (size_list_to_set (C := gset Z)).
    - apply subseteq_size. intros n. rewrite elem_of_list_to_set.
      intros (i & -> & (x & _ & Hx & _ & Hn)%Hpin)%list_elem_of_fmap. unfold f. by rewrite Hx.
    - apply NoDup_fmap_2_strong; [|apply NoDup_filter, NoDup_seq].
      intros i j (x & Hi & Hx & Dx & _)%Hpin (y & Hj & Hy & Dy & _)%Hpin. unfold f. rewrite Hx, Hy.
      simpl. by eapply bk_uniq. }
  lia.
Qed.

(** A held buffer holds its block. *)
Lemma held_buf v s b n :
  bc v s -> bv_held v !! b = Some n ->
  exists x, (b < NBUF)%nat /\ fs_bufs (k_fs s) !! b = Some x /\ b_dev x = dev /\ b_blockno x = n /\
    b_data x = bv_L v n /\ length (bv_L v n) = Z.to_nat BSIZE /\ buf_ok v b x.
Proof.
  intros [_ Hbs _ _ _] Hb. pose proof (bk_held _ _ Hbs _ _ Hb) as Hlt.
  destruct (bk_dll _ _ Hbs) as [order Hd].
  destruct (links_lookup _ b (dll_links _ _ Hd)) as [x Hx]; [lia|].
  pose proof (bk_buf _ _ Hbs b x Hlt Hx) as Hok. exists x.
  destruct (bo_held _ _ _ Hok _ Hb) as [D E]. destruct (bo_data _ _ _ Hok D) as [_ Hdat].
  rewrite E in Hdat. split_and!; try done. rewrite <- Hdat. apply Hok.
Qed.

(** Every block has its size. *)
Lemma view_len v s n : bc v s -> length (bv_L v n) = Z.to_nat BSIZE.
Proof.
  intros Hbc. destruct (decide (n ∈ bv_dirty v)) as [Hn|Hn].
  - destruct (bc_dirty _ _ Hbc n Hn) as [[i Hi]|Hp].
    + by destruct (held_buf _ _ _ _ Hbc Hi) as (x & _ & _ & _ & _ & _ & Hl & _).
    + destruct (bk_pins _ _ (bc_bufs _ _ Hbc) n Hp) as (i & x & Hi & Hx & D & <-).
      pose proof (bk_buf _ _ (bc_bufs _ _ Hbc) i x Hi Hx) as Hok.
      destruct (bo_data _ _ _ Hok D) as [_ <-]. apply Hok.
  - rewrite (bc_clean _ _ Hbc) by done. apply Hbc.
Qed.

(** A buffer that is not held is unlocked. *)
Lemma idle_lock v b x : buf_ok v b x -> bv_held v !! b = None -> sl_locked (b_lock x) = 0.
Proof. intros Hok Hb. by rewrite (bo_lock _ _ _ Hok), Hb. Qed.

Context `{DiskDriver}.

(** Others are not affected when a view changes at [b] and its block. *)
Lemma buf_ok_hold v b n i x : i <> b -> buf_ok v i x -> buf_ok (bv_hold b n v) i x.
Proof. intros Hne [A1 A2 A3 A4 A5]. split; simpl; rewrite ?lookup_insert_ne by done; done. Qed.

Lemma buf_ok_drop v b i x : i <> b -> buf_ok v i x -> buf_ok (bv_drop b v) i x.
Proof. intros Hne [A1 A2 A3 A4 A5]. split; simpl; rewrite ?lookup_delete_ne by done; done. Qed.

Lemma buf_ok_pins v v' i x :
  bv_L v' = bv_L v -> bv_held v' = bv_held v ->
  (b_dev x = dev -> b_blockno x ∈ bv_pins v <-> b_blockno x ∈ bv_pins v') ->
  buf_ok v i x -> buf_ok v' i x.
Proof.
  intros EL Eh Hp [A1 A2 A3 A4 A5]. split; rewrite ?EL, ?Eh; [done|done| |done|done].
  rewrite A3. f_equal. apply decide_ext. naive_solver.
Qed.

Lemma bread_hit v s b x e :
  bc v s -> (b < NBUF)%nat -> fs_bufs (k_fs s) !! b = Some x -> b_dev x = dev ->
  bv_held v !! b = None ->
  exists bs, bread dev (b_blockno x) e s = Ok b e (with_bufs bs s) /\
    bc (bv_hold b (b_blockno x) v) (with_bufs bs s).
Proof.
  intros [Hf Hbs Hcl Hdi Hdk] Hb Hx Hd Hfree. pose proof (bk_buf _ _ Hbs b x Hb Hx) as Hok.
  destruct (bk_dll _ _ Hbs) as [order Hdll].
  assert (Hs : search (fs_bufs (k_fs s)) (id_matches dev (b_blockno x)) order = Some b).
  { destruct (search _ _ _) as [b'|] eqn:E.
    - apply search_some in E as (Hin & y & Hy & Hm%andb_true_iff). f_equal.
      apply (dll_elem _ _ _ Hdll) in Hin.
      apply (bk_uniq _ _ Hbs b' b y x); try done; destruct Hm; lia.
    - pose proof (proj1 (search_none _ _ _) E b x) as H'. exfalso.
      unfold id_matches in H'. rewrite Hd, !Z.eqb_refl in H'.
      discriminate H'; [by apply (dll_elem _ _ _ Hdll)|done]. }
  destruct (bo_data _ _ _ Hok Hd) as [Hv _].
  eexists. split.
  - unfold bread. erewrite bind_run by (eapply bget_hit_run; [done..|by eapply idle_lock]).
    erewrite bind_run.
    2:{ apply get_buf_run. rewrite bufs_with_bufs. apply list_lookup_insert_eq. by eapply lookup_lt_Some. }
    simpl. rewrite Hv. simpl. reflexivity.
  - split; [by apply fctx_fs| |done| |done].
    + rewrite bufs_with_bufs. apply (bufs_ok_update v _ _ b x); try done.
      * destruct Hok as [A1 A2 A3 A4 A5]. split; simpl; rewrite ?lookup_insert_eq; try done.
        -- rewrite A1, Hfree. done.
        -- rewrite A3, Hfree. rewrite decide_False by (by intros []). rewrite (decide_True (P := is_Some (Some _))) by eauto.
           by destruct (decide (b_dev x = dev ∧ _)).
        -- by intros ? [= <-].
      * intros i y Hne _ _. by apply buf_ok_hold.
      * intros _ j y Hne Hj Hy Dy E. simpl in E. apply Hne. by eapply bk_uniq.
      * intros i n Hi Hne. simpl in Hi. by rewrite lookup_insert_ne in Hi.
      * by left.
    + intros n Hn. destruct (Hdi n Hn) as [[i Hi]|?]; [|by right]. left. exists i. simpl.
      rewrite lookup_insert_ne by congruence. done.
Qed.

Lemma bread_miss v s n e :
  bc v s -> ~ cached (fs_bufs (k_fs s)) n -> (size (bv_held v) + size (bv_pins v) < NBUF)%nat ->
  exists b bs, bread dev n e s = Ok b e (with_bufs bs s) /\ bv_held v !! b = None /\
    bc (bv_hold b n v) (with_bufs bs s).
Proof.
  intros [Hf Hbs Hcl Hdi Hdk] Hnc Hsz. destruct (bk_dll _ _ Hbs) as [order Hdll].
  assert (Hs : search (fs_bufs (k_fs s)) (id_matches dev n) order = None).
  { apply search_none. intros b x Hb Hx. apply not_true_iff_false.
    intros [D E]%andb_true_iff. apply Hnc. exists b, x. apply (dll_elem _ _ _ Hdll) in Hb.
    split_and!; [done|done|lia|lia]. }
  assert (exists b, search (fs_bufs (k_fs s)) (fun x => b_refcnt x =? 0) (reverse order) = Some b) as [b Hb].
  { destruct (search _ _ (reverse order)) as [b|] eqn:E; [eauto|]. exfalso.
    destruct (free_buffer _ _ Hbs Hsz) as (i & x & Hi & Hx & Hr).
    pose proof (proj1 (search_none _ _ _) E i x) as Hn. cbn beta in Hn. rewrite Hr in Hn.
    discriminate Hn; [|done]. rewrite elem_of_reverse. by apply (dll_elem _ _ _ Hdll). }
  destruct (search_some _ _ _ _ Hb) as (Hin & x & Hx & Hr). rewrite elem_of_reverse in Hin.
  apply (dll_elem _ _ _ Hdll) in Hin. pose proof (bk_buf _ _ Hbs b x Hin Hx) as Hok.
  assert (Hr0 : b_refcnt x = 0) by lia. clear Hr. pose proof (bo_ref _ _ _ Hok) as Hr.
  assert (Hfree : bv_held v !! b = None).
  { apply eq_None_not_Some. intros Hbh. rewrite decide_True in Hr by done. case_decide; lia. }
  assert (Hnp : ~ (b_dev x = dev /\ b_blockno x ∈ bv_pins v)).
  { intros Hbh. rewrite (decide_True (P := b_dev x = dev /\ _)) in Hr by done. case_decide; lia. }
  assert (Hnd : n ∉ bv_dirty v).
  { intros [[i Hi]|Hp]%Hdi; [|by apply Hnc, Hbs].
    destruct (held_buf v s i n) as (y & Hlt & Hy & D & E & _); [by split|done|]. apply Hnc. by exists i, y. }
  assert (Hlt : (b < length (fs_bufs (k_fs s)))%nat) by (by eapply lookup_lt_Some).
  eexists b, _. split_and!; [|done|].
  - unfold bread. erewrite bind_run by (eapply bget_miss_run; [done..|by eapply idle_lock]).
    erewrite bind_run by (apply get_buf_run; rewrite bufs_with_bufs; by apply list_lookup_insert_eq).
    unfold when. cbn [b_valid taken b_set_lock recycled b_set_refcnt b_set_valid]. simpl.
    erewrite bind_run.
    2:{ erewrite bind_run by (eapply disk_rw_run; [by apply fctx_fs|done|rewrite bufs_with_bufs; by apply list_lookup_insert_eq]).
        unfold disk_done. apply upd_buf_run. simpl. rewrite list_lookup_insert_eq; [by eexists|by rewrite length_insert]. }
    cbn [fs_bufs k_fs set_fs fs_set_bufs with_bufs fs_disk b_blockno taken b_set_lock recycled b_set_refcnt b_set_valid b_set_id].
    erewrite list_alter_insert by (apply list_lookup_insert_eq; by rewrite length_insert).
    rewrite !list_insert_insert_eq. reflexivity.
  - split; [by apply fctx_fs| |done| |done].
    + change (bufs_ok (bv_hold b n v) (<[b := b_set_valid 1 (b_set_data (disk_block (fs_disk (k_fs s)) n)
        (taken pid (recycled dev n x)))]> (fs_bufs (k_fs s)))).
      apply (bufs_ok_update v _ _ b x); try done.
      * destruct Hok as [A1 A2 A3 A4 A5]. split; simpl; rewrite ?lookup_insert_eq; try done.
        -- by rewrite A1, Hfree.
        -- rewrite (decide_True (P := is_Some (Some _))) by eauto. rewrite decide_False; [done|].
           intros [_ Hp]. apply Hnc. by apply Hbs.
        -- intros _. split; [done|]. by rewrite Hcl.
        -- by intros ? [= <-].
      * intros i y Hne _ _. by apply buf_ok_hold.
      * simpl. intros _ j y Hne Hj Hy Dy E. apply Hnc. by exists j, y.
      * intros i m Hi Hne. simpl in Hi. by rewrite lookup_insert_ne in Hi.
      * by left.
      * intros D Hp. exfalso. by apply Hnp.
    + intros m Hm. destruct (Hdi m Hm) as [[i Hi]|?]; [|by right]. left. exists i. simpl.
      rewrite lookup_insert_ne by congruence. done.
Qed.

Lemma bread_wp v s n e Q :
  bc v s -> (forall i, bv_held v !! i <> Some n) ->
  n ∈ bv_pins v \/ (size (bv_held v) + size (bv_pins v) < NBUF)%nat ->
  (forall b bs, bv_held v !! b = None -> bc (bv_hold b n v) (with_bufs bs s) -> Q b e (with_bufs bs s)) ->
  wp (bread dev n) e s Q.
Proof.
  intros Hbc Hnh Hcap HQ. pose proof (bc_bufs _ _ Hbc) as Hbs. destruct (bk_dll _ _ Hbs) as [order Hdll].
  destruct (search (fs_bufs (k_fs s)) (id_matches dev n) order) as [b|] eqn:Es.
  - apply search_some in Es as (Hb & x & Hx & [D E]%andb_true_iff).
    apply (dll_elem _ _ _ Hdll) in Hb. apply Z.eqb_eq in D, E. subst n.
    assert (Hfree : bv_held v !! b = None).
    { destruct (bv_held v !! b) as [m|] eqn:Em; [|done].
      destruct (bo_held _ _ _ (bk_buf _ _ Hbs b x Hb Hx) m Em) as [_ <-]. by destruct (Hnh b). }
    destruct (bread_hit v s b x e) as (bs & Hr & Hbc'); [done..|]. eapply wp_run; [exact Hr|auto].
  - assert (Hnc : ~ cached (fs_bufs (k_fs s)) n).
    { intros (i & x & Hi & Hx & D & E). pose proof (proj1 (search_none _ _ _) Es i x) as H'.
      unfold id_matches in H'. rewrite D, E, !Z.eqb_refl in H'. discriminate H'; [|done].
      by apply (dll_elem _ _ _ Hdll). }
    destruct Hcap as [Hp|Hsz]; [by destruct Hnc; apply Hbs|].
    destruct (bread_miss v s n e) as (b & bs & Hr & Hfree & Hbc'); [done..|]. eapply wp_run; [exact Hr|auto].
Qed.

(** Writing into the data of a held buffer. *)
Lemma bc_edit v s b n d :
  bc v s -> bv_held v !! b = Some n -> length d = Z.to_nat BSIZE ->
  bc (bv_edit n d v) (with_bufs (alter (b_set_data d) b (fs_bufs (k_fs s))) s).
Proof.
  intros Hbc Hb Hlen. destruct (held_buf _ _ _ _ Hbc Hb) as (x & Hlt & Hx & D & E & _ & _ & Hok).
  pose proof Hbc as [Hf Hbs Hcl Hdi Hdk]. split; [by apply fctx_fs| | | |done].
  - rewrite bufs_with_bufs. erewrite list_alter_insert by done. apply (bufs_ok_update v _ _ b x); try done.
    + destruct Hok as [A1 A2 A3 A4 A5]. split; simpl; try done.
      intros _. split; [by apply A4|]. by rewrite E, fn_lookup_insert.
    + intros i y Hne Hi Hy [A1 A2 A3 A4 A5]. split; simpl; try done. intros Dy.
      rewrite fn_lookup_insert_ne; [by apply A4|].
      intros E'. apply Hne. apply (bk_uniq _ _ Hbs i b y x); congruence.
    + intros _ j y Hne Hj Hy Dy E'. simpl in E'. apply Hne. by eapply bk_uniq.
    + by left.
  - intros m Hm. simpl in *. rewrite fn_lookup_insert_ne by set_solver. apply Hcl. set_solver.
  - intros m Hm. simpl in *. destruct (decide (m = n)) as [->|]; [eauto|]. apply Hdi. set_solver.
Qed.

(** The state after a write of block [n]. *)
Definition disk_written (n : Z) (d : list Z) (s : kst) : kst :=
  set_fs (fs_set_disk (<[n := d]> (fs_disk (k_fs s))) (fs_writes (k_fs s) ++ [(n, d)]) (k_fs s)) s.

Lemma disk_block_insert n d m k : disk_block (<[n := d]> m) k = if decide (k = n) then d else disk_block m k.
Proof.
  unfold disk_block. case_decide as E; [subst; by rewrite lookup_insert_eq|by rewrite lookup_insert_ne].
Qed.

Lemma bwrite_wp v s b n e Q :
  bc v s -> bv_held v !! b = Some n ->
  (bc (bv_clean n v) (disk_written n (bv_L v n) s) -> Q tt e (disk_written n (bv_L v n) s)) ->
  wp (bwrite b) e s Q.
Proof.
  intros Hbc Hb HQ. destruct (held_buf _ _ _ _ Hbc Hb) as (x & Hlt & Hx & D & E & Hdat & Hlen & Hok).
  pose proof Hbc as [Hf Hbs Hcl Hdi Hdk].
  eapply wp_run; [|apply HQ].
  - unfold bwrite. erewrite bind_run by (eapply holdingsleep_run; [done|done|simpl; by rewrite Hx]).
    rewrite (bo_lock _ _ _ Hok), Hb. simpl. rewrite Z.eqb_refl. simpl.
    erewrite bind_run by reflexivity. rewrite (disk_rw_run me pid b true x e s Hf Hlt Hx). unfold disk_done.
    by rewrite E, Hdat.
  - split; simpl.
    + by apply fctx_fs.
    + destruct Hbs as [B1 B2 B3 B4 B5]. split; try done. intros i y Hi Hy. by destruct (B2 i y Hi Hy).
    + intros m Hm. rewrite disk_block_insert. case_decide; [by subst|]. apply Hcl. set_solver.
    + intros m Hm. apply Hdi. set_solver.
    + intros m. rewrite disk_block_insert. by case_decide.
Qed.

(** The counters of a held buffer, under the cache's spinlock. The log calls
    bpin with its own spinlock taken. *)
Lemma bpin_run b e s :
  hart_ok (k_hw s) -> lock_free L_bcache (k_hw s) -> is_Some (fs_bufs (k_fs s) !! b) ->
  bpin b e s = Ok tt e (with_bufs (alter ref_up b (fs_bufs (k_fs s))) s).
Proof.
  intros Hh Hlf Hb. unfold bpin. erewrite bind_run by (by apply acquire_run).
  erewrite bind_run by (by apply upd_buf_run). by rewrite (release_run _ _ _ (k_hw s)).
Qed.

Lemma bc_pin v s b n :
  bc v s -> bv_held v !! b = Some n -> n ∉ bv_pins v ->
  bc (bv_pin n v) (with_bufs (alter ref_up b (fs_bufs (k_fs s))) s).
Proof.
  intros Hbc Hb Hn. destruct (held_buf _ _ _ _ Hbc Hb) as (x & Hlt & Hx & D & E & Hdat & Hlen & Hok).
  pose proof Hbc as [Hf Hbs Hcl Hdi Hdk].
  erewrite list_alter_insert by done. split; [by apply fctx_fs| |done| |done].
  - rewrite bufs_with_bufs. apply (bufs_ok_update v _ _ b x); try done.
    + destruct Hok as [A1 A2 A3 A4 A5]. split; simpl; try done. rewrite A3.
      rewrite (decide_True (P := is_Some _)) by eauto.
      rewrite decide_False, decide_True by set_solver. done.
    + intros i y Hne Hi Hy. apply buf_ok_pins; [done..|]. intros Dy. simpl.
      assert (b_blockno y <> n) by (intros E'; apply Hne; apply (bk_uniq _ _ Hbs i b y x); congruence).
      set_solver.
    + intros _ j y Hne Hj Hy Dy E'. simpl in E'. apply Hne. by eapply bk_uniq.
    + simpl. set_solver.
  - intros m Hm. simpl. destruct (Hdi m Hm); [by left|set_solver].
Qed.

Lemma bunpin_wp v s b n e Q :
  bc v s -> bv_held v !! b = Some n -> n ∈ bv_pins v ->
  (forall bs, bc (bv_unpin n v) (with_bufs bs s) -> Q tt e (with_bufs bs s)) ->
  wp (bunpin b) e s Q.
Proof.
  intros Hbc Hb Hn HQ. destruct (held_buf _ _ _ _ Hbc Hb) as (x & Hlt & Hx & D & E & Hdat & Hlen & Hok).
  pose proof Hbc as [Hf Hbs Hcl Hdi Hdk]. pose proof (bcache_free _ _ _ Hf) as Hlf.
  pose proof (fctx_hart _ _ _ Hf) as Hh.
  eapply wp_run.
  { unfold bunpin. erewrite bind_run by (by apply acquire_run).
    erewrite bind_run by (apply upd_buf_run; by exists x). by apply release_run. }
  apply HQ. simpl. erewrite list_alter_insert by done. split; [by apply fctx_fs| |done| |done].
  - rewrite bufs_with_bufs. apply (bufs_ok_update v _ _ b x); try done.
    + destruct Hok as [A1 A2 A3 A4 A5]. split; simpl; try done. rewrite A3.
      rewrite (decide_True (P := is_Some _)) by eauto.
      rewrite decide_True, decide_False by set_solver. done.
    + intros i y Hne Hi Hy. apply buf_ok_pins; [done..|]. intros Dy. simpl.
      assert (b_blockno y <> n) by (intros E'; apply Hne; apply (bk_uniq _ _ Hbs i b y x); congruence).
      set_solver.
    + intros _ j y Hne Hj Hy Dy E'. simpl in E'. apply Hne. by eapply bk_uniq.
    + simpl. set_solver.
  - intros m Hm. simpl. destruct (Hdi m Hm) as [?|Hp]; [by left|].
    destruct (decide (m = n)) as [->|]; [left; eauto|set_solver].
Qed.

(** A released buffer: unlocked, with one reference less. *)
Definition let_go (x : buf) : buf := ref_down (b_set_lock (Sleeplock 0 (sl_name (b_lock x)) 0) x).

Lemma bc_let_go v s b n x :
  bc v s -> bv_held v !! b = Some n -> (n ∈ bv_dirty v -> n ∈ bv_pins v) ->
  fs_bufs (k_fs s) !! b = Some x ->
  bc (bv_drop b v) (with_bufs (<[b := let_go x]> (fs_bufs (k_fs s))) s).
Proof.
  intros Hbc Hb Hdp Hx. destruct (held_buf _ _ _ _ Hbc Hb) as (x' & Hlt & Hx' & D & E & _ & _ & Hok).
  simplify_eq. pose proof Hbc as [Hf Hbs Hcl Hdi Hdk]. split; [by apply fctx_fs| |done| |done].
  - rewrite bufs_with_bufs. apply (bufs_ok_update v _ _ b x); try done.
    + destruct Hok as [A1 A2 A3 A4 A5]. split; simpl; rewrite ?lookup_delete_eq; try done.
      * by rewrite A1, Hb.
      * rewrite A3, Hb. rewrite (decide_True (P := is_Some (Some _))) by eauto.
        rewrite (decide_False (P := is_Some None)) by (by intros []). by destruct (decide (b_dev x = dev /\ b_blockno x ∈ bv_pins v)).
    + intros i y Hne _ _. by apply buf_ok_drop.
    + intros _ j y Hne Hj Hy Dy E'. simpl in E'. apply Hne. by eapply bk_uniq.
    + intros i m Hi Hne. simpl in Hi. by rewrite lookup_delete_ne in Hi.
    + by left.
  - intros m Hm. simpl in *. destruct (Hdi m Hm) as [[i Hi]|?]; [|by right].
    destruct (decide (i = b)) as [->|]; [simplify_eq; auto|]. left. exists i. by rewrite lookup_delete_ne.
Qed.

Lemma bc_moved v s b : bc v s -> (b < NBUF)%nat -> bc v (with_bufs (moved b (fs_bufs (k_fs s))) s).
Proof.
  intros [Hf Hbs Hcl Hdi Hdk] Hb. destruct (bk_dll _ _ Hbs) as [order Hd].
  assert (Hin : b ∈ order) by (by apply (dll_elem _ _ _ Hd)).
  apply list_elem_of_split in Hin as (l1 & l2 & ->).
  split; [by apply fctx_fs| |done|done|done]. rewrite bufs_with_bufs.
  eapply bufs_ok_links; [done|apply moved_links_only|by apply moved_dll].
Qed.

Lemma brelse_wp v s b n e Q :
  bc v s -> bv_held v !! b = Some n -> (n ∈ bv_dirty v -> n ∈ bv_pins v) ->
  (forall bs, bc (bv_drop b v) (with_bufs bs s) -> Q tt e (with_bufs bs s)) ->
  wp (brelse b) e s Q.
Proof.
  intros Hbc Hb Hdp HQ. destruct (held_buf _ _ _ _ Hbc Hb) as (x & Hlt & Hx & D & E & _ & _ & Hok).
  pose proof (bc_let_go _ _ _ _ _ Hbc Hb Hdp Hx) as Hbc2.
  pose proof (bc_ctx _ _ Hbc) as Hf. pose proof (bcache_free _ _ _ Hf) as Hlf.
  pose proof (fctx_hart _ _ _ Hf) as Hh. destruct (bk_dll _ _ (bc_bufs _ _ Hbc2)) as [order Hd].
  rewrite bufs_with_bufs in Hd. assert (Hlen : (b < length (fs_bufs (k_fs s)))%nat) by (by eapply lookup_lt_Some).
  set (bs2 := <[b := let_go x]> (fs_bufs (k_fs s))) in *.
  unfold brelse. apply wp_bind. eapply wp_run; [eapply holdingsleep_run; [done|done|simpl; by rewrite Hx]|].
  rewrite (bo_lock _ _ _ Hok), Hb. simpl. rewrite Z.eqb_refl. apply wp_seq, wp_ret.
  apply wp_seq. eapply wp_run; [eapply releasesleep_run; [done|done|simpl; by rewrite Hx]|].
  apply wp_seq. eapply wp_run; [by apply acquire_run|].
  apply wp_seq. eapply wp_run; [apply upd_buf_run; simpl; rewrite list_lookup_alter_eq, Hx; by eexists|].
  match goal with |- wp _ _ ?t _ => change t with (set_hw (acq L_bcache (k_hw s)) (with_bufs
    (alter ref_down b (alter (b_set_lock (Sleeplock 0 (sl_name (b_lock x)) 0)) b (fs_bufs (k_fs s)))) s)) end.
  erewrite !list_alter_insert by (rewrite ?list_lookup_alter_eq, Hx; done).
  rewrite list_insert_insert_eq. fold (let_go x). fold bs2.
  apply wp_bind. eapply wp_run; [apply get_buf_run; simpl; by apply list_lookup_insert_eq|].
  apply wp_seq. unfold when. destruct (b_refcnt (let_go x) =? 0).
  - apply brelse_move_wp; [by eapply dll_links|lia|].
    apply (wp_release _ _ _ (k_hw s)); [done..|].
    apply (HQ (moved b bs2)). apply (bc_moved _ (with_bufs bs2 s)); done.
  - apply wp_ret. apply (wp_release _ _ _ (k_hw s)); [done..|]. by apply (HQ bs2).
Qed.

End bc.
