(* ===== verification/BioProof.v ===== *)
(** bio.c: initialisation, and the theorems about the cache. *)

From stdpp Require Import functions.
From S2P Require Import Prelude Machine KState Spinlock Kalloc Proc ProcSpec ProcMem Sleeplock Bio BioList BioSpec.

(** ** binit *)

Lemma nxt_set_lock bs i v a : nxt (alter (b_set_lock v) i bs) a = nxt bs a.
Proof.
  unfold nxt. destruct (decide (a = i)) as [->|]; [|by rewrite list_lookup_alter_ne].
  rewrite list_lookup_alter_eq. by destruct (bs !! i).
Qed.

Lemma prv_set_lock bs i v a : prv (alter (b_set_lock v) i bs) a = prv bs a.
Proof.
  unfold prv. destruct (decide (a = i)) as [->|]; [|by rewrite list_lookup_alter_ne].
  rewrite list_lookup_alter_eq. by destruct (bs !! i).
Qed.

Lemma links_set_lock bs i v : links_ok bs -> links_ok (alter (b_set_lock v) i bs).
Proof.
  intros [Hl H]. split; [by rewrite length_alter|]. intros a. unfold nx, pv.
  rewrite nxt_set_lock, prv_set_lock. apply H.
Qed.

(** One round of the loop: buffer [b] goes in front. *)
Definition pushed (b : nat) (bs : list buf) : list buf :=
  let bs1 := alter (b_set_next (nx bs head)) b bs in
  let bs2 := alter (b_set_prev head) b bs1 in
  let bs3 := alter (b_set_lock (Sleeplock 0 "buffer" 0)) b bs2 in
  let bs4 := alter (b_set_prev b) (nx bs3 head) bs3 in
  alter (b_set_next b) head bs4.

Lemma pushed_links b bs : links_ok bs -> (b < NBUF)%nat -> links_ok (pushed b bs).
Proof.
  intros Hk Hb. unfold pushed. cbv zeta. assert (Hh : (head <= NBUF)%nat) by done.
  repeat first [apply links_set_lock | apply links_set_prev | apply links_set_next];
    try done; try (apply links_nx; done); lia.
Qed.

Lemma pushed_chain b l bs :
  links_ok bs -> chain bs head l head -> (b < NBUF)%nat -> NoDup (b :: l) -> head ∉ l ->
  chain (pushed b bs) head (b :: l) head.
Proof.
  intros Hk Hc Hb [Hbl Hnd]%NoDup_cons Hhd. assert (Hbh : b <> head) by (unfold head; lia).
  assert (Hf : nx bs head = default head (hd_error l)) by (unfold nx; by rewrite (chain_first _ _ _ _ Hc)).
  assert (Hsb : is_Some (bs !! b)) by (apply links_lookup; [done|lia]).
  assert (Hsh : is_Some (bs !! head)) by (by apply links_lookup).
  assert (Hsf : is_Some (bs !! nx bs head)) by (apply links_lookup; links).
  unfold pushed. cbv zeta. set (bs3 := alter (b_set_lock _) b _).
  assert (E3 : nx bs3 head = nx bs head).
  { unfold nx at 1, bs3. rewrite nxt_set_lock, nxt_set_prev, nxt_set_next by done. by rewrite decide_False by done. }
  rewrite E3. eapply chain_push; [exact Hc|done..| |]; intros x; rewrite <- Hf.
  - rewrite nxt_set_next by (unfold bs3; by rewrite !is_Some_alter). case_decide; [done|].
    unfold bs3. by rewrite nxt_set_prev, nxt_set_lock, nxt_set_prev, nxt_set_next by done.
  - rewrite prv_set_next, prv_set_prev by (unfold bs3; by rewrite !is_Some_alter). case_decide; [done|].
    unfold bs3. rewrite prv_set_lock, prv_set_prev by (by rewrite !is_Some_alter). by rewrite prv_set_next.
Qed.

(** A buffer of the static array, once set up. *)
Definition fresh_buf (n p : nat) : buf :=
  b_set_next n (b_set_prev p (b_set_lock (Sleeplock 0 "buffer" 0) buf0)).

(** The first [k] buffers are set up. *)
Record binit_inv (k : nat) (bs : list buf) : Prop := {
  bi_links : links_ok bs;
  bi_chain : chain bs head (reverse (seq 0 k)) head;
  bi_done : forall i, (i < k)%nat -> exists n p, bs !! i = Some (fresh_buf n p);
  bi_todo : forall i, (k <= i < NBUF)%nat -> bs !! i = Some buf0 }.

Lemma pushed_first b bs : links_ok bs -> (b < NBUF)%nat ->
  nx (alter (b_set_lock (Sleeplock 0 "buffer" 0)) b (alter (b_set_prev head) b
    (alter (b_set_next (nx bs head)) b bs))) head = nx bs head.
Proof.
  intros Hk Hb. unfold nx at 1. rewrite nxt_set_lock, nxt_set_prev, nxt_set_next by (apply links_lookup; [done|lia]).
  by rewrite decide_False by (unfold head; lia).
Qed.

Lemma pushed_lookup b bs i x :
  links_ok bs -> (b < NBUF)%nat -> i <> head -> bs !! i = Some x ->
  pushed b bs !! i =
    Some (if decide (i = nx bs head) then b_set_prev b x
          else if decide (i = b) then b_set_lock (Sleeplock 0 "buffer" 0)
            (b_set_prev head (b_set_next (nx bs head) x)) else x) \/ i = b /\ b = nx bs head.
Proof.
  intros Hk Hb Hi Hx. unfold pushed. cbv zeta. rewrite pushed_first by done.
  rewrite list_lookup_alter_ne by done. destruct (decide (i = nx bs head)) as [Hf|Hf].
  - destruct (decide (i = b)) as [->|Hib]; [by right|left].
    rewrite Hf at 1. rewrite list_lookup_alter_eq. rewrite <- Hf.
    by rewrite !list_lookup_alter_ne, Hx by done.
  - left. rewrite list_lookup_alter_ne by done. destruct (decide (i = b)) as [->|].
    + by rewrite !list_lookup_alter_eq, Hx.
    + by rewrite !list_lookup_alter_ne by done.
Qed.

Lemma binit_first k bs : binit_inv k bs -> (nx bs head < k)%nat \/ nx bs head = head.
Proof.
  intros Hi. unfold nx. rewrite (chain_first _ _ _ _ (bi_chain _ _ Hi)). simpl.
  destruct (hd_error (reverse (seq 0 k))) as [f|] eqn:E; [left|by right]. simpl.
  destruct (reverse (seq 0 k)) as [|g l] eqn:El; [done|]. simpl in E. injection E as ->.
  assert (f ∈ reverse (seq 0 k)) as Hin by (rewrite El; set_solver).
  rewrite elem_of_reverse, elem_of_seq in Hin. lia.
Qed.

Lemma binit_inv_step k bs : binit_inv k bs -> (k < NBUF)%nat -> binit_inv (S k) (pushed k bs).
Proof.
  intros Hi Hk. pose proof Hi as [Hl Hc Hdone Htodo]. pose proof (binit_first _ _ Hi) as Hf.
  split.
  - by apply pushed_links.
  - rewrite seq_S, reverse_snoc. simpl. apply pushed_chain; [done..| |].
    + apply NoDup_cons. split; [|rewrite reverse_Permutation; apply NoDup_seq].
      rewrite elem_of_reverse, elem_of_seq. lia.
    + rewrite elem_of_reverse, elem_of_seq. unfold head. lia.
  - intros i Hlt. assert (Hih : i <> head) by (unfold head; lia).
    destruct (decide (i = k)) as [->|Hne].
    + destruct (pushed_lookup k bs k buf0 Hl Hk Hih) as [->|[_ E]]; [by apply Htodo|..].
      * rewrite decide_False, decide_True by (unfold head in *; lia). by eexists _, _.
      * unfold head in *; lia.
    + destruct (Hdone i) as (n & p & Hx); [lia|].
      destruct (pushed_lookup k bs i _ Hl Hk Hih Hx) as [->|[? _]]; [|done].
      rewrite (decide_False (P := i = k)) by done. case_decide; by eexists _, _.
  - intros i Hlt. assert (Hih : i <> head) by (unfold head; lia).
    destruct (pushed_lookup k bs i buf0 Hl Hk Hih) as [->|[? _]]; [apply Htodo; lia| |lia].
    by rewrite !decide_False by (unfold head in *; lia).
Qed.

(** The harts after the spinlocks of the first [k] buffers were initialised. *)
Definition binit_locks (k : nat) (h : hw) : hw :=
  foldl (fun h i => hw_set_locks (<[L_buf i := Spinlock 0 "sleep lock" None]> (h_locks h)) h)
    (hw_set_locks (<[L_bcache := Spinlock 0 "bcache" None]> (h_locks h)) h) (seq 0 k).

Lemma binit_locks_S k h :
  binit_locks (S k) h = hw_set_locks (<[L_buf k := Spinlock 0 "sleep lock" None]> (h_locks (binit_locks k h))) (binit_locks k h).
Proof. unfold binit_locks. by rewrite seq_S, foldl_app. Qed.

Lemma binit_locks_other k h l :
  l <> L_bcache -> (forall i, l <> L_buf i) -> h_locks (binit_locks k h) !! l = h_locks h !! l.
Proof.
  intros H1 H2. induction k as [|k IH]; [simpl; by rewrite lookup_insert_ne|].
  rewrite binit_locks_S. simpl. by rewrite lookup_insert_ne.
Qed.

Lemma binit_locks_free k h l :
  l = L_bcache \/ (exists i, (i < k)%nat /\ l = L_buf i) -> lock_free l (binit_locks k h).
Proof.
  induction k as [|k IH]; intros Hl.
  - destruct Hl as [->|(i & ? & _)]; [|lia]. exists "bcache". simpl. by rewrite lookup_insert_eq.
  - rewrite binit_locks_S. destruct (decide (l = L_buf k)) as [->|Hne].
    + exists "sleep lock". simpl. by rewrite lookup_insert_eq.
    + destruct IH as [name IH]; [|exists name; simpl; by rewrite lookup_insert_ne].
      destruct Hl as [?|(i & Hi & ->)]; [by left|right]. exists i. split; [|done].
      destruct (decide (i = k)) as [->|]; [done|lia].
Qed.

Lemma binit_one_run k bs e s h :
  links_ok bs -> (k < NBUF)%nat ->
  binit_one k e (set_hw h (with_bufs bs s)) =
    Ok tt e (set_hw (hw_set_locks (<[L_buf k := Spinlock 0 "sleep lock" None]> (h_locks h)) h)
      (with_bufs (pushed k bs) s)).
Proof.
  intros Hl Hk. destruct (links_lookup bs head Hl) as [x Hx]; [done|].
  assert (Hn : b_next x = nx bs head) by (unfold nx, nxt; by rewrite Hx).
  assert (Hs : is_Some (bs !! k)) by (apply links_lookup; [done|lia]).
  unfold binit_one. erewrite bind_run by (by apply get_buf_run). rewrite Hn.
  erewrite bind_run by (by apply upd_buf_run).
  erewrite bind_run by (apply upd_buf_run; by apply is_Some_alter).
  unfold pushed. cbv zeta. set (bs2 := alter (b_set_prev head) k (alter (b_set_next (nx bs head)) k bs)).
  assert (Hl2 : links_ok bs2) by (unfold bs2; apply links_set_prev; [apply links_set_next; links|done]).
  destruct (links_lookup bs2 k Hl2) as [y Hy]; [lia|].
  erewrite bind_run.
  2:{ unfold initsleeplock. erewrite bind_run by reflexivity.
      eapply put_sl_run. simpl. fold bs2. by rewrite Hy. }
  simpl. fold bs2. set (bs3 := alter (b_set_lock (Sleeplock 0 "buffer" 0)) k bs2).
  assert (Hl3 : links_ok bs3) by (by apply links_set_lock).
  destruct (links_lookup bs3 head Hl3) as [z Hz]; [done|].
  assert (Hzn : b_next z = nx bs3 head) by (unfold nx, nxt; by rewrite Hz).
  erewrite bind_run by (apply get_buf_run; exact Hz). rewrite Hzn.
  erewrite bind_run by (apply upd_buf_run; apply links_lookup; links).
  erewrite upd_buf_run; [reflexivity|]. by apply is_Some_alter, links_lookup.
Qed.

Lemma binit_loop_run k bs e s :
  (k <= NBUF)%nat -> binit_inv k bs -> exists bs',
    forK (seq k (NBUF - k)) binit_one e (set_hw (binit_locks k (k_hw s)) (with_bufs bs s)) =
    Ok tt e (set_hw (binit_locks NBUF (k_hw s)) (with_bufs bs' s)) /\ binit_inv NBUF bs'.
Proof.
  intros Hk Hi. remember (NBUF - k)%nat as d eqn:Ed. revert k bs Hk Hi Ed.
  induction d as [|d IH]; intros k bs Hk Hi Ed.
  - assert (k = NBUF) as -> by lia. exists bs. done.
  - cbn [seq forK]. destruct (IH (S k) (pushed k bs)) as (bs' & Hr & Hi'); [lia| |lia|].
    { apply binit_inv_step; [done|lia]. }
    exists bs'. split; [|done]. rewrite <- Hr. erewrite bind_run by (apply binit_one_run; [apply Hi|lia]).
    by rewrite binit_locks_S.
Qed.

Lemma binit_run e s :
  fs_bufs (k_fs s) = replicate (S NBUF) buf0 ->
  exists bs, binit e s = Ok tt e (set_hw (binit_locks NBUF (k_hw s)) (with_bufs bs s)) /\ binit_inv NBUF bs.
Proof.
  intros Hbs. set (bs0 := alter (b_set_next head) head (alter (b_set_prev head) head (replicate (S NBUF) buf0))).
  assert (Hh : is_Some (replicate (S NBUF) buf0 !! head)).
  { apply lookup_lt_is_Some. rewrite length_replicate. unfold head. lia. }
  assert (Hlook : forall a, a <> head -> (a <= NBUF)%nat -> bs0 !! a = Some buf0).
  { intros a Ha Hle. unfold bs0. rewrite !list_lookup_alter_ne by done. apply lookup_replicate. split; [done|lia]. }
  assert (Hhead : bs0 !! head = Some (b_set_next head (b_set_prev head buf0))).
  { unfold bs0. rewrite !list_lookup_alter_eq.
    assert (replicate (S NBUF) buf0 !! head = Some buf0) as -> by (apply lookup_replicate; unfold head; split; [done|lia]).
    done. }
  destruct (binit_loop_run 0 bs0 e s) as (bs & Hr & Hi); [lia| |].
  - split.
    + split; [unfold bs0; by rewrite !length_alter, length_replicate|]. intros a. unfold nx, pv, nxt, prv.
      destruct (decide (a = head)) as [->|Ha]; [rewrite Hhead; done|].
      destruct (decide (a <= NBUF)%nat); [rewrite Hlook by done; simpl; lia|].
      rewrite lookup_ge_None_2; [done|]. unfold bs0. rewrite !length_alter, length_replicate. lia.
    + simpl. unfold nxt, prv. by rewrite Hhead.
    + intros i Hlt. lia.
    + intros i Hlt. apply Hlook; unfold head; lia.
  - exists bs. split; [|done]. rewrite <- Hr. unfold binit. erewrite bind_run by reflexivity.
    erewrite bind_run by (apply upd_buf_run; simpl; by rewrite Hbs).
    erewrite bind_run by (apply upd_buf_run; simpl; rewrite Hbs; by apply is_Some_alter).
    simpl. by rewrite Hbs.
Qed.

(** A cache no block is in. *)
Definition empty_view (d : gmap Z (list Z)) : bview := BView (disk_block d) ∅ ∅ ∅.

Lemma binit_bufs pid dev d bs : dev <> 0 -> binit_inv NBUF bs -> bufs_ok pid dev (empty_view d) bs.
Proof.
  intros Hdev [Hl Hc Hdone _].
  assert (Hfresh : forall i x, (i < NBUF)%nat -> bs !! i = Some x -> exists n p, x = fresh_buf n p).
  { intros i x Hi Hx. destruct (Hdone i Hi) as (n & p & E). exists n, p. congruence. }
  split.
  - exists (reverse (seq 0 NBUF)). split; [done|by rewrite reverse_Permutation|apply Hl].
  - intros i x Hi Hx. destruct (Hfresh i x Hi Hx) as (n & p & ->). split; try done.
    rewrite decide_False by (by intros []). by rewrite decide_False by (by intros [? _]).
  - intros i j x y Hi Hj Hx Hy Dx. destruct (Hfresh i x Hi Hx) as (n & p & ->). by simpl in Dx.
  - done.
  - done.
Qed.

(** Binit links the thirty buffers into a list, buffer 29 first, gives each
    a free sleeplock and leaves a cache that holds no block; it initialises the
    spinlocks of the cache and of the buffers and no others. *)
Theorem binit_correct pid dev e s :
  dev <> 0 -> fs_bufs (k_fs s) = replicate (S NBUF) buf0 ->
  exists bs h, binit e s = Ok tt e (set_hw h (with_bufs bs s)) /\
    dll bs (reverse (seq 0 NBUF)) /\
    bufs_ok pid dev (empty_view (fs_disk (k_fs s))) bs /\
    lock_free L_bcache h /\ (forall i, (i < NBUF)%nat -> lock_free (L_buf i) h) /\
    (forall l, l <> L_bcache -> (forall i, l <> L_buf i) -> h_locks h !! l = h_locks (k_hw s) !! l).
Proof.
  intros Hdev Hbs. destruct (binit_run e s Hbs) as (bs & Hr & Hi). exists bs, (binit_locks NBUF (k_hw s)).
  split_and!; [done| |by apply binit_bufs|..].
  - destruct Hi as [Hl Hc _ _]. split; [done|by rewrite reverse_Permutation|apply Hl].
  - apply binit_locks_free. by left.
  - intros i Hi'. apply binit_locks_free. right. eauto.
  - intros l. apply binit_locks_other.
Qed.

Lemma binit_correct_witness : exists bs h,
  binit [] kst0 = Ok tt [] (set_hw h (with_bufs bs kst0)) /\ dll bs (reverse (seq 0 NBUF)).
Proof.
  destruct (binit_correct 7 1 [] kst0) as (bs & h & Hr & Hd & _); [done|reflexivity|]. exists bs, h. exact (conj Hr Hd).
Defined.

(** Bget returns the buffer that caches the block when there is one, with
    one more reference; otherwise it recycles the least recently used buffer
    without references; either way the caller holds the buffer's lock, and
    with every buffer in use it panics. *)
Theorem bget_correct me pid order dev n e s :
  fctx me pid s -> dll (fs_bufs (k_fs s)) order ->
  (forall b x, (b < NBUF)%nat -> fs_bufs (k_fs s) !! b = Some x -> sl_locked (b_lock x) = 0) ->
  bget dev n e s =
    match search (fs_bufs (k_fs s)) (id_matches dev n) order with
    | Some b => Ok b e (with_bufs (alter (fun x => taken pid (ref_up x)) b (fs_bufs (k_fs s))) s)
    | None =>
      match search (fs_bufs (k_fs s)) (fun x => b_refcnt x =? 0) (reverse order) with
      | Some b => Ok b e (with_bufs (alter (fun x => taken pid (recycled dev n x)) b (fs_bufs (k_fs s))) s)
      | None => Panic "bget: no buffers"
      end
    end.
Proof.
  intros Hf Hd Hl. destruct (search _ (id_matches _ _) _) as [b|] eqn:E.
  - destruct (search_some _ _ _ _ E) as (Hin & x & Hx & _). apply (dll_elem _ _ _ Hd) in Hin.
    erewrite bget_hit_run by eauto. by erewrite list_alter_insert by done.
  - destruct (search _ _ (reverse order)) as [b|] eqn:E2; [|by eapply bget_none_run].
    destruct (search_some _ _ _ _ E2) as (Hin & x & Hx & _).
    rewrite elem_of_reverse in Hin. apply (dll_elem _ _ _ Hd) in Hin.
    erewrite bget_miss_run by eauto. by erewrite list_alter_insert by done.
Qed.

(** ** A file system at work *)

Definition fs_lockids : list lockid :=
  [L_bcache; L_log; L_itable; L_vdisk; L_ftable] ++ (L_buf <$> seq 0 NBUF) ++ (L_inode <$> seq 0 NINODE).
Definition fs_locks : gmap lockid spinlock :=
  foldr (fun l m => <[l := Spinlock 0 "fs" None]> m) proc_locks fs_lockids.

(** The list binit makes. *)
Definition fresh_bufs : list buf :=
  ((fun i => fresh_buf (match i with O => head | S j => j end) (S i)) <$> seq 0 NBUF) ++ [b_set_next 29 (b_set_prev 0 buf0)].

(** Process 0, with pid 1, on a machine with a disk [d] and nothing cached. *)
Definition kst_fs (d : gmap Z (list Z)) : kst :=
  set_fs (Fst fresh_bufs d [] log0 (Superblock 0 0 0 0 0 0 0 0) (replicate NINODE inode0))
    (set_hw (hw_set_locks fs_locks (k_hw kst_pr)) kst_pr).

Lemma locks_in (v : spinlock) (m : gmap lockid spinlock) ls l :
  l ∈ ls -> foldr (fun l m => <[l := v]> m) m ls !! l = Some v.
Proof.
  induction ls as [|k ls IH]; [by intros ?%elem_of_nil|]. cbn [foldr].
  intros Hin. destruct (decide (k = l)) as [->|]; [apply lookup_insert_eq|].
  rewrite lookup_insert_ne by done. apply IH. set_solver.
Qed.

Lemma locks_notin (v : spinlock) (m : gmap lockid spinlock) ls l :
  l ∉ ls -> foldr (fun l m => <[l := v]> m) m ls !! l = m !! l.
Proof.
  induction ls as [|k ls IH]; [done|]. cbn [foldr]. intros Hl.
  rewrite lookup_insert_ne by set_solver. apply IH. set_solver.
Qed.

Lemma proc_not_fs j : L_proc j ∉ fs_lockids.
Proof.
  unfold fs_lockids. rewrite !elem_of_app, !list_elem_of_fmap, !elem_of_cons.
  intros [Hl|[(i & ? & _)|(i & ? & _)]]; [|done|done].
  repeat (destruct Hl as [?|Hl]; [done|]). by apply elem_of_nil in Hl.
Qed.

Lemma fctx_kst_fs d : fctx 0 1 (kst_fs d).
Proof.
  split.
  - destruct kthread_pr as [A1 A2 A3 A4]. split; [exact A1|exact A2|exact A3|].
    intros j Hj. exists "proc". change (fs_locks !! L_proc j = Some (Spinlock 0 "proc" None)).
    unfold fs_locks. rewrite locks_notin by apply proc_not_fs. by apply proc_locks_free.
  - intros l Hl. exists "fs". change (fs_locks !! l = Some (Spinlock 0 "fs" None)). apply locks_in.
    unfold fs_lockids. rewrite !elem_of_app, !list_elem_of_fmap, !elem_of_cons.
    destruct l; simpl in Hl; try done; try tauto.
    + right; left. eexists. split; [done|]. apply elem_of_seq. lia.
    + right; right. eexists. split; [done|]. apply elem_of_seq. lia.
  - reflexivity.
  - intros j p Hp Hs. exfalso. change (<[0%nat := proc_run]> (replicate NPROC proc0) !! j = Some p) in Hp.
    destruct (decide (j = 0)%nat) as [->|]; [by injection Hp as <-|].
    rewrite list_lookup_insert_ne in Hp by done. apply lookup_replicate in Hp as [-> _]. done.
Qed.

Lemma fresh_bufs_inv : binit_inv NBUF fresh_bufs.
Proof.
  assert (Hlook : forall i, (i < NBUF)%nat -> fresh_bufs !! i = Some (fresh_buf (match i with O => head | S j => j end) (S i))).
  { intros i Hi. unfold fresh_bufs. rewrite lookup_app_l by (by rewrite length_fmap, length_seq).
    rewrite list_lookup_fmap, lookup_seq_lt by done. done. }
  assert (Hhead : fresh_bufs !! head = Some (b_set_next 29 (b_set_prev 0 buf0))) by reflexivity.
  split.
  - split; [reflexivity|]. intros a. unfold nx, pv, nxt, prv.
    destruct (decide (a < NBUF)%nat).
    + rewrite Hlook by done. simpl. destruct a; unfold head; lia.
    + destruct (decide (a = NBUF)) as [->|]; [change NBUF with head; rewrite Hhead; simpl; unfold head, NBUF; lia|].
      rewrite lookup_ge_None_2; [done|]. change (length fresh_bufs) with (S NBUF). lia.
  - vm_compute. repeat split.
  - intros i Hi. rewrite Hlook by done. by eexists _, _.
  - intros i Hi. lia.
Qed.

(** Every block of the disk has its size. *)
Definition disk_ok (d : gmap Z (list Z)) : Prop := forall n b, d !! n = Some b -> length b = Z.to_nat BSIZE.

Lemma bc_kst_fs d : disk_ok d -> bc 0 1 1 (empty_view d) (kst_fs d).
Proof.
  intros Hd. split; [apply fctx_kst_fs|by apply binit_bufs, fresh_bufs_inv|done|done|].
  intros n. change (fs_disk (k_fs (kst_fs d))) with d. unfold disk_block.
  destruct (d !! n) eqn:E; [by eapply Hd|apply length_replicate].
Qed.


Lemma disk_ok_empty : disk_ok ∅.
Proof. intros n b Hn. by rewrite lookup_empty in Hn. Qed.

Lemma bget_correct_witness : exists bs,
  bget 1 5 [] (kst_fs ∅) = Ok 0%nat [] (with_bufs bs (kst_fs ∅)).
Proof.
  eexists. rewrite (bget_correct 0 1 (reverse (seq 0 NBUF)) 1 5 [] (kst_fs ∅)).
  - vm_compute (search _ _ _). reflexivity.
  - apply fctx_kst_fs.
  - split; [apply fresh_bufs_inv|by rewrite reverse_Permutation|reflexivity].
  - intros b x Hb Hx. apply (idle_lock 1 1 (empty_view ∅) b x); [|done].
    exact (bk_buf _ _ _ _ (bc_bufs _ _ _ _ _ (bc_kst_fs ∅ disk_ok_empty)) b x Hb Hx).
Defined.

Lemma sleeplock_protocol_witness : 
  (acquiresleep (SL_buf 3) ;; r ← holdingsleep (SL_buf 3); releasesleep (SL_buf 3) ;; mret r) [] (kst_fs ∅) =
    Ok true [] (kst_fs ∅) /\
  holdingsleep (SL_buf 3) [] (kst_fs ∅) = Ok false [] (kst_fs ∅).
Proof.
  assert (Hb : fs_lock (sl_spin (SL_buf 3))) by (simpl; unfold NBUF; lia).
  pose proof (sleeplock_protocol 0 1 (SL_buf 3) [] (kst_fs ∅) "buffer" (fctx_kst_fs ∅) Hb) as (H1 & H2 & _).
  split; [apply H1; reflexivity|]. apply (H2 0 0); [reflexivity|by left].
Defined.

Section coherence.
Context `{DiskDriver}.

(** Read a block, replace its content, write it, and read it again. *)
Definition rewrite_block (dev n : Z) (d : list Z) : K (list Z) :=
  b ← bread dev n;
  upd_buf b (b_set_data d) ;;
  bwrite b ;;
  brelse b ;;
  b ← bread dev n;
  x ← get_buf b;
  brelse b ;;
  mret (b_data x).

Lemma read_block_wp me pid dev v e s n Q :
  dev <> 0 -> bc me pid dev v s -> n ∉ bv_dirty v -> (forall i, bv_held v !! i <> Some n) ->
  (size (bv_held v) + size (bv_pins v) < NBUF)%nat ->
  (forall bs, bc me pid dev v (with_bufs bs s) -> Q (bv_L v n) e (with_bufs bs s)) ->
  wp (b ← bread dev n; x ← get_buf b; brelse b ;; mret (b_data x)) e s Q.
Proof.
  intros Hdev Hbc Hnd Hnh Hcap HQ.
  apply wp_bind. eapply bread_wp; [exact Hbc|done|by right|]. intros b bs Hb Hbc1.
  assert (Hb1 : bv_held (bv_hold b n v) !! b = Some n) by (simpl; apply lookup_insert_eq).
  destruct (held_buf _ _ _ _ _ _ _ Hbc1 Hb1) as (x & Hlt & Hx & _ & _ & Hdat & _ & _).
  apply wp_bind. eapply wp_run; [by apply get_buf_run|].
  apply wp_seq. eapply brelse_wp; [exact Hbc1|exact Hb1|simpl; done|].
  intros bs2 Hbc2. rewrite with_bufs_twice in *. apply wp_ret. rewrite Hdat. apply HQ.
  unfold bv_drop, bv_hold in Hbc2. simpl in Hbc2. rewrite delete_insert_id in Hbc2 by done. by destruct v.
Qed.

(** The view after a block was read, edited, written and released. *)
Lemma bc_rewritten me pid dev v b n d s :
  bv_held v !! b = None -> n ∉ bv_dirty v ->
  bc me pid dev (bv_drop b (bv_clean n (bv_edit n d (bv_hold b n v)))) s ->
  bc me pid dev (BView (<[n := d]> (bv_L v)) (bv_held v) (bv_pins v) (bv_dirty v)) s.
Proof.
  intros Hb Hnd. unfold bv_drop, bv_clean, bv_edit, bv_hold. simpl.
  rewrite delete_insert_id by done.
  replace ((bv_dirty v ∪ {[n]}) ∖ {[n]}) with (bv_dirty v); [done|]. apply leibniz_equiv. set_solver.
Qed.

(** C20: The cache is coherent: [bread] gives the current content of a block in
    a buffer of its own; what a process stores there and writes is what the
    disk then holds and what the next [bread] returns, and no other block
    changes. It needs one free buffer, and returns it. *)
Theorem cache_coherent me pid dev v e s n d :
  dev <> 0 -> bc me pid dev v s -> n ∉ bv_dirty v -> length d = Z.to_nat BSIZE ->
  (forall i, bv_held v !! i <> Some n) -> (size (bv_held v) + size (bv_pins v) < NBUF)%nat ->
  wp (b ← bread dev n; x ← get_buf b; brelse b ;; mret (b_data x)) e s (fun d' e' s' =>
    d' = bv_L v n /\ e' = e /\ exists bs, s' = with_bufs bs s /\ bc me pid dev v s') /\
  wp (rewrite_block dev n d) e s (fun d' e' s' =>
    d' = d /\ e' = e /\
    bc me pid dev (BView (<[n := d]> (bv_L v)) (bv_held v) (bv_pins v) (bv_dirty v)) s' /\
    fs_disk (k_fs s') = <[n := d]> (fs_disk (k_fs s)) /\
    fs_writes (k_fs s') = fs_writes (k_fs s) ++ [(n, d)]).
Proof.
  intros Hdev Hbc Hnd Hlen Hnh Hcap. split.
  { eapply read_block_wp; [done..|]. intros bs Hbc1. split_and!; [done|done|by exists bs]. }
  unfold rewrite_block. apply wp_bind. eapply bread_wp; [exact Hbc|done|by right|].
  intros b bs Hb Hbc1.
  assert (Hb1 : bv_held (bv_hold b n v) !! b = Some n) by (simpl; apply lookup_insert_eq).
  destruct (held_buf _ _ _ _ _ _ _ Hbc1 Hb1) as (x & Hlt & Hx & _).
  apply wp_seq. eapply wp_run; [apply upd_buf_run; by exists x|].
  pose proof (bc_edit _ _ _ _ _ _ _ d Hbc1 Hb1 Hlen) as Hbc2.
  apply wp_seq. eapply bwrite_wp; [exact Hbc2|exact Hb1|]. intros Hbc3.
  apply wp_seq. eapply brelse_wp; [exact Hbc3|exact Hb1|simpl; set_solver|].
  intros bs3 Hbc4%bc_rewritten; [|done|done].
  eapply read_block_wp; [done|exact Hbc4|done..|]. intros bs6 Hbc6.
  split_and!; [simpl; by rewrite fn_lookup_insert|done|exact Hbc6|..]; simpl; by rewrite fn_lookup_insert.
Qed.
End coherence.

Lemma cache_coherent_witness :
  exists s', @rewrite_block sync_disk 1 5 (replicate (Z.to_nat BSIZE) 9) [] (kst_fs ∅) =
    Ok (replicate (Z.to_nat BSIZE) 9) [] s' /\ fs_writes (k_fs s') = [(5, replicate (Z.to_nat BSIZE) 9)].
Proof.
  destruct (@cache_coherent sync_disk 0 1 1 (empty_view ∅) [] (kst_fs ∅) 5 (replicate (Z.to_nat BSIZE) 9))
    as [_ Hw]; [lia|apply bc_kst_fs, disk_ok_empty|apply not_elem_of_empty|apply length_replicate
      |intros i; change (bv_held (empty_view ∅)) with (∅ : gmap nat Z); by rewrite lookup_empty|vm_compute; lia|].
  unfold wp in Hw. destruct (rewrite_block _ _ _ _ _) as [d e s'| | | |] eqn:E; [|destruct Hw..].
  destruct Hw as (-> & -> & _ & _ & Hwr). exists s'. split; [reflexivity|exact Hwr].
Defined.
