(* ===== verification/Log.v ===== *)
(** log.c: the write-ahead log. *)

From S2P Require Import Prelude Machine KState Blocks Spinlock Kalloc Proc ProcSpec Sleeplock Bio.

(** ** Access *)

Definition log_set_lh (h : logheader) (l : log) : log :=
  Log (log_start l) (log_size l) (log_outstanding l) (log_committing l) (log_dev l) h.
Definition log_set_outstanding (n : Z) (l : log) : log :=
  Log (log_start l) (log_size l) n (log_committing l) (log_dev l) (log_lh l).
Definition log_set_committing (n : Z) (l : log) : log :=
  Log (log_start l) (log_size l) (log_outstanding l) n (log_dev l) (log_lh l).

Definition get_log : K log := gets (fun s => fs_log (k_fs s)).
Definition upd_log (g : log -> log) : K unit :=
  modk (fun s => set_fs (fs_set_log (g (fs_log (k_fs s))) (k_fs s)) s).

(** [log.lh.n], [log.lh.block[i]]. *)
Definition log_n : K Z := l ← get_log; mret (lh_n (log_lh l)).
Definition log_set_n (n : Z) : K unit :=
  upd_log (fun l => log_set_lh (Logheader n (lh_block (log_lh l))) l).
Definition log_block (i : Z) : K Z := l ← get_log; deref (lh_block (log_lh l) !! Z.to_nat i).
Definition log_set_block (i v : Z) : K unit :=
  log_block i ;;
  upd_log (fun l => log_set_lh (Logheader (lh_n (log_lh l)) (<[Z.to_nat i := v]> (lh_block (log_lh l)))) l).

(** A 32-bit integer in the data of a buffer. *)
Definition buf_get32 (b : nat) (off : Z) : K Z :=
  x ← get_buf b;
  if off + 4 <=? Z.of_nat (length (b_data x)) then mret (get32 off (b_data x)) else fault.
Definition buf_put32 (b : nat) (off v : Z) : K unit :=
  x ← get_buf b;
  if off + 4 <=? Z.of_nat (length (b_data x)) then upd_buf b (b_set_data (put32 off v (b_data x))) else fault.

(** [for (i = 0; i < bound; i++) body], with [bound] evaluated each time. *)
Fixpoint for_below (fuel : nat) (i : Z) (bound : K Z) (body : Z -> K unit) : K unit :=
  match fuel with
  | O => nofuel
  | S fuel =>
    n ← bound;
    if i <? n then body i ;; for_below fuel (i + 1) bound body else mret tt
  end.

(** The loops over log.lh.n: an index past LOGSIZE is outside block[]. *)
Definition log_fuel : nat := Z.to_nat LOGSIZE + 2.

(** ** log.c *)

Section log.
Context `{DiskDriver}.

(** The bodies of the loops have names of their own. *)
Definition install_one (recovering tail : Z) : K unit :=
  l ← get_log;
  lbuf ← bread (log_dev l) (u32 (log_start l + tail + 1));
  l ← get_log;
  n ← log_block tail;
  dbuf ← bread (log_dev l) (u32 n);
  x ← get_buf lbuf;
  upd_buf dbuf (b_set_data (b_data x)) ;;
  bwrite dbuf ;;
  when (recovering =? 0) (bunpin dbuf) ;;
  brelse lbuf ;;
  brelse dbuf.

Definition install_trans (recovering : Z) : K unit :=
  for_below log_fuel 0 log_n (install_one recovering).

Definition read_head_one (buf : nat) (i : Z) : K unit :=
  v ← buf_get32 buf (4 + 4 * i);
  log_set_block i (i32 v).

Definition read_head : K unit :=
  l ← get_log;
  buf ← bread (log_dev l) (u32 (log_start l));
  n ← buf_get32 buf 0;
  log_set_n (i32 n) ;;
  for_below log_fuel 0 log_n (read_head_one buf) ;;
  brelse buf.

Definition write_head_one (buf : nat) (i : Z) : K unit :=
  v ← log_block i;
  buf_put32 buf (4 + 4 * i) v.

Definition write_head : K unit :=
  l ← get_log;
  buf ← bread (log_dev l) (u32 (log_start l));
  n ← log_n;
  buf_put32 buf 0 n ;;
  for_below log_fuel 0 log_n (write_head_one buf) ;;
  bwrite buf ;;
  brelse buf.

Definition recover_from_log : K unit :=
  read_head ;;
  install_trans 1 ;;
  log_set_n 0 ;;
  write_head.

Definition sizeof_logheader : Z := 4 + 4 * LOGSIZE.

Definition initlog (dev : Z) (sb : superblock) : K unit :=
  when (sizeof_logheader >=? BSIZE) (panic "initlog: too big logheader") ;;
  initlock L_log "log" ;;
  upd_log (fun l => Log (i32 (sb_logstart sb)) (i32 (sb_nlog sb)) (log_outstanding l)
                        (log_committing l) dev (log_lh l)) ;;
  recover_from_log.

(** The loop of begin_op; it ends with the lock released. *)
Fixpoint begin_op_loop (fuel : nat) : K unit :=
  match fuel with
  | O => nofuel
  | S fuel =>
    l ← get_log;
    if negb (log_committing l =? 0) then
      sleep C_log L_log ;; begin_op_loop fuel
    else if lh_n (log_lh l) + (log_outstanding l + 1) * MAXOPBLOCKS >? LOGSIZE then
      sleep C_log L_log ;; begin_op_loop fuel
    else
      upd_log (log_set_outstanding (log_outstanding l + 1)) ;;
      release L_log
  end.

Definition begin_op : K unit :=
  acquire L_log ;;
  sleeping begin_op_loop.

Definition write_log_one (tail : Z) : K unit :=
  l ← get_log;
  to ← bread (log_dev l) (u32 (log_start l + tail + 1));
  l ← get_log;
  n ← log_block tail;
  from ← bread (log_dev l) (u32 n);
  x ← get_buf from;
  upd_buf to (b_set_data (b_data x)) ;;
  bwrite to ;;
  brelse from ;;
  brelse to.

Definition write_log : K unit := for_below log_fuel 0 log_n write_log_one.

Definition commit : K unit :=
  n ← log_n;
  when (n >? 0) (
    write_log ;;
    write_head ;;
    install_trans 0 ;;
    log_set_n 0 ;;
    write_head).

Definition end_op : K unit :=
  acquire L_log ;;
  upd_log (fun l => log_set_outstanding (log_outstanding l - 1) l) ;;
  l ← get_log;
  when (negb (log_committing l =? 0)) (panic "log.committing") ;;
  let do_commit := log_outstanding l =? 0 in
  (if do_commit then upd_log (log_set_committing 1) else wakeup (Some C_log)) ;;
  release L_log ;;
  when do_commit (
    commit ;;
    acquire L_log ;;
    upd_log (log_set_committing 0) ;;
    wakeup (Some C_log) ;;
    release L_log).

End log.

(** The search of log_write: the first entry that is [n], or log.lh.n. *)
Fixpoint log_search (fuel : nat) (i n : Z) : K Z :=
  match fuel with
  | O => nofuel
  | S fuel =>
    k ← log_n;
    if i <? k then
      v ← log_block i;
      if u32 v =? n then mret i else log_search fuel (i + 1) n
    else mret i
  end.

Definition log_write (b : nat) : K unit :=
  acquire L_log ;;
  l ← get_log;
  when ((lh_n (log_lh l) >=? LOGSIZE) || (lh_n (log_lh l) >=? log_size l - 1)) (panic "too big a transaction") ;;
  when (log_outstanding l <? 1) (panic "log_write outside of trans") ;;
  x ← get_buf b;
  i ← log_search log_fuel 0 (b_blockno x);
  log_set_block i (i32 (b_blockno x)) ;;
  n ← log_n;
  when (i =? n) (bpin b ;; log_set_n (n + 1)) ;;
  release L_log.
