(* ===== verification/LogSpec.v ===== *)
(** The log as an abstraction: what each routine of log.c does to the blocks,
    and the writes it sends to the disk. *)

From stdpp Require Import functions.
From S2P Require Import Prelude Machine KState Blocks Spinlock Kalloc Proc ProcSpec Sleeplock Bio BioList BioSpec Log.

Lemma wp_for_below fuel k n bound body e s (I : nat -> kst -> Prop) Q :
  (k <= n)%nat -> (n - k < fuel)%nat -> I k s ->
  (forall j s, (j <= n)%nat -> I j s -> bound e s = Ok (Z.of_nat n) e s) ->
  (forall j s, (j < n)%nat -> I j s -> wp (body (Z.of_nat j)) e s (fun _ e' s' => e' = e /\ I (S j) s')) ->
  (forall s, I n s -> Q tt e s) ->
  wp (for_below fuel (Z.of_nat k) bound body) e s Q.
Proof.
  intros Hk Hf HI Hb Hbody HQ. revert k s Hk Hf HI.
  induction fuel as [|fuel IH]; intros k s Hk Hf HI; [lia|]. cbn [for_below].
  apply wp_bind. eapply wp_run; [by apply (Hb k)|].
  destruct (Z.ltb_spec (Z.of_nat k) (Z.of_nat n)) as [Hlt|Hge].
  - apply wp_seq. eapply wp_mono; [apply (Hbody k); [lia|done]|]. intros ? e' s' [-> HI'].
    replace (Z.of_nat k + 1) with (Z.of_nat (S k)) by lia. apply IH; [lia|lia|done].
  - apply wp_ret, HQ. by replace n with k by lia.
Qed.

(** ** States that differ in the cache and in what was written *)

Definition apply_writes (W : list (Z * list Z)) (d : gmap Z (list Z)) : gmap Z (list Z) :=
  foldl (fun d w => <[w.1 := w.2]> d) d W.

Lemma apply_writes_app W1 W2 d : apply_writes (W1 ++ W2) d = apply_writes W2 (apply_writes W1 d).
Proof. apply foldl_app. Qed.

(** [s'] is [s] after the disk writes [W]. *)
Definition wrote (W : list (Z * list Z)) (s s' : kst) : Prop :=
  exists bs, s' = set_fs (Fst bs (apply_writes W (fs_disk (k_fs s))) (fs_writes (k_fs s) ++ W)
    (fs_log (k_fs s)) (fs_sb (k_fs s)) (fs_inodes (k_fs s))) s.

Lemma wrote_nil s : wrote [] s s.
Proof. exists (fs_bufs (k_fs s)). rewrite app_nil_r. by destruct s as [? ? ? ? [] ? ? ?]. Qed.

Lemma wrote_bufs bs s : wrote [] s (with_bufs bs s).
Proof. exists bs. by rewrite app_nil_r. Qed.

Lemma wrote_disk n d s : wrote [(n, d)] s (disk_written n d s).
Proof. by exists (fs_bufs (k_fs s)). Qed.

Lemma wrote_trans W1 W2 s s1 s2 : wrote W1 s s1 -> wrote W2 s1 s2 -> wrote (W1 ++ W2) s s2.
Proof. intros [bs1 ->] [bs2 ->]. exists bs2. simpl. by rewrite apply_writes_app, app_assoc. Qed.

Lemma wrote_log W s s' : wrote W s s' -> fs_log (k_fs s') = fs_log (k_fs s).
Proof. by intros [bs ->]. Qed.

#[export] Hint Resolve wrote_nil wrote_bufs wrote_disk : xv6.

(** The view may change where it says the same. *)
Lemma bc_ext me pid dev v v' s :
  (forall n, bv_L v' n = bv_L v n) -> bv_held v' = bv_held v -> bv_pins v' = bv_pins v ->
  bv_dirty v' = bv_dirty v -> bc me pid dev v s -> bc me pid dev v' s.
Proof.
  destruct v as [L h p d], v' as [L' h' p' d']; simpl. intros EL -> -> -> [A [B1 B2 B3 B4 B5] C D E].
  split; [done| | |done|done].
  - split; [done| |done|done|done]. intros i x Hi Hx. destruct (B2 i x Hi Hx) as [F1 F2 F3 F4 F5].
    split; try done. simpl in *. by rewrite EL.
  - intros n Hn. simpl in *. rewrite EL. by apply C.
Qed.

(** The log's record is apart from the cache and the disk. *)
Definition set_log (l : log) (s : kst) : kst := set_fs (fs_set_log l (k_fs s)) s.

Lemma wrote_set_log W l s t : wrote W s t -> wrote W (set_log l s) (set_log l t).
Proof. intros [bs ->]. by exists bs. Qed.

Lemma bc_set_log me pid dev v l s : bc me pid dev v s -> bc me pid dev v (set_log l s).
Proof. intros [A B C D E]. split; [by apply fctx_fs|done..]. Qed.

Section log.
Context `{DiskDriver} (me : nat) (pid dev : Z).
Notation bc := (bc me pid dev).

(** ** The loop bodies *)

(** Two buffers taken and given back leave nothing held. *)
Lemma held_two (a b : nat) (m n : Z) :
  a <> b -> delete a (delete b (<[b := n]> (<[a := m]> (∅ : gmap nat Z)))) = ∅.
Proof.
  intros Hne. apply map_eq. intros i. rewrite lookup_empty, !lookup_delete_None, !lookup_insert_None.
  destruct (decide (i = a)) as [->|]; [by left|right]. destruct (decide (i = b)) as [->|]; [by left|right].
  by rewrite lookup_empty.
Qed.

Lemma held_two' (a b : nat) (m n : Z) :
  a <> b -> delete b (delete a (<[b := n]> (<[a := m]> (∅ : gmap nat Z)))) = ∅.
Proof. intros Hne. rewrite delete_delete. by apply held_two. Qed.

Lemma dirty_clean (D : gset Z) n : (D ∪ {[n]}) ∖ {[n]} = D ∖ {[n]}.
Proof. apply leibniz_equiv. set_solver. Qed.

Lemma dirty_id (D : gset Z) n : n ∉ D -> D ∖ {[n]} = D.
Proof. intros. apply leibniz_equiv. set_solver. Qed.

Lemma hold_none v a n i : bv_held v = ∅ -> n <> a -> bv_held (bv_hold i a v) !! i <> Some n.
Proof. intros Hh Hne. simpl. rewrite lookup_insert_eq. congruence. Qed.

Lemma hold_other v b a n : bv_held v = ∅ -> n <> a -> forall i, bv_held (bv_hold b a v) !! i <> Some n.
Proof.
  intros Hh Hne i. simpl. rewrite Hh. destruct (decide (i = b)) as [->|].
  - rewrite lookup_insert_eq. congruence.
  - by rewrite lookup_insert_ne, lookup_empty.
Qed.

Lemma hold_size v b a : bv_held v = ∅ -> size (bv_held (bv_hold b a v)) = 1%nat.
Proof. intros Hh. simpl. by rewrite Hh, insert_empty, map_size_singleton. Qed.

(** The log: where it is, and the blocks [bl] of the current transaction. *)
Record log_is (start lsize out com : Z) (bl : list Z) (l : log) : Prop := {
  li_start : log_start l = start;
  li_size : log_size l = lsize;
  li_dev : log_dev l = dev;
  li_out : log_outstanding l = out;
  li_com : log_committing l = com;
  li_n : lh_n (log_lh l) = Z.of_nat (length bl);
  li_blocks : forall i n, bl !! i = Some n -> lh_block (log_lh l) !! i = Some n;
  li_len : length (lh_block (log_lh l)) = Z.to_nat LOGSIZE }.

Context (start lsize : Z).

(** The blocks of the log: its header and the copies after it. *)
Definition in_log (n : Z) : Prop := start <= n < start + lsize.

(** A transaction the log can hold. *)
Record tx_ok (bl : list Z) : Prop := {
  tx_geo : 0 <= start /\ start + lsize < 2147483648;
  tx_nodup : NoDup bl;
  tx_home : forall n, n ∈ bl -> 0 <= n < 2147483648 /\ ~ in_log n;
  tx_fits : Z.of_nat (length bl) <= LOGSIZE /\ Z.of_nat (length bl) < lsize;
  tx_bufs : (length bl < NBUF)%nat }.

Lemma log_n_run out com bl e s :
  log_is start lsize out com bl (fs_log (k_fs s)) -> log_n e s = Ok (Z.of_nat (length bl)) e s.
Proof. intros Hl. unfold log_n, get_log. krun. by rewrite (li_n _ _ _ _ _ _ Hl). Qed.

Lemma log_block_run out com bl i n e s :
  log_is start lsize out com bl (fs_log (k_fs s)) -> 0 <= i -> bl !! Z.to_nat i = Some n ->
  log_block i e s = Ok n e s.
Proof. intros Hl Hi Hn. unfold log_block, get_log. krun. by rewrite (li_blocks _ _ _ _ _ _ Hl _ _ Hn). Qed.

(** The copy of the [i]th block of the transaction. *)
Definition copy_at (i : nat) : Z := start + Z.of_nat i + 1.

Lemma copy_in_log bl i n : tx_ok bl -> bl !! i = Some n -> in_log (copy_at i).
Proof.
  intros Ht Hi%lookup_lt_Some. destruct (tx_geo _ Ht), (tx_fits _ Ht). unfold in_log, copy_at. lia.
Qed.

(** Copying block [n] to its place in the log. *)
Lemma write_log_one_wp out com bl i n v e s Q :
  tx_ok bl -> log_is start lsize out com bl (fs_log (k_fs s)) -> bl !! i = Some n ->
  bc v s -> bv_held v = ∅ -> bv_pins v = list_to_set bl -> bv_dirty v ⊆ bv_pins v ->
  (forall s', bc (BView (<[copy_at i := bv_L v n]> (bv_L v)) ∅ (bv_pins v) (bv_dirty v)) s' ->
     wrote [(copy_at i, bv_L v n)] s s' -> Q tt e s') ->
  wp (write_log_one (Z.of_nat i)) e s Q.
Proof.
  intros Ht Hl Hi Hbc Hh Hp Hd HQ.
  pose proof (copy_in_log _ _ _ Ht Hi) as Hcl. destruct (tx_geo _ Ht) as [G1 G2]. unfold in_log in Hcl.
  assert (Hin : n ∈ bl) by (by eapply list_elem_of_lookup_2).
  destruct (tx_home _ Ht n Hin) as [Hn Hnl]. assert (Hne : n <> copy_at i) by (intros ->; done).
  assert (Hcd : copy_at i ∉ bv_dirty v).
  { intros Hx. apply Hd in Hx. rewrite Hp, elem_of_list_to_set in Hx. by apply (tx_home _ Ht) in Hx as [_ []]. }
  assert (Hsz : (size (bv_pins v) < NBUF)%nat).
  { rewrite Hp, size_list_to_set by apply Ht. apply Ht. }
  unfold write_log_one. apply wp_bind, wp_gets.
  rewrite (li_dev _ _ _ _ _ _ Hl), (li_start _ _ _ _ _ _ Hl). fold (copy_at i).
  rewrite u32_small by lia. apply wp_bind. eapply bread_wp; [exact Hbc| |right|].
  { intros j. by rewrite Hh, lookup_empty. }
  { by rewrite Hh, map_size_empty. }
  intros to bs _ Hbc1. apply wp_bind, wp_gets. apply wp_bind.
  eapply wp_run; [eapply log_block_run; [exact Hl|lia|by rewrite Nat2Z.id]|].
  simpl. rewrite (li_dev _ _ _ _ _ _ Hl), u32_small by lia.
  apply wp_bind. eapply bread_wp; [exact Hbc1|by apply hold_other|left; simpl; rewrite Hp; by apply elem_of_list_to_set|].
  intros from bs2 Hfree Hbc2. rewrite with_bufs_twice in *.
  assert (Hto : to <> from) by (intros ->; simpl in Hfree; by rewrite lookup_insert_eq in Hfree).
  assert (Hhf : bv_held (bv_hold from n (bv_hold to (copy_at i) v)) !! from = Some n) by apply lookup_insert_eq.
  assert (Hht : bv_held (bv_hold from n (bv_hold to (copy_at i) v)) !! to = Some (copy_at i)).
  { simpl. rewrite lookup_insert_ne by done. apply lookup_insert_eq. }
  destruct (held_buf _ _ _ _ _ _ _ Hbc2 Hhf) as (x & _ & Hx & _ & _ & Hdat & Hlen & _).
  destruct (held_buf _ _ _ _ _ _ _ Hbc2 Hht) as (y & _ & Hy & _).
  apply wp_bind. eapply wp_run; [by apply get_buf_run|].
  apply wp_seq. eapply wp_run; [apply upd_buf_run; by exists y|]. rewrite Hdat.
  pose proof (bc_edit _ _ _ _ _ _ _ _ Hbc2 Hht Hlen) as Hbc3. simpl in Hbc3 |- *.
  apply wp_seq. eapply bwrite_wp; [exact Hbc3|exact Hht|]. intros Hbc4.
  apply wp_seq. eapply brelse_wp; [exact Hbc4|exact Hhf| |].
  { simpl. set_solver. }
  intros bs4 Hbc5. eapply brelse_wp; [exact Hbc5| | |].
  { simpl. rewrite lookup_delete_ne by done. exact Hht. }
  { simpl. set_solver. }
  intros bs5 Hbc6. apply HQ.
  - eapply bc_ext; [| | | |exact Hbc6]; simpl; [done| |done|].
    + by rewrite Hh, held_two.
    + by rewrite dirty_clean, dirty_id.
  - exists bs5. simpl. by rewrite fn_lookup_insert.
Qed.

(** Copying a block of the log to its home. *)
Lemma install_one_wp rec out com bl i n v e s Q :
  tx_ok bl -> log_is start lsize out com bl (fs_log (k_fs s)) -> bl !! i = Some n ->
  bc v s -> bv_held v = ∅ -> copy_at i ∉ bv_dirty v -> (size (bv_pins v) < NBUF)%nat ->
  (if rec =? 0 then n ∈ bv_pins v else n ∉ bv_pins v /\ (S (size (bv_pins v)) < NBUF)%nat) ->
  (forall s', bc (BView (<[n := bv_L v (copy_at i)]> (bv_L v)) ∅ (bv_pins v ∖ {[n]}) (bv_dirty v ∖ {[n]})) s' ->
     wrote [(n, bv_L v (copy_at i))] s s' -> Q tt e s') ->
  wp (install_one rec (Z.of_nat i)) e s Q.
Proof.
  intros Ht Hl Hi Hbc Hh Hcd Hsz Hrec HQ.
  pose proof (copy_in_log _ _ _ Ht Hi) as Hcl. destruct (tx_geo _ Ht) as [G1 G2]. unfold in_log in Hcl.
  assert (Hin : n ∈ bl) by (by eapply list_elem_of_lookup_2).
  destruct (tx_home _ Ht n Hin) as [Hn Hnl]. assert (Hne : n <> copy_at i) by (intros ->; done).
  unfold install_one. apply wp_bind, wp_gets.
  rewrite (li_dev _ _ _ _ _ _ Hl), (li_start _ _ _ _ _ _ Hl). fold (copy_at i).
  rewrite u32_small by lia. apply wp_bind. eapply bread_wp; [exact Hbc| |right|].
  { intros j. by rewrite Hh, lookup_empty. }
  { by rewrite Hh, map_size_empty. }
  intros lb bs _ Hbc1. apply wp_bind, wp_gets. apply wp_bind.
  eapply wp_run; [eapply log_block_run; [exact Hl|lia|by rewrite Nat2Z.id]|].
  simpl. rewrite (li_dev _ _ _ _ _ _ Hl), u32_small by lia.
  apply wp_bind. eapply bread_wp; [exact Hbc1|by apply hold_other| |].
  { rewrite (hold_size _ _ _ Hh). simpl. destruct (rec =? 0); [by left|right; apply Hrec]. }
  intros db bs2 Hfree Hbc2. rewrite with_bufs_twice in *.
  assert (Hto : lb <> db) by (intros ->; simpl in Hfree; by rewrite lookup_insert_eq in Hfree).
  assert (Hhd : bv_held (bv_hold db n (bv_hold lb (copy_at i) v)) !! db = Some n) by apply lookup_insert_eq.
  assert (Hhl : bv_held (bv_hold db n (bv_hold lb (copy_at i) v)) !! lb = Some (copy_at i)).
  { simpl. rewrite lookup_insert_ne by done. apply lookup_insert_eq. }
  destruct (held_buf _ _ _ _ _ _ _ Hbc2 Hhl) as (x & _ & Hx & _ & _ & Hdat & Hlen & _).
  destruct (held_buf _ _ _ _ _ _ _ Hbc2 Hhd) as (y & _ & Hy & _).
  apply wp_bind. eapply wp_run; [by apply get_buf_run|].
  apply wp_seq. eapply wp_run; [apply upd_buf_run; by exists y|]. rewrite Hdat.
  pose proof (bc_edit _ _ _ _ _ _ _ _ Hbc2 Hhd Hlen) as Hbc3. simpl in Hbc3 |- *.
  apply wp_seq. eapply bwrite_wp; [exact Hbc3|exact Hhd|]. intros Hbc4.
  assert (Hend : forall v' bs, bc v' (with_bufs bs (disk_written n (bv_L v (copy_at i)) s)) ->
    (forall m, bv_L v' m = <[n := bv_L v (copy_at i)]> (bv_L v) m) ->
    bv_held v' = bv_held (bv_hold db n (bv_hold lb (copy_at i) v)) ->
    bv_pins v' = bv_pins v ∖ {[n]} -> bv_dirty v' = bv_dirty v ∖ {[n]} ->
    wp (brelse lb ;; brelse db) e (with_bufs bs (disk_written n (bv_L v (copy_at i)) s)) Q).
  { intros v' bs' Hb EL Eh Ep Ed. apply wp_seq. eapply brelse_wp; [exact Hb|rewrite Eh; exact Hhl|rewrite Ed; set_solver|].
    intros bs5 Hbc5. eapply brelse_wp;
      [exact Hbc5|simpl; rewrite Eh, lookup_delete_ne by done; exact Hhd|simpl; rewrite Ed; set_solver|].
    intros bs6 Hbc6. apply HQ; [|by exists bs6].
    eapply bc_ext; [| | | |exact Hbc6]; simpl; [done| |done|done]. rewrite Eh. simpl. by rewrite Hh, held_two'. }
  apply wp_seq. simpl in Hbc4 |- *. rewrite fn_lookup_insert in *. unfold when.
  destruct (rec =? 0).
  - eapply bunpin_wp; [exact Hbc4|exact Hhd|done|]. intros bs5 Hbc5.
    eapply Hend; [exact Hbc5|done|done|done|]. simpl. by rewrite dirty_clean.
  - apply wp_ret. eapply (Hend _ (alter _ db bs2)); [exact Hbc4|done|done| |]; simpl.
    + by rewrite dirty_id by apply Hrec.
    + by rewrite dirty_clean.
Qed.

(** ** The routines *)

(** What write_log sends to the disk, and install_trans. *)
Definition log_writes (L : Z -> list Z) (bl : list Z) : list (Z * list Z) :=
  imap (fun i n => (copy_at i, L n)) bl.
Definition home_writes (L : Z -> list Z) (bl : list Z) : list (Z * list Z) :=
  imap (fun i n => (n, L (copy_at i))) bl.

Lemma log_fuel_ok bl : tx_ok bl -> (length bl - 0 < log_fuel)%nat.
Proof. intros Ht. destruct (tx_fits _ Ht). unfold log_fuel, LOGSIZE, MAXOPBLOCKS in *. lia. Qed.

Lemma take_imap_S {A B} (f : nat -> A -> B) l i x :
  l !! i = Some x -> take (S i) (imap f l) = take i (imap f l) ++ [f i x].
Proof. intros Hi. apply take_S_r. by rewrite list_lookup_imap, Hi. Qed.

(** The blocks the first [j] rounds of write_log store. *)
Record logged (L L' : Z -> list Z) (bl : list Z) (j : nat) : Prop := {
  lg_copy : forall i n, (i < j)%nat -> bl !! i = Some n -> L' (copy_at i) = L n;
  lg_other : forall m, (forall i, (i < j)%nat -> m <> copy_at i) -> L' m = L m }.

Lemma write_log_wp out com bl v e s Q :
  tx_ok bl -> log_is start lsize out com bl (fs_log (k_fs s)) ->
  bc v s -> bv_held v = ∅ -> bv_pins v = list_to_set bl -> bv_dirty v ⊆ bv_pins v ->
  (forall s' L', logged (bv_L v) L' bl (length bl) ->
     bc (BView L' ∅ (bv_pins v) (bv_dirty v)) s' -> wrote (log_writes (bv_L v) bl) s s' -> Q tt e s') ->
  wp write_log e s Q.
Proof.
  intros Ht Hl Hbc Hh Hp Hd HQ.
  unfold write_log. change 0 with (Z.of_nat 0).
  apply (wp_for_below _ _ (length bl) _ _ _ _ (fun j t => exists L',
    logged (bv_L v) L' bl j /\ bc (BView L' ∅ (bv_pins v) (bv_dirty v)) t /\
    wrote (take j (log_writes (bv_L v) bl)) s t)).
  - lia.
  - by apply log_fuel_ok.
  - exists (bv_L v). split_and!; [|by destruct v; simpl in *; subst|apply wrote_nil].
    split; [intros; lia|done].
  - intros j t _ (L' & _ & _ & Hw). eapply log_n_run. rewrite (wrote_log _ _ _ Hw). exact Hl.
  - intros j t Hj (L' & Hlg & Hbt & Hw). destruct (lookup_lt_is_Some_2 bl j Hj) as [n Hn].
    eapply write_log_one_wp; [done|by erewrite wrote_log|done|exact Hbt|done|done|done|].
    intros t' Hbt' Hw'. split; [done|].
    assert (HL : L' n = bv_L v n).
    { apply (lg_other _ _ _ _ Hlg). intros i Hi ->. eapply list_elem_of_lookup_2 in Hn as Hin.
      apply (tx_home _ Ht) in Hin as [_ []]. destruct (lookup_lt_is_Some_2 bl i) as [m Hm]; [lia|].
      by eapply copy_in_log. }
    eexists. split_and!; [|exact Hbt'|].
    + simpl. split.
      * intros i m Hi Hm. destruct (decide (i = j)) as [->|].
        -- rewrite fn_lookup_insert. congruence.
        -- rewrite fn_lookup_insert_ne by (unfold copy_at; lia). apply (lg_copy _ _ _ _ Hlg); [lia|done].
      * intros m Hm. rewrite fn_lookup_insert_ne by (intros <-; apply (Hm j); [lia|done]).
        apply (lg_other _ _ _ _ Hlg). intros i Hi. apply Hm. lia.
    + unfold log_writes. erewrite take_imap_S by done. eapply wrote_trans; [exact Hw|]. simpl in Hw'. by rewrite HL in Hw'.
  - intros t (L' & Hlg & Hbt & Hw). eapply HQ; [exact Hlg|exact Hbt|].
    by rewrite take_ge in Hw by (unfold log_writes; rewrite length_imap; lia).
Qed.

(** The header of a transaction, as a block. *)
Record header_is (bl : list Z) (d : list Z) : Prop := {
  hd_len : length d = Z.to_nat BSIZE;
  hd_n : get32 0 d = Z.of_nat (length bl);
  hd_block : forall i n, bl !! i = Some n -> get32 (4 + 4 * Z.of_nat i) d = n }.

Lemma buf_put32_wp v s b n off w e Q :
  bc v s -> bv_held v !! b = Some n -> 0 <= off -> off + 4 <= BSIZE ->
  (forall bs, bc (bv_edit n (put32 off w (bv_L v n)) v) (with_bufs bs s) -> Q tt e (with_bufs bs s)) ->
  wp (buf_put32 b off w) e s Q.
Proof.
  intros Hbc Hb Ho Hle HQ. destruct (held_buf _ _ _ _ _ _ _ Hbc Hb) as (x & _ & Hx & _ & _ & Hdat & Hlen & _).
  unfold buf_put32. apply wp_bind. eapply wp_run; [by apply get_buf_run|]. rewrite Hdat.
  assert (Hl' : off + 4 <= Z.of_nat (length (bv_L v n))) by (rewrite Hlen; unfold BSIZE in *; lia).
  rewrite (proj2 (Z.leb_le _ _)) by done. eapply wp_run; [apply upd_buf_run; by exists x|].
  apply HQ. apply bc_edit; [done|done|]. by rewrite length_put32.
Qed.

(** Editing a block again. *)
Lemma bc_edit_again v n d d' s : bc (bv_edit n d' (bv_edit n d v)) s -> bc (bv_edit n d' v) s.
Proof.
  apply bc_ext; simpl; [|done|done|apply leibniz_equiv; set_solver].
  intros m. destruct (decide (m = n)) as [->|]; [by rewrite !fn_lookup_insert|].
  by rewrite !fn_lookup_insert_ne.
Qed.

(** Dropping the only buffer held, after its block was written. *)
Lemma bc_drop_only v b n d s :
  bv_held v = ∅ -> n ∉ bv_dirty v ->
  bc (bv_drop b (bv_clean n (bv_edit n d (bv_hold b n v)))) s ->
  bc (BView (<[n := d]> (bv_L v)) ∅ (bv_pins v) (bv_dirty v)) s.
Proof.
  intros Hh Hnd. apply bc_ext; simpl; [done| |done|by rewrite dirty_clean, dirty_id].
  rewrite Hh. by rewrite delete_insert_id by apply lookup_empty.
Qed.

Lemma write_head_wp out com bl v e s Q :
  tx_ok bl -> log_is start lsize out com bl (fs_log (k_fs s)) ->
  bc v s -> bv_held v = ∅ -> (size (bv_pins v) < NBUF)%nat -> start ∉ bv_dirty v ->
  (forall s' d, header_is bl d ->
     bc (BView (<[start := d]> (bv_L v)) ∅ (bv_pins v) (bv_dirty v)) s' ->
     wrote [(start, d)] s s' -> Q tt e s') ->
  wp write_head e s Q.
Proof.
  intros Ht Hl Hbc Hh Hsz Hsd HQ. destruct (tx_geo _ Ht) as [G1 G2]. destruct (tx_fits _ Ht) as [F1 F2].
  unfold write_head. apply wp_bind, wp_gets.
  rewrite (li_dev _ _ _ _ _ _ Hl), (li_start _ _ _ _ _ _ Hl), u32_small by lia.
  apply wp_bind. eapply bread_wp; [exact Hbc| |right|].
  { intros j. by rewrite Hh, lookup_empty. }
  { by rewrite Hh, map_size_empty. }
  intros b bs _ Hbc1. set (v1 := bv_hold b start v) in *.
  assert (Hb1 : bv_held v1 !! b = Some start) by apply lookup_insert_eq.
  destruct (held_buf _ _ _ _ _ _ _ Hbc1 Hb1) as (x & _ & _ & _ & _ & _ & Hlen & _).
  apply wp_bind. eapply wp_run; [eapply log_n_run; exact Hl|].
  apply wp_seq. eapply buf_put32_wp; [exact Hbc1|exact Hb1|lia|unfold BSIZE; lia|].
  intros bs2 Hbc2. rewrite with_bufs_twice in *. apply wp_seq. change (for_below log_fuel 0) with (for_below log_fuel (Z.of_nat 0)).
  apply (wp_for_below _ _ (length bl) _ _ _ _ (fun j t => exists bs d, t = with_bufs bs s /\
    bc (bv_edit start d v1) t /\ length d = Z.to_nat BSIZE /\ get32 0 d = Z.of_nat (length bl) /\
    forall i n, (i < j)%nat -> bl !! i = Some n -> get32 (4 + 4 * Z.of_nat i) d = n)).
  - lia.
  - by apply log_fuel_ok.
  - eexists bs2, _. split_and!; [done|exact Hbc2| | |intros; lia].
    + rewrite length_put32; [done|lia|rewrite Hlen; unfold BSIZE; lia].
    + rewrite get32_put32 by (rewrite ?Hlen; unfold BSIZE; lia). apply u32_small. unfold LOGSIZE, MAXOPBLOCKS in *. lia.
  - intros j t _ (bs' & d & -> & _). eapply log_n_run. exact Hl.
  - intros j t Hj (bs' & d & -> & Hbt & Hdl & Hd0 & Hdi). destruct (lookup_lt_is_Some_2 bl j Hj) as [n Hn].
    assert (Hin : n ∈ bl) by (by eapply list_elem_of_lookup_2). destruct (tx_home _ Ht n Hin) as [Hnr _].
    unfold write_head_one. apply wp_bind. eapply wp_run; [eapply log_block_run; [exact Hl|lia|by rewrite Nat2Z.id]|].
    unfold LOGSIZE, MAXOPBLOCKS in *.
    eapply buf_put32_wp; [exact Hbt|exact Hb1|lia|unfold BSIZE; lia|].
    simpl. rewrite fn_lookup_insert. intros bs3 Hbc3%bc_edit_again. rewrite with_bufs_twice in *.
    assert (Hd4 : 4 + 4 * Z.of_nat j + 4 <= Z.of_nat (length d)) by (rewrite Hdl; unfold BSIZE; lia).
    split; [done|]. eexists bs3, _. split_and!; [done|exact Hbc3| | |].
    + by rewrite length_put32 by lia.
    + by rewrite get32_put32_ne by lia.
    + intros i m Hi Hm. destruct (decide (i = j)) as [->|].
      * rewrite get32_put32 by lia. rewrite u32_small by lia. congruence.
      * rewrite get32_put32_ne by lia. apply Hdi; [lia|done].
  - intros t (bs' & d & -> & Hbt & Hdl & Hd0 & Hdi).
    apply wp_seq. eapply bwrite_wp; [exact Hbt|exact Hb1|]. simpl. rewrite fn_lookup_insert. intros Hbc3.
    eapply brelse_wp; [exact Hbc3|exact Hb1|simpl; set_solver|]. intros bs4 Hbc4.
    apply (HQ _ d); [|by eapply bc_drop_only|by exists bs4].
    split; [done|done|]. intros i n Hi. apply Hdi; [by eapply lookup_lt_Some|done].
Qed.

(** The homes the first [j] rounds of install_trans store. *)
Record installed (L L' : Z -> list Z) (bl : list Z) (j : nat) : Prop := {
  in_home : forall i n, (i < j)%nat -> bl !! i = Some n -> L' n = L (copy_at i);
  in_other : forall m, m ∉ take j bl -> L' m = L m }.

Lemma copy_not_home bl i j n : tx_ok bl -> bl !! i = Some n -> copy_at i ∉ take j bl.
Proof.
  intros Ht Hi Hin. apply elem_of_take in Hin as (k & Hk & _). apply list_elem_of_lookup_2 in Hk.
  destruct (tx_home _ Ht _ Hk) as [_ []]. by eapply copy_in_log.
Qed.

Lemma minus_take (X : gset Z) bl j n : bl !! j = Some n ->
  (X ∖ list_to_set (take j bl)) ∖ {[n]} = X ∖ list_to_set (take (S j) bl).
Proof.
  intros Hn. erewrite take_S_r by done. rewrite list_to_set_app_L. simpl. apply leibniz_equiv. set_solver.
Qed.

Lemma pins_bound (X : gset Z) bl j : tx_ok bl -> X ⊆ list_to_set bl ->
  (size (X ∖ list_to_set (take j bl)) < NBUF)%nat.
Proof.
  intros Ht HX. pose proof (tx_bufs _ Ht). rewrite <- (size_list_to_set (C := gset Z)) in H0 by apply Ht.
  eapply Nat.le_lt_trans; [|exact H0]. apply subseteq_size. set_solver.
Qed.

Lemma install_trans_wp rec out com bl v e s Q :
  tx_ok bl -> log_is start lsize out com bl (fs_log (k_fs s)) ->
  bc v s -> bv_held v = ∅ -> bv_pins v = (if rec =? 0 then list_to_set bl else ∅) ->
  bv_dirty v ⊆ list_to_set bl ->
  (forall s' L', installed (bv_L v) L' bl (length bl) ->
     bc (BView L' ∅ ∅ ∅) s' -> wrote (home_writes (bv_L v) bl) s s' -> Q tt e s') ->
  wp (install_trans rec) e s Q.
Proof.
  intros Ht Hl Hbc Hh Hp Hd HQ. unfold install_trans. change 0 with (Z.of_nat 0).
  assert (Hps : bv_pins v ⊆ list_to_set bl) by (rewrite Hp; destruct (rec =? 0); set_solver).
  apply (wp_for_below _ _ (length bl) _ _ _ _ (fun j t => exists L', installed (bv_L v) L' bl j /\
    bc (BView L' ∅ (bv_pins v ∖ list_to_set (take j bl)) (bv_dirty v ∖ list_to_set (take j bl))) t /\
    wrote (take j (home_writes (bv_L v) bl)) s t)).
  - lia.
  - by apply log_fuel_ok.
  - exists (bv_L v). simpl. split_and!; [split; [intros; lia|done]| |apply wrote_nil].
    eapply bc_ext; [| | | |exact Hbc]; simpl; [done|done|apply leibniz_equiv; set_solver..].
  - intros j t _ (L' & _ & _ & Hw). eapply log_n_run. rewrite (wrote_log _ _ _ Hw). exact Hl.
  - intros j t Hj (L' & Hin & Hbt & Hw). destruct (lookup_lt_is_Some_2 bl j Hj) as [n Hn].
    assert (Hnt : n ∉ take j bl).
    { intros (k & Hk & Hlt)%elem_of_take. assert (k = j) by (eapply NoDup_lookup; [apply Ht|done|done]). lia. }
    pose proof (copy_not_home _ _ j _ Ht Hn) as Hcn.
    assert (HLc : L' (copy_at j) = bv_L v (copy_at j)) by (by apply (in_other _ _ _ _ Hin)).
    eapply install_one_wp; [done|by erewrite wrote_log|done|exact Hbt|done| |by apply pins_bound| |].
    { simpl. pose proof (copy_not_home _ _ (length bl) _ Ht Hn) as Hc. rewrite take_ge in Hc by done.
      intros [Hx _]%elem_of_difference. apply Hd in Hx. by rewrite elem_of_list_to_set in Hx. }
    { simpl. rewrite Hp. destruct (rec =? 0).
      - apply elem_of_difference. rewrite !elem_of_list_to_set. split; [by eapply list_elem_of_lookup_2|done].
      - replace (∅ ∖ list_to_set (take j bl)) with (∅ : gset Z) by (apply leibniz_equiv; set_solver).
        split; [set_solver|]. rewrite size_empty. unfold NBUF. lia. }
    simpl. intros t' Hbt' Hw'. split; [done|]. eexists. split_and!; [|rewrite !minus_take in Hbt' by done; exact Hbt'|].
    + split.
      * intros i m Hi Hm. destruct (decide (m = n)) as [->|].
        -- rewrite fn_lookup_insert. assert (i = j) as -> by (eapply NoDup_lookup; [apply Ht|done|done]). done.
        -- rewrite fn_lookup_insert_ne by done. apply (in_home _ _ _ _ Hin); [|done].
           assert (i <> j) by congruence. lia.
      * intros m Hm. erewrite take_S_r in Hm by done. rewrite fn_lookup_insert_ne by set_solver.
        apply (in_other _ _ _ _ Hin). set_solver.
    + unfold home_writes. erewrite take_imap_S by done. eapply wrote_trans; [exact Hw|]. by rewrite HLc in Hw'.
  - intros t (L' & Hin & Hbt & Hw). eapply HQ; [exact Hin| |].
    + eapply bc_ext; [| | | |exact Hbt]; simpl; [done|done|..]; rewrite take_ge by done; apply leibniz_equiv; set_solver.
    + by rewrite take_ge in Hw by (unfold home_writes; rewrite length_imap; lia).
Qed.

(** The header without blocks. *)
Definition cleared (l : log) : log := log_set_lh (Logheader 0 (lh_block (log_lh l))) l.

Lemma log_is_cleared out com bl l :
  log_is start lsize out com bl l -> log_is start lsize out com [] (cleared l).
Proof. intros [A1 A2 A3 A4 A5 A6 A7 A8]. by split. Qed.

Lemma tx_ok_nil bl : tx_ok bl -> tx_ok [].
Proof.
  intros [G _ _ [F1 F2] _]. split; [done|constructor|by intros n ?%elem_of_nil| |unfold NBUF; simpl; lia].
  unfold LOGSIZE, MAXOPBLOCKS. simpl. lia.
Qed.

(** The writes of a commit, in order: the copies, the header that makes the
    transaction durable, the homes, and the empty header. *)
Definition commit_writes (L : Z -> list Z) (bl : list Z) (h1 h0 : list Z) : list (Z * list Z) :=
  log_writes L bl ++ [(start, h1)] ++ ((fun n => (n, L n)) <$> bl) ++ [(start, h0)].

Lemma home_writes_logged L L' bl h :
  tx_ok bl -> logged L L' bl (length bl) ->
  home_writes (<[start := h]> L') bl = (fun n => (n, L n)) <$> bl.
Proof.
  intros Ht Hlg. apply list_eq. intros i. unfold home_writes. rewrite list_lookup_imap, list_lookup_fmap.
  destruct (bl !! i) as [n|] eqn:Hi; [|done]. simpl. do 2 f_equal.
  rewrite fn_lookup_insert_ne by (unfold copy_at; lia).
  apply (lg_copy _ _ _ _ Hlg); [by eapply lookup_lt_Some|done].
Qed.

Lemma commit_wp out com bl v e s Q :
  tx_ok bl -> bl <> [] -> log_is start lsize out com bl (fs_log (k_fs s)) ->
  bc v s -> bv_held v = ∅ -> bv_pins v = list_to_set bl -> bv_dirty v ⊆ bv_pins v ->
  (forall s' L' h1 h0, header_is bl h1 -> header_is [] h0 ->
     (forall m, ~ in_log m -> L' m = bv_L v m) -> bc (BView L' ∅ ∅ ∅) s' ->
     wrote (commit_writes (bv_L v) bl h1 h0) (set_log (cleared (fs_log (k_fs s))) s) s' -> Q tt e s') ->
  wp commit e s Q.
Proof.
  intros Ht Hne Hl Hbc Hh Hp Hd HQ. unfold commit. apply wp_bind. eapply wp_run; [eapply log_n_run; exact Hl|].
  unfold when. rewrite (proj2 (Z.gtb_lt _ _)) by (destruct bl; [done|simpl; lia]).
  assert (Hst : start ∉ bv_dirty v).
  { intros Hx. apply Hd in Hx. rewrite Hp, elem_of_list_to_set in Hx. apply (tx_home _ Ht) in Hx as [_ []].
    destruct (tx_fits _ Ht). unfold in_log. lia. }
  apply wp_seq. eapply write_log_wp; [exact Ht|exact Hl|exact Hbc|done..|]. intros s1 L1 Hlg Hbc1 Hw1.
  apply wp_seq. eapply write_head_wp; [exact Ht|by erewrite wrote_log|exact Hbc1|done| |done|].
  { simpl. rewrite Hp, size_list_to_set by apply Ht. apply Ht. }
  simpl. intros s2 h1 Hh1 Hbc2 Hw2.
  assert (Hl2 : log_is start lsize out com bl (fs_log (k_fs s2))) by (by rewrite (wrote_log _ _ _ Hw2), (wrote_log _ _ _ Hw1)).
  apply wp_seq. eapply install_trans_wp; [exact Ht|exact Hl2|exact Hbc2|done|done|simpl; by rewrite <- Hp|].
  simpl. intros s3 L3 Hin Hbc3 Hw3. apply wp_seq. unfold log_set_n, upd_log. apply wp_modk.
  fold (cleared (fs_log (k_fs s3))). fold (set_log (cleared (fs_log (k_fs s3))) s3).
  assert (Hl3 : fs_log (k_fs s3) = fs_log (k_fs s)) by (by rewrite (wrote_log _ _ _ Hw3), (wrote_log _ _ _ Hw2), (wrote_log _ _ _ Hw1)).
  rewrite Hl3. eapply write_head_wp.
  - by eapply tx_ok_nil.
  - simpl. by eapply log_is_cleared.
  - by apply bc_set_log.
  - done.
  - vm_compute. lia.
  - simpl. set_solver.
  - simpl. intros s4 h0 Hh0 Hbc4 Hw4. eapply HQ; [exact Hh1|exact Hh0| |exact Hbc4|].
    + intros m Hm. rewrite fn_lookup_insert_ne by (intros <-; apply Hm; destruct (tx_fits _ Ht); unfold in_log; lia).
      destruct (decide (m ∈ bl)) as [Hmb|Hmb].
      * apply list_elem_of_lookup in Hmb as [i Hi]. rewrite (in_home _ _ _ _ Hin i m) by (eauto using lookup_lt_Some).
        rewrite fn_lookup_insert_ne by (unfold copy_at; lia). apply (lg_copy _ _ _ _ Hlg); [by eapply lookup_lt_Some|done].
      * rewrite (in_other _ _ _ _ Hin) by (by rewrite take_ge).
        rewrite fn_lookup_insert_ne by (intros <-; apply Hm; destruct (tx_fits _ Ht); unfold in_log; lia).
        apply (lg_other _ _ _ _ Hlg). intros i Hi ->. apply Hm.
        destruct (lookup_lt_is_Some_2 bl i Hi) as [k Hk]. by eapply copy_in_log.
    + unfold commit_writes. rewrite <- (home_writes_logged _ _ _ h1 Ht Hlg).
      eapply wrote_trans; [apply wrote_set_log; exact Hw1|].
      eapply wrote_trans; [apply wrote_set_log; exact Hw2|].
      eapply wrote_trans; [apply wrote_set_log; exact Hw3|exact Hw4].
Qed.

(** ** log_write *)

Lemma log_search_run out com bl n fuel i e s :
  log_is start lsize out com bl (fs_log (k_fs s)) -> (forall m, m ∈ bl -> 0 <= m < 2147483648) ->
  (i <= length bl)%nat -> (length bl - i < fuel)%nat -> (forall j, (j < i)%nat -> bl !! j <> Some n) ->
  exists k, log_search fuel (Z.of_nat i) n e s = Ok (Z.of_nat k) e s /\ (k <= length bl)%nat /\
    (n ∈ bl -> bl !! k = Some n) /\ (n ∉ bl -> k = length bl).
Proof.
  intros Hl Hr. revert i. induction fuel as [|fuel IH]; intros i Hi Hf Hlow; [lia|]. cbn [log_search].
  erewrite bind_run by (eapply log_n_run; exact Hl).
  destruct (Z.ltb_spec (Z.of_nat i) (Z.of_nat (length bl))) as [Hlt|Hge].
  - destruct (lookup_lt_is_Some_2 bl i) as [m Hm]; [lia|].
    erewrite bind_run by (eapply log_block_run; [exact Hl|lia|by rewrite Nat2Z.id]).
    assert (Hmr : 0 <= m < 2147483648) by (by apply Hr; eapply list_elem_of_lookup_2).
    rewrite u32_small by lia. destruct (Z.eqb_spec m n) as [->|Hmn].
    + exists i. split_and!; [done|lia|done|]. intros Hn. destruct Hn. by eapply list_elem_of_lookup_2.
    + replace (Z.of_nat i + 1) with (Z.of_nat (S i)) by lia. apply IH; [lia|lia|].
      intros j Hj. destruct (decide (j = i)) as [->|]; [congruence|apply Hlow; lia].
  - exists i. split_and!; [done|lia| |intros; lia]. intros Hn. exfalso.
    apply list_elem_of_lookup in Hn as [j Hj]. apply (Hlow j); [|done]. apply lookup_lt_Some in Hj. lia.
Qed.

(** The blocks of the transaction once [n] is logged. *)
Definition logged_blocks (n : Z) (bl : list Z) : list Z := if decide (n ∈ bl) then bl else bl ++ [n].

Lemma log_is_store out com bl l i n :
  log_is start lsize out com bl l -> (i <= length bl)%nat -> (i < Z.to_nat LOGSIZE)%nat ->
  (n ∈ bl -> bl !! i = Some n) -> (n ∉ bl -> i = length bl) ->
  log_is start lsize out com (logged_blocks n bl)
    (log_set_lh (Logheader (Z.of_nat (length (logged_blocks n bl))) (<[i := n]> (lh_block (log_lh l)))) l).
Proof.
  intros [A1 A2 A3 A4 A5 A6 A7 A8] Hi Hi2 Hin Hnin. split; simpl; try done; [|by rewrite length_insert].
  intros j m Hj. destruct (decide (j = i)) as [->|Hne].
  - rewrite list_lookup_insert_eq by lia. f_equal. unfold logged_blocks in Hj. case_decide as Hn.
    + rewrite Hin in Hj by done. congruence.
    + rewrite (Hnin Hn), lookup_app_r, Nat.sub_diag in Hj by lia. simpl in Hj. congruence.
  - rewrite list_lookup_insert_ne by done. apply A7. unfold logged_blocks in Hj. case_decide as Hn; [done|].
    rewrite lookup_app_l in Hj; [done|]. apply lookup_lt_Some in Hj. rewrite length_app in Hj. simpl in Hj.
    rewrite (Hnin Hn) in Hne. lia.
Qed.

(** The state and the view after [log_write]. *)
Lemma log_write_wp out bl v s b n e Q :
  bc v s -> bv_held v !! b = Some n -> bv_pins v = list_to_set bl ->
  log_is start lsize out 0 bl (fs_log (k_fs s)) -> 1 <= out -> 0 <= n < 2147483648 ->
  (forall m, m ∈ bl -> 0 <= m < 2147483648) ->
  Z.of_nat (length bl) < LOGSIZE -> Z.of_nat (length bl) < lsize - 1 ->
  (forall bs l, log_is start lsize out 0 (logged_blocks n bl) l ->
     bc (BView (bv_L v) (bv_held v) (list_to_set (logged_blocks n bl)) (bv_dirty v)) (set_log l (with_bufs bs s)) ->
     Q tt e (set_log l (with_bufs bs s))) ->
  wp (log_write b) e s Q.
Proof.
  intros Hbc Hb Hp Hl Ho Hn Hr Hf1 Hf2 HQ.
  destruct (held_buf _ _ _ _ _ _ _ Hbc Hb) as (x & Hlt & Hx & Dx & Ex & _ & _ & _).
  pose proof (bc_ctx _ _ _ _ _ Hbc) as Hf. pose proof (fctx_hart _ _ _ Hf) as Hh.
  assert (Hll : lock_free L_log (k_hw s)) by (by apply (fc_locks _ _ _ Hf)).
  set (sl := set_hw (acq L_log (k_hw s)) s).
  unfold log_write. apply wp_seq, wp_acquire; [done..|]. fold sl. apply wp_bind, wp_gets.
  change (fs_log (k_fs sl)) with (fs_log (k_fs s)).
  rewrite (li_n _ _ _ _ _ _ Hl), (li_size _ _ _ _ _ _ Hl), (li_out _ _ _ _ _ _ Hl).
  assert (E1 : (Z.of_nat (length bl) >=? LOGSIZE) = false) by lia.
  assert (E2 : (Z.of_nat (length bl) >=? lsize - 1) = false) by lia.
  assert (E3 : (out <? 1) = false) by lia. rewrite E1, E2, E3. unfold when. simpl.
  apply wp_seq, wp_ret. apply wp_seq, wp_ret. apply wp_bind. eapply wp_run; [by apply get_buf_run|]. rewrite Ex.
  destruct (log_search_run out 0 bl n log_fuel 0 e sl) as (i & Hrun & Hile & Hin & Hnin);
    [exact Hl|done|lia|unfold log_fuel, LOGSIZE, MAXOPBLOCKS in *; lia|intros; lia|].
  apply wp_bind. eapply wp_run; [exact Hrun|]. apply wp_seq. unfold log_set_block. apply wp_seq.
  assert (Hi30 : (i < Z.to_nat LOGSIZE)%nat) by (unfold LOGSIZE, MAXOPBLOCKS in *; lia).
  destruct (lookup_lt_is_Some_2 (lh_block (log_lh (fs_log (k_fs s)))) i) as [w Hw].
  { by rewrite (li_len _ _ _ _ _ _ Hl). }
  eapply wp_run. { unfold log_block, get_log. krun. change (k_fs sl) with (k_fs s). by rewrite Nat2Z.id, Hw. }
  unfold upd_log at 1. apply wp_modk. rewrite Nat2Z.id, i32_small by lia. apply wp_bind.
  eapply wp_run. { unfold log_n, get_log. krun. simpl. rewrite (li_n _ _ _ _ _ _ Hl). reflexivity. }
  set (l' := log_set_lh (Logheader (Z.of_nat (length (logged_blocks n bl))) (<[i := n]> (lh_block (log_lh (fs_log (k_fs s)))))) (fs_log (k_fs s))).
  assert (Hl' : log_is start lsize out 0 (logged_blocks n bl) l') by (by apply log_is_store).
  apply wp_seq. unfold when. destruct (Z.eqb_spec (Z.of_nat i) (Z.of_nat (length bl))) as [Ei|Ei].
  - assert (Hnb : n ∉ bl) by (intros Hnb; apply Hin, lookup_lt_Some in Hnb; lia).
    apply wp_seq. eapply wp_run.
    { apply bpin_run; simpl; [by apply hart_ok_acq|apply lock_free_acq; [done|by apply (fc_locks _ _ _ Hf)]|by exists x]. }
    unfold log_set_n, upd_log. apply wp_modk. apply (wp_release _ _ _ (k_hw s)); [done..|].
    pose proof (HQ (alter ref_up b (fs_bufs (k_fs s))) l' Hl') as HQ'.
    enough (Hbc' : bc (BView (bv_L v) (bv_held v) (list_to_set (logged_blocks n bl)) (bv_dirty v))
      (set_log l' (with_bufs (alter ref_up b (fs_bufs (k_fs s))) s))).
    + specialize (HQ' Hbc'). match goal with |- Q tt e ?t => replace t with (set_log l' (with_bufs (alter ref_up b (fs_bufs (k_fs s))) s)) end; [done|].
      unfold set_log, with_bufs, set_fs, set_hw, fs_set_log, fs_set_bufs. simpl. unfold l', log_set_lh. simpl.
      unfold logged_blocks. rewrite decide_False by done. rewrite length_app. simpl.
      by replace (Z.of_nat (length bl + 1)) with (Z.of_nat (length bl) + 1) by lia.
    + apply bc_set_log. eapply bc_ext; [| | | |apply bc_pin; [exact Hbc|exact Hb|]]; simpl; try done.
      * unfold logged_blocks. rewrite decide_False by done. rewrite list_to_set_app_L, Hp. simpl. by rewrite union_empty_r_L.
      * rewrite Hp. by rewrite elem_of_list_to_set.
  - assert (Hnb : n ∈ bl) by (destruct (decide (n ∈ bl)) as [|Hnb]; [done|]; apply Hnin in Hnb; lia).
    apply wp_ret. apply (wp_release _ _ _ (k_hw s)); [done..|].
    assert (El : logged_blocks n bl = bl) by (unfold logged_blocks; by rewrite decide_True).
    specialize (HQ (fs_bufs (k_fs s)) l' Hl'). rewrite with_bufs_id in HQ.
    match goal with |- Q tt e ?t => replace t with (set_log l' s) end.
    + apply HQ. apply bc_set_log. rewrite El, <- Hp. by destruct v.
    + unfold set_log, set_fs, set_hw, fs_set_log. simpl. unfold l', log_set_lh. simpl. rewrite El. by rewrite <- (li_n _ _ _ _ _ _ Hl).
Qed.

(** ** Recovery *)

Lemma buf_get32_wp v s b n off e Q :
  bc v s -> bv_held v !! b = Some n -> off + 4 <= BSIZE ->
  Q (get32 off (bv_L v n)) e s -> wp (buf_get32 b off) e s Q.
Proof.
  intros Hbc Hb Hle HQ. destruct (held_buf _ _ _ _ _ _ _ Hbc Hb) as (x & _ & Hx & _ & _ & Hdat & Hlen & _).
  unfold buf_get32. apply wp_bind. eapply wp_run; [by apply get_buf_run|]. rewrite Hdat.
  rewrite (proj2 (Z.leb_le _ _)) by (rewrite Hlen; unfold BSIZE in *; lia). by apply wp_ret.
Qed.

(** The log's record with its header still to be read. *)
Record log_at (out com : Z) (l : log) : Prop := {
  la_start : log_start l = start;
  la_size : log_size l = lsize;
  la_dev : log_dev l = dev;
  la_out : log_outstanding l = out;
  la_com : log_committing l = com;
  la_len : length (lh_block (log_lh l)) = Z.to_nat LOGSIZE }.

Lemma set_log_twice l l' s : set_log l (set_log l' s) = set_log l s.
Proof. done. Qed.

Lemma log_of_set_log l s : fs_log (k_fs (set_log l s)) = l.
Proof. done. Qed.

Lemma read_head_wp out com bl v e s Q :
  tx_ok bl -> log_at out com (fs_log (k_fs s)) -> bc v s -> bv_held v = ∅ ->
  (size (bv_pins v) < NBUF)%nat -> start ∉ bv_dirty v -> header_is bl (bv_L v start) ->
  (forall bs l, log_is start lsize out com bl l -> bc v (set_log l (with_bufs bs s)) ->
     Q tt e (set_log l (with_bufs bs s))) ->
  wp read_head e s Q.
Proof.
  intros Ht Hl Hbc Hh Hsz Hsd Hhd HQ. destruct (tx_geo _ Ht) as [G1 G2]. destruct (tx_fits _ Ht) as [F1 F2].
  unfold LOGSIZE, MAXOPBLOCKS in F1. unfold read_head. apply wp_bind, wp_gets.
  rewrite (la_dev _ _ _ Hl), (la_start _ _ _ Hl), u32_small by lia.
  apply wp_bind. eapply bread_wp; [exact Hbc| |right|].
  { intros j. by rewrite Hh, lookup_empty. }
  { by rewrite Hh, map_size_empty. }
  intros b bs Hfree Hbc1. set (v1 := bv_hold b start v) in *.
  assert (Hb1 : bv_held v1 !! b = Some start) by apply lookup_insert_eq.
  apply wp_bind. eapply buf_get32_wp; [exact Hbc1|exact Hb1|unfold BSIZE; lia|].
  change (bv_L v1 start) with (bv_L v start). rewrite (hd_n _ _ Hhd), i32_small by lia.
  apply wp_seq. unfold log_set_n, upd_log at 1. apply wp_modk. apply wp_seq.
  change (for_below log_fuel 0) with (for_below log_fuel (Z.of_nat 0)).
  apply (wp_for_below _ _ (length bl) _ _ _ _ (fun j t => exists l, t = set_log l (with_bufs bs s) /\
    log_at out com l /\ lh_n (log_lh l) = Z.of_nat (length bl) /\
    forall i n, (i < j)%nat -> bl !! i = Some n -> lh_block (log_lh l) !! i = Some n)).
  - lia.
  - by apply log_fuel_ok.
  - eexists. split_and!; [reflexivity|by destruct Hl|done|intros; lia].
  - intros j t _ (l & -> & _ & Hn & _). unfold log_n, get_log. krun. by rewrite log_of_set_log, Hn.
  - intros j t Hj (l & -> & Hla & Hn & Hbk). destruct (lookup_lt_is_Some_2 bl j Hj) as [n Hnj].
    assert (Hin : n ∈ bl) by (by eapply list_elem_of_lookup_2). destruct (tx_home _ Ht n Hin) as [Hnr _].
    unfold read_head_one. apply wp_bind.
    eapply buf_get32_wp; [apply bc_set_log; exact Hbc1|exact Hb1|unfold BSIZE; lia|].
    change (bv_L v1 start) with (bv_L v start). rewrite (hd_block _ _ Hhd _ _ Hnj), i32_small by lia.
    unfold log_set_block. destruct (lookup_lt_is_Some_2 (lh_block (log_lh l)) j) as [w Hw].
    { rewrite (la_len _ _ _ Hla). unfold LOGSIZE, MAXOPBLOCKS. lia. }
    apply wp_seq. eapply wp_run.
    { unfold log_block, get_log. krun. by rewrite log_of_set_log, Nat2Z.id, Hw. }
    unfold upd_log. apply wp_modk. split; [done|]. eexists. split_and!; [reflexivity| |done|].
    + destruct Hla as [B1 B2 B3 B4 B5 B6]. split; try done. simpl. by rewrite length_insert.
    + simpl. rewrite Nat2Z.id. intros i m Hi Hm. destruct (decide (i = j)) as [->|].
      * rewrite list_lookup_insert_eq by (by eapply lookup_lt_Some). congruence.
      * rewrite list_lookup_insert_ne by done. apply Hbk; [lia|done].
  - intros t (l & -> & Hla & Hn & Hbk). eapply brelse_wp; [apply bc_set_log; exact Hbc1|exact Hb1|simpl; done|].
    intros bs2 Hbc2. change (with_bufs bs2 (set_log l (with_bufs bs s))) with (set_log l (with_bufs bs2 s)) in *.
    apply HQ.
    + destruct Hla as [B1 B2 B3 B4 B5 B6]. split; try done. intros i n Hi. apply Hbk; [by eapply lookup_lt_Some|done].
    + eapply bc_ext; [| | | |exact Hbc2]; try done. simpl. rewrite Hh. by rewrite delete_insert_id by apply lookup_empty.
Qed.

(** The writes of recovery: the homes from the log, then the empty header. *)
Definition recovery_writes (L : Z -> list Z) (bl : list Z) (h0 : list Z) : list (Z * list Z) :=
  home_writes L bl ++ [(start, h0)].

Lemma recover_from_log_wp out com bl v e s Q :
  tx_ok bl -> log_at out com (fs_log (k_fs s)) -> bc v s ->
  bv_held v = ∅ -> bv_pins v = ∅ -> bv_dirty v = ∅ -> header_is bl (bv_L v start) ->
  (forall s' l L' h0, log_is start lsize out com [] l -> header_is [] h0 ->
     bc (BView L' ∅ ∅ ∅) s' -> wrote (recovery_writes (bv_L v) bl h0) (set_log l s) s' -> Q tt e s') ->
  wp recover_from_log e s Q.
Proof.
  intros Ht Hl Hbc Hh Hp Hd Hhd HQ. unfold recover_from_log.
  apply wp_seq. eapply read_head_wp; [exact Ht|exact Hl|exact Hbc|done|rewrite Hp; vm_compute; lia|rewrite Hd; set_solver|done|].
  intros bs l Hli Hbc1. apply wp_seq.
  eapply install_trans_wp; [exact Ht|exact Hli|exact Hbc1|done|done|rewrite Hd; set_solver|].
  intros s2 L2 Hin Hbc2 Hw2. apply wp_seq. unfold log_set_n, upd_log. apply wp_modk.
  fold (cleared (fs_log (k_fs s2))). fold (set_log (cleared (fs_log (k_fs s2))) s2).
  rewrite (wrote_log _ _ _ Hw2), log_of_set_log.
  eapply write_head_wp.
  - by eapply tx_ok_nil.
  - simpl. by eapply log_is_cleared.
  - by apply bc_set_log.
  - done.
  - vm_compute. lia.
  - simpl. set_solver.
  - simpl. intros s3 h0 Hh0 Hbc3 Hw3. eapply HQ; [by eapply log_is_cleared|exact Hh0|exact Hbc3|].
    unfold recovery_writes. eapply wrote_trans; [|exact Hw3].
    apply (wrote_set_log _ (cleared l)) in Hw2. rewrite set_log_twice in Hw2.
    eapply (wrote_trans []); [|exact Hw2]. exists bs. by rewrite app_nil_r.
Qed.

End log.
