(* ===== verification/LogProof.v ===== *)
(** log.c: atomicity of commits across crashes, and the space of the log. *)

From stdpp Require Import functions.
From S2P Require Import Prelude Machine KState Blocks Spinlock Kalloc Proc ProcSpec ProcMem Sleeplock Bio BioList BioSpec BioProof Log LogSpec.

(** ** Disks *)

Lemma apply_notin W d n : n ∉ W.*1 -> disk_block (apply_writes W d) n = disk_block d n.
Proof.
  revert d. induction W as [|[k b] W IH]; intros d Hn; [done|]. simpl in *.
  rewrite IH by set_solver. rewrite disk_block_insert, decide_False by set_solver. done.
Qed.

Lemma apply_last W d n b : disk_block (apply_writes (W ++ [(n, b)]) d) n = b.
Proof. rewrite apply_writes_app. simpl. by rewrite disk_block_insert, decide_True. Qed.

(** The content of a block all of whose writes agree. *)
Lemma apply_agree W d n b :
  (forall c, (n, c) ∈ W -> c = b) -> n ∈ W.*1 -> disk_block (apply_writes W d) n = b.
Proof.
  induction W as [|[k c] W IH] using rev_ind; intros Hall Hin; [by apply elem_of_nil in Hin|].
  rewrite apply_writes_app. simpl. rewrite disk_block_insert. case_decide as E.
  - subst. apply Hall. set_solver.
  - apply IH; [intros; apply Hall; set_solver|]. rewrite fmap_app in Hin. set_solver.
Qed.

Lemma apply_lengths W d :
  (forall n b, (n, b) ∈ W -> length b = Z.to_nat BSIZE) -> disk_ok d -> disk_ok (apply_writes W d).
Proof.
  revert d. induction W as [|[k c] W IH]; intros d Hall Hd; [done|]. simpl. apply IH; [set_solver|].
  intros n b. destruct (decide (n = k)) as [->|].
  - rewrite lookup_insert_eq. intros [= <-]. apply (Hall k). set_solver.
  - rewrite lookup_insert_ne by done. apply Hd.
Qed.

Section disks.
Context (start lsize : Z) (bl : list Z) (Ht : tx_ok start lsize bl).
Notation copy_at := (copy_at start).
Notation in_log := (in_log start lsize).

Lemma start_in_log : in_log start.
Proof. destruct (tx_fits _ _ _ Ht). unfold LogSpec.in_log. lia. Qed.

Lemma log_writes_keys L n : n ∈ (log_writes start L bl).*1 <-> exists i, (i < length bl)%nat /\ n = copy_at i.
Proof.
  rewrite list_elem_of_fmap. unfold log_writes. split.
  - intros ([k b] & -> & Hin). apply elem_of_lookup_imap in Hin as (i & m & [= -> ->] & Hi).
    exists i. split; [by eapply lookup_lt_Some|done].
  - intros (i & Hi & ->). destruct (lookup_lt_is_Some_2 bl i Hi) as [m Hm].
    exists (copy_at i, L m). split; [done|]. apply elem_of_lookup_imap. eauto.
Qed.

Lemma copy_key_in_log i : (i < length bl)%nat -> in_log (copy_at i) /\ copy_at i <> start.
Proof.
  intros Hi. destruct (lookup_lt_is_Some_2 bl i Hi) as [m Hm]. split; [by eapply copy_in_log|].
  unfold LogSpec.copy_at. lia.
Qed.

Lemma log_writes_block L d i m : bl !! i = Some m -> disk_block (apply_writes (log_writes start L bl) d) (copy_at i) = L m.
Proof.
  intros Hi. apply apply_agree.
  - intros c Hin. apply elem_of_lookup_imap in Hin as (j & k & [= E ->] & Hj).
    assert (i = j) as -> by (unfold LogSpec.copy_at in E; lia). congruence.
  - apply log_writes_keys. exists i. split; [by eapply lookup_lt_Some|done].
Qed.

(** The disk recovery leaves when it finds the header of [bl']. *)
Definition recovered (d : gmap Z (list Z)) (bl' : list Z) (h0 : list Z) : gmap Z (list Z) :=
  apply_writes (recovery_writes start (disk_block d) bl' h0) d.

Lemma recovered_home d i n h0 : bl !! i = Some n -> disk_block (recovered d bl h0) n = disk_block d (copy_at i).
Proof.
  intros Hi. assert (Hin : n ∈ bl) by (by eapply list_elem_of_lookup_2).
  destruct (tx_home _ _ _ Ht n Hin) as [_ Hnl]. assert (n <> start) by (intros ->; apply Hnl, start_in_log).
  unfold recovered, recovery_writes. rewrite apply_writes_app. simpl.
  rewrite disk_block_insert, decide_False by done. apply apply_agree.
  - intros c Hc. apply elem_of_lookup_imap in Hc as (j & m & [= -> ->] & Hj).
    assert (i = j) as -> by (eapply NoDup_lookup; [apply Ht|done|done]). done.
  - apply list_elem_of_fmap. exists (n, disk_block d (copy_at i)). split; [done|].
    apply elem_of_lookup_imap. eauto.
Qed.

Lemma recovered_other d bl' n h0 : n ∉ bl' -> n <> start -> disk_block (recovered d bl' h0) n = disk_block d n.
Proof.
  intros Hn Hs. apply apply_notin. unfold recovery_writes. rewrite fmap_app. simpl.
  rewrite elem_of_app, list_elem_of_singleton. intros [Hin|?]; [|done].
  apply list_elem_of_fmap in Hin as ([k b] & -> & Hin).
  apply elem_of_lookup_imap in Hin as (j & m & [= -> ->] & Hj). apply Hn. by eapply list_elem_of_lookup_2.
Qed.

Lemma recovered_header d bl' h0 : header_is [] h0 -> header_is [] (disk_block (recovered d bl' h0) start).
Proof. unfold recovered, recovery_writes. by rewrite apply_last. Qed.

Lemma take_home_keys L k n : n ∈ (take k (home_writes start L bl)).*1 -> n ∈ bl.
Proof.
  rewrite fmap_take. intros (j & Hj & _)%elem_of_take. apply list_lookup_fmap_Some in Hj as ([m b] & -> & Hj).
  unfold home_writes in Hj. rewrite list_lookup_imap in Hj. destruct (bl !! j) as [x|] eqn:E; [|done].
  simpl in Hj. simplify_eq. simpl. by eapply list_elem_of_lookup_2.
Qed.

(** Power fails after [k] writes of a recovery: the next one completes it. *)
Lemma recovery_crash d h0 : header_is bl (disk_block d start) -> header_is [] h0 -> forall k,
  let dk := apply_writes (take k (recovery_writes start (disk_block d) bl h0)) d in
  exists bl', tx_ok start lsize bl' /\ header_is bl' (disk_block dk start) /\
  forall h n, ~ in_log n -> disk_block (recovered dk bl' h) n = disk_block (recovered d bl h0) n.
Proof.
  intros Hhd Hh0 k dk.
  assert (Hst : forall n, ~ in_log n -> n <> start) by (intros n Hn ->; by apply Hn, start_in_log).
  assert (Hlog : forall n, in_log n -> n ∉ bl) by (intros n Hn Hin; by apply (tx_home _ _ _ Ht) in Hin as [_ []]).
  destruct (decide (k <= length bl)%nat) as [Hk|Hk].
  - assert (Edk : dk = apply_writes (take k (home_writes start (disk_block d) bl)) d).
    { unfold dk, recovery_writes. by rewrite take_app_le by (unfold home_writes; rewrite length_imap; lia). }
    assert (Hother : forall n, n ∉ bl -> disk_block dk n = disk_block d n).
    { intros n Hn. rewrite Edk. apply apply_notin. intros Hin. by apply take_home_keys in Hin. }
    exists bl. split_and!; [done|rewrite Hother by (apply Hlog, start_in_log); done|].
    intros h n Hn. destruct (decide (n ∈ bl)) as [Hb|Hb].
    + apply list_elem_of_lookup in Hb as [i Hi]. erewrite !recovered_home by done. apply Hother, Hlog.
      by eapply copy_in_log.
    + rewrite !recovered_other by auto. by apply Hother.
  - assert (Edk : dk = recovered d bl h0).
    { unfold dk. rewrite take_ge; [done|]. unfold recovery_writes, home_writes. rewrite length_app, length_imap. simpl. lia. }
    exists []. split_and!; [by eapply tx_ok_nil| |].
    + rewrite Edk. unfold recovered, recovery_writes. by rewrite apply_last.
    + intros h n Hn. rewrite recovered_other by (try apply not_elem_of_nil; auto). by rewrite Edk.
Qed.

Context (L : Z -> list Z) (d0 : gmap Z (list Z)) (h1 h0 : list Z).
Context (Hd0 : header_is [] (disk_block d0 start)) (HL : forall n, n ∉ bl -> L n = disk_block d0 n).
Context (Hh1 : header_is bl h1) (Hh0 : header_is [] h0).
Notation W := (commit_writes start L bl h1 h0).

(** The disk when power fails after [k] of the commit's writes, in the three
    phases of the commit. *)
Lemma crash_early k : (k <= length bl)%nat ->
  header_is [] (disk_block (apply_writes (take k W) d0) start) /\
  forall n, ~ in_log n -> disk_block (apply_writes (take k W) d0) n = disk_block d0 n.
Proof.
  intros Hk. unfold commit_writes. rewrite take_app_le by (unfold log_writes; rewrite length_imap; lia).
  assert (Hkeys : forall n, n ∈ (take k (log_writes start L bl)).*1 -> in_log n /\ n <> start).
  { intros n Hn. rewrite fmap_take in Hn. apply elem_of_take in Hn as (j & Hj & _).
    apply list_elem_of_lookup_2, log_writes_keys in Hj as (i & Hi & ->). by apply copy_key_in_log. }
  split.
  - rewrite apply_notin; [done|]. intros Hin. by apply Hkeys in Hin as [_ []].
  - intros n Hn. apply apply_notin. intros Hin. by apply Hkeys in Hin as [? _].
Qed.

(** After the header is written, whatever part [P] of the homes is. *)
Lemma crash_committed P :
  P ⊆ (fun n => (n, L n)) <$> bl ->
  let d := apply_writes (log_writes start L bl ++ [(start, h1)] ++ P) d0 in
  header_is bl (disk_block d start) /\ (forall i n, bl !! i = Some n -> disk_block d (copy_at i) = L n) /\
  (forall n, ~ in_log n -> n ∉ bl -> disk_block d n = L n).
Proof.
  intros HP d.
  assert (HPk : forall n, n ∈ P.*1 -> n ∈ bl).
  { intros n Hn. apply list_elem_of_fmap in Hn as ([k b] & -> & Hin). apply HP in Hin.
    apply list_elem_of_fmap in Hin as (m & [= -> ->] & Hm). done. }
  assert (Hd : forall n, n ∉ bl -> disk_block d n = if decide (n = start) then h1 else
    disk_block (apply_writes (log_writes start L bl) d0) n).
  { intros n Hn. unfold d. rewrite app_assoc, apply_writes_app. rewrite apply_notin by auto.
    rewrite apply_writes_app. simpl. apply disk_block_insert. }
  assert (Hlog : forall n, in_log n -> n ∉ bl) by (intros n Hn Hin; by apply (tx_home _ _ _ Ht) in Hin as [_ []]).
  split_and!.
  - by rewrite Hd, decide_True by (try apply Hlog, start_in_log; done).
  - intros i n Hi. destruct (copy_key_in_log i) as [H1 H2]; [by eapply lookup_lt_Some|].
    rewrite Hd, decide_False by (try apply Hlog; done). by apply log_writes_block.
  - intros n Hn Hnb. rewrite Hd, decide_False by (try done; intros ->; by apply Hn, start_in_log).
    rewrite apply_notin; [symmetry; by apply HL|].
    intros (i & Hi & ->)%log_writes_keys. by apply Hn, copy_key_in_log.
Qed.

(** Whenever power fails, the disk has a header, and recovering from it gives
    the old contents or the new ones. *)
Lemma crash_recovers k : exists bl', tx_ok start lsize bl' /\
  header_is bl' (disk_block (apply_writes (take k W) d0) start) /\
  forall h n, ~ in_log n -> disk_block (recovered (apply_writes (take k W) d0) bl' h) n =
    if decide (k <= length bl)%nat then disk_block d0 n else L n.
Proof.
  assert (Hst : forall n, ~ in_log n -> n <> start) by (intros n Hn ->; by apply Hn, start_in_log).
  case_decide as Hk.
  { destruct (crash_early k Hk) as [H1 H2]. exists []. split_and!; [by eapply tx_ok_nil|done|].
    intros h n Hn. rewrite recovered_other by (try apply not_elem_of_nil; auto). by apply H2. }
  destruct (decide (k <= 2 * length bl + 1)%nat) as [Hk2|Hk2].
  - set (P := take (k - length bl - 1) ((fun n => (n, L n)) <$> bl)).
    assert (E : take k W = log_writes start L bl ++ [(start, h1)] ++ P).
    { unfold commit_writes. rewrite take_app. rewrite take_ge by (unfold log_writes; rewrite length_imap; lia).
      f_equal. replace (k - length (log_writes start L bl))%nat with (S (k - length bl - 1))
        by (unfold log_writes; rewrite length_imap; lia). simpl. f_equal.
      rewrite take_app_le by (rewrite length_fmap; lia). done. }
    rewrite E. destruct (crash_committed P) as (H1 & H2 & H3).
    { intros x Hx. unfold P in Hx. apply elem_of_take in Hx as (j & Hj & _). by eapply list_elem_of_lookup_2. }
    exists bl. split_and!; [done|done|]. intros h n Hn. destruct (decide (n ∈ bl)) as [Hb|Hb].
    + apply list_elem_of_lookup in Hb as [i Hi]. erewrite recovered_home by done. by apply H2.
    + rewrite recovered_other by auto. by apply H3.
  - rewrite take_ge by (unfold commit_writes; rewrite !length_app, length_fmap; unfold log_writes; rewrite length_imap; simpl; lia).
    exists []. split_and!; [by eapply tx_ok_nil|unfold commit_writes; by rewrite !app_assoc, apply_last|].
    intros h n Hn. rewrite recovered_other by (try apply not_elem_of_nil; auto).
    unfold commit_writes. rewrite !app_assoc, apply_writes_app. simpl.
    rewrite disk_block_insert, decide_False by auto. rewrite <- app_assoc.
    destruct (decide (n ∈ bl)) as [Hb|Hb].
    + rewrite app_assoc, apply_writes_app. apply apply_agree.
      * intros c Hc. apply list_elem_of_fmap in Hc as (m & [= -> ->] & _). done.
      * rewrite <- list_fmap_compose. apply list_elem_of_fmap. by exists n.
    + apply (crash_committed _ (reflexivity _)); done.
Qed.

End disks.

(** ** Booting *)

(** The harts after [initlock] of the log's spinlock. *)
Definition log_lock_init (s : kst) : kst :=
  set_hw (hw_set_locks (<[L_log := Spinlock 0 "log" None]> (h_locks (k_hw s))) (k_hw s)) s.

Lemma lock_free_init l l' name h :
  lock_free l h -> lock_free l (hw_set_locks (<[l' := Spinlock 0 name None]> (h_locks h)) h).
Proof.
  intros [n Hn]. destruct (decide (l = l')) as [->|Hne].
  - exists name. simpl. apply lookup_insert_eq.
  - exists n. simpl. by rewrite lookup_insert_ne.
Qed.

Lemma bc_log_lock me pid dev v s : bc me pid dev v s -> bc me pid dev v (log_lock_init s).
Proof.
  intros [[[A1 A2 A3 A4] B1 B2 B3] C D E F]. split; [|done..].
  split; [split|..]; try done; simpl; intros; apply lock_free_init; auto.
Qed.

Section boot.
Context `{DiskDriver} (me : nat) (pid dev start lsize : Z) (sb : superblock).
Context (Hstart : i32 (sb_logstart sb) = start) (Hsize : i32 (sb_nlog sb) = lsize).
Notation bc := (bc me pid dev).

Lemma initlog_wp bl v e s Q :
  tx_ok start lsize bl -> length (lh_block (log_lh (fs_log (k_fs s)))) = Z.to_nat LOGSIZE -> bc v s ->
  bv_held v = ∅ -> bv_pins v = ∅ -> bv_dirty v = ∅ -> header_is bl (bv_L v start) ->
  (forall s' l L' h0, log_is dev start lsize (log_outstanding (fs_log (k_fs s))) (log_committing (fs_log (k_fs s))) [] l ->
     header_is [] h0 -> bc (BView L' ∅ ∅ ∅) s' ->
     wrote (recovery_writes start (bv_L v) bl h0) (set_log l (log_lock_init s)) s' -> Q tt e s') ->
  wp (initlog dev sb) e s Q.
Proof.
  intros Ht Hlen Hbc Hh Hp Hd Hhd HQ. unfold initlog.
  apply wp_seq. unfold when. simpl. apply wp_ret. apply wp_seq. unfold initlock, put_lock. apply wp_modk.
  fold (log_lock_init s). apply wp_seq. unfold upd_log. apply wp_modk.
  match goal with |- wp _ _ (set_fs (fs_set_log ?l _) _) _ => fold (set_log l (log_lock_init s)) end.
  eapply recover_from_log_wp; [exact Ht| |apply bc_set_log, bc_log_lock; exact Hbc|done..|].
  - split; simpl; [exact Hstart|exact Hsize|done|reflexivity|reflexivity|exact Hlen].
  - intros s' l L' h0 Hl Hh0 Hbc' Hw. rewrite set_log_twice in Hw. by eapply HQ.
Qed.

End boot.

(** What a boot does with the log: the writes of the recovery, on the disk it found. *)
Lemma initlog_recovers `{DiskDriver} me pid dev start lsize sb bl e s :
  i32 (sb_logstart sb) = start -> i32 (sb_nlog sb) = lsize -> tx_ok start lsize bl ->
  header_is bl (disk_block (fs_disk (k_fs s)) start) -> bc me pid dev (empty_view (fs_disk (k_fs s))) s ->
  length (lh_block (log_lh (fs_log (k_fs s)))) = Z.to_nat LOGSIZE ->
  exists l h0 bs, let W := recovery_writes start (disk_block (fs_disk (k_fs s))) bl h0 in
    initlog dev sb e s = Ok tt e (set_fs (Fst bs (apply_writes W (fs_disk (k_fs s))) (fs_writes (k_fs s) ++ W) l
      (fs_sb (k_fs s)) (fs_inodes (k_fs s))) (set_log l (log_lock_init s))) /\
    lh_n (log_lh l) = 0 /\ header_is [] h0.
Proof.
  intros Hs1 Hs2 Ht Hhd Hbc Hlen.
  assert (Hb : wp (initlog dev sb) e s (fun _ e' s' => e' = e /\ exists l h0, lh_n (log_lh l) = 0 /\ header_is [] h0 /\
    wrote (recovery_writes start (disk_block (fs_disk (k_fs s))) bl h0) (set_log l (log_lock_init s)) s')).
  { eapply initlog_wp; [done|done|exact Ht|exact Hlen|exact Hbc|done..|].
    intros s3 l L3 h3 Hl3 Hh3 _ Hw. split; [done|]. exists l, h3. split_and!; [apply Hl3|done|exact Hw]. }
  apply wp_elim in Hb as ([] & e' & s' & Hrun & -> & l & h0 & Hn & Hh0 & [bs ->]). by exists l, h0, bs.
Qed.

(** C1: A commit is atomic. The commit of a transaction sends the disk a
    sequence of writes; if power fails after any number of them and the kernel
    boots again from what the disk holds, [initlog] returns with an empty log
    and every block outside the log has its content from before the
    transaction, when the header had not been written, or its content from
    after the transaction, when it had. *)
Theorem commit_crash_atomic `{DiskDriver} me pid dev start lsize out com bl v e s :
  tx_ok start lsize bl -> bl <> [] -> log_is dev start lsize out com bl (fs_log (k_fs s)) ->
  bc me pid dev v s -> bv_held v = ∅ -> bv_pins v = list_to_set bl -> bv_dirty v ⊆ bv_pins v ->
  header_is [] (disk_block (fs_disk (k_fs s)) start) ->
  exists s' W, commit e s = Ok tt e s' /\ fs_writes (k_fs s') = fs_writes (k_fs s) ++ W /\
    (forall n b, (n, b) ∈ W -> length b = Z.to_nat BSIZE) /\
    (forall n, ~ in_log start lsize n -> disk_block (fs_disk (k_fs s')) n = bv_L v n) /\
    forall k me2 pid2 sb e2 s2,
      i32 (sb_logstart sb) = start -> i32 (sb_nlog sb) = lsize ->
      fs_disk (k_fs s2) = apply_writes (take k W) (fs_disk (k_fs s)) ->
      bc me2 pid2 dev (empty_view (fs_disk (k_fs s2))) s2 ->
      length (lh_block (log_lh (fs_log (k_fs s2)))) = Z.to_nat LOGSIZE ->
      exists s3, initlog dev sb e2 s2 = Ok tt e2 s3 /\ lh_n (log_lh (fs_log (k_fs s3))) = 0 /\
        forall n, ~ in_log start lsize n -> disk_block (fs_disk (k_fs s3)) n =
          if decide (k <= length bl)%nat then disk_block (fs_disk (k_fs s)) n else bv_L v n.
Proof.
  intros Ht Hne Hl Hbc Hh Hp Hd Hhd.
  assert (HL : forall n, n ∉ bl -> bv_L v n = disk_block (fs_disk (k_fs s)) n).
  { intros n Hn. apply (bc_clean _ _ _ _ _ Hbc). intros Hx. apply Hd in Hx. by rewrite Hp, elem_of_list_to_set in Hx. }
  assert (Hc : wp commit e s (fun _ e' s' => e' = e /\ exists L' h1 h0, header_is bl h1 /\ header_is [] h0 /\
    (forall m, ~ in_log start lsize m -> L' m = bv_L v m) /\ bc me pid dev (BView L' ∅ ∅ ∅) s' /\
    wrote (commit_writes start (bv_L v) bl h1 h0) (set_log (cleared (fs_log (k_fs s))) s) s')).
  { eapply commit_wp; [done..|]. intros s' L' h1 h0 H1 H0 H2 H3 H4. split; [done|]. by exists L', h1, h0. }
  apply wp_elim in Hc as ([] & e' & s' & Hrun & -> & L' & h1 & h0 & Hh1 & Hh0 & HL' & Hbc' & [bs ->]).
  eexists _, _. split_and!; [exact Hrun|reflexivity| | |].
  - intros n b. unfold commit_writes, log_writes. rewrite !elem_of_app, !list_elem_of_singleton, list_elem_of_fmap.
    intros [(i & m & [= -> ->] & _)%elem_of_lookup_imap|[[= -> ->]|[(m & [= -> ->] & _)|[= -> ->]]]];
      [by eapply view_len|apply Hh1|by eapply view_len|apply Hh0].
  - intros n Hn. rewrite <- HL' by done. symmetry. apply (bc_clean _ _ _ _ _ Hbc'). set_solver.
  - intros k me2 pid2 sb e2 s2 Hs1 Hs2 Hdk Hbc2 Hlen.
    destruct (crash_recovers start lsize bl Ht (bv_L v) (fs_disk (k_fs s)) h1 h0 Hhd HL Hh1 Hh0 k) as (bl' & Ht' & Hhd' & Hrec).
    rewrite <- Hdk in Hhd', Hrec.
    destruct (initlog_recovers me2 pid2 dev start lsize sb bl' e2 s2 Hs1 Hs2 Ht' Hhd' Hbc2 Hlen) as (l & h3 & bs3 & Hrun2 & Hn & _).
    eexists. split_and!; [exact Hrun2|done|].
    intros n Hn'. by apply (Hrec h3).
Qed.

(** C5: Recovery installs what was committed, and may itself be interrupted. When the
    header on the disk lists the blocks [bl], [initlog] gives each of them the content of
    its copy in the log, leaves every other block but the header alone, and empties the log
    in memory and on the disk. When power fails after any number [k] of the writes
    it makes for this, booting again also empties the log and gives every block outside
    the log the content the first boot would have given it. *)
Theorem recovery_idempotent `{DiskDriver} me pid dev start lsize bl sb e s :
  i32 (sb_logstart sb) = start -> i32 (sb_nlog sb) = lsize ->
  tx_ok start lsize bl -> header_is bl (disk_block (fs_disk (k_fs s)) start) ->
  bc me pid dev (empty_view (fs_disk (k_fs s))) s ->
  length (lh_block (log_lh (fs_log (k_fs s)))) = Z.to_nat LOGSIZE ->
  exists s' W, initlog dev sb e s = Ok tt e s' /\ fs_writes (k_fs s') = fs_writes (k_fs s) ++ W /\
    fs_disk (k_fs s') = apply_writes W (fs_disk (k_fs s)) /\
    length W = S (length bl) /\ (forall n b, (n, b) ∈ W -> length b = Z.to_nat BSIZE) /\
    lh_n (log_lh (fs_log (k_fs s'))) = 0 /\ header_is [] (disk_block (fs_disk (k_fs s')) start) /\
    (forall i n, bl !! i = Some n -> disk_block (fs_disk (k_fs s')) n = disk_block (fs_disk (k_fs s)) (copy_at start i)) /\
    (forall n, n ∉ bl -> n <> start -> disk_block (fs_disk (k_fs s')) n = disk_block (fs_disk (k_fs s)) n) /\
    forall k me2 pid2 e2 s2,
      fs_disk (k_fs s2) = apply_writes (take k W) (fs_disk (k_fs s)) ->
      bc me2 pid2 dev (empty_view (fs_disk (k_fs s2))) s2 ->
      length (lh_block (log_lh (fs_log (k_fs s2)))) = Z.to_nat LOGSIZE ->
      exists s3, initlog dev sb e2 s2 = Ok tt e2 s3 /\
        lh_n (log_lh (fs_log (k_fs s3))) = 0 /\ header_is [] (disk_block (fs_disk (k_fs s3)) start) /\
        forall n, ~ in_log start lsize n -> disk_block (fs_disk (k_fs s3)) n = disk_block (fs_disk (k_fs s')) n.
Proof.
  intros Hs1 Hs2 Ht Hhd Hbc Hlen. set (d := fs_disk (k_fs s)) in *.
  destruct (initlog_recovers me pid dev start lsize sb bl e s Hs1 Hs2 Ht Hhd Hbc Hlen) as (l & h0 & bs & Hrun & Hn & Hh0).
  eexists _, _. split_and!; [exact Hrun|reflexivity|reflexivity| | |done|simpl; fold d; by apply recovered_header| | |]; simpl; fold d.
  - unfold recovery_writes, home_writes. rewrite length_app, length_imap. simpl. lia.
  - intros n b. unfold recovery_writes, home_writes. rewrite elem_of_app, list_elem_of_singleton.
    intros [(i & m & [= -> ->] & _)%elem_of_lookup_imap|[= -> ->]]; [apply (bc_disk _ _ _ _ _ Hbc)|apply Hh0].
  - intros i n Hi. by apply (recovered_home start lsize bl Ht).
  - intros n Hb Hne. by apply (recovered_other start).
  - intros k me2 pid2 e2 s2 Hdk Hbc2 Hlen2.
    destruct (recovery_crash start lsize bl Ht d h0 Hhd Hh0 k) as (bl' & Ht' & Hhd' & Hrec). rewrite <- Hdk in Hhd', Hrec.
    destruct (initlog_recovers me2 pid2 dev start lsize sb bl' e2 s2 Hs1 Hs2 Ht' Hhd' Hbc2 Hlen2) as (l' & h3 & bs3 & Hrun2 & Hn2 & Hh3).
    eexists. split_and!; [exact Hrun2|done|simpl; by apply recovered_header|]. intros n Hout. by apply (Hrec h3).
Qed.

(** ** begin_op and end_op *)

Lemma begin_op_loop_ends fuel e s e' s' :
  begin_op_loop fuel e s = Ok tt e' s' ->
  log_committing (fs_log (k_fs s')) = 0 /\
  lh_n (log_lh (fs_log (k_fs s'))) + log_outstanding (fs_log (k_fs s')) * MAXOPBLOCKS <= LOGSIZE.
Proof.
  revert e s. induction fuel as [|fuel IH]; intros e s Hr; [done|]. cbn [begin_op_loop] in Hr.
  unfold get_log in Hr. kinv Hr. injection E as <- <- <-.
  destruct (Z.eqb_spec (log_committing (fs_log (k_fs s))) 0) as [Ec|Ec]; simpl in Hr; [|kinv Hr; eauto].
  destruct (_ >? LOGSIZE) eqn:En; [kinv Hr; eauto|].
  kinv Hr. unfold upd_log, modk in E. injection E as _ <- <-.
  rewrite (keeps_release k_fs (fun _ _ => eq_refl) _ _ _ _ _ _ Hr). simpl. split; [done|]. lia.
Qed.

Lemma begin_op_run me pid e s :
  fctx me pid s -> log_committing (fs_log (k_fs s)) = 0 ->
  lh_n (log_lh (fs_log (k_fs s))) + (log_outstanding (fs_log (k_fs s)) + 1) * MAXOPBLOCKS <= LOGSIZE ->
  begin_op e s = Ok tt e (set_log (log_set_outstanding (log_outstanding (fs_log (k_fs s)) + 1) (fs_log (k_fs s))) s).
Proof.
  intros Hf Hc Hn. pose proof (fctx_hart _ _ _ Hf) as Hh.
  assert (Hl : lock_free L_log (k_hw s)) by (by apply (fc_locks _ _ _ Hf)).
  unfold begin_op. erewrite bind_run by (by apply acquire_run).
  unfold sleeping. cbn [begin_op_loop]. erewrite bind_run by reflexivity. simpl. rewrite Hc. simpl.
  assert (E : (lh_n (log_lh (fs_log (k_fs s))) + (log_outstanding (fs_log (k_fs s)) + 1) * MAXOPBLOCKS >? LOGSIZE) = false) by lia.
  rewrite E. erewrite bind_run by reflexivity. by rewrite (release_run _ _ _ (k_hw s)).
Qed.

(** C9: A system call starts only when the log has room for it: whatever other
    processes do while [begin_op] sleeps, when it returns no commit is running
    and the blocks logged so far plus MAXOPBLOCKS for every operation in
    progress, the new one included, are at most LOGSIZE. When there is room at
    once it does not sleep. *)
Theorem begin_op_reserves e s :
  (forall e' s', begin_op e s = Ok tt e' s' ->
     log_committing (fs_log (k_fs s')) = 0 /\
     lh_n (log_lh (fs_log (k_fs s'))) + log_outstanding (fs_log (k_fs s')) * MAXOPBLOCKS <= LOGSIZE) /\
  (forall me pid, fctx me pid s -> log_committing (fs_log (k_fs s)) = 0 ->
     lh_n (log_lh (fs_log (k_fs s))) + (log_outstanding (fs_log (k_fs s)) + 1) * MAXOPBLOCKS <= LOGSIZE ->
     begin_op e s = Ok tt e
       (set_log (log_set_outstanding (log_outstanding (fs_log (k_fs s)) + 1) (fs_log (k_fs s))) s)).
Proof.
  split; [|intros me pid; by apply (begin_op_run me pid)].
  intros e' s' Hr. unfold begin_op in Hr. kinv Hr. unfold sleeping in Hr. by eapply begin_op_loop_ends.
Qed.

Section end_op.
Context `{DiskDriver} (me : nat) (pid dev start lsize : Z).
Notation bc := (bc me pid dev).

(** Waking the processes that wait for the log finds none that waits for it. *)
Lemma wake_log_run e s h :
  fctx me pid s -> h = acq L_log (k_hw s) -> forall t, k_hw t = h -> k_ps t = k_ps s ->
  wakeup (Some C_log) e t = Ok tt e t.
Proof.
  intros Hf -> t Eh Ep. destruct (kthread_acq _ L_log _ (fc_thread _ _ _ Hf)) as [K1 K2 K3 K4]; [done|].
  erewrite wakeup_run by (split; rewrite ?Eh, ?Ep; done). rewrite woken_id; [done|].
  intros i p Hpi Hs E. rewrite Ep in Hpi. destruct (fc_quiet _ _ _ Hf i p Hpi Hs) as [k Hk].
  rewrite Hk in E. done.
Qed.

Lemma log_done_wp v g e s Q :
  bc v s -> Q tt e (set_log (g (fs_log (k_fs s))) s) ->
  wp (acquire L_log ;; upd_log g ;; wakeup (Some C_log) ;; release L_log) e s Q.
Proof.
  intros Hbc HQ. pose proof (bc_ctx _ _ _ _ _ Hbc) as Hf. pose proof (fctx_hart _ _ _ Hf) as Hhw.
  assert (Hll : lock_free L_log (k_hw s)) by (by apply (fc_locks _ _ _ Hf)).
  apply wp_seq, wp_acquire; [done..|]. apply wp_seq. unfold upd_log. apply wp_modk.
  apply wp_seq. eapply wp_run; [by eapply wake_log_run|].
  apply (wp_release _ _ _ (k_hw s)); done.
Qed.

(** What an [end_op] that leaves [out] operations to others, or none, promises. *)
Definition ended (out : Z) (bl : list Z) (v : bview) (s s' : kst) : Prop :=
  exists l W L' pins dirty,
    log_is dev start lsize out 0 (if out =? 0 then [] else bl) l /\
    wrote W (set_log l s) s' /\ bc (BView L' ∅ pins dirty) s' /\
    (forall n, ~ in_log start lsize n -> L' n = bv_L v n) /\
    if out =? 0 then pins = ∅ /\ dirty = ∅ /\
      (if decide (bl = []) then W = [] else exists h1 h0, header_is bl h1 /\ header_is [] h0 /\
         W = commit_writes start (bv_L v) bl h1 h0)
    else pins = bv_pins v /\ dirty = bv_dirty v /\ W = [] /\ L' = bv_L v.

Lemma end_op_wp out bl v e s Q :
  tx_ok start lsize bl -> log_is dev start lsize out 0 bl (fs_log (k_fs s)) -> 1 <= out ->
  bc v s -> bv_held v = ∅ -> bv_pins v = list_to_set bl -> bv_dirty v ⊆ bv_pins v ->
  (forall s', ended (out - 1) bl v s s' -> Q tt e s') ->
  wp end_op e s Q.
Proof.
  intros Ht Hl Ho Hbc Hh Hp Hd HQ. pose proof (bc_ctx _ _ _ _ _ Hbc) as Hf.
  pose proof (fctx_hart _ _ _ Hf) as Hhw. assert (Hll : lock_free L_log (k_hw s)) by (by apply (fc_locks _ _ _ Hf)).
  set (l1 := log_set_outstanding (out - 1) (fs_log (k_fs s))).
  assert (Hl1 : log_is dev start lsize (out - 1) 0 bl l1) by (by destruct Hl).
  unfold end_op. apply wp_seq, wp_acquire; [done..|]. apply wp_seq. unfold upd_log at 1. apply wp_modk.
  cbn [k_fs set_hw]. rewrite (li_out _ _ _ _ _ _ _ Hl). fold l1. apply wp_bind, wp_gets.
  cbn [fs_log k_fs set_fs fs_set_log]. rewrite (li_com _ _ _ _ _ _ _ Hl1), (li_out _ _ _ _ _ _ _ Hl1).
  apply wp_seq. unfold when at 1. simpl. apply wp_ret. unfold ended in HQ.
  destruct (Z.eqb_spec (out - 1) 0) as [E1|Hne].
  - rewrite E1 in *. apply wp_seq. unfold upd_log at 1. apply wp_modk. simpl.
    apply wp_seq. apply (wp_release _ _ _ (k_hw s)); [done..|]. apply wp_seq.
    set (l2 := log_set_committing 1 l1). match goal with |- wp _ _ ?t _ => change t with (set_log l2 s) end.
    assert (Hl2 : log_is dev start lsize 0 1 bl l2) by (by destruct Hl1).
    destruct (decide (bl = [])) as [Eb|Eb].
    + eapply wp_run.
      { unfold commit. erewrite bind_run by (eapply log_n_run; exact Hl2). rewrite Eb. simpl. reflexivity. }
      assert (Hbc2 : bc (BView (bv_L v) ∅ ∅ ∅) s).
      { eapply bc_ext; [| | | |exact Hbc]; simpl; try done; rewrite Hp, Eb in *; [done|]. apply leibniz_equiv. set_solver. }
      eapply log_done_wp; [apply bc_set_log; exact Hbc|]. apply HQ.
      exists (log_set_committing 0 l2), [], (bv_L v), ∅, ∅.
      split_and!; [simpl; rewrite Eb in Hl2; destruct Hl2; by split|apply wrote_nil|by apply bc_set_log, bc_set_log|done|done|done|done].
    + eapply commit_wp; [exact Ht|done|exact Hl2|apply bc_set_log; exact Hbc|done..|].
      intros s2 L' h1 h0 H1 H0 HL Hbc2 Hw. rewrite set_log_twice in Hw.
      eapply log_done_wp; [exact Hbc2|]. apply HQ. rewrite (wrote_log _ _ _ Hw).
      eexists _, _, L', ∅, ∅. apply log_is_cleared in Hl2.
      split_and!; [|eapply (wrote_set_log _ (log_set_committing 0 (cleared l2))) in Hw; rewrite set_log_twice in Hw; exact Hw
        |by apply bc_set_log|done|done|done|by exists h1, h0]. destruct Hl2. by split.
  - apply wp_seq. eapply wp_run; [by eapply wake_log_run|].
    apply wp_seq. apply (wp_release _ _ _ (k_hw s)); [done..|]. unfold when. apply wp_ret. apply HQ.
    exists l1, [], (bv_L v), (bv_pins v), (bv_dirty v).
    split_and!; [done|apply wrote_nil| |done|done|done|done|done].
    apply (bc_set_log _ _ _ _ l1 s). rewrite <- Hh. by destruct v.
Qed.

End end_op.

(** [end_op] of the last operation of a transaction makes it durable: every
    block outside the log is on the disk with its current content, the log is
    empty and no longer committing, and nothing stays pinned. While other
    operations are in progress it only gives its reservation back. *)
Theorem end_op_correct `{DiskDriver} me pid dev start lsize out bl v e s :
  tx_ok start lsize bl -> log_is dev start lsize out 0 bl (fs_log (k_fs s)) -> 1 <= out ->
  bc me pid dev v s -> bv_held v = ∅ -> bv_pins v = list_to_set bl -> bv_dirty v ⊆ bv_pins v ->
  exists s', end_op e s = Ok tt e s' /\
    (out = 1 -> (forall n, ~ in_log start lsize n -> disk_block (fs_disk (k_fs s')) n = bv_L v n) /\
       log_is dev start lsize 0 0 [] (fs_log (k_fs s')) /\
       exists L', bc me pid dev (BView L' ∅ ∅ ∅) s') /\
    (out <> 1 -> fs_disk (k_fs s') = fs_disk (k_fs s) /\
       log_is dev start lsize (out - 1) 0 bl (fs_log (k_fs s')) /\ bc me pid dev v s').
Proof.
  intros Ht Hl Ho Hbc Hh Hp Hd.
  assert (Hw : wp end_op e s (fun _ e' s' => e' = e /\ ended me pid dev start lsize (out - 1) bl v s s')).
  { eapply end_op_wp; [done..|]. by intros s'. }
  apply wp_elim in Hw as ([] & e' & s' & Hrun & -> & l & W & L' & pins & dirty & Hl' & Hwr & Hbc' & HL & Hrest).
  exists s'. split; [done|]. pose proof (wrote_log _ _ _ Hwr) as Hlog. rewrite log_of_set_log in Hlog.
  split; intros Hout.
  - rewrite Hout in *. simpl in *. destruct Hrest as (-> & -> & _). rewrite Hlog. split_and!; [|done|eauto].
    intros n Hn. rewrite <- HL by done. symmetry. apply (bc_clean _ _ _ _ _ Hbc'). set_solver.
  - rewrite (proj2 (Z.eqb_neq _ _)) in * by lia. destruct Hrest as (-> & -> & -> & ->). rewrite Hlog.
    split_and!; [by destruct Hwr as [bs ->]|done|]. rewrite <- Hh in Hbc'. by destruct v.
Qed.

(** C38: The log is one block too small for what [begin_op] lets in. With
    nothing logged it admits three operations at once, so thirty blocks are
    reserved; a log of thirty blocks, header included, holds twenty-nine, and
    [log_write] of the thirtieth block panics. *)
Theorem log_reserves_too_much me pid b e s :
  fctx me pid s -> lh_n (log_lh (fs_log (k_fs s))) = 0 -> log_outstanding (fs_log (k_fs s)) = 0 ->
  log_committing (fs_log (k_fs s)) = 0 ->
  (begin_op ;; begin_op ;; begin_op) e s = Ok tt e (set_log (log_set_outstanding 3 (fs_log (k_fs s))) s) /\
  forall s2, k_hw s2 = k_hw s ->
    log_size (fs_log (k_fs s2)) = LOGSIZE -> lh_n (log_lh (fs_log (k_fs s2))) = 3 * MAXOPBLOCKS - 1 ->
    log_write b e s2 = Panic "too big a transaction".
Proof.
  intros Hf Hn Ho Hc.
  assert (Hf' : forall l, fctx me pid (set_log l s)) by (intros l; by apply fctx_fs).
  split.
  - erewrite bind_run by (eapply begin_op_run; [exact Hf|done|rewrite Hn, Ho; done]).
    erewrite bind_run by (eapply begin_op_run; [apply Hf'|done|simpl; rewrite Hn, Ho; done]).
    erewrite begin_op_run; [|apply Hf'|done|simpl; rewrite Hn, Ho; done]. simpl. by rewrite Ho.
  - intros s2 Hw Hs2 Hn2. pose proof (fctx_hart _ _ _ Hf) as Hh.
    assert (Hll : lock_free L_log (k_hw s)) by (by apply (fc_locks _ _ _ Hf)).
    unfold log_write. erewrite bind_run by (apply acquire_run; by rewrite Hw).
    erewrite bind_run by reflexivity. simpl. rewrite Hn2, Hs2. done.
Qed.

(** ** Witnesses *)

(** A log at blocks 2 to 31, with [out] operations in progress. *)
Definition log_ex (out : Z) : log := Log 2 30 out 0 1 (Logheader 0 (replicate (Z.to_nat LOGSIZE) 0)).
Definition sb_ex : superblock := Superblock FSMAGIC 2000 1954 200 30 2 32 45.
Definition kst_log (out : Z) (d : gmap Z (list Z)) : kst := set_log (log_ex out) (kst_fs d).
Definition block9 : list Z := replicate (Z.to_nat BSIZE) 9.

Lemma log_ex_is out : log_is 1 2 30 out 0 [] (log_ex out).
Proof. by split. Qed.

Lemma tx_ex : tx_ok 2 30 [50].
Proof.
  split; [lia|apply NoDup_singleton|..].
  - intros n ->%list_elem_of_singleton. unfold in_log. lia.
  - unfold LOGSIZE, MAXOPBLOCKS. simpl. lia.
  - unfold NBUF. simpl. lia.
Qed.

Lemma zeros_header : header_is [] (replicate (Z.to_nat BSIZE) 0).
Proof. split; [apply length_replicate|reflexivity|by intros i n Hi]. Qed.

(** A transaction that has replaced block 50. *)
Lemma tx_example : exists v s, bc 0 1 1 v s /\ bv_held v = ∅ /\ bv_pins v = list_to_set [50] /\
  bv_dirty v ⊆ bv_pins v /\ log_is 1 2 30 1 0 [50] (fs_log (k_fs s)) /\ fs_disk (k_fs s) = ∅ /\ bv_L v 50 = block9.
Proof.
  assert (Hw : wp (b ← @bread sync_disk 1 50; upd_buf b (b_set_data block9) ;; log_write b ;; brelse b) [] (kst_log 1 ∅)
    (fun _ _ s => exists v, bc 0 1 1 v s /\ bv_held v = ∅ /\ bv_pins v = list_to_set [50] /\
      bv_dirty v ⊆ bv_pins v /\ log_is 1 2 30 1 0 [50] (fs_log (k_fs s)) /\ fs_disk (k_fs s) = ∅ /\ bv_L v 50 = block9)).
  { apply wp_bind. eapply (bread_wp 0 1 1 (empty_view ∅)); [apply bc_set_log, bc_kst_fs, disk_ok_empty| |right; vm_compute; lia|].
    { intros i. change (bv_held (empty_view ∅)) with (∅ : gmap nat Z). by rewrite lookup_empty. }
    intros b bs Hfree Hbc1.
    assert (Hb1 : bv_held (bv_hold b 50 (empty_view ∅)) !! b = Some 50) by apply lookup_insert_eq.
    destruct (held_buf _ _ _ _ _ _ _ Hbc1 Hb1) as (x & _ & Hx & _).
    apply wp_seq. eapply wp_run; [apply upd_buf_run; by exists x|].
    pose proof (bc_edit _ _ _ _ _ _ _ block9 Hbc1 Hb1 (length_replicate _ _)) as Hbc2.
    apply wp_seq. eapply (log_write_wp 0 1 1 2 30 1 []); [exact Hbc2|exact Hb1|done|apply log_ex_is|lia|lia
      |by intros m ?%elem_of_nil|done|done|].
    intros bs2 l Hl Hbc3. eapply brelse_wp; [exact Hbc3|exact Hb1|simpl; set_solver|].
    intros bs3 Hbc4. eexists. split; [exact Hbc4|]. simpl. rewrite delete_insert_id by done.
    split_and!; [done|done|set_solver|exact Hl|done|apply fn_lookup_insert]. }
  apply wp_elim in Hw as (_ & _ & s & _ & v & Hv). by exists v, s.
Qed.

Lemma bc_kst_log out d : disk_ok d -> bc 0 1 1 (empty_view d) (kst_log out d).
Proof. intros Hd. by apply bc_set_log, bc_kst_fs. Qed.

(** Power fails after the copy and the header of block 50 are written. *)
Lemma commit_crash_atomic_witness : exists s s' W s3,
  @commit sync_disk [] s = Ok tt [] s' /\ disk_block (fs_disk (k_fs s')) 50 = block9 /\
  @initlog sync_disk 1 sb_ex [] (kst_log 0 (apply_writes (take 2 W) ∅)) = Ok tt [] s3 /\
  disk_block (fs_disk (k_fs s3)) 50 = block9.
Proof.
  assert (Hout : ~ in_log 2 30 50) by (unfold in_log; lia).
  destruct tx_example as (v & s & Hbc & Hh & Hp & Hd & Hl & Hdisk & HL).
  destruct (@commit_crash_atomic sync_disk 0 1 1 2 30 1 0 [50] v [] s tx_ex) as (s' & W & Hr & _ & Hlen & Hn & Hcrash);
    [done|done|done|done|done|done|rewrite Hdisk; exact zeros_header|].
  rewrite Hdisk in Hcrash.
  destruct (Hcrash 2%nat 0%nat 1 sb_ex [] (kst_log 0 (apply_writes (take 2 W) ∅))) as (s3 & Hr3 & _ & Hn3);
    [reflexivity|reflexivity|reflexivity| |reflexivity|].
  - apply bc_kst_log, apply_lengths; [|apply disk_ok_empty].
    intros n b (i & Hi & _)%elem_of_take. apply (Hlen n b). by eapply list_elem_of_lookup_2.
  - exists s, s', W, s3. split; [exact Hr|]. split; [rewrite (Hn 50 Hout); exact HL|]. split; [exact Hr3|].
    rewrite (Hn3 50 Hout). exact HL.
Defined.

(** A disk whose log holds a committed block 50. *)
Definition disk_committed : gmap Z (list Z) :=
  {[2 := put32 4 50 (put32 0 1 (replicate (Z.to_nat BSIZE) 0)); 3 := block9]}.

Lemma header_committed : header_is [50] (disk_block disk_committed 2).
Proof.
  split; [vm_compute; reflexivity..|]. intros i n Hi. destruct i; [|done]. injection Hi as <-. vm_compute. reflexivity.
Qed.

Lemma disk_ok_committed : disk_ok disk_committed.
Proof.
  intros n b Hb. unfold disk_committed in Hb. apply lookup_insert_Some in Hb as [[_ <-]|[_ Hb]]; [vm_compute; reflexivity|].
  apply lookup_singleton_Some in Hb as [_ <-]. vm_compute. reflexivity.
Qed.

(** The first boot loses power between the block and the header; the second finishes. *)
Lemma recovery_idempotent_witness : exists s' W s3,
  @initlog sync_disk 1 sb_ex [] (kst_log 0 disk_committed) = Ok tt [] s' /\ length W = 2%nat /\
  disk_block (fs_disk (k_fs s')) 50 = block9 /\
  @initlog sync_disk 1 sb_ex [] (kst_log 0 (apply_writes (take 1 W) disk_committed)) = Ok tt [] s3 /\
  disk_block (fs_disk (k_fs s3)) 50 = block9 /\ header_is [] (disk_block (fs_disk (k_fs s3)) 2).
Proof.
  destruct (@recovery_idempotent sync_disk 0 1 1 2 30 [50] sb_ex [] (kst_log 0 disk_committed))
    as (s' & W & Hr & _ & _ & HlW & Hlen & _ & _ & Hhome & _ & Hcrash);
    [reflexivity|reflexivity|exact tx_ex|exact header_committed|apply bc_kst_log, disk_ok_committed|reflexivity|].
  assert (H50 : disk_block (fs_disk (k_fs s')) 50 = block9) by (rewrite (Hhome 0%nat 50 eq_refl); vm_compute; reflexivity).
  destruct (Hcrash 1%nat 0%nat 1 [] (kst_log 0 (apply_writes (take 1 W) disk_committed))) as (s3 & Hr3 & _ & Hh3 & H3);
    [reflexivity| |reflexivity|].
  - apply bc_kst_log, apply_lengths; [|apply disk_ok_committed].
    intros n b (i & Hi & _)%elem_of_take. apply (Hlen n b). by eapply list_elem_of_lookup_2.
  - exists s', W, s3. split_and!; [exact Hr|exact HlW|exact H50|exact Hr3| |exact Hh3].
    rewrite H3 by (unfold in_log; lia). exact H50.
Defined.

Lemma end_op_correct_witness : exists s s',
  @end_op sync_disk [] s = Ok tt [] s' /\ disk_block (fs_disk (k_fs s')) 50 = block9.
Proof.
  assert (Hout : ~ in_log 2 30 50) by (unfold in_log; lia).
  destruct tx_example as (v & s & Hbc & Hh & Hp & Hd & Hl & Hdisk & HL).
  destruct (@end_op_correct sync_disk 0 1 1 2 30 1 [50] v [] s tx_ex) as (s' & Hr & H1 & _); [done|lia|done|done|done|done|].
  exists s, s'. split; [exact Hr|]. rewrite (proj1 (H1 eq_refl) 50 Hout). exact HL.
Defined.

Lemma begin_op_reserves_witness :
  begin_op [] (kst_log 2 ∅) = Ok tt [] (set_log (log_set_outstanding 3 (log_ex 2)) (kst_log 2 ∅)).
Proof.
  apply (proj2 (begin_op_reserves [] (kst_log 2 ∅)) 0%nat 1); [apply fctx_fs, fctx_kst_fs|reflexivity|discriminate].
Defined.

Definition kst_log29 : kst := set_log (log_set_lh (Logheader 29 (replicate 30 0)) (log_ex 3)) (kst_fs ∅).

Lemma log_reserves_too_much_witness :
  (begin_op ;; begin_op ;; begin_op) [] (kst_log 0 ∅) = Ok tt [] (kst_log 3 ∅) /\
  log_write 0 [] kst_log29 = Panic "too big a transaction".
Proof.
  destruct (log_reserves_too_much 0 1 0 [] (kst_log 0 ∅)) as (Hr & Hp);
    [apply fctx_fs, fctx_kst_fs|reflexivity|reflexivity|reflexivity|].
  split; [exact Hr|]. apply Hp; reflexivity.
Defined.
