(* ===== verification/Fs.v ===== *)
(** fs.c: blocks, inodes, file contents, directories and paths. An in-memory
    inode is an index into itable.inode; a C string is the list of its bytes,
    read as 0 past the end. *)

From S2P Require Import Prelude Machine KState Blocks Spinlock Kalloc Proc ProcSpec Sleeplock Bio Log.

(** ** Access *)

Definition i_set_id (dev inum : Z) (i : inode) : inode :=
  Inode dev inum (i_ref i) (i_lock i) (i_valid i) (i_type i) (i_major i) (i_minor i)
    (i_nlink i) (i_size i) (i_addrs i).
Definition i_set_ref (v : Z) (i : inode) : inode :=
  Inode (i_dev i) (i_inum i) v (i_lock i) (i_valid i) (i_type i) (i_major i) (i_minor i)
    (i_nlink i) (i_size i) (i_addrs i).
Definition i_set_valid (v : Z) (i : inode) : inode :=
  Inode (i_dev i) (i_inum i) (i_ref i) (i_lock i) v (i_type i) (i_major i) (i_minor i)
    (i_nlink i) (i_size i) (i_addrs i).
Definition i_set_type (v : Z) (i : inode) : inode :=
  Inode (i_dev i) (i_inum i) (i_ref i) (i_lock i) (i_valid i) v (i_major i) (i_minor i)
    (i_nlink i) (i_size i) (i_addrs i).
Definition i_set_major (v : Z) (i : inode) : inode :=
  Inode (i_dev i) (i_inum i) (i_ref i) (i_lock i) (i_valid i) (i_type i) v (i_minor i)
    (i_nlink i) (i_size i) (i_addrs i).
Definition i_set_minor (v : Z) (i : inode) : inode :=
  Inode (i_dev i) (i_inum i) (i_ref i) (i_lock i) (i_valid i) (i_type i) (i_major i) v
    (i_nlink i) (i_size i) (i_addrs i).
Definition i_set_nlink (v : Z) (i : inode) : inode :=
  Inode (i_dev i) (i_inum i) (i_ref i) (i_lock i) (i_valid i) (i_type i) (i_major i) (i_minor i)
    v (i_size i) (i_addrs i).
Definition i_set_size (v : Z) (i : inode) : inode :=
  Inode (i_dev i) (i_inum i) (i_ref i) (i_lock i) (i_valid i) (i_type i) (i_major i) (i_minor i)
    (i_nlink i) v (i_addrs i).
Definition i_set_addrs (v : list Z) (i : inode) : inode :=
  Inode (i_dev i) (i_inum i) (i_ref i) (i_lock i) (i_valid i) (i_type i) (i_major i) (i_minor i)
    (i_nlink i) (i_size i) v.

Definition get_inode (i : nat) : K inode := f ← gets k_fs; deref (fs_inodes f !! i).
Definition upd_inode (i : nat) (g : inode -> inode) : K unit :=
  x ← get_inode i;
  modk (fun s => set_fs (fs_set_inodes (<[i := g x]> (fs_inodes (k_fs s))) (k_fs s)) s).
Definition get_sb : K superblock := gets (fun s => fs_sb (k_fs s)).

(** [ip->addrs[i]] *)
Definition get_addr (ip : nat) (i : Z) : K Z := x ← get_inode ip; deref (i_addrs x !! Z.to_nat i).
Definition set_addr (ip : nat) (i v : Z) : K unit :=
  get_addr ip i ;; upd_inode ip (fun x => i_set_addrs (<[Z.to_nat i := v]> (i_addrs x)) x).

(** ** fs.h, stat.h *)

Definition sizeof_dinode : Z := 64.
Definition IPB : Z := BSIZE / sizeof_dinode.
Definition IBLOCK (i : Z) (sb : superblock) : Z := u32 (i / IPB + sb_inodestart sb).
Definition BPB : Z := BSIZE * 8.
Definition BBLOCK (b : Z) (sb : superblock) : Z := u32 (b / BPB + sb_bmapstart sb).
Definition T_DIR : Z := 1.
Definition T_FILE : Z := 2.
Definition T_DEVICE : Z := 3.
Definition sizeof_dirent : Z := 16.

(** [struct dinode] at [off] in a block, read into an inode and written from
    one. *)
Definition dinode_read (off : Z) (d : list Z) (x : inode) : inode :=
  i_set_addrs ((fun k => get32 (off + 12 + 4 * k) d) <$> seqZ 0 13)
  (i_set_size (get32 (off + 8) d)
  (i_set_nlink (i16 (get16 (off + 6) d))
  (i_set_minor (i16 (get16 (off + 4) d))
  (i_set_major (i16 (get16 (off + 2) d))
  (i_set_type (i16 (get16 off d)) x))))).
Definition dinode_write (off : Z) (x : inode) (d : list Z) : list Z :=
  put (off + 12) (concat (le_bytes 4 <$> i_addrs x))
  (put32 (off + 8) (i_size x)
  (put16 (off + 6) (i_nlink x)
  (put16 (off + 4) (i_minor x)
  (put16 (off + 2) (i_major x)
  (put16 off (i_type x) d))))).

Definition min (a b : Z) : Z := if a <? b then a else b.

Section fs.
Context `{DiskDriver}.

(** ** Super block *)

Definition sb_parse (d : list Z) : superblock :=
  Superblock (get32 0 d) (get32 4 d) (get32 8 d) (get32 12 d)
             (get32 16 d) (get32 20 d) (get32 24 d) (get32 28 d).

Definition readsb (dev : Z) : K unit :=
  bp ← bread dev 1;
  x ← get_buf bp;
  modk (fun s => set_fs (fs_set_sb (sb_parse (b_data x)) (k_fs s)) s) ;;
  brelse bp.

Definition fsinit (dev : Z) : K unit :=
  readsb dev ;;
  sb ← get_sb;
  when (negb (sb_magic sb =? FSMAGIC)) (panic "invalid file system") ;;
  initlog dev sb.

(** ** Blocks *)

Definition bzero (dev bno : Z) : K unit :=
  bp ← bread dev (u32 bno);
  upd_buf bp (b_set_data (replicate (Z.to_nat BSIZE) 0)) ;;
  log_write bp ;;
  brelse bp.

(** Bit [bi] of a bitmap block. *)
Definition bit_mask (bi : Z) : Z := Z.shiftl 1 (bi mod 8).
Definition bit_byte (bi : Z) (d : list Z) : Z := default 0 (d !! Z.to_nat (bi / 8)).
Definition bit_put (bi v : Z) (d : list Z) : list Z := <[Z.to_nat (bi / 8) := v]> d.

(** The inner loop of balloc: the first clear bit at or after [bi]. *)
Fixpoint balloc_scan (fuel : nat) (bi b size : Z) (d : list Z) : option Z :=
  match fuel with
  | O => None
  | S fuel =>
    if (bi <? BPB) && (b + bi <? size) then
      if Z.land (bit_byte bi d) (bit_mask bi) =? 0 then Some bi
      else balloc_scan fuel (bi + 1) b size d
    else None
  end.

Definition bpb_fuel : nat := S (Z.to_nat BPB).

Fixpoint balloc_loop (fuel : nat) (dev b : Z) : K Z :=
  match fuel with
  | O => nofuel
  | S fuel =>
    sb ← get_sb;
    if b <? sb_size sb then
      bp ← bread dev (BBLOCK b sb);
      x ← get_buf bp;
      match balloc_scan bpb_fuel 0 b (sb_size sb) (b_data x) with
      | Some bi =>
        upd_buf bp (b_set_data (bit_put bi (Z.lor (bit_byte bi (b_data x)) (bit_mask bi)) (b_data x))) ;;
        log_write bp ;;
        brelse bp ;;
        bzero dev (b + bi) ;;
        mret (b + bi)
      | None =>
        brelse bp ;;
        balloc_loop fuel dev (b + BPB)
      end
    else printf "balloc: out of blocks" ;; mret 0
  end.

Definition balloc (dev : Z) : K Z :=
  sb ← get_sb;
  balloc_loop (Z.to_nat (sb_size sb / BPB) + 2) dev 0.

Definition bfree (dev b : Z) : K unit :=
  sb ← get_sb;
  bp ← bread dev (BBLOCK b sb);
  let bi := b mod BPB in
  let m := bit_mask bi in
  x ← get_buf bp;
  when (Z.land (bit_byte bi (b_data x)) m =? 0) (panic "freeing free block") ;;
  upd_buf bp (b_set_data (bit_put bi (u8 (Z.land (bit_byte bi (b_data x)) (Z.lnot m))) (b_data x))) ;;
  log_write bp ;;
  brelse bp.

(** ** Inodes *)

Definition iinit : K unit :=
  initlock L_itable "itable" ;;
  forK (seq 0 NINODE) (fun i => initsleeplock (SL_inode i) "inode").

(** The loop of iget: an entry for the inode, or an empty one. *)
Fixpoint iget_find (l : list nat) (empty : option nat) (dev inum : Z) : K (nat + option nat) :=
  match l with
  | [] => mret (inr empty)
  | ip :: l =>
    x ← get_inode ip;
    if (i_ref x >? 0) && (i_dev x =? dev) && (i_inum x =? inum) then mret (inl ip)
    else iget_find l (if bool_decide (empty = None) && (i_ref x =? 0) then Some ip else empty) dev inum
  end.

Definition iget (dev inum : Z) : K nat :=
  acquire L_itable ;;
  r ← iget_find (seq 0 NINODE) None dev inum;
  match r with
  | inl ip =>
    upd_inode ip (fun x => i_set_ref (i_ref x + 1) x) ;;
    release L_itable ;;
    mret ip
  | inr None => panic "iget: no inodes"
  | inr (Some ip) =>
    upd_inode ip (i_set_id dev inum) ;;
    upd_inode ip (i_set_ref 1) ;;
    upd_inode ip (i_set_valid 0) ;;
    release L_itable ;;
    mret ip
  end.

Fixpoint ialloc_loop (fuel : nat) (dev inum type : Z) : K (option nat) :=
  match fuel with
  | O => nofuel
  | S fuel =>
    sb ← get_sb;
    if inum <? sb_ninodes sb then
      bp ← bread dev (IBLOCK inum sb);
      x ← get_buf bp;
      let off := sizeof_dinode * (inum mod IPB) in
      if get16 off (b_data x) =? 0 then
        upd_buf bp (b_set_data (put16 off type (put off (replicate (Z.to_nat sizeof_dinode) 0) (b_data x)))) ;;
        log_write bp ;;
        brelse bp ;;
        ip ← iget dev inum;
        mret (Some ip)
      else
        brelse bp ;;
        ialloc_loop fuel dev (inum + 1) type
    else printf "ialloc: no inodes" ;; mret None
  end.

Definition ialloc (dev type : Z) : K (option nat) :=
  sb ← get_sb;
  ialloc_loop (Z.to_nat (sb_ninodes sb) + 1) dev 1 type.

Definition iupdate (ip : nat) : K unit :=
  sb ← get_sb;
  x ← get_inode ip;
  bp ← bread (i_dev x) (IBLOCK (i_inum x) sb);
  x ← get_inode ip;
  b ← get_buf bp;
  upd_buf bp (b_set_data (dinode_write (sizeof_dinode * (i_inum x mod IPB)) x (b_data b))) ;;
  log_write bp ;;
  brelse bp.

Definition idup (ip : nat) : K nat :=
  acquire L_itable ;;
  upd_inode ip (fun x => i_set_ref (i_ref x + 1) x) ;;
  release L_itable ;;
  mret ip.

Definition ilock (p : option nat) : K unit :=
  match p with
  | None => panic "ilock"
  | Some ip =>
    x ← get_inode ip;
    when (i_ref x <? 1) (panic "ilock") ;;
    acquiresleep (SL_inode ip) ;;
    x ← get_inode ip;
    when (i_valid x =? 0) (
      sb ← get_sb;
      bp ← bread (i_dev x) (IBLOCK (i_inum x) sb);
      b ← get_buf bp;
      upd_inode ip (fun x => dinode_read (sizeof_dinode * (i_inum x mod IPB)) (b_data b) x) ;;
      brelse bp ;;
      upd_inode ip (i_set_valid 1) ;;
      x ← get_inode ip;
      when (i_type x =? 0) (panic "ilock: no type"))
  end.

Definition iunlock (p : option nat) : K unit :=
  match p with
  | None => panic "iunlock"
  | Some ip =>
    h ← holdingsleep (SL_inode ip);
    x ← get_inode ip;
    when (negb h || (i_ref x <? 1)) (panic "iunlock") ;;
    releasesleep (SL_inode ip)
  end.

(** [for(i = 0; i < NDIRECT; i++)] of itrunc, and its loop over the indirect
    block. *)
Definition itrunc_one (ip : nat) (i : Z) : K unit :=
  a ← get_addr ip i;
  when (negb (a =? 0)) (
    x ← get_inode ip;
    bfree (i_dev x) a ;;
    set_addr ip i 0).

Definition itrunc_indirect (ip bp : nat) (j : Z) : K unit :=
  a ← buf_get32 bp (4 * j);
  when (negb (a =? 0)) (
    x ← get_inode ip;
    bfree (i_dev x) a).

Definition itrunc (ip : nat) : K unit :=
  forK (seqZ 0 NDIRECT) (itrunc_one ip) ;;
  a ← get_addr ip NDIRECT;
  when (negb (a =? 0)) (
    x ← get_inode ip;
    bp ← bread (i_dev x) a;
    forK (seqZ 0 NINDIRECT) (itrunc_indirect ip bp) ;;
    brelse bp ;;
    x ← get_inode ip;
    a ← get_addr ip NDIRECT;
    bfree (i_dev x) a ;;
    set_addr ip NDIRECT 0) ;;
  upd_inode ip (i_set_size 0) ;;
  iupdate ip.

Definition iput (ip : nat) : K unit :=
  acquire L_itable ;;
  x ← get_inode ip;
  when ((i_ref x =? 1) && negb (i_valid x =? 0) && (i_nlink x =? 0)) (
    acquiresleep (SL_inode ip) ;;
    release L_itable ;;
    itrunc ip ;;
    upd_inode ip (i_set_type 0) ;;
    iupdate ip ;;
    upd_inode ip (i_set_valid 0) ;;
    releasesleep (SL_inode ip) ;;
    acquire L_itable) ;;
  upd_inode ip (fun x => i_set_ref (i_ref x - 1) x) ;;
  release L_itable.

Definition iunlockput (p : option nat) : K unit :=
  iunlock p ;;
  ip ← deref p;
  iput ip.

(** ** File contents *)

Definition bmap (ip : nat) (bn : Z) : K Z :=
  if bn <? NDIRECT then
    addr ← get_addr ip bn;
    if addr =? 0 then
      x ← get_inode ip;
      addr ← balloc (i_dev x);
      if addr =? 0 then mret 0
      else set_addr ip bn addr ;; mret addr
    else mret addr
  else
    let bn := bn - NDIRECT in
    if bn <? NINDIRECT then
      addr ← get_addr ip NDIRECT;
      addr ← (if addr =? 0 then
                x ← get_inode ip;
                addr ← balloc (i_dev x);
                when (negb (addr =? 0)) (set_addr ip NDIRECT addr) ;;
                mret addr
              else mret addr);
      if addr =? 0 then mret 0
      else
        x ← get_inode ip;
        bp ← bread (i_dev x) addr;
        addr ← buf_get32 bp (4 * bn);
        addr ← (if addr =? 0 then
                  addr ← balloc (i_dev x);
                  when (negb (addr =? 0)) (buf_put32 bp (4 * bn) addr ;; log_write bp) ;;
                  mret addr
                else mret addr);
        brelse bp ;;
        mret addr
    else panic "bmap: out of range".

(** [struct stat] *)
Record stat := Stat { st_dev : Z; st_ino : Z; st_type : Z; st_nlink : Z; st_size : Z }.

Definition stati (ip : nat) : K stat :=
  x ← get_inode ip;
  mret (Stat (i32 (i_dev x)) (i_inum x) (i_type x) (i_nlink x) (i_size x)).

(** The bytes read are also part of the result: they are what a local
    destination receives. *)
Fixpoint readi_loop (fuel : nat) (ip : nat) (dst : dstaddr) (off n tot : Z) (acc : list Z) : K (Z * list Z) :=
  match fuel with
  | O => nofuel
  | S fuel =>
    if tot <? n then
      addr ← bmap ip (off / BSIZE);
      if addr =? 0 then mret (i32 tot, acc)
      else
        x ← get_inode ip;
        bp ← bread (i_dev x) addr;
        let m := min (n - tot) (BSIZE - off mod BSIZE) in
        b ← get_buf bp;
        let bs := slice (off mod BSIZE) m (b_data b) in
        r ← either_copyout dst bs;
        if r =? -1 then brelse bp ;; mret (-1, acc)
        else
          brelse bp ;;
          readi_loop fuel ip (dst_add dst m) (u32 (off + m)) n (u32 (tot + m)) (acc ++ bs)
    else mret (i32 tot, acc)
  end.

Definition readi (ip : nat) (dst : dstaddr) (off n : Z) : K (Z * list Z) :=
  x ← get_inode ip;
  if (off >? i_size x) || (u32 (off + n) <? off) then mret (0, [])
  else
    let n := if u32 (off + n) >? i_size x then i_size x - off else n in
    readi_loop (Z.to_nat (n / BSIZE) + 3) ip dst off n 0 [].

(** The result of the loop of writei: [off] and [tot] when it ended. *)
Fixpoint writei_loop (fuel : nat) (ip : nat) (src : srcaddr) (off n tot : Z) : K (Z * Z) :=
  match fuel with
  | O => nofuel
  | S fuel =>
    if tot <? n then
      addr ← bmap ip (off / BSIZE);
      if addr =? 0 then mret (off, tot)
      else
        x ← get_inode ip;
        bp ← bread (i_dev x) addr;
        let m := min (n - tot) (BSIZE - off mod BSIZE) in
        r ← either_copyin src m;
        b ← get_buf bp;
        upd_buf bp (b_set_data (put (off mod BSIZE) r.2 (b_data b))) ;;
        if r.1 =? -1 then brelse bp ;; mret (off, tot)
        else
          log_write bp ;;
          brelse bp ;;
          writei_loop fuel ip (src_add src m) (u32 (off + m)) n (u32 (tot + m))
    else mret (off, tot)
  end.

Definition writei (ip : nat) (src : srcaddr) (off n : Z) : K Z :=
  x ← get_inode ip;
  if (off >? i_size x) || (u32 (off + n) <? off) then mret (-1)
  else if u32 (off + n) >? MAXFILE * BSIZE then mret (-1)
  else
    r ← writei_loop (Z.to_nat (n / BSIZE) + 3) ip src off n 0;
    x ← get_inode ip;
    when (r.1 >? i_size x) (upd_inode ip (i_set_size r.1)) ;;
    iupdate ip ;;
    mret (i32 r.2).

(** ** Directories *)

(** strncmp and strncpy on the arrays they get here. *)
Fixpoint strncmp_l (n : nat) (p q : list Z) : Z :=
  match n with
  | O => 0
  | S n =>
    let a := default 0 (hd_error p) in
    let b := default 0 (hd_error q) in
    if negb (a =? 0) && (a =? b) then strncmp_l n (tail p) (tail q) else a - b
  end.
Fixpoint strncpy_l (n : nat) (t : list Z) : list Z :=
  match n with
  | O => []
  | S n =>
    let a := default 0 (hd_error t) in
    if a =? 0 then replicate (S n) 0 else a :: strncpy_l n (tail t)
  end.

Definition namecmp (s t : list Z) : Z := strncmp_l DIRSIZ s t.

(** [struct dirent] *)
Record dirent := Dirent { de_inum : Z; de_name : list Z }.
Definition dirent_read (bs : list Z) : dirent := Dirent (get16 0 bs) (slice 2 (Z.of_nat DIRSIZ) bs).
Definition dirent_write (de : dirent) : list Z := le_bytes 2 (de_inum de) ++ de_name de.

(** The entry's inode and its offset. *)
Fixpoint dirlookup_loop (fuel : nat) (dp : nat) (name : list Z) (off : Z) : K (option (nat * Z)) :=
  match fuel with
  | O => nofuel
  | S fuel =>
    x ← get_inode dp;
    if off <? i_size x then
      r ← readi dp D_local off sizeof_dirent;
      when (negb (r.1 =? sizeof_dirent)) (panic "dirlookup read") ;;
      let de := dirent_read r.2 in
      if de_inum de =? 0 then dirlookup_loop fuel dp name (u32 (off + sizeof_dirent))
      else if namecmp name (de_name de) =? 0 then
        x ← get_inode dp;
        ip ← iget (i_dev x) (de_inum de);
        mret (Some (ip, off))
      else dirlookup_loop fuel dp name (u32 (off + sizeof_dirent))
    else mret None
  end.

Definition dirlookup (dp : nat) (name : list Z) : K (option (nat * Z)) :=
  x ← get_inode dp;
  when (negb (i_type x =? T_DIR)) (panic "dirlookup not DIR") ;;
  dirlookup_loop (Z.to_nat (i_size x / sizeof_dirent) + 2) dp name 0.

(** The offset of the first empty entry, or the end. *)
Fixpoint dirlink_find (fuel : nat) (dp : nat) (off : Z) : K Z :=
  match fuel with
  | O => nofuel
  | S fuel =>
    x ← get_inode dp;
    if off <? i_size x then
      r ← readi dp D_local off sizeof_dirent;
      when (negb (r.1 =? sizeof_dirent)) (panic "dirlink read") ;;
      if de_inum (dirent_read r.2) =? 0 then mret off
      else dirlink_find fuel dp (off + sizeof_dirent)
    else mret off
  end.

Definition dirlink (dp : nat) (name : list Z) (inum : Z) : K Z :=
  found ← dirlookup dp name;
  match found with
  | Some (ip, _) => iput ip ;; mret (-1)
  | None =>
    x ← get_inode dp;
    off ← dirlink_find (Z.to_nat (i_size x / sizeof_dirent) + 2) dp 0;
    let de := Dirent (u16 inum) (strncpy_l DIRSIZ name) in
    r ← writei dp (S_local (dirent_write de)) off sizeof_dirent;
    if r =? sizeof_dirent then mret 0 else mret (-1)
  end.

(** ** Paths *)

Definition slash : Z := 47.

Fixpoint skip_slashes (path : list Z) : list Z :=
  match path with
  | c :: l => if c =? slash then skip_slashes l else path
  | [] => []
  end.

Fixpoint take_elem (path : list Z) : list Z * list Z :=
  match path with
  | c :: l => if c =? slash then ([], path) else let '(s, r) := take_elem l in (c :: s, r)
  | [] => ([], [])
  end.

(** The rest of the path, and the array [name] after it. *)
Definition skipelem (path name : list Z) : option (list Z * list Z) :=
  let path := skip_slashes path in
  match path with
  | [] => None
  | _ =>
    let '(s, path) := take_elem path in
    let name := if (DIRSIZ <=? length s)%nat then take DIRSIZ s ++ drop DIRSIZ name
                else s ++ [0] ++ drop (S (length s)) name in
    Some (skip_slashes path, name)
  end.

Fixpoint namex_loop (fuel : nat) (ip : nat) (path : list Z) (nameiparent : bool) (name : list Z)
  : K (option (nat * list Z)) :=
  match fuel with
  | O => nofuel
  | S fuel =>
    match skipelem path name with
    | None =>
      if nameiparent then iput ip ;; mret None
      else mret (Some (ip, name))
    | Some (path, name) =>
      ilock (Some ip) ;;
      x ← get_inode ip;
      if negb (i_type x =? T_DIR) then iunlockput (Some ip) ;; mret None
      else if nameiparent && bool_decide (path = []) then
        iunlock (Some ip) ;; mret (Some (ip, name))
      else
        next ← dirlookup ip name;
        match next with
        | None => iunlockput (Some ip) ;; mret None
        | Some (next, _) =>
          iunlockput (Some ip) ;;
          namex_loop fuel next path nameiparent name
        end
    end
  end.

Definition namex (path : list Z) (nameiparent : bool) (name : list Z) : K (option (nat * list Z)) :=
  ip ← (if default 0 (hd_error path) =? slash then iget ROOTDEV ROOTINO
        else i ← curproc; p ← get_proc i; ip ← deref (p_cwd p); idup ip);
  namex_loop (S (length path)) ip path nameiparent name.

(** The content the local array [name] starts with is not read. *)
Definition namei (path : list Z) : K (option nat) :=
  r ← namex path false (replicate DIRSIZ 0);
  mret (fst <$> r).

Definition nameiparent (path name : list Z) : K (option (nat * list Z)) :=
  namex path true name.

End fs.

Lemma bpb_fuel_eq : bpb_fuel = S (Z.to_nat BPB).
Proof. done. Qed.

#[global] Opaque bpb_fuel.
