(* ===== verification/FsSpec.v ===== *)
(** A transaction as the file system sees it: blocks that can be read, replaced
    and released, with the bookkeeping of the cache and the log out of sight. *)

From stdpp Require Import functions.
From S2P Require Import Prelude Machine KState Blocks Spinlock Kalloc Proc ProcSpec Sleeplock Bio BioList BioSpec Log LogSpec Fs.

(** A state with other buffers, another log record and other inodes. *)
Definition fsw (bs : list buf) (l : log) (ins : list inode) (s : kst) : kst :=
  set_fs (Fst bs (fs_disk (k_fs s)) (fs_writes (k_fs s)) l (fs_sb (k_fs s)) ins) s.

Lemma fsw_id s : fsw (fs_bufs (k_fs s)) (fs_log (k_fs s)) (fs_inodes (k_fs s)) s = s.
Proof. by destruct s as [? ? ? ? [] ? ? ?]. Qed.

(** The number of blocks a transaction may log here: it leaves buffers for
    three to be held. *)
Definition tx_cap : nat := 26.

Section fsx.
Context (me : nat) (pid dev start lsize out : Z).
Notation bc := (bc me pid dev).

(** A transaction has logged the blocks [X]; the blocks have the contents [L];
    [H] gives the buffers the process holds. *)
Record fsx (X : gset Z) (L : Z -> list Z) (H : gmap nat Z) (s : kst) : Prop := {
  fx_view : exists bl D, bc (BView L H X D) s /\ D ⊆ X /\ NoDup bl /\ list_to_set bl = X /\
    log_is dev start lsize out 0 bl (fs_log (k_fs s));
  fx_home : forall n, n ∈ X -> 0 <= n < 2147483648 /\ ~ in_log start lsize n;
  fx_room : (size X <= tx_cap)%nat;
  fx_geo : 0 <= start /\ start + lsize < 2147483648 /\ Z.of_nat tx_cap < lsize - 1;
  fx_out : 1 <= out }.

Lemma fsx_ctx X L H s : fsx X L H s -> fctx me pid s.
Proof. intros [(bl & D & Hbc & _) _ _ _ _]. by apply (bc_ctx _ _ _ _ _ Hbc). Qed.

(** The state determines the blocks. *)
Lemma fsx_blocks X L X' L' s : fsx X L ∅ s -> fsx X' L' ∅ s -> forall n, L n = L' n.
Proof.
  assert (Hw : forall X L s n, fsx X L ∅ s -> forall i x, (i < NBUF)%nat -> fs_bufs (k_fs s) !! i = Some x ->
    b_dev x = dev -> b_blockno x = n -> L n = b_data x).
  { intros Y K t n [(bl & D & Hbc & _) _ _ _ _] i x Hi Hx Hd <-. symmetry.
    by apply (bo_data _ _ _ _ _ (bk_buf _ _ _ _ (bc_bufs _ _ _ _ _ Hbc) i x Hi Hx)). }
  assert (Hd : forall X L s n, fsx X L ∅ s -> L n = disk_block (fs_disk (k_fs s)) n \/ cached dev (fs_bufs (k_fs s)) n).
  { intros Y K t n [(bl & D & Hbc & _) _ _ _ _]. destruct (decide (n ∈ D)) as [Hn|Hn].
    - right. destruct (bc_dirty _ _ _ _ _ Hbc n Hn) as [[i Hi]|Hp]; [done|]. by apply (bk_pins _ _ _ _ (bc_bufs _ _ _ _ _ Hbc)).
    - left. by apply (bc_clean _ _ _ _ _ Hbc). }
  intros H1 H2 n. destruct (Hd _ _ _ n H1) as [E1|(i & x & Hi & Hx & Hxd & Hxn)].
  - destruct (Hd _ _ _ n H2) as [E2|(i & x & Hi & Hx & Hxd & Hxn)]; [congruence|].
    by rewrite (Hw _ _ _ _ H1 i x), (Hw _ _ _ _ H2 i x).
  - by rewrite (Hw _ _ _ _ H1 i x), (Hw _ _ _ _ H2 i x).
Qed.

Lemma fsx_len X L H s n : fsx X L H s -> length (L n) = Z.to_nat BSIZE.
Proof. intros [(bl & D & Hbc & _) _ _ _ _]. exact (view_len _ _ _ (BView L H X D) s n Hbc). Qed.

Lemma fsx_held X L H s b n :
  fsx X L H s -> H !! b = Some n ->
  exists x, fs_bufs (k_fs s) !! b = Some x /\ b_dev x = dev /\ b_blockno x = n /\ b_data x = L n.
Proof.
  intros [(bl & D & Hbc & _) _ _ _ _] Hb.
  destruct (held_buf _ _ _ _ _ _ _ Hbc Hb) as (x & _ & Hx & Hd & Hn & Hdat & _). eauto.
Qed.

(** It depends on the harts, the processes, the cache, the disk and the log. *)
Lemma fsx_ext X L H s s' :
  k_hw s' = k_hw s -> k_ps s' = k_ps s -> fs_bufs (k_fs s') = fs_bufs (k_fs s) ->
  fs_disk (k_fs s') = fs_disk (k_fs s) -> fs_log (k_fs s') = fs_log (k_fs s) ->
  fsx X L H s -> fsx X L H s'.
Proof.
  intros E1 E2 E3 E4 E5 [(bl & D & [A B C F G] & Hrest) H2 H3 H4 H5]. split; try done.
  exists bl, D. rewrite E5. split; [|done]. split; rewrite ?E3, ?E4; try done. by eapply fctx_ext.
Qed.

Lemma fsx_L X L L' H s : (forall n, L' n = L n) -> fsx X L H s -> fsx X L' H s.
Proof.
  intros HL [(bl & D & Hbc & Hrest) H2 H3 H4 H5]. split; try done. exists bl, D. split; [|done].
  by eapply bc_ext; [| | | |exact Hbc].
Qed.

Context {DD : DiskDriver}.

Lemma fsx_bread X L H s n e Q :
  fsx X L H s -> (forall i, H !! i <> Some n) -> (size H <= 2)%nat ->
  (forall b bs l, H !! b = None -> fsx X L (<[b := n]> H) (fsw bs l (fs_inodes (k_fs s)) s) ->
     Q b e (fsw bs l (fs_inodes (k_fs s)) s)) ->
  wp (bread dev n) e s Q.
Proof.
  intros [(bl & D & Hbc & Hd & Hnd & HX & Hl) H2 H3 H4 H5] Hn Hsz HQ.
  eapply bread_wp; [exact Hbc|done|right; simpl; unfold tx_cap, NBUF in *; lia|].
  intros b bs Hfree Hbc'. apply (HQ b bs (fs_log (k_fs s)) Hfree).
  split; try done. exists bl, D. split_and!; [exact Hbc'|done..].
Qed.

Lemma fsx_brelse X L H s b n e Q :
  fsx X L H s -> H !! b = Some n ->
  (forall bs l, fsx X L (delete b H) (fsw bs l (fs_inodes (k_fs s)) s) -> Q tt e (fsw bs l (fs_inodes (k_fs s)) s)) ->
  wp (brelse b) e s Q.
Proof.
  intros [(bl & D & Hbc & Hd & Hnd & HX & Hl) H2 H3 H4 H5] Hb HQ.
  eapply brelse_wp; [exact Hbc|exact Hb|simpl; set_solver|].
  intros bs Hbc'. apply (HQ bs (fs_log (k_fs s))).
  split; try done. exists bl, D. split_and!; [exact Hbc'|done..].
Qed.

Lemma size_list_to_set_eq (bl : list Z) (X : gset Z) :
  NoDup bl -> list_to_set bl = X -> size X = length bl.
Proof. intros Hnd <-. by apply size_list_to_set. Qed.

(** Replacing the content of a block and logging it. *)
Lemma fsx_write {A} X L H s b n d (k : K A) e Q :
  fsx X L H s -> H !! b = Some n -> length d = Z.to_nat BSIZE ->
  0 <= n < 2147483648 -> ~ in_log start lsize n -> (size (X ∪ {[n]}) <= tx_cap)%nat ->
  (forall bs l, fsx (X ∪ {[n]}) (<[n := d]> L) H (fsw bs l (fs_inodes (k_fs s)) s) ->
     wp k e (fsw bs l (fs_inodes (k_fs s)) s) Q) ->
  wp (upd_buf b (b_set_data d) ;; log_write b ;; k) e s Q.
Proof.
  intros [(bl & D & Hbc & Hd & Hnd & HX & Hl) H2 H3 (G1 & G2 & G3) H5] Hb Hlen Hn Hnl Hsz HQ.
  destruct (held_buf _ _ _ _ _ _ _ Hbc Hb) as (x & _ & Hx & _).
  apply wp_seq. eapply wp_run; [apply upd_buf_run; by exists x|].
  pose proof (bc_edit _ _ _ _ _ _ _ d Hbc Hb Hlen) as Hbc2.
  pose proof (size_list_to_set_eq _ _ Hnd HX) as Hs. unfold tx_cap in *.
  apply wp_seq. eapply log_write_wp; [exact Hbc2|exact Hb|simpl; by rewrite HX|exact Hl|done|done| |unfold LOGSIZE, MAXOPBLOCKS; lia|lia|].
  { intros m Hm. apply H2. rewrite <- HX. by apply elem_of_list_to_set. }
  intros bs l Hl' Hbc3. simpl in Hbc3.
  assert (HX' : list_to_set (logged_blocks n bl) = X ∪ {[n]}).
  { unfold logged_blocks. case_decide as Hin; rewrite ?list_to_set_app_L, HX; [|by rewrite list_to_set_singleton_L || (simpl; rewrite union_empty_r_L)].
    apply leibniz_equiv. rewrite <- HX. rewrite <- (elem_of_list_to_set (C := gset Z)) in Hin. set_solver. }
  rewrite HX' in Hbc3. apply (HQ bs l). split; try done.
  - exists (logged_blocks n bl), (D ∪ {[n]}). split_and!; [exact Hbc3|set_solver| |done|exact Hl'].
    unfold logged_blocks. case_decide; [done|]. apply NoDup_app. split_and!; [done|set_solver|apply NoDup_singleton].
  - intros m [Hm|Hm]%elem_of_union; [by apply H2|]. apply elem_of_singleton in Hm as ->. done.
Qed.

(** The same at the end of a block. *)
Lemma fsx_write_last X L H s b n d e Q :
  fsx X L H s -> H !! b = Some n -> length d = Z.to_nat BSIZE ->
  0 <= n < 2147483648 -> ~ in_log start lsize n -> (size (X ∪ {[n]}) <= tx_cap)%nat ->
  (forall bs l, fsx (X ∪ {[n]}) (<[n := d]> L) H (fsw bs l (fs_inodes (k_fs s)) s) ->
     Q tt e (fsw bs l (fs_inodes (k_fs s)) s)) ->
  wp (upd_buf b (b_set_data d) ;; log_write b) e s Q.
Proof.
  intros Hx Hb Hlen Hn Hnl Hsz HQ.
  assert (Hw : wp (upd_buf b (b_set_data d) ;; log_write b ;; mret tt) e s Q) by (by eapply fsx_write).
  unfold wp, mbind, K_bind in *. destruct (upd_buf b _ e s) as [? e1 s1| | | |]; try done.
  by destruct (log_write b e1 s1) as [[] ? ?| | | |].
Qed.

(** Word [off] of a held block, read and logged. *)
Lemma fsx_get32 X L H s b n off e Q :
  fsx X L H s -> H !! b = Some n -> off + 4 <= BSIZE -> Q (get32 off (L n)) e s -> wp (buf_get32 b off) e s Q.
Proof.
  intros Hx Hb Ho HQ. destruct (fsx_held _ _ _ _ _ _ Hx Hb) as (x & Hxb & _ & _ & Hdat).
  unfold buf_get32. apply wp_bind. eapply wp_run; [by apply get_buf_run|].
  rewrite Hdat, (fsx_len _ _ _ _ n Hx). by rewrite (proj2 (Z.leb_le _ _)) by (unfold BSIZE in *; lia).
Qed.

Lemma fsx_put32 X L H s b n off v e Q :
  fsx X L H s -> H !! b = Some n -> 0 <= off -> off + 4 <= BSIZE ->
  0 <= n < 2147483648 -> ~ in_log start lsize n -> (size (X ∪ {[n]}) <= tx_cap)%nat ->
  (forall bs l, fsx (X ∪ {[n]}) (<[n := put32 off v (L n)]> L) H (fsw bs l (fs_inodes (k_fs s)) s) ->
     Q tt e (fsw bs l (fs_inodes (k_fs s)) s)) ->
  wp (buf_put32 b off v ;; log_write b) e s Q.
Proof.
  intros Hx Hb Ho Ho' Hn Hnl Hsz HQ. destruct (fsx_held _ _ _ _ _ _ Hx Hb) as (x & Hxb & _ & _ & Hdat).
  pose proof (fsx_len _ _ _ _ n Hx) as Hlen. unfold BSIZE in *.
  assert (Hw : wp (upd_buf b (b_set_data (put32 off v (L n))) ;; log_write b) e s Q).
  { eapply fsx_write_last; [exact Hx|exact Hb| |done..]. rewrite length_put32; [done|lia|rewrite Hlen; lia]. }
  unfold buf_put32, wp, mbind, K_bind in *. erewrite get_buf_run by done.
  rewrite Hdat, Hlen. by rewrite (proj2 (Z.leb_le _ _)) by lia.
Qed.

End fsx.
