(* ===== verification/FsAlloc.v ===== *)
(** fs.c: the block allocator, as a set of blocks in use. *)

From stdpp Require Import functions.
From S2P Require Import Prelude Machine KState Blocks Spinlock Kalloc Proc ProcSpec Sleeplock Bio BioList BioSpec Log LogSpec Fs FsSpec.

(** ** Bits *)

Lemma land_mask x bi : Z.land x (bit_mask bi) = 0 <-> Z.testbit x (bi mod 8) = false.
Proof.
  unfold bit_mask. assert (Hb : 0 <= bi mod 8 < 8) by (apply Z.mod_pos_bound; lia).
  rewrite Z.shiftl_1_l. split; intros E.
  - assert (Ht : Z.testbit (Z.land x (2 ^ (bi mod 8))) (bi mod 8) = false) by (rewrite E; apply Z.bits_0).
    rewrite Z.land_spec, Z.pow2_bits_true, andb_true_r in Ht by lia. done.
  - apply Z.bits_inj_iff. intros i. rewrite Z.land_spec, Z.bits_0.
    destruct (Z.eqb_spec (bi mod 8) i) as [<-|Hne]; [by rewrite E|].
    rewrite Z.pow2_bits_false by lia. apply andb_false_r.
Qed.

Lemma testbit_set x bi j : 0 <= j ->
  Z.testbit (Z.lor x (bit_mask bi)) j = Z.testbit x j || (j =? bi mod 8).
Proof.
  intros Hj. unfold bit_mask. assert (0 <= bi mod 8 < 8) by (apply Z.mod_pos_bound; lia).
  rewrite Z.shiftl_1_l, Z.lor_spec. f_equal.
  destruct (Z.eqb_spec j (bi mod 8)) as [->|]; [apply Z.pow2_bits_true; lia|]. apply Z.pow2_bits_false. lia.
Qed.

Lemma testbit_clear x bi j : 0 <= j < 8 ->
  Z.testbit (u8 (Z.land x (Z.lnot (bit_mask bi)))) j = Z.testbit x j && negb (j =? bi mod 8).
Proof.
  intros Hj. unfold bit_mask, u8. assert (0 <= bi mod 8 < 8) by (apply Z.mod_pos_bound; lia).
  rewrite Z.mod_pow2_bits_low by lia. rewrite Z.shiftl_1_l, Z.land_spec, Z.lnot_spec by lia. do 2 f_equal.
  destruct (Z.eqb_spec j (bi mod 8)) as [->|]; [apply Z.pow2_bits_true; lia|]. apply Z.pow2_bits_false. lia.
Qed.

(** ** The bitmap *)

(** Bit [bi] of a bitmap block. *)
Definition bit_at (bi : Z) (d : list Z) : bool := Z.testbit (bit_byte bi d) (bi mod 8).

(** Block [b] is marked in use. *)
Definition used (sb : superblock) (L : Z -> list Z) (b : Z) : bool := bit_at (b mod BPB) (L (BBLOCK b sb)).

(** The bits of a block, one of them replaced. *)
Lemma bit_at_put bi v d bj :
  0 <= bi < BPB -> 0 <= bj < BPB -> length d = Z.to_nat BSIZE ->
  bit_at bj (bit_put bi v d) = if decide (bi / 8 = bj / 8) then Z.testbit v (bj mod 8) else bit_at bj d.
Proof.
  intros Hi Hj Hd. unfold bit_at, bit_byte, bit_put. unfold BPB, BSIZE in *. case_decide as E.
  - rewrite E, list_lookup_insert_eq; [done|]. rewrite Hd.
    assert (bj / 8 < 1024) by (apply Z.div_lt_upper_bound; lia). assert (0 <= bj / 8) by (apply Z.div_pos; lia). lia.
  - rewrite list_lookup_insert_ne; [done|]. assert (0 <= bi / 8) by (apply Z.div_pos; lia).
    assert (0 <= bj / 8) by (apply Z.div_pos; lia). lia.
Qed.

Lemma bit_set bi d bj :
  0 <= bi < BPB -> 0 <= bj < BPB -> length d = Z.to_nat BSIZE ->
  bit_at bj (bit_put bi (Z.lor (bit_byte bi d) (bit_mask bi)) d) = bit_at bj d || (bj =? bi).
Proof.
  intros Hi Hj Hd. rewrite bit_at_put by done. case_decide as E.
  - rewrite testbit_set by (apply Z.mod_pos_bound; lia). unfold bit_at, bit_byte. rewrite E. f_equal.
    pose proof (Z.div_mod bi 8). pose proof (Z.div_mod bj 8). lia.
  - destruct (Z.eqb_spec bj bi) as [->|]; [done|]. by rewrite orb_false_r.
Qed.

Lemma bit_clear bi d bj :
  0 <= bi < BPB -> 0 <= bj < BPB -> length d = Z.to_nat BSIZE ->
  bit_at bj (bit_put bi (u8 (Z.land (bit_byte bi d) (Z.lnot (bit_mask bi)))) d) = bit_at bj d && negb (bj =? bi).
Proof.
  intros Hi Hj Hd. rewrite bit_at_put by done. case_decide as E.
  - rewrite testbit_clear by (apply Z.mod_pos_bound; lia). unfold bit_at, bit_byte. rewrite E. do 2 f_equal.
    pose proof (Z.div_mod bi 8). pose proof (Z.div_mod bj 8). lia.
  - destruct (Z.eqb_spec bj bi) as [->|]; [done|]. by rewrite andb_true_r.
Qed.

Lemma length_bit_put bi v d : length (bit_put bi v d) = length d.
Proof. apply length_insert. Qed.

(** The scan of balloc finds the first clear bit. *)
Lemma balloc_scan_spec fuel bi b size d :
  0 <= bi -> (Z.to_nat (BPB - bi) < fuel)%nat ->
  match balloc_scan fuel bi b size d with
  | Some k => bi <= k < BPB /\ b + k < size /\ bit_at k d = false /\
      forall j, bi <= j < k -> bit_at j d = true
  | None => forall j, bi <= j < BPB -> b + j < size -> bit_at j d = true
  end.
Proof.
  revert bi. induction fuel as [|fuel IH]; intros bi Hbi Hf; [lia|]. cbn [balloc_scan].
  destruct (Z.ltb_spec bi BPB) as [Hlt|Hge]; simpl; [|intros j Hj; lia].
  destruct (Z.ltb_spec (b + bi) size) as [Hs|Hs]; [|intros j Hj; lia].
  destruct (Z.eqb_spec (Z.land (bit_byte bi d) (bit_mask bi)) 0) as [E|E].
  - apply land_mask in E. split_and!; [lia|lia|done|done|intros; lia].
  - assert (Hb : bit_at bi d = true).
    { apply not_false_iff_true. intros Hb. by apply E, land_mask. }
    specialize (IH (bi + 1)). destruct (balloc_scan fuel (bi + 1) b size d) as [k|].
    + destruct IH as (H1 & H2 & H3 & H4); [lia|lia|]. split_and!; [lia|lia|done|done|].
      intros j Hj. destruct (decide (j = bi)) as [->|]; [done|]. apply H4. lia.
    + intros j Hj Hjs. destruct (decide (j = bi)) as [->|]; [done|]. apply IH; lia.
Qed.

Lemma size_add_one (X : gset Z) n : (size (X ∪ {[n]}) <= S (size X))%nat.
Proof.
  rewrite size_union_alt. assert (size ({[n]} ∖ X : gset Z) <= size ({[n]} : gset Z))%nat as Hs by (apply subseteq_size; set_solver).
  rewrite size_singleton in Hs. lia.
Qed.

(** ** The layout of the disk *)

Section geometry.
Context (start lsize : Z) (sb : superblock).

(** The super block describes: log, inodes, bitmap, data, in this order. *)
Record sb_ok : Prop := {
  so_size : 0 < sb_size sb < 2147483648;
  so_log : 0 <= start /\ 0 <= lsize /\ start + lsize <= sb_inodestart sb;
  so_ino : 0 <= sb_ninodes sb /\ sb_inodestart sb + sb_ninodes sb / IPB + 1 <= sb_bmapstart sb;
  so_bmap : sb_bmapstart sb + sb_size sb / BPB + 1 <= sb_size sb }.

(** The first data block. *)
Definition dstart : Z := sb_bmapstart sb + sb_size sb / BPB + 1.

Context (Hsb : sb_ok).

Lemma BBLOCK_eq b : 0 <= b < sb_size sb -> BBLOCK b sb = b / BPB + sb_bmapstart sb.
Proof.
  intros Hb. destruct Hsb as [S1 S2 S3 S4]. unfold BBLOCK. apply u32_small.
  assert (0 <= b / BPB <= sb_size sb / BPB).
  { split; [apply Z.div_pos; unfold BPB, BSIZE; lia|]. apply Z.div_le_mono; unfold BPB, BSIZE; lia. }
  assert (0 <= sb_ninodes sb / IPB) by (apply Z.div_pos; [lia|done]). lia.
Qed.

Lemma BBLOCK_range b : 0 <= b < sb_size sb -> sb_bmapstart sb <= BBLOCK b sb < dstart.
Proof.
  intros Hb. rewrite BBLOCK_eq by done. unfold dstart.
  assert (0 <= b / BPB <= sb_size sb / BPB).
  { split; [apply Z.div_pos; unfold BPB, BSIZE; lia|]. apply Z.div_le_mono; unfold BPB, BSIZE; lia. }
  lia.
Qed.

Lemma meta_below n : sb_inodestart sb <= n < dstart -> 0 <= n < 2147483648 /\ ~ in_log start lsize n /\ n < sb_size sb.
Proof. destruct Hsb as [S1 S2 S3 S4]. unfold dstart, in_log in *. lia. Qed.

Lemma bmap_above b : 0 <= b < sb_size sb -> sb_inodestart sb <= BBLOCK b sb < dstart.
Proof.
  intros Hb. pose proof (BBLOCK_range b Hb). destruct Hsb as [S1 S2 S3 S4].
  assert (0 <= sb_ninodes sb / IPB) by (apply Z.div_pos; [lia|done]). lia.
Qed.

Lemma data_block n : dstart <= n < sb_size sb -> 0 <= n < 2147483648 /\ ~ in_log start lsize n.
Proof.
  destruct Hsb as [S1 S2 S3 S4]. unfold dstart, in_log in *.
  assert (0 <= sb_ninodes sb / IPB) by (apply Z.div_pos; [lia|done]).
  assert (0 <= sb_size sb / BPB) by (apply Z.div_pos; unfold BPB, BSIZE; lia). lia.
Qed.

(** A block and its bit: [b] is a multiple of BPB. *)
Lemma BBLOCK_add j bi : 0 <= bi < BPB -> BBLOCK (BPB * j + bi) sb = BBLOCK (BPB * j) sb.
Proof.
  intros Hb. unfold BBLOCK. do 2 f_equal. rewrite (Z.mul_comm BPB j), Z.div_add_l, Z.div_mul by (unfold BPB, BSIZE; lia).
  rewrite Z.div_small by done. lia.
Qed.

Lemma mod_add j bi : 0 <= bi < BPB -> (BPB * j + bi) mod BPB = bi.
Proof. intros Hb. rewrite Z.add_comm, (Z.mul_comm BPB j), Z.mod_add by (unfold BPB, BSIZE; lia). by apply Z.mod_small. Qed.

Lemma used_add L j bi : 0 <= bi < BPB -> used sb L (BPB * j + bi) = bit_at bi (L (BBLOCK (BPB * j) sb)).
Proof. intros Hb. unfold used. by rewrite mod_add, BBLOCK_add by done. Qed.

(** Blocks with a bit in the same bitmap block. *)
Lemma same_bblock b b' :
  0 <= b < sb_size sb -> 0 <= b' < sb_size sb -> BBLOCK b sb = BBLOCK b' sb -> b mod BPB = b' mod BPB -> b = b'.
Proof.
  intros Hb Hb'. rewrite !BBLOCK_eq by done. intros E1 E2.
  rewrite (Z.div_mod b BPB), (Z.div_mod b' BPB) by (unfold BPB, BSIZE; lia). rewrite E2. f_equal. f_equal. lia.
Qed.

Lemma mod_BPB b : 0 <= b mod BPB < BPB.
Proof. apply Z.mod_pos_bound. unfold BPB, BSIZE. lia. Qed.

(** The bitmap with the bit of one block set or cleared. *)
Definition mark (b : Z) (d : list Z) : list Z :=
  bit_put (b mod BPB) (Z.lor (bit_byte (b mod BPB) d) (bit_mask (b mod BPB))) d.
Definition unmark (b : Z) (d : list Z) : list Z :=
  bit_put (b mod BPB) (u8 (Z.land (bit_byte (b mod BPB) d) (Z.lnot (bit_mask (b mod BPB))))) d.

Lemma used_mark L b b' :
  0 <= b < sb_size sb -> 0 <= b' < sb_size sb -> (forall n, length (L n) = Z.to_nat BSIZE) ->
  used sb (<[BBLOCK b sb := mark b (L (BBLOCK b sb))]> L) b' = used sb L b' || (b' =? b).
Proof.
  intros Hb Hb' HL. unfold used. destruct (decide (BBLOCK b' sb = BBLOCK b sb)) as [E|E].
  - rewrite E, fn_lookup_insert. unfold mark. rewrite bit_set by (try apply mod_BPB; auto). f_equal.
    destruct (Z.eqb_spec b' b) as [->|Hne]; [by rewrite Z.eqb_refl|]. apply Z.eqb_neq. intros Em.
    by apply Hne, same_bblock.
  - rewrite fn_lookup_insert_ne by done. destruct (Z.eqb_spec b' b) as [->|]; [done|]. by rewrite orb_false_r.
Qed.

Lemma used_unmark L b b' :
  0 <= b < sb_size sb -> 0 <= b' < sb_size sb -> (forall n, length (L n) = Z.to_nat BSIZE) ->
  used sb (<[BBLOCK b sb := unmark b (L (BBLOCK b sb))]> L) b' = used sb L b' && negb (b' =? b).
Proof.
  intros Hb Hb' HL. unfold used. destruct (decide (BBLOCK b' sb = BBLOCK b sb)) as [E|E].
  - rewrite E, fn_lookup_insert. unfold unmark. rewrite bit_clear by (try apply mod_BPB; auto). do 2 f_equal.
    destruct (Z.eqb_spec b' b) as [->|Hne]; [by rewrite Z.eqb_refl|]. apply Z.eqb_neq. intros Em.
    by apply Hne, same_bblock.
  - rewrite fn_lookup_insert_ne by done. destruct (Z.eqb_spec b' b) as [->|]; [done|]. by rewrite andb_true_r.
Qed.

(** Other blocks do not matter to the bitmap. *)
Lemma used_insert L n d b : 0 <= b < sb_size sb -> dstart <= n \/ n < sb_bmapstart sb ->
  used sb (<[n := d]> L) b = used sb L b.
Proof.
  intros Hb Hn. unfold used. rewrite fn_lookup_insert_ne; [done|]. pose proof (BBLOCK_range b Hb). lia.
Qed.

End geometry.

(** ** balloc and bfree *)

Section alloc.
Context (me : nat) (pid dev start lsize out : Z) (DD : DiskDriver) (sb : superblock) (Hsb : sb_ok start lsize sb).
Notation fsx := (fsx me pid dev start lsize out).
Notation used := (used sb).
Notation dstart := (dstart sb).

(** What is before the data is in use. *)
Definition meta_used (L : Z -> list Z) : Prop := forall b, 0 <= b < dstart -> used L b = true.

(** The process holds no bitmap block and no free block. *)
Definition held_ok (L : Z -> list Z) (H : gmap nat Z) : Prop :=
  forall i n, H !! i = Some n -> 0 <= n < sb_size sb /\ used L n = true /\ ~ (sb_bmapstart sb <= n < dstart).

(** Room for one more block besides a bitmap block. *)
Definition room (X : gset Z) : Prop :=
  forall b, 0 <= b < sb_size sb -> (size (X ∪ {[BBLOCK b sb]}) < tx_cap)%nat.

(** The blocks after [b] was taken. *)
Definition allocated (L : Z -> list Z) (b : Z) : Z -> list Z :=
  <[b := replicate (Z.to_nat BSIZE) 0]> (<[BBLOCK b sb := mark b (L (BBLOCK b sb))]> L).

Lemma fsx_sb X L H s bs l ins : fsx X L H s -> fs_sb (k_fs s) = sb -> fs_sb (k_fs (fsw bs l ins s)) = sb.
Proof. done. Qed.

Lemma bzero_wp X L H s n e Q :
  fsx X L H s -> (forall i, H !! i <> Some n) -> (size H <= 2)%nat ->
  0 <= n < 2147483648 -> ~ in_log start lsize n -> (size (X ∪ {[n]}) <= tx_cap)%nat ->
  (forall bs l, fsx (X ∪ {[n]}) (<[n := replicate (Z.to_nat BSIZE) 0]> L) H (fsw bs l (fs_inodes (k_fs s)) s) ->
     Q tt e (fsw bs l (fs_inodes (k_fs s)) s)) ->
  wp (bzero dev n) e s Q.
Proof.
  intros Hx Hnh Hsz Hn Hnl Hroom HQ. unfold bzero. rewrite u32_small by lia.
  apply wp_bind. eapply fsx_bread; [exact Hx|done|done|]. intros b bs l Hfree Hx1.
  eapply fsx_write; [exact Hx1|apply lookup_insert_eq|apply length_replicate|done..|].
  intros bs2 l2 Hx2. eapply fsx_brelse; [exact Hx2|apply lookup_insert_eq|].
  intros bs3 l3 Hx3. apply HQ. by rewrite delete_insert_id in Hx3.
Qed.

Lemma balloc_loop_wp fuel X L H s j e Q :
  fsx X L H s -> fs_sb (k_fs s) = sb -> meta_used L -> held_ok L H -> (size H <= 2)%nat -> room X ->
  0 <= j -> (Z.to_nat (sb_size sb / BPB + 1 - j) < fuel)%nat ->
  (forall b, 0 <= b < BPB * j -> b < sb_size sb -> used L b = true) ->
  (forall bs l, (forall b, 0 <= b < sb_size sb -> used L b = true) ->
     fsx X L H (fsw bs l (fs_inodes (k_fs s)) s) ->
     Q 0 e (set_out (k_out s ++ ["balloc: out of blocks"]) (fsw bs l (fs_inodes (k_fs s)) s))) ->
  (forall b bs l, dstart <= b < sb_size sb -> used L b = false ->
     (forall b', 0 <= b' < b -> used L b' = true) ->
     fsx (X ∪ {[BBLOCK b sb]} ∪ {[b]}) (allocated L b) H (fsw bs l (fs_inodes (k_fs s)) s) ->
     Q b e (fsw bs l (fs_inodes (k_fs s)) s)) ->
  wp (balloc_loop fuel dev (BPB * j)) e s Q.
Proof.
  intros Hx Es Hmeta Hheld Hsz Hroom Hj Hf Hlow HQ0 HQ1. revert s j Hx Es Hj Hf Hlow HQ0 HQ1.
  induction fuel as [|fuel IH]; intros s j Hx Es Hj Hf Hlow HQ0 HQ1; [lia|]. cbn [balloc_loop].
  assert (HB : BPB = 8192) by done. assert (Hdiv : 0 <= sb_size sb / BPB) by (apply Z.div_pos; destruct Hsb; lia).
  apply wp_bind, wp_gets. rewrite Es. destruct (Z.ltb_spec (BPB * j) (sb_size sb)) as [Hlt|Hge].
  2:{ apply wp_seq. unfold printf. apply wp_modk. apply wp_ret.
      specialize (HQ0 (fs_bufs (k_fs s)) (fs_log (k_fs s))). rewrite fsw_id in HQ0. apply HQ0; [|done].
      intros b Hb. apply Hlow; lia. }
  assert (Hjr : 0 <= BPB * j < sb_size sb) by lia.
  pose proof (bmap_above _ _ _ Hsb _ Hjr) as Hbm. pose proof (BBLOCK_range _ _ _ Hsb _ Hjr) as Hbr.
  destruct (meta_below _ _ _ Hsb _ Hbm) as (Hb31 & Hbl & _).
  set (nb := BBLOCK (BPB * j) sb) in *.
  assert (Hnh : forall i, H !! i <> Some nb) by (intros i Hi; destruct (Hheld i nb Hi) as (_ & _ & Hn); by apply Hn).
  apply wp_bind. eapply fsx_bread; [exact Hx|done|done|]. intros bp bs l Hfree Hx1.
  destruct (fsx_held _ _ _ _ _ _ _ _ _ _ _ _ Hx1 (lookup_insert_eq _ _ _)) as (x & Hxb & _ & _ & Hdat).
  apply wp_bind. eapply wp_run; [by apply get_buf_run|]. rewrite Hdat.
  pose proof (balloc_scan_spec bpb_fuel 0 (BPB * j) (sb_size sb) (L nb)) as Hscan.
  assert (Hfuel : (Z.to_nat (BPB - 0) < bpb_fuel)%nat) by (rewrite bpb_fuel_eq; lia).
  specialize (Hscan ltac:(lia) Hfuel). destruct (balloc_scan _ _ _ _ _) as [bi|].
  - destruct Hscan as (Hbi & Hbs & Hfr & Hbefore). set (b := BPB * j + bi) in *.
    assert (Hub : used L b = false) by (unfold b; by rewrite used_add).
    assert (Hbd : dstart <= b < sb_size sb).
    { split; [|lia]. destruct (Z_lt_le_dec b dstart) as [Hb|]; [|done]. by rewrite (Hmeta b) in Hub by lia. }
    assert (Eb : BBLOCK b sb = nb) by (by apply BBLOCK_add).
    assert (Emod : b mod BPB = bi) by (by apply mod_add).
    destruct (data_block _ _ _ Hsb _ Hbd) as [Hb32 Hbl'].
    assert (Hsz1 : (size (X ∪ {[nb]}) < tx_cap)%nat) by (by apply Hroom).
    assert (Hsz2 : (size (X ∪ {[nb]} ∪ {[b]}) <= tx_cap)%nat).
    { pose proof (size_add_one (X ∪ {[nb]}) b). lia. }
    eapply fsx_write; [exact Hx1|apply lookup_insert_eq| |done|done|lia|].
    { rewrite length_bit_put. by eapply fsx_len. }
    intros bs2 l2 Hx2. apply wp_seq. eapply fsx_brelse; [exact Hx2|apply lookup_insert_eq|].
    intros bs3 l3 Hx3. rewrite delete_insert_id in Hx3 by done. apply wp_seq.
    eapply bzero_wp; [exact Hx3| |done|done|done|done|].
    { intros i Hi. destruct (Hheld i b Hi) as (_ & Hu & _). congruence. }
    intros bs4 l4 Hx4. apply wp_ret. apply HQ1; [done|done| |].
    + intros b' Hb'. destruct (decide (b' < BPB * j)); [apply Hlow; lia|].
      replace b' with (BPB * j + (b' - BPB * j)) by lia. rewrite used_add by lia. apply Hbefore. lia.
    + unfold allocated, mark. rewrite Eb, Emod. exact Hx4.
  - apply wp_seq. eapply fsx_brelse; [exact Hx1|apply lookup_insert_eq|].
    intros bs2 l2 Hx2. rewrite delete_insert_id in Hx2 by done.
    replace (BPB * j + BPB) with (BPB * (j + 1)) by lia.
    apply IH; [exact Hx2|done|lia| | |done|done].
    + assert (j <= sb_size sb / BPB) by (apply Z.div_le_lower_bound; lia). lia.
    + intros b Hb Hbs. destruct (decide (b < BPB * j)); [apply Hlow; lia|].
      replace b with (BPB * j + (b - BPB * j)) by lia. rewrite used_add by lia. apply Hscan; lia.
Qed.

Lemma balloc_wp X L H s e Q :
  fsx X L H s -> fs_sb (k_fs s) = sb -> meta_used L -> held_ok L H -> (size H <= 2)%nat -> room X ->
  (forall bs l, (forall b, 0 <= b < sb_size sb -> used L b = true) ->
     fsx X L H (fsw bs l (fs_inodes (k_fs s)) s) ->
     Q 0 e (set_out (k_out s ++ ["balloc: out of blocks"]) (fsw bs l (fs_inodes (k_fs s)) s))) ->
  (forall b bs l, dstart <= b < sb_size sb -> used L b = false ->
     (forall b', 0 <= b' < b -> used L b' = true) ->
     fsx (X ∪ {[BBLOCK b sb]} ∪ {[b]}) (allocated L b) H (fsw bs l (fs_inodes (k_fs s)) s) ->
     Q b e (fsw bs l (fs_inodes (k_fs s)) s)) ->
  wp (balloc dev) e s Q.
Proof.
  intros Hx Es Hm Hh Hsz Hr HQ0 HQ1. unfold balloc. apply wp_bind, wp_gets. rewrite Es.
  change (balloc_loop (Z.to_nat (sb_size sb / BPB) + 2) dev 0) with (balloc_loop (Z.to_nat (sb_size sb / BPB) + 2) dev (BPB * 0)). eapply balloc_loop_wp; [exact Hx|done..|lia| |intros; lia|done|done].
  assert (0 <= sb_size sb / BPB) by (apply Z.div_pos; [destruct Hsb; lia|done]). lia.
Qed.

Lemma bfree_wp X L H s b e Q :
  fsx X L H s -> fs_sb (k_fs s) = sb -> held_ok L H -> (size H <= 2)%nat ->
  (size (X ∪ {[BBLOCK b sb]}) <= tx_cap)%nat -> 0 <= b < sb_size sb -> used L b = true ->
  (forall bs l, fsx (X ∪ {[BBLOCK b sb]}) (<[BBLOCK b sb := unmark b (L (BBLOCK b sb))]> L) H
     (fsw bs l (fs_inodes (k_fs s)) s) -> Q tt e (fsw bs l (fs_inodes (k_fs s)) s)) ->
  wp (bfree dev b) e s Q.
Proof.
  intros Hx Es Hheld Hsz Hroom Hb Hu HQ. unfold bfree. apply wp_bind, wp_gets. rewrite Es.
  pose proof (bmap_above _ _ _ Hsb _ Hb) as Hbm. pose proof (BBLOCK_range _ _ _ Hsb _ Hb) as Hbr.
  destruct (meta_below _ _ _ Hsb _ Hbm) as (Hb31 & Hbl & _).
  apply wp_bind. eapply fsx_bread; [exact Hx| |done|].
  { intros i Hi. destruct (Hheld _ _ Hi) as (_ & _ & Hn). by apply Hn. }
  intros bp bs l Hfree Hx1.
  destruct (fsx_held _ _ _ _ _ _ _ _ _ _ _ _ Hx1 (lookup_insert_eq _ _ _)) as (x & Hxb & _ & _ & Hdat).
  apply wp_bind. eapply wp_run; [by apply get_buf_run|]. rewrite Hdat.
  apply wp_seq. unfold when. destruct (Z.eqb_spec (Z.land (bit_byte (b mod BPB) (L (BBLOCK b sb))) (bit_mask (b mod BPB))) 0) as [E|E].
  { apply land_mask in E. unfold FsAlloc.used, bit_at in Hu. congruence. }
  apply wp_ret. eapply fsx_write; [exact Hx1|apply lookup_insert_eq| |done|done|done|].
  { rewrite length_bit_put. by eapply fsx_len. }
  intros bs2 l2 Hx2. eapply fsx_brelse; [exact Hx2|apply lookup_insert_eq|].
  intros bs3 l3 Hx3. rewrite delete_insert_id in Hx3 by done. apply HQ. exact Hx3.
Qed.

End alloc.
