(* ===== verification/FsFile.v ===== *)
(** fs.c: the content of a file through its block map. *)

From stdpp Require Import functions.
From S2P Require Import Prelude Machine KState Blocks Spinlock Kalloc Proc ProcSpec Sleeplock Bio BioList BioSpec Log LogSpec Fs FsSpec FsAlloc.

(** ** The block map of an inode *)

(** The block numbers an inode refers to: the thirteen of [addrs], then the
    entries of its indirect block. *)
Definition addr (x : inode) (k : Z) : Z := default 0 (i_addrs x !! Z.to_nat k).
Definition ind (x : inode) : Z := addr x NDIRECT.
Definition slot (L : Z -> list Z) (x : inode) (k : Z) : Z :=
  if k <? 13 then addr x k else if ind x =? 0 then 0 else get32 (4 * (k - 13)) (L (ind x)).
Definition nslots : Z := 13 + NINDIRECT.

(** The slot of the [bn]th block of the file. *)
Definition slot_of (bn : Z) : Z := if bn <? NDIRECT then bn else bn + 1.

(** A byte of the file; what was never written is zero. *)
Definition fbyte (L : Z -> list Z) (x : inode) (off : Z) : Z :=
  let a := slot L x (slot_of (off / BSIZE)) in
  if a =? 0 then 0 else default 0 (L a !! Z.to_nat (off mod BSIZE)).

Section file.
Context (start lsize : Z) (sb : superblock) (Hsb : sb_ok start lsize sb).
Notation used := (used sb).
Notation dstart := (dstart sb).
Notation meta_used := (meta_used sb).
Notation allocated := (allocated sb).

(** The map of a file: data blocks in use, no block twice. *)
Record map_ok (L : Z -> list Z) (x : inode) : Prop := {
  mo_len : length (i_addrs x) = 13%nat;
  mo_data : forall k, 0 <= k < nslots -> slot L x k <> 0 ->
    dstart <= slot L x k < sb_size sb /\ used L (slot L x k) = true;
  mo_inj : forall k k', 0 <= k < nslots -> 0 <= k' < nslots -> slot L x k <> 0 ->
    slot L x k = slot L x k' -> k = k' }.

(** [L'] and [x'] hold the same file as [L] and [x], with blocks added. *)
Record grows (L : Z -> list Z) (x : inode) (L' : Z -> list Z) (x' : inode) : Prop := {
  gw_ok : map_ok L' x';
  gw_meta : meta_used L';
  gw_byte : forall off, 0 <= off < MAXFILE * BSIZE -> fbyte L' x' off = fbyte L x off;
  gw_slot : forall k, 0 <= k < nslots -> slot L x k <> 0 -> slot L' x' k = slot L x k;
  gw_fresh : forall k, 0 <= k < nslots -> slot L' x' k <> slot L x k -> used L (slot L' x' k) = false;
  gw_frame : forall n, 0 <= n < sb_size sb -> used L n = true -> n < sb_bmapstart sb \/ dstart <= n ->
    n <> ind x -> L' n = L n;
  gw_used : forall n, 0 <= n < sb_size sb -> used L n = true -> used L' n = true;
  gw_same : x' = i_set_addrs (i_addrs x') x }.

Lemma dstart_pos : 0 < dstart.
Proof.
  destruct Hsb as [S1 S2 S3 S4]. unfold FsAlloc.dstart in *.
  assert (0 <= sb_ninodes sb / IPB) by (apply Z.div_pos; [lia|done]).
  assert (0 <= sb_size sb / BPB) by (apply Z.div_pos; [lia|done]). lia.
Qed.

Lemma grows_refl L x : map_ok L x -> meta_used L -> grows L x L x.
Proof. intros Hm Hu. split; try done. by destruct x. Qed.

Lemma slot_of_range bn : 0 <= bn < MAXFILE -> 0 <= slot_of bn < nslots /\ slot_of bn <> 12.
Proof. intros Hb. unfold slot_of, nslots, MAXFILE, NDIRECT, NINDIRECT in *. change (BSIZE / 4) with 256 in *. destruct (Z.ltb_spec bn 12); lia. Qed.

Lemma file_block o : 0 <= o < MAXFILE * BSIZE -> 0 <= o / BSIZE < MAXFILE.
Proof. intros Ho. split; [apply Z.div_pos; [lia|done]|]. apply Z.div_lt_upper_bound; [done|]. lia. Qed.

Lemma slot_of_inj bn bn' : slot_of bn = slot_of bn' -> bn = bn'.
Proof. unfold slot_of, NDIRECT. destruct (Z.ltb_spec bn 12), (Z.ltb_spec bn' 12); lia. Qed.

(** ** A fresh block *)

Section fresh.
Context (L : Z -> list Z) (x : inode) (b : Z) (Hm : map_ok L x) (Hu : meta_used L).
Context (HL : forall n, length (L n) = Z.to_nat BSIZE).
Context (Hb : dstart <= b < sb_size sb) (Hf : used L b = false).

Lemma fresh_used n : 0 <= n < sb_size sb -> used (allocated L b) n = used L n || (n =? b).
Proof.
  intros Hn. pose proof dstart_pos. unfold FsAlloc.allocated. erewrite used_insert by (try done; lia).
  eapply used_mark; [exact Hsb|lia|done|done].
Qed.

Lemma fresh_frame n : n <> b -> n < sb_bmapstart sb \/ dstart <= n -> allocated L b n = L n.
Proof.
  intros Hn Hr. pose proof dstart_pos. unfold FsAlloc.allocated. rewrite fn_lookup_insert_ne by done.
  apply fn_lookup_insert_ne. pose proof (BBLOCK_range _ _ _ Hsb b ltac:(lia)). lia.
Qed.

Lemma fresh_zero : allocated L b b = replicate (Z.to_nat BSIZE) 0.
Proof. apply fn_lookup_insert. Qed.

Lemma fresh_len n : length (allocated L b n) = Z.to_nat BSIZE.
Proof.
  unfold FsAlloc.allocated. destruct (decide (n = b)) as [->|]; [rewrite fn_lookup_insert; apply length_replicate|].
  rewrite fn_lookup_insert_ne by done. destruct (decide (n = BBLOCK b sb)) as [->|].
  - rewrite fn_lookup_insert. unfold mark. by rewrite length_bit_put.
  - by rewrite fn_lookup_insert_ne.
Qed.

Lemma slot_not_fresh k : 0 <= k < nslots -> slot L x k <> 0 -> slot L x k <> b.
Proof. intros Hk Hs E. destruct (mo_data _ _ Hm k Hk Hs) as [_ Hus]. congruence. Qed.

Lemma fresh_meta : meta_used (allocated L b).
Proof.
  intros n Hn. assert (dstart <= sb_size sb) by (destruct Hsb; unfold FsAlloc.dstart; lia).
  rewrite fresh_used by lia. by rewrite (Hu n Hn).
Qed.

Lemma slot12 : ind x = slot L x 12.
Proof. done. Qed.

Lemma ind_range : ind x <> 0 -> dstart <= ind x < sb_size sb /\ used L (ind x) = true /\ ind x <> b.
Proof.
  intros Hi. destruct (mo_data _ _ Hm 12) as [H1 H2]; [unfold nslots, NINDIRECT; change (BSIZE / 4) with 256; lia|done|].
  split; [done|]. split; [done|]. apply (slot_not_fresh 12); [unfold nslots, NINDIRECT; change (BSIZE / 4) with 256; lia|done].
Qed.

Lemma nslots_eq : nslots = 269.
Proof. done. Qed.

Definition with_addr (k v : Z) : inode := i_set_addrs (<[Z.to_nat k := v]> (i_addrs x)) x.

Lemma addr_with k v j : 0 <= k < 13 -> 0 <= j -> addr (with_addr k v) j = if decide (j = k) then v else addr x j.
Proof.
  intros Hk Hj. unfold addr, with_addr. simpl. case_decide as E.
  - subst. by rewrite list_lookup_insert_eq by (rewrite (mo_len _ _ Hm); lia).
  - by rewrite list_lookup_insert_ne by lia.
Qed.

(** The map after [b] was put in slot [k] of [addrs]. *)
Lemma slot_direct k j : 0 <= k < 13 -> slot L x k = 0 -> 0 <= j < nslots ->
  slot (allocated L b) (with_addr k b) j = if decide (j = k) then b else slot L x j.
Proof.
  intros Hk Hs Hj. rewrite nslots_eq in Hj. unfold slot in *. rewrite (proj2 (Z.ltb_lt k 13)) in Hs by lia.
  destruct (Z.ltb_spec j 13) as [Hj13|Hj13]; [by apply addr_with; lia|].
  rewrite decide_False by lia. unfold ind in *. rewrite addr_with by (unfold NDIRECT; lia). case_decide as E.
  - rewrite <- E in Hs. rewrite Hs. simpl. destruct (b =? 0) eqn:Eb; [done|].
    rewrite fresh_zero. assert (0 <= 4 * (j - 13) /\ 4 * (j - 13) + 4 <= 1024) as [? ?] by lia.
    unfold get32, slice. rewrite drop_replicate, take_replicate.
    replace (Z.to_nat 4 `min` (Z.to_nat BSIZE - Z.to_nat (4 * (j - 13))))%nat with 4%nat by (unfold BSIZE; lia). done.
  - destruct (Z.eqb_spec (addr x NDIRECT) 0) as [Ei|Ei]; [done|].
    destruct ind_range as (H1 & H2 & H3); [done|]. unfold ind in *. rewrite fresh_frame; [done|done|by right; lia].
Qed.

(** The map after [b] was put in entry [j] of the indirect block. *)
Definition with_entry (j : Z) : Z -> list Z :=
  <[ind x := put32 (4 * j) b (allocated L b (ind x))]> (allocated L b).

Lemma slot_indirect j k : 0 <= j < NINDIRECT -> ind x <> 0 -> 0 <= k < nslots ->
  slot (with_entry j) x k = if decide (k = 13 + j) then b else slot L x k.
Proof.
  intros Hj Hi Hk. rewrite nslots_eq in Hk. unfold NINDIRECT in Hj. change (BSIZE / 4) with 256 in Hj.
  pose proof (data_block _ _ _ Hsb _ Hb) as [Hb31 _].
  unfold slot. destruct (Z.ltb_spec k 13) as [Hk13|Hk13]; [by rewrite decide_False by lia|].
  rewrite (proj2 (Z.eqb_neq _ _) Hi). unfold with_entry. rewrite fn_lookup_insert.
  destruct (ind_range Hi) as (H1 & H2 & H3). rewrite (fresh_frame (ind x)) by (try done; by right; lia).
  case_decide as E.
  - rewrite E. replace (13 + j - 13) with j by lia.
    rewrite get32_put32 by (rewrite ?HL; unfold BSIZE; lia). apply u32_small. lia.
  - by rewrite get32_put32_ne by (rewrite ?HL; unfold BSIZE; lia).
Qed.

Lemma entry_used j n : 0 <= n < sb_size sb -> ind x <> 0 -> used (with_entry j) n = used L n || (n =? b).
Proof.
  intros Hn Hi. destruct (ind_range Hi) as (H1 & H2 & H3). unfold with_entry.
  erewrite used_insert by (try done; lia). by apply fresh_used.
Qed.

End fresh.

(** Adding one fresh block keeps the file. *)
Lemma grows_fresh L x b L' x' k :
  map_ok L x -> (forall n, length (L n) = Z.to_nat BSIZE) -> meta_used L -> dstart <= b < sb_size sb -> used L b = false ->
  0 <= k < nslots -> slot L x k = 0 -> length (i_addrs x') = 13%nat -> x' = i_set_addrs (i_addrs x') x ->
  (forall j, 0 <= j < nslots -> slot L' x' j = if decide (j = k) then b else slot L x j) ->
  (forall n, 0 <= n < sb_size sb -> used L' n = used L n || (n =? b)) ->
  (forall n, n <> b -> n <> ind x -> n < sb_bmapstart sb \/ dstart <= n -> L' n = L n) ->
  L' b = replicate (Z.to_nat BSIZE) 0 -> grows L x L' x'.
Proof.
  intros Hm HL Hu Hb Hf Hk Hs Hlen Hx' Hslot Hused Hframe Hzero.
  assert (Hds : dstart <= sb_size sb) by (destruct Hsb; unfold FsAlloc.dstart; lia). pose proof dstart_pos as Hdp.
  assert (Hnf : forall j, 0 <= j < nslots -> slot L x j <> 0 -> slot L x j <> b).
  { intros j Hj Hsj E. destruct (mo_data _ _ Hm j Hj Hsj) as [_ Hus]. congruence. }
  split; try done.
  - split; [done|..].
    + intros j Hj. rewrite Hslot by done. case_decide as E; intros Hnz.
      * split; [done|]. rewrite Hused by lia. by rewrite Z.eqb_refl, orb_true_r.
      * destruct (mo_data _ _ Hm j Hj Hnz) as [H1 H2]. split; [done|]. rewrite Hused by lia. by rewrite H2.
    + intros j j' Hj Hj'. rewrite !Hslot by done. repeat case_decide; subst; try done.
      * intros _ E. exfalso. destruct (decide (slot L x j' = 0)); [lia|]. by apply (Hnf j').
      * intros Hnz E. exfalso. by apply (Hnf j).
      * by apply Hm.
  - intros n Hn. rewrite Hused by lia. by rewrite (Hu n Hn).
  - intros off Hoff. unfold fbyte.
    destruct (slot_of_range _ (file_block _ Hoff)) as [Hj Hj12]. rewrite Hslot by done. case_decide as E.
    + rewrite E, Hs. simpl. destruct (b =? 0); [done|]. rewrite Hzero.
      destruct (replicate _ _ !! _) eqn:Er; [|done]. by apply lookup_replicate in Er as [-> _].
    + destruct (Z.eqb_spec (slot L x (slot_of (off / BSIZE))) 0) as [Ez|Ez]; [done|].
      destruct (mo_data _ _ Hm _ Hj Ez) as [H1 H2]. rewrite Hframe; [done|by apply Hnf| |lia].
      intros Ei. apply Hj12. eapply (mo_inj _ _ Hm); [done|rewrite nslots_eq; lia|done|exact Ei].
  - intros j Hj Hnz. rewrite Hslot by done. case_decide; [congruence|done].
  - intros j Hj. rewrite Hslot by done. case_decide; [done|]. done.
  - intros n Hn Hun Hr Hni. apply Hframe; [congruence|done|done].
  - intros n Hn Hun. rewrite Hused by done. by rewrite Hun.
Qed.

Lemma grows_direct L x b k :
  map_ok L x -> (forall n, length (L n) = Z.to_nat BSIZE) -> meta_used L -> dstart <= b < sb_size sb -> used L b = false ->
  0 <= k < 13 -> slot L x k = 0 -> grows L x (allocated L b) (with_addr x k b).
Proof.
  intros Hm HL Hu Hb Hf Hk Hs. apply (grows_fresh L x b _ _ k); try done.
  - rewrite nslots_eq. lia.
  - unfold with_addr. simpl. by rewrite length_insert, (mo_len _ _ Hm).
  - intros j Hj. by apply slot_direct.
  - intros n Hn. by apply fresh_used.
  - intros n Hn _ Hr. by apply fresh_frame.
  - apply fresh_zero.
Qed.

Lemma grows_indirect L x b j :
  map_ok L x -> (forall n, length (L n) = Z.to_nat BSIZE) -> meta_used L -> dstart <= b < sb_size sb -> used L b = false ->
  0 <= j < NINDIRECT -> ind x <> 0 -> slot L x (13 + j) = 0 -> grows L x (with_entry L x b j) x.
Proof.
  intros Hm HL Hu Hb Hf Hj Hi Hs. apply (grows_fresh L x b _ _ (13 + j)); try done.
  - rewrite nslots_eq. unfold NINDIRECT in Hj. change (BSIZE / 4) with 256 in Hj. lia.
  - apply Hm.
  - by destruct x.
  - intros k Hk. by apply slot_indirect.
  - intros n Hn. by apply entry_used.
  - intros n Hn Hni Hr. unfold with_entry. rewrite fn_lookup_insert_ne by done. by apply fresh_frame.
  - destruct (ind_range L x b Hm Hf Hi) as (_ & _ & H3). unfold with_entry. rewrite fn_lookup_insert_ne by done. apply fresh_zero.
Qed.

End file.

(** ** Access to the inode table *)

Lemma get_inode_run ip x e s : fs_inodes (k_fs s) !! ip = Some x -> get_inode ip e s = Ok x e s.
Proof. intros Hx. unfold get_inode. erewrite bind_run by reflexivity. unfold deref. by rewrite Hx. Qed.

Lemma upd_inode_run ip g x e s : fs_inodes (k_fs s) !! ip = Some x ->
  upd_inode ip g e s = Ok tt e (set_fs (fs_set_inodes (<[ip := g x]> (fs_inodes (k_fs s))) (k_fs s)) s).
Proof. intros Hx. unfold upd_inode. by erewrite bind_run by (by apply get_inode_run). Qed.

Lemma get_addr_run ip x k e s : fs_inodes (k_fs s) !! ip = Some x -> length (i_addrs x) = 13%nat -> 0 <= k < 13 ->
  get_addr ip k e s = Ok (addr x k) e s.
Proof.
  intros Hx Hl Hk. unfold get_addr. erewrite bind_run by (by apply get_inode_run). unfold addr.
  destruct (lookup_lt_is_Some_2 (i_addrs x) (Z.to_nat k)) as [v ->]; [lia|]. done.
Qed.

Lemma set_addr_run ip x k v e s : fs_inodes (k_fs s) !! ip = Some x -> length (i_addrs x) = 13%nat -> 0 <= k < 13 ->
  set_addr ip k v e s = Ok tt e (set_fs (fs_set_inodes (<[ip := with_addr x k v]> (fs_inodes (k_fs s))) (k_fs s)) s).
Proof.
  intros Hx Hl Hk. unfold set_addr. erewrite bind_run by (by apply get_addr_run). by erewrite upd_inode_run.
Qed.

(** A state whose cache, log, inodes and console output differ. *)
Definition fsv (bs : list buf) (l : log) (ins : list inode) (o : list string) (s : kst) : kst :=
  set_out o (fsw bs l ins s).

Lemma fsv_id s : fsv (fs_bufs (k_fs s)) (fs_log (k_fs s)) (fs_inodes (k_fs s)) (k_out s) s = s.
Proof. by destruct s as [? ? ? ? [] ? ? ?]. Qed.

(** ** bmap *)

Section bmap.
Context (me : nat) (pid dev start lsize out : Z) (DD : DiskDriver) (sb : superblock) (Hsb : sb_ok start lsize sb).
Context (Hone : sb_size sb <= BPB).
Notation fsx := (fsx me pid dev start lsize out).
Notation used := (used sb).
Notation dstart := (dstart sb).

(** The logged blocks and the bitmap block. *)
Definition cost (X : gset Z) : nat := size (X ∪ {[sb_bmapstart sb]}).

Lemma one_bblock b : 0 <= b < sb_size sb -> BBLOCK b sb = sb_bmapstart sb.
Proof. intros Hb. rewrite (BBLOCK_eq _ _ _ Hsb) by done. rewrite Z.div_small by lia. lia. Qed.

Lemma cost_room X : (cost X < tx_cap)%nat -> room sb X.
Proof. intros Hc b Hb. by rewrite one_bblock. Qed.

Lemma cost_add X n : (cost (X ∪ {[n]}) <= S (cost X))%nat.
Proof.
  clear Hsb Hone. unfold cost. replace (X ∪ {[n]} ∪ {[sb_bmapstart sb]}) with (X ∪ {[sb_bmapstart sb]} ∪ {[n]}) by set_solver.
  apply size_add_one.
Qed.

Lemma cost_size X : (size X <= cost X)%nat.
Proof. clear Hsb Hone. unfold cost. apply subseteq_size. set_solver. Qed.

Lemma cost_alloc X b : 0 <= b < sb_size sb -> (cost (X ∪ {[BBLOCK b sb]} ∪ {[b]}) <= S (cost X))%nat.
Proof.
  intros Hb. rewrite one_bblock by done. etrans; [apply cost_add|]. unfold cost.
  by replace (X ∪ {[sb_bmapstart sb]} ∪ {[sb_bmapstart sb]}) with (X ∪ {[sb_bmapstart sb]}) by set_solver.
Qed.

Lemma grows_trans L x L1 x1 L2 x2 :
  grows sb L x L1 x1 -> grows sb L1 x1 L2 x2 -> grows sb L x L2 x2.
Proof.
  intros G1 G2. pose proof (dstart_pos _ _ _ Hsb). destruct G1 as [A1 A2 A3 A4 A5 A6 A7 A8], G2 as [B1 B2 B3 B4 B5 B6 B7 B8].
  assert (H12 : 0 <= 12 < nslots) by (rewrite nslots_eq; lia). split; try done.
  - intros off Ho. by rewrite B3, A3.
  - intros k Hk Hnz. rewrite B4, A4; [done..|]. by rewrite A4.
  - intros k Hk Hne. destruct (decide (slot L1 x1 k = slot L x k)) as [E|E].
    + specialize (B5 k Hk ltac:(by rewrite E)).
      destruct (decide (slot L2 x2 k = 0)) as [Ez|Ez].
      * exfalso. apply Hne. rewrite Ez. destruct (decide (slot L x k = 0)) as [|Hs]; [done|].
        rewrite B4 in Ez; congruence.
      * destruct (mo_data _ _ _ B1 k Hk Ez) as [Hr _]. destruct (used L (slot L2 x2 k)) eqn:Eu; [|done].
        rewrite A7 in B5 by (done || lia). done.
    + rewrite B4; [by apply A5|done|]. intros Ez. apply E. rewrite Ez.
      destruct (decide (slot L x k = 0)) as [|Hs]; [done|]. by rewrite <- (A4 k Hk Hs).
  - intros n Hn Hu Hr Hi. rewrite B6; [by apply A6|done|by apply A7|done|].
    intros E. destruct (decide (ind x1 = ind x)) as [E'|E']; [congruence|].
    specialize (A5 12 H12 E'). change (slot L1 x1 12) with (ind x1) in A5. congruence.
  - intros n Hn Hu. by apply B7, A7.
  - rewrite B8. simpl. rewrite A8. by destruct x.
Qed.

(** The indirect block can be held while a block is allocated. *)
Lemma held_ind L x bp : map_ok sb L x -> ind x <> 0 -> held_ok sb L {[bp := ind x]}.
Proof.
  intros Hm Hi i m Hx. apply lookup_singleton_Some in Hx as [<- <-].
  destruct (mo_data _ _ _ Hm 12) as [H1 H2]; [rewrite nslots_eq; lia|done|]. pose proof (dstart_pos _ _ _ Hsb).
  change (slot L x 12) with (ind x) in *. split; [lia|]. split; [done|lia].
Qed.

Lemma held_none L : held_ok sb L ∅.
Proof. intros i n Hi. done. Qed.

(** What holds after [bmap(ip, bn)] returned [a]. *)
Record bmapped (X : gset Z) (L : Z -> list Z) (x : inode) (bn a : Z) (X' : gset Z) (L' : Z -> list Z) (x' : inode) : Prop := {
  bm_grows : grows sb L x L' x';
  bm_cost : (cost X' <= cost X + 2)%nat;
  bm_addr : a = slot L' x' (slot_of bn);
  bm_full : a = 0 -> forall b, 0 <= b < sb_size sb -> used L' b = true;
  bm_same : slot L x (slot_of bn) <> 0 -> X' = X /\ L' = L /\ x' = x }.

Lemma bmap_direct X L s ip x bn e Q :
  fsx X L ∅ s -> fs_sb (k_fs s) = sb -> fs_inodes (k_fs s) !! ip = Some x -> i_dev x = dev ->
  map_ok sb L x -> meta_used sb L -> (cost X + 2 <= tx_cap)%nat -> 0 <= bn < NDIRECT ->
  (forall a X' L' x' bs l o, let s' := fsv bs l (<[ip := x']> (fs_inodes (k_fs s))) o s in
     fsx X' L' ∅ s' -> bmapped X L x bn a X' L' x' -> Q a e s') ->
  wp (bmap ip bn) e s Q.
Proof.
  intros Hx Es Hip Hdev Hm Hu Hc Hbn HQ. unfold bmap, NDIRECT in *. rewrite (proj2 (Z.ltb_lt bn 12)) by lia.
  assert (Eslot : slot_of bn = bn) by (unfold slot_of, NDIRECT; by rewrite (proj2 (Z.ltb_lt bn 12)) by lia).
  assert (Ea : forall L x, slot L x bn = addr x bn) by (intros; unfold slot; by rewrite (proj2 (Z.ltb_lt bn 13)) by lia).
  pose proof (mo_len _ _ _ Hm) as Hlen. pose proof (dstart_pos _ _ _ Hsb) as Hd.
  apply wp_bind. eapply wp_run; [apply get_addr_run; [done|done|lia]|].
  destruct (Z.eqb_spec (addr x bn) 0) as [E0|E0].
  - apply wp_bind. eapply wp_run; [by apply get_inode_run|]. rewrite Hdev. apply wp_bind.
    eapply balloc_wp; [exact Hsb|exact Hx|done|done|apply held_none|rewrite map_size_empty; lia|apply cost_room; lia|..].
    + intros bs l Hfull Hx1. simpl. apply wp_ret.
      specialize (HQ 0 X L x bs l (k_out s ++ ["balloc: out of blocks"])).
      rewrite list_insert_id in HQ by done. apply HQ.
      * by eapply fsx_ext, Hx1.
      * split; [by apply grows_refl|lia|by rewrite Eslot, Ea|done|done].
    + intros b bs l Hb Hfree _ Hx1. rewrite (proj2 (Z.eqb_neq b 0)) by lia.
      apply wp_seq. eapply wp_run; [apply set_addr_run; [exact Hip|done|lia]|]. apply wp_ret.
      pose proof (grows_direct _ _ _ Hsb L x b bn Hm (fun n => fsx_len _ _ _ _ _ _ _ _ _ _ n Hx) Hu Hb Hfree ltac:(lia)) as G.
      rewrite Ea in G. specialize (G E0).
      apply (HQ b (X ∪ {[BBLOCK b sb]} ∪ {[b]}) (allocated sb L b) (with_addr x bn b) bs l (k_out s)).
      * by eapply fsx_ext, Hx1.
      * split; [done| |rewrite Eslot, Ea; rewrite (addr_with sb L) by (done || lia); by rewrite decide_True|lia|].
        { etrans; [apply cost_alloc; lia|lia]. }
        rewrite Eslot, Ea. done.
  - apply wp_ret. specialize (HQ (addr x bn) X L x (fs_bufs (k_fs s)) (fs_log (k_fs s)) (k_out s)).
    rewrite list_insert_id in HQ by done. rewrite fsv_id in HQ. apply HQ; [done|].
    split; [by apply grows_refl|lia|by rewrite Eslot, Ea|done|done].
Qed.


(** The part of bmap after the indirect block is there. *)
Definition bmap_tail (ip : nat) (a j : Z) : K Z :=
  x ← get_inode ip;
  bp ← bread (i_dev x) a;
  addr ← buf_get32 bp (4 * j);
  addr ← (if addr =? 0 then
            addr ← balloc (i_dev x);
            when (negb (addr =? 0)) (buf_put32 bp (4 * j) addr ;; log_write bp) ;;
            mret addr
          else mret addr);
  brelse bp ;;
  mret addr.

Lemma bmap_entry X L s ip x j e Q :
  fsx X L ∅ s -> fs_sb (k_fs s) = sb -> fs_inodes (k_fs s) !! ip = Some x -> i_dev x = dev ->
  map_ok sb L x -> meta_used sb L -> (cost (X ∪ {[ind x]}) < tx_cap)%nat -> 0 <= j < NINDIRECT -> ind x <> 0 ->
  (forall a X' L' bs l o, let s' := fsv bs l (fs_inodes (k_fs s)) o s in
     fsx X' L' ∅ s' -> grows sb L x L' x -> (cost X' <= cost (X ∪ {[ind x]}) + 1)%nat ->
     a = slot L' x (13 + j) -> (a = 0 -> forall b, 0 <= b < sb_size sb -> used L' b = true) ->
     (slot L x (13 + j) <> 0 -> X' = X /\ L' = L) -> Q a e s') ->
  wp (bmap_tail ip (ind x) j) e s Q.
Proof.
  intros Hx Es Hip Hdev Hm Hu Hc Hj Hi HQ. unfold bmap_tail. pose proof (dstart_pos _ _ _ Hsb) as Hd.
  unfold NINDIRECT in Hj. change (BSIZE / 4) with 256 in Hj.
  assert (Hc0 : (cost X <= cost (X ∪ {[ind x]}))%nat) by (unfold cost; apply subseteq_size; set_solver).
  destruct (mo_data _ _ _ Hm 12) as [Hir Hiu]; [rewrite nslots_eq; lia|done|]. change (slot L x 12) with (ind x) in *.
  destruct (data_block _ _ _ Hsb _ Hir) as [Hi31 Hil].
  assert (Es13 : forall L, slot L x (13 + j) = get32 (4 * j) (L (ind x))).
  { intros. unfold slot. rewrite (proj2 (Z.ltb_ge _ _)) by lia. rewrite (proj2 (Z.eqb_neq _ _) Hi). do 2 f_equal. lia. }
  apply wp_bind. eapply wp_run; [by apply get_inode_run|]. rewrite Hdev.
  apply wp_bind. eapply fsx_bread; [exact Hx|intros i; by rewrite lookup_empty|rewrite map_size_empty; lia|].
  intros bp bs l _ Hx1. rewrite insert_empty in Hx1.
  apply wp_bind. eapply fsx_get32; [exact Hx1|apply lookup_singleton_eq|unfold BSIZE; lia|].
  destruct (Z.eqb_spec (get32 (4 * j) (L (ind x))) 0) as [E0|E0].
  - apply wp_bind. eapply wp_bind, balloc_wp; [exact Hsb|exact Hx1|done|done|by apply held_ind|rewrite map_size_singleton; lia|apply cost_room; lia|..].
    + intros bs2 l2 Hfull Hx2. simpl. apply wp_seq, wp_ret, wp_ret, wp_seq.
      eapply fsx_brelse; [eapply fsx_ext, Hx2; done|apply lookup_singleton_eq|]. intros bs3 l3 Hx3. apply wp_ret.
      rewrite delete_singleton_eq in Hx3.
      apply (HQ 0 X L bs3 l3 (k_out s ++ ["balloc: out of blocks"]) Hx3); [by apply grows_refl|lia|by rewrite Es13|done|done].
    + intros b bs2 l2 Hb Hfree _ Hx2. rewrite (proj2 (Z.eqb_neq b 0)) by lia. cbn [negb when].
      pose proof (cost_alloc X b ltac:(lia)) as Hca. pose proof (cost_alloc (X ∪ {[ind x]}) b ltac:(lia)) as Hcb.
      assert (EX : X ∪ {[BBLOCK b sb]} ∪ {[b]} ∪ {[ind x]} = X ∪ {[ind x]} ∪ {[BBLOCK b sb]} ∪ {[b]}) by set_solver.
      apply wp_seq. eapply fsx_put32; [exact Hx2|apply lookup_singleton_eq|lia|unfold BSIZE; lia|done|done| |].
      { rewrite EX. pose proof (cost_size (X ∪ {[ind x]} ∪ {[BBLOCK b sb]} ∪ {[b]})). lia. }
      intros bs3 l3 Hx3. apply wp_ret, wp_seq.
      eapply fsx_brelse; [exact Hx3|apply lookup_singleton_eq|]. intros bs4 l4 Hx4. apply wp_ret.
      rewrite delete_singleton_eq in Hx4.
      assert (HL : forall n, length (L n) = Z.to_nat BSIZE) by (intros n; by eapply fsx_len).
      apply (HQ b _ (with_entry sb L x b j) bs4 l4 (k_out s) Hx4).
      * apply (grows_indirect _ _ _ Hsb); try done. by rewrite Es13.
      * rewrite EX. lia.
      * rewrite (slot_indirect _ _ _ Hsb L x b); try done; [|rewrite nslots_eq; lia]. by rewrite decide_True.
      * lia.
      * by rewrite Es13.
  - apply wp_bind, wp_ret, wp_seq.
    eapply fsx_brelse; [exact Hx1|apply lookup_singleton_eq|]. intros bs2 l2 Hx2. apply wp_ret.
    rewrite delete_singleton_eq in Hx2.
    apply (HQ _ X L bs2 l2 (k_out s) Hx2); [by apply grows_refl|lia|by rewrite Es13|done|done].
Qed.

Lemma bmap_wp X L s ip x bn e Q :
  fsx X L ∅ s -> fs_sb (k_fs s) = sb -> fs_inodes (k_fs s) !! ip = Some x -> i_dev x = dev ->
  map_ok sb L x -> meta_used sb L -> (cost X + 2 <= tx_cap)%nat -> 0 <= bn < MAXFILE ->
  (forall a X' L' x' bs l o, let s' := fsv bs l (<[ip := x']> (fs_inodes (k_fs s))) o s in
     fsx X' L' ∅ s' -> bmapped X L x bn a X' L' x' -> Q a e s') ->
  wp (bmap ip bn) e s Q.
Proof.
  intros Hx Es Hip Hdev Hm Hu Hc Hbn HQ.
  destruct (Z_lt_le_dec bn NDIRECT) as [Hlt|Hge]; [eapply bmap_direct; try done; lia|].
  unfold MAXFILE, NINDIRECT, NDIRECT in Hbn, Hge. change (BSIZE / 4) with 256 in Hbn.
  assert (Eslot : slot_of bn = 13 + (bn - 12)) by (unfold slot_of, NDIRECT; rewrite (proj2 (Z.ltb_ge bn 12)) by lia; lia).
  pose proof (mo_len _ _ _ Hm) as Hlen. pose proof (dstart_pos _ _ _ Hsb) as Hd.
  unfold bmap. rewrite (proj2 (Z.ltb_ge bn NDIRECT)) by (unfold NDIRECT; lia).
  cbv zeta. rewrite (proj2 (Z.ltb_lt (bn - NDIRECT) NINDIRECT)) by (unfold NDIRECT, NINDIRECT; change (BSIZE / 4) with 256; lia).
  apply wp_bind. eapply wp_run; [apply get_addr_run; [done|done|unfold NDIRECT; lia]|]. change (addr x NDIRECT) with (ind x).
  apply wp_bind. destruct (Z.eqb_spec (ind x) 0) as [E0|E0].
  - apply wp_bind. eapply wp_run; [by apply get_inode_run|]. rewrite Hdev. apply wp_bind.
    assert (E13 : slot L x (slot_of bn) = 0).
    { unfold slot. rewrite Eslot, (proj2 (Z.ltb_ge _ _)) by lia. by rewrite E0. }
    eapply balloc_wp; [exact Hsb|exact Hx|done|done|apply held_none|rewrite map_size_empty; lia|apply cost_room; lia|..].
    + intros bs l Hfull Hx1. cbn [Z.eqb negb when]. apply wp_seq, wp_ret, wp_ret, wp_ret.
      specialize (HQ 0 X L x bs l (k_out s ++ ["balloc: out of blocks"])). rewrite list_insert_id in HQ by done. apply HQ.
      * by eapply fsx_ext, Hx1.
      * split; [by apply grows_refl|lia|done|done|done].
    + intros b bs l Hb Hfree _ Hx1. rewrite (proj2 (Z.eqb_neq b 0)) by lia. cbn [negb when].
      apply wp_seq. eapply wp_run; [apply set_addr_run; [exact Hip|done|unfold NDIRECT; lia]|]. apply wp_ret.
      rewrite (proj2 (Z.eqb_neq b 0)) by lia.
      assert (G : grows sb L x (allocated sb L b) (with_addr x 12 b)).
      { eapply grows_direct; try done; try lia. intros n. by eapply fsx_len. }
      assert (Ei : ind (with_addr x 12 b) = b).
      { unfold ind. rewrite (addr_with sb L) by (done || (unfold NDIRECT; lia)). done. }
      set (x1 := with_addr x 12 b) in *. change (with_addr x NDIRECT b) with x1.
      set (X1 := X ∪ {[BBLOCK b sb]} ∪ {[b]}) in *.
      assert (Hc1 : (cost X1 <= S (cost X))%nat) by (apply cost_alloc; lia).
      assert (EX1 : X1 ∪ {[ind x1]} = X1) by (rewrite Ei; unfold X1; set_solver).
      change (wp (bmap_tail ip b (bn - 12)) e (fsv bs l (<[ip := x1]> (fs_inodes (k_fs s))) (k_out s) s) Q).
      rewrite <- Ei.
      eapply (bmap_entry X1 (allocated sb L b) _ ip x1 (bn - 12)).
      * eapply fsx_ext, Hx1; done.
      * done.
      * simpl. by eapply list_lookup_insert_eq, lookup_lt_Some.
      * done.
      * apply G.
      * apply G.
      * rewrite EX1. lia.
      * unfold NINDIRECT. change (BSIZE / 4) with 256. lia.
      * lia.
      * intros a X' L' bs2 l2 o s' Hx2 G2 Hc2 Ha Hfl Hsame. rewrite EX1 in Hc2.
        apply (HQ a X' L' x1 bs2 l2 o); [done|].
        split; [by eapply grows_trans|lia|by rewrite Eslot|done|by rewrite E13].
  - apply wp_ret. rewrite (proj2 (Z.eqb_neq _ _) E0).
    pose proof (cost_add X (ind x)). change NDIRECT with 12 in *.
    eapply (bmap_entry X L s ip x (bn - 12)); [done..|lia|unfold NINDIRECT; change (BSIZE / 4) with 256; lia|done|].
    intros a X' L' bs2 l2 o s' Hx2 G2 Hc2 Ha Hfl Hsame.
    specialize (HQ a X' L' x bs2 l2 o). rewrite list_insert_id in HQ by done. apply HQ; [done|].
    split; [done|lia|by rewrite Eslot|done|]. rewrite Eslot. intros Hs. by destruct (Hsame Hs).
Qed.

End bmap.
