(* ===== verification/FsIo.v ===== *)
(** fs.c: readi and writei against the bytes of the file. *)

From stdpp Require Import functions.
From S2P Require Import Prelude Machine KState Blocks Spinlock Kalloc Proc ProcSpec Sleeplock Bio BioList BioSpec Log LogSpec Fs FsSpec FsAlloc FsFile.

Section written.
Context (start lsize : Z) (sb : superblock) (Hsb : sb_ok start lsize sb).
Notation used := (used sb).
Notation dstart := (dstart sb).

(** [bs] was stored at [off] of the file of [x]; the rest of the file, the
    blocks in use outside it and the other fields of [x] are as before. *)
Record wrote_at (L : Z -> list Z) (x : inode) (off : Z) (bs : list Z) (L' : Z -> list Z) (x' : inode) : Prop := {
  wa_ok : map_ok sb L' x';
  wa_meta : meta_used sb L';
  wa_byte : forall o, 0 <= o < MAXFILE * BSIZE -> fbyte L' x' o =
    if decide (off <= o < off + Z.of_nat (length bs)) then default 0 (bs !! Z.to_nat (o - off)) else fbyte L x o;
  wa_mapped : forall o, 0 <= o < MAXFILE * BSIZE -> off <= o < off + Z.of_nat (length bs) -> slot L' x' (slot_of (o / BSIZE)) <> 0;
  wa_slot : forall k, 0 <= k < nslots -> slot L x k <> 0 -> slot L' x' k = slot L x k;
  wa_fresh : forall k, 0 <= k < nslots -> slot L' x' k <> slot L x k -> used L (slot L' x' k) = false;
  wa_frame : forall n, 0 < n < sb_size sb -> used L n = true -> n < sb_bmapstart sb \/ dstart <= n ->
    (forall k, 0 <= k < nslots -> slot L x k <> 0 -> slot L x k <> n) -> L' n = L n;
  wa_used : forall n, 0 <= n < sb_size sb -> used L n = true -> used L' n = true;
  wa_same : x' = i_set_addrs (i_addrs x') x }.

Lemma wrote_at_nil L x off L' x' : grows sb L x L' x' -> wrote_at L x off [] L' x'.
Proof.
  intros [G1 G2 G3 G4 G5 G6 G7 G8]. split; try done.
  - intros o Ho. simpl. rewrite decide_False by lia. by apply G3.
  - intros o _ Ho. simpl in Ho. lia.
  - intros n Hn Hu Hr Hs. apply G6; [lia|done..|]. intros ->.
    by apply (Hs 12); [rewrite nslots_eq; lia|change (ind x <> 0); lia|].
Qed.

(** A slot after the write is one from before or a fresh block. *)
Lemma wrote_at_slot L x off bs L' x' k : wrote_at L x off bs L' x' -> 0 <= k < nslots ->
  slot L' x' k = slot L x k \/ used L (slot L' x' k) = false.
Proof. intros W Hk. destruct (decide (slot L' x' k = slot L x k)); [by left|right]. by apply (wa_fresh _ _ _ _ _ _ W). Qed.

Lemma wrote_at_app L x off b1 L1 x1 b2 L2 x2 : 0 <= off ->
  wrote_at L x off b1 L1 x1 -> wrote_at L1 x1 (off + Z.of_nat (length b1)) b2 L2 x2 -> wrote_at L x off (b1 ++ b2) L2 x2.
Proof.
  intros Ho W1 W2. pose proof (dstart_pos _ _ _ Hsb) as Hd.
  pose proof W1 as [A1 A2 A3 A4 A5 A6 A7 A8 A9]. pose proof W2 as [B1 B2 B3 B4 B5 B6 B7 B8 B9].
  assert (Hlen : Z.of_nat (length (b1 ++ b2)) = Z.of_nat (length b1) + Z.of_nat (length b2)) by (rewrite length_app; lia).
  split; try done.
  - intros o Hor. rewrite B3, Hlen by done. repeat case_decide; try lia.
    + rewrite lookup_app_r by lia. do 2 f_equal. lia.
    + rewrite A3 by done. rewrite decide_True by lia. by rewrite lookup_app_l by lia.
    + rewrite A3 by done. by rewrite decide_False by lia.
  - intros o Hof Hor. rewrite Hlen in Hor. destruct (Z_lt_le_dec o (off + Z.of_nat (length b1))) as [Hlt|Hge]; [|apply B4; lia].
    assert (Hm : slot L1 x1 (slot_of (o / BSIZE)) <> 0) by (apply A4; lia).
    by rewrite B5 by (try done; apply slot_of_range, file_block, Hof).
  - intros k Hk Hs. rewrite B5, A5; [done..|]. by rewrite A5.
  - intros k Hk Hs. destruct (decide (slot L2 x2 k = slot L1 x1 k)) as [E|E]; [rewrite E in *; by apply A6|].
    specialize (B6 k Hk E). destruct (decide (slot L2 x2 k = 0)) as [Ez|Ez].
    + exfalso. apply E. destruct (decide (slot L1 x1 k = 0)) as [|Hs1]; [congruence|]. by rewrite B5.
    + destruct (mo_data _ _ _ B1 k Hk Ez) as [Hr _]. destruct (used L _) eqn:Eu; [|done].
      rewrite A8 in B6 by (done || lia). done.
  - intros n Hn Hu Hr Hs. rewrite B7; [apply A7; done|done|apply A8; [lia|done]|done|].
    intros k Hk Hs1 E. destruct (wrote_at_slot _ _ _ _ _ _ k W1 Hk) as [E1|E1]; [|congruence].
    apply (Hs k Hk); congruence.
  - intros n Hn Hu. by apply B8, A8.
  - rewrite B9. simpl. rewrite A9. by destruct x.
Qed.

Lemma block_mod o o' : 0 <= o -> 0 <= o' -> o / BSIZE = o' / BSIZE -> o' - o = o' mod BSIZE - o mod BSIZE.
Proof. intros. rewrite (Z.div_mod o BSIZE), (Z.div_mod o' BSIZE) at 1 by done. lia. Qed.

Lemma same_block off o : 0 <= off <= o -> off mod BSIZE + (o - off) < BSIZE -> o / BSIZE = off / BSIZE.
Proof.
  intros Ho Hf. pose proof (Z.div_mod off BSIZE ltac:(done)). pose proof (Z.mod_pos_bound off BSIZE ltac:(done)).
  symmetry. apply Z.div_unique with (r := off mod BSIZE + (o - off)); lia.
Qed.

(** Storing into the block bmap gave. *)
Lemma wrote_block L x L1 x1 off bs a :
  grows sb L x L1 x1 -> (forall n, length (L1 n) = Z.to_nat BSIZE) -> a = slot L1 x1 (slot_of (off / BSIZE)) -> a <> 0 ->
  0 <= off < MAXFILE * BSIZE -> off mod BSIZE + Z.of_nat (length bs) <= BSIZE ->
  wrote_at L x off bs (<[a := put (off mod BSIZE) bs (L1 a)]> L1) x1.
Proof.
  intros [G1 G2 G3 G4 G5 G6 G7 G8] HL Ha Hnz Ho Hfit. pose proof (dstart_pos _ _ _ Hsb) as Hd.
  destruct (slot_of_range _ (file_block _ Ho)) as [Hk Hk12].
  destruct (mo_data _ _ _ G1 _ Hk ltac:(congruence)) as [Har Hau]. rewrite <- Ha in Har, Hau.
  pose proof (Z.mod_pos_bound off BSIZE ltac:(done)) as Hmod.
  set (L2 := <[a := put (off mod BSIZE) bs (L1 a)]> L1).
  assert (Hai : a <> ind x1).
  { intros E. apply Hk12. eapply (mo_inj _ _ _ G1); [done|rewrite nslots_eq; lia|congruence|].
    rewrite <- Ha. exact E. }
  assert (Hslot : forall k, slot L2 x1 k = slot L1 x1 k).
  { intros k. unfold slot, L2. by rewrite fn_lookup_insert_ne by done. }
  assert (Hused : forall n, 0 <= n < sb_size sb -> used L2 n = used L1 n).
  { intros n Hn. unfold L2. eapply used_insert; [exact Hsb|done|]. left. lia. }
  assert (HdS : dstart <= sb_size sb) by lia.
  assert (Hlen : length (put (off mod BSIZE) bs (L1 a)) = Z.to_nat BSIZE).
  { rewrite length_put; [done|lia|rewrite HL; unfold BSIZE in *; lia]. }
  split.
  - split; [apply G1|..].
    + intros k Hkr. rewrite Hslot. intros Hs. destruct (mo_data _ _ _ G1 k Hkr Hs) as [H1 H2].
      split; [done|]. rewrite Hused by lia. done.
    + intros k k' Hkr Hkr'. rewrite !Hslot. by apply G1.
  - intros n Hn. rewrite Hused by lia. by apply G2.
  - intros o Hor. rewrite <- (G3 o Hor). unfold fbyte. rewrite Hslot.
    destruct (slot_of_range _ (file_block _ Hor)) as [Hj Hj12].
    destruct (decide (slot L1 x1 (slot_of (o / BSIZE)) = a)) as [E|E].
    + assert (Eb : off / BSIZE = o / BSIZE).
      { apply slot_of_inj. eapply (mo_inj _ _ _ G1); [done|done|congruence|congruence]. }
      pose proof (block_mod off o ltac:(lia) ltac:(lia) Eb) as Em. pose proof (Z.mod_pos_bound o BSIZE ltac:(done)).
      rewrite E, (proj2 (Z.eqb_neq _ _) Hnz). unfold L2. rewrite fn_lookup_insert.
      rewrite lookup_put by (rewrite ?HL; unfold BSIZE in *; lia). repeat case_decide; try lia.
      do 2 f_equal. lia.
    + rewrite decide_False.
      2:{ intros Hin. apply E. rewrite Ha. do 2 f_equal. apply same_block; lia. }
      destruct (_ =? 0); [done|]. unfold L2. by rewrite fn_lookup_insert_ne.
  - intros o Hor Hin. rewrite Hslot. intros Ez. apply Hnz. rewrite Ha, <- Ez. do 2 f_equal. symmetry. apply same_block; lia.
  - intros k Hkr Hs. rewrite Hslot. by apply G4.
  - intros k Hkr. rewrite Hslot. by apply G5.
  - intros n Hn Hu Hr Hs. unfold L2. rewrite fn_lookup_insert_ne.
    2:{ rewrite Ha. intros E. destruct (decide (slot L1 x1 (slot_of (off / BSIZE)) = slot L x (slot_of (off / BSIZE)))) as [E1|E1].
        - apply (Hs _ Hk); congruence.
        - specialize (G5 _ Hk E1). congruence. }
    apply G6; [lia|done..|]. intros ->. by apply (Hs 12); [rewrite nslots_eq; lia|change (ind x <> 0); lia|].
  - intros n Hn Hu. rewrite Hused by done. by apply G7.
  - done.
Qed.

End written.

(** ** The loops *)

Lemma either_copyin_local bs n e s me : kthread me s -> either_copyin (S_local bs) n e s = Ok (0, take (Z.to_nat n) bs) e s.
Proof. intros Hk. unfold either_copyin. by erewrite bind_run by (by eapply kthread_myproc). Qed.

Lemma either_copyout_local bs e s me : kthread me s -> either_copyout D_local bs e s = Ok 0 e s.
Proof. intros Hk. unfold either_copyout. by erewrite bind_run by (by eapply kthread_myproc). Qed.

(** The copy did not fail. *)
Ltac copied := match goal with |- context [if 0 =? -1 then ?a else ?b] => change (if 0 =? -1 then a else b) with b end.

Section io.
Context (me : nat) (pid dev start lsize out : Z) (DD : DiskDriver) (sb : superblock) (Hsb : sb_ok start lsize sb).
Context (Hone : sb_size sb <= BPB).
Notation fsx := (fsx me pid dev start lsize out).
Notation used := (used sb).
Notation cost := (cost sb).

(** No free block. *)
Definition disk_full (L : Z -> list Z) : Prop := forall b, 0 <= b < sb_size sb -> used L b = true.

Lemma writei_loop_wp fuel ip n e : forall X L s x src off tot Q,
  fsx X L ∅ s -> fs_sb (k_fs s) = sb -> fs_inodes (k_fs s) !! ip = Some x -> i_dev x = dev ->
  map_ok sb L x -> meta_used sb L -> 0 <= off -> 0 <= tot -> Z.of_nat (length src) = n - tot -> n < 2147483648 ->
  off + (n - tot) <= MAXFILE * BSIZE -> (tot < n -> off mod BSIZE + (n - tot) <= BSIZE * Z.of_nat fuel) ->
  (cost X + 3 * fuel <= tx_cap)%nat ->
  (forall k X' L' x' bs l o, let s' := fsv bs l (<[ip := x']> (fs_inodes (k_fs s))) o s in
     0 <= k <= n - tot -> fsx X' L' ∅ s' -> wrote_at sb L x off (take (Z.to_nat k) src) L' x' ->
     (cost X' <= cost X + 3 * fuel)%nat -> (k < n - tot -> disk_full L') -> Q (off + k, tot + k) e s') ->
  wp (writei_loop (S fuel) ip (S_local src) off n tot) e s Q.
Proof.
  induction fuel as [|fuel IH]; intros X L s x src off tot Q Hx Es Hip Hdev Hm Hu Ho Ht Hsrc Hn Hend Hf Hc HQ.
  all: pose proof (Z.mod_pos_bound off BSIZE ltac:(done)) as Hmod; cbn [writei_loop].
  all: destruct (Z.ltb_spec tot n) as [Hlt|Hge];
    [|apply wp_ret; specialize (HQ 0 X L x (fs_bufs (k_fs s)) (fs_log (k_fs s)) (k_out s));
      rewrite list_insert_id, fsv_id, !Z.add_0_r in HQ by done; apply HQ;
      [lia|done|apply wrote_at_nil, grows_refl; done|lia|lia]].
  1: lia.
  apply wp_bind. eapply bmap_wp; [exact Hsb|exact Hone|exact Hx|done..|lia|apply file_block; lia|].
  intros a X1 L1 x1 bs1 l1 o1 s1 Hx1 [G Hc1 Ha Hfull _].
  destruct (Z.eqb_spec a 0) as [E0|E0].
  { apply wp_ret. specialize (HQ 0 X1 L1 x1 bs1 l1 o1). rewrite !Z.add_0_r in HQ. apply HQ; [lia|done|by apply wrote_at_nil|lia|intros _; exact (Hfull E0)]. }
  assert (Hip1 : fs_inodes (k_fs s1) !! ip = Some x1) by (simpl; by eapply list_lookup_insert_eq, lookup_lt_Some).
  assert (Hdev1 : i_dev x1 = dev) by (rewrite (gw_same _ _ _ _ _ G); done).
  apply wp_bind. eapply wp_run; [by apply get_inode_run|]. rewrite Hdev1. cbv zeta.
  apply wp_bind. eapply fsx_bread; [exact Hx1|intros i; by rewrite lookup_empty|rewrite map_size_empty; lia|].
  intros bp bs2 l2 _ Hx2. rewrite insert_empty in Hx2.
  set (m := min (n - tot) (BSIZE - off mod BSIZE)).
  assert (Hm0 : 0 < m <= n - tot /\ m <= BSIZE - off mod BSIZE /\ (m = n - tot \/ m = BSIZE - off mod BSIZE)).
  { unfold m, min. destruct (Z.ltb_spec (n - tot) (BSIZE - off mod BSIZE)); lia. }
  apply wp_bind. eapply wp_run; [eapply either_copyin_local, fc_thread, fsx_ctx, Hx2|].
  destruct (fsx_held _ _ _ _ _ _ _ _ _ _ _ _ Hx2 (lookup_singleton_eq _ _)) as (y & Hy & _ & _ & Hdat).
  apply wp_bind. eapply wp_run; [by apply get_buf_run|]. rewrite Hdat. cbn [fst snd].
  copied.
  assert (HL1 : forall b, length (L1 b) = Z.to_nat BSIZE) by (intros b; by eapply fsx_len).
  set (w := take (Z.to_nat m) src). assert (Hw : Z.of_nat (length w) = m) by (unfold w; rewrite length_take; lia).
  assert (Hk : 0 <= slot_of (off / BSIZE) < nslots) by (apply slot_of_range, file_block; lia).
  destruct (mo_data _ _ _ (gw_ok _ _ _ _ _ G) _ Hk ltac:(congruence)) as [Har _]. rewrite <- Ha in Har.
  destruct (data_block _ _ _ Hsb _ Har) as [Ha31 Hal].
  assert (Hc2 : (cost (X1 ∪ {[a]}) <= S (cost X1))%nat) by apply cost_add.
  eapply fsx_write; [exact Hx2|apply lookup_singleton_eq| |done|done| |].
  { rewrite length_put; rewrite ?HL1; unfold BSIZE in *; lia. }
  { pose proof (cost_size sb (X1 ∪ {[a]})). lia. }
  intros bs3 l3 Hx3. apply wp_seq. eapply fsx_brelse; [exact Hx3|apply lookup_singleton_eq|].
  intros bs4 l4 Hx4. rewrite delete_singleton_eq in Hx4.
  assert (W : wrote_at sb L x off w (<[a := put (off mod BSIZE) w (L1 a)]> L1) x1).
  { apply (wrote_block _ _ _ Hsb); try done; lia. }
  cbn [src_add]. assert (HM : MAXFILE * BSIZE < 4294967296) by done. rewrite !u32_small by lia.
  eapply IH; [exact Hx4|done|exact Hip1|exact Hdev1|apply W|apply W|lia|lia| |done|lia| |lia|].
  { rewrite length_drop. lia. }
  { intros Hmore. replace (off + m) with ((off / BSIZE + 1) * BSIZE) by (pose proof (Z.div_mod off BSIZE ltac:(done)); lia).
    rewrite Z_mod_mult. lia. }
  intros k X' L' x' bs5 l5 o5 s5 Hkr Hx5 W5 Hc5 Hfull5.
  replace (off + m + k) with (off + (m + k)) by lia. replace (tot + m + k) with (tot + (m + k)) by lia.
  change s5 with (fsv bs5 l5 (<[ip := x']> (<[ip := x1]> (fs_inodes (k_fs s)))) o5 s) in *. clear s5.
  rewrite list_insert_insert_eq in *. apply (HQ (m + k) X' L' x' bs5 l5 o5); [lia|done| |lia|intros; apply Hfull5; lia].
  replace (take (Z.to_nat (m + k)) src) with (w ++ take (Z.to_nat k) (drop (Z.to_nat m) src)).
  - eapply (wrote_at_app _ _ _ Hsb); [done|exact W|]. by rewrite Hw.
  - unfold w. rewrite take_take_drop. f_equal. lia.
Qed.

(** A file without holes. *)
Definition filled (L : Z -> list Z) (x : inode) : Prop :=
  forall o, 0 <= o < i_size x -> slot L x (slot_of (o / BSIZE)) <> 0.

(** Bytes [off .. off + n - 1]. *)
Definition fbytes (L : Z -> list Z) (x : inode) (off n : Z) : list Z := fbyte L x <$> seqZ off n.

Lemma fbytes_app L x off n m : 0 <= n -> 0 <= m -> fbytes L x off (n + m) = fbytes L x off n ++ fbytes L x (off + n) m.
Proof. intros Hn Hm'. unfold fbytes. rewrite <- fmap_app. by rewrite seqZ_app. Qed.

(** The bytes of one block. *)
Lemma fbytes_block L x off m a :
  0 <= off -> 0 <= m -> off mod BSIZE + m <= BSIZE -> a = slot L x (slot_of (off / BSIZE)) -> a <> 0 ->
  length (L a) = Z.to_nat BSIZE -> slice (off mod BSIZE) m (L a) = fbytes L x off m.
Proof.
  intros Ho Hm0 Hfit Ha Hnz Hlen. pose proof (Z.mod_pos_bound off BSIZE ltac:(done)) as Hmod.
  apply list_eq. intros i. rewrite lookup_slice by lia. unfold fbytes. rewrite list_lookup_fmap.
  case_decide as Hi; [|by rewrite lookup_seqZ_ge by lia].
  rewrite (proj2 (lookup_seqZ off m i (off + Z.of_nat i))) by lia. simpl. unfold fbyte.
  assert (Eb : (off + Z.of_nat i) / BSIZE = off / BSIZE) by (apply same_block; lia).
  pose proof (block_mod off (off + Z.of_nat i) Ho ltac:(lia) ltac:(done)) as Em.
  rewrite Eb, <- Ha, (proj2 (Z.eqb_neq _ _) Hnz).
  replace (Z.to_nat ((off + Z.of_nat i) mod BSIZE)) with (Z.to_nat (off mod BSIZE) + i)%nat by lia.
  destruct (lookup_lt_is_Some_2 (L a) (Z.to_nat (off mod BSIZE) + i)) as [v ->]; [|done].
  rewrite Hlen. unfold BSIZE in *. lia.
Qed.

Lemma readi_loop_wp fuel ip n e : forall L X s x off tot acc Q,
  fsx X L ∅ s -> fs_sb (k_fs s) = sb -> fs_inodes (k_fs s) !! ip = Some x -> i_dev x = dev ->
  map_ok sb L x -> meta_used sb L -> 0 <= off -> 0 <= tot <= n -> n < 2147483648 ->
  off + (n - tot) <= MAXFILE * BSIZE -> (tot < n -> off mod BSIZE + (n - tot) <= BSIZE * Z.of_nat fuel) ->
  (cost X + 2 <= tx_cap)%nat -> (forall o, off <= o < off + (n - tot) -> slot L x (slot_of (o / BSIZE)) <> 0) ->
  (forall bs l o, let s' := fsv bs l (fs_inodes (k_fs s)) o s in
     fsx X L ∅ s' -> Q (n, acc ++ fbytes L x off (n - tot)) e s') ->
  wp (readi_loop (S fuel) ip D_local off n tot acc) e s Q.
Proof.
  induction fuel as [|fuel IH]; intros L X s x off tot acc Q Hx Es Hip Hdev Hm Hu Ho Ht Hn Hend Hf Hc Hmap HQ.
  all: pose proof (Z.mod_pos_bound off BSIZE ltac:(done)) as Hmod;
    match goal with |- context [readi_loop (S ?k)] => remember k as f eqn:Ef end; cbn [readi_loop].
  all: destruct (Z.ltb_spec tot n) as [Hlt|Hge];
    [|apply wp_ret; specialize (HQ (fs_bufs (k_fs s)) (fs_log (k_fs s)) (k_out s)); rewrite fsv_id in HQ;
      replace (n - tot) with 0 in HQ by lia; unfold fbytes in HQ; rewrite seqZ_nil, app_nil_r in HQ by lia;
      rewrite i32_small by lia; replace tot with n by lia; by apply HQ].
  1: lia.
  apply wp_bind. eapply bmap_wp; [exact Hsb|exact Hone|exact Hx|done..|lia|apply file_block; lia|].
  intros a X1 L1 x1 bs1 l1 o1 s1 Hx1 [G Hc1 Ha Hfull Hsame].
  destruct (Hsame (Hmap off ltac:(lia))) as (-> & -> & ->). clear Hsame. subst s1. rewrite list_insert_id in * by done.
  assert (E0 : a <> 0) by (rewrite Ha; apply Hmap; lia).
  rewrite (proj2 (Z.eqb_neq _ _) E0). apply wp_bind. eapply wp_run; [by apply get_inode_run|]. rewrite Hdev. cbv zeta.
  apply wp_bind. eapply fsx_bread; [exact Hx1|intros i; by rewrite lookup_empty|rewrite map_size_empty; lia|].
  intros bp bs2 l2 _ Hx2. rewrite insert_empty in Hx2.
  set (m := min (n - tot) (BSIZE - off mod BSIZE)).
  assert (Hm0 : 0 < m <= n - tot /\ m <= BSIZE - off mod BSIZE /\ (m = n - tot \/ m = BSIZE - off mod BSIZE)).
  { unfold m, min. destruct (Z.ltb_spec (n - tot) (BSIZE - off mod BSIZE)); lia. }
  destruct (fsx_held _ _ _ _ _ _ _ _ _ _ _ _ Hx2 (lookup_singleton_eq _ _)) as (y & Hy & _ & _ & Hdat).
  apply wp_bind. eapply wp_run; [by apply get_buf_run|]. rewrite Hdat.
  rewrite (fbytes_block L x) by (done || lia || by eapply fsx_len).
  apply wp_bind. eapply wp_run; [eapply either_copyout_local, fc_thread, fsx_ctx, Hx2|].
  copied.
  apply wp_seq. eapply fsx_brelse; [exact Hx2|apply lookup_singleton_eq|].
  intros bs4 l4 Hx4. rewrite delete_singleton_eq in Hx4. subst f.
  cbn [dst_add]. assert (HM : MAXFILE * BSIZE < 4294967296) by done. rewrite !u32_small by lia.
  eapply IH; [exact Hx4|done|exact Hip|exact Hdev|done|done|lia|lia|done|lia| |done| |].
  { intros Hmore. replace (off + m) with ((off / BSIZE + 1) * BSIZE) by (pose proof (Z.div_mod off BSIZE ltac:(done)); lia).
    rewrite Z_mod_mult. lia. }
  { intros o Hor. apply Hmap. lia. }
  intros bs5 l5 o5 s5 Hx5. rewrite <- app_assoc, <- fbytes_app by lia.
  replace (m + (n - (tot + m))) with (n - tot) by lia. exact (HQ bs5 l5 o5 Hx5).
Qed.


(** *** iupdate *)

Notation ib x := (IBLOCK (i_inum x) sb).

Lemma IBLOCK_range i : 0 <= i < sb_ninodes sb -> sb_inodestart sb <= IBLOCK i sb < sb_bmapstart sb.
Proof.
  intros Hi. destruct Hsb as [S1 S2 S3 S4]. unfold IBLOCK.
  assert (0 <= i / IPB <= sb_ninodes sb / IPB).
  { split; [apply Z.div_pos; [lia|done]|apply Z.div_le_mono; [done|lia]]. }
  assert (0 <= sb_size sb / BPB) by (apply Z.div_pos; [lia|done]).
  rewrite u32_small by lia. lia.
Qed.

Lemma length_addr_bytes l : length (concat (le_bytes 4 <$> l)) = (4 * length l)%nat.
Proof. induction l as [|a l IH]; [done|]. cbn [fmap list_fmap concat]. rewrite length_app, length_le_bytes, IH. simpl. lia. Qed.

Lemma length_dinode_write off x d :
  0 <= off -> off + 64 <= Z.of_nat (length d) -> length (i_addrs x) = 13%nat -> length (dinode_write off x d) = length d.
Proof.
  intros Ho Hd Hl. unfold dinode_write.
  repeat first [rewrite length_put | rewrite length_put32 | rewrite length_put16]; rewrite ?length_addr_bytes, ?Hl; try lia.
Qed.

Lemma dinode_off x : 0 <= sizeof_dinode * (i_inum x mod IPB) /\ sizeof_dinode * (i_inum x mod IPB) + 64 <= BSIZE.
Proof.
  pose proof (Z.mod_pos_bound (i_inum x) 16 ltac:(done)). change IPB with 16. unfold sizeof_dinode, BSIZE. lia.
Qed.

Lemma iupdate_wp X L s ip x e Q :
  fsx X L ∅ s -> fs_sb (k_fs s) = sb -> fs_inodes (k_fs s) !! ip = Some x -> i_dev x = dev ->
  length (i_addrs x) = 13%nat -> 0 <= i_inum x < sb_ninodes sb -> (size (X ∪ {[ib x]}) <= tx_cap)%nat ->
  (forall bs l, fsx (X ∪ {[ib x]})
     (<[ib x := dinode_write (sizeof_dinode * (i_inum x mod IPB)) x (L (ib x))]> L) ∅ (fsw bs l (fs_inodes (k_fs s)) s) ->
     Q tt e (fsw bs l (fs_inodes (k_fs s)) s)) ->
  wp (iupdate ip) e s Q.
Proof.
  intros Hx Es Hip Hdev Hl Hin Hc HQ. unfold iupdate. apply wp_bind, wp_gets. rewrite Es.
  apply wp_bind. eapply wp_run; [by apply get_inode_run|]. rewrite Hdev.
  apply wp_bind. eapply fsx_bread; [exact Hx|intros i; by rewrite lookup_empty|rewrite map_size_empty; lia|].
  intros bp bs l _ Hx1. rewrite insert_empty in Hx1.
  apply wp_bind. eapply wp_run; [by apply get_inode_run|].
  destruct (fsx_held _ _ _ _ _ _ _ _ _ _ _ _ Hx1 (lookup_singleton_eq _ _)) as (y & Hy & _ & _ & Hdat).
  apply wp_bind. eapply wp_run; [by apply get_buf_run|]. rewrite Hdat.
  pose proof (IBLOCK_range _ Hin) as Hr. pose proof (dinode_off x) as [D1 D2].
  destruct (meta_below _ _ _ Hsb (ib x)) as (M1 & M2 & _).
  { assert (0 <= sb_size sb / BPB) by (apply Z.div_pos; [destruct Hsb; lia|done]). unfold dstart. lia. }
  assert (Hlen : length (L (ib x)) = Z.to_nat BSIZE) by (by eapply fsx_len).
  eapply fsx_write; [exact Hx1|apply lookup_singleton_eq| |done|done|done|].
  { rewrite length_dinode_write; rewrite ?Hlen; unfold BSIZE in *; lia. }
  intros bs2 l2 Hx2. eapply fsx_brelse; [exact Hx2|apply lookup_singleton_eq|].
  intros bs3 l3 Hx3. rewrite delete_singleton_eq in Hx3. apply HQ. exact Hx3.
Qed.

(** Only [addrs] matters to the map. *)
Lemma slot_addrs L x y k : i_addrs y = i_addrs x -> slot L y k = slot L x k.
Proof. intros E. unfold slot, ind, addr. by rewrite E. Qed.

Lemma map_ok_addrs L x y : i_addrs y = i_addrs x -> map_ok sb L x -> map_ok sb L y.
Proof.
  intros E Hm. split; [by rewrite E; apply Hm|..].
  - intros k. rewrite (slot_addrs L x y k E). apply Hm.
  - intros k k'. rewrite (slot_addrs L x y k E), (slot_addrs L x y k' E). apply Hm.
Qed.

(** Blocks before the bitmap do not matter to a file. *)
Lemma below_slot L x n d k : map_ok sb L x -> n < sb_bmapstart sb -> 0 <= k < nslots -> slot (<[n := d]> L) x k = slot L x k.
Proof.
  intros Hm Hn Hk. unfold slot. destruct (k <? 13); [done|]. destruct (Z.eqb_spec (ind x) 0) as [|Hi]; [done|].
  destruct (mo_data _ _ _ Hm 12) as [Hir _]; [rewrite nslots_eq; lia|done|]. change (slot L x 12) with (ind x) in Hir.
  assert (0 <= sb_size sb / BPB) by (apply Z.div_pos; [destruct Hsb; lia|done]).
  unfold dstart in Hir. by rewrite fn_lookup_insert_ne by lia.
Qed.

Lemma below_map L x n d : map_ok sb L x -> n < sb_bmapstart sb -> map_ok sb (<[n := d]> L) x.
Proof.
  intros Hm Hn. pose proof (dstart_pos _ _ _ Hsb). split; [apply Hm|..].
  - intros k Hk. rewrite below_slot by done. intros Hs. destruct (mo_data _ _ _ Hm k Hk Hs) as [H1 H2]. split; [done|].
    erewrite used_insert by (try exact Hsb; try lia). done.
  - intros k k' Hk Hk'. rewrite !below_slot by done. by apply Hm.
Qed.

Lemma below_meta L n d : meta_used sb L -> n < sb_bmapstart sb -> meta_used sb (<[n := d]> L).
Proof.
  intros Hu Hn b Hb. assert (dstart sb <= sb_size sb) by (destruct Hsb; unfold dstart; lia).
  erewrite used_insert by (try exact Hsb; try lia). by apply Hu.
Qed.

Lemma below_byte L x n d o : map_ok sb L x -> n < sb_bmapstart sb -> 0 <= o < MAXFILE * BSIZE ->
  fbyte (<[n := d]> L) x o = fbyte L x o.
Proof.
  intros Hm Hn Ho. assert (Hk : 0 <= slot_of (o / BSIZE) < nslots) by (apply slot_of_range, file_block, Ho).
  unfold fbyte. rewrite below_slot by done. destruct (Z.eqb_spec (slot L x (slot_of (o / BSIZE))) 0) as [|Hs]; [done|].
  destruct (mo_data _ _ _ Hm _ Hk Hs) as [Hr _].
  assert (0 <= sb_size sb / BPB) by (apply Z.div_pos; [destruct Hsb; lia|done]).
  unfold dstart in Hr. by rewrite fn_lookup_insert_ne by lia.
Qed.


(** ** Files *)

(** The content of a file. *)
Definition contents (L : Z -> list Z) (x : inode) : list Z := fbytes L x 0 (i_size x).

(** A file in memory: its map is sound and has no hole. *)
Record file_ok (L : Z -> list Z) (x : inode) : Prop := {
  fo_map : map_ok sb L x;
  fo_meta : meta_used sb L;
  fo_filled : filled L x;
  fo_size : 0 <= i_size x <= MAXFILE * BSIZE;
  fo_dev : i_dev x = dev;
  fo_inum : 0 <= i_inum x < sb_ninodes sb }.

Lemma lookup_fbytes L x off n i :
  fbytes L x off n !! i = if decide (Z.of_nat i < n) then Some (fbyte L x (off + Z.of_nat i)) else None.
Proof.
  unfold fbytes. rewrite list_lookup_fmap. case_decide.
  - by rewrite (proj2 (lookup_seqZ off n i (off + Z.of_nat i))) by lia.
  - by rewrite lookup_seqZ_ge by lia.
Qed.

Lemma length_contents L x : length (contents L x) = Z.to_nat (i_size x).
Proof. unfold contents, fbytes. by rewrite length_fmap, length_seqZ. Qed.

Lemma contents_wrote L x off w L' x' v :
  0 <= off <= i_size x -> off + Z.of_nat (length w) <= MAXFILE * BSIZE -> i_size x <= MAXFILE * BSIZE ->
  wrote_at sb L x off w L' x' -> v = Z.max (i_size x) (off + Z.of_nat (length w)) ->
  contents L' (i_set_size v x') = put off w (contents L x).
Proof.
  intros Ho Hend Hsz W ->. apply list_eq. intros i. unfold contents. rewrite lookup_put by (try lia; fold (contents L x); rewrite length_contents; lia).
  rewrite !lookup_fbytes. cbn [i_size i_set_size]. rewrite !Z.add_0_l.
  change (fbyte L' (i_set_size ?u x')) with (fbyte L' x').
  destruct (decide (Z.of_nat i < Z.max (i_size x) (off + Z.of_nat (length w)))) as [Hi|Hi].
  - rewrite (wa_byte _ _ _ _ _ _ _ W) by lia. repeat case_decide; try lia; [|done].
    destruct (lookup_lt_is_Some_2 w (i - Z.to_nat off)) as [b Hb]; [lia|].
    replace (Z.to_nat (Z.of_nat i - off)) with (i - Z.to_nat off)%nat by lia. by rewrite Hb.
  - repeat case_decide; try lia. done.
Qed.


(** What writei did when it returned [k]. *)
Record wrote_file (L : Z -> list Z) (x : inode) (off : Z) (src : list Z) (k : Z) (L' : Z -> list Z) (x' : inode) : Prop := {
  wf_file : file_ok L' x';
  wf_count : 0 <= k <= Z.of_nat (length src);
  wf_contents : contents L' x' = put off (take (Z.to_nat k) src) (contents L x);
  wf_short : k < Z.of_nat (length src) -> disk_full L';
  wf_disk : L' (ib x) = dinode_write (sizeof_dinode * (i_inum x mod IPB)) x' (L (ib x));
  wf_same : x' = i_set_addrs (i_addrs x') (i_set_size (i_size x') x);
  wf_frame : forall n, 0 < n < sb_size sb -> used L n = true -> n < sb_bmapstart sb \/ dstart sb <= n -> n <> ib x ->
    (forall k, 0 <= k < nslots -> slot L x k <> 0 -> slot L x k <> n) -> L' n = L n }.

(** The file after the data was stored and the inode written. *)
Lemma wrote_file_intro L x off src k L1 x1 :
  file_ok L x -> 0 <= off <= i_size x -> off + Z.of_nat (length src) <= MAXFILE * BSIZE -> 0 < sb_inodestart sb ->
  0 <= k <= Z.of_nat (length src) -> wrote_at sb L x off (take (Z.to_nat k) src) L1 x1 ->
  (k < Z.of_nat (length src) -> disk_full L1) ->
  let x2 := i_set_size (Z.max (i_size x) (off + k)) x1 in
  wrote_file L x off src k (<[ib x := dinode_write (sizeof_dinode * (i_inum x mod IPB)) x2 (L1 (ib x))]> L1) x2.
Proof.
  intros [F1 F2 F3 F4 F5 F6] Ho Hend Hpos Hk W Hshort x2. pose proof (IBLOCK_range _ F6) as Hib.
  assert (Hlen : Z.of_nat (length (take (Z.to_nat k) src)) = k) by (rewrite length_take; lia).
  assert (Hx1 : i_size x1 = i_size x /\ i_dev x1 = i_dev x /\ i_inum x1 = i_inum x) by (by rewrite (wa_same _ _ _ _ _ _ _ W)).
  destruct Hx1 as (E1 & E2 & E3). set (d := dinode_write _ _ _).
  assert (Hd : 0 <= sb_size sb / BPB) by (apply Z.div_pos; [destruct Hsb; lia|done]).
  assert (Hm1 : map_ok sb L1 x1) by apply W.
  assert (Hm2 : map_ok sb L1 x2) by (by apply (map_ok_addrs L1 x1)).
  assert (Hslot : forall j, 0 <= j < nslots -> slot (<[ib x := d]> L1) x2 j = slot L1 x1 j).
  { intros j Hj. change (slot (<[ib x := d]> L1) x2 j) with (slot (<[ib x := d]> L1) x1 j). apply below_slot; [done|lia|done]. }
  split.
  - split.
    + apply (below_map L1 x2); [exact Hm2|lia].
    + apply below_meta; [apply W|lia].
    + intros o Hor. cbn [i_size i_set_size x2] in Hor. assert (Hof : 0 <= o < MAXFILE * BSIZE) by lia.
      rewrite Hslot by (apply slot_of_range, file_block, Hof).
      destruct (decide (off <= o < off + k)) as [Hin|Hin]; [apply (wa_mapped _ _ _ _ _ _ _ W); lia|].
      assert (Hos : slot L x (slot_of (o / BSIZE)) <> 0) by (apply F3; lia).
      rewrite (wa_slot _ _ _ _ _ _ _ W); [done|apply slot_of_range, file_block, Hof|done].
    + simpl. lia.
    + simpl. congruence.
    + simpl. congruence.
  - done.
  - assert (Ec : contents (<[ib x := d]> L1) x2 = contents L1 x2).
    { unfold contents, fbytes. apply list_fmap_ext. intros i o Hi. apply lookup_seqZ in Hi. cbn [i_size i_set_size x2] in Hi.
      apply (below_byte L1 x2); [exact Hm2|lia|lia]. }
    rewrite Ec. eapply contents_wrote; [done|lia|lia|exact W|by rewrite Hlen].
  - intros Hs b Hb. erewrite used_insert by (try exact Hsb; try lia). by apply Hshort.
  - rewrite fn_lookup_insert. unfold d. f_equal.
    apply (wa_frame _ _ _ _ _ _ _ W); [destruct Hsb; unfold dstart in *; lia|apply F2; unfold dstart; lia|lia|].
    intros j Hj Hs E. destruct (mo_data _ _ _ F1 j Hj Hs) as [Hr _]. unfold dstart in Hr. lia.
  - unfold x2. simpl. rewrite (wa_same _ _ _ _ _ _ _ W). by destruct x.
  - intros n Hn Hu Hr Hne Hs. rewrite fn_lookup_insert_ne by done. by apply (wa_frame _ _ _ _ _ _ _ W).
Qed.

Lemma writei_wp X L s ip x src off e Q :
  fsx X L ∅ s -> fs_sb (k_fs s) = sb -> fs_inodes (k_fs s) !! ip = Some x -> file_ok L x ->
  0 <= off <= i_size x -> off + Z.of_nat (length src) <= MAXFILE * BSIZE ->
  (cost X + 3 * (Z.to_nat (Z.of_nat (length src) / BSIZE) + 2) < tx_cap)%nat ->
  (forall k X' L' x' bs l o, let s' := fsv bs l (<[ip := x']> (fs_inodes (k_fs s))) o s in
     fsx X' L' ∅ s' -> wrote_file L x off src k L' x' ->
     (cost X' <= cost X + 3 * (Z.to_nat (Z.of_nat (length src) / BSIZE) + 2) + 1)%nat -> Q k e s') ->
  wp (writei ip (S_local src) off (Z.of_nat (length src))) e s Q.
Proof.
  intros Hx Es Hip Hfile Ho Hend Hc HQ. pose proof Hfile as [F1 F2 F3 F4 F5 F6]. set (n := Z.of_nat (length src)) in *.
  assert (HM : MAXFILE * BSIZE = 274432) by done. unfold writei.
  assert (Hnd : 0 <= n / BSIZE) by (apply Z.div_pos; [lia|done]).
  apply wp_bind. eapply wp_run; [by apply get_inode_run|].
  rewrite u32_small by lia.
  rewrite Z.gtb_ltb, (proj2 (Z.ltb_ge (i_size x) off)), (proj2 (Z.ltb_ge (off + n) off)) by lia. cbn [orb].
  rewrite Z.gtb_ltb, (proj2 (Z.ltb_ge (MAXFILE * BSIZE) (off + n))) by lia.
  apply wp_bind. replace (Z.to_nat (n / BSIZE) + 3)%nat with (S (Z.to_nat (n / BSIZE) + 2)) by lia.
  pose proof (Z.mod_pos_bound off BSIZE ltac:(done)). pose proof (Z.mod_pos_bound n BSIZE ltac:(done)).
  pose proof (Z.div_mod n BSIZE ltac:(done)).
  eapply writei_loop_wp; [exact Hx|done|exact Hip|done|done|done|lia|lia|lia|lia|lia|unfold BSIZE in *; lia|lia|].
  intros k X1 L1 x1 bs1 l1 o1 s1 Hk Hx1 W Hc1 Hfull. replace (n - 0) with n in * by lia. rewrite Z.add_0_l.
  assert (Hip1 : fs_inodes (k_fs s1) !! ip = Some x1) by (simpl; by eapply list_lookup_insert_eq, lookup_lt_Some).
  assert (Ex1 : i_size x1 = i_size x /\ i_dev x1 = i_dev x /\ i_inum x1 = i_inum x) by (by rewrite (wa_same _ _ _ _ _ _ _ W)).
  destruct Ex1 as (E1 & E2 & E3).
  apply wp_bind. eapply wp_run; [by apply get_inode_run|]. cbn [fst snd].
  set (x2 := i_set_size (Z.max (i_size x) (off + k)) x1).
  set (s2 := fsv bs1 l1 (<[ip := x2]> (fs_inodes (k_fs s))) o1 s).
  assert (Hset : when (off + k >? i_size x1) (upd_inode ip (i_set_size (off + k))) e s1 = Ok tt e s2).
  { unfold when. rewrite Z.gtb_ltb, E1. destruct (Z.ltb_spec (i_size x) (off + k)) as [Hlt|Hge].
    - erewrite upd_inode_run by done. unfold s1, s2, x2, fsv, fsw. simpl. rewrite list_insert_insert_eq.
      by rewrite Z.max_r by lia.
    - unfold s2, x2, s1. rewrite Z.max_l, <- E1 by lia. by destruct x1. }
  apply wp_seq. eapply wp_run; [exact Hset|]. clear Hset.
  assert (Hx2 : fsx X1 L1 ∅ s2) by (by eapply fsx_ext, Hx1).
  assert (Hip2 : fs_inodes (k_fs s2) !! ip = Some x2) by (simpl; by eapply list_lookup_insert_eq, lookup_lt_Some).
  pose proof (IBLOCK_range _ F6) as Hib. pose proof (cost_add sb X1 (ib x)) as Hc2. pose proof (cost_size sb (X1 ∪ {[ib x]})) as Hc3.
  assert (Eib : ib x2 = ib x) by (simpl; by rewrite E3).
  apply wp_seq. eapply iupdate_wp; [exact Hx2|done|exact Hip2|simpl; congruence|apply W|simpl; by rewrite E3|rewrite Eib; lia|].
  intros bs3 l3 Hx3. rewrite Eib in Hx3. change (i_inum x2) with (i_inum x1) in Hx3. rewrite E3 in Hx3.
  apply wp_ret. rewrite i32_small by lia. destruct (fx_geo _ _ _ _ _ _ _ _ _ _ Hx) as (G1 & G2 & G3).
  apply (HQ k _ _ x2 bs3 l3 o1 Hx3); [|lia].
  apply wrote_file_intro; try done; try lia. destruct Hsb. lia.
Qed.

(** readi returns the bytes of the file that are there. *)
Lemma readi_wp X L s ip x off n e Q :
  fsx X L ∅ s -> fs_sb (k_fs s) = sb -> fs_inodes (k_fs s) !! ip = Some x -> file_ok L x ->
  0 <= off <= i_size x -> 0 <= n < 2147483648 -> (cost X + 2 <= tx_cap)%nat ->
  (forall bs l o, let s' := fsv bs l (fs_inodes (k_fs s)) o s in
     fsx X L ∅ s' -> Q (Z.min n (i_size x - off), slice off n (contents L x)) e s') ->
  wp (readi ip D_local off n) e s Q.
Proof.
  intros Hx Es Hip [F1 F2 F3 F4 F5 F6] Ho Hn Hc HQ. assert (HM : MAXFILE * BSIZE = 274432) by done. unfold readi.
  apply wp_bind. eapply wp_run; [by apply get_inode_run|]. rewrite u32_small by lia.
  rewrite Z.gtb_ltb, (proj2 (Z.ltb_ge (i_size x) off)), (proj2 (Z.ltb_ge (off + n) off)) by lia. cbn [orb].
  assert (En : (if off + n >? i_size x then i_size x - off else n) = Z.min n (i_size x - off)).
  { rewrite Z.gtb_ltb. destruct (Z.ltb_spec (i_size x) (off + n)); lia. }
  rewrite En. set (m := Z.min n (i_size x - off)) in *.
  replace (Z.to_nat (m / BSIZE) + 3)%nat with (S (Z.to_nat (m / BSIZE) + 2)) by lia.
  pose proof (Z.mod_pos_bound off BSIZE ltac:(done)). pose proof (Z.mod_pos_bound m BSIZE ltac:(done)).
  pose proof (Z.div_mod m BSIZE ltac:(done)). assert (0 <= m / BSIZE) by (apply Z.div_pos; [lia|done]).
  eapply readi_loop_wp; [exact Hx|done|exact Hip|done|done|done|lia|lia|lia|lia|unfold BSIZE in *; lia|lia| |].
  { intros o Hor. apply F3. lia. }
  intros bs l o s' Hx'. rewrite app_nil_l, Z.sub_0_r.
  replace (fbytes L x off m) with (slice off n (contents L x)); [by apply HQ|].
  apply list_eq. intros i. rewrite lookup_slice by lia. unfold contents. rewrite !lookup_fbytes.
  repeat case_decide; try lia; try done. do 2 f_equal. lia.
Qed.

End io.
