(* ===== verification/FsProof.v ===== *)
(** fs.c: what the file operations guarantee, up to the disk. *)

From stdpp Require Import functions.
From S2P Require Import Prelude Machine KState Blocks Spinlock Kalloc Proc ProcSpec Sleeplock Bio BioList BioSpec BioProof Log LogSpec LogProof Fs FsSpec FsAlloc FsFile FsIo.

(** ** Reading what was written *)

(** C3: Within a transaction, [writei] stores a prefix of the source at the
    offset (all of it unless the disk is full), extends the size, writes the
    inode to its block and changes no block of another file; a [readi] of any
    part of the file then returns exactly the updated content. The blocks [L'] are
    those of the file system in the state after the call (in the cache, or on the disk
    where it is clean), with every changed block in the log of the transaction: a short
    write means that its bitmap marks every block as used. *)
Theorem writei_readi `{DD : DiskDriver} me pid dev start lsize out sb X L s ip x src off e :
  sb_ok start lsize sb -> sb_size sb <= BPB ->
  fsx me pid dev start lsize out X L ∅ s -> fs_sb (k_fs s) = sb ->
  fs_inodes (k_fs s) !! ip = Some x -> file_ok dev sb L x ->
  0 <= off <= i_size x -> off + Z.of_nat (length src) <= MAXFILE * BSIZE ->
  (cost sb X + 3 * (Z.to_nat (Z.of_nat (length src) / BSIZE) + 3) <= tx_cap)%nat ->
  exists k s1 X' L' x', writei ip (S_local src) off (Z.of_nat (length src)) e s = Ok k e s1 /\
    fsx me pid dev start lsize out X' L' ∅ s1 /\ fs_inodes (k_fs s1) !! ip = Some x' /\ wrote_file dev sb L x off src k L' x' /\
    forall o n, 0 <= o <= i_size x' -> 0 <= n < 2147483648 ->
      exists s2, readi ip D_local o n e s1 =
        Ok (Z.min n (i_size x' - o), slice o n (put off (take (Z.to_nat k) src) (contents L x))) e s2.
Proof.
  intros Hsb Hone Hx Es Hip Hf Ho Hend Hc.
  assert (Hw : wp (writei ip (S_local src) off (Z.of_nat (length src))) e s (fun k e' s1 => e' = e /\ exists X' L' x',
    fsx me pid dev start lsize out X' L' ∅ s1 /\ fs_sb (k_fs s1) = sb /\ fs_inodes (k_fs s1) !! ip = Some x' /\
    wrote_file dev sb L x off src k L' x' /\ (cost sb X' + 2 <= tx_cap)%nat)).
  { eapply writei_wp; [exact Hsb|exact Hone|exact Hx|done..|lia|]. intros k X' L' x' bs l o s' Hx' W Hc'.
    split; [done|]. exists X', L', x'. split; [done|]. split; [done|].
    split; [simpl; by eapply list_lookup_insert_eq, lookup_lt_Some|]. split; [done|lia]. }
  apply wp_elim in Hw as (k & e' & s1 & Hr & -> & X' & L' & x' & Hx1 & Es1 & Hip1 & W & Hc1).
  exists k, s1, X', L', x'. split; [done|]. split; [done|]. split; [done|]. split; [done|]. intros o n Hor Hn.
  assert (Hrd : wp (readi ip D_local o n) e s1 (fun r e' _ => e' = e /\ r = (Z.min n (i_size x' - o), slice o n (contents L' x')))).
  { eapply readi_wp; [exact Hsb|exact Hone|exact Hx1|done|exact Hip1|apply W|done..|]. by intros. }
  apply wp_elim in Hrd as (r & e' & s2 & Hr2 & -> & ->). exists s2. rewrite Hr2. by rewrite (wf_contents _ _ _ _ _ _ _ _ _ W).
Qed.

(** ** A whole system call *)

(** A transaction starts with nothing logged. *)
Lemma fsx_start me pid dev start lsize out L s :
  bc me pid dev (BView L ∅ ∅ ∅) s -> log_is dev start lsize out 0 [] (fs_log (k_fs s)) -> 1 <= out ->
  0 <= start -> start + lsize < 2147483648 -> Z.of_nat tx_cap < lsize - 1 -> fsx me pid dev start lsize out ∅ L ∅ s.
Proof.
  intros Hbc Hl Ho H1 H2 H3. split; [|by intros n ?%elem_of_empty|rewrite size_empty; lia|done|done].
  exists [], ∅. split_and!; [done|done|apply NoDup_nil_2|done|done].
Qed.

(** At its end the blocks are on the disk. *)
Lemma fsx_end `{DD : DiskDriver} me pid dev start lsize X L s e Q :
  fsx me pid dev start lsize 1 X L ∅ s ->
  (forall s', (forall n, ~ in_log start lsize n -> disk_block (fs_disk (k_fs s')) n = L n) ->
     fs_inodes (k_fs s') = fs_inodes (k_fs s) -> Q tt e s') ->
  wp end_op e s Q.
Proof.
  intros [(bl & D & Hbc & HD & Hnd & HX & Hl) H2 H3 (G1 & G2 & G3) H5] HQ.
  pose proof (size_list_to_set_eq _ _ Hnd HX) as Hsz. unfold tx_cap in *.
  assert (Ht : tx_ok start lsize bl).
  { split; [done|done| |unfold LOGSIZE, MAXOPBLOCKS; lia|unfold NBUF; lia].
    intros n Hn. apply H2. rewrite <- HX. by apply elem_of_list_to_set. }
  eapply end_op_wp; [exact Ht|exact Hl|done|exact Hbc|done|simpl; done|done|].
  intros s' (l & W & L' & pins & dirty & _ & Hwr & Hbc' & HL & -> & -> & _). apply HQ.
  - intros n Hn. rewrite <- (bc_clean _ _ _ _ _ Hbc' n) by apply not_elem_of_empty. by apply HL.
  - destruct Hwr as [bs ->]. done.
Qed.

(** The content of a file depends on its data blocks and its map. *)
Lemma contents_ext start lsize dev sb L L' x :
  sb_ok start lsize sb -> file_ok dev sb L x -> (forall n, ~ in_log start lsize n -> L' n = L n) -> contents L' x = contents L x.
Proof.
  intros Hsb [F1 F2 F3 F4 F5 F6] HL. unfold contents, fbytes. apply list_fmap_ext. intros i o Hi.
  apply lookup_seqZ in Hi. assert (Hk : 0 <= slot_of (o / BSIZE) < nslots) by (apply slot_of_range, file_block; lia).
  assert (Hd : forall k, 0 <= k < nslots -> slot L x k <> 0 -> L' (slot L x k) = L (slot L x k)).
  { intros k Hkr Hs. destruct (mo_data _ _ _ F1 k Hkr Hs) as [Hr _]. apply HL. by eapply data_block. }
  assert (Es : slot L' x (slot_of (o / BSIZE)) = slot L x (slot_of (o / BSIZE))).
  { unfold slot. destruct (_ <? 13); [done|]. destruct (Z.eqb_spec (ind x) 0) as [|Hi0]; [done|].
    specialize (Hd 12 ltac:(rewrite nslots_eq; lia) Hi0). change (slot L x 12) with (ind x) in Hd. by rewrite Hd. }
  unfold fbyte. rewrite Es. destruct (Z.eqb_spec (slot L x (slot_of (o / BSIZE))) 0) as [|Hs]; [done|].
  by rewrite Hd.
Qed.

(** A write as filewrite does it: one transaction. *)
Definition write_tx `{DiskDriver} (ip : nat) (src : list Z) (off : Z) : K Z :=
  begin_op ;;
  r ← writei ip (S_local src) off (Z.of_nat (length src));
  end_op ;;
  mret r.

(** C2: A write run as a transaction of its own, on a cache that agrees with
    the disk, is durable: when [end_op] returns, the disk itself holds the
    inode and the file content with the bytes stored at the offset. *)
Theorem write_durable `{DD : DiskDriver} me pid dev start lsize sb s ip x src off e :
  let L := disk_block (fs_disk (k_fs s)) in
  sb_ok start lsize sb -> sb_size sb <= BPB -> start + lsize < 2147483648 -> Z.of_nat tx_cap < lsize - 1 ->
  bc me pid dev (BView L ∅ ∅ ∅) s -> log_is dev start lsize 0 0 [] (fs_log (k_fs s)) -> fs_sb (k_fs s) = sb ->
  fs_inodes (k_fs s) !! ip = Some x -> file_ok dev sb L x ->
  0 <= off <= i_size x -> off + Z.of_nat (length src) <= MAXFILE * BSIZE -> Z.of_nat (length src) <= 3 * BSIZE ->
  exists k s' x', write_tx ip src off e s = Ok k e s' /\ fs_inodes (k_fs s') !! ip = Some x' /\
    0 <= k <= Z.of_nat (length src) /\ (k < Z.of_nat (length src) -> disk_full sb (disk_block (fs_disk (k_fs s')))) /\
    contents (disk_block (fs_disk (k_fs s'))) x' = put off (take (Z.to_nat k) src) (contents L x) /\
    disk_block (fs_disk (k_fs s')) (IBLOCK (i_inum x) sb) =
      dinode_write (sizeof_dinode * (i_inum x mod IPB)) x' (L (IBLOCK (i_inum x) sb)).
Proof.
  intros L Hsb Hone Hg1 Hg2 Hbc Hl Es Hip Hf Ho Hend Hn.
  assert (Hn3 : Z.of_nat (length src) / BSIZE <= 3) by (apply Z.div_le_upper_bound; [done|lia]).
  assert (Hst : 0 <= start) by (destruct Hsb; lia).
  assert (Hc : cost sb ∅ = 1%nat) by (unfold cost; by rewrite union_empty_l_L, size_singleton).
  assert (Hw : wp (write_tx ip src off) e s (fun k e' s' => e' = e /\ exists L' x', fs_inodes (k_fs s') !! ip = Some x' /\
    wrote_file dev sb L x off src k L' x' /\ forall n, ~ in_log start lsize n -> disk_block (fs_disk (k_fs s')) n = L' n)).
  { unfold write_tx. apply wp_seq. destruct Hl as [B1 B2 B3 B4 B5 B6 B7 B8]. simpl in B6.
    eapply wp_run; [eapply begin_op_run; [exact (bc_ctx _ _ _ _ _ Hbc)|done|rewrite B4, B6; done]|].
    apply wp_bind. rewrite B4. eapply (writei_wp me pid dev start lsize 1); [exact Hsb|exact Hone| |exact Es|exact Hip|done|done|done|rewrite Hc; unfold tx_cap; lia|].
    { eapply fsx_start; [by apply bc_set_log|by split|done..]. }
    intros k X' L' x' bs l o s' Hx' W Hc'. apply wp_seq. eapply fsx_end; [exact Hx'|]. intros s2 Hd Hi. apply wp_ret.
    split; [done|]. exists L', x'. split; [rewrite Hi; simpl; by eapply list_lookup_insert_eq, lookup_lt_Some|done]. }
  apply wp_elim in Hw as (k & e' & s' & Hr & -> & L' & x' & Hi & [W1 W2 W3 W4 W5 W6 W7] & Hd).
  exists k, s', x'. split; [done|]. split; [done|]. split; [done|]. split_and!.
  - intros Hlt b Hb. specialize (W4 Hlt b Hb). unfold used in *. rewrite Hd; [done|].
    pose proof (bmap_above _ _ _ Hsb _ Hb). by apply (meta_below _ _ _ Hsb).
  - rewrite <- W3. by eapply contents_ext.
  - rewrite Hd; [done|]. pose proof (IBLOCK_range _ _ _ Hsb _ (fo_inum _ _ _ _ Hf)) as Hib.
    unfold in_log. destruct Hsb. lia.
Qed.
