(* ===== verification/FsInode.v ===== *)
(** fs.c: the table of inodes in memory, and inodes on the disk. *)

From stdpp Require Import functions.
From S2P Require Import Prelude Machine KState Blocks Spinlock Kalloc Proc ProcSpec Sleeplock Bio BioList BioSpec BioProof Log LogSpec LogProof Fs FsSpec FsAlloc FsFile FsIo.

(** ** iget and idup *)

Definition with_inodes (ins : list inode) (s : kst) : kst := set_fs (fs_set_inodes ins (k_fs s)) s.

(** The entry of an inode that is in memory. *)
Definition is_inode (dev inum : Z) (x : inode) : Prop := 0 < i_ref x /\ i_dev x = dev /\ i_inum x = inum.

#[global] Instance is_inode_dec dev inum x : Decision (is_inode dev inum x).
Proof. unfold is_inode. apply _. Defined.

(** What iget promises: the entry of the inode with one reference more, or the
    first empty entry taken for it, or nothing when the table is full. *)
Definition iget_spec (ins : list inode) (dev inum : Z) : option (nat * list inode) :=
  match list_find (is_inode dev inum) ins with
  | Some (ip, x) => Some (ip, <[ip := i_set_ref (i_ref x + 1) x]> ins)
  | None =>
    match list_find (fun x => i_ref x = 0) ins with
    | Some (ip, x) => Some (ip, <[ip := i_set_valid 0 (i_set_ref 1 (i_set_id dev inum x))]> ins)
    | None => None
    end
  end.

(** At most one entry for an inode. *)
Record itable_ok (ins : list inode) : Prop := {
  it_len : length ins = NINODE;
  it_ref : forall i x, ins !! i = Some x -> 0 <= i_ref x;
  it_uniq : forall i j x y, ins !! i = Some x -> ins !! j = Some y -> 0 < i_ref x -> 0 < i_ref y ->
    i_dev x = i_dev y -> i_inum x = i_inum y -> i = j }.

(** The loop, on what is left of the table. *)
Lemma iget_find_run dev inum e s n : forall k empty,
  let ins := fs_inodes (k_fs s) in (k + n = length ins)%nat ->
  iget_find (seq k n) empty dev inum e s =
    Ok (match list_find (is_inode dev inum) (drop k ins) with
        | Some (i, _) => inl (k + i)%nat
        | None => inr (match empty with
                       | Some i => Some i
                       | None => (fun p => (k + p.1)%nat) <$> list_find (fun x => i_ref x = 0) (drop k ins)
                       end)
        end) e s.
Proof.
  induction n as [|n IH]; intros k empty ins Hn; cbn [seq iget_find].
  { rewrite drop_ge by lia. by destruct empty. }
  destruct (lookup_lt_is_Some_2 ins k) as [x Hx]; [lia|].
  erewrite bind_run by (by apply get_inode_run). rewrite (drop_S _ _ _ Hx). cbn [list_find].
  destruct (decide (is_inode dev inum x)) as [(H1 & H2 & H3)|Hni].
  - rewrite Z.gtb_ltb, (proj2 (Z.ltb_lt _ _) H1), (proj2 (Z.eqb_eq _ _) H2), (proj2 (Z.eqb_eq _ _) H3). by rewrite Nat.add_0_r.
  - assert (E : (i_ref x >? 0) && (i_dev x =? dev) && (i_inum x =? inum) = false).
    { apply not_true_iff_false. rewrite !andb_true_iff. intros [[?%Z.gtb_lt ?%Z.eqb_eq] ?%Z.eqb_eq]. by apply Hni. }
    rewrite E, IH by (unfold ins in Hn; lia). fold ins. do 2 f_equal.
    destruct (list_find (is_inode dev inum) (drop (S k) ins)) as [[i y]|]; [simpl; f_equal; lia|]. simpl. f_equal.
    destruct empty as [i|]; [done|]. rewrite bool_decide_eq_true_2 by done. cbn [andb].
    destruct (decide (i_ref x = 0)) as [E0|E0].
    + rewrite E0. simpl. by rewrite Nat.add_0_r.
    + rewrite (proj2 (Z.eqb_neq _ _) E0). destruct (list_find _ (drop (S k) ins)) as [[i y]|]; [|done]. simpl. f_equal. lia.
Qed.

Lemma iget_run me pid dev inum e s :
  fctx me pid s -> length (fs_inodes (k_fs s)) = NINODE ->
  iget dev inum e s = match iget_spec (fs_inodes (k_fs s)) dev inum with
                      | Some (ip, ins) => Ok ip e (with_inodes ins s)
                      | None => Panic "iget: no inodes"
                      end.
Proof.
  intros Hf Hlen. pose proof (fctx_hart _ _ _ Hf) as Hh. assert (Hl : lock_free L_itable (k_hw s)) by (by apply (fc_locks _ _ _ Hf)).
  unfold iget. erewrite bind_run by (by apply acquire_run).
  erewrite bind_run by (apply iget_find_run; simpl; by rewrite Hlen). cbn [k_fs set_hw]. rewrite drop_0. unfold iget_spec.
  destruct (list_find (is_inode dev inum) _) as [[ip x]|] eqn:E1.
  - apply list_find_Some in E1 as (Hx & _ & _). cbn [Nat.add].
    erewrite bind_run by (by apply upd_inode_run). erewrite bind_run by (by rewrite (release_run _ _ _ (k_hw s))). by destruct s.
  - destruct (list_find (fun x => i_ref x = 0) (fs_inodes (k_fs s))) as [[ip x]|] eqn:E2; [|done]. apply list_find_Some in E2 as (Hx & _ & _). cbn [fmap option_fmap option_map fst Nat.add].
    assert (Hlt : (ip < length (fs_inodes (k_fs s)))%nat) by (by eapply lookup_lt_Some).
    erewrite bind_run by (by apply upd_inode_run).
    erewrite bind_run by (apply upd_inode_run; simpl; by apply list_lookup_insert_eq).
    erewrite bind_run by (apply upd_inode_run; simpl; rewrite list_insert_insert_eq; by apply list_lookup_insert_eq).
    erewrite bind_run by (by rewrite (release_run _ _ _ (k_hw s))).
    unfold with_inodes. simpl. rewrite !list_insert_insert_eq. by destruct s.
Qed.

(** Replacing an entry by one for an inode no other entry has. *)
Lemma itable_ok_upd ins i x x' :
  itable_ok ins -> ins !! i = Some x -> 0 <= i_ref x' ->
  (forall j y, ins !! j = Some y -> j <> i -> 0 < i_ref y -> 0 < i_ref x' -> i_dev y = i_dev x' -> i_inum y = i_inum x' -> False) ->
  itable_ok (<[i := x']> ins).
Proof.
  intros [H1 H2 H3] Hx Hr Hnew. split.
  - by rewrite length_insert.
  - intros j y [(-> & -> & _)|[_ Hy]]%list_lookup_insert_Some; [done|by eapply H2].
  - intros j k y z [(-> & <- & _)|[Hj Hy]]%list_lookup_insert_Some [(-> & <- & _)|[Hk Hz]]%list_lookup_insert_Some R1 R2 E1 E2.
    + done.
    + exfalso. by eapply (Hnew k z).
    + exfalso. by eapply (Hnew j y).
    + by eapply (H3 j k y z).
Qed.

(** [iget] refines the table's specification: it returns the entry that
    caches the inode with one reference more, else the first empty entry set
    up for it and not yet valid, and panics exactly when the table is full.
    No inode ever gets two entries. *)
Theorem iget_correct me pid dev inum e s :
  fctx me pid s -> itable_ok (fs_inodes (k_fs s)) ->
  iget dev inum e s = match iget_spec (fs_inodes (k_fs s)) dev inum with
                      | Some (ip, ins) => Ok ip e (with_inodes ins s)
                      | None => Panic "iget: no inodes"
                      end /\
  forall ip ins, iget_spec (fs_inodes (k_fs s)) dev inum = Some (ip, ins) ->
    itable_ok ins /\ (exists x, ins !! ip = Some x /\ is_inode dev inum x) /\
    forall j, j <> ip -> ins !! j = fs_inodes (k_fs s) !! j.
Proof.
  intros Hf [H1 H2 H3]. split; [by apply (iget_run me pid)|]. intros ip ins. unfold iget_spec.
  destruct (list_find (is_inode dev inum) _) as [[i x]|] eqn:E1.
  - apply list_find_Some in E1 as (Hx & (R & D & N) & _). intros [= <- <-]. split; [|split].
    + apply (itable_ok_upd _ i x); [by split|done|simpl; lia|].
      intros j y Hj Hne Hy _ Ed En. apply Hne, (H3 j i y x); done.
    + eexists. split; [by eapply list_lookup_insert_eq, lookup_lt_Some|]. split; [simpl; lia|done].
    + intros j Hj. by apply list_lookup_insert_ne.
  - apply list_find_None in E1. destruct (list_find _ _) as [[i x]|] eqn:E2; [|done].
    apply list_find_Some in E2 as (Hx & R & _). intros [= <- <-]. split; [|split].
    + apply (itable_ok_upd _ i x); [by split|done|simpl; lia|].
      intros j y Hj Hne Hy _ Ed En. rewrite Forall_lookup in E1. by apply (E1 j y Hj).
    + eexists. split; [by eapply list_lookup_insert_eq, lookup_lt_Some|]. split; [simpl; lia|done].
    + intros j Hj. by apply list_lookup_insert_ne.
Qed.

(** ** Inodes on the disk *)

(** A part of what was stored. *)
Lemma slice_put_in off src l a n :
  0 <= off -> off + Z.of_nat (length src) <= Z.of_nat (length l) -> 0 <= a -> a + n <= Z.of_nat (length src) ->
  slice (off + a) n (put off src l) = slice a n src.
Proof.
  intros. apply list_eq. intros i. rewrite !lookup_slice by lia. case_decide; [|done].
  rewrite lookup_put, decide_True by lia. f_equal. lia.
Qed.

Lemma slice_words l : forall k v, l !! k = Some v -> slice (4 * Z.of_nat k) 4 (concat (le_bytes 4 <$> l)) = le_bytes 4 v.
Proof.
  induction l as [|w l IH]; intros k v Hk; [done|]. cbn [fmap list_fmap concat].
  destruct k as [|k].
  - injection Hk as ->. unfold slice. rewrite drop_0, take_app_le by (by rewrite length_le_bytes).
    by rewrite take_ge by (by rewrite length_le_bytes).
  - rewrite <- (IH k v Hk). unfold slice. f_equal.
    rewrite drop_app_ge by (rewrite length_le_bytes; lia). f_equal. rewrite length_le_bytes. lia.
Qed.

Ltac stored_len := apply length_put; rewrite ?length_le_bytes; lia.
Ltac elsewhere := intros; apply slice_put_ne; rewrite ?length_le_bytes; lia.

Lemma load_stored off m v l : 0 <= off -> off + Z.of_nat m <= Z.of_nat (length l) ->
  le_val (slice off (Z.of_nat m) (put off (le_bytes m v) l)) = v mod 256 ^ Z.of_nat m.
Proof.
  intros. rewrite <- (length_le_bytes m v) at 1. rewrite slice_put by (rewrite ?length_le_bytes; lia). apply le_val_bytes.
Qed.

Lemma i16_u16 v : -32768 <= v < 32768 -> i16 (u16 v) = v.
Proof. intros. width_lia. Qed.

(** The fields fit the disk's. *)
Record dinode_fits (x : inode) : Prop := {
  df_type : -32768 <= i_type x < 32768;
  df_major : -32768 <= i_major x < 32768;
  df_minor : -32768 <= i_minor x < 32768;
  df_nlink : -32768 <= i_nlink x < 32768;
  df_size : 0 <= i_size x < 4294967296;
  df_len : length (i_addrs x) = 13%nat;
  df_addrs : forall k a, i_addrs x !! k = Some a -> 0 <= a < 4294967296 }.

(** The inode stored at an offset of a block, and the bytes around it. *)
Lemma dinode_stored off x y d :
  dinode_fits x -> 0 <= off -> off + 64 <= Z.of_nat (length d) ->
  dinode_read off (dinode_write off x d) y =
    Inode (i_dev y) (i_inum y) (i_ref y) (i_lock y) (i_valid y) (i_type x) (i_major x) (i_minor x) (i_nlink x) (i_size x) (i_addrs x) /\
  forall a n, 0 <= a -> a + n <= off \/ off + 64 <= a -> slice a n (dinode_write off x d) = slice a n d.
Proof.
  intros [T1 T2 T3 T4 T5 T6 T7] Ho Hd.
  set (d1 := put off (le_bytes 2 (i_type x)) d). assert (E1 : length d1 = length d) by (stored_len).
  set (d2 := put (off + 2) (le_bytes 2 (i_major x)) d1). assert (E2 : length d2 = length d) by (rewrite <- E1; stored_len).
  set (d3 := put (off + 4) (le_bytes 2 (i_minor x)) d2). assert (E3 : length d3 = length d) by (rewrite <- E2; stored_len).
  set (d4 := put (off + 6) (le_bytes 2 (i_nlink x)) d3). assert (E4 : length d4 = length d) by (rewrite <- E3; stored_len).
  set (d5 := put (off + 8) (le_bytes 4 (i_size x)) d4). assert (E5 : length d5 = length d) by (rewrite <- E4; stored_len).
  set (w := concat (le_bytes 4 <$> i_addrs x)). assert (Ew : length w = 52%nat) by (unfold w; rewrite length_addr_bytes, T6; done).
  change (dinode_write off x d) with (put (off + 12) w d5).
  assert (Hw : forall a n, 0 <= a -> a + n <= off + 12 \/ off + 64 <= a -> slice a n (put (off + 12) w d5) = slice a n d5).
  { intros. apply slice_put_ne; rewrite ?Ew; lia. }
  assert (S5 : forall a n, 0 <= a -> a + n <= off + 8 \/ off + 12 <= a -> slice a n d5 = slice a n d4) by (elsewhere).
  assert (S4 : forall a n, 0 <= a -> a + n <= off + 6 \/ off + 8 <= a -> slice a n d4 = slice a n d3) by (elsewhere).
  assert (S3 : forall a n, 0 <= a -> a + n <= off + 4 \/ off + 6 <= a -> slice a n d3 = slice a n d2) by (elsewhere).
  assert (S2 : forall a n, 0 <= a -> a + n <= off + 2 \/ off + 4 <= a -> slice a n d2 = slice a n d1) by (elsewhere).
  assert (S1 : forall a n, 0 <= a -> a + n <= off \/ off + 2 <= a -> slice a n d1 = slice a n d) by (elsewhere).
  split.
  - assert (A1 : get16 off (put (off + 12) w d5) = u16 (i_type x)).
    { unfold get16. rewrite Hw, S5, S4, S3, S2 by lia. apply (load_stored off 2); lia. }
    assert (A2 : get16 (off + 2) (put (off + 12) w d5) = u16 (i_major x)).
    { unfold get16. rewrite Hw, S5, S4, S3 by lia. apply (load_stored (off + 2) 2); lia. }
    assert (A3 : get16 (off + 4) (put (off + 12) w d5) = u16 (i_minor x)).
    { unfold get16. rewrite Hw, S5, S4 by lia. apply (load_stored (off + 4) 2); lia. }
    assert (A4 : get16 (off + 6) (put (off + 12) w d5) = u16 (i_nlink x)).
    { unfold get16. rewrite Hw, S5 by lia. apply (load_stored (off + 6) 2); lia. }
    assert (A5 : get32 (off + 8) (put (off + 12) w d5) = i_size x).
    { unfold get32. rewrite Hw by lia. etrans; [apply (load_stored (off + 8) 4); lia|]. by apply Z.mod_small. }
    assert (A6 : (fun k => get32 (off + 12 + 4 * k) (put (off + 12) w d5)) <$> seqZ 0 13 = i_addrs x).
    { apply list_eq. intros k. rewrite list_lookup_fmap. destruct (decide (k < 13)%nat) as [Hk|Hk].
      - destruct (lookup_lt_is_Some_2 (i_addrs x) k) as [v Hv]; [lia|]. rewrite Hv.
        rewrite (proj2 (lookup_seqZ 0 13 k (Z.of_nat k))) by lia. simpl. f_equal. unfold get32.
        rewrite slice_put_in by (rewrite ?Ew; lia). unfold w. rewrite (slice_words _ _ _ Hv), le_val_bytes.
        apply Z.mod_small. by apply T7 with k.
      - rewrite lookup_seqZ_ge by lia. symmetry. apply lookup_ge_None_2. lia. }
    unfold dinode_read. rewrite A1, A2, A3, A4, A5, A6. unfold i_set_addrs, i_set_size, i_set_nlink, i_set_minor, i_set_major, i_set_type.
    cbn [i_dev i_inum i_ref i_lock i_valid i_type i_major i_minor i_nlink i_size i_addrs].
    f_equal; by apply i16_u16.
  - intros a n Ha Hout. rewrite Hw, S5, S4, S3, S2, S1 by lia. done.
Qed.

(** What [iupdate] stores of an inode is what [ilock] reads back, field by
    field, and the other inodes of the block keep their bytes. *)
Theorem dinode_roundtrip off x y d :
  dinode_fits x -> 0 <= off -> off + 64 <= Z.of_nat (length d) ->
  dinode_read off (dinode_write off x d) y =
    Inode (i_dev y) (i_inum y) (i_ref y) (i_lock y) (i_valid y) (i_type x) (i_major x) (i_minor x) (i_nlink x) (i_size x) (i_addrs x) /\
  forall a n, 0 <= a -> a + n <= off \/ off + 64 <= a -> slice a n (dinode_write off x d) = slice a n d.
Proof. apply dinode_stored. Qed.
