(* ===== verification/FsDir.v ===== *)
(** fs.c: directories as lists of entries. *)

From stdpp Require Import functions.
From S2P Require Import Prelude Machine KState Blocks Spinlock Kalloc Proc ProcSpec Sleeplock Bio BioList BioSpec BioProof Log LogSpec LogProof Fs FsSpec FsAlloc FsFile FsIo FsInode.

(** ** Names *)

(** The name an array of bytes stands for: at most DIRSIZ bytes, up to a nul. *)
Fixpoint cut (n : nat) (l : list Z) : list Z :=
  match n, l with
  | S n, c :: l => if c =? 0 then [] else c :: cut n l
  | _, _ => []
  end.
Definition name_of (l : list Z) : list Z := cut DIRSIZ l.

Lemma strncmp_cut n : forall s t, strncmp_l n s t = 0 <-> cut n s = cut n t.
Proof.
  induction n as [|n IH]; intros s t; [by destruct s, t|]. cbn [strncmp_l].
  destruct s as [|a s], t as [|b t]; cbn [hd_error default tail cut].
  - done.
  - simpl. destruct (Z.eqb_spec b 0) as [->|Hb]; [done|]. split; [lia|done].
  - simpl. destruct (Z.eqb_spec a 0) as [->|Ha]; [done|]. simpl. destruct (Z.eqb_spec a 0); [done|]. split; [lia|done].
  - simpl. destruct (Z.eqb_spec a 0) as [->|Ha]; simpl.
    + destruct (Z.eqb_spec b 0) as [->|Hb]; [done|]. split; [lia|done].
    + destruct (Z.eqb_spec a b) as [<-|Hab].
      * rewrite (proj2 (Z.eqb_neq _ _) Ha). rewrite IH. split; [by intros ->|by intros [= ->]].
      * destruct (Z.eqb_spec b 0) as [->|Hb]; [split; [lia|done]|]. split; [lia|congruence].
Qed.

(** namecmp compares the names. *)
Lemma namecmp_name s t : namecmp s t = 0 <-> name_of s = name_of t.
Proof. apply strncmp_cut. Qed.

(** strncpy keeps the name. *)
Lemma cut_strncpy n : forall t, cut n (strncpy_l n t) = cut n t.
Proof.
  induction n as [|n IH]; intros t; [done|]. cbn [strncpy_l]. destruct t as [|a t]; [done|]. cbn [hd_error default tail].
  simpl. destruct (Z.eqb_spec a 0) as [->|Ha]; [done|]. simpl. rewrite (proj2 (Z.eqb_neq _ _) Ha). by rewrite IH.
Qed.

Lemma length_strncpy n : forall t, length (strncpy_l n t) = n.
Proof.
  induction n as [|n IH]; intros t; [done|]. cbn [strncpy_l]. destruct (_ =? 0); [by rewrite length_replicate|].
  simpl. by rewrite IH.
Qed.

(** ** Entries *)

(** Entry [k] of a directory with the given content, and all of them. *)
Definition entry_at (c : list Z) (k : Z) : dirent := dirent_read (slice (sizeof_dirent * k) sizeof_dirent c).
Definition entries (c : list Z) : list dirent := entry_at c <$> seqZ 0 (Z.of_nat (length c) / sizeof_dirent).

(** The entry in use for a name. *)
Definition names (name : list Z) (de : dirent) : Prop := de_inum de <> 0 /\ name_of (de_name de) = name_of name.
#[global] Instance names_dec name de : Decision (names name de).
Proof. unfold names. apply _. Defined.

Definition lookup_name (name : list Z) (des : list dirent) : option (nat * dirent) := list_find (names name) des.

Lemma dirent_roundtrip de : 0 <= de_inum de < 65536 -> length (de_name de) = DIRSIZ -> dirent_read (dirent_write de) = de.
Proof.
  intros Hi Hn. destruct de as [inum name]. unfold dirent_read, dirent_write. cbn [de_inum de_name] in *. f_equal.
  - unfold get16, slice. rewrite drop_0, take_app_le by (by rewrite length_le_bytes).
    rewrite take_ge by (by rewrite length_le_bytes). rewrite le_val_bytes. by apply Z.mod_small.
  - unfold slice. rewrite drop_app_ge by (by rewrite length_le_bytes). rewrite length_le_bytes. simpl.
    apply take_ge. rewrite Hn. done.
Qed.

Lemma length_dirent_write de : length (de_name de) = DIRSIZ -> length (dirent_write de) = 16%nat.
Proof. intros Hn. unfold dirent_write. rewrite length_app, length_le_bytes, Hn. done. Qed.

Lemma length_put_entry c k de :
  Z.of_nat (length c) mod sizeof_dirent = 0 -> 0 <= k <= Z.of_nat (length c) / sizeof_dirent -> length (de_name de) = DIRSIZ ->
  Z.of_nat (length (put (sizeof_dirent * k) (dirent_write de) c)) =
    sizeof_dirent * Z.max (Z.of_nat (length c) / sizeof_dirent) (k + 1).
Proof.
  intros Hmod Hk Hn. unfold sizeof_dirent in *. pose proof (length_dirent_write de Hn) as Hw.
  pose proof (Z.div_mod (Z.of_nat (length c)) 16 ltac:(done)).
  unfold put. rewrite !length_app, length_take, length_drop, Hw. lia.
Qed.

(** Storing an entry changes that entry. *)
Lemma entries_put c k de :
  Z.of_nat (length c) mod sizeof_dirent = 0 -> 0 <= k <= Z.of_nat (length c) / sizeof_dirent ->
  0 <= de_inum de < 65536 -> length (de_name de) = DIRSIZ ->
  entries (put (sizeof_dirent * k) (dirent_write de) c) =
    if decide (k < Z.of_nat (length c) / sizeof_dirent) then <[Z.to_nat k := de]> (entries c) else entries c ++ [de].
Proof.
  intros Hmod Hk Hi Hn. unfold sizeof_dirent in *. pose proof (length_dirent_write de Hn) as Hw.
  set (m := Z.of_nat (length c) / 16) in *. assert (Hlen : Z.of_nat (length c) = 16 * m) by (pose proof (Z.div_mod (Z.of_nat (length c)) 16 ltac:(done)); lia).
  pose proof (length_put_entry c k de Hmod Hk Hn) as Hl. unfold sizeof_dirent in Hl. fold m in Hl.
  assert (Hent : forall j, 0 <= j < Z.max m (k + 1) -> entry_at (put (16 * k) (dirent_write de) c) j = if decide (j = k) then de else entry_at c j).
  { intros j Hj. unfold entry_at, sizeof_dirent. case_decide as E.
    - subst j. rewrite <- (dirent_roundtrip de Hi Hn) at 2. f_equal. apply list_eq. intros i.
      rewrite lookup_slice, lookup_put by lia. repeat case_decide; try lia; [f_equal; lia|].
      symmetry. apply lookup_ge_None_2. lia.
    - f_equal. apply list_eq. intros i. rewrite !lookup_slice, lookup_put by lia. case_decide; [|done]. by rewrite decide_False by lia. }
  unfold entries. rewrite Hl. unfold sizeof_dirent. rewrite (Z.mul_comm 16 (Z.max _ _)), Z.div_mul by done. fold m.
  apply list_eq. intros i. rewrite list_lookup_fmap. case_decide as Ek.
  - rewrite Z.max_l by lia. destruct (decide (Z.of_nat i < m)) as [Him|Him].
    + rewrite (proj2 (lookup_seqZ 0 m i (Z.of_nat i))) by lia. simpl. rewrite Hent by lia. case_decide as E.
      * replace (Z.to_nat k) with i by lia. rewrite list_lookup_insert_eq; [done|]. rewrite length_fmap, length_seqZ. lia.
      * rewrite list_lookup_insert_ne by lia. rewrite list_lookup_fmap.
        by rewrite (proj2 (lookup_seqZ 0 m i (Z.of_nat i))) by lia.
    + rewrite lookup_seqZ_ge by lia. symmetry. apply lookup_ge_None_2. rewrite length_insert, length_fmap, length_seqZ. lia.
  - assert (k = m) as -> by lia. rewrite Z.max_r by lia. destruct (decide (Z.of_nat i < m + 1)) as [Him|Him].
    + rewrite (proj2 (lookup_seqZ 0 (m + 1) i (Z.of_nat i))) by lia. simpl. rewrite Hent by lia. case_decide as E.
      * rewrite lookup_app_r by (rewrite length_fmap, length_seqZ; lia). rewrite length_fmap, length_seqZ.
        by replace (i - Z.to_nat m)%nat with 0%nat by lia.
      * rewrite lookup_app_l by (rewrite length_fmap, length_seqZ; lia). rewrite list_lookup_fmap.
        by rewrite (proj2 (lookup_seqZ 0 m i (Z.of_nat i))) by lia.
    + rewrite lookup_seqZ_ge by lia. symmetry. apply lookup_ge_None_2. rewrite length_app, length_fmap, length_seqZ. simpl. lia.
Qed.

Lemma entries_lookup c k : 0 <= k < Z.of_nat (length c) / sizeof_dirent -> entries c !! Z.to_nat k = Some (entry_at c k).
Proof. intros Hk. unfold entries. rewrite list_lookup_fmap. by rewrite (proj2 (lookup_seqZ 0 _ (Z.to_nat k) k)) by lia. Qed.

Lemma length_entries c : length (entries c) = Z.to_nat (Z.of_nat (length c) / sizeof_dirent).
Proof. unfold entries. by rewrite length_fmap, length_seqZ. Qed.

(** ** dirlookup *)

Section dir.
Context (me : nat) (pid dev start lsize out : Z) (DD : DiskDriver) (sb : superblock) (Hsb : sb_ok start lsize sb).
Context (Hone : sb_size sb <= BPB).
Notation fsx := (fsx me pid dev start lsize out).
Notation cost := (cost sb).

(** A directory: a file of whole entries. *)
Record dir_ok (L : Z -> list Z) (x : inode) : Prop := {
  do_file : file_ok dev sb L x;
  do_type : i_type x = T_DIR;
  do_whole : i_size x mod sizeof_dirent = 0 }.

Lemma fsx_iget X L s inum ip ins e Q :
  fsx X L ∅ s -> length (fs_inodes (k_fs s)) = NINODE -> iget_spec (fs_inodes (k_fs s)) dev inum = Some (ip, ins) ->
  (fsx X L ∅ (with_inodes ins s) -> Q ip e (with_inodes ins s)) -> wp (iget dev inum) e s Q.
Proof.
  intros Hx Hlen Hs HQ. eapply wp_run; [by rewrite (iget_run me pid) by (done || by eapply fsx_ctx); rewrite Hs|].
  apply HQ. by eapply fsx_ext, Hx.
Qed.

(** What dirlookup finds from entry [k] on. *)
Definition found (des : list dirent) (ins : list inode) (name : list Z) (r : option (nat * Z)) (ins' : list inode) : Prop :=
  match lookup_name name des with
  | None => r = None /\ ins' = ins
  | Some (k, de) => exists ip, iget_spec ins dev (de_inum de) = Some (ip, ins') /\ r = Some (ip, sizeof_dirent * Z.of_nat k)
  end.

Lemma dirlookup_loop_wp fuel X L dp x name e Q : forall s (k : nat),
  fsx X L ∅ s -> fs_sb (k_fs s) = sb -> fs_inodes (k_fs s) !! dp = Some x -> dir_ok L x ->
  (cost X + 2 <= tx_cap)%nat -> length (fs_inodes (k_fs s)) = NINODE ->
  (k <= length (entries (contents L x)))%nat -> (length (entries (contents L x)) - k < fuel)%nat ->
  (forall j, (j < k)%nat -> forall de, entries (contents L x) !! j = Some de -> ~ names name de) ->
  (forall k de, lookup_name name (entries (contents L x)) = Some (k, de) -> is_Some (iget_spec (fs_inodes (k_fs s)) dev (de_inum de))) ->
  (forall r bs l ins o, let s' := fsv bs l ins o s in
     fsx X L ∅ s' -> found (entries (contents L x)) (fs_inodes (k_fs s)) name r ins -> Q r e s') ->
  wp (dirlookup_loop fuel dp name (sizeof_dirent * Z.of_nat k)) e s Q.
Proof.
  induction fuel as [|fuel IH]; intros s k Hx Es Hdp Hdir Hc Hlen Hk Hf Hbefore Hroom HQ; [lia|]. cbn [dirlookup_loop].
  pose proof Hdir as [Hfile Htype Hwhole]. pose proof Hfile as [F1 F2 F3 F4 F5 F6].
  rewrite length_entries, length_contents in Hk, Hf. rewrite Z2Nat.id in Hk, Hf by lia. unfold sizeof_dirent in *.
  assert (Hsz : i_size x = 16 * (i_size x / 16)) by (pose proof (Z.div_mod (i_size x) 16 ltac:(done)); lia).
  assert (HM : MAXFILE * BSIZE = 274432) by done.
  apply wp_bind. eapply wp_run; [by apply get_inode_run|].
  destruct (Z.ltb_spec (16 * Z.of_nat k) (i_size x)) as [Hlt|Hge].
  - apply wp_bind. eapply readi_wp; [exact Hsb|exact Hone|exact Hx|done|exact Hdp|done|lia|lia|done|].
    intros bs l o s1 Hx1. rewrite Z.min_l by lia. cbn [fst snd].
    apply wp_seq. change (negb (16 =? 16)) with false. apply wp_ret. cbv zeta.
    change (dirent_read (slice (16 * Z.of_nat k) 16 (contents L x))) with (entry_at (contents L x) (Z.of_nat k)).
    set (de := entry_at (contents L x) (Z.of_nat k)).
    assert (Hde : entries (contents L x) !! k = Some de).
    { rewrite <- (Nat2Z.id k). apply entries_lookup. rewrite length_contents, Z2Nat.id by lia. unfold sizeof_dirent. lia. }
    assert (Hskip : ~ names name de -> wp (dirlookup_loop fuel dp name (u32 (16 * Z.of_nat k + 16))) e s1 Q).
    { intros Hn. rewrite u32_small by lia. replace (16 * Z.of_nat k + 16) with (16 * Z.of_nat (S k)) by lia.
      eapply IH; [exact Hx1|done|exact Hdp|done|done|done|rewrite length_entries, length_contents, Z2Nat.id; unfold sizeof_dirent; lia
        |rewrite length_entries, length_contents, Z2Nat.id; unfold sizeof_dirent; lia| |done|].
      - intros j Hj de' Hde'. destruct (decide (j = k)) as [->|]; [congruence|]. apply (Hbefore j); [lia|done].
      - intros r bs2 l2 ins o2 Hx2 Hfd. by apply (HQ r bs2 l2 ins o2). }
    destruct (Z.eqb_spec (de_inum de) 0) as [E0|E0].
    { apply Hskip. intros [? _]. done. }
    destruct (Z.eqb_spec (namecmp name (de_name de)) 0) as [En|En].
    + apply namecmp_name in En. apply wp_bind. eapply wp_run; [by apply get_inode_run|]. rewrite F5.
      assert (Hfd : lookup_name name (entries (contents L x)) = Some (k, de)).
      { apply list_find_Some. split; [done|]. split; [done|]. intros j y Hy Hj. by apply (Hbefore j). }
      destruct (Hroom k de Hfd) as [[ip ins] Hig]. apply wp_bind. eapply fsx_iget; [exact Hx1|done|exact Hig|].
      intros Hx2. apply wp_ret. apply (HQ (Some (ip, 16 * Z.of_nat k)) bs l ins o Hx2).
      unfold found. rewrite Hfd. by exists ip.
    + apply Hskip. intros [_ ?]. apply En, namecmp_name. done.
  - apply wp_ret. specialize (HQ None (fs_bufs (k_fs s)) (fs_log (k_fs s)) (fs_inodes (k_fs s)) (k_out s)). rewrite fsv_id in HQ.
    apply HQ; [done|]. assert (Hfd : lookup_name name (entries (contents L x)) = None).
    { apply list_find_None, Forall_lookup. intros j y Hy. apply (Hbefore j); [|done].
      apply lookup_lt_Some in Hy. rewrite length_entries, length_contents, Z2Nat.id in Hy by lia. unfold sizeof_dirent in Hy. lia. }
    unfold found. by rewrite Hfd.
Qed.


Lemma dirlookup_wp X L dp x name e s Q :
  fsx X L ∅ s -> fs_sb (k_fs s) = sb -> fs_inodes (k_fs s) !! dp = Some x -> dir_ok L x ->
  (cost X + 2 <= tx_cap)%nat -> length (fs_inodes (k_fs s)) = NINODE ->
  (forall k de, lookup_name name (entries (contents L x)) = Some (k, de) -> is_Some (iget_spec (fs_inodes (k_fs s)) dev (de_inum de))) ->
  (forall r bs l ins o, let s' := fsv bs l ins o s in
     fsx X L ∅ s' -> found (entries (contents L x)) (fs_inodes (k_fs s)) name r ins -> Q r e s') ->
  wp (dirlookup dp name) e s Q.
Proof.
  intros Hx Es Hdp Hdir Hc Hlen Hroom HQ. pose proof Hdir as [Hfile Htype Hwhole]. unfold dirlookup.
  apply wp_bind. eapply wp_run; [by apply get_inode_run|]. rewrite Htype. cbn [Z.eqb negb when].
  apply wp_seq, wp_ret. change 0 with (sizeof_dirent * Z.of_nat 0).
  eapply dirlookup_loop_wp; [exact Hx|done|exact Hdp|done|done|done|lia| |by intros j Hj; lia|done|done].
  rewrite length_entries, length_contents, Z2Nat.id by (destruct Hfile; lia). lia.
Qed.

(** ** dirlink *)

(** The entry dirlink writes: the first one not in use, or a new one. *)
Definition free_entry (des : list dirent) : nat :=
  match list_find (fun de => de_inum de = 0) des with Some (k, _) => k | None => length des end.

Lemma dirlink_find_wp fuel X L dp x e Q : forall s (k : nat),
  fsx X L ∅ s -> fs_sb (k_fs s) = sb -> fs_inodes (k_fs s) !! dp = Some x -> dir_ok L x ->
  (cost X + 2 <= tx_cap)%nat ->
  (k <= length (entries (contents L x)))%nat -> (length (entries (contents L x)) - k < fuel)%nat ->
  (forall j, (j < k)%nat -> forall de, entries (contents L x) !! j = Some de -> de_inum de <> 0) ->
  (forall bs l o, let s' := fsv bs l (fs_inodes (k_fs s)) o s in
     fsx X L ∅ s' -> Q (sizeof_dirent * Z.of_nat (free_entry (entries (contents L x)))) e s') ->
  wp (dirlink_find fuel dp (sizeof_dirent * Z.of_nat k)) e s Q.
Proof.
  induction fuel as [|fuel IH]; intros s k Hx Es Hdp Hdir Hc Hk Hf Hbefore HQ; [lia|]. cbn [dirlink_find].
  pose proof Hdir as [Hfile Htype Hwhole]. pose proof Hfile as [F1 F2 F3 F4 F5 F6].
  assert (Hne : length (entries (contents L x)) = Z.to_nat (i_size x / sizeof_dirent)).
  { by rewrite length_entries, length_contents, Z2Nat.id by lia. }
  unfold sizeof_dirent in *.
  assert (Hsz : i_size x = 16 * (i_size x / 16)) by (pose proof (Z.div_mod (i_size x) 16 ltac:(done)); lia).
  assert (HM : MAXFILE * BSIZE = 274432) by done.
  apply wp_bind. eapply wp_run; [by apply get_inode_run|].
  destruct (Z.ltb_spec (16 * Z.of_nat k) (i_size x)) as [Hlt|Hge].
  - apply wp_bind. eapply readi_wp; [exact Hsb|exact Hone|exact Hx|done|exact Hdp|done|lia|lia|done|].
    intros bs l o s1 Hx1. rewrite Z.min_l by lia. cbn [fst snd].
    apply wp_seq. change (negb (16 =? 16)) with false. apply wp_ret.
    change (dirent_read (slice (16 * Z.of_nat k) 16 (contents L x))) with (entry_at (contents L x) (Z.of_nat k)).
    set (de := entry_at (contents L x) (Z.of_nat k)).
    assert (Hde : entries (contents L x) !! k = Some de).
    { rewrite <- (Nat2Z.id k). apply entries_lookup. rewrite length_contents, Z2Nat.id by lia. unfold sizeof_dirent. lia. }
    destruct (Z.eqb_spec (de_inum de) 0) as [E0|E0].
    + apply wp_ret. replace k with (free_entry (entries (contents L x))); [by apply (HQ bs l o)|]. unfold free_entry.
      assert (E : list_find (fun de => de_inum de = 0) (entries (contents L x)) = Some (k, de)).
      { apply list_find_Some. split; [done|]. split; [done|]. intros j y Hy Hj. by apply (Hbefore j). }
      by rewrite E.
    + replace (16 * Z.of_nat k + 16) with (16 * Z.of_nat (S k)) by lia.
      eapply IH; [exact Hx1|done|exact Hdp|done|done|lia|lia| |].
      * intros j Hj de' Hde'. destruct (decide (j = k)) as [->|]; [congruence|]. apply (Hbefore j); [lia|done].
      * intros bs2 l2 o2 Hx2. by apply (HQ bs2 l2 o2).
  - apply wp_ret. specialize (HQ (fs_bufs (k_fs s)) (fs_log (k_fs s)) (k_out s)). rewrite fsv_id in HQ.
    replace k with (free_entry (entries (contents L x))); [by apply HQ|]. unfold free_entry.
    assert (E : list_find (fun de => de_inum de = 0) (entries (contents L x)) = None).
    { apply list_find_None, Forall_lookup. intros j y Hy. apply (Hbefore j); [|done]. apply lookup_lt_Some in Hy. lia. }
    rewrite E. lia.
Qed.

Lemma free_entry_le des : (free_entry des <= length des)%nat.
Proof.
  unfold free_entry. destruct (list_find _ _) as [[k de]|] eqn:E; [|lia].
  apply list_find_Some in E as [H _]. apply lookup_lt_Some in H. lia.
Qed.

(** The directory with an entry added. *)
Definition add_entry (des : list dirent) (de : dirent) : list dirent :=
  let k := free_entry des in if decide (k < length des)%nat then <[k := de]> des else des ++ [de].

Lemma lookup_add_same des de name :
  names name de -> lookup_name name des = None -> exists k, lookup_name name (add_entry des de) = Some (k, de).
Proof.
  intros Hn Hnone. apply list_find_None in Hnone. rewrite Forall_lookup in Hnone. exists (free_entry des).
  pose proof (free_entry_le des) as Hle. unfold add_entry, lookup_name. apply list_find_Some. case_decide as Hk.
  - split; [by apply list_lookup_insert_eq|]. split; [done|]. intros j y Hy Hj. rewrite list_lookup_insert_ne in Hy by lia. by eapply Hnone.
  - split; [apply list_lookup_middle; lia|]. split; [done|]. intros j y Hy Hj. rewrite lookup_app_l in Hy by lia. by eapply Hnone.
Qed.

(** Lists that agree where [P] holds. *)
Lemma list_find_same {A} (P : A -> Prop) `{!forall x, Decision (P x)} (l l' : list A) :
  (forall i x, P x -> l !! i = Some x <-> l' !! i = Some x) -> list_find P l = list_find P l'.
Proof.
  intros Hag. apply option_eq. intros [i x]. rewrite !list_find_Some. split; intros (H1 & H2 & H3).
  - split; [by apply Hag|]. split; [done|]. intros j y Hy Hj HP. apply (H3 j y); [by apply Hag|done|done].
  - split; [by apply Hag|]. split; [done|]. intros j y Hy Hj HP. apply (H3 j y); [by apply Hag|done|done].
Qed.

Lemma lookup_add_other des de name :
  ~ names name de -> lookup_name name (add_entry des de) = lookup_name name des.
Proof.
  intros Hn. apply list_find_same. intros i y Hy. unfold add_entry. case_decide as Hk.
  - destruct (decide (i = free_entry des)) as [->|Hi]; [|by rewrite list_lookup_insert_ne].
    rewrite list_lookup_insert_eq by done. split; [congruence|]. unfold free_entry in *.
    destruct (list_find _ _) as [[k z]|] eqn:E; [|lia]. apply list_find_Some in E as (Hz & E0 & _).
    intros Hz'. destruct Hy as [Hy _]. congruence.
  - destruct (decide (i < length des)%nat) as [Hi|Hi]; [by rewrite lookup_app_l|].
    rewrite (lookup_ge_None_2 des i) by lia. split; [|done]. rewrite lookup_app_r by lia.
    intros [_ <-]%list_lookup_singleton_Some. done.
Qed.

(** The reference iget gave is given back. *)
Lemma iput_keep ip x e s :
  fctx me pid s -> fs_inodes (k_fs s) !! ip = Some x -> (i_ref x =? 1) && negb (i_valid x =? 0) && (i_nlink x =? 0) = false ->
  iput ip e s = Ok tt e (with_inodes (<[ip := i_set_ref (i_ref x - 1) x]> (fs_inodes (k_fs s))) s).
Proof.
  intros Hf Hx Hkeep. pose proof (fctx_hart _ _ _ Hf) as Hh. assert (Hl : lock_free L_itable (k_hw s)) by (by apply (fc_locks _ _ _ Hf)).
  unfold iput. erewrite bind_run by (by apply acquire_run). erewrite bind_run by (by apply get_inode_run).
  rewrite Hkeep. erewrite bind_run by reflexivity. erewrite bind_run by (by apply upd_inode_run).
  rewrite (release_run _ _ _ (k_hw s)) by done. by destruct s.
Qed.

(** An entry iget returned is not the last reference to a deleted file. *)
Lemma iget_keep ins inum ip ins' : iget_spec ins dev inum = Some (ip, ins') ->
  exists x, ins' !! ip = Some x /\ (i_ref x =? 1) && negb (i_valid x =? 0) && (i_nlink x =? 0) = false.
Proof.
  unfold iget_spec. destruct (list_find (is_inode dev inum) ins) as [[i x]|] eqn:E1.
  - apply list_find_Some in E1 as (Hx & (R & _) & _). intros [= <- <-]. eexists.
    split; [by eapply list_lookup_insert_eq, lookup_lt_Some|]. simpl. by rewrite (proj2 (Z.eqb_neq _ _)) by lia.
  - destruct (list_find (fun x => i_ref x = 0) ins) as [[i x]|] eqn:E2; [|done]. apply list_find_Some in E2 as (Hx & _ & _). intros [= <- <-]. eexists.
    split; [by eapply list_lookup_insert_eq, lookup_lt_Some|]. done.
Qed.

Lemma iget_spec_len ins inum ip ins' : iget_spec ins dev inum = Some (ip, ins') -> length ins' = length ins.
Proof.
  unfold iget_spec. destruct (list_find (is_inode dev inum) ins) as [[i x]|]; [intros [= <- <-]; apply length_insert|].
  destruct (list_find (fun x => i_ref x = 0) ins) as [[i x]|]; [intros [= <- <-]; apply length_insert|done].
Qed.

(** Taking a reference with iget and giving it back leaves an entry in use as it was. *)
Lemma iget_put_back ins inum ip ins' y dp x : iget_spec ins dev inum = Some (ip, ins') -> ins' !! ip = Some y ->
  ins !! dp = Some x -> 0 < i_ref x -> <[ip := i_set_ref (i_ref y - 1) y]> ins' !! dp = Some x.
Proof.
  unfold iget_spec. intros H Hy Hx Hr.
  assert (Hi : exists z, ins' = <[ip := z]> ins /\ (ip = dp -> z = i_set_ref (i_ref x + 1) x)).
  { destruct (list_find (is_inode dev inum) ins) as [[i z]|] eqn:E1.
    - apply list_find_Some in E1 as (Hz & _ & _). injection H as <- <-. eexists. split; [done|]. intros ->. congruence.
    - destruct (list_find (fun x => i_ref x = 0) ins) as [[i z]|] eqn:E2; [|done]. apply list_find_Some in E2 as (Hz & Hz0 & _).
      injection H as <- <-. eexists. split; [done|]. intros ->. rewrite Hx in Hz. injection Hz as <-. lia. }
  destruct Hi as (z & -> & Hz). rewrite list_insert_insert_eq. destruct (decide (ip = dp)) as [->|Hne].
  - rewrite list_lookup_insert_eq in Hy by (by eapply lookup_lt_Some). injection Hy as <-. rewrite (Hz eq_refl).
    rewrite list_lookup_insert_eq by (by eapply lookup_lt_Some). f_equal. destruct x. unfold i_set_ref. simpl. f_equal. lia.
  - by rewrite list_lookup_insert_ne.
Qed.

(** What dirlink did when it returned [r]. *)
Definition linked (L : Z -> list Z) (x : inode) (name : list Z) (inum r : Z) (L' : Z -> list Z) (x' : inode) : Prop :=
  match lookup_name name (entries (contents L x)) with
  | Some _ => r = -1 /\ L' = L /\ x' = x
  | None =>
    (r = 0 /\ dir_ok L' x' /\
     entries (contents L' x') = add_entry (entries (contents L x)) (Dirent inum (strncpy_l DIRSIZ name))) \/
    (r = -1 /\ disk_full sb L')
  end.

Lemma dirlink_wp X L dp x name inum e s Q :
  fsx X L ∅ s -> fs_sb (k_fs s) = sb -> fs_inodes (k_fs s) !! dp = Some x -> dir_ok L x ->
  (cost X + 10 <= tx_cap)%nat -> length (fs_inodes (k_fs s)) = NINODE ->
  (forall k de, lookup_name name (entries (contents L x)) = Some (k, de) -> is_Some (iget_spec (fs_inodes (k_fs s)) dev (de_inum de))) ->
  i_size x + 16 <= MAXFILE * BSIZE -> 0 <= inum < 65536 ->
  (forall r X' L' x' s', fsx X' L' ∅ s' -> fs_sb (k_fs s') = sb -> length (fs_inodes (k_fs s')) = NINODE ->
     linked L x name inum r L' x' ->
     (lookup_name name (entries (contents L x)) = None -> fs_inodes (k_fs s') = <[dp := x']> (fs_inodes (k_fs s))) ->
     (0 < i_ref x -> fs_inodes (k_fs s') !! dp = Some x') ->
     (cost X' <= cost X + 7)%nat -> Q r e s') ->
  wp (dirlink dp name inum) e s Q.
Proof.
  intros Hx Es Hdp Hdir Hc Hlen Hroom Hsize Hinum HQ. unfold dirlink. apply wp_bind.
  eapply dirlookup_wp; [exact Hx|done|exact Hdp|done|lia|done|done|]. intros r bs l ins o s1 Hx1 Hfd.
  unfold found in Hfd. unfold linked in HQ. destruct (lookup_name name (entries (contents L x))) as [[k de]|] eqn:E.
  - destruct Hfd as (ip & Hig & ->). destruct (iget_keep _ _ _ _ Hig) as (y & Hy & Hkeep). apply wp_seq.
    eapply wp_run; [by apply iput_keep; [by eapply fsx_ctx| |]|]. apply wp_ret.
    eapply (HQ (-1) X L x); [by eapply fsx_ext, Hx1|done| |done|done| |lia].
    + simpl. rewrite length_insert. by rewrite (iget_spec_len _ _ _ _ Hig).
    + intros Href. by apply (iget_put_back _ _ _ _ _ _ _ Hig Hy Hdp).
  - destruct Hfd as [-> ->]. pose proof Hdir as [Hfile Htype Hwhole]. pose proof Hfile as [F1 F2 F3 F4 F5 F6].
    apply wp_bind. eapply wp_run; [by apply get_inode_run|].
    assert (Hne : length (entries (contents L x)) = Z.to_nat (i_size x / sizeof_dirent)).
    { by rewrite length_entries, length_contents, Z2Nat.id by lia. }
    apply wp_bind. change 0 with (sizeof_dirent * Z.of_nat 0) at 1.
    eapply dirlink_find_wp; [exact Hx1|done|exact Hdp|done|lia|lia|lia|by intros j Hj; lia|]. intros bs2 l2 o2 s2 Hx2. cbv zeta.
    set (kf := free_entry (entries (contents L x))). set (de := Dirent (u16 inum) (strncpy_l DIRSIZ name)).
    assert (Hu : u16 inum = inum) by (by apply Z.mod_small).
    assert (Hdn : length (de_name de) = DIRSIZ) by apply length_strncpy.
    pose proof (length_dirent_write de Hdn) as Hdl. pose proof (free_entry_le (entries (contents L x))) as Hkf. fold kf in Hkf.
    assert (Hsz : i_size x = 16 * (i_size x / 16)) by (pose proof (Z.div_mod (i_size x) 16 ltac:(done)); unfold sizeof_dirent in *; lia).
    assert (Hkz : 0 <= Z.of_nat kf <= i_size x / sizeof_dirent).
    { assert (0 <= i_size x / sizeof_dirent) by (apply Z.div_pos; [lia|done]). lia. }
    apply wp_bind. replace sizeof_dirent with (Z.of_nat (length (dirent_write de))) at 2 by (by rewrite Hdl).
    eapply writei_wp; [exact Hsb|exact Hone|exact Hx2|done|exact Hdp|done| | | |]; rewrite ?Hdl.
    + unfold sizeof_dirent in *. lia.
    + unfold sizeof_dirent in *. lia.
    + change (Z.to_nat (Z.of_nat 16 / BSIZE) + 2)%nat with 2%nat. lia.
    + intros k X3 L3 x3 bs3 l3 o3 s3 Hx3 W Hc3.
      assert (Hd3 : fs_inodes (k_fs s3) !! dp = Some x3) by (simpl; by eapply list_lookup_insert_eq, lookup_lt_Some).
      change (Z.to_nat (Z.of_nat 16 / BSIZE) + 2)%nat with 2%nat in Hc3.
      assert (Hlen3 : length (fs_inodes (k_fs s3)) = NINODE) by (simpl; by rewrite length_insert).
      pose proof (wf_count _ _ _ _ _ _ _ _ _ W) as Hcnt. rewrite Hdl in Hcnt.
      destruct (Z.eqb_spec k sizeof_dirent) as [->|Hk].
      * apply wp_ret. eapply (HQ 0 X3 L3 x3); [exact Hx3|done|done| |done|done|lia]. left. split; [done|].
        pose proof (wf_contents _ _ _ _ _ _ _ _ _ W) as Hcon. rewrite take_ge in Hcon by (rewrite Hdl; unfold sizeof_dirent; lia).
        split.
        -- split; [apply W|by rewrite (wf_same _ _ _ _ _ _ _ _ _ W)|].
           assert (Hl3 : i_size x3 = Z.of_nat (length (contents L3 x3))).
           { rewrite length_contents. pose proof (fo_size _ _ _ _ (wf_file _ _ _ _ _ _ _ _ _ W)). lia. }
           rewrite Hl3, Hcon, length_put_entry; [|rewrite length_contents, Z2Nat.id by lia; done|rewrite length_contents, Z2Nat.id by lia; lia|done].
           rewrite Z.mul_comm. apply Z_mod_mult.
        -- rewrite Hcon, entries_put; [|rewrite length_contents, Z2Nat.id by lia; done|rewrite length_contents, Z2Nat.id by lia; lia|simpl; by rewrite Hu|done].
           rewrite length_contents, Z2Nat.id by lia. unfold add_entry. fold kf. rewrite Hne, Nat2Z.id. unfold de. rewrite Hu.
           repeat case_decide; try lia; done.
      * apply wp_ret. eapply (HQ (-1) X3 L3 x3); [exact Hx3|done|done| |done|done|lia]. right. split; [done|].
        apply (wf_short _ _ _ _ _ _ _ _ _ W). rewrite Hdl. unfold sizeof_dirent in *. lia.
Qed.

End dir.

(** C4: In a directory, [dirlink] refuses a name that is there, changing nothing,
    and otherwise adds one entry, reusing the first free one: afterwards the name leads
    to the given inode and every other name to what it led to before, and
    [dirlookup] finds the new entry. It fails only when the disk is full. The blocks
    [L'] are those of the file system in the state after the call, with every changed
    block in the log of the transaction. *)
Theorem dirlink_correct `{DD : DiskDriver} me pid dev start lsize out sb X L s dp x name inum e :
  sb_ok start lsize sb -> sb_size sb <= BPB ->
  fsx me pid dev start lsize out X L ∅ s -> fs_sb (k_fs s) = sb ->
  fs_inodes (k_fs s) !! dp = Some x -> 0 < i_ref x -> dir_ok dev sb L x -> length (fs_inodes (k_fs s)) = NINODE ->
  (cost sb X + 10 <= tx_cap)%nat -> i_size x + 16 <= MAXFILE * BSIZE -> 0 < inum < 65536 ->
  (forall k de, lookup_name name (entries (contents L x)) = Some (k, de) ->
     is_Some (iget_spec (fs_inodes (k_fs s)) dev (de_inum de))) ->
  exists r s' X' L' x', dirlink dp name inum e s = Ok r e s' /\
    fsx me pid dev start lsize out X' L' ∅ s' /\ fs_inodes (k_fs s') !! dp = Some x' /\
    linked dev sb L x name inum r L' x' /\
    (r = 0 -> fs_inodes (k_fs s') = <[dp := x']> (fs_inodes (k_fs s)) /\
       (exists k de, lookup_name name (entries (contents L' x')) = Some (k, de) /\ de_inum de = inum) /\
       (forall name', name_of name' <> name_of name ->
          lookup_name name' (entries (contents L' x')) = lookup_name name' (entries (contents L x))) /\
       forall ip ins, iget_spec (fs_inodes (k_fs s')) dev inum = Some (ip, ins) ->
         exists off s2, dirlookup dp name e s' = Ok (Some (ip, off)) e s2).
Proof.
  intros Hsb Hone Hx Es Hdp Href Hdir Hlen Hc Hsize Hinum Hroom.
  assert (Hw : wp (dirlink dp name inum) e s (fun r e' s' => e' = e /\ exists X' L' x', fsx me pid dev start lsize out X' L' ∅ s' /\
    fs_sb (k_fs s') = sb /\ length (fs_inodes (k_fs s')) = NINODE /\ linked dev sb L x name inum r L' x' /\
    (lookup_name name (entries (contents L x)) = None -> fs_inodes (k_fs s') = <[dp := x']> (fs_inodes (k_fs s))) /\
    fs_inodes (k_fs s') !! dp = Some x' /\ (cost sb X' + 2 <= tx_cap)%nat)).
  { eapply dirlink_wp; [exact Hsb|exact Hone|exact Hx|done..|lia|]. intros r X' L' x' s' Hx' Es' Hlen' Hlk Hins Hd' Hc'.
    split; [done|]. exists X', L', x'. split_and!; try done; [by apply Hd'|lia]. }
  apply wp_elim in Hw as (r & e' & s' & Hr & -> & X' & L' & x' & Hx' & Es' & Hlen' & Hlk & Hins & Hd' & Hc').
  exists r, s', X', L', x'. split; [done|]. split; [done|]. split; [done|]. split; [done|]. intros ->. unfold linked in Hlk.
  destruct (lookup_name name (entries (contents L x))) as [?|] eqn:Enone; [by destruct Hlk|].
  destruct Hlk as [(_ & Hdir' & Hents)|[? _]]; [|done]. specialize (Hins eq_refl).
  set (de := Dirent inum (strncpy_l DIRSIZ name)) in *.
  assert (Hnm : forall n, names n de <-> name_of n = name_of name).
  { intros n. unfold names, de. cbn [de_inum de_name]. unfold name_of at 1. rewrite cut_strncpy. fold (name_of name). split; [by intros [_ ?]|]. split; [lia|done]. }
  destruct (lookup_add_same (entries (contents L x)) de name (proj2 (Hnm name) eq_refl) Enone) as [k Hk].
  rewrite <- Hents in Hk. split; [done|]. split; [by exists k, de|]. split.
  - intros n' Hn'. rewrite Hents. apply lookup_add_other. by rewrite Hnm.
  - intros ip ins Hig.
    assert (Hl : wp (dirlookup dp name) e s' (fun r e' _ => e' = e /\ exists off, r = Some (ip, off))).
    { eapply dirlookup_wp; [exact Hsb|exact Hone|exact Hx'|done| |done|done|done| |].
      - rewrite Hins. by eapply list_lookup_insert_eq, lookup_lt_Some.
      - rewrite Hk. intros k' de' [= <- <-]. cbn [de_inum de]. by rewrite Hig.
      - intros r bs l ins' o s2 _ Hfd. split; [done|]. unfold found in Hfd. rewrite Hk in Hfd. destruct Hfd as (ip' & Hig' & ->).
        cbn [de_inum de] in Hig'. rewrite Hig in Hig'. injection Hig' as <- _. by eexists. }
    apply wp_elim in Hl as (r & e' & s2 & Hr2 & -> & off & ->). by exists off, s2.
Qed.

(** ** Paths *)

(** The elements of a path: what is between slashes. *)
Fixpoint split_path (acc : list Z) (path : list Z) : list (list Z) :=
  match path with
  | [] => if decide (acc = []) then [] else [acc]
  | c :: path =>
    if c =? slash then (if decide (acc = []) then [] else [acc]) ++ split_path [] path
    else split_path (acc ++ [c]) path
  end.
Definition elements (path : list Z) : list (list Z) := split_path [] path.

Lemma elements_skip path : elements (skip_slashes path) = elements path.
Proof.
  induction path as [|c path IH]; [done|]. cbn [skip_slashes]. unfold elements. cbn [split_path].
  destruct (c =? slash) eqn:E; [rewrite decide_True by done; exact IH|]. cbn [split_path]. by rewrite E.
Qed.

Lemma split_take path : forall acc, acc <> [] ->
  split_path acc path = (acc ++ (take_elem path).1) :: elements (take_elem path).2.
Proof.
  induction path as [|c path IH]; intros acc Hacc; cbn [split_path take_elem].
  { rewrite decide_False by done. by rewrite app_nil_r. }
  destruct (c =? slash) eqn:E.
  - rewrite decide_False by done. cbn [fst snd]. rewrite app_nil_r. unfold elements. cbn [split_path]. rewrite E.
    by rewrite decide_True.
  - rewrite IH by (by destruct acc). destruct (take_elem path) as [s r]. cbn [fst snd]. by rewrite <- app_assoc.
Qed.

Lemma skip_slashes_head path c rest : skip_slashes path = c :: rest -> c =? slash = false.
Proof.
  induction path as [|a path IH]; [done|]. cbn [skip_slashes]. destruct (a =? slash) eqn:E; [done|]. by intros [= -> ->].
Qed.

Lemma skip_slashes_length path : (length (skip_slashes path) <= length path)%nat.
Proof. induction path as [|a path IH]; [done|]. cbn [skip_slashes]. destruct (a =? slash); simpl; lia. Qed.

Lemma take_elem_length path : (length (take_elem path).1 + length (take_elem path).2 = length path)%nat.
Proof.
  induction path as [|a path IH]; [done|]. cbn [take_elem]. destruct (a =? slash); [done|].
  destruct (take_elem path). simpl in *. lia.
Qed.

Lemma cut_app n : forall s t, Forall (fun c => c <> 0) s -> (n <= length s)%nat -> cut n (take n s ++ t) = take n s.
Proof.
  induction n as [|n IH]; intros s t Hs Hn; [done|]. destruct s as [|c s]; [simpl in Hn; lia|].
  inversion Hs as [|? ? Hc Hs']. subst. simpl in *. rewrite (proj2 (Z.eqb_neq _ _) Hc). by rewrite IH by (done || lia).
Qed.

Lemma cut_short n : forall s t, Forall (fun c => c <> 0) s -> (length s < n)%nat -> cut n (s ++ [0] ++ t) = s.
Proof.
  induction n as [|n IH]; intros s t Hs Hn; [lia|]. destruct s as [|c s]; [done|].
  inversion Hs as [|? ? Hc Hs']. subst. simpl in *. rewrite (proj2 (Z.eqb_neq _ _) Hc). by rewrite (IH s t) by (done || lia).
Qed.

Lemma take_elem_nonzero path : Forall (fun c => c <> 0) path -> Forall (fun c => c <> 0) (take_elem path).1.
Proof.
  induction 1 as [|c path Hc _ IH]; [done|]. cbn [take_elem]. destruct (c =? slash); [done|].
  destruct (take_elem path). simpl in *. by constructor.
Qed.

(** [skipelem] walks the elements of a path in order: it returns nothing
    exactly when no element is left; otherwise it stores the first element,
    cut to DIRSIZ bytes, and returns a shorter path with the remaining
    elements and no leading slash. *)
Theorem skipelem_correct path name :
  Forall (fun c => c <> 0) path ->
  match elements path with
  | [] => skipelem path name = None
  | el :: els => exists rest name', skipelem path name = Some (rest, name') /\
      name_of name' = take DIRSIZ el /\ elements rest = els /\
      (length rest < length path)%nat /\ hd_error rest <> Some slash
  end.
Proof.
  intros Hnz. rewrite <- elements_skip. unfold skipelem.
  assert (Hnz' : Forall (fun c => c <> 0) (skip_slashes path)).
  { clear -Hnz. induction Hnz as [|c path Hc Hp IH]; [done|]. cbn [skip_slashes]. destruct (c =? slash); [done|]. by constructor. }
  pose proof (skip_slashes_length path) as Hlen. destruct (skip_slashes path) as [|c p] eqn:Ep; [done|].
  pose proof (skip_slashes_head _ _ _ Ep) as Hc. unfold elements. cbn [split_path app]. rewrite Hc.
  rewrite split_take by done. pose proof (take_elem_nonzero _ Hnz') as Hel. pose proof (take_elem_length (c :: p)) as Htl.
  cbn [take_elem] in *. rewrite Hc in *. destruct (take_elem p) as [s r]. cbn [fst snd app] in *.
  eexists _, _. split; [done|]. split; [|split; [|split]].
  - unfold name_of. destruct (Nat.leb_spec DIRSIZ (length (c :: s))) as [Hd|Hd].
    + by apply cut_app.
    + etrans; [by apply (cut_short DIRSIZ (c :: s))|]. by rewrite take_ge by lia.
  - apply elements_skip.
  - pose proof (skip_slashes_length r). simpl in *. lia.
  - destruct (skip_slashes r) as [|a r'] eqn:Er; [done|]. apply skip_slashes_head in Er. intros [= ->]. done.
Qed.

(** ["/a//bb/c"] *)
Lemma skipelem_correct_witness :
  exists rest name', skipelem [47; 97; 47; 47; 98; 98; 47; 99] (replicate 14 0) = Some (rest, name') /\
    name_of name' = [97] /\ elements rest = [[98; 98]; [99]].
Proof.
  destruct (skipelem_correct [47; 97; 47; 47; 98; 98; 47; 99] (replicate 14 0)) as (rest & name' & H1 & H2 & H3 & _);
    [repeat (constructor; [done|]); constructor|]. exists rest, name'. split; [exact H1|]. split; [exact H2|exact H3].
Defined.
