(* ===== verification/FsExample.v ===== *)
(** A small disk image, and the theorems on files at it. *)

From stdpp Require Import functions.
From S2P Require Import Prelude Machine KState Blocks Spinlock Kalloc Proc ProcSpec Sleeplock Bio BioList BioSpec BioProof Log LogSpec LogProof Fs FsSpec FsAlloc FsFile FsIo FsProof FsInode FsDir.

(** The bitmap in block 45 marks blocks 0 to 45; the data starts at 46. *)
Definition disk_ex : gmap Z (list Z) := {[45 := [255; 255; 255; 255; 255; 63] ++ replicate 1018 0]}.
Definition L_ex : Z -> list Z := disk_block disk_ex.

(** An empty file or directory, inode 2, in entry 0. *)
Definition inode_ex (type : Z) : inode := Inode 1 2 1 (i_lock inode0) 1 type 0 0 1 0 (replicate 13 0).
Definition kst_file (out type : Z) : kst :=
  set_fs (Fst fresh_bufs disk_ex [] (log_ex out) sb_ex (inode_ex type :: replicate 49 inode0))
    (kst_fs disk_ex).

Lemma disk_ok_ex : disk_ok disk_ex.
Proof. intros n b Hb. unfold disk_ex in Hb. apply lookup_singleton_Some in Hb as [_ <-]. vm_compute. reflexivity. Qed.

Lemma bc_kst_file out type : bc 0 1 1 (BView L_ex ∅ ∅ ∅) (kst_file out type).
Proof.
  destruct (bc_kst_fs disk_ex disk_ok_ex) as [B1 B2 B3 B4 B5]. split; [|exact B2|exact B3|exact B4|exact B5].
  by apply fctx_fs.
Qed.

Lemma sb_ok_ex : sb_ok 2 30 sb_ex.
Proof. split; vm_compute; intuition discriminate. Qed.

Lemma fsx_ex out type : 1 <= out -> fsx 0 1 1 2 30 out ∅ L_ex ∅ (kst_file out type).
Proof. intros Ho. apply fsx_start; [apply bc_kst_file|apply log_ex_is|done|done|done|unfold tx_cap; lia]. Qed.

Lemma meta_used_ex : meta_used sb_ex L_ex.
Proof.
  assert (Hall : forallb (used sb_ex L_ex) (seqZ 0 46) = true) by (vm_compute; reflexivity).
  intros b Hb. change (dstart sb_ex) with 46 in Hb. rewrite forallb_forall in Hall. apply Hall.
  apply list_elem_of_In, elem_of_seqZ. lia.
Qed.

Lemma addr_ex type k : addr (inode_ex type) k = 0.
Proof. unfold addr. cbn [i_addrs inode_ex]. destruct (replicate 13 0 !! _) eqn:E; [|done]. by apply lookup_replicate in E as [-> _]. Qed.

Lemma file_ok_ex type : file_ok 1 sb_ex L_ex (inode_ex type).
Proof.
  assert (Hs : forall k, slot L_ex (inode_ex type) k = 0).
  { intros k. unfold slot, ind. rewrite !addr_ex. by destruct (k <? 13). }
  split; [|apply meta_used_ex| | |done|simpl; lia].
  - split; [done|..]; intros k ?; rewrite Hs; done.
  - intros o Ho. simpl in Ho. lia.
  - simpl. split; [lia|done].
Qed.

Lemma cost_ex : cost sb_ex ∅ = 1%nat.
Proof. unfold cost. by rewrite union_empty_l_L, size_singleton. Qed.

Lemma put_ex w type : put 0 w (contents L_ex (inode_ex type)) = w.
Proof. change (contents L_ex (inode_ex type)) with (@nil Z). unfold put. by rewrite drop_nil, take_nil, app_nil_r. Qed.

(** Three bytes are written to the empty file and read back. *)
Lemma writei_readi_witness : exists s1 s2,
  @writei sync_disk 0 (S_local [7; 8; 9]) 0 3 [] (kst_file 1 T_FILE) = Ok 3 [] s1 /\
  @readi sync_disk 0 D_local 0 10 [] s1 = Ok (3, [7; 8; 9]) [] s2.
Proof.
  destruct (@writei_readi sync_disk 0 1 1 2 30 1 sb_ex ∅ L_ex (kst_file 1 T_FILE) 0 (inode_ex T_FILE) [7; 8; 9] 0 [])
    as (k & s1 & X1 & L1 & x1 & Hw & _ & Hi & W & Hr);
    [apply sb_ok_ex|vm_compute; discriminate|by apply fsx_ex|reflexivity|reflexivity|apply file_ok_ex|simpl; lia|vm_compute; discriminate
    |rewrite cost_ex; vm_compute; lia|].
  assert (Hk : value_of (@writei sync_disk 0 (S_local [7; 8; 9]) 0 3 [] (kst_file 1 T_FILE)) = Some 3) by (vm_compute; reflexivity).
  change (Z.of_nat (length [7; 8; 9])) with 3 in Hw. rewrite Hw in Hk. injection Hk as ->.
  destruct (Hr 0 10) as (s2 & Hs2); [destruct (fo_size _ _ _ _ (wf_file _ _ _ _ _ _ _ _ _ W)); lia|lia|].
  exists s1, s2. split; [exact Hw|]. rewrite Hs2, put_ex.
  assert (Hl : i_size x1 = 3).
  { pose proof (wf_contents _ _ _ _ _ _ _ _ _ W) as Hc. rewrite put_ex in Hc. apply (f_equal length) in Hc.
    rewrite length_contents in Hc. destruct (fo_size _ _ _ _ (wf_file _ _ _ _ _ _ _ _ _ W)). change (length (take (Z.to_nat 3) [7; 8; 9])) with 3%nat in Hc. lia. }
  rewrite Hl. reflexivity.
Defined.

(** The same as a whole transaction, read off the disk. *)
Lemma write_durable_witness : exists k s1 x1,
  @write_tx sync_disk 0 [7; 8; 9] 0 [] (kst_file 0 T_FILE) = Ok k [] s1 /\
  contents (disk_block (fs_disk (k_fs s1))) x1 = take (Z.to_nat k) [7; 8; 9].
Proof.
  destruct (@write_durable sync_disk 0 1 1 2 30 sb_ex (kst_file 0 T_FILE) 0 (inode_ex T_FILE) [7; 8; 9] 0 [])
    as (k & s1 & x1 & Hw & _ & _ & _ & Hc & _);
    [apply sb_ok_ex|vm_compute; discriminate|done|unfold tx_cap; lia|apply bc_kst_file|apply log_ex_is|reflexivity|reflexivity|apply file_ok_ex
    |simpl; lia|vm_compute; discriminate|vm_compute; discriminate|].
  exists k, s1, x1. split; [exact Hw|]. rewrite Hc. exact (put_ex _ _).
Defined.

(** The first entry of an empty directory. *)
Lemma dirlink_correct_witness : exists s1 X1 L1 x1,
  @dirlink sync_disk 0 [97] 5 [] (kst_file 1 T_DIR) = Ok 0 [] s1 /\
  fsx 0 1 1 2 30 1 X1 L1 ∅ s1 /\ fs_inodes (k_fs s1) !! 0%nat = Some x1 /\
  exists k de, lookup_name [97] (entries (contents L1 x1)) = Some (k, de) /\ de_inum de = 5.
Proof.
  destruct (@dirlink_correct sync_disk 0 1 1 2 30 1 sb_ex ∅ L_ex (kst_file 1 T_DIR) 0 (inode_ex T_DIR) [97] 5 [])
    as (r & s1 & X1 & L1 & x1 & Hr & Hx & Hi & _ & H0);
    [apply sb_ok_ex|vm_compute; discriminate|by apply fsx_ex|reflexivity|reflexivity|simpl; lia|split; [apply file_ok_ex|reflexivity|reflexivity]
    |reflexivity|rewrite cost_ex; vm_compute; lia|vm_compute; discriminate|lia|intros k de Hk; discriminate Hk|].
  assert (Hk : value_of (@dirlink sync_disk 0 [97] 5 [] (kst_file 1 T_DIR)) = Some 0) by (vm_compute; reflexivity).
  rewrite Hr in Hk. injection Hk as ->. destruct (H0 eq_refl) as (_ & Hl & _).
  exists s1, X1, L1, x1. split; [exact Hr|]. split; [exact Hx|]. split; [exact Hi|exact Hl].
Defined.

Lemma itable_ex type : itable_ok (fs_inodes (k_fs (kst_file 1 type))).
Proof.
  change (fs_inodes (k_fs (kst_file 1 type))) with (inode_ex type :: replicate 49 inode0). split; [reflexivity|..].
  - intros [|i] x Hx; [injection Hx as <-; simpl; lia|]. apply (lookup_replicate 49) in Hx as [-> _]. simpl. lia.
  - intros [|i] [|j] x y Hx Hy Rx Ry; [done|..]; exfalso.
    + apply (lookup_replicate 49) in Hy as [-> _]. simpl in Ry. lia.
    + apply (lookup_replicate 49) in Hx as [-> _]. simpl in Rx. lia.
    + apply (lookup_replicate 49) in Hx as [-> _]. simpl in Rx. lia.
Qed.

(** An inode that is not in the table gets its first empty entry. *)
Lemma iget_correct_witness : exists ins, iget 1 7 [] (kst_file 1 T_FILE) = Ok 1%nat [] (with_inodes ins (kst_file 1 T_FILE)).
Proof.
  destruct (iget_correct 0 1 1 7 [] (kst_file 1 T_FILE) (bc_ctx _ _ _ _ _ (bc_kst_file 1 T_FILE)) (itable_ex T_FILE)) as [Hr _].
  eexists. rewrite Hr. reflexivity.
Defined.

Lemma dinode_roundtrip_witness : dinode_read 64 (dinode_write 64 (inode_ex T_FILE) (replicate 1024 0)) inode0 =
  Inode 0 0 0 (i_lock inode0) 0 T_FILE 0 0 1 0 (replicate 13 0).
Proof.
  refine (proj1 (dinode_roundtrip 64 (inode_ex T_FILE) inode0 (replicate 1024 0) _ _ _)); [|lia|rewrite length_replicate; lia].
  split; [simpl; unfold T_FILE; lia..|reflexivity|]. intros k a Hk. apply (lookup_replicate 13 0) in Hk as [-> _]. lia.
Defined.
