(* ===== verification/Console.v ===== *)
(** uart.c, console.c, printf.c and procdump: the console and its device. *)

From S2P Require Import Prelude Machine KState Spinlock Proc.

(** ** Access *)

Definition get_dev : K devs := gets k_dev.
Definition upd_dev (f : devs -> devs) : K unit := modk (fun s => set_dev (f (k_dev s)) s).
Definition get_uart : K uart := gets (fun s => d_uart (k_dev s)).
Definition upd_uart (f : uart -> uart) : K unit := upd_dev (fun d => d_set_uart (f (d_uart d)) d).
Definition get_cons : K console := gets (fun s => d_cons (k_dev s)).
Definition upd_cons (f : console -> console) : K unit := upd_dev (fun d => d_set_cons (f (d_cons d)) d).

(** ** uart.c *)

Definition RHR : Z := 0.
Definition THR : Z := 0.
Definition IER : Z := 1.
Definition IER_RX_ENABLE : Z := Z.shiftl 1 0.
Definition IER_TX_ENABLE : Z := Z.shiftl 1 1.
Definition FCR : Z := 2.
Definition FCR_FIFO_ENABLE : Z := Z.shiftl 1 0.
Definition FCR_FIFO_CLEAR : Z := Z.shiftl 3 1.
Definition LCR : Z := 3.
Definition LCR_EIGHT_BITS : Z := Z.shiftl 3 0.
Definition LCR_BAUD_LATCH : Z := Z.shiftl 1 7.
Definition LSR : Z := 5.
Definition LSR_RX_READY : Z := Z.shiftl 1 0.
Definition LSR_TX_IDLE : Z := Z.shiftl 1 5.
Definition UART_TX_BUF_SIZE : Z := 32.

(** Reading LSR tells whether input waits and whether the transmitter is idle;
    reading RHR takes the next input byte. *)
Definition ReadReg (reg : Z) : K Z :=
  u ← get_uart;
  if reg =? LSR then
    upd_uart (fun u => Uart (tx_buf u) (tx_w u) (tx_r u) (tail (u_idle u)) (u_in u) (u_writes u)) ;;
    mret (Z.lor (if decide (u_in u = []) then 0 else LSR_RX_READY)
                (if default true (hd_error (u_idle u)) then LSR_TX_IDLE else 0))
  else if reg =? RHR then
    upd_uart (fun u => Uart (tx_buf u) (tx_w u) (tx_r u) (u_idle u) (tail (u_in u)) (u_writes u)) ;;
    mret (u8 (default 0 (hd_error (u_in u))))
  else mret 0.

Definition WriteReg (reg v : Z) : K unit :=
  upd_uart (fun u => Uart (tx_buf u) (tx_w u) (tx_r u) (u_idle u) (u_in u) (u_writes u ++ [(reg, u8 v)])).

Definition uartinit : K unit :=
  WriteReg IER 0x00 ;;
  WriteReg LCR LCR_BAUD_LATCH ;;
  WriteReg 0 0x03 ;;
  WriteReg 1 0x00 ;;
  WriteReg LCR LCR_EIGHT_BITS ;;
  WriteReg FCR (Z.lor FCR_FIFO_ENABLE FCR_FIFO_CLEAR) ;;
  WriteReg IER (Z.lor IER_TX_ENABLE IER_RX_ENABLE) ;;
  initlock L_uart "uart".

(** Each round sends a byte, so there are no more than the buffer holds. *)
Fixpoint uartstart_loop (fuel : nat) : K unit :=
  match fuel with
  | O => nofuel
  | S fuel =>
    u ← get_uart;
    if tx_w u =? tx_r u then mret tt
    else
      lsr ← ReadReg LSR;
      if Z.land lsr LSR_TX_IDLE =? 0 then mret tt
      else
        c ← deref (tx_buf u !! Z.to_nat (tx_r u mod UART_TX_BUF_SIZE));
        upd_uart (fun u => Uart (tx_buf u) (tx_w u) (u64 (tx_r u + 1)) (u_idle u) (u_in u) (u_writes u)) ;;
        wakeup (Some C_uart_tx_r) ;;
        WriteReg THR c ;;
        uartstart_loop fuel
  end.
Definition uartstart : K unit := uartstart_loop (S (Z.to_nat UART_TX_BUF_SIZE)).

(** Another hart that panicked stops this one here for ever. *)
Definition stop_if_panicked : K unit :=
  d ← get_dev;
  when (negb (d_panicked d =? 0)) block.

Fixpoint uartputc_wait (fuel : nat) : K unit :=
  match fuel with
  | O => nofuel
  | S fuel =>
    u ← get_uart;
    if tx_w u =? u64 (tx_r u + UART_TX_BUF_SIZE) then
      sleep C_uart_tx_r L_uart ;;
      uartputc_wait fuel
    else mret tt
  end.

Definition uartputc (c : Z) : K unit :=
  acquire L_uart ;;
  stop_if_panicked ;;
  sleeping uartputc_wait ;;
  upd_uart (fun u => Uart (<[Z.to_nat (tx_w u mod UART_TX_BUF_SIZE) := u8 c]> (tx_buf u)) (tx_w u) (tx_r u)
    (u_idle u) (u_in u) (u_writes u)) ;;
  upd_uart (fun u => Uart (tx_buf u) (u64 (tx_w u + 1)) (tx_r u) (u_idle u) (u_in u) (u_writes u)) ;;
  uartstart ;;
  release L_uart.

(** The transmitter becomes idle after finitely many reads of LSR. *)
Fixpoint uartputc_spin (fuel : nat) : K unit :=
  match fuel with
  | O => nofuel
  | S fuel =>
    lsr ← ReadReg LSR;
    if Z.land lsr LSR_TX_IDLE =? 0 then uartputc_spin fuel else mret tt
  end.

Definition uartputc_sync (c : Z) : K unit :=
  push_off ;;
  stop_if_panicked ;;
  u ← get_uart;
  uartputc_spin (S (length (u_idle u))) ;;
  WriteReg THR c ;;
  pop_off.

Definition uartgetc : K Z :=
  lsr ← ReadReg LSR;
  if negb (Z.land lsr 0x01 =? 0) then ReadReg RHR else mret (-1).

(** ** console.c: output *)

Definition BACKSPACE : Z := 0x100.

Definition consputc (c : Z) : K unit :=
  if c =? BACKSPACE then uartputc_sync 8 ;; uartputc_sync 32 ;; uartputc_sync 8
  else uartputc_sync c.

(** ** printf.c *)

Definition bytes_of (s : string) : list Z := (fun c => Z.of_N (Ascii.N_of_ascii c)) <$> String.list_ascii_of_string s.
Definition digits : list Z := bytes_of "0123456789abcdef".
Definition digit (n : Z) : Z := default 0 (digits !! Z.to_nat n).

(** The do-while loop: the digits of [x], least significant first. A 32-bit
    number has at most 32 of them. *)
Fixpoint printint_digits (fuel : nat) (x base : Z) : list Z :=
  match fuel with
  | O => []
  | S fuel =>
    digit (x mod base) :: (if negb (x / base =? 0) then printint_digits fuel (x / base) base else [])
  end.

Definition printint_chars (xx base : Z) (sign : bool) : list Z :=
  let neg := sign && (xx <? 0) in
  let x := if neg then u32 (- xx) else u32 xx in
  let buf := printint_digits 32 x base ++ (if neg then [45] else []) in
  reverse buf.

Definition printint (xx base : Z) (sign : bool) : K unit := forK (printint_chars xx base sign) consputc.

Fixpoint printptr_loop (n : nat) (x : Z) : K unit :=
  match n with
  | O => mret tt
  | S n => consputc (digit (Z.shiftr x 60)) ;; printptr_loop n (u64 (Z.shiftl x 4))
  end.
Definition printptr (x : Z) : K unit := consputc 48 ;; consputc 120 ;; printptr_loop 16 x.

(** The variable arguments. *)
Inductive farg := A_int (x : Z) | A_ptr (x : Z) | A_str (s : option (list Z)).

(** [for(; *s; s++) consputc( *s)] *)
Fixpoint put_string (s : list Z) : K unit :=
  match s with
  | [] => mret tt
  | c :: s => if c =? 0 then mret tt else consputc c ;; put_string s
  end.

Fixpoint printf_loop (fmt : list Z) (ap : list farg) : K unit :=
  match fmt with
  | [] => mret tt
  | c :: fmt =>
    if c =? 0 then mret tt
    else if negb (c =? 37) then consputc c ;; printf_loop fmt ap
    else
      match fmt with
      | [] => mret tt
      | c :: fmt =>
        if c =? 0 then mret tt
        else if c =? 100 then
          match ap with A_int x :: ap => printint x 10 true ;; printf_loop fmt ap | _ => fault end
        else if c =? 120 then
          match ap with A_int x :: ap => printint x 16 true ;; printf_loop fmt ap | _ => fault end
        else if c =? 112 then
          match ap with A_ptr x :: ap => printptr x ;; printf_loop fmt ap | _ => fault end
        else if c =? 115 then
          match ap with
          | A_str s :: ap => put_string (default (bytes_of "(null)") s) ;; printf_loop fmt ap
          | _ => fault
          end
        else if c =? 37 then consputc 37 ;; printf_loop fmt ap
        else consputc 37 ;; consputc c ;; printf_loop fmt ap
      end
  end.

(** [printf(fmt, ...)]; [KState.printf] is the record of a call that only has
    a fixed text. *)
Definition kprintf (fmt : list Z) (ap : list farg) : K unit :=
  d ← get_dev;
  let locking := negb (d_locking d =? 0) in
  when locking (acquire L_pr) ;;
  printf_loop fmt ap ;;
  when locking (release L_pr).

Definition printfinit : K unit :=
  initlock L_pr "pr" ;;
  upd_dev (d_set_locking 1).

(** ** procdump *)

Definition state_name (st : procstate) : list Z :=
  bytes_of (match st with
            | UNUSED => "unused" | USED => "used" | SLEEPING => "sleep "
            | RUNNABLE => "runble" | RUNNING => "run   " | ZOMBIE => "zombie"
            end).

Definition procdump : K unit :=
  kprintf [10] [] ;;
  forK all_procs (fun i =>
    p ← get_proc i;
    if bool_decide (p_state p = UNUSED) then mret tt
    else
      kprintf (bytes_of "%d %s %s") [A_int (p_pid p); A_str (Some (state_name (p_state p))); A_str (Some (p_name p))] ;;
      kprintf [10] []).

(** ** console.c: input *)

Definition INPUT_BUF_SIZE : Z := 128.

Fixpoint consolewrite_loop (k : nat) (src : srcaddr) (i : Z) : K Z :=
  match k with
  | O => mret i
  | S k =>
    r ← either_copyin (src_add src i) 1;
    if r.1 =? -1 then mret i
    else
      uartputc (default 0 (hd_error r.2)) ;;
      consolewrite_loop k src (i + 1)
  end.
Definition consolewrite (src : srcaddr) (n : Z) : K Z := consolewrite_loop (Z.to_nat n) src 0.

Definition cons_set_r (v : Z) (c : console) : console := Console (cons_buf c) v (cons_w c) (cons_e c).
Definition cons_set_w (v : Z) (c : console) : console := Console (cons_buf c) (cons_r c) v (cons_e c).
Definition cons_set_e (v : Z) (c : console) : console := Console (cons_buf c) (cons_r c) (cons_w c) v.
Definition cons_set_buf (l : list Z) (c : console) : console := Console l (cons_r c) (cons_w c) (cons_e c).

(** Wait for input: false when the process was killed meanwhile. *)
Fixpoint consoleread_wait (fuel : nat) : K bool :=
  match fuel with
  | O => nofuel
  | S fuel =>
    c ← get_cons;
    if cons_r c =? cons_w c then
      i ← curproc;
      k ← killed i;
      if negb (k =? 0) then release L_cons ;; mret false
      else sleep C_cons_r L_cons ;; consoleread_wait fuel
    else mret true
  end.

(** The loop with [n] bytes still wanted: what is left of them at the end, or
    nothing when killed. *)
Fixpoint consoleread_loop (n : nat) (dst : dstaddr) (target : Z) : K (option Z) :=
  match n with
  | O => mret (Some 0)
  | S m =>
    ok ← sleeping consoleread_wait;
    if negb ok then mret None
    else
      cn ← get_cons;
      c ← deref (cons_buf cn !! Z.to_nat (cons_r cn mod INPUT_BUF_SIZE));
      upd_cons (fun cn => cons_set_r (u32 (cons_r cn + 1)) cn) ;;
      if c =? 4 then
        when (Z.of_nat n <? target) (upd_cons (fun cn => cons_set_r (u32 (cons_r cn - 1)) cn)) ;;
        mret (Some (Z.of_nat n))
      else
        r ← either_copyout dst [c];
        if r =? -1 then mret (Some (Z.of_nat n))
        else if c =? 10 then mret (Some (Z.of_nat m))
        else consoleread_loop m (dst_add dst 1) target
  end.

Definition consoleread (dst : dstaddr) (n : Z) : K Z :=
  acquire L_cons ;;
  r ← consoleread_loop (Z.to_nat n) dst (u32 n);
  match r with
  | None => mret (-1)
  | Some rest =>
    release L_cons ;;
    mret (i32 (n - (if n <=? 0 then n else rest)))
  end.

Fixpoint consoleintr_kill (fuel : nat) : K unit :=
  match fuel with
  | O => nofuel
  | S fuel =>
    c ← get_cons;
    if cons_e c =? cons_w c then mret tt
    else
      x ← deref (cons_buf c !! Z.to_nat (u32 (cons_e c - 1) mod INPUT_BUF_SIZE));
      if x =? 10 then mret tt
      else
        upd_cons (fun c => cons_set_e (u32 (cons_e c - 1)) c) ;;
        consputc BACKSPACE ;;
        consoleintr_kill fuel
  end.

(** The default case of the switch. *)
Definition consoleintr_default (c : Z) : K unit :=
  cn ← get_cons;
  when (negb (c =? 0) && (u32 (cons_e cn - cons_r cn) <? INPUT_BUF_SIZE)) (
    let c := if c =? 13 then 10 else c in
    consputc c ;;
    upd_cons (fun cn => cons_set_buf (<[Z.to_nat (cons_e cn mod INPUT_BUF_SIZE) := u8 c]> (cons_buf cn)) cn) ;;
    upd_cons (fun cn => cons_set_e (u32 (cons_e cn + 1)) cn) ;;
    cn ← get_cons;
    when ((c =? 10) || (c =? 4) || (u32 (cons_e cn - cons_r cn) =? INPUT_BUF_SIZE)) (
      upd_cons (fun cn => cons_set_w (cons_e cn) cn) ;;
      wakeup (Some C_cons_r))).

Definition consoleintr_switch (c : Z) : K unit :=
  if c =? 16 then procdump
  else if c =? 21 then consoleintr_kill (S (Z.to_nat INPUT_BUF_SIZE))
  else if (c =? 8) || (c =? 127) then
    cn ← get_cons;
    when (negb (cons_e cn =? cons_w cn)) (
      upd_cons (fun cn => cons_set_e (u32 (cons_e cn - 1)) cn) ;;
      consputc BACKSPACE)
  else consoleintr_default c.

Definition consoleintr (c : Z) : K unit :=
  acquire L_cons ;;
  consoleintr_switch c ;;
  release L_cons.

(** [CONSOLE] in file.h *)
Definition CONSOLE : nat := 1.

Definition consoleinit : K unit :=
  initlock L_cons "cons" ;;
  uartinit ;;
  upd_dev (fun d => d_set_devsw (<[CONSOLE := Devsw (Some CONSOLE_driver) (Some CONSOLE_driver)]> (d_devsw d)) d).

(** Every round takes a byte from the receiver. *)
Fixpoint uartintr_loop (fuel : nat) : K unit :=
  match fuel with
  | O => nofuel
  | S fuel =>
    c ← uartgetc;
    if c =? -1 then mret tt
    else consoleintr c ;; uartintr_loop fuel
  end.

Definition uartintr : K unit :=
  u ← get_uart;
  uartintr_loop (S (length (u_in u))) ;;
  acquire L_uart ;;
  uartstart ;;
  release L_uart.
