(* ===== verification/Virtio.v ===== *)
(** virtio.h and virtio_disk.c: the driver of the disk. The device works
    between the steps of the driver: it is part of the interference. *)

From S2P Require Import Prelude Machine KState Spinlock KString Kalloc Proc Sleeplock Bio Console.

(** ** virtio.h *)

Definition VIRTIO_MMIO_MAGIC_VALUE : Z := 0x000.
Definition VIRTIO_MMIO_VERSION : Z := 0x004.
Definition VIRTIO_MMIO_DEVICE_ID : Z := 0x008.
Definition VIRTIO_MMIO_VENDOR_ID : Z := 0x00c.
Definition VIRTIO_MMIO_DEVICE_FEATURES : Z := 0x010.
Definition VIRTIO_MMIO_DRIVER_FEATURES : Z := 0x020.
Definition VIRTIO_MMIO_QUEUE_SEL : Z := 0x030.
Definition VIRTIO_MMIO_QUEUE_NUM_MAX : Z := 0x034.
Definition VIRTIO_MMIO_QUEUE_NUM : Z := 0x038.
Definition VIRTIO_MMIO_QUEUE_READY : Z := 0x044.
Definition VIRTIO_MMIO_QUEUE_NOTIFY : Z := 0x050.
Definition VIRTIO_MMIO_INTERRUPT_STATUS : Z := 0x060.
Definition VIRTIO_MMIO_INTERRUPT_ACK : Z := 0x064.
Definition VIRTIO_MMIO_STATUS : Z := 0x070.
Definition VIRTIO_MMIO_QUEUE_DESC_LOW : Z := 0x080.
Definition VIRTIO_MMIO_QUEUE_DESC_HIGH : Z := 0x084.
Definition VIRTIO_MMIO_DRIVER_DESC_LOW : Z := 0x090.
Definition VIRTIO_MMIO_DRIVER_DESC_HIGH : Z := 0x094.
Definition VIRTIO_MMIO_DEVICE_DESC_LOW : Z := 0x0a0.
Definition VIRTIO_MMIO_DEVICE_DESC_HIGH : Z := 0x0a4.
Definition VIRTIO_CONFIG_S_ACKNOWLEDGE : Z := 1.
Definition VIRTIO_CONFIG_S_DRIVER : Z := 2.
Definition VIRTIO_CONFIG_S_DRIVER_OK : Z := 4.
Definition VIRTIO_CONFIG_S_FEATURES_OK : Z := 8.
Definition VIRTIO_BLK_F_RO : Z := 5.
Definition VIRTIO_BLK_F_SCSI : Z := 7.
Definition VIRTIO_BLK_F_CONFIG_WCE : Z := 11.
Definition VIRTIO_BLK_F_MQ : Z := 12.
Definition VIRTIO_F_ANY_LAYOUT : Z := 27.
Definition VIRTIO_RING_F_INDIRECT_DESC : Z := 28.
Definition VIRTIO_RING_F_EVENT_IDX : Z := 29.
Definition NUM : Z := 8.
Definition VRING_DESC_F_NEXT : Z := 1.
Definition VRING_DESC_F_WRITE : Z := 2.
Definition VIRTIO_BLK_T_IN : Z := 0.
Definition VIRTIO_BLK_T_OUT : Z := 1.

(** ** Access *)

(** [*R(r)], read and written. *)
Definition vread (r : Z) : K Z := d ← get_dev; mret (default 0 (d_regs d !! (VIRTIO0 + r))).
Definition vwrite (r v : Z) : K unit := upd_dev (fun d => d_set_regs (<[VIRTIO0 + r := u32 v]> (d_regs d)) d).

Definition get_disk : K disk := d ← get_dev; mret (d_disk d).
Definition upd_disk (f : disk -> disk) : K unit := upd_dev (fun d => d_set_disk (f (d_disk d)) d).

Definition dk_set_pages (x : list Z) (d : disk) : disk :=
  Disk x (dk_desc d) (dk_avail_idx d) (dk_avail_ring d) (dk_used_idx d) (dk_used_ring d) (dk_free d) (dk_seen d) (dk_info d) (dk_ops d).
Definition dk_set_desc (x : list virtq_desc) (d : disk) : disk :=
  Disk (dk_pages d) x (dk_avail_idx d) (dk_avail_ring d) (dk_used_idx d) (dk_used_ring d) (dk_free d) (dk_seen d) (dk_info d) (dk_ops d).
Definition dk_set_avail (i : Z) (x : list Z) (d : disk) : disk :=
  Disk (dk_pages d) (dk_desc d) i x (dk_used_idx d) (dk_used_ring d) (dk_free d) (dk_seen d) (dk_info d) (dk_ops d).
Definition dk_set_used (i : Z) (x : list Z) (d : disk) : disk :=
  Disk (dk_pages d) (dk_desc d) (dk_avail_idx d) (dk_avail_ring d) i x (dk_free d) (dk_seen d) (dk_info d) (dk_ops d).
Definition dk_set_free (x : list Z) (d : disk) : disk :=
  Disk (dk_pages d) (dk_desc d) (dk_avail_idx d) (dk_avail_ring d) (dk_used_idx d) (dk_used_ring d) x (dk_seen d) (dk_info d) (dk_ops d).
Definition dk_set_seen (x : Z) (d : disk) : disk :=
  Disk (dk_pages d) (dk_desc d) (dk_avail_idx d) (dk_avail_ring d) (dk_used_idx d) (dk_used_ring d) (dk_free d) x (dk_info d) (dk_ops d).
Definition dk_set_info (x : list (option nat * Z)) (d : disk) : disk :=
  Disk (dk_pages d) (dk_desc d) (dk_avail_idx d) (dk_avail_ring d) (dk_used_idx d) (dk_used_ring d) (dk_free d) (dk_seen d) x (dk_ops d).
Definition dk_set_ops (x : list virtio_blk_req) (d : disk) : disk :=
  Disk (dk_pages d) (dk_desc d) (dk_avail_idx d) (dk_avail_ring d) (dk_used_idx d) (dk_used_ring d) (dk_free d) (dk_seen d) (dk_info d) x.

Definition b_set_disk (v : Z) (b : buf) : buf :=
  Buf (b_valid b) v (b_dev b) (b_blockno b) (b_lock b) (b_refcnt b) (b_prev b) (b_next b) (b_data b).

(** Array elements. *)
Definition set_desc (i : nat) (x : virtq_desc) : K unit :=
  d ← get_disk;
  deref (dk_desc d !! i) ;;
  upd_disk (fun d => dk_set_desc (<[i := x]> (dk_desc d)) d).
Definition set_free (i : nat) (x : Z) : K unit :=
  d ← get_disk;
  deref (dk_free d !! i) ;;
  upd_disk (fun d => dk_set_free (<[i := x]> (dk_free d)) d).
Definition set_info (i : nat) (f : option nat * Z -> option nat * Z) : K unit :=
  d ← get_disk;
  x ← deref (dk_info d !! i);
  upd_disk (fun d => dk_set_info (<[i := f x]> (dk_info d)) d).
Definition set_op (i : nat) (x : virtio_blk_req) : K unit :=
  d ← get_disk;
  deref (dk_ops d !! i) ;;
  upd_disk (fun d => dk_set_ops (<[i := x]> (dk_ops d)) d).

(** ** Initialisation *)

(** [features &= ~(1 << bit)] *)
Definition without (bit features : Z) : Z := Z.land features (u64 (Z.lnot (Z.shiftl 1 bit))).

Definition virtio_disk_init : K unit :=
  initlock L_vdisk "virtio_disk" ;;
  magic ← vread VIRTIO_MMIO_MAGIC_VALUE;
  version ← vread VIRTIO_MMIO_VERSION;
  device ← vread VIRTIO_MMIO_DEVICE_ID;
  vendor ← vread VIRTIO_MMIO_VENDOR_ID;
  when (negb (magic =? 0x74726976) || negb (version =? 2) || negb (device =? 2) || negb (vendor =? 0x554d4551))
    (panic "could not find virtio disk") ;;
  let status := 0 in
  vwrite VIRTIO_MMIO_STATUS status ;;
  let status := Z.lor status VIRTIO_CONFIG_S_ACKNOWLEDGE in
  vwrite VIRTIO_MMIO_STATUS status ;;
  let status := Z.lor status VIRTIO_CONFIG_S_DRIVER in
  vwrite VIRTIO_MMIO_STATUS status ;;
  features ← vread VIRTIO_MMIO_DEVICE_FEATURES;
  let features := without VIRTIO_BLK_F_RO features in
  let features := without VIRTIO_BLK_F_SCSI features in
  let features := without VIRTIO_BLK_F_CONFIG_WCE features in
  let features := without VIRTIO_BLK_F_MQ features in
  let features := without VIRTIO_F_ANY_LAYOUT features in
  let features := without VIRTIO_RING_F_EVENT_IDX features in
  let features := without VIRTIO_RING_F_INDIRECT_DESC features in
  vwrite VIRTIO_MMIO_DRIVER_FEATURES features ;;
  let status := Z.lor status VIRTIO_CONFIG_S_FEATURES_OK in
  vwrite VIRTIO_MMIO_STATUS status ;;
  status ← vread VIRTIO_MMIO_STATUS;
  when (Z.land status VIRTIO_CONFIG_S_FEATURES_OK =? 0) (panic "virtio disk FEATURES_OK unset") ;;
  vwrite VIRTIO_MMIO_QUEUE_SEL 0 ;;
  ready ← vread VIRTIO_MMIO_QUEUE_READY;
  when (negb (ready =? 0)) (panic "virtio disk should not be ready") ;;
  max ← vread VIRTIO_MMIO_QUEUE_NUM_MAX;
  when (max =? 0) (panic "virtio disk has no queue 0") ;;
  when (max <? NUM) (panic "virtio disk max queue too short") ;;
  desc ← kalloc;
  avail ← kalloc;
  used ← kalloc;
  upd_disk (dk_set_pages [desc; avail; used]) ;;
  when ((desc =? 0) || (avail =? 0) || (used =? 0)) (panic "virtio disk kalloc") ;;
  setmem (fun m => memset m desc 0 (Z.to_nat PGSIZE)) ;;
  setmem (fun m => memset m avail 0 (Z.to_nat PGSIZE)) ;;
  setmem (fun m => memset m used 0 (Z.to_nat PGSIZE)) ;;
  upd_disk (fun d => dk_set_desc (replicate (Z.to_nat NUM) (VirtqDesc DMA_none 0 0 0))
    (dk_set_avail 0 (replicate (Z.to_nat NUM) 0) (dk_set_used 0 (replicate (Z.to_nat NUM) 0) d))) ;;
  vwrite VIRTIO_MMIO_QUEUE_NUM NUM ;;
  vwrite VIRTIO_MMIO_QUEUE_DESC_LOW desc ;;
  vwrite VIRTIO_MMIO_QUEUE_DESC_HIGH (Z.shiftr desc 32) ;;
  vwrite VIRTIO_MMIO_DRIVER_DESC_LOW avail ;;
  vwrite VIRTIO_MMIO_DRIVER_DESC_HIGH (Z.shiftr avail 32) ;;
  vwrite VIRTIO_MMIO_DEVICE_DESC_LOW used ;;
  vwrite VIRTIO_MMIO_DEVICE_DESC_HIGH (Z.shiftr used 32) ;;
  vwrite VIRTIO_MMIO_QUEUE_READY 0x1 ;;
  forK (seq 0 (Z.to_nat NUM)) (fun i => set_free i 1) ;;
  vwrite VIRTIO_MMIO_STATUS (Z.lor status VIRTIO_CONFIG_S_DRIVER_OK).

(** ** Descriptors *)

(** The loop of alloc_desc from descriptor [i] on. *)
Fixpoint alloc_desc_loop (l : list nat) : K Z :=
  match l with
  | [] => mret (-1)
  | i :: l =>
    d ← get_disk;
    free ← deref (dk_free d !! i);
    if negb (free =? 0) then set_free i 0 ;; mret (Z.of_nat i)
    else alloc_desc_loop l
  end.
Definition alloc_desc : K Z := alloc_desc_loop (seq 0 (Z.to_nat NUM)).

Definition free_desc (i : Z) : K unit :=
  when (i >=? NUM) (panic "free_desc 1") ;;
  d ← get_disk;
  free ← deref (dk_free d !! Z.to_nat i);
  when (negb (free =? 0)) (panic "free_desc 2") ;;
  set_desc (Z.to_nat i) (VirtqDesc DMA_none 0 0 0) ;;
  set_free (Z.to_nat i) 1 ;;
  wakeup (Some C_disk_free).

(** A chain is no longer than the table: a descriptor freed twice panics. *)
Fixpoint free_chain_loop (fuel : nat) (i : Z) : K unit :=
  match fuel with
  | O => nofuel
  | S fuel =>
    d ← get_disk;
    x ← deref (dk_desc d !! Z.to_nat i);
    free_desc i ;;
    if negb (Z.land (vd_flags x) VRING_DESC_F_NEXT =? 0) then free_chain_loop fuel (vd_next x)
    else mret tt
  end.
Definition free_chain (i : Z) : K unit := free_chain_loop (S (Z.to_nat NUM)) i.

(** The outer loop of alloc3_desc, with the descriptors taken so far. *)
Fixpoint alloc3_desc_loop (k : nat) (idx : list Z) : K (option (list Z)) :=
  match k with
  | O => mret (Some idx)
  | S k =>
    i ← alloc_desc;
    if i <? 0 then forK idx free_desc ;; mret None
    else alloc3_desc_loop k (idx ++ [i])
  end.
Definition alloc3_desc : K (option (list Z)) := alloc3_desc_loop 3 [].

Fixpoint alloc3_wait (fuel : nat) : K (list Z) :=
  match fuel with
  | O => nofuel
  | S fuel =>
    r ← alloc3_desc;
    match r with
    | Some idx => mret idx
    | None => sleep C_disk_free L_vdisk ;; alloc3_wait fuel
    end
  end.

(** ** Requests *)

Definition sizeof_virtio_blk_req : Z := 16.

(** The three descriptors of a request. *)
Definition format_request (b : nat) (write : bool) (sector : Z) (i0 i1 i2 : Z) : K unit :=
  let t := if write then VIRTIO_BLK_T_OUT else VIRTIO_BLK_T_IN in
  set_op (Z.to_nat i0) (VirtioBlkReq t 0 sector) ;;
  set_desc (Z.to_nat i0) (VirtqDesc (DMA_op (Z.to_nat i0)) sizeof_virtio_blk_req VRING_DESC_F_NEXT i1) ;;
  set_desc (Z.to_nat i1) (VirtqDesc (DMA_data b) BSIZE
    (Z.lor (if write then 0 else VRING_DESC_F_WRITE) VRING_DESC_F_NEXT) i2) ;;
  set_info (Z.to_nat i0) (fun x => (x.1, 0xff)) ;;
  set_desc (Z.to_nat i2) (VirtqDesc (DMA_status (Z.to_nat i0)) 1 VRING_DESC_F_WRITE 0).

(** Format the request and tell the device. *)
Definition post_request (b : nat) (write : bool) (sector : Z) (i0 i1 i2 : Z) : K unit :=
  format_request b write sector i0 i1 i2 ;;
  upd_buf b (b_set_disk 1) ;;
  set_info (Z.to_nat i0) (fun x => (Some b, x.2)) ;;
  upd_disk (fun d => dk_set_avail (dk_avail_idx d)
    (<[Z.to_nat (dk_avail_idx d mod NUM) := i0]> (dk_avail_ring d)) d) ;;
  upd_disk (fun d => dk_set_avail (u16 (dk_avail_idx d + 1)) (dk_avail_ring d) d) ;;
  vwrite VIRTIO_MMIO_QUEUE_NOTIFY 0.

(** [while(b->disk == 1) sleep(b, ...)] *)
Fixpoint rw_wait (fuel : nat) (b : nat) : K unit :=
  match fuel with
  | O => nofuel
  | S fuel =>
    x ← get_buf b;
    if b_disk x =? 1 then sleep (C_buf b) L_vdisk ;; rw_wait fuel b
    else mret tt
  end.

(** [virtio_disk_rw(b, write)] *)
Definition virtio_rw (b : nat) (write : bool) : K unit :=
  x ← get_buf b;
  let sector := u32 (b_blockno x * (BSIZE / 512)) in
  acquire L_vdisk ;;
  idx ← sleeping alloc3_wait;
  match idx with
  | [i0; i1; i2] =>
    post_request b write sector i0 i1 i2 ;;
    sleeping (fun fuel => rw_wait fuel b) ;;
    set_info (Z.to_nat i0) (fun x => (None, x.2)) ;;
    free_chain i0 ;;
    release L_vdisk
  | _ => fault
  end.

(** ** Completion *)

(** The device has completed at most NUM requests since the last look. *)
Fixpoint intr_loop (fuel : nat) : K unit :=
  match fuel with
  | O => nofuel
  | S fuel =>
    d ← get_disk;
    if dk_seen d =? dk_used_idx d then mret tt
    else
      id ← deref (dk_used_ring d !! Z.to_nat (dk_seen d mod NUM));
      x ← deref (dk_info d !! Z.to_nat id);
      when (negb (x.2 =? 0)) (panic "virtio_disk_intr status") ;;
      b ← deref x.1;
      upd_buf b (b_set_disk 0) ;;
      wakeup (Some (C_buf b)) ;;
      upd_disk (fun d => dk_set_seen (u16 (dk_seen d + 1)) d) ;;
      intr_loop fuel
  end.

Definition virtio_disk_intr : K unit :=
  acquire L_vdisk ;;
  st ← vread VIRTIO_MMIO_INTERRUPT_STATUS;
  vwrite VIRTIO_MMIO_INTERRUPT_ACK (Z.land st 0x3) ;;
  intr_loop (S (Z.to_nat NUM)) ;;
  release L_vdisk.
