(* ===== verification/File.v ===== *)
(** file.c and pipe.c: open files and pipes. A file is an index into
    ftable.file; a pipe is the address of the page that holds it. *)

From S2P Require Import Prelude Machine KState Blocks Spinlock Kalloc Vm Proc Sleeplock Bio Log Fs Console.

(** ** Access *)

Definition get_file (f : nat) : K file := v ← gets k_vfs; deref (v_files v !! f).
Definition upd_file (f : nat) (g : file -> file) : K unit :=
  x ← get_file f;
  modk (fun s => set_vfs (v_set_files (<[f := g x]> (v_files (k_vfs s))) (k_vfs s)) s).
Definition get_pipe (pi : Z) : K pipe := v ← gets k_vfs; deref (v_pipes v !! pi).
Definition upd_pipe (pi : Z) (g : pipe -> pipe) : K unit :=
  x ← get_pipe pi;
  modk (fun s => set_vfs (v_set_pipes (<[pi := g x]> (v_pipes (k_vfs s))) (k_vfs s)) s).

Definition f_set_type (v : filetype) (f : file) : file :=
  File v (f_ref f) (f_readable f) (f_writable f) (f_pipe f) (f_ip f) (f_off f) (f_major f).
Definition f_set_ref (v : Z) (f : file) : file :=
  File (f_type f) v (f_readable f) (f_writable f) (f_pipe f) (f_ip f) (f_off f) (f_major f).
Definition f_set_readable (v : Z) (f : file) : file :=
  File (f_type f) (f_ref f) v (f_writable f) (f_pipe f) (f_ip f) (f_off f) (f_major f).
Definition f_set_writable (v : Z) (f : file) : file :=
  File (f_type f) (f_ref f) (f_readable f) v (f_pipe f) (f_ip f) (f_off f) (f_major f).
Definition f_set_pipe (v : Z) (f : file) : file :=
  File (f_type f) (f_ref f) (f_readable f) (f_writable f) v (f_ip f) (f_off f) (f_major f).
Definition f_set_ip (v : option nat) (f : file) : file :=
  File (f_type f) (f_ref f) (f_readable f) (f_writable f) (f_pipe f) v (f_off f) (f_major f).
Definition f_set_off (v : Z) (f : file) : file :=
  File (f_type f) (f_ref f) (f_readable f) (f_writable f) (f_pipe f) (f_ip f) v (f_major f).
Definition f_set_major (v : Z) (f : file) : file :=
  File (f_type f) (f_ref f) (f_readable f) (f_writable f) (f_pipe f) (f_ip f) (f_off f) v.

Definition pi_set_data (v : list Z) (p : pipe) : pipe := Pipe v (pi_nread p) (pi_nwrite p) (pi_readopen p) (pi_writeopen p).
Definition pi_set_nread (v : Z) (p : pipe) : pipe := Pipe (pi_data p) v (pi_nwrite p) (pi_readopen p) (pi_writeopen p).
Definition pi_set_nwrite (v : Z) (p : pipe) : pipe := Pipe (pi_data p) (pi_nread p) v (pi_readopen p) (pi_writeopen p).
Definition pi_set_readopen (v : Z) (p : pipe) : pipe := Pipe (pi_data p) (pi_nread p) (pi_nwrite p) v (pi_writeopen p).
Definition pi_set_writeopen (v : Z) (p : pipe) : pipe := Pipe (pi_data p) (pi_nread p) (pi_nwrite p) (pi_readopen p) v.

(** ** The table of files *)

Definition fileinit : K unit := initlock L_ftable "ftable".

Fixpoint filealloc_loop (l : list nat) : K (option nat) :=
  match l with
  | [] => release L_ftable ;; mret None
  | f :: l =>
    x ← get_file f;
    if f_ref x =? 0 then
      upd_file f (f_set_ref 1) ;;
      release L_ftable ;;
      mret (Some f)
    else filealloc_loop l
  end.
Definition filealloc : K (option nat) :=
  acquire L_ftable ;;
  filealloc_loop (seq 0 NFILE).

Definition filedup (f : nat) : K nat :=
  acquire L_ftable ;;
  x ← get_file f;
  when (f_ref x <? 1) (panic "filedup") ;;
  upd_file f (fun x => f_set_ref (f_ref x + 1) x) ;;
  release L_ftable ;;
  mret f.

(** ** Pipes *)

Definition PIPESIZE : Z := 512.

Definition pipeclose (pi : Z) (writable : bool) : K unit :=
  acquire (L_pipe pi) ;;
  (if writable then
     upd_pipe pi (pi_set_writeopen 0) ;;
     wakeup (Some (C_pipe_nread pi))
   else
     upd_pipe pi (pi_set_readopen 0) ;;
     wakeup (Some (C_pipe_nwrite pi))) ;;
  p ← get_pipe pi;
  if (pi_readopen p =? 0) && (pi_writeopen p =? 0) then
    release (L_pipe pi) ;;
    modk (fun s => set_vfs (v_set_pipes (delete pi (v_pipes (k_vfs s))) (k_vfs s)) s) ;;
    kfree pi
  else release (L_pipe pi).

(** A round writes a byte or sleeps. *)
Fixpoint pipewrite_loop (fuel : nat) (pi : Z) (pr : nat) (addr n i : Z) : K Z :=
  match fuel with
  | O => nofuel
  | S fuel =>
    if i <? n then
      p ← get_pipe pi;
      stop ← (if pi_readopen p =? 0 then mret true else k ← killed pr; mret (negb (k =? 0)));
      if (stop : bool) then release (L_pipe pi) ;; mret (-1)
      else if pi_nwrite p =? u32 (pi_nread p + PIPESIZE) then
        wakeup (Some (C_pipe_nread pi)) ;;
        sleep (C_pipe_nwrite pi) (L_pipe pi) ;;
        pipewrite_loop fuel pi pr addr n i
      else
        me ← get_proc pr;
        r ← copyin (p_pagetable me) (u64 (addr + i)) 1;
        if r.1 =? -1 then wakeup (Some (C_pipe_nread pi)) ;; release (L_pipe pi) ;; mret i
        else
          upd_pipe pi (fun p => pi_set_nwrite (u32 (pi_nwrite p + 1))
            (pi_set_data (<[Z.to_nat (pi_nwrite p mod PIPESIZE) := default 0 (hd_error r.2)]> (pi_data p)) p)) ;;
          pipewrite_loop fuel pi pr addr n (i + 1)
    else wakeup (Some (C_pipe_nread pi)) ;; release (L_pipe pi) ;; mret i
  end.

Definition pipewrite (pi addr n : Z) : K Z :=
  pr ← curproc;
  acquire (L_pipe pi) ;;
  sleeping (fun fuel => pipewrite_loop (fuel + Z.to_nat n) pi pr addr n 0).

(** Wait for a byte or the end of the pipe: false when killed. *)
Fixpoint piperead_wait (fuel : nat) (pi : Z) (pr : nat) : K bool :=
  match fuel with
  | O => nofuel
  | S fuel =>
    p ← get_pipe pi;
    if (pi_nread p =? pi_nwrite p) && negb (pi_writeopen p =? 0) then
      k ← killed pr;
      if negb (k =? 0) then release (L_pipe pi) ;; mret false
      else sleep (C_pipe_nread pi) (L_pipe pi) ;; piperead_wait fuel pi pr
    else mret true
  end.

Fixpoint piperead_loop (k : nat) (pi : Z) (pr : nat) (addr i : Z) : K Z :=
  match k with
  | O => mret i
  | S k =>
    p ← get_pipe pi;
    if pi_nread p =? pi_nwrite p then mret i
    else
      ch ← deref (pi_data p !! Z.to_nat (pi_nread p mod PIPESIZE));
      upd_pipe pi (fun p => pi_set_nread (u32 (pi_nread p + 1)) p) ;;
      me ← get_proc pr;
      r ← copyout (p_pagetable me) (u64 (addr + i)) [ch];
      if r =? -1 then mret i
      else piperead_loop k pi pr addr (i + 1)
  end.

Definition piperead (pi addr n : Z) : K Z :=
  pr ← curproc;
  acquire (L_pipe pi) ;;
  ok ← sleeping (fun fuel => piperead_wait fuel pi pr);
  if negb ok then mret (-1)
  else
    i ← piperead_loop (Z.to_nat n) pi pr addr 0;
    wakeup (Some (C_pipe_nwrite pi)) ;;
    release (L_pipe pi) ;;
    mret i.

(** ** Operations on files *)

Section file.
Context `{DiskDriver}.

Definition fileclose (f : nat) : K unit :=
  acquire L_ftable ;;
  x ← get_file f;
  when (f_ref x <? 1) (panic "fileclose") ;;
  upd_file f (fun x => f_set_ref (f_ref x - 1) x) ;;
  x ← get_file f;
  if f_ref x >? 0 then release L_ftable
  else
    ff ← get_file f;
    upd_file f (f_set_ref 0) ;;
    upd_file f (f_set_type FD_NONE) ;;
    release L_ftable ;;
    match f_type ff with
    | FD_PIPE => pipeclose (f_pipe ff) (negb (f_writable ff =? 0))
    | FD_INODE | FD_DEVICE =>
      begin_op ;;
      ip ← deref (f_ip ff);
      iput ip ;;
      end_op
    | FD_NONE => mret tt
    end.

(** The data of a new pipe is what kalloc left in the page. *)
Definition pipealloc : K (option (nat * nat)) :=
  f0 ← filealloc;
  f1 ← match f0 with None => mret None | Some _ => filealloc end;
  pi ← match f1 with None => mret 0 | Some _ => kalloc end;
  match f0, f1 with
  | Some f0, Some f1 =>
    if pi =? 0 then fileclose f0 ;; fileclose f1 ;; mret None
    else
      modk (fun s => set_vfs (v_set_pipes
        (<[pi := Pipe (replicate (Z.to_nat PIPESIZE) 5) 0 0 1 1]> (v_pipes (k_vfs s))) (k_vfs s)) s) ;;
      initlock (L_pipe pi) "pipe" ;;
      upd_file f0 (f_set_type FD_PIPE) ;;
      upd_file f0 (f_set_readable 1) ;;
      upd_file f0 (f_set_writable 0) ;;
      upd_file f0 (f_set_pipe pi) ;;
      upd_file f1 (f_set_type FD_PIPE) ;;
      upd_file f1 (f_set_readable 0) ;;
      upd_file f1 (f_set_writable 1) ;;
      upd_file f1 (f_set_pipe pi) ;;
      mret (Some (f0, f1))
  | Some f0, None => fileclose f0 ;; mret None
  | None, _ => mret None
  end.

(** [struct stat] in memory; four bytes of padding before [size]. *)
Definition stat_bytes (st : stat) : list Z :=
  le_bytes 4 (u32 (st_dev st)) ++ le_bytes 4 (st_ino st) ++ le_bytes 2 (u16 (st_type st)) ++
  le_bytes 2 (u16 (st_nlink st)) ++ replicate 4 0 ++ le_bytes 8 (st_size st).

Definition filestat (f : nat) (addr : Z) : K Z :=
  i ← curproc;
  p ← get_proc i;
  x ← get_file f;
  match f_type x with
  | FD_INODE | FD_DEVICE =>
    ilock (f_ip x) ;;
    ip ← deref (f_ip x);
    st ← stati ip;
    iunlock (f_ip x) ;;
    r ← copyout (p_pagetable p) addr (stat_bytes st);
    if r <? 0 then mret (-1) else mret 0
  | _ => mret (-1)
  end.

(** [devsw[major]], when [major] is in range. *)
Definition get_devsw (major : Z) : K (option devsw_) :=
  d ← get_dev;
  if (major <? 0) || (major >=? NDEV) then mret None else mret (d_devsw d !! Z.to_nat major).

Definition fileread (f : nat) (addr n : Z) : K Z :=
  x ← get_file f;
  if f_readable x =? 0 then mret (-1)
  else
    match f_type x with
    | FD_PIPE => piperead (f_pipe x) addr n
    | FD_DEVICE =>
      d ← get_devsw (f_major x);
      match d ≫= dev_read with
      | None => mret (-1)
      | Some CONSOLE_driver => consoleread (D_user addr) n
      end
    | FD_INODE =>
      ilock (f_ip x) ;;
      ip ← deref (f_ip x);
      x ← get_file f;
      r ← readi ip (D_user addr) (f_off x) (u32 n);
      when (r.1 >? 0) (upd_file f (fun x => f_set_off (u32 (f_off x + r.1)) x)) ;;
      iunlock (f_ip x) ;;
      mret r.1
    | FD_NONE => panic "fileread"
    end.

Definition filewrite_max : Z := ((MAXOPBLOCKS - 1 - 1 - 2) / 2) * BSIZE.

Fixpoint filewrite_loop (fuel : nat) (f : nat) (addr n i : Z) : K Z :=
  match fuel with
  | O => nofuel
  | S fuel =>
    if i <? n then
      let n1 := n - i in
      let n1 := if n1 >? filewrite_max then filewrite_max else n1 in
      begin_op ;;
      x ← get_file f;
      ilock (f_ip x) ;;
      ip ← deref (f_ip x);
      x ← get_file f;
      r ← writei ip (S_user (u64 (addr + i))) (f_off x) (u32 n1);
      when (r >? 0) (upd_file f (fun x => f_set_off (u32 (f_off x + r)) x)) ;;
      iunlock (f_ip x) ;;
      end_op ;;
      if negb (r =? n1) then mret i
      else filewrite_loop fuel f addr n (i + r)
    else mret i
  end.

Definition filewrite (f : nat) (addr n : Z) : K Z :=
  x ← get_file f;
  if f_writable x =? 0 then mret (-1)
  else
    match f_type x with
    | FD_PIPE => pipewrite (f_pipe x) addr n
    | FD_DEVICE =>
      d ← get_devsw (f_major x);
      match d ≫= dev_write with
      | None => mret (-1)
      | Some CONSOLE_driver => consolewrite (S_user addr) n
      end
    | FD_INODE =>
      i ← filewrite_loop (Z.to_nat (n / filewrite_max) + 2) f addr n 0;
      mret (if i =? n then n else -1)
    | FD_NONE => panic "filewrite"
    end.

End file.
