(* ===== verification/ProcFs.v ===== *)
(** proc.c, the part that uses the file system (userinit, fork, exit), and
    exec.c. *)

From S2P Require Import Prelude Machine KState Blocks Spinlock KString Kalloc Vm Proc Sleeplock Bio Log Fs Console File.

(** ** Strings in arrays *)

(** The characters before the nul. *)
Fixpoint cstring (l : list Z) : list Z :=
  match l with
  | [] => []
  | c :: l => if c =? 0 then [] else c :: cstring l
  end.

(** [safestrcpy(s, t, n)] on arrays: at most n - 1 characters and a nul. *)
Definition safestrcpy_l (n : nat) (s t : list Z) : list Z :=
  let c := take (n - 1) (cstring t) in c ++ [0] ++ drop (S (length c)) s.

(** [sizeof(p->name)] *)
Definition sizeof_name : nat := 16.

(** A word of the trapframe of process [i]. *)
Definition tf_load (i : nat) (off : Z) : K Z := p ← get_proc i; kload64 (p_trapframe p + off).
Definition tf_store (i : nat) (off v : Z) : K unit := p ← get_proc i; kstore64 (p_trapframe p + off) v.

Section procfs.
Context `{DiskDriver}.

(** ** The first process *)

Definition initcode : list Z :=
  [0x17; 0x05; 0x00; 0x00; 0x13; 0x05; 0x45; 0x02;
   0x97; 0x05; 0x00; 0x00; 0x93; 0x85; 0x35; 0x02;
   0x93; 0x08; 0x70; 0x00; 0x73; 0x00; 0x00; 0x00;
   0x93; 0x08; 0x20; 0x00; 0x73; 0x00; 0x00; 0x00;
   0xef; 0xf0; 0x9f; 0xff; 0x2f; 0x69; 0x6e; 0x69;
   0x74; 0x00; 0x00; 0x24; 0x00; 0x00; 0x00; 0x00;
   0x00; 0x00; 0x00; 0x00].

Definition userinit : K unit :=
  p ← allocproc;
  modk (fun s => set_ps (ps_set_initproc p (k_ps s)) s) ;;
  i ← deref p;
  x ← get_proc i;
  uvmfirst (p_pagetable x) initcode ;;
  upd_proc i (p_set_sz PGSIZE) ;;
  tf_store i tf_epc 0 ;;
  tf_store i tf_sp PGSIZE ;;
  upd_proc i (fun x => p_set_name (safestrcpy_l sizeof_name (p_name x) (bytes_of "initcode")) x) ;;
  cwd ← namei [slash];
  upd_proc i (p_set_cwd cwd) ;;
  upd_proc i (p_set_state RUNNABLE) ;;
  release (L_proc i).

(** ** fork and exit *)

Definition fork_dup (p np fd : nat) : K unit :=
  x ← get_proc p;
  f ← deref (p_ofile x !! fd);
  match f with
  | None => mret tt
  | Some f =>
    f ← filedup f;
    upd_proc np (fun y => p_set_ofile (<[fd := Some f]> (p_ofile y)) y)
  end.

Definition fork : K Z :=
  p ← curproc;
  np ← allocproc;
  match np with
  | None => mret (-1)
  | Some np =>
    x ← get_proc p;
    y ← get_proc np;
    r ← uvmcopy (p_pagetable x) (p_pagetable y) (p_sz x);
    if r <? 0 then
      freeproc np ;;
      release (L_proc np) ;;
      mret (-1)
    else
      upd_proc np (p_set_sz (p_sz x)) ;;
      setmem (fun m => store_bytes m (p_trapframe y) (load_bytes m (p_trapframe x) sizeof_trapframe)) ;;
      tf_store np tf_a0 0 ;;
      forK (seq 0 NOFILE) (fork_dup p np) ;;
      cwd ← deref (p_cwd x);
      cwd ← idup cwd;
      upd_proc np (p_set_cwd (Some cwd)) ;;
      upd_proc np (fun y => p_set_name (safestrcpy_l sizeof_name (p_name y) (p_name x)) y) ;;
      y ← get_proc np;
      let pid := p_pid y in
      release (L_proc np) ;;
      acquire L_wait ;;
      upd_proc np (p_set_parent (Some p)) ;;
      release L_wait ;;
      acquire (L_proc np) ;;
      upd_proc np (p_set_state RUNNABLE) ;;
      release (L_proc np) ;;
      mret pid
  end.

Definition exit_close (p fd : nat) : K unit :=
  x ← get_proc p;
  f ← deref (p_ofile x !! fd);
  match f with
  | None => mret tt
  | Some f =>
    fileclose f ;;
    upd_proc p (fun x => p_set_ofile (<[fd := None]> (p_ofile x)) x)
  end.

(** Does not return: the scheduler never picks a zombie. *)
Definition exit (status : Z) : K unit :=
  p ← curproc;
  initproc ← gets (fun s => ps_initproc (k_ps s));
  when (bool_decide (initproc = Some p)) (panic "init exiting") ;;
  forK (seq 0 NOFILE) (exit_close p) ;;
  begin_op ;;
  x ← get_proc p;
  cwd ← deref (p_cwd x);
  iput cwd ;;
  end_op ;;
  upd_proc p (p_set_cwd None) ;;
  acquire L_wait ;;
  reparent p ;;
  x ← get_proc p;
  wakeup (C_proc <$> p_parent x) ;;
  acquire (L_proc p) ;;
  upd_proc p (p_set_xstate status) ;;
  upd_proc p (p_set_state ZOMBIE) ;;
  release L_wait ;;
  sched ;;
  panic "zombie exit".

(** ** exec.c *)

Definition ELF_MAGIC : Z := 0x464C457F.
Definition ELF_PROG_LOAD : Z := 1.

Definition get64 (off : Z) (l : list Z) : Z := le_val (slice off 8 l).

(** [struct elfhdr] and [struct proghdr], the fields exec reads. *)
Definition sizeof_elfhdr : Z := 64.
Definition elf_magic (l : list Z) : Z := get32 0 l.
Definition elf_entry (l : list Z) : Z := get64 24 l.
Definition elf_phoff (l : list Z) : Z := get64 32 l.
Definition elf_phnum (l : list Z) : Z := get16 56 l.

Record proghdr := Proghdr {
  ph_type : Z;
  ph_flags : Z;
  ph_off : Z;
  ph_vaddr : Z;
  ph_filesz : Z;
  ph_memsz : Z }.
Definition sizeof_proghdr : Z := 56.
Definition proghdr_read (l : list Z) : proghdr :=
  Proghdr (get32 0 l) (get32 4 l) (get64 8 l) (get64 16 l) (get64 32 l) (get64 40 l).

Definition flags2perm (flags : Z) : Z :=
  let perm := 0 in
  let perm := if negb (Z.land flags 0x1 =? 0) then PTE_X else perm in
  if negb (Z.land flags 0x2 =? 0) then Z.lor perm PTE_W else perm.

Fixpoint loadseg_loop (fuel : nat) (pagetable va : Z) (ip : nat) (offset sz i : Z) : K Z :=
  match fuel with
  | O => nofuel
  | S fuel =>
    if i <? sz then
      pa ← walkaddr pagetable (u64 (va + i));
      when (pa =? 0) (panic "loadseg: address should exist") ;;
      let n := if sz - i <? PGSIZE then sz - i else PGSIZE in
      r ← readi ip (D_kern pa) (u32 (offset + i)) n;
      if negb (u32 r.1 =? n) then mret (-1)
      else loadseg_loop fuel pagetable va ip offset sz (u32 (i + PGSIZE))
    else mret 0
  end.
Definition loadseg (pagetable va : Z) (ip : nat) (offset sz : Z) : K Z :=
  loadseg_loop (Z.to_nat (sz / PGSIZE) + 2) pagetable va ip offset sz 0.

(** The loop over the program headers: the size reached and whether it got
    through. *)
Fixpoint exec_load (k : nat) (ip : nat) (pagetable off sz : Z) : K (Z * bool) :=
  match k with
  | O => mret (sz, true)
  | S k =>
    r ← readi ip D_local (u32 off) sizeof_proghdr;
    if negb (r.1 =? sizeof_proghdr) then mret (sz, false)
    else
      let ph := proghdr_read r.2 in
      if negb (ph_type ph =? ELF_PROG_LOAD) then exec_load k ip pagetable (i32 (off + sizeof_proghdr)) sz
      else if ph_memsz ph <? ph_filesz ph then mret (sz, false)
      else if u64 (ph_vaddr ph + ph_memsz ph) <? ph_vaddr ph then mret (sz, false)
      else if negb (ph_vaddr ph mod PGSIZE =? 0) then mret (sz, false)
      else
        sz1 ← uvmalloc pagetable sz (u64 (ph_vaddr ph + ph_memsz ph)) (flags2perm (ph_flags ph));
        if sz1 =? 0 then mret (sz, false)
        else
          r ← loadseg pagetable (ph_vaddr ph) ip (u32 (ph_off ph)) (u32 (ph_filesz ph));
          if r <? 0 then mret (sz1, false)
          else exec_load k ip pagetable (i32 (off + sizeof_proghdr)) sz1
  end.

(** The loop over the arguments, the addresses of strings in kernel memory:
    [sp] and the stack contents so far, or nothing. [ustack] has MAXARG elements, one of
    them for the null pointer after the last argument. *)
Fixpoint exec_args (argv : list Z) (argc : nat) (pagetable sp stackbase : Z) (ustack : list Z) : K (option (Z * list Z)) :=
  match argv with
  | [] => fault
  | a :: argv =>
    if a =? 0 then if (argc <? MAXARG)%nat then mret (Some (sp, ustack)) else fault
    else if (MAXARG <=? argc)%nat then mret None
    else
      m ← getmem;
      len ← deref (strlen m a (Z.to_nat PGSIZE));
      let sp := u64 (sp - (len + 1)) in
      let sp := u64 (sp - sp mod 16) in
      if sp <? stackbase then mret None
      else
        r ← copyout pagetable sp (load_bytes m a (Z.to_nat (len + 1)));
        if r <? 0 then mret None
        else exec_args argv (S argc) pagetable sp stackbase (ustack ++ [sp])
  end.

(** The path after its last slash. *)
Fixpoint exec_last (s last : list Z) : list Z :=
  match s with
  | [] => last
  | c :: s => if c =? slash then exec_last s s else exec_last s last
  end.

(** The label [bad]. *)
Definition exec_bad (pagetable sz : Z) (ip : option nat) : K Z :=
  when (negb (pagetable =? 0)) (proc_freepagetable pagetable sz) ;;
  match ip with
  | Some _ => iunlockput ip ;; end_op
  | None => mret tt
  end ;;
  mret (-1).

(** From the stack on: the program is loaded and its file closed. *)
Definition exec_stack (p : nat) (path argv : list Z) (elf : list Z) (pagetable sz : Z) : K Z :=
  x ← get_proc p;
  let oldsz := p_sz x in
  let sz := PGROUNDUP sz in
  sz1 ← uvmalloc pagetable sz (u64 (sz + 2 * PGSIZE)) PTE_W;
  if sz1 =? 0 then exec_bad pagetable sz None
  else
    let sz := sz1 in
    uvmclear pagetable (u64 (sz - 2 * PGSIZE)) ;;
    let sp := sz in
    let stackbase := u64 (sp - PGSIZE) in
    r ← exec_args argv 0 pagetable sp stackbase [];
    match r with
    | None => exec_bad pagetable sz None
    | Some (sp, ustack) =>
      let argc := Z.of_nat (length ustack) in
      let sp := u64 (sp - (argc + 1) * 8) in
      let sp := u64 (sp - sp mod 16) in
      if sp <? stackbase then exec_bad pagetable sz None
      else
        r ← copyout pagetable sp (concat (le_bytes 8 <$> (ustack ++ [0])));
        if r <? 0 then exec_bad pagetable sz None
        else
          tf_store p tf_a1 sp ;;
          upd_proc p (fun x => p_set_name (safestrcpy_l sizeof_name (p_name x) (exec_last path path)) x) ;;
          x ← get_proc p;
          let oldpagetable := p_pagetable x in
          upd_proc p (p_set_pagetable pagetable) ;;
          upd_proc p (p_set_sz sz) ;;
          tf_store p tf_epc (elf_entry elf) ;;
          tf_store p tf_sp sp ;;
          proc_freepagetable oldpagetable oldsz ;;
          mret argc
    end.

Definition exec (path argv : list Z) : K Z :=
  p ← curproc;
  begin_op ;;
  ip ← namei path;
  match ip with
  | None => end_op ;; mret (-1)
  | Some i =>
    ilock ip ;;
    elf ← readi i D_local 0 sizeof_elfhdr;
    if negb (elf.1 =? sizeof_elfhdr) then exec_bad 0 0 ip
    else if negb (elf_magic elf.2 =? ELF_MAGIC) then exec_bad 0 0 ip
    else
      pagetable ← proc_pagetable p;
      if pagetable =? 0 then exec_bad 0 0 ip
      else
        r ← exec_load (Z.to_nat (elf_phnum elf.2)) i pagetable (i32 (elf_phoff elf.2)) 0;
        if negb r.2 then exec_bad pagetable r.1 ip
        else
          iunlockput ip ;;
          end_op ;;
          exec_stack p path argv elf.2 pagetable r.1
  end.

End procfs.
