(* ===== verification/Syscall.v ===== *)
(** syscall.c, sysproc.c, sysfile.c: the system calls. A path or a name is the
    list of its characters. *)

From S2P Require Import Prelude Machine KState Blocks Spinlock KString Kalloc Vm Proc Sleeplock Bio Log Fs Console File ProcFs.

(** ** Arguments *)

Definition fetchaddr (addr : Z) : K (option Z) :=
  i ← curproc;
  p ← get_proc i;
  if (addr >=? p_sz p) || (u64 (addr + 8) >? p_sz p) then mret None
  else
    r ← copyin (p_pagetable p) addr 8;
    if negb (r.1 =? 0) then mret None else mret (Some (le_val r.2)).

(** The length of the string and the string, or -1 and what was copied. *)
Definition fetchstr (addr max : Z) : K (Z * list Z) :=
  i ← curproc;
  p ← get_proc i;
  r ← copyinstr (p_pagetable p) addr max;
  if r.1 <? 0 then mret (-1, r.2)
  else mret (Z.of_nat (length (cstring r.2)), cstring r.2).

Definition argraw (n : Z) : K Z :=
  i ← curproc;
  if n =? 0 then tf_load i tf_a0
  else if n =? 1 then tf_load i tf_a1
  else if n =? 2 then tf_load i tf_a2
  else if n =? 3 then tf_load i tf_a3
  else if n =? 4 then tf_load i tf_a4
  else if n =? 5 then tf_load i tf_a5
  else panic "argraw".

Definition argint (n : Z) : K Z := v ← argraw n; mret (i32 v).
Definition argaddr (n : Z) : K Z := argraw n.
Definition argstr (n max : Z) : K (Z * list Z) :=
  addr ← argaddr n;
  fetchstr addr max.

(** ** sysproc.c *)

Definition sys_getpid : K Z := i ← curproc; p ← get_proc i; mret (p_pid p).

Definition sys_wait : K Z := p ← argaddr 0; wait p.

Definition sys_sbrk : K Z :=
  n ← argint 0;
  i ← curproc;
  p ← get_proc i;
  let addr := p_sz p in
  r ← growproc n;
  if r <? 0 then mret (-1) else mret addr.

Definition get_ticks : K Z := gets (fun s => ps_ticks (k_ps s)).

(** [n] is compared as an unsigned number. *)
Fixpoint sys_sleep_loop (fuel : nat) (ticks0 n : Z) : K Z :=
  match fuel with
  | O => nofuel
  | S fuel =>
    ticks ← get_ticks;
    if u32 (ticks - ticks0) <? u32 n then
      i ← curproc;
      k ← killed i;
      if negb (k =? 0) then release L_tick ;; mret (-1)
      else sleep C_ticks L_tick ;; sys_sleep_loop fuel ticks0 n
    else release L_tick ;; mret 0
  end.

Definition sys_sleep : K Z :=
  n ← argint 0;
  acquire L_tick ;;
  ticks0 ← get_ticks;
  sleeping (fun fuel => sys_sleep_loop fuel ticks0 n).

Definition sys_kill : K Z := pid ← argint 0; kill pid.

Definition sys_uptime : K Z :=
  acquire L_tick ;;
  xticks ← get_ticks;
  release L_tick ;;
  mret xticks.

Section syscall.
Context `{DiskDriver}.

Definition sys_exit : K Z := n ← argint 0; exit n ;; mret 0.
Definition sys_fork : K Z := fork.

(** ** sysfile.c: descriptors *)

(** The descriptor and the file. *)
Definition argfd (n : Z) : K (option (nat * nat)) :=
  fd ← argint n;
  if (fd <? 0) || (fd >=? Z.of_nat NOFILE) then mret None
  else
    i ← curproc;
    p ← get_proc i;
    f ← deref (p_ofile p !! Z.to_nat fd);
    mret (pair (Z.to_nat fd) <$> f).

Fixpoint fdalloc_loop (l : list nat) (i f : nat) : K Z :=
  match l with
  | [] => mret (-1)
  | fd :: l =>
    p ← get_proc i;
    x ← deref (p_ofile p !! fd);
    match x with
    | None =>
      upd_proc i (fun p => p_set_ofile (<[fd := Some f]> (p_ofile p)) p) ;;
      mret (Z.of_nat fd)
    | Some _ => fdalloc_loop l i f
    end
  end.
Definition fdalloc (f : nat) : K Z := i ← curproc; fdalloc_loop (seq 0 NOFILE) i f.

Definition clear_fd (i : nat) (fd : Z) : K unit :=
  upd_proc i (fun p => p_set_ofile (<[Z.to_nat fd := None]> (p_ofile p)) p).

Definition sys_dup : K Z :=
  a ← argfd 0;
  match a with
  | None => mret (-1)
  | Some (_, f) =>
    fd ← fdalloc f;
    if fd <? 0 then mret (-1)
    else filedup f ;; mret fd
  end.

Definition sys_read : K Z :=
  p ← argaddr 1;
  n ← argint 2;
  a ← argfd 0;
  match a with None => mret (-1) | Some (_, f) => fileread f p n end.

Definition sys_write : K Z :=
  p ← argaddr 1;
  n ← argint 2;
  a ← argfd 0;
  match a with None => mret (-1) | Some (_, f) => filewrite f p n end.

Definition sys_close : K Z :=
  a ← argfd 0;
  match a with
  | None => mret (-1)
  | Some (fd, f) =>
    i ← curproc;
    clear_fd i (Z.of_nat fd) ;;
    fileclose f ;;
    mret 0
  end.

Definition sys_fstat : K Z :=
  st ← argaddr 1;
  a ← argfd 0;
  match a with None => mret (-1) | Some (_, f) => filestat f st end.

(** ** sysfile.c: links *)

Definition maxpath : Z := Z.of_nat MAXPATH.
Definition no_name : list Z := replicate DIRSIZ 0.

(** The label [bad] of sys_link. *)
Definition link_bad (ip : nat) : K Z :=
  ilock (Some ip) ;;
  upd_inode ip (fun x => i_set_nlink (i16 (i_nlink x - 1)) x) ;;
  iupdate ip ;;
  iunlockput (Some ip) ;;
  end_op ;;
  mret (-1).

Definition sys_link : K Z :=
  old ← argstr 0 maxpath;
  new ← (if old.1 <? 0 then mret (-1, []) else argstr 1 maxpath);
  if (old.1 <? 0) || (new.1 <? 0) then mret (-1)
  else
    begin_op ;;
    ip ← namei old.2;
    match ip with
    | None => end_op ;; mret (-1)
    | Some ip =>
      ilock (Some ip) ;;
      x ← get_inode ip;
      if i_type x =? T_DIR then iunlockput (Some ip) ;; end_op ;; mret (-1)
      else
        upd_inode ip (fun x => i_set_nlink (i16 (i_nlink x + 1)) x) ;;
        iupdate ip ;;
        iunlock (Some ip) ;;
        dp ← nameiparent new.2 no_name;
        match dp with
        | None => link_bad ip
        | Some (dp, name) =>
          ilock (Some dp) ;;
          d ← get_inode dp;
          x ← get_inode ip;
          r ← (if negb (i_dev d =? i_dev x) then mret (-1) else dirlink dp name (i_inum x));
          if r <? 0 then iunlockput (Some dp) ;; link_bad ip
          else
            iunlockput (Some dp) ;;
            iput ip ;;
            end_op ;;
            mret 0
        end
    end.

Fixpoint isdirempty_loop (fuel : nat) (dp : nat) (off : Z) : K bool :=
  match fuel with
  | O => nofuel
  | S fuel =>
    x ← get_inode dp;
    if off <? i_size x then
      r ← readi dp D_local off sizeof_dirent;
      when (negb (r.1 =? sizeof_dirent)) (panic "isdirempty: readi") ;;
      if negb (de_inum (dirent_read r.2) =? 0) then mret false
      else isdirempty_loop fuel dp (off + sizeof_dirent)
    else mret true
  end.
Definition isdirempty (dp : nat) : K bool :=
  x ← get_inode dp;
  isdirempty_loop (Z.to_nat (i_size x / sizeof_dirent) + 1) dp (2 * sizeof_dirent).

(** The label [bad] of sys_unlink. *)
Definition unlink_bad (dp : nat) : K Z := iunlockput (Some dp) ;; end_op ;; mret (-1).

Definition sys_unlink : K Z :=
  path ← argstr 0 maxpath;
  if path.1 <? 0 then mret (-1)
  else
    begin_op ;;
    dp ← nameiparent path.2 no_name;
    match dp with
    | None => end_op ;; mret (-1)
    | Some (dp, name) =>
      ilock (Some dp) ;;
      if (namecmp name [46] =? 0) || (namecmp name [46; 46] =? 0) then unlink_bad dp
      else
        ip ← dirlookup dp name;
        match ip with
        | None => unlink_bad dp
        | Some (ip, off) =>
          ilock (Some ip) ;;
          x ← get_inode ip;
          when (i_nlink x <? 1) (panic "unlink: nlink < 1") ;;
          empty ← (if i_type x =? T_DIR then isdirempty ip else mret true);
          if negb empty then iunlockput (Some ip) ;; unlink_bad dp
          else
            r ← writei dp (S_local (replicate (Z.to_nat sizeof_dirent) 0)) off sizeof_dirent;
            when (negb (r =? sizeof_dirent)) (panic "unlink: writei") ;;
            x ← get_inode ip;
            when (i_type x =? T_DIR) (
              upd_inode dp (fun d => i_set_nlink (i16 (i_nlink d - 1)) d) ;;
              iupdate dp) ;;
            iunlockput (Some dp) ;;
            upd_inode ip (fun x => i_set_nlink (i16 (i_nlink x - 1)) x) ;;
            iupdate ip ;;
            iunlockput (Some ip) ;;
            end_op ;;
            mret 0
        end
    end.

(** ** sysfile.c: creation *)

(** The label [fail] of create. *)
Definition create_fail (ip dp : nat) : K (option nat) :=
  upd_inode ip (i_set_nlink 0) ;;
  iupdate ip ;;
  iunlockput (Some ip) ;;
  iunlockput (Some dp) ;;
  mret None.

(** The inode, locked. *)
Definition create (path : list Z) (type major minor : Z) : K (option nat) :=
  dp ← nameiparent path no_name;
  match dp with
  | None => mret None
  | Some (dp, name) =>
    ilock (Some dp) ;;
    found ← dirlookup dp name;
    match found with
    | Some (ip, _) =>
      iunlockput (Some dp) ;;
      ilock (Some ip) ;;
      x ← get_inode ip;
      if (type =? T_FILE) && ((i_type x =? T_FILE) || (i_type x =? T_DEVICE)) then mret (Some ip)
      else iunlockput (Some ip) ;; mret None
    | None =>
      d ← get_inode dp;
      ip ← ialloc (i_dev d) type;
      match ip with
      | None => iunlockput (Some dp) ;; mret None
      | Some ip =>
        ilock (Some ip) ;;
        upd_inode ip (i_set_major major) ;;
        upd_inode ip (i_set_minor minor) ;;
        upd_inode ip (i_set_nlink 1) ;;
        iupdate ip ;;
        x ← get_inode ip;
        d ← get_inode dp;
        r ← (if type =? T_DIR then
               r ← dirlink ip [46] (i_inum x);
               if r <? 0 then mret r else dirlink ip [46; 46] (i_inum d)
             else mret 0);
        if r <? 0 then create_fail ip dp
        else
          r ← dirlink dp name (i_inum x);
          if r <? 0 then create_fail ip dp
          else
            when (type =? T_DIR) (
              upd_inode dp (fun d => i_set_nlink (i16 (i_nlink d + 1)) d) ;;
              iupdate dp) ;;
            iunlockput (Some dp) ;;
            mret (Some ip)
      end
    end
  end.

(** fcntl.h *)
Definition O_RDONLY : Z := 0x000.
Definition O_WRONLY : Z := 0x001.
Definition O_RDWR : Z := 0x002.
Definition O_CREATE : Z := 0x200.
Definition O_TRUNC : Z := 0x400.

Definition flag (mode bit : Z) : bool := negb (Z.land mode bit =? 0).

(** The inode sys_open opens, locked, in a transaction. *)
Definition open_inode (path : list Z) (omode : Z) : K (option nat) :=
  if flag omode O_CREATE then create path T_FILE 0 0
  else
    ip ← namei path;
    match ip with
    | None => mret None
    | Some ip =>
      ilock (Some ip) ;;
      x ← get_inode ip;
      if (i_type x =? T_DIR) && negb (omode =? O_RDONLY) then iunlockput (Some ip) ;; mret None
      else mret (Some ip)
    end.

Definition sys_open : K Z :=
  omode ← argint 1;
  path ← argstr 0 maxpath;
  if path.1 <? 0 then mret (-1)
  else
    begin_op ;;
    ip ← open_inode path.2 omode;
    match ip with
    | None => end_op ;; mret (-1)
    | Some ip =>
      x ← get_inode ip;
      if (i_type x =? T_DEVICE) && ((i_major x <? 0) || (i_major x >=? NDEV)) then
        iunlockput (Some ip) ;; end_op ;; mret (-1)
      else
        f ← filealloc;
        fd ← match f with None => mret (-1) | Some f => fdalloc f end;
        match f with
        | None => iunlockput (Some ip) ;; end_op ;; mret (-1)
        | Some f =>
          if fd <? 0 then fileclose f ;; iunlockput (Some ip) ;; end_op ;; mret (-1)
          else
            (if i_type x =? T_DEVICE then
               upd_file f (f_set_type FD_DEVICE) ;;
               upd_file f (f_set_major (i_major x))
             else
               upd_file f (f_set_type FD_INODE) ;;
               upd_file f (f_set_off 0)) ;;
            upd_file f (f_set_ip (Some ip)) ;;
            upd_file f (f_set_readable (if flag omode O_WRONLY then 0 else 1)) ;;
            upd_file f (f_set_writable (if flag omode O_WRONLY || flag omode O_RDWR then 1 else 0)) ;;
            when (flag omode O_TRUNC && (i_type x =? T_FILE)) (itrunc ip) ;;
            iunlock (Some ip) ;;
            end_op ;;
            mret fd
        end
    end.

Definition sys_mkdir : K Z :=
  begin_op ;;
  path ← argstr 0 maxpath;
  ip ← (if path.1 <? 0 then mret None else create path.2 T_DIR 0 0);
  match ip with
  | None => end_op ;; mret (-1)
  | Some ip => iunlockput (Some ip) ;; end_op ;; mret 0
  end.

(** [major] and [minor] become shorts. *)
Definition sys_mknod : K Z :=
  begin_op ;;
  major ← argint 1;
  minor ← argint 2;
  path ← argstr 0 maxpath;
  ip ← (if path.1 <? 0 then mret None else create path.2 T_DEVICE (i16 major) (i16 minor));
  match ip with
  | None => end_op ;; mret (-1)
  | Some ip => iunlockput (Some ip) ;; end_op ;; mret 0
  end.

Definition sys_chdir : K Z :=
  i ← curproc;
  begin_op ;;
  path ← argstr 0 maxpath;
  ip ← (if path.1 <? 0 then mret None else namei path.2);
  match ip with
  | None => end_op ;; mret (-1)
  | Some ip =>
    ilock (Some ip) ;;
    x ← get_inode ip;
    if negb (i_type x =? T_DIR) then iunlockput (Some ip) ;; end_op ;; mret (-1)
    else
      iunlock (Some ip) ;;
      p ← get_proc i;
      cwd ← deref (p_cwd p);
      iput cwd ;;
      end_op ;;
      upd_proc i (p_set_cwd (Some ip)) ;;
      mret 0
  end.

(** ** sysfile.c: exec and pipe *)

(** The loop of sys_exec: the pages of the arguments so far, and whether all
    were read. *)
Fixpoint sys_exec_args (k : nat) (uargv : Z) (i : Z) (argv : list Z) : K (list Z * bool) :=
  match k with
  | O => mret (argv, false)
  | S k =>
    uarg ← fetchaddr (u64 (uargv + 8 * i));
    match uarg with
    | None => mret (argv, false)
    | Some uarg =>
      if uarg =? 0 then mret (argv, true)
      else
        page ← kalloc;
        if page =? 0 then mret (argv, false)
        else
          r ← fetchstr uarg PGSIZE;
          setmem (fun m => store_bytes m page (if r.1 <? 0 then r.2 else r.2 ++ [0])) ;;
          if r.1 <? 0 then mret (argv ++ [page], false)
          else sys_exec_args k uargv (i + 1) (argv ++ [page])
    end
  end.

Definition sys_exec : K Z :=
  uargv ← argaddr 1;
  path ← argstr 0 maxpath;
  if path.1 <? 0 then mret (-1)
  else
    r ← sys_exec_args MAXARG uargv 0 [];
    ret ← (if (r.2 : bool) then exec path.2 (r.1 ++ [0]) else mret (-1));
    forK r.1 kfree ;;
    mret ret.

Definition sys_pipe : K Z :=
  i ← curproc;
  fdarray ← argaddr 0;
  r ← pipealloc;
  match r with
  | None => mret (-1)
  | Some (rf, wf) =>
    fd0 ← fdalloc rf;
    fd1 ← (if fd0 <? 0 then mret (-1) else fdalloc wf);
    if (fd0 <? 0) || (fd1 <? 0) then
      when (fd0 >=? 0) (clear_fd i fd0) ;;
      fileclose rf ;;
      fileclose wf ;;
      mret (-1)
    else
      p ← get_proc i;
      r ← copyout (p_pagetable p) fdarray (le_bytes 4 fd0);
      r ← (if r <? 0 then mret r else copyout (p_pagetable p) (u64 (fdarray + 4)) (le_bytes 4 fd1));
      if r <? 0 then
        clear_fd i fd0 ;;
        clear_fd i fd1 ;;
        fileclose rf ;;
        fileclose wf ;;
        mret (-1)
      else mret 0
  end.

(** ** Dispatch *)

(** syscalls[num], by the numbers of syscall.h. *)
Definition syscalls (num : Z) : option (K Z) :=
  match num with
  | 1 => Some sys_fork
  | 2 => Some sys_exit
  | 3 => Some sys_wait
  | 4 => Some sys_pipe
  | 5 => Some sys_read
  | 6 => Some sys_kill
  | 7 => Some sys_exec
  | 8 => Some sys_fstat
  | 9 => Some sys_chdir
  | 10 => Some sys_dup
  | 11 => Some sys_getpid
  | 12 => Some sys_sbrk
  | 13 => Some sys_sleep
  | 14 => Some sys_uptime
  | 15 => Some sys_open
  | 16 => Some sys_write
  | 17 => Some sys_mknod
  | 18 => Some sys_unlink
  | 19 => Some sys_link
  | 20 => Some sys_mkdir
  | 21 => Some sys_close
  | _ => None
  end.

Definition syscall : K unit :=
  i ← curproc;
  num ← tf_load i tf_a7;
  let num := i32 num in
  match syscalls num with
  | Some f =>
    r ← f;
    tf_store i tf_a0 (u64 r)
  | None =>
    p ← get_proc i;
    kprintf (bytes_of "%d %s: unknown sys call %d" ++ [10]) [A_int (p_pid p); A_str (Some (p_name p)); A_int num] ;;
    tf_store i tf_a0 (u64 (-1))
  end.

End syscall.
