(* ===== verification/Trap.v ===== *)
(** plic.c, trap.c, forkret, and what boots the kernel: start.c, main.c and
    kvminithart. *)

From S2P Require Import Prelude Machine KState Blocks Spinlock KString Kalloc Vm Proc Sleeplock Bio Log Fs Console Virtio File ProcFs Syscall.

(** ** riscv.h: control registers of the running hart *)

Definition r_csr (c : csr) : K Z := d ← get_dev; mret (d_csr d c).
Definition w_csr (c : csr) (v : Z) : K unit :=
  upd_dev (fun d => d_set_csr (fun c' => if decide (c' = c) then u64 v else d_csr d c') d).

Definition MSTATUS_MPP_MASK : Z := Z.shiftl 3 11.
Definition MSTATUS_MPP_S : Z := Z.shiftl 1 11.
Definition MSTATUS_MIE : Z := Z.shiftl 1 3.
Definition SSTATUS_SPP : Z := Z.shiftl 1 8.
Definition SSTATUS_SPIE : Z := Z.shiftl 1 5.
Definition SSTATUS_SIE : Z := Z.shiftl 1 1.
Definition SIE_SEIE : Z := Z.shiftl 1 9.
Definition SIE_STIE : Z := Z.shiftl 1 5.
Definition SIE_SSIE : Z := Z.shiftl 1 1.
Definition MIE_MTIE : Z := Z.shiftl 1 7.
Definition SATP_SV39 : Z := Z.shiftl 8 60.
Definition MAKE_SATP (pagetable : Z) : Z := Z.lor SATP_SV39 (Z.shiftr pagetable 12).

(** The SIE bit of sstatus is kept with the hart. *)
Definition r_sstatus : K Z :=
  x ← r_csr R_sstatus;
  sie ← intr_get;
  mret (Z.lor (Z.land x (u64 (Z.lnot SSTATUS_SIE))) (if (sie : bool) then SSTATUS_SIE else 0)).
Definition w_sstatus (x : Z) : K unit :=
  w_csr R_sstatus x ;;
  intr_set (negb (Z.land x SSTATUS_SIE =? 0)).

Definition w_tp (x : Z) : K unit :=
  modk (fun s => set_hw (Hw (Z.to_nat x) (h_sie (k_hw s)) (h_cpus (k_hw s)) (h_locks (k_hw s))) s).
Definition r_tp : K Z := c ← cpuid; mret (Z.of_nat c).

(** A word of a memory-mapped device. *)
Definition dread (a : Z) : K Z := d ← get_dev; mret (default 0 (d_regs d !! a)).
Definition dwrite (a v : Z) : K unit := upd_dev (fun d => d_set_regs (<[a := v]> (d_regs d)) d).

(** ** plic.c *)

Definition UART0_IRQ : Z := 10.
Definition VIRTIO0_IRQ : Z := 1.
Definition PLIC_SENABLE (hart : Z) : Z := PLIC + 0x2080 + hart * 0x100.
Definition PLIC_SPRIORITY (hart : Z) : Z := PLIC + 0x201000 + hart * 0x2000.
Definition PLIC_SCLAIM (hart : Z) : Z := PLIC + 0x201004 + hart * 0x2000.

Definition plicinit : K unit :=
  dwrite (PLIC + UART0_IRQ * 4) 1 ;;
  dwrite (PLIC + VIRTIO0_IRQ * 4) 1.

Definition plicinithart : K unit :=
  hart ← cpuid;
  dwrite (PLIC_SENABLE (Z.of_nat hart)) (Z.lor (Z.shiftl 1 UART0_IRQ) (Z.shiftl 1 VIRTIO0_IRQ)) ;;
  dwrite (PLIC_SPRIORITY (Z.of_nat hart)) 0.

(** Reading the claim register takes the interrupt. *)
Definition plic_claim : K Z :=
  d ← get_dev;
  upd_dev (fun d => d_set_claim (tail (d_claim d)) d) ;;
  mret (default 0 (hd_error (d_claim d))).

Definition plic_complete (irq : Z) : K unit :=
  hart ← cpuid;
  dwrite (PLIC_SCLAIM (Z.of_nat hart)) irq.

(** ** trap.c *)

Definition trapinit : K unit := initlock L_tick "time".
Definition trapinithart : K unit := ly ← gets k_layout; w_csr R_stvec (ld_kernelvec ly).

Definition clockintr : K unit :=
  acquire L_tick ;;
  modk (fun s => set_ps (ps_set_ticks (u32 (ps_ticks (k_ps s) + 1)) (k_ps s)) s) ;;
  wakeup (Some C_ticks) ;;
  release L_tick.

Definition devintr : K Z :=
  scause ← r_csr R_scause;
  if negb (Z.land scause 0x8000000000000000 =? 0) && (Z.land scause 0xff =? 9) then
    irq ← plic_claim;
    (if irq =? UART0_IRQ then uartintr
     else if irq =? VIRTIO0_IRQ then virtio_disk_intr
     else when (negb (irq =? 0)) (kprintf (bytes_of "unexpected interrupt irq=%d" ++ [10]) [A_int irq])) ;;
    when (negb (irq =? 0)) (plic_complete irq) ;;
    mret 1
  else if scause =? 0x8000000000000001 then
    c ← cpuid;
    when (c =? 0)%nat clockintr ;;
    sip ← r_csr R_sip;
    w_csr R_sip (Z.land sip (u64 (Z.lnot 2))) ;;
    mret 2
  else mret 0.

Section trap.
Context `{DiskDriver}.

(** Ends in user space: the result is what userret gets, the satp. *)
Definition usertrapret : K Z :=
  i ← curproc;
  intr_off ;;
  ly ← gets k_layout;
  w_csr R_stvec (TRAMPOLINE + (ld_uservec ly - ld_trampoline ly)) ;;
  satp ← r_csr R_satp;
  tf_store i tf_kernel_satp satp ;;
  p ← get_proc i;
  tf_store i tf_kernel_sp (u64 (p_kstack p + PGSIZE)) ;;
  tf_store i tf_kernel_trap (ld_usertrap ly) ;;
  tp ← r_tp;
  tf_store i tf_kernel_hartid tp ;;
  x ← r_sstatus;
  let x := Z.land x (u64 (Z.lnot SSTATUS_SPP)) in
  let x := Z.lor x SSTATUS_SPIE in
  w_sstatus x ;;
  epc ← tf_load i tf_epc;
  w_csr R_sepc epc ;;
  p ← get_proc i;
  mret (MAKE_SATP (p_pagetable p)).

Definition usertrap : K Z :=
  st ← r_sstatus;
  when (negb (Z.land st SSTATUS_SPP =? 0)) (panic "usertrap: not from user mode") ;;
  ly ← gets k_layout;
  w_csr R_stvec (ld_kernelvec ly) ;;
  i ← curproc;
  sepc ← r_csr R_sepc;
  tf_store i tf_epc sepc ;;
  scause ← r_csr R_scause;
  which_dev ←
    (if scause =? 8 then
       k ← killed i;
       when (negb (k =? 0)) (exit (-1)) ;;
       epc ← tf_load i tf_epc;
       tf_store i tf_epc (u64 (epc + 4)) ;;
       intr_on ;;
       syscall ;;
       mret 0
     else
       which_dev ← devintr;
       (if negb (which_dev =? 0) then mret tt
        else
          scause ← r_csr R_scause;
          p ← get_proc i;
          kprintf (bytes_of "usertrap(): unexpected scause %p pid=%d" ++ [10]) [A_ptr scause; A_int (p_pid p)] ;;
          sepc ← r_csr R_sepc;
          stval ← r_csr R_stval;
          kprintf (bytes_of "            sepc=%p stval=%p" ++ [10]) [A_ptr sepc; A_ptr stval] ;;
          setkilled i) ;;
       mret which_dev);
  k ← killed i;
  when (negb (k =? 0)) (exit (-1)) ;;
  when (which_dev =? 2) yield ;;
  usertrapret.

Definition kerneltrap : K unit :=
  sepc ← r_csr R_sepc;
  sstatus ← r_sstatus;
  scause ← r_csr R_scause;
  when (Z.land sstatus SSTATUS_SPP =? 0) (panic "kerneltrap: not from supervisor mode") ;;
  on ← intr_get;
  when on (panic "kerneltrap: interrupts enabled") ;;
  which_dev ← devintr;
  when (which_dev =? 0) (
    kprintf (bytes_of "scause %p" ++ [10]) [A_ptr scause] ;;
    sepc ← r_csr R_sepc;
    stval ← r_csr R_stval;
    kprintf (bytes_of "sepc=%p stval=%p" ++ [10]) [A_ptr sepc; A_ptr stval] ;;
    panic "kerneltrap") ;;
  when (which_dev =? 2) (
    me ← myproc;
    match me with
    | None => mret tt
    | Some i =>
      p ← get_proc i;
      when (bool_decide (p_state p = RUNNING)) yield
    end) ;;
  w_csr R_sepc sepc ;;
  w_sstatus sstatus.

(** ** proc.c: forkret *)

Definition forkret : K Z :=
  i ← curproc;
  release (L_proc i) ;;
  d ← get_dev;
  when (negb (d_first d =? 0)) (
    upd_dev (d_set_first 0) ;;
    fsinit ROOTDEV) ;;
  usertrapret.

(** ** vm.c, main.c *)

(** The fences around the write of satp have no effect here. *)
Definition kvminithart : K unit :=
  pt ← gets (fun s => ps_kpgtbl (k_ps s));
  w_csr R_satp (MAKE_SATP pt).

(** [while(started == 0);]: each look lets the others run. *)
Fixpoint main_wait (fuel : nat) : K unit :=
  match fuel with
  | O => nofuel
  | S fuel =>
    d ← get_dev;
    if d_started d =? 0 then interfere ;; main_wait fuel else mret tt
  end.

(** [main()], with the first [n] rounds of the scheduler. *)
Definition main (n : nat) : K unit :=
  c ← cpuid;
  (if (c =? 0)%nat then
     consoleinit ;;
     printfinit ;;
     kprintf [10] [] ;;
     kprintf (bytes_of "xv6 kernel is booting" ++ [10]) [] ;;
     kprintf [10] [] ;;
     kinit ;;
     kvminit ;;
     kvminithart ;;
     procinit ;;
     trapinit ;;
     trapinithart ;;
     plicinit ;;
     plicinithart ;;
     binit ;;
     iinit ;;
     fileinit ;;
     virtio_disk_init ;;
     userinit ;;
     upd_dev (d_set_started 1)
   else
     sleeping main_wait ;;
     c ← cpuid;
     kprintf (bytes_of "hart %d starting" ++ [10]) [A_int (Z.of_nat c)] ;;
     kvminithart ;;
     trapinithart ;;
     plicinithart) ;;
  scheduler n.

End trap.

(** ** start.c *)

Definition CLINT : Z := 0x2000000.
Definition CLINT_MTIMECMP (hartid : Z) : Z := CLINT + 0x4000 + 8 * hartid.
Definition CLINT_MTIME : Z := CLINT + 0xBFF8.

Definition timerinit : K unit :=
  id ← r_csr R_mhartid;
  let id := i32 id in
  let interval := 1000000 in
  mtime ← dread CLINT_MTIME;
  dwrite (CLINT_MTIMECMP id) (u64 (mtime + interval)) ;;
  ly ← gets k_layout;
  let scratch := ld_scratch ly + id * 40 in
  kstore64 (scratch + 24) (CLINT_MTIMECMP id) ;;
  kstore64 (scratch + 32) interval ;;
  w_csr R_mscratch scratch ;;
  w_csr R_mtvec (ld_timervec ly) ;;
  x ← r_csr R_mstatus;
  w_csr R_mstatus (Z.lor x MSTATUS_MIE) ;;
  x ← r_csr R_mie;
  w_csr R_mie (Z.lor x MIE_MTIE).

(** Ends with mret: the address it goes on at, in supervisor mode. *)
Definition start : K Z :=
  x ← r_csr R_mstatus;
  let x := Z.land x (u64 (Z.lnot MSTATUS_MPP_MASK)) in
  let x := Z.lor x MSTATUS_MPP_S in
  w_csr R_mstatus x ;;
  ly ← gets k_layout;
  w_csr R_mepc (ld_main ly) ;;
  w_csr R_satp 0 ;;
  w_csr R_medeleg 0xffff ;;
  w_csr R_mideleg 0xffff ;;
  x ← r_csr R_sie;
  w_csr R_sie (Z.lor (Z.lor (Z.lor x SIE_SEIE) SIE_STIE) SIE_SSIE) ;;
  w_csr R_pmpaddr0 0x3fffffffffffff ;;
  w_csr R_pmpcfg0 0xf ;;
  timerinit ;;
  id ← r_csr R_mhartid;
  w_tp (i32 id) ;;
  r_csr R_mepc.
