(* ===== verification/Ring.v ===== *)
(** Ring buffers: the bytes between two free-running counters, as a list. Shared
    by pipes, console input and the transmit buffer of the UART. *)

From S2P Require Import Prelude Machine.

Section ring.
Context (size : Z) (Hsize : 0 < size).

(** The [len] bytes of [data] from counter [from] on. *)
Definition ring (data : list Z) (from len : Z) : list Z :=
  (fun i => default 0 (data !! Z.to_nat ((from + i) mod size))) <$> seqZ 0 len.

Lemma length_ring data from len : 0 <= len -> Z.of_nat (length (ring data from len)) = len.
Proof. intros. unfold ring. rewrite length_fmap, length_seqZ. lia. Qed.

Lemma ring_0 data from : ring data from 0 = [].
Proof. done. Qed.

Lemma lookup_ring data from len i :
  ring data from len !! i =
  if Z.of_nat i <? len then Some (default 0 (data !! Z.to_nat ((from + Z.of_nat i) mod size))) else None.
Proof.
  unfold ring. rewrite list_lookup_fmap. destruct (Z.ltb_spec (Z.of_nat i) len).
  - by rewrite lookup_seqZ_lt by lia.
  - by rewrite lookup_seqZ_ge by lia.
Qed.

(** Only the counter modulo [size] matters. *)
Lemma ring_mod data from from' len : from mod size = from' mod size -> ring data from len = ring data from' len.
Proof.
  intros E. apply list_eq. intros i. rewrite !lookup_ring.
  by rewrite (Z.add_mod from), (Z.add_mod from'), E by lia.
Qed.

Lemma ring_app data from a b : 0 <= a -> 0 <= b -> ring data from (a + b) = ring data from a ++ ring data (from + a) b.
Proof.
  intros Ha Hb. apply list_eq. intros i. pose proof (length_ring data from a Ha) as Hl.
  destruct (decide (Z.of_nat i < a)).
  - rewrite lookup_app_l by lia. rewrite !lookup_ring.
    destruct (Z.ltb_spec (Z.of_nat i) (a + b)), (Z.ltb_spec (Z.of_nat i) a); done || lia.
  - rewrite lookup_app_r by lia. rewrite !lookup_ring.
    destruct (Z.ltb_spec (Z.of_nat i) (a + b)), (Z.ltb_spec (Z.of_nat (i - length (ring data from a))) b); try lia; [|done].
    do 5 f_equal. lia.
Qed.

Lemma ring_cons data from len ch q :
  ring data from len = ch :: q -> 0 <= len ->
  default 0 (data !! Z.to_nat (from mod size)) = ch /\ ring data (from + 1) (len - 1) = q.
Proof.
  intros E Hl. assert (Hpos : 0 < len) by (pose proof (length_ring data from len Hl) as H; rewrite E in H; cbn [length] in H; lia).
  replace len with (1 + (len - 1)) in E by lia. rewrite ring_app in E by lia.
  change (ring data from 1) with [default 0 (data !! Z.to_nat ((from + 0) mod size))] in E.
  rewrite Z.add_0_r in E. by injection E as <- <-.
Qed.

(** Writing outside the range, and just after it. *)
Lemma ring_write_ne data from len pos ch :
  0 <= len <= size -> (forall i, 0 <= i < len -> (from + i) mod size <> pos mod size) ->
  ring (<[Z.to_nat (pos mod size) := ch]> data) from len = ring data from len.
Proof.
  intros Hl Hne. apply list_eq. intros i. rewrite !lookup_ring.
  destruct (Z.ltb_spec (Z.of_nat i) len); [|done]. rewrite list_lookup_insert_ne; [done|].
  intros E%Z2Nat.inj; [|apply Z.mod_pos_bound; done..]. by apply (Hne (Z.of_nat i)); [lia|].
Qed.

Lemma ring_push data from len ch :
  0 <= len < size -> Z.of_nat (length data) = size ->
  ring (<[Z.to_nat ((from + len) mod size) := ch]> data) from (len + 1) = ring data from len ++ [ch].
Proof.
  intros Hl Hd. pose proof (Z.mod_pos_bound (from + len) size Hsize).
  rewrite ring_app by lia. f_equal.
  - apply ring_write_ne; [lia|]. intros i Hi E.
    assert (Hz : ((from + len) - (from + i)) mod size = 0) by (by rewrite Zminus_mod, E, Z.sub_diag, Zmod_0_l).
    rewrite Z.mod_small in Hz by lia. lia.
  - change (ring ?d ?f 1) with [default 0 (d !! Z.to_nat ((f + 0) mod size))].
    by rewrite Z.add_0_r, list_lookup_insert_eq by lia.
Qed.

(** The byte a counter inside the range points at. *)
Lemma ring_byte (P : Z -> Prop) data from :
  Z.of_nat (length data) = size -> Forall P data ->
  exists x, data !! Z.to_nat (from mod size) = Some x /\ P x.
Proof.
  intros Hd HP. pose proof (Z.mod_pos_bound from size Hsize).
  destruct (lookup_lt_is_Some_2 data (Z.to_nat (from mod size))) as [x Hx]; [lia|].
  exists x. split; [done|]. by eapply Forall_lookup_1.
Qed.

End ring.
