(* ===== verification/SleepSpec.v ===== *)
(** [sleep] as the sleeper sees it: the lock is released while it is off the
    hart, the others run, and it comes back with the lock. *)

From S2P Require Import Prelude Machine KState Spinlock KString Kalloc Vm VmSpec VmUser VmSpace Proc ProcSpec Sleeplock.

(** ** Two locks *)

Lemma hw_ext h h' : h_hart h = h_hart h' -> h_sie h = h_sie h' -> h_cpus h = h_cpus h' ->
  h_locks h = h_locks h' -> h = h'.
Proof. destruct h, h'; simpl. by intros -> -> -> ->. Qed.

(** The order in which two locks were taken does not show. *)
Lemma acq_comm l l' h : l <> l' -> acq l (acq l' h) = acq l' (acq l h).
Proof.
  intros Hne. apply hw_ext; [done|done|done|]. unfold acq; simpl.
  rewrite !lookup_insert_ne by done. by apply insert_insert_ne.
Qed.

Lemma c_noff_acq l h c : h_cpus h !! h_hart h = Some c ->
  h_cpus (acq l h) !! h_hart (acq l h) = Some (Cpu (c_proc c) (c_context c) (c_noff c + 1) (c_intena c)).
Proof. intros Hc. unfold acq; simpl. by rewrite list_lookup_alter_eq, Hc. Qed.

(** ** sleep *)

(** [h] is the hart of a process that holds no lock, so that interrupts were
    last disabled by the lock it sleeps with. *)
Definition unlocked (h : hw) : Prop := noff_of h = Some 0.

(** The state in which [me] leaves the hart. *)
Definition asleep (me : nat) (ch : chan) (h : hw) (s : kst) : kst :=
  set_hw (acq (L_proc me) h)
    (with_procs (alter (fun p => p_set_state SLEEPING (p_set_chan (Some ch) p)) me (ps_procs (k_ps s))) s).

(** The scheduler brings [me] back on the hart it left, with the lock of [me]
    taken and the locks the others used free again. *)
Definition resumed (me : nat) (s s' : kst) : Prop :=
  k_layout s' = k_layout s /\ k_hw s' = k_hw s /\ length (ps_procs (k_ps s')) = NPROC /\
  p_set_state RUNNING <$> ps_procs (k_ps s) !! me = ps_procs (k_ps s') !! me.

(** The state in which [sleep] returns. *)
Definition awake (me : nat) (h : hw) (s : kst) : kst :=
  set_hw h (with_procs (alter (p_set_chan None) me (ps_procs (k_ps s))) s).

(** [sched] with the lock of the process and no other reaches [swtch]. *)
Lemma sched_swtch me e s h p :
  kthread (Some me) (set_hw h s) -> unlocked h -> k_hw s = acq (L_proc me) h ->
  ps_procs (k_ps s) !! me = Some p -> p_state p <> RUNNING ->
  exists c, h_cpus (k_hw s) !! h_hart (k_hw s) = Some c /\
    sched e s = (swtch ;; (i ← mycpu; upd_cpu i (cpu_set_intena (c_intena c)))) e s.
Proof.
  intros Hk Hu Eh Hp Hst. destruct (kt_hart _ _ Hk) as (c & b & Hc & Hb & Hn0 & _). simpl in Hc, Hb.
  pose proof (kt_cpu _ _ Hk) as Hcp. simpl in Hcp. rewrite Hc in Hcp. injection Hcp as Hcp.
  assert (Hme : (me < NPROC)%nat) by (rewrite <- (kt_len _ _ Hk); simpl; by eapply lookup_lt_Some).
  destruct (kt_locks _ _ Hk me Hme) as [nm Hl]. simpl in Hl.
  assert (Hn : c_noff c = 0) by (unfold unlocked, noff_of in Hu; rewrite Hc in Hu; by injection Hu).
  assert (Hc' : h_cpus (k_hw s) !! h_hart (k_hw s) = Some (Cpu (c_proc c) (c_context c) 1 (c_intena c))).
  { rewrite Eh. erewrite c_noff_acq by done. by rewrite Hn. }
  assert (Hh : hart_ok (k_hw s)) by (rewrite Eh; apply hart_ok_acq, (kt_hart _ _ Hk)).
  eexists. split; [exact Hc'|]. cbn [c_intena].
  assert (Hg : get_cpu (h_hart (k_hw s)) e s = Ok (Cpu (c_proc c) (c_context c) 1 (c_intena c)) e s)
    by (unfold get_cpu; krun; by rewrite Hc').
  unfold sched. erewrite bind_run.
  2:{ unfold curproc. erewrite bind_run by (by eapply myproc_run). cbn [c_proc]. rewrite Hcp. reflexivity. }
  erewrite bind_run by (apply holding_run; rewrite Eh; apply lookup_insert_eq).
  simpl. rewrite bool_decide_eq_true_2 by (by rewrite Eh). simpl. erewrite bind_run by reflexivity.
  erewrite bind_run by reflexivity. erewrite bind_run by exact Hg. simpl. erewrite bind_run by reflexivity.
  erewrite bind_run by (by apply get_proc_run). rewrite bool_decide_eq_false_2 by done. simpl.
  erewrite bind_run by reflexivity.
  erewrite bind_run.
  2:{ unfold intr_get, cpuid. krun. rewrite Eh. unfold acq; simpl.
      rewrite list_lookup_insert_eq by (by eapply lookup_lt_Some). reflexivity. }
  simpl. erewrite bind_run by reflexivity. erewrite bind_run by reflexivity.
  by erewrite bind_run by exact Hg.
Qed.

Section sleep.
Context (me : nat) (ch : chan) (lk : lockid) (s : kst) (h : hw).
Context (Hk : kthread (Some me) (set_hw h s)) (Hu : unlocked h) (Eh : k_hw s = acq lk h).
Context (Hl : lock_free lk h) (Hlk : forall j, lk <> L_proc j) (Hme : (me < NPROC)%nat).

Lemma kthread_locked : kthread (Some me) s.
Proof using Hk Eh Hlk.
  pose proof (kthread_acq _ lk _ Hk Hlk) as Hk1. simpl in Hk1. rewrite <- Eh in Hk1. by destruct s.
Qed.

Lemma asleep_me : exists p, p_state p = SLEEPING /\ ps_procs (k_ps (asleep me ch h s)) !! me = Some p.
Proof using Hk Hme.
  assert (Hlen : length (ps_procs (k_ps s)) = NPROC) by exact (kt_len _ _ Hk).
  destruct (lookup_lt_is_Some_2 (ps_procs (k_ps s)) me) as [p Hp]; [lia|].
  eexists. split; [|unfold asleep; simpl; by rewrite list_lookup_alter_eq, Hp]. done.
Qed.

(** Up to the switch. *)
Lemma sleep_sched e :
  sleep ch lk e s = (sched ;; upd_proc me (p_set_chan None) ;; release (L_proc me) ;; acquire lk) e (asleep me ch h s).
Proof using Hk Hu Eh Hl Hlk Hme.
  assert (Hlen : length (ps_procs (k_ps s)) = NPROC) by exact (kt_len _ _ Hk).
  destruct (lookup_lt_is_Some_2 (ps_procs (k_ps s)) me) as [p Hp]; [lia|].
  pose proof (kt_hart _ _ Hk) as Hh. simpl in Hh. pose proof (kt_locks _ _ Hk me Hme) as Hlp. simpl in Hlp.
  assert (Hne : L_proc me <> lk) by (intros E; by apply (Hlk me)).
  unfold sleep. erewrite bind_run by (apply curproc_run, kthread_locked).
  erewrite bind_run by (apply acquire_run; [rewrite Eh; by apply hart_ok_acq|rewrite Eh; by apply lock_free_acq]).
  erewrite bind_run.
  2:{ apply (release_run lk _ _ (acq (L_proc me) h)); [by apply hart_ok_acq|by apply lock_free_acq|].
      simpl. rewrite Eh. by apply acq_comm. }
  erewrite bind_run by (by apply upd_proc_run).
  erewrite bind_run by (apply upd_proc_run; simpl; apply list_lookup_insert_eq; lia).
  unfold asleep. rewrite (list_alter_insert _ _ _ _ Hp). simpl.
  by rewrite with_procs_twice, list_insert_insert_eq.
Qed.

Lemma sleep_run f e :
  resumed me (asleep me ch h s) (f (asleep me ch h s)) ->
  sleep ch lk (f :: e) s = Ok tt e (awake me (acq lk h) (f (asleep me ch h s))).
Proof using Hk Hu Eh Hl Hlk Hme.
  intros (Rl & Rh & Rlen & Rp). rewrite sleep_sched. destruct asleep_me as (p & Hst & Hp).
  set (s1 := asleep me ch h s) in *.
  assert (Hk1 : kthread (Some me) (set_hw h s1)).
  { destruct Hk as [K1 K2 K3 K4]. split; simpl; try done. by rewrite length_alter. }
  destruct (sched_swtch me (f :: e) s1 h p) as (c & Hc & Hsw); [done..|congruence|].
  erewrite bind_run.
  2:{ rewrite Hsw. erewrite bind_run by reflexivity. erewrite bind_run by reflexivity.
      unfold upd_cpu, get_cpu. krun. rewrite !Rh, Hc. reflexivity. }
  unfold cpu_set_intena. replace (Cpu _ _ _ _) with c by (by destruct c).
  rewrite list_insert_id by (by rewrite Rh).
  replace (set_hw (hw_set_cpus _ _) _) with (f s1) by (by destruct (f s1) as [? [] ? ? ? ? ? ?]).
  rewrite Hp in Rp. simpl in Rp. symmetry in Rp.
  erewrite bind_run by (by apply upd_proc_run).
  erewrite bind_run by (apply (release_run _ _ _ h); [apply Hk|by apply (kt_locks _ _ Hk)|simpl; by rewrite Rh]).
  erewrite acquire_run; [|apply Hk|done]. simpl. unfold awake. by rewrite (list_alter_insert _ _ _ _ Rp).
Qed.

(** With nobody left to run, a sleeper stays asleep. *)
Lemma sleep_blocks : sleep ch lk [] s = Block.
Proof using Hk Hu Eh Hl Hlk Hme.
  rewrite sleep_sched. destruct asleep_me as (p & Hst & Hp).
  destruct (sched_swtch me [] (asleep me ch h s) h p) as (c & _ & Hsw); [|done|done|done|congruence|].
  - destruct Hk as [K1 K2 K3 K4]. split; simpl; try done. by rewrite length_alter.
  - unfold mbind, K_bind at 1. by rewrite Hsw.
Qed.

End sleep.
