(* ===== verification/UserSpec.v ===== *)
(** A process inside a system call that holds one spinlock: its user memory
    byte by byte, whether it was killed, and what the others may do while it
    sleeps with that lock. *)

From S2P Require Import Prelude Machine KState Spinlock KString Kalloc Vm VmSpec VmUser VmSpace Proc ProcSpec ProcMem Sleeplock SleepSpec.

(** A comparison whose value follows from linear arithmetic over lengths. *)
Ltac bool_lia := first [lia
  | symmetry; first [apply Z.ltb_lt|apply Z.ltb_ge|apply Z.leb_le|apply Z.leb_gt]; lia
  | first [apply Z.ltb_lt|apply Z.ltb_ge|apply Z.leb_le|apply Z.leb_gt]; lia].

Lemma uload_byte m T v b : uload m T v = Some b -> 0 <= b < 256.
Proof. unfold uload. destruct (ua m T v); simpl; [|done]. intros [= <-]. apply load8_range. Qed.

Section user.
Context (me : nat) (lk : lockid) (root : Z) (T : ptree) (h : hw).

(** What [me] needs of the rest of the machine: its hart without [lk],
    its user memory, and that nobody killed it. *)
Record uctx (s : kst) : Prop := {
  uc_thread : kthread (Some me) (set_hw h s);
  uc_unlocked : unlocked h;
  uc_lock : lock_free lk h;
  uc_kmem : lock_free L_kmem h;
  uc_layout : layout_ok (k_layout s);
  uc_me : exists q, ps_procs (k_ps s) !! me = Some q /\ p_killed q = 0 /\ p_pagetable q = root;
  uc_vm : exists l, vm_ok (k_layout s) (k_phys s) root T l /\ uspace (k_layout s) (ph_mem (k_phys s)) T l;
  uc_plain : lk <> L_kmem /\ forall j, lk <> L_proc j }.

(** It does not depend on pipes and devices, nor on the states of other processes. *)
Lemma uctx_vfs v s : uctx s -> uctx (set_vfs v s).
Proof. intros [[A1 A2 A3 A4] B C D E F G P]. by split. Qed.

Lemma uctx_dev d s : uctx s -> uctx (set_dev d s).
Proof. intros [[A1 A2 A3 A4] B C D E F G P]. by split. Qed.

Lemma uctx_hw x s : uctx s -> uctx (set_hw x s).
Proof. intros [[A1 A2 A3 A4] B C D E F G P]. by split. Qed.

Lemma uctx_woken ch s : uctx s -> uctx (woken (Some me) ch s).
Proof.
  intros [[A1 A2 A3 A4] B C D E F G P]. split; try done.
  - split; simpl; try done. by rewrite length_imap.
  - destruct F as (q & Hq & F). exists q. split; [|done]. unfold woken; simpl.
    rewrite list_lookup_imap, Hq. simpl. unfold wake_one. by rewrite bool_decide_eq_true_2.
Qed.

Lemma uctx_lt s : uctx s -> (me < NPROC)%nat.
Proof.
  intros [[A1 A2 A3 A4] B C D E F G P]. destruct F as (q & Hq & _). simpl in A3. rewrite <- A3.
  by eapply lookup_lt_Some.
Qed.

Definition locked (s : kst) : Prop := k_hw s = acq lk h.

Lemma uctx_kthread s : uctx s -> locked s -> kthread (Some me) s.
Proof. intros Hp Hl. eapply kthread_locked; [apply Hp|exact Hl|apply Hp]. Qed.

Lemma uctx_kctx s : uctx s -> locked s -> kctx s.
Proof.
  intros Hp Hl. split_and!; [by apply uctx_kthread| |apply Hp].
  rewrite Hl. apply lock_free_acq; [intros E; by apply (proj1 (uc_plain _ Hp))|apply Hp].
Qed.

Lemma killed_run e s : uctx s -> locked s -> killed me e s = Ok 0 e s.
Proof.
  intros Hp Hl. pose proof (uctx_kthread _ Hp Hl) as Hk. destruct (uc_me _ Hp) as (q & Hq & Hz & _).
  pose proof (kt_locks _ _ Hk me (uctx_lt _ Hp)) as Hf.
  unfold killed. erewrite bind_run by (apply acquire_run; [apply Hk|done]).
  erewrite bind_run by (by apply get_proc_run).
  erewrite bind_run by (apply (release_run _ _ _ (k_hw s)); [apply Hk|done|done]).
  rewrite Hz. by destruct s.
Qed.

Lemma release_lk_run e s : uctx s -> locked s -> release lk e s = Ok tt e (set_hw h s).
Proof. intros Hp Hl. by apply release_run; [apply (uc_thread _ Hp)|apply Hp|]. Qed.

(** One byte from the user. *)
Lemma copyin1_run a e s :
  uctx s -> locked s -> is_u64 a ->
  copyin root a 1 e s = Ok (match uload (ph_mem (k_phys s)) T a with Some b => (0, [b]) | None => (-1, []) end) e s.
Proof.
  intros Hp Hl Ha. destruct (uc_vm _ Hp) as (l & Hvm & Hus).
  destruct (copyin_loop_run (S (Z.to_nat 1)) a 1 [] e s root T l) as (r & bs & Hrun & Hrd & Hr);
    [by apply uctx_kctx|done..|lia|]. unfold copyin. rewrite Hrun. f_equal.
  destruct Hr as [[-> Hlen]|(-> & Hlen & Hn)].
  - destruct bs as [|b [|]]; simpl in Hlen; try lia. specialize (Hrd 0%nat b eq_refl).
    rewrite Z.add_0_r in Hrd. by rewrite Hrd.
  - destruct bs; simpl in Hlen; [|lia]. rewrite Z.add_0_r in Hn. unfold uload. by rewrite Hn.
Qed.

(** ** What others do while [me] sleeps *)

(** They give the hart back and leave the user memory of [me] alone. *)
Definition others (s s' : kst) : Prop :=
  resumed me s s' /\
  (exists l, vm_ok (k_layout s') (k_phys s') root T l /\ uspace (k_layout s') (ph_mem (k_phys s')) T l) /\
  (forall v, 0 <= v -> uload (ph_mem (k_phys s')) T v = uload (ph_mem (k_phys s)) T v).

(** [me] is off the hart and its page table is intact. *)
Definition off_hart (s : kst) : Prop :=
  length (ps_procs (k_ps s)) = NPROC /\ p_state <$> ps_procs (k_ps s) !! me = Some SLEEPING /\
  exists l, vm_ok (k_layout s) (k_phys s) root T l /\ uspace (k_layout s) (ph_mem (k_phys s)) T l.

Lemma off_hart_asleep ch s : uctx s -> off_hart (asleep me ch h s).
Proof.
  intros Hp. split_and!; [| |apply Hp].
  - unfold asleep; simpl. rewrite length_alter. apply (kt_len _ _ (uc_thread _ Hp)).
  - destruct (uc_me _ Hp) as (q & Hq & _). unfold asleep; simpl. by rewrite list_lookup_alter_eq, Hq.
Qed.

Lemma uctx_awake ch x s s' : uctx s -> others (asleep me ch h s) s' -> uctx (awake me x s').
Proof.
  intros [[A1 A2 A3 A4] B C D E F G P] ((R1 & R2 & R3 & R4) & V & _). split; try done.
  - split; simpl; try done. by rewrite length_alter.
  - simpl. by rewrite R1.
  - destruct F as (q & Hq & F1 & F2). unfold asleep, awake in *; simpl in *.
    rewrite list_lookup_alter_eq, Hq in R4. simpl in R4.
    eexists. rewrite list_lookup_alter_eq, <- R4. split; [reflexivity|done].
Qed.

(** [sleep] with the lock. *)
Lemma sleep_lk_run ch f e s :
  uctx s -> locked s -> others (asleep me ch h s) (f (asleep me ch h s)) ->
  sleep ch lk (f :: e) s = Ok tt e (awake me (acq lk h) (f (asleep me ch h s))).
Proof.
  intros Hp Hl Ho. apply sleep_run; try done; [apply Hp|apply Hp|apply Hp|apply Hp|by eapply uctx_lt|apply Ho].
Qed.

(** ** User memory *)

(** [me] sees the memory [m]. *)
Definition sees (m : mem) (s : kst) : Prop :=
  forall v, 0 <= v -> uload (ph_mem (k_phys s)) T v = uload m T v.

(** The bytes of the user at [a] that a transfer of [n] bytes reaches: all of
    them, or those before the first unmapped address. *)
Definition reaches (m : mem) (a n : Z) (bs : list Z) : Prop :=
  uread m T a bs /\ Z.of_nat (length bs) <= n /\
  (Z.of_nat (length bs) < n -> uload m T (a + Z.of_nat (length bs)) = None).

Lemma reaches_cons m a n b bs :
  uload m T a = Some b -> reaches m (a + 1) (n - 1) bs -> reaches m a n (b :: bs).
Proof.
  intros Hb (H1 & H2 & H3). split_and!.
  - intros [|i] x; cbn [lookup list_lookup].
    + intros [= <-]. by rewrite Z.add_0_r.
    + intros Hx%H1. rewrite <- Hx. f_equal. lia.
  - cbn [length]. lia.
  - cbn [length]. intros. rewrite <- H3 by lia. f_equal. lia.
Qed.

(** One byte to the user. *)
Lemma copyout1_wp m a ch e s (Q : Z -> env -> kst -> Prop) :
  uctx s -> locked s -> sees m s -> is_u64 a -> 0 <= ch < 256 ->
  (forall r m' ph', uctx (set_phys ph' s) -> sees m' (set_phys ph' s) ->
     (r = 0 /\ written m T m' a [ch] 1 \/ r = -1 /\ uload m T a = None /\ m' = m) ->
     Q r e (set_phys ph' s)) ->
  wp (copyout root a [ch]) e s Q.
Proof.
  intros Hp Hl Hs Hua Hch HQ. destruct (uc_vm _ Hp) as (l & Hvm & Hus).
  eapply copyout_loop_wp; [by apply uctx_kctx|done|done|done|by apply Forall_singleton|simpl; lia|].
  intros r ph' k Hvm' Hus' Hua' Hw Hr.
  assert (Hp' : uctx (set_phys ph' s)) by (destruct Hp as [[A1 A2 A3 A4] B C D E F G P]; split; try done; by exists l).
  destruct Hr as [(-> & -> & _)|(-> & Hk & Hn)].
  - apply (HQ 0 (ph_mem ph')); [done|done|left]. split; [done|]. intros v Hv. rewrite Hw by done.
    simpl length. by rewrite <- Hs by done.
  - simpl length in Hk. assert (k = 0) as -> by lia. rewrite Z.add_0_r in Hn.
    apply (HQ (-1) m); [done| |right].
    + intros v Hv. simpl. rewrite Hw by done. replace (_ && _) with false by lia. by apply Hs.
    + split_and!; [done| |done]. rewrite <- Hs by lia. unfold uload. by rewrite Hn.
Qed.

Lemma written_nil m a : written m T m a [] 0.
Proof. intros v Hv. by destruct (_ && _). Qed.

Lemma written_cons m m1 m' a b bs :
  written m T m1 a [b] 1 -> written m1 T m' (a + 1) bs (Z.of_nat (length bs)) ->
  written m T m' a (b :: bs) (Z.of_nat (length (b :: bs))).
Proof.
  intros H1 H2 v Hv. rewrite H2, H1 by done. cbn [length].
  destruct (Z.leb_spec a v); simpl andb; cbv iota.
  2:{ replace (a + 1 <=? v) with false by bool_lia. done. }
  destruct (decide (v = a)) as [->|Hne].
  - replace (a + 1 <=? a) with false by bool_lia. replace (a <? a + 1) with true by bool_lia.
    replace (a <? a + Z.of_nat (S (length bs))) with true by bool_lia. by rewrite Z.sub_diag.
  - replace (a + 1 <=? v) with true by bool_lia. replace (v <? a + 1) with false by bool_lia. simpl andb. cbv iota.
    replace (a + Z.of_nat (S (length bs))) with (a + 1 + Z.of_nat (length bs)) by lia.
    by replace (Z.to_nat (v - a)) with (S (Z.to_nat (v - (a + 1)))) by bool_lia.
Qed.

End user.

#[global] Arguments uc_thread {_ _ _ _ _} _ _.
#[global] Arguments uc_unlocked {_ _ _ _ _} _ _.
#[global] Arguments uc_lock {_ _ _ _ _} _ _.
#[global] Arguments uc_kmem {_ _ _ _ _} _ _.
#[global] Arguments uc_layout {_ _ _ _ _} _ _.
#[global] Arguments uc_me {_ _ _ _ _} _ _.
#[global] Arguments uc_vm {_ _ _ _ _} _ _.
#[global] Arguments uc_plain {_ _ _ _ _} _ _.
#[global] Arguments uctx_lt {_ _ _ _ _} _ _.
#[global] Arguments uctx_kthread {_ _ _ _ _} _ _.
#[global] Arguments uctx_kctx {_ _ _ _ _} _ _.

(** ** An example *)

(** Process 0 with one user page, and the locks [lks]. *)
Definition kst_with (lks : gmap lockid spinlock) : kst :=
  with_procs (<[0%nat := p_set_pagetable (pgn 1) proc_run]> (replicate NPROC proc0))
    (set_hw (Hw 0 (replicate NCPU true) (<[0%nat := cpu_set_proc (Some 0%nat) cpu0]> (replicate NCPU cpu0)) lks) kst_vm).

(** The locks of processes and the allocator, and [l]. *)
Definition more_locks (l : list lockid) : gmap lockid spinlock :=
  foldr (fun lk m => <[lk := Spinlock 0 "lock" None]> m) proc_locks l.

Lemma more_locks_free l lk : lk ∈ l -> more_locks l !! lk = Some (Spinlock 0 "lock" None).
Proof.
  intros Hin. induction l as [|x l IH]; [by apply elem_of_nil in Hin|]. cbn [more_locks foldr].
  destruct (decide (x = lk)) as [->|]; [apply lookup_insert_eq|].
  rewrite lookup_insert_ne by done. apply IH. by apply elem_of_cons in Hin as [->|].
Qed.

Lemma more_locks_ne l lk : lk ∉ l -> more_locks l !! lk = proc_locks !! lk.
Proof.
  intros Hin. induction l as [|x l IH]; [done|]. cbn [more_locks foldr]. apply not_elem_of_cons in Hin as [? ?].
  rewrite lookup_insert_ne by done. by apply IH.
Qed.

Lemma uctx_ex l lk : lk ∈ l -> L_kmem ∉ l -> (forall j, L_proc j ∉ l) ->
  uctx 0 lk (pgn 1) T_vm (k_hw (kst_with (more_locks l))) (kst_with (more_locks l)).
Proof.
  intros H0 H1 H2. split.
  - split; [|done|done|].
    + exists (cpu_set_proc (Some 0%nat) cpu0), true. by split_and!.
    + intros j Hj. exists "proc"%string. change (more_locks l !! L_proc j = Some (Spinlock 0 "proc" None)).
      rewrite more_locks_ne by done. by apply proc_locks_free.
  - done.
  - exists "lock"%string. by apply more_locks_free.
  - exists "kmem"%string. change (more_locks l !! L_kmem = Some (Spinlock 0 "kmem" None)).
    by rewrite more_locks_ne by done.
  - apply layout_ok0.
  - eexists. split_and!; done.
  - exists [pgn 5]. split; [apply vm_ok_vm|apply uspace_vm].
  - split; [by intros ->|]. intros j ->. by eapply H2.
Qed.

Lemma uload_ex a : 0 <= a < 4096 -> exists b, uload m_vm T_vm a = Some b.
Proof. intros Ha. unfold uload. rewrite ua_vm by lia. replace (a <? 4096) with true by lia. eauto. Qed.
