(* ===== verification/PipeSpec.v ===== *)
(** Pipes as bounded first-in first-out queues: what [pipewrite] and [piperead]
    do to the queue and to the user's memory, sleeping as often as they need
    while other processes read and write. *)

From S2P Require Import Prelude Machine KState Spinlock KString Kalloc Vm VmSpec VmUser VmSpace Proc ProcSpec ProcMem Sleeplock Ring SleepSpec UserSpec File.

(** ** The queue *)

Definition pipe_len (p : pipe) : Z := u32 (pi_nwrite p - pi_nread p).

(** The unread bytes, oldest first. *)
Definition pipe_queue (p : pipe) : list Z := ring PIPESIZE (pi_data p) (pi_nread p) (pipe_len p).

Record pipe_ok (p : pipe) : Prop := {
  po_data : Z.of_nat (length (pi_data p)) = PIPESIZE;
  po_bytes : bytes_ok (pi_data p);
  po_nread : 0 <= pi_nread p < 2 ^ 32;
  po_nwrite : 0 <= pi_nwrite p < 2 ^ 32;
  po_len : pipe_len p <= PIPESIZE }.

Lemma pipe_len_nonneg p : 0 <= pipe_len p.
Proof. unfold pipe_len, u32. apply Z.mod_pos_bound. lia. Qed.

Lemma length_pipe_queue p : Z.of_nat (length (pipe_queue p)) = pipe_len p.
Proof. apply length_ring, pipe_len_nonneg. Qed.

(** The tests of the code on the two counters. *)
Lemma pipe_empty p : pipe_ok p -> (pi_nread p =? pi_nwrite p) = bool_decide (pipe_queue p = []).
Proof.
  intros Hp. pose proof (length_pipe_queue p) as Hl. pose proof (po_nread _ Hp). pose proof (po_nwrite _ Hp).
  case_bool_decide as E.
  - rewrite E in Hl. simpl in Hl. unfold pipe_len, u32 in Hl. apply Z.eqb_eq. Z.div_mod_to_equations. lia.
  - apply Z.eqb_neq. intros E'. apply E, length_zero_iff_nil. unfold pipe_len in Hl.
    rewrite E', Z.sub_diag in Hl. change (u32 0) with 0 in Hl. lia.
Qed.

Lemma pipe_full p : pipe_ok p -> (pi_nwrite p =? u32 (pi_nread p + PIPESIZE)) = (Z.of_nat (length (pipe_queue p)) =? PIPESIZE).
Proof.
  intros Hp. rewrite length_pipe_queue. pose proof (po_nread _ Hp). pose proof (po_nwrite _ Hp).
  unfold pipe_len, u32, PIPESIZE in *.
  destruct (Z.eqb_spec (pi_nwrite p) ((pi_nread p + 512) mod 2 ^ 32)), (Z.eqb_spec ((pi_nwrite p - pi_nread p) mod 2 ^ 32) 512);
    try done; exfalso; Z.div_mod_to_equations; lia.
Qed.

(** [pi->data[pi->nwrite++ % PIPESIZE] = ch] *)
Definition push (ch : Z) (p : pipe) : pipe :=
  pi_set_nwrite (u32 (pi_nwrite p + 1)) (pi_set_data (<[Z.to_nat (pi_nwrite p mod PIPESIZE) := ch]> (pi_data p)) p).
(** [pi->nread++] *)
Definition pop (p : pipe) : pipe := pi_set_nread (u32 (pi_nread p + 1)) p.

Lemma push_queue ch p :
  pipe_ok p -> Z.of_nat (length (pipe_queue p)) < PIPESIZE -> 0 <= ch < 256 ->
  pipe_ok (push ch p) /\ pipe_queue (push ch p) = pipe_queue p ++ [ch].
Proof.
  intros Hp Hl Hch. rewrite length_pipe_queue in Hl. pose proof (po_nread _ Hp). pose proof (po_nwrite _ Hp).
  pose proof (pipe_len_nonneg p).
  assert (Hlen : pipe_len (push ch p) = pipe_len p + 1).
  { unfold pipe_len, push, u32, PIPESIZE in *; simpl in *. Z.div_mod_to_equations. lia. }
  split.
  - split; simpl; try done.
    + rewrite length_insert. apply Hp.
    + apply Forall_insert; [apply Hp|lia].
    + apply Z.mod_pos_bound. lia.
    + rewrite Hlen. lia.
  - unfold pipe_queue. rewrite Hlen, <- ring_push by (lia || apply Hp). simpl. do 3 f_equal.
    unfold pipe_len, u32, PIPESIZE. Z.div_mod_to_equations. lia.
Qed.

Lemma pop_queue p ch q :
  pipe_ok p -> pipe_queue p = ch :: q ->
  pipe_ok (pop p) /\ pipe_queue (pop p) = q /\
  pi_data p !! Z.to_nat (pi_nread p mod PIPESIZE) = Some ch /\ 0 <= ch < 256.
Proof.
  intros Hp Hq. pose proof (length_pipe_queue p) as Hl. rewrite Hq in Hl. cbn [length] in Hl.
  pose proof (po_nread _ Hp). pose proof (po_nwrite _ Hp). pose proof (po_len _ Hp).
  assert (Hlen : pipe_len (pop p) = pipe_len p - 1).
  { unfold pipe_len, pop, u32, PIPESIZE in *; simpl in *. Z.div_mod_to_equations. lia. }
  destruct (ring_byte PIPESIZE eq_refl _ _ (pi_nread p) (po_data _ Hp) (po_bytes _ Hp)) as (x & Hx & Hb).
  apply ring_cons in Hq as [Hch Hq]; [|lia]. rewrite Hx in *. simpl in Hch. subst x. split_and!; try done; try lia.
  - split; simpl; try apply Hp; [apply Z.mod_pos_bound; lia|rewrite Hlen; lia].
  - unfold pipe_queue. rewrite Hlen, <- Hq. apply ring_mod; [done|]. simpl.
    unfold u32, PIPESIZE. Z.div_mod_to_equations. lia.
Qed.

(** ** A process at a pipe *)

Definition pipe_at (pi : Z) (p : pipe) (s : kst) : Prop := v_pipes (k_vfs s) !! pi = Some p.

Lemma get_pipe_run pi p e s : pipe_at pi p s -> get_pipe pi e s = Ok p e s.
Proof. unfold pipe_at, get_pipe. krun. by intros ->. Qed.

Lemma upd_pipe_run pi p g e s : pipe_at pi p s ->
  upd_pipe pi g e s = Ok tt e (set_vfs (v_set_pipes (<[pi := g p]> (v_pipes (k_vfs s))) (k_vfs s)) s).
Proof. intros H. unfold upd_pipe. by erewrite bind_run by (by apply get_pipe_run). Qed.

Section pipe.
Context (me : nat) (pi root : Z) (T : ptree) (h : hw).
Notation uctx := (uctx me (L_pipe pi) root T h).
Notation locked := (locked (L_pipe pi) h).
Notation others := (others me root T).
Notation off_hart := (off_hart me root T).
Notation sees := (sees T).
Notation reaches := (reaches T).

(** A reader takes some bytes from a full pipe. *)
Definition reader_turn (f : kst -> kst) : Prop := forall s p,
  off_hart s -> pipe_at pi p s -> pipe_ok p -> Z.of_nat (length (pipe_queue p)) = PIPESIZE ->
  others s (f s) /\ exists p' j, pipe_at pi p' (f s) /\ pipe_ok p' /\ (0 < j <= length (pipe_queue p))%nat /\
    pipe_queue p' = drop j (pipe_queue p) /\
    pi_readopen p' = pi_readopen p /\ pi_writeopen p' = pi_writeopen p.

(** The others run while the reader of an empty pipe sleeps: they may write to it, close
    its write end, or leave it as it is. *)
Definition writer_turn (f : kst -> kst) : Prop := forall s p,
  off_hart s -> pipe_at pi p s -> pipe_ok p -> pipe_queue p = [] ->
  others s (f s) /\ exists p', pipe_at pi p' (f s) /\ pipe_ok p'.

(** Something to read, or the end of the input. *)
Definition ready (p : pipe) : Prop := pipe_queue p <> [] \/ pi_writeopen p = 0.

(** The reader sleeps as often as it finds the pipe empty with its write end open, each
    time giving the others one turn of [e]: from [s], with the lock, it gets to [s'] with
    the turns [e'] left. *)
Inductive waited : env -> kst -> env -> kst -> Prop :=
  | waited_ready e s p : pipe_at pi p s -> ready p -> waited e s e s
  | waited_turn f e s p e' s' : pipe_at pi p s -> ~ ready p ->
      waited e (awake me (acq (L_pipe pi) h) (f (asleep me (C_pipe_nread pi) h s))) e' s' ->
      waited (f :: e) s e' s'.

(** ** Writing *)

(** How a transfer ends: the lock given back. *)
Definition done_at (m : mem) (p' : pipe) (s' : kst) : Prop :=
  uctx s' /\ k_hw s' = h /\ sees m s' /\ pipe_at pi p' s' /\ pipe_ok p'.

Lemma pipe_done_wp ch r m p e s (Q : Z -> env -> kst -> Prop) :
  uctx s -> locked s -> sees m s -> pipe_at pi p s -> pipe_ok p ->
  (forall s', done_at m p s' -> Q r e s') ->
  wp (wakeup ch ;; release (L_pipe pi) ;; mret r) e s Q.
Proof.
  intros Hp Hl Hs Ha Ho HQ. apply wp_seq. eapply wp_run; [by eapply wakeup_run, uctx_kthread|].
  pose proof (uctx_woken _ _ _ _ _ ch _ Hp) as Hp'.
  apply wp_seq. eapply wp_run; [by eapply release_lk_run|]. apply wp_ret, HQ.
  split_and!; try done. by eapply uctx_hw.
Qed.

Lemma pipewrite_loop_wp m fuel addr n i e s p (Q : Z -> env -> kst -> Prop) :
  uctx s -> locked s -> sees m s -> pipe_at pi p s -> pipe_ok p -> pi_readopen p <> 0 ->
  0 <= i <= n -> 0 <= addr -> addr + n <= 2 ^ 64 -> Forall reader_turn e ->
  Z.of_nat (length (pipe_queue p)) + (n - i) <= PIPESIZE + Z.of_nat (length e) ->
  n - i + Z.of_nat (length e) < Z.of_nat fuel ->
  (forall bs k p' e' s', reaches m (addr + i) (n - i) bs -> done_at m p' s' ->
     pipe_queue p' = drop k (pipe_queue p ++ bs) ->
     pi_readopen p' = pi_readopen p -> pi_writeopen p' = pi_writeopen p -> (e = [] -> k = 0%nat) ->
     Q (i + Z.of_nat (length bs)) e' s') ->
  wp (pipewrite_loop fuel pi me addr n i) e s Q.
Proof.
  revert i e s p. induction fuel as [|fuel IH]; intros i e s p Hp Hl Hs Ha Ho Hr Hi H0 Hadd He Hq Hf HQ; [lia|].
  cbn [pipewrite_loop]. destruct (Z.ltb_spec i n) as [Hin|Hin].
  2:{ apply (pipe_done_wp _ _ m p); try done. intros s' Hd. rewrite <- (Z.add_0_r i).
      apply (HQ [] 0%nat p e s'); try done; [|by rewrite app_nil_r].
      split_and!; [by intros [] ?|cbn [length]; lia|cbn [length]; lia]. }
  apply wp_bind. eapply wp_run; [by apply get_pipe_run|]. apply wp_bind.
  replace (pi_readopen p =? 0) with false by lia.
  apply wp_bind. eapply wp_run; [by eapply killed_run|]. apply wp_ret. cbv iota beta. simpl negb. cbv iota.
  rewrite pipe_full by done. destruct (Z.eqb_spec (Z.of_nat (length (pipe_queue p))) PIPESIZE) as [Efull|Efull].
  - (* full: sleep *)
    apply wp_seq. eapply wp_run; [by eapply wakeup_run, uctx_kthread|].
    set (s1 := woken (Some me) (Some (C_pipe_nread pi)) s).
    assert (Hp1 : uctx s1) by (by eapply uctx_woken).
    destruct e as [|f e]; [simpl in Hq; lia|]. apply Forall_cons in He as [Hturn He].
    destruct (Hturn (asleep me (C_pipe_nwrite pi) h s1) p) as (Hoth & p' & j & Ha' & Ho' & Hj & Hq' & Hr' & Hw');
      [by eapply off_hart_asleep|done..|].
    apply wp_seq. eapply wp_run; [by eapply sleep_lk_run|].
    cbn [length] in Hq, Hf.
    eapply (IH i e _ p'); try done.
    + by eapply uctx_awake.
    + intros v Hv. simpl. rewrite (proj2 (proj2 Hoth)) by done. by apply Hs.
    + congruence.
    + rewrite Hq', length_drop. lia.
    + lia.
    + intros bs k p2 e2 s2 Hre Hd Hq2 Hr2 Hw2 Hk2. eapply (HQ bs (j + k)%nat p2); try done; [|congruence..].
      rewrite Hq2, Hq', <- (drop_app_le (pipe_queue p) bs j) by lia. apply drop_drop.
  - (* room: take a byte *)
    destruct (uc_me _ Hp) as (q & Hme & _ & Hroot).
    apply wp_bind. eapply wp_run; [by apply get_proc_run|]. rewrite Hroot.
    pose proof (po_len _ Ho) as Hlen. rewrite <- length_pipe_queue in Hlen.
    rewrite u64_small by lia.
    assert (Hci : copyin root (addr + i) 1 e s =
      Ok (match uload m T (addr + i) with Some b => (0, [b]) | None => (-1, []) end) e s).
    { rewrite (copyin1_run me (L_pipe pi) root T h), Hs by (try done; lia). done. }
    destruct (uload m T (addr + i)) as [b|] eqn:Hb;
      (apply wp_bind; eapply wp_run; [exact Hci|]); cbn -[pipewrite_loop].
    + destruct (push_queue b p) as [Ho' Hq']; [done|lia|by eapply uload_byte|].
      apply wp_seq. eapply wp_run; [by apply upd_pipe_run|].
      eapply (IH (i + 1) e _ (push b p)); try done; try lia.
      * by eapply uctx_vfs.
      * unfold pipe_at; simpl. apply lookup_insert_eq.
      * rewrite Hq', length_app. cbn [length]. lia.
      * intros bs k p2 e2 s2 Hre Hd Hq2 Hr2 Hw2 Hk2.
        replace (i + 1 + Z.of_nat (length bs)) with (i + Z.of_nat (length (b :: bs))) by (cbn [length]; lia).
        eapply (HQ (b :: bs) k p2); try done.
        -- apply reaches_cons; [done|]. by replace (addr + i + 1) with (addr + (i + 1)) by lia;
             replace (n - i - 1) with (n - (i + 1)) by lia.
        -- by rewrite Hq2, Hq', <- app_assoc.
    + apply (pipe_done_wp _ _ m p); try done. intros s' Hd. rewrite <- (Z.add_0_r i).
      apply (HQ [] 0%nat p e s'); try done; [|by rewrite app_nil_r].
      split_and!; [by intros [] ?|cbn [length]; lia|cbn [length]; rewrite Z.add_0_r; done].
Qed.

(** ** Reading *)

Lemma piperead_wait_wp m e s e' s' : waited e s e' s' -> forall fuel p p' (Q : bool -> env -> kst -> Prop),
  uctx s -> locked s -> sees m s -> pipe_at pi p s -> pipe_ok p -> Forall writer_turn e -> (length e < fuel)%nat ->
  pipe_at pi p' s' -> (uctx s' -> locked s' -> sees m s' -> pipe_ok p' -> Q true e' s') ->
  wp (piperead_wait fuel pi me) e s Q.
Proof.
  induction 1 as [e s p0 Ha0 Hready|f e s p0 e' s' Ha0 Hwait Hrest IH]; intros fuel p p' Q Hp Hl Hs Ha Ho He Hf Ha' HQ;
    (destruct fuel as [|fuel]; [lia|]); assert (p0 = p) as -> by (unfold pipe_at in *; congruence);
    cbn [piperead_wait]; apply wp_bind; (eapply wp_run; [by apply (get_pipe_run pi p)|]); cbv beta; rewrite (pipe_empty p Ho).
  - assert (p' = p) as -> by (unfold pipe_at in *; congruence).
    destruct (bool_decide_reflect (pipe_queue p = [])) as [Eq|]; [|apply wp_ret; by apply HQ].
    destruct Hready as [?|Hw]; [done|]. rewrite Hw. apply wp_ret. by apply HQ.
  - assert (Hq : pipe_queue p = [] /\ pi_writeopen p <> 0) by (unfold ready in Hwait; destruct (decide (pipe_queue p = [])); tauto).
    destruct Hq as [Hq Hw]. rewrite bool_decide_eq_true_2 by done.
    replace (pi_writeopen p =? 0) with false by lia. simpl negb. cbn [andb].
    apply wp_bind. eapply wp_run; [by eapply killed_run|]. simpl negb. cbv iota.
    apply Forall_cons in He as [Hturn He].
    destruct (Hturn (asleep me (C_pipe_nread pi) h s) p) as (Hoth & p1 & Ha1 & Ho1); [by eapply off_hart_asleep|done..|].
    apply wp_seq. eapply wp_run; [by eapply sleep_lk_run|]. simpl in Hf.
    eapply (IH fuel p1 p'); try done; [by eapply uctx_awake| |lia].
    intros v Hv. simpl. rewrite (proj2 (proj2 Hoth)) by done. by apply Hs.
Qed.

(** What a read of at most [k] bytes takes from the queue [q], having delivered
    [bs] at [a]: a byte that does not reach the user is lost. *)
Definition taken (m : mem) (a : Z) (k : nat) (q bs q' : list Z) : Prop :=
  bs = take (length bs) q /\
  (length bs = Nat.min k (length q) /\ q' = drop (length bs) q \/
   (length bs < Nat.min k (length q))%nat /\ uload m T (a + Z.of_nat (length bs)) = None /\
   q' = drop (S (length bs)) q).

Lemma piperead_loop_wp m k addr i e s p (Q : Z -> env -> kst -> Prop) :
  uctx s -> locked s -> sees m s -> pipe_at pi p s -> pipe_ok p ->
  0 <= i -> 0 <= addr -> addr + i + Z.of_nat k <= 2 ^ 64 ->
  (forall bs m' p' s', uctx s' -> locked s' -> sees m' s' -> pipe_at pi p' s' -> pipe_ok p' ->
     written m T m' (addr + i) bs (Z.of_nat (length bs)) ->
     taken m (addr + i) k (pipe_queue p) bs (pipe_queue p') ->
     Q (i + Z.of_nat (length bs)) e s') ->
  wp (piperead_loop k pi me addr i) e s Q.
Proof.
  revert m i s p. induction k as [|k IH]; intros m i s p Hp Hl Hs Ha Ho Hi Hadd Hmax HQ; cbn [piperead_loop].
  { apply wp_ret. rewrite <- (Z.add_0_r i). apply (HQ [] m p); try done; [apply written_nil|].
    split; [done|left; done]. }
  apply wp_bind. eapply wp_run; [by apply get_pipe_run|]. rewrite pipe_empty by done.
  destruct (bool_decide_reflect (pipe_queue p = [])) as [Hq|Hq].
  { apply wp_ret. rewrite <- (Z.add_0_r i). apply (HQ [] m p); try done; [apply written_nil|].
    rewrite Hq. split; [done|left; done]. }
  destruct (pipe_queue p) as [|ch q] eqn:Eq; [done|]. clear Hq.
  destruct (pop_queue p ch q Ho Eq) as (Ho' & Eq' & Hch & Hb).
  apply wp_bind. rewrite Hch. apply wp_ret.
  apply wp_seq. eapply wp_run; [by apply upd_pipe_run|].
  set (s1 := set_vfs _ s). assert (Hp1 : uctx s1) by (by eapply uctx_vfs).
  assert (Ha1 : pipe_at pi (pop p) s1) by apply lookup_insert_eq.
  destruct (uc_me _ Hp) as (pr & Hme & _ & Hroot).
  apply wp_bind. eapply wp_run; [by apply get_proc_run|]. rewrite Hroot, u64_small by lia.
  apply wp_bind. eapply (copyout1_wp me (L_pipe pi) root T h m (addr + i) ch e s1); try done; [lia|].
  intros r m' ph' Hp2 Hs2 [[-> Hw]|(-> & Hn & ->)]; cbn -[piperead_loop].
  - eapply (IH m' (i + 1)); try done; try lia.
    intros bs m2 p2 s2 B1 B2 B3 B4 B5 B6 (B7 & B8).
    replace (i + 1 + Z.of_nat (length bs)) with (i + Z.of_nat (length (ch :: bs))) by (cbn [length]; lia).
    replace (addr + (i + 1)) with (addr + i + 1) in * by lia.
    apply (HQ _ m2 p2); try done; [by eapply written_cons|].
    rewrite Eq' in *. split; [simpl; by f_equal|].
    destruct B8 as [[B8 B9]|(B8 & B9 & B10)]; [left|right]; cbn [length]; [split; [simpl; lia|done]|].
    split_and!; [simpl; lia| |done].
    rewrite Hw in B9 by lia.
    replace (addr + i + 1 + Z.of_nat (length bs) <? addr + i + 1) with false in B9 by lia.
    rewrite andb_false_r in B9. rewrite <- B9. f_equal. lia.
  - apply wp_ret. rewrite <- (Z.add_0_r i) at 1. apply (HQ [] m (pop p)); try done; [apply written_nil|].
    split; [done|right]. cbn [length]. rewrite Z.add_0_r. split_and!; [simpl; lia|done|by rewrite Eq'].
Qed.

End pipe.

(** ** What pipes do *)

Section calls.
Context (me : nat) (pi root : Z) (T : ptree) (s : kst).
Context (Hp : uctx me (L_pipe pi) root T (k_hw s) s).

Lemma pipe_thread : kthread (Some me) s.
Proof using Hp. pose proof (uc_thread _ Hp) as Hk. by destruct s. Qed.

Lemma acquire_pipe_run e :
  acquire (L_pipe pi) e s = Ok tt e (set_hw (acq (L_pipe pi) (k_hw s)) s).
Proof using Hp. apply acquire_run; [apply pipe_thread|apply Hp]. Qed.

(** A reader that is gone. *)
Lemma pipewrite_closed addr n e p :
  pipe_at pi p s -> pi_readopen p = 0 -> 0 < n -> pipewrite pi addr n e s = Ok (-1) e s.
Proof using Hp.
  intros Ha Hr Hn. unfold pipewrite. erewrite bind_run by apply curproc_run, pipe_thread.
  erewrite bind_run by apply acquire_pipe_run. unfold sleeping. cbn [Nat.add pipewrite_loop].
  replace (0 <? n) with true by lia. erewrite bind_run by (by apply get_pipe_run).
  rewrite Hr. change (0 =? 0) with true. cbv iota. erewrite bind_run by reflexivity. cbv iota.
  erewrite bind_run by (by eapply release_lk_run; [by eapply uctx_hw|]).
  by destruct s.
Qed.

(** A full pipe and nobody left to read it. *)
Lemma pipewrite_blocks addr n p :
  pipe_at pi p s -> pipe_ok p -> pi_readopen p <> 0 -> 0 < n ->
  Z.of_nat (length (pipe_queue p)) = PIPESIZE -> pipewrite pi addr n [] s = Block.
Proof using Hp.
  intros Ha Ho Hr Hn Hfull. unfold pipewrite. erewrite bind_run by apply curproc_run, pipe_thread.
  erewrite bind_run by apply acquire_pipe_run. unfold sleeping. cbn [Nat.add pipewrite_loop].
  set (s1 := set_hw _ s). assert (Hp1 : uctx me (L_pipe pi) root T (k_hw s) s1) by (by eapply uctx_hw).
  replace (0 <? n) with true by lia. erewrite bind_run by (by apply get_pipe_run).
  replace (pi_readopen p =? 0) with false by lia.
  erewrite bind_run by (erewrite bind_run by (by eapply killed_run); reflexivity). simpl negb. cbv iota.
  rewrite pipe_full, Hfull by done. change (PIPESIZE =? PIPESIZE) with true.
  change (negb (0 =? 0)) with false. cbv iota.
  erewrite bind_run by (by eapply wakeup_run, uctx_kthread).
  apply (uctx_woken _ _ _ _ _ (Some (C_pipe_nread pi))) in Hp1.
  unfold mbind, K_bind at 1. erewrite sleep_blocks; try done; apply Hp1 || by eapply uctx_lt.
Qed.

(** An empty pipe and nobody left to write to it. *)
Lemma piperead_blocks addr n p :
  pipe_at pi p s -> pipe_ok p -> ~ ready p -> piperead pi addr n [] s = Block.
Proof using Hp.
  intros Ha Ho Hno. unfold piperead. erewrite bind_run by apply curproc_run, pipe_thread.
  erewrite bind_run by apply acquire_pipe_run. unfold sleeping.
  set (s1 := set_hw _ s). assert (Hp1 : uctx me (L_pipe pi) root T (k_hw s) s1) by (by eapply uctx_hw).
  assert (Hq : pipe_queue p = [] /\ pi_writeopen p <> 0) by (unfold ready in Hno; destruct (decide (pipe_queue p = [])); tauto).
  destruct Hq as [Hq Hw].
  assert (Hb : piperead_wait 1 pi me [] s1 = Block).
  { cbn [piperead_wait]. erewrite bind_run by (by apply get_pipe_run). rewrite pipe_empty, bool_decide_eq_true_2 by done.
    replace (pi_writeopen p =? 0) with false by lia. cbn [andb negb].
    erewrite bind_run by (by eapply killed_run). change (negb (0 =? 0)) with false. cbv iota.
    unfold mbind, K_bind at 1. erewrite sleep_blocks; try done; apply Hp1 || by eapply uctx_lt. }
  unfold mbind, K_bind at 1. cbn [length]. by rewrite Hb.
Qed.

End calls.

(** C7: [pipewrite] appends the user's bytes to the pipe's queue, in order and
    each once, and never overwrites unread bytes. It returns the number of bytes
    it took: [n], or fewer when the user's buffer ends at an unmapped address.
    When the pipe is full it sleeps, and readers make room; each time one takes
    bytes it goes on, so that [n] fits in the free space plus one byte per turn.
    It returns -1 at once when the read end is closed, and stays asleep on a
    full pipe that nobody reads. *)
Theorem pipewrite_correct me pi root T addr n e s p :
  uctx me (L_pipe pi) root T (k_hw s) s -> pipe_at pi p s -> pipe_ok p -> 0 <= addr -> 0 <= n -> addr + n <= 2 ^ 64 ->
  (pi_readopen p <> 0 -> Forall (reader_turn me pi root T) e ->
   Z.of_nat (length (pipe_queue p)) + n <= PIPESIZE + Z.of_nat (length e) ->
   wp (pipewrite pi addr n) e s (fun r e' s' => exists bs k p',
     reaches T (ph_mem (k_phys s)) addr n bs /\ r = Z.of_nat (length bs) /\
     pipe_at pi p' s' /\ pipe_ok p' /\ pipe_queue p' = drop k (pipe_queue p ++ bs) /\ (e = [] -> k = 0%nat) /\
     pi_readopen p' = pi_readopen p /\ pi_writeopen p' = pi_writeopen p /\
     uctx me (L_pipe pi) root T (k_hw s) s' /\ k_hw s' = k_hw s)) /\
  (pi_readopen p = 0 -> 0 < n -> pipewrite pi addr n e s = Ok (-1) e s) /\
  (pi_readopen p <> 0 -> 0 < n -> Z.of_nat (length (pipe_queue p)) = PIPESIZE ->
   pipewrite pi addr n [] s = Block).
Proof.
  intros Hp Ha Ho H0 Hn Hmax. split_and!;
    [|intros; by eapply pipewrite_closed|intros; by eapply pipewrite_blocks].
  intros Hr He Hroom. unfold pipewrite.
  apply wp_bind. eapply wp_run; [by eapply curproc_run, pipe_thread|].
  apply wp_seq. eapply wp_run; [by eapply acquire_pipe_run|]. unfold sleeping.
  eapply (pipewrite_loop_wp me pi root T (k_hw s) (ph_mem (k_phys s)) _ addr n 0 e _ p); try done; try lia.
  - by eapply uctx_hw.
  - intros bs k p' e' s' Hre (D1 & D2 & D3 & D4 & D5) Hq Hr' Hw Hk.
    exists bs, k, p'. rewrite Z.add_0_r, Z.sub_0_r in Hre. split_and!; done.
Qed.

(** C8: [piperead] sleeps as long as the pipe is empty with its write end open, whatever
    the others do meanwhile, and no longer: [p1] is the pipe after exactly the turns that
    takes, and [p] itself when there is something to read. Then it takes bytes from the
    front of the queue of [p1] and writes them, in order, at the user's address: [n] of them
    or all there are, which is none when the write end is closed and the queue empty. When
    it meets an unmapped address it returns the bytes delivered so far, and the one
    byte that it could not deliver is lost. When nobody comes to write, it stays asleep. *)
Theorem piperead_correct me pi root T addr n e s p :
  uctx me (L_pipe pi) root T (k_hw s) s -> pipe_at pi p s -> pipe_ok p -> 0 <= addr -> 0 <= n -> addr + n <= 2 ^ 64 ->
  Forall (writer_turn me pi root T) e ->
  (forall e1 s1 p1, waited me pi (k_hw s) e (set_hw (acq (L_pipe pi) (k_hw s)) s) e1 s1 -> pipe_at pi p1 s1 ->
   wp (piperead pi addr n) e s (fun r e' s' => e' = e1 /\ exists bs p',
    r = Z.of_nat (length bs) /\
    taken T (ph_mem (k_phys s)) addr (Z.to_nat n) (pipe_queue p1) bs (pipe_queue p') /\
    (forall v, 0 <= v -> uload (ph_mem (k_phys s')) T v =
       match (if addr <=? v then bs !! Z.to_nat (v - addr) else None) with
       | Some b => Some b
       | None => uload (ph_mem (k_phys s)) T v
       end) /\
    pipe_at pi p' s' /\ pipe_ok p' /\ uctx me (L_pipe pi) root T (k_hw s) s' /\ k_hw s' = k_hw s)) /\
  (pipe_queue p = [] -> pi_writeopen p <> 0 -> piperead pi addr n [] s = Block).
Proof.
  intros Hp Ha Ho H0 Hn Hmax He. split; [|intros Hq Hw; eapply piperead_blocks; try done; by intros [?|?]].
  intros e1 s1 p1 Hwait Ha1. unfold piperead.
  apply wp_bind. eapply wp_run; [by eapply curproc_run, pipe_thread|].
  apply wp_seq. eapply wp_run; [by eapply acquire_pipe_run|]. unfold sleeping.
  apply wp_bind. eapply (piperead_wait_wp me pi root T (k_hw s) (ph_mem (k_phys s)) _ _ _ _ Hwait _ p p1); try done; [by eapply uctx_hw|lia|].
  intros P1 P2 P3 P5. cbv iota. simpl negb. cbv iota.
  apply wp_bind. eapply (piperead_loop_wp me pi root T (k_hw s) (ph_mem (k_phys s)) _ addr 0 e1 s1 p1); try done; try lia.
  intros bs m' p' s' R1 R2 R3 R4 R5 R6 R7.
  eapply (pipe_done_wp me pi root T (k_hw s) _ _ m'); try done. intros s2 (D1 & D2 & D3 & D4 & D5).
  split; [done|]. exists bs, p'. rewrite Z.add_0_r in R6, R7. split_and!; try done.
  intros v Hv. rewrite D3, R6 by done. destruct (Z.leb_spec addr v); simpl andb; [|done].
  destruct (Z.ltb_spec v (addr + Z.of_nat (length bs))); cbv iota; [done|].
  by rewrite lookup_ge_None_2 by lia.
Qed.

(** ** Witnesses *)

(** Process 0 at a pipe in page 6. *)
Definition kst_pipe (p : pipe) : kst :=
  set_vfs (v_set_pipes {[ pgn 6 := p ]} (k_vfs kst_vm)) (kst_with (more_locks [L_pipe (pgn 6)])).

Lemma uctx_pipe p : uctx 0 (L_pipe (pgn 6)) (pgn 1) T_vm (k_hw (kst_pipe p)) (kst_pipe p).
Proof. apply uctx_vfs, uctx_ex; set_solver. Qed.

Lemma pipe_at_ex p : pipe_at (pgn 6) p (kst_pipe p).
Proof. apply lookup_insert_eq. Qed.

Lemma pipe_ok_ex nread nwrite x :
  0 <= nread < 2 ^ 32 -> 0 <= nwrite < 2 ^ 32 -> u32 (nwrite - nread) <= PIPESIZE -> 0 <= x < 256 ->
  pipe_ok (Pipe (replicate 512 x) nread nwrite 1 1).
Proof.
  intros. split; [done|by apply Forall_replicate|done..].
Qed.

(** A process that reads one byte and gives the hart back. *)
Definition read_one (me : nat) (pi : Z) (s : kst) : kst :=
  set_vfs (v_set_pipes (alter pop pi (v_pipes (k_vfs s))) (k_vfs s))
    (with_procs (alter (p_set_state RUNNING) me (ps_procs (k_ps s))) s).

Lemma read_one_turn me pi root T : reader_turn me pi root T (read_one me pi).
Proof.
  intros s p (O1 & O2 & O3) Ha Ho Hfull. unfold read_one. split.
  - split; [split_and!|split]; simpl; try done; [by rewrite length_alter|by rewrite list_lookup_alter_eq].
  - destruct (pipe_queue p) as [|ch q] eqn:E; [done|]. destruct (pop_queue p ch q Ho E) as (Ho' & Hq & _).
    exists (pop p), 1%nat. unfold pipe_at in *; simpl. rewrite lookup_alter_eq, Ha.
    split_and!; try done; simpl; lia.
Qed.

(** A full pipe: the writer sleeps once. *)
Lemma pipewrite_correct_witness :
  wp (pipewrite (pgn 6) 100 1) [read_one 0 (pgn 6)] (kst_pipe (Pipe (replicate 512 7) 0 512 1 1))
    (fun r _ s' => r = 1 /\ exists p', pipe_at (pgn 6) p' s' /\ pipe_ok p').
Proof.
  assert (Ho : pipe_ok (Pipe (replicate 512 7) 0 512 1 1)) by (by apply pipe_ok_ex).
  eapply wp_mono.
  - refine (proj1 (pipewrite_correct 0 (pgn 6) (pgn 1) T_vm 100 1 [read_one 0 (pgn 6)] _ _
      (uctx_pipe _) (pipe_at_ex _) Ho _ _ _) _ _ _); try done.
    apply Forall_singleton, read_one_turn.
  - intros r e' s' (bs & k & p' & (_ & Hlen & Hstop) & -> & Ha & Ho' & _).
    split; [|by exists p']. destruct (decide (Z.of_nat (length bs) = 1)); [done|].
    destruct (uload_ex (100 + Z.of_nat (length bs))) as [b Hb]; [lia|].
    change (ph_mem (k_phys (kst_pipe _))) with m_vm in Hstop. rewrite Hstop in Hb by lia. done.
Defined.

(** A process that writes one byte and gives the hart back, and one that only wakes
    the reader. *)
Definition wake_only (me : nat) (s : kst) : kst := with_procs (alter (p_set_state RUNNING) me (ps_procs (k_ps s))) s.
Definition write_one (me : nat) (pi : Z) (s : kst) : kst :=
  set_vfs (v_set_pipes (alter (push 9) pi (v_pipes (k_vfs s))) (k_vfs s)) (wake_only me s).

Lemma wake_only_turn me pi root T : writer_turn me pi root T (wake_only me).
Proof.
  intros s p (O1 & O2 & O3) Ha Ho Hq. unfold wake_only. split; [|by exists p].
  split; [split_and!|split]; simpl; try done; [by rewrite length_alter|by rewrite list_lookup_alter_eq].
Qed.

Lemma write_one_turn me pi root T : writer_turn me pi root T (write_one me pi).
Proof.
  intros s p (O1 & O2 & O3) Ha Ho Hq. unfold write_one, wake_only. split.
  - split; [split_and!|split]; simpl; try done; [by rewrite length_alter|by rewrite list_lookup_alter_eq].
  - exists (push 9 p). unfold pipe_at in *; simpl. rewrite lookup_alter_eq, Ha. split; [done|].
    apply push_queue; [done|rewrite Hq; done|lia].
Qed.

(** The reader of an empty pipe sleeps twice, first for nothing; its byte is the one written
    meanwhile. *)
Lemma piperead_correct_witness :
  wp (piperead (pgn 6) 8 2) [wake_only 0; write_one 0 (pgn 6)] (kst_pipe (Pipe (replicate 512 7) 3 3 1 1))
    (fun r e' s' => r = 1 /\ e' = [] /\ uload (ph_mem (k_phys s')) T_vm 8 = Some 9).
Proof.
  set (p := Pipe (replicate 512 7) 3 3 1 1). assert (Ho : pipe_ok p) by (by apply pipe_ok_ex).
  assert (Hq : pipe_queue p = []) by (by vm_compute). assert (Hq1 : pipe_queue (push 9 p) = [9]) by (by vm_compute).
  eapply wp_mono.
  - refine (proj1 (piperead_correct 0 (pgn 6) (pgn 1) T_vm 8 2 [wake_only 0; write_one 0 (pgn 6)] _ _
      (uctx_pipe _) (pipe_at_ex p) Ho _ _ _ _) [] _ (push 9 p) _ _); try done.
    + apply Forall_cons. split; [apply wake_only_turn|]. apply Forall_singleton, write_one_turn.
    + eapply (waited_turn _ _ _ _ _ _ p); [apply pipe_at_ex|by intros [?|?]|].
      eapply (waited_turn _ _ _ _ _ _ p); [apply pipe_at_ex|by intros [?|?]|].
      eapply (waited_ready _ _ _ _ _ (push 9 p)); [|left; by rewrite Hq1]. unfold pipe_at; simpl. by rewrite lookup_alter_eq.
    + unfold pipe_at; simpl. by rewrite lookup_alter_eq.
  - intros r e' s' (-> & bs & p' & -> & (Hbs & Ht) & Hu & _).
    rewrite Hq1 in Ht, Hbs. cbn [length] in Ht. change (Nat.min (Z.to_nat 2) 1) with 1%nat in Ht.
    assert (Hl : length bs = 1%nat).
    { destruct Ht as [[Ht _]|(Ht & Hn & _)]; [done|]. destruct (uload_ex (8 + Z.of_nat (length bs))) as [b Hb]; [lia|].
      change (ph_mem (k_phys (kst_pipe p))) with m_vm in Hn. by rewrite Hn in Hb. }
    rewrite Hl in Hbs. cbn [take] in Hbs. subst bs. split_and!; [done..|]. by rewrite Hu.
Defined.
