(* ===== verification/ConsoleSpec.v ===== *)
(** The console: what is sent to the UART, how numbers are printed, and console
    input as an edited line that readers take from. *)

From S2P Require Import Prelude Machine KState Spinlock KString Kalloc Vm VmSpec VmUser VmSpace Proc ProcSpec ProcMem Sleeplock Ring SleepSpec UserSpec Console.

(** ** push_off and pop_off around a short piece of code *)

(** The hart after [push_off]. *)
Definition off (h : hw) : hw :=
  Hw (h_hart h) (<[h_hart h := false]> (h_sie h))
    (alter (fun c => Cpu (c_proc c) (c_context c) (c_noff c + 1) (c_intena c)) (h_hart h) (h_cpus h)) (h_locks h).

Lemma push_off_off e s : hart_ok (k_hw s) -> push_off e s = Ok tt e (set_hw (off (k_hw s)) s).
Proof.
  intros (c & b & Hc & Hb & Hn0 & Hn1 & Hn2). erewrite push_off_run by done. do 2 f_equal.
  unfold off. erewrite list_alter_insert by done. do 3 f_equal.
  destruct (Z.eqb_spec (c_noff c) 0); [rewrite Hn1 by done|]; done.
Qed.

Lemma pop_off_off e s h : hart_ok h -> k_hw s = off h -> pop_off e s = Ok tt e (set_hw h s).
Proof.
  intros (c & b & Hc & Hb & Hn0 & Hn1 & Hn2) Hs.
  assert (Hlt := lookup_lt_Some _ _ _ Hc). assert (Hlt' := lookup_lt_Some _ _ _ Hb).
  erewrite pop_off_run; [| rewrite Hs; simpl; by rewrite list_lookup_alter_eq, Hc
    | rewrite Hs; simpl; by rewrite list_lookup_insert_eq | simpl; lia].
  do 2 f_equal. rewrite Hs. unfold off; simpl. erewrite list_alter_insert by done.
  destruct h as [ht sie cpus lks]; simpl in *. f_equal.
  - replace (c_noff c + 1 =? 1) with (c_noff c =? 0) by lia.
    destruct (Z.eqb_spec (c_noff c) 0) as [E|E]; simpl.
    + rewrite Hn1 by done. destruct b; [rewrite list_insert_insert_eq|]; by apply list_insert_id.
    + rewrite <- Hn2 by lia. by apply list_insert_id.
  - rewrite list_insert_insert_eq. apply list_insert_id. rewrite Hc. f_equal.
    destruct c; unfold cpu_set_noff; simpl. f_equal. lia.
Qed.

(** ** Sending *)

(** The transmitter's answers to LSR after one byte was sent. *)
Fixpoint drop_busy (l : list bool) : list bool :=
  match l with
  | false :: l => drop_busy l
  | true :: l => l
  | [] => []
  end.

Definition on_uart (f : uart -> uart) (s : kst) : kst := set_dev (d_set_uart (f (d_uart (k_dev s))) (k_dev s)) s.

Definition send1 (s : kst) (c : Z) : kst :=
  on_uart (fun u => Uart (tx_buf u) (tx_w u) (tx_r u) (drop_busy (u_idle u)) (u_in u) (u_writes u ++ [(THR, c)])) s.

(** The state after the bytes [l] went out. *)
Definition sent (l : list Z) (s : kst) : kst := foldl send1 s l.

Lemma sent_app l l' s : sent (l ++ l') s = sent l' (sent l s).
Proof. apply foldl_app. Qed.

Lemma uartputc_spin_run fuel e s :
  (length (u_idle (d_uart (k_dev s))) < fuel)%nat ->
  uartputc_spin fuel e s = Ok tt e (on_uart (fun u => Uart (tx_buf u) (tx_w u) (tx_r u) (drop_busy (u_idle u)) (u_in u) (u_writes u)) s).
Proof.
  revert s. induction fuel as [|fuel IH]; intros s Hf; [lia|].
  cbn [uartputc_spin]. unfold ReadReg, get_uart, upd_uart, upd_dev. krun. 
  change (LSR =? LSR) with true. cbv iota beta.
  destruct s as [ly h ph ps fs vf [cn [tb tw tr [|[] l] ui uw] dsw dk cr rg cl st pn lk ft] out]; simpl in *.
  - destruct (decide _); reflexivity.
  - destruct (decide _); reflexivity.
  - replace (Z.land _ _ =? 0) with true by (by destruct (decide _)).
    rewrite IH by (simpl; lia). done.
Qed.

Lemma uartputc_sync_run c e s :
  hart_ok (k_hw s) -> d_panicked (k_dev s) = 0 -> uartputc_sync c e s = Ok tt e (send1 s (u8 c)).
Proof.
  intros Hh Hp. unfold uartputc_sync. erewrite bind_run by (by apply push_off_off).
  erewrite bind_run.
  2:{ unfold stop_if_panicked, get_dev. erewrite bind_run by reflexivity. simpl. rewrite Hp. reflexivity. }
  unfold get_uart. erewrite bind_run by reflexivity.
  erewrite bind_run by (apply uartputc_spin_run; simpl; lia).
  erewrite bind_run by reflexivity. erewrite pop_off_off; [|done|done]. by destruct s.
Qed.

(** What [consputc] sends. *)
Definition echo_of (c : Z) : list Z := if c =? BACKSPACE then [8; 32; 8] else [u8 c].

Lemma consputc_run c e s :
  hart_ok (k_hw s) -> d_panicked (k_dev s) = 0 -> consputc c e s = Ok tt e (sent (echo_of c) s).
Proof.
  intros Hh Hp. unfold consputc, echo_of. destruct (c =? BACKSPACE); [|by apply uartputc_sync_run].
  do 2 erewrite bind_run by (by apply uartputc_sync_run). by rewrite uartputc_sync_run.
Qed.

Lemma k_hw_sent l s : k_hw (sent l s) = k_hw s.
Proof. revert s. induction l as [|c l IH]; intros s; simpl; [done|]. by rewrite IH. Qed.

Lemma k_dev_sent l s : exists u, k_dev (sent l s) = d_set_uart u (k_dev s) /\
  sent l s = set_dev (d_set_uart u (k_dev s)) s /\ 
  u_writes u = u_writes (d_uart (k_dev s)) ++ ((fun c => (THR, c)) <$> l).
Proof.
  revert s. induction l as [|c l IH]; intros s; simpl.
  - exists (d_uart (k_dev s)). rewrite app_nil_r. destruct s as [? ? ? ? ? ? [] ?]. done.
  - destruct (IH (send1 s c)) as (u & H1 & H2 & H3). exists u. rewrite H1, H2, H3.
    split_and!; [done|by destruct s|]. simpl. by rewrite <- app_assoc.
Qed.

Lemma d_panicked_sent l s : d_panicked (k_dev (sent l s)) = d_panicked (k_dev s).
Proof. destruct (k_dev_sent l s) as (u & -> & _). done. Qed.

Lemma sent_hw l h s : sent l (set_hw h s) = set_hw h (sent l s).
Proof. revert s. induction l as [|c l IH]; intros s; simpl; [done|]. by rewrite <- IH. Qed.

#[export] Hint Rewrite k_hw_sent d_panicked_sent : xv6_sent.

(** ** printf *)

Lemma forK_consputc_run l e s :
  hart_ok (k_hw s) -> d_panicked (k_dev s) = 0 -> exists ws, forK l consputc e s = Ok tt e (sent ws s).
Proof.
  revert s. induction l as [|c l IH]; intros s Hh Hp; cbn [forK]; [by exists []|].
  erewrite bind_run by (by apply consputc_run).
  destruct (IH (sent (echo_of c) s)) as [ws ->]; [by autorewrite with xv6_sent..|].
  exists (echo_of c ++ ws). by rewrite sent_app.
Qed.

Lemma put_string_run l e s :
  hart_ok (k_hw s) -> d_panicked (k_dev s) = 0 -> exists ws, put_string l e s = Ok tt e (sent ws s).
Proof.
  revert s. induction l as [|c l IH]; intros s Hh Hp; cbn [put_string]; [by exists []|].
  destruct (c =? 0); [by exists []|]. erewrite bind_run by (by apply consputc_run).
  destruct (IH (sent (echo_of c) s)) as [ws ->]; [by autorewrite with xv6_sent..|].
  exists (echo_of c ++ ws). by rewrite sent_app.
Qed.

(** [m] only sends. *)
Definition sends (m : K unit) : Prop := forall e s,
  hart_ok (k_hw s) -> d_panicked (k_dev s) = 0 -> exists ws, m e s = Ok tt e (sent ws s).

Lemma sends_seq m k : sends m -> sends k -> sends (m ;; k).
Proof.
  intros Hm Hk e s Hh Hp. destruct (Hm e s Hh Hp) as [ws E]. erewrite bind_run by exact E.
  destruct (Hk e (sent ws s)) as [ws' ->]; [by autorewrite with xv6_sent..|].
  exists (ws ++ ws'). by rewrite sent_app.
Qed.

Lemma sends_ret : sends (mret tt).
Proof. intros e s _ _. by exists []. Qed.

Lemma sends_consputc c : sends (consputc c).
Proof. intros e s Hh Hp. eexists. by apply consputc_run. Qed.

Lemma sends_printint xx base sign : sends (printint xx base sign).
Proof. intros e s. apply forK_consputc_run. Qed.

Lemma sends_string l : sends (put_string l).
Proof. intros e s. apply put_string_run. Qed.

Ltac by_sends := cbn -[consputc printint put_string];
  repeat first [apply sends_ret | apply sends_consputc | apply sends_printint | apply sends_string | apply sends_seq].

Lemma kprintf_run fmt ap e s :
  hart_ok (k_hw s) -> d_panicked (k_dev s) = 0 -> lock_free L_pr (k_hw s) -> sends (printf_loop fmt ap) ->
  exists ws, kprintf fmt ap e s = Ok tt e (sent ws s).
Proof.
  intros Hh Hp Hl Hs. unfold kprintf, get_dev. erewrite bind_run by reflexivity. cbv zeta beta.
  destruct (d_locking (k_dev s) =? 0); simpl negb; unfold when at 1.
  - erewrite bind_run by reflexivity. destruct (Hs e s Hh Hp) as [ws E]. exists ws. by erewrite bind_run by exact E.
  - erewrite bind_run by (by apply acquire_run).
    destruct (Hs e (set_hw (acq L_pr (k_hw s)) s)) as [ws E]; [by apply hart_ok_acq|done|].
    exists ws. erewrite bind_run by exact E. unfold when.
    erewrite release_run; [|done|done|by rewrite k_hw_sent].
    rewrite sent_hw. f_equal. rewrite <- (k_hw_sent ws s) at 1. by destruct (sent ws s).
Qed.

(** ** procdump *)

(** A loop over the table that only sends. *)
Lemma procdump_run me e s :
  kthread me s -> lock_free L_pr (k_hw s) -> d_panicked (k_dev s) = 0 ->
  exists ws, procdump e s = Ok tt e (sent ws s).
Proof.
  intros Hk Hl Hp. pose proof (kt_hart _ _ Hk) as Hh.
  assert (Hnl : sends (printf_loop [10] [])) by by_sends.
  destruct (kprintf_run [10] [] e s Hh Hp Hl Hnl) as [w0 E0].
  unfold procdump. erewrite bind_run by exact E0. clear E0.
  assert (Hlen := kt_len _ _ Hk). assert (Hin : forall i, i ∈ all_procs -> (i < NPROC)%nat) by apply elem_of_all_procs.
  revert w0 Hin. induction all_procs as [|i l IH]; intros w0 Hin; cbn [forK]; [by eexists|].
  destruct (lookup_lt_is_Some_2 (ps_procs (k_ps s)) i) as [p Hi]; [rewrite Hlen; apply Hin; left|].
  assert (Hstep : exists ws, (fun i => p ← get_proc i;
    if bool_decide (p_state p = UNUSED) then mret tt
    else kprintf (bytes_of "%d %s %s") [A_int (p_pid p); A_str (Some (state_name (p_state p))); A_str (Some (p_name p))] ;;
         kprintf [10] []) i e (sent w0 s) = Ok tt e (sent ws s)).
  { destruct (k_dev_sent w0 s) as (u & _ & Es & _).
    erewrite bind_run by (apply get_proc_run; by rewrite Es).
    destruct (bool_decide _); [by exists w0|].
    edestruct (kprintf_run (bytes_of "%d %s %s")) as [w1 E1];
      [| | | |erewrite bind_run by exact E1]; [by rewrite k_hw_sent|by rewrite d_panicked_sent|by rewrite k_hw_sent|
       by_sends|].
    edestruct (kprintf_run [10] []) as [w2 E2];
      [| | | |rewrite E2]; [by rewrite !k_hw_sent|by rewrite !d_panicked_sent|by rewrite !k_hw_sent|done|].
    exists ((w0 ++ w1) ++ w2). by rewrite !sent_app. }
  destruct Hstep as [ws Es]. erewrite bind_run by exact Es. apply IH.
  intros j Hj. apply Hin. by right.
Qed.

(** ** Numbers *)

(** The value of a digit character, and of a number written in [base]. *)
Definition digit_value (c : Z) : Z := if c <? 58 then c - 48 else c - 87.
Definition number_value (base : Z) (l : list Z) : Z := foldl (fun v c => v * base + digit_value c) 0 l.

Lemma digit_spec n : 0 <= n < 16 -> digit_value (digit n) = n /\ (48 <= digit n <= 57 \/ 97 <= digit n <= 102).
Proof.
  intros Hn. assert (n ∈ seqZ 0 16) as H by (apply elem_of_seqZ; lia).
  change (seqZ 0 16) with [0; 1; 2; 3; 4; 5; 6; 7; 8; 9; 10; 11; 12; 13; 14; 15] in H.
  repeat (apply elem_of_cons in H as [->|H]; [split; [done|first [left; split; by vm_compute|right; split; by vm_compute]]|]). by apply elem_of_nil in H.
Qed.

Lemma printint_digits_spec base fuel x :
  2 <= base <= 16 -> 0 <= x < base ^ Z.of_nat fuel -> (0 < fuel)%nat ->
  let l := printint_digits fuel x base in
  l <> [] /\ number_value base (reverse l) = x /\
  Forall (fun c => 48 <= c <= 57 \/ 97 <= c <= 102) l /\
  ((1 < length l)%nat -> base ^ (Z.of_nat (length l) - 1) <= x).
Proof.
  intros Hb. revert x. induction fuel as [|fuel IH]; intros x Hx Hf; [lia|]. cbn [printint_digits].
  destruct (digit_spec (x mod base)) as [Hd Hc]; [pose proof (Z.mod_pos_bound x base); lia|].
  assert (Hdiv : x = base * (x / base) + x mod base) by (apply Z.div_mod; lia).
  pose proof (Z.mod_pos_bound x base ltac:(lia)) as Hmod.
  assert (Hpos : 0 <= x / base) by (apply Z.div_pos; lia).
  assert (Hlt : x / base < base ^ Z.of_nat fuel).
  { apply Z.div_lt_upper_bound; [lia|]. rewrite Nat2Z.inj_succ, Z.pow_succ_r in Hx by lia. lia. }
  destruct (Z.eqb_spec (x / base) 0) as [E|E]; cbn [negb].
  - split_and!; [done| |by constructor|simpl; lia]. cbn. rewrite Hd. lia.
  - destruct fuel as [|fuel]; [simpl in Hlt; lia|]. destruct (IH (x / base)) as (I1 & I2 & I3 & I4); [lia|lia|].
    split_and!; [done| |by constructor|].
    + rewrite reverse_cons. unfold number_value in *. rewrite foldl_app, I2. cbn. rewrite Hd. lia.
    + intros _. cbn [length]. set (n := length _) in *.
      assert (Hn : (0 < n)%nat) by (subst n; destruct (printint_digits (S fuel) (x / base) base); [done|simpl; lia]).
      replace (Z.of_nat (S n) - 1) with (Z.succ (Z.of_nat n - 1)) by lia. rewrite Z.pow_succ_r by lia.
      destruct (decide (1 < n)%nat) as [Hn1|Hn1]; [|replace (Z.of_nat n - 1) with 0 by lia; nia].
      transitivity (base * (x / base)); [apply Z.mul_le_mono_nonneg_l; [lia|by apply I4]|lia].
Qed.

(** Printf's numbers read back as what was printed: for every 32-bit [xx]
    and base 10 or 16, the characters are a minus sign exactly when [xx] is
    negative, then at least one digit, and the digits have the value of [xx]
    without its sign (also for the least int, whose negation overflows). They
    fit in the 16 bytes of [buf]. *)
Theorem printint_correct xx base :
  - 2 ^ 31 <= xx < 2 ^ 31 -> base = 10 \/ base = 16 ->
  exists ds, printint_chars xx base true = (if xx <? 0 then [45] else []) ++ ds /\ ds <> [] /\
    Forall (fun c => 48 <= c <= 57 \/ 97 <= c <= 102) ds /\ number_value base ds = Z.abs xx /\
    (length (printint_chars xx base true) <= 16)%nat.
Proof.
  intros Hx Hb. unfold printint_chars. cbn [andb]. set (x := if xx <? 0 then u32 (- xx) else u32 xx).
  assert (Ex : x = Z.abs xx).
  { subst x. unfold u32. destruct (Z.ltb_spec xx 0); rewrite Z.mod_small; lia. }
  destruct (printint_digits_spec base 32 x) as (D1 & D2 & D3 & D4); [lia| |lia|].
  { rewrite Ex. destruct Hb as [->| ->]; lia. }
  set (l := printint_digits 32 x base) in *. clearbody l. exists (reverse l). rewrite reverse_app.
  assert (Hr : reverse (if xx <? 0 then [45] else []) = if xx <? 0 then [45] else []) by (by destruct (xx <? 0)).
  rewrite Hr. split_and!; [done|intros E; apply D1; by rewrite <- (reverse_involutive l), E|by apply Forall_reverse|by rewrite D2|].
  assert (Hlen : (length l <= 10)%nat).
  { destruct (decide (length l <= 10)%nat); [done|]. assert (base ^ 10 <= x).
    { transitivity (base ^ (Z.of_nat (length l) - 1)); [apply Z.pow_le_mono_r; lia|apply D4; lia]. }
    destruct Hb as [->| ->]; lia. }
  rewrite length_app, length_reverse. destruct (xx <? 0); simpl; lia.
Qed.

Lemma printint_correct_witness :
  exists ds, printint_chars (- 2147483648) 10 true = 45 :: ds /\ number_value 10 ds = 2147483648.
Proof.
  destruct (printint_correct (- 2147483648) 10 ltac:(lia) ltac:(by left)) as (ds & H1 & _ & _ & H2 & _).
  exists ds. split; [exact H1|exact H2].
Defined.

(** ** The line being edited *)

(** Input that readers may take, and input that can still be edited. *)
Definition committed (c : console) : list Z := ring INPUT_BUF_SIZE (cons_buf c) (cons_r c) (u32 (cons_w c - cons_r c)).
Definition pending (c : console) : list Z := ring INPUT_BUF_SIZE (cons_buf c) (cons_w c) (u32 (cons_e c - cons_w c)).

Record cons_ok (c : console) : Prop := {
  co_buf : Z.of_nat (length (cons_buf c)) = INPUT_BUF_SIZE;
  co_bytes : bytes_ok (cons_buf c);
  co_r : 0 <= cons_r c < 2 ^ 32;
  co_w : 0 <= cons_w c < 2 ^ 32;
  co_e : 0 <= cons_e c < 2 ^ 32;
  co_len : u32 (cons_w c - cons_r c) + u32 (cons_e c - cons_w c) <= INPUT_BUF_SIZE;
  co_line : Forall (fun x => x <> 10) (pending c) }.

Lemma u32_nonneg x : 0 <= u32 x.
Proof. apply Z.mod_pos_bound. lia. Qed.

Lemma length_committed c : Z.of_nat (length (committed c)) = u32 (cons_w c - cons_r c).
Proof. apply length_ring, u32_nonneg. Qed.
Lemma length_pending c : Z.of_nat (length (pending c)) = u32 (cons_e c - cons_w c).
Proof. apply length_ring, u32_nonneg. Qed.

(** [cons.e - cons.r] *)
Lemma cons_used c : cons_ok c ->
  u32 (cons_e c - cons_r c) = Z.of_nat (length (committed c)) + Z.of_nat (length (pending c)).
Proof.
  intros H. rewrite length_committed, length_pending. pose proof (co_len _ H).
  unfold u32, INPUT_BUF_SIZE in *. Z.div_mod_to_equations. lia.
Qed.

Lemma cons_no_pending c : cons_ok c -> (cons_e c =? cons_w c) = bool_decide (pending c = []).
Proof.
  intros H. pose proof (length_pending c) as Hl. pose proof (co_w _ H). pose proof (co_e _ H).
  case_bool_decide as E.
  - rewrite E in Hl. cbn [length] in Hl. unfold u32 in Hl. apply Z.eqb_eq. Z.div_mod_to_equations. lia.
  - apply Z.eqb_neq. intros E'. apply E, length_zero_iff_nil. rewrite E', Z.sub_diag in Hl. change (u32 0) with 0 in Hl. lia.
Qed.

Lemma cons_no_input c : cons_ok c -> (cons_r c =? cons_w c) = bool_decide (committed c = []).
Proof.
  intros H. pose proof (length_committed c) as Hl. pose proof (co_w _ H). pose proof (co_r _ H).
  case_bool_decide as E.
  - rewrite E in Hl. cbn [length] in Hl. unfold u32 in Hl. apply Z.eqb_eq. Z.div_mod_to_equations. lia.
  - apply Z.eqb_neq. intros E'. apply E, length_zero_iff_nil. rewrite E', Z.sub_diag in Hl. change (u32 0) with 0 in Hl. lia.
Qed.

(** [cons.buf[cons.e++ % INPUT_BUF_SIZE] = x] *)
Definition stored (x : Z) (c : console) : console :=
  cons_set_e (u32 (cons_e c + 1)) (cons_set_buf (<[Z.to_nat (cons_e c mod INPUT_BUF_SIZE) := x]> (cons_buf c)) c).

Section stored.
Context (c : console) (x : Z) (Hc : cons_ok c) (Hx : 0 <= x < 256).
Context (Hroom : Z.of_nat (length (committed c)) + Z.of_nat (length (pending c)) < INPUT_BUF_SIZE).

Lemma stored_len : u32 (cons_e (stored x c) - cons_w c) = u32 (cons_e c - cons_w c) + 1.
Proof using Hc Hroom. clear Hx.
  pose proof (co_w _ Hc). pose proof (co_e _ Hc). rewrite length_committed, length_pending in Hroom.
  pose proof (u32_nonneg (cons_w c - cons_r c)).
  unfold stored, u32, INPUT_BUF_SIZE in *; simpl. Z.div_mod_to_equations. lia.
Qed.

Lemma stored_committed : committed (stored x c) = committed c.
Proof using Hc Hroom. clear Hx.
  pose proof (co_len _ Hc). pose proof (u32_nonneg (cons_w c - cons_r c)). pose proof (u32_nonneg (cons_e c - cons_w c)).
  rewrite length_committed, length_pending in Hroom.
  apply ring_write_ne; [done|simpl; lia|]. simpl. intros i Hi E.
  unfold u32, INPUT_BUF_SIZE in *. Z.div_mod_to_equations. lia.
Qed.

Lemma stored_pending : pending (stored x c) = pending c ++ [x].
Proof using Hc Hroom. clear Hx.
  pose proof (u32_nonneg (cons_w c - cons_r c)). pose proof (u32_nonneg (cons_e c - cons_w c)).
  unfold pending. change (cons_w (stored x c)) with (cons_w c). rewrite stored_len.
  rewrite length_committed, length_pending in Hroom.
  rewrite <- ring_push by (lia || apply Hc). unfold stored; simpl. do 3 f_equal.
  unfold u32, INPUT_BUF_SIZE in *. Z.div_mod_to_equations. lia.
Qed.

Lemma stored_len_ok : u32 (cons_w c - cons_r c) + u32 (cons_e (stored x c) - cons_w c) <= INPUT_BUF_SIZE.
Proof using Hc Hroom. clear Hx. rewrite stored_len. rewrite length_committed, length_pending in Hroom. lia. Qed.

Lemma stored_ok : x <> 10 -> cons_ok (stored x c).
Proof using Hc Hx Hroom.
  intros Hne. split; try apply Hc; simpl.
  - rewrite length_insert. apply Hc.
  - apply Forall_insert; [apply Hc|lia].
  - apply Z.mod_pos_bound. lia.
  - apply stored_len_ok.
  - rewrite stored_pending. apply Forall_app. split; [apply Hc|by constructor].
Qed.

(** The line ends here: [cons.w = cons.e]. *)
Lemma commit_ok :
  let c' := cons_set_w (cons_e (stored x c)) (stored x c) in
  cons_ok c' /\ committed c' = committed c ++ pending c ++ [x] /\ pending c' = [].
Proof using Hc Hx Hroom.
  intros c'. assert (Ep : pending c' = []).
  { unfold pending, c'; simpl. rewrite Z.sub_diag. done. }
  pose proof stored_len_ok as Hl. pose proof (u32_nonneg (cons_w c - cons_r c)).
  pose proof (u32_nonneg (cons_e (stored x c) - cons_w c)).
  assert (Ew : u32 (cons_w c' - cons_r c') = u32 (cons_w c - cons_r c) + u32 (cons_e (stored x c) - cons_w c)).
  { change (u32 (cons_e (stored x c) - cons_r c) = u32 (cons_w c - cons_r c) + u32 (cons_e (stored x c) - cons_w c)).
    revert Hl. generalize (cons_e (stored x c)) as E. clear. intros E. unfold u32, INPUT_BUF_SIZE.
    Z.div_mod_to_equations. lia. }
  split_and!; [|rewrite <- stored_committed, <- stored_pending|done].
  - split; simpl; try apply Hc.
    + rewrite length_insert. apply Hc.
    + apply Forall_insert; [apply Hc|lia].
    + apply Z.mod_pos_bound. lia.
    + apply Z.mod_pos_bound. lia.
    + unfold c' in Ew. simpl in Ew. rewrite Ew, Z.sub_diag. change (u32 0) with 0. unfold stored in Hl; simpl in Hl. lia.
    + by rewrite Ep.
  - unfold committed at 1. rewrite Ew. rewrite ring_app by lia.
    f_equal. unfold pending. apply ring_mod; [done|]. simpl.
    unfold u32, INPUT_BUF_SIZE. Z.div_mod_to_equations. lia.
Qed.

End stored.

(** [cons.e--] *)
Lemma erase_ok c l x :
  cons_ok c -> pending c = l ++ [x] ->
  let c' := cons_set_e (u32 (cons_e c - 1)) c in
  cons_ok c' /\ committed c' = committed c /\ pending c' = l /\
  cons_buf c !! Z.to_nat (u32 (cons_e c - 1) mod INPUT_BUF_SIZE) = Some x.
Proof.
  intros Hc Hl c'. pose proof (length_pending c) as Hlen. rewrite Hl, length_app in Hlen. cbn [length] in Hlen.
  pose proof (co_len _ Hc). pose proof (co_e _ Hc). pose proof (co_w _ Hc).
  assert (El : u32 (cons_e c' - cons_w c') = u32 (cons_e c - cons_w c) - 1).
  { unfold c'; simpl. unfold u32 in *. Z.div_mod_to_equations. lia. }
  assert (Ea : pending c = pending c' ++ ring INPUT_BUF_SIZE (cons_buf c) (u32 (cons_e c - 1)) 1).
  { unfold pending at 1. replace (u32 (cons_e c - cons_w c)) with (u32 (cons_e c' - cons_w c') + 1) by lia.
    rewrite ring_app by lia. unfold pending. f_equal. apply ring_mod; [done|]. simpl.
    unfold u32, INPUT_BUF_SIZE in *. Z.div_mod_to_equations. lia. }
  rewrite Hl in Ea. change (ring ?n ?d ?f 1) with [default 0 (d !! Z.to_nat ((f + 0) mod n))] in Ea.
  apply app_inj_tail in Ea as [Ep Ex]. rewrite Z.add_0_r in Ex.
  destruct (ring_byte INPUT_BUF_SIZE eq_refl _ _ (u32 (cons_e c - 1)) (co_buf _ Hc) (co_bytes _ Hc)) as (y & Hy & _).
  split_and!; [|done|done|rewrite Hy in *; simpl in Ex; by subst y].
  split; simpl; try apply Hc.
  - apply Z.mod_pos_bound. lia.
  - unfold c' in El. simpl in El. rewrite El. lia.
  - rewrite <- Ep. pose proof (co_line _ Hc) as HF. rewrite Hl in HF. by apply Forall_app in HF as [? _].
Qed.

(** ** The interrupt handler *)

(** What a key does to the input and to the line. *)
Definition key (c : Z) : Z := if c =? 13 then 10 else c.
Definition takes (c : Z) (q p : list Z) : bool :=
  negb (c =? 0) && (Z.of_nat (length q) + Z.of_nat (length p) <? INPUT_BUF_SIZE).
Definition ends_line (c : Z) (q p : list Z) : bool :=
  (key c =? 10) || (key c =? 4) || (Z.of_nat (length q) + Z.of_nat (length p) + 1 =? INPUT_BUF_SIZE).
Definition erases (c : Z) : bool := (c =? 8) || (c =? 127).

Definition typed (c : Z) (q p : list Z) : list Z * list Z :=
  if c =? 16 then (q, p)
  else if c =? 21 then (q, [])
  else if erases c then (q, removelast p)
  else if takes c q p then
    if ends_line c q p then (q ++ p ++ [key c], []) else (q, p ++ [key c])
  else (q, p).

Definition rub : list Z := [8; 32; 8].
Definition echoed (c : Z) (q p : list Z) : list Z :=
  if c =? 21 then concat (replicate (length p) rub)
  else if erases c then (if bool_decide (p = []) then [] else rub)
  else if takes c q p then [key c] else [].

(** Whether readers are woken. *)
Definition wakes (c : Z) (q p : list Z) : bool :=
  negb (c =? 16) && negb (c =? 21) && negb (erases c) && takes c q p && ends_line c q p.

(** The console and the bytes sent are all that changed. *)
Definition cons_step (s s' : kst) (c' : console) (ws : list Z) : Prop :=
  exists u, s' = set_dev (d_set_cons c' (d_set_uart u (k_dev s))) s /\
    u_writes u = u_writes (d_uart (k_dev s)) ++ ((fun x => (THR, x)) <$> ws).

Lemma cons_step_refl s : cons_step s s (d_cons (k_dev s)) [].
Proof. exists (d_uart (k_dev s)). rewrite app_nil_r. by destruct s as [? ? ? ? ? ? [] ?]. Qed.

Lemma cons_step_sent ws s : cons_step s (sent ws s) (d_cons (k_dev s)) ws.
Proof.
  destruct (k_dev_sent ws s) as (u & _ & E & Hu). exists u. rewrite E. split; [|done].
  by destruct s as [? ? ? ? ? ? [] ?].
Qed.

Lemma cons_step_upd f s s' c ws :
  cons_step s s' c ws -> cons_step s (set_dev (d_set_cons (f c) (k_dev s')) s') (f c) ws.
Proof. intros (u & -> & Hu). exists u. by split. Qed.

Lemma cons_step_trans s s' s'' c c' ws ws' :
  cons_step s s' c ws -> cons_step s' s'' c' ws' -> cons_step s s'' c' (ws ++ ws').
Proof.
  intros (u & -> & Hu) (u' & -> & Hu'). exists u'. split; [done|]. rewrite Hu'. simpl. by rewrite Hu, fmap_app, app_assoc.
Qed.

Lemma cons_step_cons s s' c ws : cons_step s s' c ws -> d_cons (k_dev s') = c.
Proof. by intros (u & -> & _). Qed.
Lemma cons_step_hw s s' c ws : cons_step s s' c ws -> k_hw s' = k_hw s.
Proof. by intros (u & -> & _). Qed.
Lemma cons_step_panicked s s' c ws : cons_step s s' c ws -> d_panicked (k_dev s') = d_panicked (k_dev s).
Proof. by intros (u & -> & _). Qed.
Lemma cons_step_thread me s s' c ws : cons_step s s' c ws -> kthread me s -> kthread me s'.
Proof. intros (u & -> & _) [A B C D]. by split. Qed.

Lemma upd_cons_run f e s : upd_cons f e s = Ok tt e (set_dev (d_set_cons (f (d_cons (k_dev s))) (k_dev s)) s).
Proof. done. Qed.

(** One character erased, with its echo. *)
Lemma rub_run e s l x :
  hart_ok (k_hw s) -> d_panicked (k_dev s) = 0 -> cons_ok (d_cons (k_dev s)) -> pending (d_cons (k_dev s)) = l ++ [x] ->
  exists s' c', (upd_cons (fun c => cons_set_e (u32 (cons_e c - 1)) c) ;; consputc BACKSPACE) e s = Ok tt e s' /\
    cons_step s s' c' rub /\ cons_ok c' /\ committed c' = committed (d_cons (k_dev s)) /\ pending c' = l.
Proof.
  intros Hh Hp Hc Hl. destruct (erase_ok _ _ _ Hc Hl) as (H1 & H2 & H3 & _).
  eexists _, _. split_and!; [|exact (cons_step_trans _ _ _ _ _ [] _ (cons_step_upd (fun c => cons_set_e (u32 (cons_e c - 1)) c) _ _ _ _ (cons_step_refl s)) (cons_step_sent rub _))|done..].
  erewrite bind_run by apply upd_cons_run. by rewrite consputc_run.
Qed.

Lemma consoleintr_kill_run fuel e s :
  hart_ok (k_hw s) -> d_panicked (k_dev s) = 0 -> cons_ok (d_cons (k_dev s)) ->
  (length (pending (d_cons (k_dev s))) < fuel)%nat ->
  exists s' c', consoleintr_kill fuel e s = Ok tt e s' /\
    cons_step s s' c' (concat (replicate (length (pending (d_cons (k_dev s)))) rub)) /\
    cons_ok c' /\ committed c' = committed (d_cons (k_dev s)) /\ pending c' = [].
Proof.
  revert s. induction fuel as [|fuel IH]; intros s Hh Hp Hc Hf; [lia|].
  cbn [consoleintr_kill]. unfold get_cons. erewrite bind_run by reflexivity.
  rewrite cons_no_pending by done. case_bool_decide as E.
  { exists s, (d_cons (k_dev s)). rewrite E. split_and!; [done|apply cons_step_refl|done..]. }
  destruct (pending (d_cons (k_dev s))) as [|y l0] eqn:El using rev_ind; [done|]. clear IHl0 E.
  pose proof (co_line _ Hc) as HF. rewrite El in HF. apply Forall_app in HF as [_ Hy%Forall_inv].
  destruct (erase_ok _ _ _ Hc El) as (_ & _ & _ & Hx).
  erewrite bind_run by (rewrite Hx; reflexivity). replace (y =? 10) with false by lia.
  destruct (rub_run e s _ _ Hh Hp Hc El) as (s1 & c1 & R1 & R2 & R3 & R4 & R5).
  pose proof (cons_step_cons _ _ _ _ R2) as Ec. subst c1.
  destruct (IH s1) as (s2 & c2 & I1 & I2 & I3 & I4 & I5);
    [by erewrite cons_step_hw|by erewrite cons_step_panicked|done|rewrite R5; rewrite length_app in Hf; simpl in Hf; lia|].
  exists s2, c2. split_and!; [|rewrite R5 in I2|done|congruence|done].
  - rewrite <- bind_assoc_run. by erewrite bind_run by exact R1.
  - rewrite length_app. simpl. rewrite Nat.add_comm. by eapply cons_step_trans.
Qed.

(** The state after the handler: the console changed, and readers woken or not. *)
Definition cons_end (me : option nat) (w : bool) (s s' : kst) : kst :=
  if w then woken me (Some C_cons_r) s' else s'.

Lemma cons_end_cons me w s s' : d_cons (k_dev (cons_end me w s s')) = d_cons (k_dev s').
Proof. by destruct w. Qed.

(** The default case of the switch: a character for the line. *)
Lemma consoleintr_default_run me c e s :
  kthread me s -> d_panicked (k_dev s) = 0 -> cons_ok (d_cons (k_dev s)) -> 0 <= c < 256 ->
  let q := committed (d_cons (k_dev s)) in let p := pending (d_cons (k_dev s)) in
  takes c q p = true ->
  exists s' c', consoleintr_default c e s = Ok tt e (cons_end me (ends_line c q p) s s') /\
    cons_step s s' c' [key c] /\ cons_ok c' /\
    (committed c', pending c') = if ends_line c q p then (q ++ p ++ [key c], []) else (q, p ++ [key c]).
Proof.
  intros Hk Hp Hc Hb q p Ht. unfold consoleintr_default, get_cons. erewrite bind_run by reflexivity.
  rewrite cons_used by done. fold q p (takes c q p). rewrite Ht. unfold when at 1.
  change (if c =? 13 then 10 else c) with (key c).
  assert (Hkey : 0 <= key c < 256) by (unfold key; destruct (c =? 13); lia).
  assert (Hroom : Z.of_nat (length q) + Z.of_nat (length p) < INPUT_BUF_SIZE) by (unfold takes in Ht; lia).
  erewrite bind_run by (apply consputc_run; [apply Hk|done]).
  assert (Hecho : echo_of (key c) = [key c]).
  { unfold echo_of, BACKSPACE. replace (key c =? 256) with false by lia. by rewrite u8_small. }
  rewrite Hecho.
  pose proof (cons_step_sent [key c] s) as S0. set (s0 := sent [key c] s) in *.
  do 2 erewrite bind_run by apply upd_cons_run. rewrite u8_small by done.
  pose proof (cons_step_cons _ _ _ _ S0) as E0.
  pose proof (cons_step_upd (stored (key c)) _ _ _ _ S0) as S1. rewrite <- E0 in S1.
  set (s1 := set_dev _ _) in S1.
  match goal with |- context [(_ ≫= _) e ?t] => change t with s1 end.
  unfold get_cons. erewrite bind_run by reflexivity.
  change (d_cons (k_dev s1)) with (stored (key c) (d_cons (k_dev s0))). rewrite E0.
  assert (Hused : u32 (cons_e (stored (key c) (d_cons (k_dev s))) - cons_r (d_cons (k_dev s))) =
    Z.of_nat (length q) + Z.of_nat (length p) + 1).
  { pose proof (stored_len_ok _ (key c) Hc Hroom) as Hl. rewrite stored_len in Hl by done.
    pose proof (cons_used _ Hc) as Hu. fold q p in Hu. pose proof (co_e _ Hc). pose proof (co_r _ Hc).
    unfold stored, u32, INPUT_BUF_SIZE in *; simpl in *. Z.div_mod_to_equations. lia. }
  change (cons_r (stored (key c) (d_cons (k_dev s)))) with (cons_r (d_cons (k_dev s))). rewrite Hused.
  fold (ends_line c q p). rewrite E0 in S1.
  destruct (ends_line c q p) eqn:El; unfold when, cons_end.
  - destruct (commit_ok _ _ Hc Hkey Hroom) as (C1 & C2 & C3).
    pose proof (cons_step_upd (fun c => cons_set_w (cons_e c) c) _ _ _ _ S1) as S2.
    eexists _, _. split_and!; [|exact S2|done|cbv beta; by rewrite C2, C3].
    erewrite bind_run by apply upd_cons_run. erewrite wakeup_run; [|by eapply cons_step_thread].
    done.
  - exists s1, (stored (key c) (d_cons (k_dev s))). split_and!; [done|done| |].
    + apply stored_ok; try done. unfold ends_line in El. lia.
    + by rewrite stored_committed, stored_pending.
Qed.

Lemma removelast_snoc (l : list Z) x : removelast (l ++ [x]) = l.
Proof. apply removelast_last. Qed.

Lemma consoleintr_switch_run me c e s :
  kthread me s -> lock_free L_pr (k_hw s) -> d_panicked (k_dev s) = 0 -> cons_ok (d_cons (k_dev s)) -> 0 <= c < 256 ->
  let q := committed (d_cons (k_dev s)) in let p := pending (d_cons (k_dev s)) in
  exists s' c' ws, consoleintr_switch c e s = Ok tt e (cons_end me (wakes c q p) s s') /\
    cons_step s s' c' ws /\ cons_ok c' /\
    (committed c', pending c') = typed c q p /\ (c <> 16 -> ws = echoed c q p).
Proof.
  intros Hk Hlp Hp Hc Hb q p. unfold consoleintr_switch.
  unfold typed, echoed, wakes.
  destruct (Z.eqb_spec c 16) as [->|H16].
  { destruct (procdump_run me e s) as [ws E]; [done|done|done|].
    exists (sent ws s), (d_cons (k_dev s)), ws. rewrite E. split_and!; [done|apply cons_step_sent|done..]. }
  destruct (Z.eqb_spec c 21) as [->|H21].
  { destruct (consoleintr_kill_run (S (Z.to_nat INPUT_BUF_SIZE)) e s) as (s' & c' & K1 & K2 & K3 & K4 & K5);
      [apply Hk|done|done| |].
    { pose proof (length_pending (d_cons (k_dev s))). pose proof (co_len _ Hc).
      pose proof (u32_nonneg (cons_w (d_cons (k_dev s)) - cons_r (d_cons (k_dev s)))).
      unfold INPUT_BUF_SIZE in *. lia. }
    eexists s', c', _. split_and!; [exact K1|exact K2|done|by rewrite K4, K5|done]. }
  fold (erases c). destruct (erases c) eqn:Er.
  { unfold get_cons. erewrite bind_run by reflexivity. rewrite cons_no_pending by done.
    fold p. case_bool_decide as E; cbn [negb]; unfold when.
    - exists s, (d_cons (k_dev s)), []. split_and!; [done|apply cons_step_refl|done| |done].
      fold p q. by rewrite E.
    - destruct p as [|x l _] eqn:El using rev_ind; [done|].
      destruct (rub_run e s l x) as (s' & c' & K1 & K2 & K3 & K4 & K5); [apply Hk|done|done|done|].
      exists s', c', rub. split_and!; [exact K1|done|done|by rewrite K4, K5, removelast_snoc|done]. }
  destruct (takes c q p) eqn:Et.
  - destruct (consoleintr_default_run me c e s) as (s' & c' & K1 & K2 & K3 & K4); [done..|].
    exists s', c', [key c]. split_and!; [exact K1|done|done|exact K4|done].
  - exists s, (d_cons (k_dev s)), []. split_and!; [|apply cons_step_refl|done..].
    unfold consoleintr_default, get_cons. erewrite bind_run by reflexivity.
    rewrite cons_used by done. fold q p (takes c q p). by rewrite Et.
Qed.

(** C35: The console's line discipline. The handler for an input byte keeps the
    input buffer well formed and does to the committed input and to the line
    being edited what the key means: erase a character, kill the line, append a
    character, or, on newline, control-D or a full buffer, commit the line and
    wake the readers. Committed input is never lost or changed, a full buffer
    drops keys, and each change is echoed. Nothing else changes; control-P only
    prints. *)
Theorem consoleintr_correct me c e s :
  kthread me s -> lock_free L_cons (k_hw s) -> lock_free L_pr (k_hw s) -> d_panicked (k_dev s) = 0 ->
  cons_ok (d_cons (k_dev s)) -> 0 <= c < 256 ->
  let q := committed (d_cons (k_dev s)) in let p := pending (d_cons (k_dev s)) in
  exists s' c' ws, consoleintr c e s = Ok tt e (cons_end me (wakes c q p) s s') /\
    cons_step s s' c' ws /\ cons_ok c' /\
    (committed c', pending c') = typed c q p /\ (c <> 16 -> ws = echoed c q p).
Proof.
  intros Hk Hl Hlp Hp Hc Hb q p.
  destruct (consoleintr_switch_run me c e (set_hw (acq L_cons (k_hw s)) s))
    as (s' & c' & ws & R1 & (u & -> & Hu) & R3 & R4 & R5); [by apply kthread_acq|by apply lock_free_acq|done..|].
  exists (set_dev (d_set_cons c' (d_set_uart u (k_dev s))) s), c', ws.
  split_and!; [|by exists u|done..]. unfold consoleintr.
  erewrite bind_run by (by apply acquire_run; [apply Hk|]). erewrite bind_run by exact R1.
  rewrite (release_run _ _ _ (k_hw s)); [|apply Hk|done|by destruct (wakes c _ _)].
  change (k_dev (set_hw (acq L_cons (k_hw s)) s)) with (k_dev s). fold q p.
  f_equal. unfold cons_end. destruct (wakes c q p); by destruct s.
Qed.

(** ** Reading *)

(** What a read of [n] bytes takes from the committed input [q]: the bytes it
    delivers and the input left. It stops after a newline, and at control-D,
    which it consumes only when it has delivered nothing; it waits ([None]) when
    the input runs out first. *)
Fixpoint cread (n : nat) (first : bool) (q : list Z) : option (list Z * list Z) :=
  match n with
  | O => Some ([], q)
  | S n =>
    match q with
    | [] => None
    | c :: q' =>
      if c =? 4 then Some ([], if first then q' else q)
      else if c =? 10 then Some ([c], q')
      else r ← cread n false q'; Some (c :: r.1, r.2)
    end
  end.

Lemma cread_length n f q bs rest : cread n f q = Some (bs, rest) -> (length bs <= n)%nat.
Proof.
  revert f q bs rest. induction n as [|n IH]; intros f q bs rest Hr; cbn [cread] in Hr; [by injection Hr as <- _|].
  destruct q as [|c q]; [done|]. destruct (c =? 4); [injection Hr as <- _; simpl; lia|].
  destruct (c =? 10); [injection Hr as <- _; simpl; lia|].
  destruct (cread n false q) as [[b1 r1]|] eqn:E; [|done]. injection Hr as <- _.
  specialize (IH _ _ _ _ E). simpl in *. lia.
Qed.

Lemma take_input c x q :
  cons_ok c -> committed c = x :: q ->
  let c' := cons_set_r (u32 (cons_r c + 1)) c in
  cons_ok c' /\ committed c' = q /\ pending c' = pending c /\ 0 <= x < 256 /\
  cons_buf c !! Z.to_nat (cons_r c mod INPUT_BUF_SIZE) = Some x /\ cons_set_r (u32 (cons_r c' - 1)) c' = c.
Proof.
  intros Hc Hq c'. pose proof (length_committed c) as Hl. rewrite Hq in Hl. cbn [length] in Hl.
  pose proof (co_r _ Hc). pose proof (co_w _ Hc). pose proof (co_len _ Hc).
  assert (Hlen : u32 (cons_w c' - cons_r c') = u32 (cons_w c - cons_r c) - 1).
  { unfold c'; simpl. unfold u32, INPUT_BUF_SIZE in *. Z.div_mod_to_equations. lia. }
  destruct (ring_byte INPUT_BUF_SIZE eq_refl _ _ (cons_r c) (co_buf _ Hc) (co_bytes _ Hc)) as (y & Hy & Hb).
  apply ring_cons in Hq as [Hx Hq]; [|lia]. rewrite Hy in *. simpl in Hx. subst y. split_and!; try done; try lia.
  - split; simpl; try apply Hc; [apply Z.mod_pos_bound; lia|].
    unfold c' in Hlen; simpl in Hlen. lia.
  - unfold committed. rewrite Hlen, <- Hq. apply ring_mod; [done|]. simpl.
    unfold u32, INPUT_BUF_SIZE. Z.div_mod_to_equations. lia.
  - destruct c as [b r w ed]; simpl in *. unfold c', cons_set_r; simpl. f_equal.
    unfold u32. Z.div_mod_to_equations. lia.
Qed.

Section read.
Context (me : nat) (root : Z) (T : ptree) (h : hw).
Notation uctx := (uctx me L_cons root T h).
Notation locked := (locked L_cons h).
Notation sees := (sees T).

Lemma consoleread_loop_wp m n target addr e s bs rest (Q : option Z -> env -> kst -> Prop) :
  uctx s -> locked s -> sees m s -> cons_ok (d_cons (k_dev s)) -> Z.of_nat n <= target ->
  0 <= addr -> addr + Z.of_nat n < 2 ^ 64 ->
  cread n (Z.of_nat n =? target) (committed (d_cons (k_dev s))) = Some (bs, rest) ->
  (forall i, 0 <= i < Z.of_nat (length bs) -> is_Some (uload m T (addr + i))) ->
  (forall m' s', uctx s' -> locked s' -> sees m' s' -> cons_ok (d_cons (k_dev s')) ->
     committed (d_cons (k_dev s')) = rest -> pending (d_cons (k_dev s')) = pending (d_cons (k_dev s)) ->
     written m T m' addr bs (Z.of_nat (length bs)) -> Q (Some (Z.of_nat n - Z.of_nat (length bs))) e s') ->
  wp (consoleread_loop n (D_user addr) target) e s Q.
Proof.
  revert m addr s bs. induction n as [|n IH]; intros m addr s bs Hu Hl Hs Hc Ht Ha Hmax Hr Hmap HQ.
  { injection Hr as <- <-. apply wp_ret. apply (HQ m); try done. apply written_nil. }
  cbn [consoleread_loop cread] in *. destruct (committed (d_cons (k_dev s))) as [|c q] eqn:Eq; [done|].
  destruct (take_input _ _ _ Hc Eq) as (T1 & T2 & T3 & T4 & T5 & T6).
  apply wp_bind. unfold sleeping. cbn [consoleread_wait]. apply wp_bind, wp_gets.
  rewrite cons_no_input, Eq by done. cbn [bool_decide]. rewrite bool_decide_eq_false_2 by done. apply wp_ret. cbn [negb]. cbv iota.
  apply wp_bind, wp_gets. apply wp_bind. rewrite T5. apply wp_ret.
  apply wp_seq. eapply wp_run; [apply upd_cons_run|].
  set (s1 := set_dev _ s). assert (Hu1 : uctx s1) by (by apply uctx_dev).
  destruct (Z.eqb_spec c 4) as [->|Hc4].
  { change (4 =? 4) with true in Hr. cbv iota in Hr.
    destruct (Z.eqb_spec (Z.of_nat (S n)) target) as [E|E]; injection Hr as <- <-.
    - replace (Z.of_nat (S n) <? target) with false by bool_lia. apply wp_seq, wp_ret, wp_ret.
      rewrite <- (Z.sub_0_r (Z.of_nat (S n))). apply (HQ m); try done. apply written_nil.
    - replace (Z.of_nat (S n) <? target) with true by bool_lia. apply wp_seq. eapply wp_run; [apply upd_cons_run|].
      apply wp_ret. rewrite <- (Z.sub_0_r (Z.of_nat (S n))).
      set (s2 := set_dev _ s1). assert (Es : d_cons (k_dev s2) = d_cons (k_dev s)) by exact T6.
      apply (HQ m); rewrite ?Es; try done; [by apply uctx_dev|apply written_nil]. }
  apply wp_bind. unfold either_copyout.
  apply wp_bind. eapply wp_run; [by eapply kthread_myproc, uctx_kthread|].
  destruct (uc_me _ Hu) as (pr & Hme & _ & Hroot). apply wp_bind, wp_ret.
  apply wp_bind. eapply wp_run; [by apply get_proc_run|]. rewrite Hroot.
  replace (c =? 4) with false in Hr by lia.
  assert (Hfst : exists tl, bs = c :: tl).
  { destruct (c =? 10); [injection Hr as <- <-; eauto|]. destruct (cread n false q) as [[]|]; [|done].
    injection Hr as <- <-. eauto. }
  destruct Hfst as [tl ->].
  destruct (Hmap 0) as [b Hb]; [cbn [length]; lia|]. rewrite Z.add_0_r in Hb.
  eapply (copyout1_wp me L_cons root T h m addr c e s1); try done; [lia|].
  intros r m1 ph1 Hu2 Hs2 [[-> Hw]|(_ & Hn & _)]; [|congruence]. change (0 =? -1) with false. cbv iota.
  destruct (Z.eqb_spec c 10) as [->|Hc10].
  { injection Hr as <- <-. apply wp_ret. replace (Z.of_nat n) with (Z.of_nat (S n) - Z.of_nat (length [10])) by (simpl; lia).
    by apply (HQ m1). }
  destruct (cread n false q) as [[bs1 rest1]|] eqn:Er; [|done]. injection Hr as <- <-.
  cbn [dst_add]. cbn [length] in Hmap. rewrite u64_small by lia.
  eapply (IH m1 (addr + 1) (set_phys ph1 s1) bs1); try done; try lia.
  - change (d_cons (k_dev (set_phys ph1 s1))) with (cons_set_r (u32 (cons_r (d_cons (k_dev s)) + 1)) (d_cons (k_dev s))).
    rewrite T2. by replace (Z.of_nat n =? target) with false by lia.
  - intros i Hi. rewrite Hw by lia. replace (addr + 1 + i <? addr + 1) with false by lia. rewrite andb_false_r.
    replace (addr + 1 + i) with (addr + (i + 1)) by lia. apply Hmap. lia.
  - intros m' s' U1 U2 U3 U4 U5 U6 U7.
    replace (Z.of_nat n - Z.of_nat (length bs1)) with (Z.of_nat (S n) - Z.of_nat (length (c :: bs1))) by (cbn [length]; lia).
    apply (HQ m'); try done. by eapply written_cons.
Qed.
End read.

Lemma bind_block {A B} (m : K A) (k : A -> K B) e s : m e s = Block -> (x ← m; k x) e s = Block.
Proof. unfold mbind, K_bind. by intros ->. Qed.

(** [consoleread] gives the user committed input up to the end of the line:
    when the input holds a newline, a control-D or [n] bytes, it returns the
    bytes before that, the newline included, written at [dst], and leaves the
    rest of the input and the line being edited as they were; control-D reads
    as end of file (0 bytes) exactly once. With no input it sleeps. *)
Theorem consoleread_correct me root T addr n e s :
  uctx me L_cons root T (k_hw s) s -> cons_ok (d_cons (k_dev s)) -> 0 <= addr -> 0 <= n < 2 ^ 31 -> addr + n < 2 ^ 64 ->
  (forall bs rest, cread (Z.to_nat n) true (committed (d_cons (k_dev s))) = Some (bs, rest) ->
   (forall i, 0 <= i < Z.of_nat (length bs) -> is_Some (uload (ph_mem (k_phys s)) T (addr + i))) ->
   wp (consoleread (D_user addr) n) e s (fun r e' s' =>
     r = Z.of_nat (length bs) /\ e' = e /\
     cons_ok (d_cons (k_dev s')) /\ committed (d_cons (k_dev s')) = rest /\
     pending (d_cons (k_dev s')) = pending (d_cons (k_dev s)) /\
     written (ph_mem (k_phys s)) T (ph_mem (k_phys s')) addr bs (Z.of_nat (length bs)) /\
     uctx me L_cons root T (k_hw s) s' /\ k_hw s' = k_hw s)) /\
  (committed (d_cons (k_dev s)) = [] -> 0 < n -> consoleread (D_user addr) n [] s = Block).
Proof.
  intros Hu Hc Ha Hn Hmax. assert (Hk : kthread (Some me) s) by (pose proof (uc_thread _ Hu); by destruct s).
  assert (Hu1 : uctx me L_cons root T (k_hw s) (set_hw (acq L_cons (k_hw s)) s)) by (by apply uctx_hw).
  split.
  - intros bs rest Hr Hmap. unfold consoleread. rewrite u32_small by lia.
    apply wp_seq. eapply wp_run; [apply acquire_run; [apply Hk|apply Hu]|].
    apply wp_bind. eapply (consoleread_loop_wp me root T (k_hw s) (ph_mem (k_phys s)) _ n addr e _ bs rest); try done; try lia.
    { simpl. rewrite Z2Nat.id by lia. by rewrite Z.eqb_refl. }
    intros m' s' U1 U2 U3 U4 U5 U6 U7. apply wp_seq. eapply wp_run; [by eapply release_lk_run|]. apply wp_ret.
    pose proof (cread_length _ _ _ _ _ Hr) as Hb.
    split_and!; try done; [|by intros v Hv; rewrite <- U7, <- U3|by apply uctx_hw].
    rewrite Z2Nat.id by lia. destruct (Z.leb_spec n 0); rewrite i32_small by lia; lia.
  - intros Hq Hpos. unfold consoleread. erewrite bind_run by (apply acquire_run; [apply Hk|apply Hu]).
    destruct (Z.to_nat n) as [|k] eqn:En; [lia|]. cbn [consoleread_loop]. unfold sleeping.
    apply bind_block, bind_block. cbn [length consoleread_wait]. unfold get_cons. erewrite bind_run by reflexivity.
    rewrite cons_no_input by done. change (d_cons (k_dev (set_hw _ s))) with (d_cons (k_dev s)).
    rewrite bool_decide_eq_true_2 by done. erewrite bind_run by (by eapply curproc_run, uctx_kthread).
    erewrite bind_run by (by eapply killed_run). change (negb (0 =? 0)) with false. cbv iota.
    apply bind_block. eapply (sleep_blocks me _ _ _ (k_hw s)); try done; try apply Hu1. by eapply uctx_lt.
Qed.

(** ** Witnesses *)

(** Process 0 runs; "ab" was typed and not committed. *)
Definition cons_ex : console := Console ([97; 98] ++ replicate 126 0) 0 0 2.
Definition kst_cons (c : console) : kst :=
  set_dev (d_set_cons c devs0) (kst_with (more_locks [L_cons; L_pr])).

Lemma uctx_cons c : uctx 0 L_cons (pgn 1) T_vm (k_hw (kst_cons c)) (kst_cons c).
Proof. apply uctx_dev, uctx_ex; set_solver. Qed.

Lemma kthread_cons c : kthread (Some 0%nat) (kst_cons c).
Proof. exact (uc_thread _ (uctx_cons c)). Qed.

Lemma cons_ok_ex w : w = 0 \/ w = 2 -> cons_ok (Console ([97; 98] ++ replicate 126 0) 0 w 2).
Proof.
  intros Hw. split; try (destruct Hw as [->| ->]; done).
  - change (bytes_ok ([97; 98] ++ replicate 126 0)). apply Forall_app.
    split; [repeat constructor; done|by apply Forall_replicate].
  - destruct Hw as [->| ->]; vm_compute; by repeat constructor.
Qed.

(** Typing newline commits the line. *)
Lemma consoleintr_correct_witness :
  exists s', consoleintr 10 [] (kst_cons cons_ex) = Ok tt [] s' /\
    committed (d_cons (k_dev s')) = [97; 98; 10] /\ pending (d_cons (k_dev s')) = [].
Proof.
  destruct (consoleintr_correct (Some 0%nat) 10 [] (kst_cons cons_ex) (kthread_cons _)
    ltac:(exists "lock"%string; done) ltac:(exists "lock"%string; done) eq_refl (cons_ok_ex 0 ltac:(by left)) ltac:(lia))
    as (s' & c' & ws & H1 & (u & -> & _) & _ & H4 & _).
  eexists. split; [exact H1|]. rewrite cons_end_cons. cbn [k_dev set_dev d_cons d_set_cons].
  injection H4 as E1 E2. split; [exact E1|exact E2].
Defined.

(** Two of two bytes. *)
Lemma consoleread_correct_witness :
  wp (consoleread (D_user 8) 2) [] (kst_cons (Console ([97; 98] ++ replicate 126 0) 0 2 2))
    (fun r _ s' => r = 2 /\ committed (d_cons (k_dev s')) = []).
Proof.
  eapply wp_mono.
  - apply (proj1 (consoleread_correct 0 (pgn 1) T_vm 8 2 [] _ (uctx_cons _) (cons_ok_ex 2 ltac:(by right))
      ltac:(lia) ltac:(lia) ltac:(lia)) [97; 98] []); [done|].
    intros i Hi. simpl in Hi. destruct (uload_ex (8 + i)) as [b Hb]; [lia|]. exists b. exact Hb.
  - intros r e' s' (H1 & _ & _ & H2 & _). split; [exact H1|exact H2].
Defined.
