(* ===== verification/VirtioSpec.v ===== *)
(** The disk driver with a device: a request goes through the descriptor table
    and the two rings to the device, the interrupt handler completes it, and the
    process that slept for it returns with the block transferred and every
    descriptor free again. *)

From S2P Require Import Prelude Machine KState Spinlock KString Kalloc Vm VmSpec VmUser VmSpace Proc ProcSpec ProcMem Sleeplock Bio BioList Ring SleepSpec UserSpec Console Virtio.

(** ** The driver's memory *)

Definition disk_of (s : kst) : disk := d_disk (k_dev s).
Definition on_disk (f : disk -> disk) (s : kst) : kst := set_dev (d_set_disk (f (disk_of s)) (k_dev s)) s.

Lemma set_desc_run i x e s : (i < length (dk_desc (disk_of s)))%nat ->
  set_desc i x e s = Ok tt e (on_disk (fun d => dk_set_desc (<[i := x]> (dk_desc d)) d) s).
Proof.
  intros [y Hy]%lookup_lt_is_Some_2. unfold set_desc, get_disk, get_dev. krun. unfold disk_of in Hy. by rewrite Hy.
Qed.

Lemma set_free_run i x e s : (i < length (dk_free (disk_of s)))%nat ->
  set_free i x e s = Ok tt e (on_disk (fun d => dk_set_free (<[i := x]> (dk_free d)) d) s).
Proof.
  intros [y Hy]%lookup_lt_is_Some_2. unfold set_free, get_disk, get_dev. krun. unfold disk_of in Hy. by rewrite Hy.
Qed.

Lemma set_op_run i x e s : (i < length (dk_ops (disk_of s)))%nat ->
  set_op i x e s = Ok tt e (on_disk (fun d => dk_set_ops (<[i := x]> (dk_ops d)) d) s).
Proof.
  intros [y Hy]%lookup_lt_is_Some_2. unfold set_op, get_disk, get_dev. krun. unfold disk_of in Hy. by rewrite Hy.
Qed.

Lemma set_info_run i f e s y : dk_info (disk_of s) !! i = Some y ->
  set_info i f e s = Ok tt e (on_disk (fun d => dk_set_info (<[i := f y]> (dk_info d)) d) s).
Proof. intros Hy. unfold set_info, get_disk, get_dev. krun. unfold disk_of in Hy. by rewrite Hy. Qed.

Lemma on_disk_on_disk f g s : on_disk f (on_disk g s) = on_disk (fun d => f (g d)) s.
Proof. done. Qed.

Lemma on_disk_set f h F d e s :
  on_disk f (set_hw h (set_fs F (set_dev (d_set_disk d e) s))) = set_hw h (set_fs F (set_dev (d_set_disk (f d) e) s)).
Proof. done. Qed.

Lemma set_hw_back h F d s : set_hw (k_hw s) (set_hw h (set_fs F (set_dev d s))) = set_fs F (set_dev d s).
Proof. done. Qed.

(** No request is outstanding and every descriptor is free. *)
Record idle (d : disk) : Prop := {
  id_desc : length (dk_desc d) = 8%nat;
  id_avail : length (dk_avail_ring d) = 8%nat;
  id_used : length (dk_used_ring d) = 8%nat;
  id_info : length (dk_info d) = 8%nat;
  id_ops : length (dk_ops d) = 8%nat;
  id_free : dk_free d = replicate 8 1;
  id_idx : 0 <= dk_used_idx d < 65536;
  id_seen : dk_seen d = dk_used_idx d;
  id_served : dk_avail_idx d = dk_used_idx d }.

(** ** A request *)

Definition req_type (write : bool) : Z := if write then VIRTIO_BLK_T_OUT else VIRTIO_BLK_T_IN.
Definition data_flags (write : bool) : Z := Z.lor (if write then 0 else VRING_DESC_F_WRITE) VRING_DESC_F_NEXT.

(** The disk after a request for buffer [b] was put on the available ring. *)
Definition requested (b : nat) (write : bool) (sector : Z) (d : disk) : disk :=
  Disk (dk_pages d)
    (<[2%nat := VirtqDesc (DMA_status 0) 1 VRING_DESC_F_WRITE 0]>
      (<[1%nat := VirtqDesc (DMA_data b) BSIZE (data_flags write) 2]>
        (<[0%nat := VirtqDesc (DMA_op 0) sizeof_virtio_blk_req VRING_DESC_F_NEXT 1]> (dk_desc d))))
    (u16 (dk_avail_idx d + 1)) (<[Z.to_nat (dk_avail_idx d mod NUM) := 0]> (dk_avail_ring d))
    (dk_used_idx d) (dk_used_ring d) ([0; 0; 0] ++ replicate 5 1) (dk_seen d)
    (<[0%nat := (Some b, 0xff)]> (dk_info d))
    (<[0%nat := VirtioBlkReq (req_type write) 0 sector]> (dk_ops d)).

Lemma alloc3_idle_run e s : dk_free (disk_of s) = replicate 8 1 ->
  alloc3_desc e s = Ok (Some [0; 1; 2]) e (on_disk (dk_set_free ([0; 0; 0] ++ replicate 5 1)) s).
Proof.
  intros Hf. destruct s as [ly h ph ps fs vf [cn u dsw [pg de ai ar ui ur fr sn inf ops] cr rg cl st pn lk ft] out].
  unfold disk_of in Hf; simpl in Hf. subst fr. reflexivity.
Qed.

Lemma format_request_run b write sector e s : 
  (3 <= length (dk_desc (disk_of s)))%nat -> (1 <= length (dk_ops (disk_of s)))%nat -> (1 <= length (dk_info (disk_of s)))%nat ->
  exists o, format_request b write sector 0 1 2 e s = Ok tt e (on_disk (fun d =>
    dk_set_info (<[0%nat := (o, 0xff)]> (dk_info d)) (dk_set_ops (<[0%nat := VirtioBlkReq (req_type write) 0 sector]> (dk_ops d))
      (dk_set_desc (<[2%nat := VirtqDesc (DMA_status 0) 1 VRING_DESC_F_WRITE 0]>
      (<[1%nat := VirtqDesc (DMA_data b) BSIZE (data_flags write) 2]>
        (<[0%nat := VirtqDesc (DMA_op 0) sizeof_virtio_blk_req VRING_DESC_F_NEXT 1]> (dk_desc d)))) d))) s).
Proof.
  intros Hd Ho Hi. destruct (lookup_lt_is_Some_2 (dk_info (disk_of s)) 0) as [[o st] Ei]; [lia|]. exists o.
  unfold format_request. cbv zeta.
  erewrite bind_run by (apply set_op_run; simpl; lia).
  erewrite bind_run by (apply set_desc_run; simpl; lia).
  erewrite bind_run by (apply set_desc_run; simpl; rewrite length_insert; lia).
  erewrite bind_run by (apply (set_info_run 0 _ _ _ (o, st)); exact Ei).
  erewrite set_desc_run by (simpl; rewrite !length_insert; lia). reflexivity.
Qed.

(** ** The device *)

(** The request for [b] at the front of the available ring, its descriptors at
    [head], [i1] and [i2]. *)
Record request (d : disk) (head i1 i2 b : nat) (write : bool) (sector : Z) : Prop := {
  rq_new : dk_avail_idx d <> dk_used_idx d;
  rq_front : dk_avail_ring d !! Z.to_nat (dk_used_idx d mod NUM) = Some (Z.of_nat head);
  rq_op : dk_ops d !! head = Some (VirtioBlkReq (req_type write) 0 sector);
  rq_d0 : dk_desc d !! head = Some (VirtqDesc (DMA_op head) sizeof_virtio_blk_req VRING_DESC_F_NEXT (Z.of_nat i1));
  rq_d1 : dk_desc d !! i1 = Some (VirtqDesc (DMA_data b) BSIZE (data_flags write) (Z.of_nat i2));
  rq_d2 : dk_desc d !! i2 = Some (VirtqDesc (DMA_status head) 1 VRING_DESC_F_WRITE 0) }.

(** The transfer of block [n]. *)
Definition transfer (b : nat) (write : bool) (n : Z) (f : fst_) : fst_ :=
  match fs_bufs f !! b with
  | Some x =>
    if write then fs_set_disk (<[n := b_data x]> (fs_disk f)) (fs_writes f ++ [(n, b_data x)]) f
    else fs_set_bufs (<[b := b_set_data (disk_block (fs_disk f) n) x]> (fs_bufs f)) f
  | None => f
  end.

(** The device stores status 0 and puts the request on the used ring. *)
Definition complete (head : nat) (d : disk) : disk :=
  dk_set_info (alter (fun x => (x.1, 0)) head (dk_info d))
    (dk_set_used (u16 (dk_used_idx d + 1)) (<[Z.to_nat (dk_used_idx d mod NUM) := Z.of_nat head]> (dk_used_ring d)) d).

(** What the VirtIO specification promises of a block device that has one
    request: it transfers the sectors, in units of 512 bytes, and completes it. *)
Class VirtioDevice := {
  device : kst -> kst;
  device_serves : forall s head i1 i2 b write sector,
    request (disk_of s) head i1 i2 b write sector ->
    device s = set_fs (transfer b write (sector / (BSIZE / 512)) (k_fs s)) (on_disk (complete head) s) }.

(** A device that reads the rings. *)
Definition qemu (s : kst) : kst :=
  let d := disk_of s in
  if dk_avail_idx d =? dk_used_idx d then s
  else
    match (i ← dk_avail_ring d !! Z.to_nat (dk_used_idx d mod NUM);
           let head := Z.to_nat i in
           d0 ← dk_desc d !! head;
           d1 ← dk_desc d !! Z.to_nat (vd_next d0);
           match vd_addr d0, vd_addr d1 with
           | DMA_op k, DMA_data b => q ← dk_ops d !! k; Some (head, b, q)
           | _, _ => None
           end) with
    | Some (head, b, q) =>
      set_fs (transfer b (rq_type q =? VIRTIO_BLK_T_OUT) (rq_sector q / (BSIZE / 512)) (k_fs s)) (on_disk (complete head) s)
    | None => s
    end.

#[refine] Definition qemu_disk : VirtioDevice := {| device := qemu |}.
Proof.
  intros s head i1 i2 b write sector [H1 H2 H3 H4 H5 H6]. unfold qemu. rewrite (proj2 (Z.eqb_neq _ _) H1), H2. simpl.
  rewrite Nat2Z.id, H4. simpl. rewrite Nat2Z.id, H5. simpl. rewrite H3. simpl.
  by replace (req_type write =? VIRTIO_BLK_T_OUT) with write by (by destruct write).
Defined.

(** ** The interrupt *)

(** [virtio_disk_intr] with one completed request. *)
Lemma virtio_disk_intr_run me e s head b x :
  kthread me s -> lock_free L_vdisk (k_hw s) ->
  0 <= dk_seen (disk_of s) < 65536 -> dk_used_idx (disk_of s) = u16 (dk_seen (disk_of s) + 1) ->
  dk_used_ring (disk_of s) !! Z.to_nat (dk_seen (disk_of s) mod NUM) = Some (Z.of_nat head) ->
  dk_info (disk_of s) !! head = Some (Some b, 0) -> fs_bufs (k_fs s) !! b = Some x ->
  exists rg, virtio_disk_intr e s = Ok tt e (woken me (Some (C_buf b))
    (set_fs (fs_set_bufs (<[b := b_set_disk 0 x]> (fs_bufs (k_fs s))) (k_fs s))
      (set_dev (d_set_disk (dk_set_seen (u16 (dk_seen (disk_of s) + 1)) (disk_of s)) (d_set_regs rg (k_dev s))) s))).
Proof.
  intros Hk Hl Hs Hu Hr Hi Hb. unfold virtio_disk_intr. eexists.
  erewrite bind_run by (apply acquire_run; [apply Hk|done]).
  unfold vread, get_dev. erewrite bind_run by reflexivity. unfold vwrite, upd_dev. erewrite bind_run by reflexivity.
  set (s1 := set_dev _ _). assert (Hk1 : kthread me s1) by (by pose proof (kthread_acq me L_vdisk s Hk) as [A B C D]).
  erewrite bind_run.
  2:{ change (S (Z.to_nat NUM)) with 9%nat. cbn [intr_loop]. unfold get_disk, get_dev. erewrite bind_run by reflexivity.
      change (d_disk (k_dev s1)) with (disk_of s).
      replace (dk_seen (disk_of s) =? dk_used_idx (disk_of s)) with false.
      2:{ symmetry. apply Z.eqb_neq. rewrite Hu. unfold u16. Z.div_mod_to_equations. lia. }
      erewrite bind_run by (rewrite Hr; reflexivity). erewrite bind_run by (rewrite Nat2Z.id, Hi; reflexivity).
      cbn [snd]. change (negb (0 =? 0)) with false. erewrite bind_run by reflexivity.
      erewrite bind_run by reflexivity.
      erewrite bind_run by (unfold upd_buf; erewrite bind_run by (by apply get_buf_run); reflexivity).
      erewrite bind_run by (apply wakeup_run; destruct Hk1 as [A B C D]; by split).
      unfold upd_disk, upd_dev. erewrite bind_run by reflexivity.
      change (Z.to_nat NUM) with 8%nat. cbn [intr_loop]. unfold get_disk, get_dev. erewrite bind_run by reflexivity.
      match goal with |- context [if ?a =? ?c then _ else _] => replace (a =? c) with true end; [reflexivity|].
      symmetry. apply Z.eqb_eq. exact (eq_sym Hu). }
  erewrite (release_run _ _ _ (k_hw s)); [|apply Hk|done|done]. reflexivity.
Qed.

(** ** The others' turn *)

(** The scheduler on the hart that [me] left: it releases the lock of [me], the
    disk interrupts, and the next pass finds [me] runnable and switches to it. *)
Definition sched_turn (me : nat) : K unit :=
  c ← mycpu;
  upd_cpu c (cpu_set_proc None) ;;
  release (L_proc me) ;;
  virtio_disk_intr ;;
  acquire (L_proc me) ;;
  p ← get_proc me;
  when (bool_decide (p_state p = RUNNABLE)) (
    upd_proc me (p_set_state RUNNING) ;;
    upd_cpu c (cpu_set_proc (Some me))).

(** The device works, then the scheduler. *)
Definition disk_turn `{VirtioDevice} (me : nat) (s : kst) : kst :=
  match sched_turn me [] (device s) with Ok _ _ s' => s' | _ => s end.

Definition with_proc (o : option nat) (h : hw) : hw :=
  hw_set_cpus (alter (cpu_set_proc o) (h_hart h) (h_cpus h)) h.

Lemma upd_cpu_proc_run l h o e s c :
  k_hw s = acq l h -> h_cpus h !! h_hart h = Some c ->
  upd_cpu (h_hart h) (cpu_set_proc o) e s = Ok tt e (set_hw (acq l (with_proc o h)) s).
Proof.
  intros Eh Hc. unfold upd_cpu, get_cpu. krun. rewrite Eh. unfold acq at 1; simpl. rewrite list_lookup_alter_eq, Hc. simpl.
  do 2 f_equal. rewrite Eh. apply hw_ext; simpl; [done|done| |done].
  rewrite !(list_alter_insert _ _ _ _ Hc), list_insert_insert_eq.
  erewrite list_alter_insert by (apply list_lookup_insert_eq; by eapply lookup_lt_Some).
  by rewrite list_insert_insert_eq.
Qed.

Lemma with_proc_back me h : c_proc <$> h_cpus h !! h_hart h = Some (Some me) ->
  with_proc (Some me) (with_proc None h) = h.
Proof.
  intros (c & Hc & Hp)%fmap_Some. apply hw_ext; simpl; [done|done| |done].
  rewrite (list_alter_insert _ (h_cpus h) _ _ Hc).
  erewrite list_alter_insert by (apply list_lookup_insert_eq; by eapply lookup_lt_Some).
  rewrite list_insert_insert_eq. apply list_insert_id. rewrite Hc. f_equal. destruct c; simpl in *. by subst.
Qed.

Lemma hart_ok_with_proc o h : hart_ok h -> hart_ok (with_proc o h).
Proof.
  intros (c & b & Hc & Hb & H0 & H1 & H2). exists (cpu_set_proc o c), b. simpl.
  by rewrite list_lookup_alter_eq, Hc.
Qed.

Lemma kthread_with_proc o me h s : kthread me (set_hw h s) -> kthread o (set_hw (with_proc o h) s).
Proof.
  intros [A B C D]. split; simpl; try done.
  - by apply hart_ok_with_proc.
  - rewrite list_lookup_alter_eq. simpl in B. by apply fmap_Some in B as (c & -> & _).
Qed.

(** Only [me] is woken. *)
Lemma woken_me o me ch p s :
  o <> Some me -> ps_procs (k_ps s) !! me = Some p -> p_state p = SLEEPING -> p_chan p = Some ch ->
  (forall j q, j <> me -> ps_procs (k_ps s) !! j = Some q -> p_state q = SLEEPING -> p_chan q <> Some ch) ->
  woken o (Some ch) s = with_procs (<[me := p_set_state RUNNABLE p]> (ps_procs (k_ps s))) s.
Proof.
  intros Ho Hp Hs Hc Hq. unfold woken. f_equal. apply list_eq. intros j. rewrite list_lookup_imap.
  destruct (decide (j = me)) as [->|Hne].
  - rewrite list_lookup_insert_eq, Hp by (by eapply lookup_lt_Some). simpl. unfold wake_one.
    by rewrite bool_decide_eq_false_2, !bool_decide_eq_true_2 by done.
  - rewrite list_lookup_insert_ne by done. destruct (ps_procs (k_ps s) !! j) as [q|] eqn:Ej; [simpl|done].
    f_equal. unfold wake_one. case_bool_decide; [done|].
    destruct (decide (p_state q = SLEEPING)) as [E|E]; [|by rewrite bool_decide_eq_false_2].
    rewrite (bool_decide_eq_false_2 (p_chan q = _)) by (by eapply Hq). by rewrite andb_false_r.
Qed.

Lemma sched_turn_run me h s p head b x :
  kthread (Some me) (set_hw h s) -> k_hw s = acq (L_proc me) h -> lock_free L_vdisk h ->
  ps_procs (k_ps s) !! me = Some p -> p_state p = SLEEPING -> p_chan p = Some (C_buf b) ->
  (forall j q, j <> me -> ps_procs (k_ps s) !! j = Some q -> p_state q = SLEEPING -> p_chan q <> Some (C_buf b)) ->
  0 <= dk_seen (disk_of s) < 65536 -> dk_used_idx (disk_of s) = u16 (dk_seen (disk_of s) + 1) ->
  dk_used_ring (disk_of s) !! Z.to_nat (dk_seen (disk_of s) mod NUM) = Some (Z.of_nat head) ->
  dk_info (disk_of s) !! head = Some (Some b, 0) -> fs_bufs (k_fs s) !! b = Some x ->
  exists rg, sched_turn me [] s = Ok tt [] (with_procs (<[me := p_set_state RUNNING p]> (ps_procs (k_ps s)))
    (set_fs (fs_set_bufs (<[b := b_set_disk 0 x]> (fs_bufs (k_fs s))) (k_fs s))
      (set_dev (d_set_disk (dk_set_seen (u16 (dk_seen (disk_of s) + 1)) (disk_of s)) (d_set_regs rg (k_dev s))) s))).
Proof.
  intros Hk Eh Hl Hp Hst Hch Hq Hs Hu Hr Hi Hb.
  destruct (kt_hart _ _ Hk) as (c & bb & Hc & _). simpl in Hc. pose proof (lookup_lt_Some _ _ _ Hp) as Hlt.
  assert (Hme : (me < NPROC)%nat) by (rewrite <- (kt_len _ _ Hk); done).
  pose proof (kthread_with_proc None _ _ _ Hk) as Hk0. set (h0 := with_proc None h) in *.
  unfold sched_turn. erewrite bind_run by reflexivity. replace (h_hart (k_hw s)) with (h_hart h) by (by rewrite Eh).
  erewrite bind_run by (by eapply upd_cpu_proc_run).
  erewrite bind_run by (apply (release_run _ _ _ h0); [apply Hk0|by apply (kt_locks _ _ Hk0)|done]).
  destruct (virtio_disk_intr_run None [] (set_hw h0 s) head b x) as [rg E]; try done.
  exists rg. erewrite bind_run by exact E. erewrite (woken_me None me (C_buf b) p); [|done..].
  erewrite bind_run by (apply acquire_run; [apply Hk0|by apply (kt_locks _ _ Hk0)]).
  erewrite bind_run by (apply get_proc_run; simpl; by apply list_lookup_insert_eq).
  rewrite bool_decide_eq_true_2 by done. unfold when.
  erewrite bind_run by (apply upd_proc_run; simpl; by apply list_lookup_insert_eq).
  change (h_hart h) with (h_hart h0).
  erewrite (upd_cpu_proc_run (L_proc me) h0); [|done|simpl; by rewrite list_lookup_alter_eq, Hc].
  subst h0. rewrite with_proc_back by (by apply (kt_cpu _ _ Hk)). rewrite <- Eh. simpl.
  rewrite list_insert_insert_eq. by destruct s as [? ? ? [] ? ? ? ?].
Qed.

(** ** Freeing *)

(** Nobody waits for descriptors. *)
Definition no_waiter (s : kst) : Prop :=
  forall i p, ps_procs (k_ps s) !! i = Some p -> p_state p = SLEEPING -> p_chan p <> Some C_disk_free.

Definition freed (i : nat) (d : disk) : disk :=
  dk_set_free (<[i := 1]> (dk_free d)) (dk_set_desc (<[i := VirtqDesc DMA_none 0 0 0]> (dk_desc d)) d).

Lemma free_desc_run me (i : nat) e s :
  kthread me s -> no_waiter s -> (i < 8)%nat -> length (dk_desc (disk_of s)) = 8%nat ->
  dk_free (disk_of s) !! i = Some 0 ->
  free_desc (Z.of_nat i) e s = Ok tt e (on_disk (freed i) s).
Proof.
  intros Hk Hw Hi Hd Hf. unfold free_desc.
  replace (Z.of_nat i >=? NUM) with false by (unfold NUM; symmetry; destruct (Z.geb_spec (Z.of_nat i) 8); lia || done).
  erewrite bind_run by reflexivity. unfold get_disk, get_dev. erewrite bind_run by reflexivity.
  rewrite Nat2Z.id. erewrite bind_run by (change (d_disk (k_dev s)) with (disk_of s); rewrite Hf; reflexivity).
  change (negb (0 =? 0)) with false. erewrite bind_run by reflexivity.
  erewrite bind_run by (apply set_desc_run; lia).
  erewrite bind_run by (apply set_free_run; simpl; by eapply lookup_lt_Some).
  erewrite wakeup_run by (destruct Hk; by split). by rewrite woken_id.
Qed.

(** One round of the loop of free_chain. *)
Lemma free_chain_step me fuel (i : nat) e s x :
  kthread me s -> no_waiter s -> (i < 8)%nat -> length (dk_desc (disk_of s)) = 8%nat ->
  dk_free (disk_of s) !! i = Some 0 -> dk_desc (disk_of s) !! i = Some x ->
  free_chain_loop (S fuel) (Z.of_nat i) e s =
  (if negb (Z.land (vd_flags x) VRING_DESC_F_NEXT =? 0) then free_chain_loop fuel (vd_next x) else mret tt) e (on_disk (freed i) s).
Proof.
  intros Hk Hw Hi Hd Hf Hx. cbn [free_chain_loop]. unfold get_disk, get_dev. erewrite bind_run by reflexivity.
  change (d_disk (k_dev s)) with (disk_of s). rewrite Nat2Z.id.
  erewrite bind_run by (rewrite Hx; reflexivity). by erewrite bind_run by (by eapply free_desc_run).
Qed.

(** The chain of one request: three descriptors in a row. *)
Lemma free_chain_run me e s b write :
  kthread me s -> no_waiter s -> length (dk_desc (disk_of s)) = 8%nat ->
  dk_free (disk_of s) = [0; 0; 0] ++ replicate 5 1 ->
  dk_desc (disk_of s) !! 0%nat = Some (VirtqDesc (DMA_op 0) sizeof_virtio_blk_req VRING_DESC_F_NEXT 1) ->
  dk_desc (disk_of s) !! 1%nat = Some (VirtqDesc (DMA_data b) BSIZE (data_flags write) 2) ->
  dk_desc (disk_of s) !! 2%nat = Some (VirtqDesc (DMA_status 0) 1 VRING_DESC_F_WRITE 0) ->
  free_chain 0 e s = Ok tt e (on_disk (fun d => freed 2 (freed 1 (freed 0 d))) s).
Proof.
  intros Hk Hw Hd Hf H0 H1 H2. unfold free_chain. change (S (Z.to_nat NUM)) with 9%nat.
  assert (Hk' : forall f, kthread me (on_disk f s)) by (intros f; destruct Hk; by split).
  etransitivity; [exact (free_chain_step me 8 0 e s _ Hk Hw ltac:(lia) Hd ltac:(by rewrite Hf) H0)|]. cbn [vd_flags vd_next].
  change (negb (Z.land VRING_DESC_F_NEXT VRING_DESC_F_NEXT =? 0)) with true. cbv iota.
  etransitivity; [apply (free_chain_step me 7 1 e (on_disk (freed 0) s) (VirtqDesc (DMA_data b) BSIZE (data_flags write) 2));
    [done|done|lia|simpl; by rewrite length_insert|simpl; by rewrite Hf|simpl; by rewrite list_lookup_insert_ne]|]. cbn [vd_flags vd_next].
  replace (negb (Z.land (data_flags write) VRING_DESC_F_NEXT =? 0)) with true by (by destruct write). cbv iota.
  etransitivity; [apply (free_chain_step me 6 2 e (on_disk (freed 1) (on_disk (freed 0) s)) (VirtqDesc (DMA_status 0) 1 VRING_DESC_F_WRITE 0));
    [exact (Hk' (fun d => freed 1 (freed 0 d)))|done|lia|simpl; by rewrite !length_insert|simpl; by rewrite Hf
     |simpl; by rewrite !list_lookup_insert_ne]|]. reflexivity.
Qed.

(** ** A transfer *)

Section rw.
Context `{VirtioDevice} (me b : nat) (write : bool) (x : buf) (s : kst) (p : proc).
Context (Hk : kthread (Some me) s) (Hfree : unlocked (k_hw s)) (Hl : lock_free L_vdisk (k_hw s)).
Context (Hp : ps_procs (k_ps s) !! me = Some p) (Hrun : p_state p = RUNNING) (Hch : p_chan p = None).
Context (Hquiet : forall j q, ps_procs (k_ps s) !! j = Some q -> p_state q = SLEEPING -> exists k, p_chan q = Some (C_proc k)).
Context (Hd : idle (disk_of s)) (Hx : fs_bufs (k_fs s) !! b = Some x) (Hx0 : b_disk x = 0).
Context (Hblk : 0 <= b_blockno x < 2 ^ 31).

Let sector : Z := u32 (b_blockno x * (BSIZE / 512)).

(** The request is posted and the lock held. *)
Definition posted (rg : gmap Z Z) : kst :=
  set_hw (acq L_vdisk (k_hw s)) (set_fs (fs_set_bufs (<[b := b_set_disk 1 x]> (fs_bufs (k_fs s))) (k_fs s))
    (set_dev (d_set_disk (requested b write sector (disk_of s)) (d_set_regs rg (k_dev s))) s)).

Lemma post_request_run e :
  exists rg, post_request b write sector 0 1 2 e
    (on_disk (dk_set_free ([0; 0; 0] ++ replicate 5 1)) (set_hw (acq L_vdisk (k_hw s)) s)) = Ok tt e (posted rg).
Proof.
  destruct Hd as [D1 D2 D3 D4 D5 D6 D7 D8 D9].
  exists (<[VIRTIO0 + VIRTIO_MMIO_QUEUE_NOTIFY := u32 0]> (d_regs (k_dev s))). unfold post_request.
  destruct (format_request_run b write sector e
    (on_disk (dk_set_free ([0; 0; 0] ++ replicate 5 1)) (set_hw (acq L_vdisk (k_hw s)) s))) as [o E];
    [change (3 <= length (dk_desc (disk_of s)))%nat; lia|change (1 <= length (dk_ops (disk_of s)))%nat; lia
    |change (1 <= length (dk_info (disk_of s)))%nat; lia|].
  erewrite bind_run by exact E.
  erewrite bind_run by (unfold upd_buf; erewrite bind_run by (by apply get_buf_run); reflexivity).
  erewrite bind_run.
  2:{ apply (set_info_run 0 _ _ _ (o, 0xff)). change (<[0%nat := (o, 0xff)]> (dk_info (disk_of s)) !! 0%nat = Some (o, 255)).
      apply list_lookup_insert_eq. lia. }
  unfold upd_disk, upd_dev. do 2 erewrite bind_run by reflexivity. unfold vwrite, upd_dev.
  unfold posted, requested. rewrite <- (list_insert_insert_eq (dk_info (disk_of s)) 0 (Some b, 0xff) (o, 0xff)).
  reflexivity.
Qed.

(** The sector names the block again, as long as it does not overflow. *)
Lemma sector_block : sector / (BSIZE / 512) = b_blockno x.
Proof.
  unfold sector. change (BSIZE / 512) with 2. unfold u32. rewrite Z.mod_small by lia. Z.div_mod_to_equations. lia.
Qed.

Lemma request_posted : request (requested b write sector (disk_of s)) 0 1 2 b write sector.
Proof.
  destruct Hd as [D1 D2 D3 D4 D5 D6 D7 D8 D9]. unfold requested. split; cbn -[disk_of Z.to_nat].
  - rewrite D9. unfold u16. Z.div_mod_to_equations. lia.
  - rewrite D9. apply list_lookup_insert_eq. rewrite D2. unfold NUM. Z.div_mod_to_equations. lia.
  - apply list_lookup_insert_eq. lia.
  - rewrite !list_lookup_insert_ne by done. apply list_lookup_insert_eq. lia.
  - rewrite list_lookup_insert_ne by done. apply list_lookup_insert_eq. rewrite length_insert. lia.
  - apply list_lookup_insert_eq. rewrite !length_insert. lia.
Qed.

(** The buffers and the disk once the device and the handler are done. *)
Lemma transfer_done (f := fs_set_bufs (<[b := b_set_disk 1 x]> (fs_bufs (k_fs s))) (k_fs s)) :
  exists y, fs_bufs (transfer b write (b_blockno x) f) !! b = Some y /\
    fs_set_bufs (<[b := b_set_disk 0 y]> (fs_bufs (transfer b write (b_blockno x) f))) (transfer b write (b_blockno x) f) =
    disk_done b x write (k_fs s).
Proof.
  assert (Hlt : (b < length (fs_bufs (k_fs s)))%nat) by (by eapply lookup_lt_Some).
  assert (E : fs_bufs f !! b = Some (b_set_disk 1 x)) by (by apply list_lookup_insert_eq).
  unfold transfer. rewrite E. destruct write; eexists.
  - split; [exact E|]. unfold disk_done, f. destruct (k_fs s) as [bs dk ws lg sb ins]; simpl in *.
    unfold fs_set_bufs, fs_set_disk; simpl. f_equal. rewrite list_insert_insert_eq. apply list_insert_id.
    rewrite Hx. f_equal. destruct x; simpl in *. by subst.
  - split; [apply list_lookup_insert_eq; simpl; by rewrite length_insert|].
    unfold disk_done, f. destruct (k_fs s) as [bs dk ws lg sb ins]; simpl in *.
    unfold fs_set_bufs; simpl. f_equal. rewrite !list_insert_insert_eq. f_equal. destruct x; simpl in *. by subst.
Qed.

(** The state in which [me] gets the hart back. *)
Definition served (rg : gmap Z Z) : kst :=
  set_hw (acq (L_proc me) (k_hw s))
    (with_procs (<[me := p_set_state RUNNING (p_set_chan (Some (C_buf b)) p)]> (ps_procs (k_ps s)))
      (set_fs (disk_done b x write (k_fs s))
        (set_dev (d_set_disk (dk_set_seen (u16 (dk_used_idx (disk_of s) + 1)) (complete 0 (requested b write sector (disk_of s))))
          (d_set_regs rg (k_dev s))) s))).

Lemma disk_turn_run rg : exists rg', disk_turn me (asleep me (C_buf b) (k_hw s) (posted rg)) = served rg'.
Proof.
  destruct transfer_done as (y & Hy & Ey). pose proof (lookup_lt_Some _ _ _ Hp) as Hlt.
  unfold disk_turn.
  rewrite (device_serves _ 0 1 2 b write sector) by (exact request_posted). rewrite sector_block.
  set (s3 := set_fs _ _). destruct Hd as [D1 D2 D3 D4 D5 D6 D7 D8 D9].
  destruct (sched_turn_run me (k_hw s) s3 (p_set_state SLEEPING (p_set_chan (Some (C_buf b)) p)) 0 b y) as [rg' E].
  - destruct Hk as [K1 K2 K3 K4]. split; try done. simpl. by rewrite length_alter.
  - done.
  - done.
  - simpl. by rewrite list_lookup_alter_eq, Hp.
  - done.
  - done.
  - intros j q Hj Hq Hs E. simpl in Hq. rewrite list_lookup_alter_ne in Hq by done.
    destruct (Hquiet j q Hq Hs) as [k Hk']. congruence.
  - change (0 <= dk_seen (disk_of s) < 65536). lia.
  - change (u16 (dk_used_idx (disk_of s) + 1) = u16 (dk_seen (disk_of s) + 1)). by rewrite D8.
  - change (<[Z.to_nat (dk_used_idx (disk_of s) mod NUM) := Z.of_nat 0]> (dk_used_ring (disk_of s))
      !! Z.to_nat (dk_seen (disk_of s) mod NUM) = Some (Z.of_nat 0)).
    rewrite D8. apply list_lookup_insert_eq. rewrite D3. unfold NUM. Z.div_mod_to_equations. lia.
  - change (alter (fun x => (x.1, 0)) 0%nat (<[0%nat := (Some b, 0xff)]> (dk_info (disk_of s))) !! 0%nat = Some (Some b, 0)).
    rewrite list_lookup_alter_eq, list_lookup_insert_eq by lia. done.
  - exact Hy.
  - exists rg'. rewrite E. unfold served. rewrite <- Ey, <- D8.
    change (ps_procs (k_ps s3)) with
      (alter (fun p => p_set_state SLEEPING (p_set_chan (Some (C_buf b)) p)) me (ps_procs (k_ps s))).
    rewrite (list_alter_insert _ _ _ _ Hp), list_insert_insert_eq. reflexivity.
Qed.

(** [me] is back, with the lock. *)
Definition returned (rg : gmap Z Z) : kst :=
  set_hw (acq L_vdisk (k_hw s)) (set_fs (disk_done b x write (k_fs s))
    (set_dev (d_set_disk (dk_set_seen (u16 (dk_used_idx (disk_of s) + 1)) (complete 0 (requested b write sector (disk_of s))))
      (d_set_regs rg (k_dev s))) s)).

Lemma awake_served rg : awake me (acq L_vdisk (k_hw s)) (served rg) = returned rg.
Proof.
  unfold awake, served, returned. simpl. pose proof (lookup_lt_Some _ _ _ Hp) as Hlt.
  erewrite list_alter_insert by (by apply list_lookup_insert_eq).
  rewrite list_insert_insert_eq, list_insert_id; [by destruct s as [? ? ? [] ? ? ? ?]|].
  rewrite Hp. f_equal. destruct p; simpl in *. by subst.
Qed.

Lemma rw_wait_run rg e : exists rg',
  sleeping (fun fuel => rw_wait fuel b) (disk_turn me :: e) (posted rg) = Ok tt e (returned rg').
Proof.
  destruct (disk_turn_run rg) as [rg' E]. exists rg'. pose proof (lookup_lt_Some _ _ _ Hx) as Hlt.
  pose proof (lookup_lt_Some _ _ _ Hp) as Hlp.
  unfold sleeping. cbn [length rw_wait].
  erewrite bind_run by (apply get_buf_run; unfold posted; simpl; by apply list_lookup_insert_eq).
  change (b_disk (b_set_disk 1 x) =? 1) with true. cbv iota.
  erewrite bind_run.
  2:{ apply (sleep_run me (C_buf b) L_vdisk (posted rg) (k_hw s)); try done; [by destruct Hk|by rewrite <- (kt_len _ _ Hk)|].
      rewrite E. split_and!; try done; simpl; [by rewrite length_insert; apply Hk|].
      by rewrite list_lookup_alter_eq, Hp, list_lookup_insert_eq. }
  rewrite E, awake_served.
  assert (Hb : exists y, fs_bufs (disk_done b x write (k_fs s)) !! b = Some y /\ b_disk y = 0).
  { unfold disk_done. destruct write; [by exists x|]. eexists. split; [by apply list_lookup_insert_eq|exact Hx0]. }
  destruct Hb as (y & Hy & Hy0). destruct (length e); cbn [rw_wait];
    (erewrite bind_run by (apply get_buf_run; exact Hy)); by rewrite Hy0.
Qed.

(** The disk after the descriptors of the request were freed. *)
Definition finished (d : disk) : disk := freed 2 (freed 1 (freed 0 (dk_set_info (<[0%nat := (None, 0)]> (dk_info d)) d))).

Lemma finished_idle :
  idle (finished (dk_set_seen (u16 (dk_used_idx (disk_of s) + 1)) (complete 0 (requested b write sector (disk_of s))))).
Proof.
  destruct Hd as [D1 D2 D3 D4 D5 D6 D7 D8 D9]. split; cbn -[disk_of Z.to_nat u16];
    rewrite ?length_insert, ?length_alter, ?length_insert; try done; [apply Z.mod_pos_bound; lia|by rewrite D9].
Qed.

Lemma virtio_rw_run e : exists rg, virtio_rw b write (disk_turn me :: e) s =
  Ok tt e (set_fs (disk_done b x write (k_fs s)) (set_dev (d_set_disk
    (finished (dk_set_seen (u16 (dk_used_idx (disk_of s) + 1)) (complete 0 (requested b write sector (disk_of s)))))
      (d_set_regs rg (k_dev s))) s)).
Proof.
  unfold virtio_rw. destruct (post_request_run (disk_turn me :: e)) as [rg E1].
  destruct (rw_wait_run rg e) as [rg' E2]. exists rg'. destruct Hd as [D1 D2 D3 D4 D5 D6 D7 D8 D9].
  erewrite bind_run by (by apply get_buf_run). cbv zeta. fold sector.
  erewrite bind_run by (apply acquire_run; [apply Hk|done]).
  erewrite bind_run.
  2:{ unfold sleeping. cbn [length alloc3_wait]. erewrite bind_run by (apply alloc3_idle_run; exact D6). reflexivity. }
  cbv iota. erewrite bind_run by exact E1. erewrite bind_run by exact E2.
  erewrite bind_run.
  2:{ apply (set_info_run 0 _ _ _ (Some b, 0)).
      change (alter (fun x => (x.1, 0)) 0%nat (<[0%nat := (Some b, 0xff)]> (dk_info (disk_of s))) !! 0%nat = Some (Some b, 0)).
      rewrite list_lookup_alter_eq, list_lookup_insert_eq by lia. done. }
  erewrite bind_run.
  2:{ apply (free_chain_run (Some me) _ _ b write).
      - pose proof (kthread_acq _ L_vdisk _ Hk ltac:(done)) as [K1 K2 K3 K4]. by split.
      - intros i q Hq Hs E. destruct (Hquiet i q Hq Hs) as [k Hk']. congruence.
      - change (length (<[2%nat := VirtqDesc (DMA_status 0) 1 VRING_DESC_F_WRITE 0]>
          (<[1%nat := VirtqDesc (DMA_data b) BSIZE (data_flags write) 2]>
            (<[0%nat := VirtqDesc (DMA_op 0) sizeof_virtio_blk_req VRING_DESC_F_NEXT 1]> (dk_desc (disk_of s))))) = 8%nat).
        by rewrite !length_insert.
      - reflexivity.
      - exact (rq_d0 _ _ _ _ _ _ _ request_posted).
      - exact (rq_d1 _ _ _ _ _ _ _ request_posted).
      - exact (rq_d2 _ _ _ _ _ _ _ request_posted). }
  erewrite (release_run _ _ _ (k_hw s)); [|apply Hk|done|done]. unfold returned.
  by rewrite on_disk_on_disk, on_disk_set, set_hw_back.
Qed.
End rw.

(** C6: A block goes between buffer and disk: called for a buffer by a process
    on an idle disk, virtio_disk_rw posts a request that the device can follow,
    sleeps, is woken by the interrupt handler when the device has completed the
    request, and returns with block [b->blockno] written from or read into the
    buffer, b->disk cleared, every descriptor free and the indices of the two
    rings in step, so that the next request finds the disk idle again. Nothing
    else changes. The device is any that serves a request as VirtIO says. *)
Theorem virtio_rw_correct `{VirtioDevice} me b write x e s p :
  kthread (Some me) s -> unlocked (k_hw s) -> lock_free L_vdisk (k_hw s) ->
  ps_procs (k_ps s) !! me = Some p -> p_state p = RUNNING -> p_chan p = None ->
  (forall j q, ps_procs (k_ps s) !! j = Some q -> p_state q = SLEEPING -> exists k, p_chan q = Some (C_proc k)) ->
  idle (disk_of s) -> fs_bufs (k_fs s) !! b = Some x -> b_disk x = 0 -> 0 <= b_blockno x < 2 ^ 31 ->
  exists d' rg, virtio_rw b write (disk_turn me :: e) s =
    Ok tt e (set_fs (disk_done b x write (k_fs s)) (set_dev (d_set_disk d' (d_set_regs rg (k_dev s))) s)) /\
    idle d'.
Proof.
  intros. destruct (virtio_rw_run me b write x s p) with (e := e) as [rg E]; try done.
  eexists _, rg. split; [exact E|]. by apply finished_idle.
Qed.

(** ** Witness *)

Definition kst_disk : kst :=
  set_dev (d_set_disk (dk_set_free (replicate 8 1) disk0) devs0) (kst_with (more_locks [L_vdisk])).

Lemma kthread_disk : kthread (Some 0%nat) kst_disk.
Proof.
  pose proof (uctx_ex [L_vdisk] L_vdisk ltac:(set_solver) ltac:(set_solver) ltac:(set_solver)) as Hu.
  destruct (uc_thread _ Hu) as [A B C D]. by split.
Qed.

Lemma quiet_disk j q : ps_procs (k_ps kst_disk) !! j = Some q -> p_state q = SLEEPING -> exists k, p_chan q = Some (C_proc k).
Proof.
  change (ps_procs (k_ps kst_disk)) with (<[0%nat := p_set_pagetable (pgn 1) proc_run]> (replicate NPROC proc0)).
  intros [[_ [<- _]]|[_ H]]%list_lookup_insert_Some; [done|]. by apply lookup_replicate in H as [-> _].
Qed.

(** Writing buffer 0. *)
Lemma virtio_rw_correct_witness :
  exists s', virtio_rw 0 true [@disk_turn qemu_disk 0] kst_disk = Ok tt [] s' /\ idle (disk_of s') /\
    fs_disk (k_fs s') !! 0 = Some (b_data buf0).
Proof.
  destruct (@virtio_rw_correct qemu_disk 0 0 true buf0 [] kst_disk (p_set_pagetable (pgn 1) proc_run) kthread_disk eq_refl
    (ex_intro _ "lock"%string eq_refl) eq_refl eq_refl eq_refl quiet_disk) as (d' & rg & E & Hi).
  - by split.
  - done.
  - done.
  - done.
  - eexists. split; [exact E|]. split; [exact Hi|]. apply lookup_insert_eq.
Defined.
