(* ===== verification/Ulib.v ===== *)
(** user/ulib.c and user/printf.c: the library of the user programs. The string
    routines work on the bytes of the process, [mem]; the scans that stop at a
    nul take fuel. [strchr] and [atoi] only look at one string and take its
    bytes. What [read] gives is a parameter; what is written is a list of bytes. *)

From S2P Require Import Prelude Machine KString Console ProcFs ConsoleSpec.

(** ** ulib.c *)

(** [while(( *s++ = *t++) != 0)] *)
Fixpoint strcpy (fuel : nat) (m : mem) (s t : Z) : option mem :=
  match fuel with
  | O => None
  | S fuel =>
    let c := load8 m t in
    let m := store8 m s c in
    if negb (c =? 0) then strcpy fuel m (s + 1) (t + 1) else Some m
  end.

Fixpoint strcmp (fuel : nat) (m : mem) (p q : Z) : option Z :=
  match fuel with
  | O => None
  | S fuel =>
    if negb (load8 m p =? 0) && (load8 m p =? load8 m q) then strcmp fuel m (p + 1) (q + 1)
    else Some (load8 m p - load8 m q)
  end.

(** [for(n = 0; s[n]; n++)], from [n] on. *)
Fixpoint u_strlen (fuel : nat) (m : mem) (s n : Z) : option Z :=
  match fuel with
  | O => None
  | S fuel => if negb (load8 m (s + n) =? 0) then u_strlen fuel m s (i32 (n + 1)) else Some (u32 n)
  end.

(** [for(i = 0; i < n; i++) cdst[i] = c], from [i] on. *)
Fixpoint u_memset (m : mem) (dst c : Z) (i : Z) (n : nat) : mem :=
  match n with
  | O => m
  | S n => u_memset (store8 m (dst + i) c) dst c (i + 1) n
  end.

(** [strchr(s, c)]: the index of the first [c] before the nul. *)
Fixpoint strchr (s : list Z) (c : Z) : option nat :=
  match s with
  | [] => None
  | x :: s => if x =? 0 then None else if x =? c then Some 0%nat else S <$> strchr s c
  end.

(** The loop of [gets] from [i] on, with [k] = max - 1 - i rounds left and [inp] the
    bytes that [read] gives before the end of the file: the bytes stored from
    [i] on, and the rest of the input. *)
Fixpoint gets_loop (k : nat) (inp : list Z) : list Z * list Z :=
  match k with
  | O => ([], inp)
  | S k =>
    match inp with
    | [] => ([], [])
    | c :: inp =>
      if (c =? 10) || (c =? 13) then ([c], inp)
      else let r := gets_loop k inp in (c :: r.1, r.2)
    end
  end.

(** [gets(buf, max)]: the buffer, and the rest of the input. For [max] at least 1. *)
Definition gets (buf : list Z) (max : nat) (inp : list Z) : list Z * list Z :=
  let r := gets_loop (max - 1) inp in (r.1 ++ 0 :: drop (S (length r.1)) buf, r.2).

(** [while('0' <= *s && *s <= '9') n = n*10 + *s++ - '0'] *)
Fixpoint atoi_loop (s : list Z) (n : Z) : Z :=
  match s with
  | [] => n
  | c :: s => if (48 <=? c) && (c <=? 57) then atoi_loop s (i32 (n * 10 + c - 48)) else n
  end.

Definition atoi (s : list Z) : Z := atoi_loop s 0.

(** The two loops copy in the direction that keeps the source intact. *)
Definition u_memmove (m : mem) (vdst vsrc n : Z) : mem :=
  if vsrc >? vdst then copy_up m vdst vsrc (Z.to_nat n)
  else copy_down m (vdst + n) (vsrc + n) (Z.to_nat n).

Fixpoint u_memcmp (m : mem) (p1 p2 : Z) (n : nat) : Z :=
  match n with
  | O => 0
  | S n => if negb (load8 m p1 =? load8 m p2) then load8 m p1 - load8 m p2 else u_memcmp m (p1 + 1) (p2 + 1) n
  end.

(** [memmove] takes an int: a size from 2^31 on is negative there. *)
Definition u_memcpy (m : mem) (dst src n : Z) : mem := u_memmove m dst src (i32 n).

(** ** printf.c *)

Definition u_digits : list Z := bytes_of "0123456789ABCDEF".
Definition u_digit (n : Z) : Z := default 0 (u_digits !! Z.to_nat n).

(** The do-while loop: the digits, least significant first. *)
Fixpoint u_printint_digits (fuel : nat) (x base : Z) : list Z :=
  match fuel with
  | O => []
  | S fuel =>
    u_digit (x mod base) :: (if negb (x / base =? 0) then u_printint_digits fuel (x / base) base else [])
  end.

(** [printint(fd, xx, base, sgn)]: the characters it writes. *)
Definition u_printint (xx base : Z) (sgn : bool) : list Z :=
  let neg := sgn && (xx <? 0) in
  let x := if neg then u32 (- xx) else u32 xx in
  reverse (u_printint_digits 32 x base ++ (if neg then [45] else [])).

Fixpoint u_printptr_loop (n : nat) (x : Z) : list Z :=
  match n with
  | O => []
  | S n => u_digit (Z.shiftr x 60) :: u_printptr_loop n (u64 (Z.shiftl x 4))
  end.

Definition u_printptr (x : Z) : list Z := 48 :: 120 :: u_printptr_loop 16 x.

(** One conversion, with the rest of the arguments: [None] where [va_arg] has
    no argument of the type. *)
Definition conversion (c : Z) (ap : list farg) : option (list Z * list farg) :=
  if c =? 100 then match ap with A_int x :: ap => Some (u_printint x 10 true, ap) | _ => None end
  else if c =? 108 then match ap with A_ptr x :: ap => Some (u_printint (i32 x) 10 false, ap) | _ => None end
  else if c =? 120 then match ap with A_int x :: ap => Some (u_printint x 16 false, ap) | _ => None end
  else if c =? 112 then match ap with A_ptr x :: ap => Some (u_printptr x, ap) | _ => None end
  else if c =? 115 then
    match ap with A_str s :: ap => Some (cstring (default (bytes_of "(null)") s), ap) | _ => None end
  else if c =? 99 then match ap with A_int x :: ap => Some ([u8 x], ap) | _ => None end
  else if c =? 37 then Some ([c], ap)
  else Some ([37; c], ap).

(** The loop of [vprintf]; [pct] says that the state is '%'. *)
Fixpoint vprintf (fmt : list Z) (ap : list farg) (pct : bool) : option (list Z) :=
  match fmt with
  | [] => Some []
  | c :: fmt =>
    if c =? 0 then Some []
    else if negb pct then
      if c =? 37 then vprintf fmt ap true
      else cons c <$> vprintf fmt ap false
    else
      r ← conversion c ap;
      app r.1 <$> vprintf fmt r.2 false
  end.

(** [fprintf(fd, fmt, ...)]: what is written to [fd], a byte at a time. *)
Definition fprintf (fd : Z) (fmt : list Z) (ap : list farg) : option (Z * list Z) := pair fd <$> vprintf fmt ap false.

(** [printf(fmt, ...)] *)
Definition u_printf (fmt : list Z) (ap : list farg) : option (Z * list Z) := fprintf 1 fmt ap.

(** ** Strings *)

(** [l] is the string at [p]. *)
Fixpoint string_at (m : mem) (p : Z) (l : list Z) : Prop :=
  match l with
  | [] => load8 m p = 0
  | c :: l => c <> 0 /\ load8 m p = c /\ string_at m (p + 1) l
  end.

(** strcmp compares strings: 0 for equal ones, else the difference of the first
    characters that differ, where the end counts as 0. *)
Fixpoint string_diff (a b : list Z) : Z :=
  match a, b with
  | [], [] => 0
  | [], y :: _ => - y
  | x :: _, [] => x
  | x :: a, y :: b => if x =? y then string_diff a b else x - y
  end.

Lemma strcmp_spec fuel m p q a b :
  string_at m p a -> string_at m q b -> (length a < fuel)%nat -> strcmp fuel m p q = Some (string_diff a b).
Proof.
  revert p q a b. induction fuel as [|fuel IH]; intros p q a b Ha Hb Hf; [lia|]. cbn [strcmp].
  destruct a as [|x a], b as [|y b]; cbn [string_at string_diff length] in *.
  - by rewrite Ha, Hb.
  - destruct Hb as (Hy & Hb & _). by rewrite Ha, Hb.
  - destruct Ha as (Hx & Ha & _). rewrite Ha, Hb, (proj2 (Z.eqb_neq _ _) Hx). simpl. f_equal. lia.
  - destruct Ha as (Hx & Ha & Ha'), Hb as (Hy & Hb & Hb'). rewrite Ha, Hb, (proj2 (Z.eqb_neq _ _) Hx). cbn [negb andb].
    destruct (x =? y); [|done]. apply IH; [done..|lia].
Qed.

Lemma string_diff_eq a b : Forall (fun c => c <> 0) a -> Forall (fun c => c <> 0) b -> string_diff a b = 0 <-> a = b.
Proof.
  intros Ha. revert b. induction Ha as [|x a Hx Ha IH]; intros b Hb; destruct Hb as [|y b Hy Hb]; cbn [string_diff].
  - done.
  - split; [lia|done].
  - split; [lia|done].
  - destruct (Z.eqb_spec x y) as [->|]; [rewrite IH by done; naive_solver|]. split; [lia|naive_solver].
Qed.

Lemma string_at_nonzero m p l : string_at m p l -> Forall (fun c => c <> 0) l.
Proof. revert p. induction l as [|c l IH]; intros p; cbn [string_at]; [constructor|]. intros (? & _ & ?). constructor; [done|by eapply IH]. Qed.

Lemma string_at_ext m m' p l :
  (forall x, p <= x <= p + Z.of_nat (length l) -> load8 m' x = load8 m x) -> string_at m p l -> string_at m' p l.
Proof.
  revert p. induction l as [|c l IH]; intros p H; cbn [string_at length] in *.
  - intros E. by rewrite H by lia.
  - intros (? & E & ?). rewrite H by lia. split_and!; [done..|]. apply IH; [|done]. intros x Hx. apply H. lia.
Qed.

(** strcpy copies the string and its nul, and nothing else, when the source is
    not in the way. *)
Lemma strcpy_spec fuel m s t l :
  string_at m t l -> (length l < fuel)%nat -> s + Z.of_nat (length l) < t \/ t + Z.of_nat (length l) < s ->
  exists m', strcpy fuel m s t = Some m' /\ string_at m' s l /\
    forall x, ~ (s <= x <= s + Z.of_nat (length l)) -> load8 m' x = load8 m x.
Proof.
  revert m s t l. induction fuel as [|fuel IH]; intros m s t l Ht Hf Hd; [lia|]. cbn [strcpy].
  destruct l as [|c l]; cbn [string_at length] in *.
  - rewrite Ht. cbn [negb Z.eqb]. eexists. split_and!; [done| |].
    + rewrite load8_store8, Z.eqb_refl. done.
    + intros x Hx. rewrite load8_store8. destruct (Z.eqb_spec x s); [lia|done].
  - destruct Ht as (Hc & E & Ht). rewrite E, (proj2 (Z.eqb_neq _ _) Hc). cbn [negb].
    destruct (IH (store8 m s c) (s + 1) (t + 1) l) as (m' & E' & Hs & Ho); [|lia|lia|].
    { eapply string_at_ext; [|exact Ht]. intros x Hx. rewrite load8_store8. destruct (Z.eqb_spec x s); [lia|done]. }
    exists m'. split_and!; [done|done| |done|].
    + rewrite Ho, load8_store8, Z.eqb_refl by lia. rewrite <- E. apply u8_small. auto with xv6.
    + intros x Hx. rewrite Ho by lia. rewrite load8_store8. destruct (Z.eqb_spec x s); [lia|done].
Qed.

Lemma u_strlen_spec fuel m s l k :
  string_at m (s + k) l -> 0 <= k -> k + Z.of_nat (length l) < 2 ^ 31 -> (length l < fuel)%nat ->
  u_strlen fuel m s k = Some (k + Z.of_nat (length l)).
Proof.
  revert l k. induction fuel as [|fuel IH]; intros l k Hl Hk Hb Hf; [lia|]. cbn [u_strlen].
  destruct l as [|c l]; cbn [string_at length] in *.
  - rewrite Hl. simpl. f_equal. unfold u32. rewrite Z.mod_small; lia.
  - destruct Hl as (Hc & -> & Hl). rewrite (proj2 (Z.eqb_neq _ _) Hc). cbn [negb].
    replace (i32 (k + 1)) with (k + 1) by (unfold i32; rewrite Z.mod_small; lia).
    rewrite IH with (l := l); [f_equal; lia| |lia..]. by replace (s + (k + 1)) with (s + k + 1) by lia.
Qed.

Lemma load8_u_memmove m dst src n x :
  load8 (u_memmove m dst src n) x =
  if (dst <=? x) && (x <? dst + n) then load8 m (src + (x - dst)) else load8 m x.
Proof.
  unfold u_memmove. destruct (Z.le_gt_cases n 0) as [Hn|Hn].
  - replace (Z.to_nat n) with 0%nat by lia. destruct (src >? dst); simpl; bcases; done.
  - destruct (Z.gtb_spec src dst); [rewrite load8_copy_up by lia|rewrite load8_copy_down by lia];
      rewrite Z2Nat.id by lia; bcases; simpl; try done; f_equal; lia.
Qed.

(** The string routines of the user programs. strcmp gives 0 exactly for
    equal strings and otherwise the difference of the first characters that
    differ; strlen counts the characters; strcpy copies a string with its nul
    and changes nothing else; memmove copies as if through a temporary,
    whatever the overlap. The scans stop within the length of the string. *)
Theorem user_strings_correct m p q a b fuel :
  string_at m p a -> string_at m q b ->
  Z.of_nat (length a) < 2 ^ 31 -> (length a < fuel)%nat ->
  strcmp fuel m p q = Some (string_diff a b) /\ (string_diff a b = 0 <-> a = b) /\
  u_strlen fuel m p 0 = Some (Z.of_nat (length a)) /\
  (forall d, d + Z.of_nat (length a) < p \/ p + Z.of_nat (length a) < d ->
    exists m', strcpy fuel m d p = Some m' /\ string_at m' d a /\
      forall x, ~ (d <= x <= d + Z.of_nat (length a)) -> load8 m' x = load8 m x) /\
  (forall dst src n x, load8 (u_memmove m dst src n) x =
    if (dst <=? x) && (x <? dst + n) then load8 m (src + (x - dst)) else load8 m x).
Proof.
  intros Ha Hb Hl Hf. split_and!; [by apply strcmp_spec| | | |].
  - apply string_diff_eq; by eapply string_at_nonzero.
  - rewrite (u_strlen_spec _ _ _ a 0); [done|by rewrite Z.add_0_r|lia..].
  - intros d Hd. by apply strcpy_spec.
  - apply load8_u_memmove.
Qed.

Lemma user_strings_correct_witness :
  let m := store_bytes ∅ 100 (bytes_of "ab" ++ [0] ++ bytes_of "ac" ++ [0]) in
  strcmp 10 m 100 103 = Some (-1) /\ u_strlen 10 m 100 0 = Some 2.
Proof.
  intros m. destruct (user_strings_correct m 100 103 (bytes_of "ab") (bytes_of "ac") 10) as (H1 & _ & H2 & _).
  1,2: vm_compute; repeat split; discriminate.
  1,2: vm_compute; try reflexivity; lia.
  split; [exact H1|exact H2].
Defined.

(** ** Numbers *)

Lemma u_digit_10 x : 0 <= x < 10 -> u_digit x = 48 + x.
Proof.
  intros Hn. assert (x ∈ seqZ 0 10) as H by (apply elem_of_seqZ; lia).
  change (seqZ 0 10) with [0; 1; 2; 3; 4; 5; 6; 7; 8; 9] in H.
  repeat (apply elem_of_cons in H as [->|H]; [done|]). by apply elem_of_nil in H.
Qed.

Lemma atoi_digits fuel x rest :
  0 <= x < 2 ^ 31 -> x < 10 ^ Z.of_nat fuel -> (0 < fuel)%nat ->
  atoi_loop (reverse (u_printint_digits fuel x 10) ++ rest) 0 = atoi_loop rest x.
Proof.
  revert x rest. induction fuel as [|fuel IH]; intros x rest Hx Hp Hf; [lia|]. cbn [u_printint_digits].
  rewrite reverse_cons, <- app_assoc. rewrite u_digit_10 by (apply Z.mod_pos_bound; lia).
  assert (Hstep : atoi_loop (48 + x mod 10 :: rest) (x / 10) = atoi_loop rest x).
  { cbn [atoi_loop]. pose proof (Z.mod_pos_bound x 10 ltac:(lia)). rewrite !(proj2 (Z.leb_le _ _)) by lia. cbn [andb].
    f_equal. unfold i32. rewrite Z.mod_small; [|pose proof (Z.div_mod x 10 ltac:(lia)); lia].
    pose proof (Z.div_mod x 10 ltac:(lia)). lia. }
  destruct (Z.eqb_spec (x / 10) 0) as [E|E]; cbn [negb].
  - rewrite reverse_nil. cbn [app]. rewrite E in Hstep. exact Hstep.
  - rewrite IH; [exact Hstep|split; [apply Z.div_pos; lia|apply Z.div_lt_upper_bound; lia]| |].
    + apply Z.div_lt_upper_bound; [lia|]. rewrite <- Z.pow_succ_r by lia. by rewrite <- Nat2Z.inj_succ.
    + destruct fuel; [|lia]. change (10 ^ Z.of_nat 1) with 10 in Hp. rewrite Z.div_small in E; lia.
Qed.

(** What printf writes for a non-negative int with %d, atoi reads back. *)
Theorem printf_atoi n rest :
  0 <= n < 2 ^ 31 ->
  exists ds, u_printf (bytes_of "%d") [A_int n] = Some (1, ds) /\ atoi (ds ++ 0 :: rest) = n.
Proof.
  intros Hn. exists (u_printint n 10 true ++ []). split; [done|]. rewrite app_nil_r. unfold atoi, u_printint.
  rewrite (proj2 (Z.ltb_ge _ _)) by lia. cbn [andb]. rewrite app_nil_r.
  replace (u32 n) with n by (unfold u32; rewrite Z.mod_small; lia).
  rewrite atoi_digits; [done|lia| |lia]. change (Z.of_nat 32) with 32. lia.
Qed.

Lemma printf_atoi_witness : exists ds, u_printf (bytes_of "%d") [A_int 2147483647] = Some (1, ds) /\ atoi (ds ++ [0]) = 2147483647.
Proof. apply (printf_atoi 2147483647 []). split; [discriminate|reflexivity]. Defined.

Lemma u_printint_digits_10 n y : u_printint_digits n y 10 = printint_digits n y 10.
Proof.
  revert y. induction n as [|n IH]; intros y; [done|]. cbn [u_printint_digits printint_digits]. rewrite IH. f_equal.
  assert (y mod 10 ∈ seqZ 0 10) as H by (apply elem_of_seqZ; pose proof (Z.mod_pos_bound y 10); lia).
  change (seqZ 0 10) with [0; 1; 2; 3; 4; 5; 6; 7; 8; 9] in H.
  repeat (apply elem_of_cons in H as [->|H]; [done|]). by apply elem_of_nil in H.
Qed.

(** The numbers of the kernel's printf and of the user's are the same in base 10. *)
Lemma u_printint_kernel x : u_printint x 10 true = printint_chars x 10 true.
Proof. unfold u_printint, printint_chars. by rewrite u_printint_digits_10. Qed.
