(* ===== verification/Grep.v ===== *)
(** user/grep.c: the regular expression matcher of Kernighan and Pike and the
    loop that reads a file in pieces. A string is the list of its characters
    before the nul. What [read] gives is a parameter: the bytes of the file, in
    pieces whose sizes the kernel chooses. *)

From S2P Require Import Prelude Machine Ulib.

(** ** The matcher *)

Definition caret : Z := 94.
Definition dollar : Z := 36.
Definition dot : Z := 46.
Definition star : Z := 42.
Definition newline : Z := 10.

(** [matchstar(c, re, text)], where [mh] is matchhere for [re]. *)
Fixpoint matchstar (mh : list Z -> bool) (c : Z) (text : list Z) : bool :=
  mh text ||
  match text with
  | [] => false
  | t :: text => if (t =? c) || (c =? dot) then matchstar mh c text else false
  end.

Fixpoint matchhere (re text : list Z) : bool :=
  match re with
  | [] => true
  | r :: re' =>
    match re' with
    | r1 :: re'' =>
      if r1 =? star then matchstar (matchhere re'') r text
      else
        match text with
        | t :: text' => if (r =? dot) || (r =? t) then matchhere re' text' else false
        | [] => false
        end
    | [] =>
      if r =? dollar then bool_decide (text = [])
      else
        match text with
        | t :: text' => if (r =? dot) || (r =? t) then matchhere re' text' else false
        | [] => false
        end
    end
  end.

(** The do-while loop of [match]. *)
Fixpoint match_loop (re text : list Z) : bool :=
  matchhere re text ||
  match text with
  | [] => false
  | _ :: text => match_loop re text
  end.

(** [match(re, text)] *)
Definition grep_match (re text : list Z) : bool :=
  match re with
  | r :: re' => if r =? caret then matchhere re' text else match_loop re text
  | [] => match_loop re text
  end.

(** ** What a pattern means *)

Inductive item := One (c : Z) | Star (c : Z).

(** The items of a pattern, and whether it ends with [$]. *)
Fixpoint parse (re : list Z) : list item * bool :=
  match re with
  | [] => ([], false)
  | r :: re' =>
    match re' with
    | r1 :: re'' =>
      if r1 =? star then ((Star r :: (parse re'').1), (parse re'').2)
      else ((One r :: (parse re').1), (parse re').2)
    | [] => if r =? dollar then ([], true) else ([One r], false)
    end
  end.

(** [c] stands for the character [x]. *)
Definition stands (c x : Z) : Prop := c = dot \/ c = x.

(** The strings an item list describes. *)
Fixpoint lang (l : list item) (s : list Z) : Prop :=
  match l with
  | [] => s = []
  | One c :: l => exists x s', s = x :: s' /\ stands c x /\ lang l s'
  | Star c :: l => exists a b, s = a ++ b /\ Forall (stands c) a /\ lang l b
  end.

(** The pattern describes a prefix of [text], all of it when it ends with [$]. *)
Definition prefix_matches (p : list item * bool) (text : list Z) : Prop :=
  exists s rest, text = s ++ rest /\ lang p.1 s /\ (p.2 = true -> rest = []).

Definition pattern_matches (re text : list Z) : Prop :=
  match re with
  | r :: re' =>
    if r =? caret then prefix_matches (parse re') text
    else exists before after, text = before ++ after /\ prefix_matches (parse re) after
  | [] => True
  end.

Lemma stands_spec c x : (c =? dot) || (c =? x) = true <-> stands c x.
Proof. unfold stands. rewrite orb_true_iff, !Z.eqb_eq. done. Qed.

Lemma stands_spec' c x : (x =? c) || (c =? dot) = true <-> stands c x.
Proof. by rewrite orb_comm, (Z.eqb_sym x c), stands_spec. Qed.

Lemma matchstar_spec mh c text :
  matchstar mh c text = true <-> exists a b, text = a ++ b /\ Forall (stands c) a /\ mh b = true.
Proof.
  induction text as [|t text IH]; cbn [matchstar]; rewrite orb_true_iff.
  - split.
    + intros [H|H]; [|done]. by exists [], [].
    + intros (a & b & E & _ & H). symmetry in E. apply app_eq_nil in E as [-> ->]. by left.
  - split.
    + intros [H|H]; [by exists [], (t :: text)|].
      destruct ((t =? c) || (c =? dot)) eqn:E; [|done]. apply IH in H as (a & b & -> & Ha & Hb).
      exists (t :: a), b. split_and!; [done| |done]. constructor; [|done]. by apply stands_spec'.
    + intros (a & b & E & Ha & Hb). destruct a as [|x a]; [left; simpl in E; by subst|right].
      injection E as <- ->. apply Forall_cons in Ha as [Hx%stands_spec' Ha]. rewrite Hx. apply IH. by exists a, b.
Qed.

(** One character of the pattern against one of the text. *)
Lemma one_spec c l e text :
  prefix_matches (One c :: l, e) text <->
  match text with t :: text' => stands c t /\ prefix_matches (l, e) text' | [] => False end.
Proof.
  unfold prefix_matches; simpl. split.
  - intros (s & rest & -> & (x & s' & -> & Hx & Hl) & He). simpl. split; [done|]. by exists s', rest.
  - destruct text as [|t text]; [done|]. intros [Ht (s & rest & -> & Hl & He)].
    exists (t :: s), rest. split_and!; [done| |done]. by exists t, s.
Qed.

Lemma star_spec c l e text :
  prefix_matches (Star c :: l, e) text <->
  exists a b, text = a ++ b /\ Forall (stands c) a /\ prefix_matches (l, e) b.
Proof.
  unfold prefix_matches; simpl. split.
  - intros (s & rest & -> & (a & b & -> & Ha & Hl) & He). exists a, (b ++ rest).
    split_and!; [by rewrite app_assoc|done|]. by exists b, rest.
  - intros (a & b & -> & Ha & (s & rest & -> & Hl & He)). exists (a ++ s), rest.
    split_and!; [by rewrite app_assoc| |done]. by exists a, s.
Qed.

Lemma nil_spec text : prefix_matches ([], false) text.
Proof. by exists [], text. Qed.

Lemma end_spec text : prefix_matches ([], true) text <-> text = [].
Proof.
  split; [|intros ->; by exists [], []]. intros (s & rest & -> & -> & He). by rewrite (He eq_refl).
Qed.

Lemma matchhere_cons r r1 re text :
  matchhere (r :: r1 :: re) text =
  if r1 =? star then matchstar (matchhere re) r text
  else match text with
       | t :: text' => if (r =? dot) || (r =? t) then matchhere (r1 :: re) text' else false
       | [] => false
       end.
Proof. done. Qed.

Lemma parse_cons r r1 re :
  parse (r :: r1 :: re) =
  if r1 =? star then ((Star r :: (parse re).1), (parse re).2)
  else ((One r :: (parse (r1 :: re)).1), (parse (r1 :: re)).2).
Proof. done. Qed.

Lemma matchhere_spec re text : matchhere re text = true <-> prefix_matches (parse re) text.
Proof.
  remember (length re) as n eqn:Hn. revert re text Hn. induction n as [n IH] using lt_wf_ind.
  intros [|r [|r1 re]] text ->.
  - split; [intros _; apply nil_spec|done].
  - cbn [matchhere parse]. destruct (Z.eqb_spec r dollar) as [->|Hr].
    + rewrite end_spec. apply bool_decide_eq_true.
    + rewrite one_spec. destruct text as [|t text]; [done|]. rewrite <- stands_spec.
      destruct (_ || _); split; try done; [|by intros [? _]]. intros _. split; [done|apply nil_spec].
  - rewrite matchhere_cons, parse_cons. destruct (Z.eqb_spec r1 star) as [->|Hr1].
    + destruct (parse re) as [l e] eqn:Ep. simpl. rewrite star_spec, matchstar_spec.
      assert (Hre : forall b, matchhere re b = true <-> prefix_matches (l, e) b).
      { intros b. rewrite <- Ep. apply (IH (length re)); [simpl; lia|done]. }
      split; intros (a & b & E & Ha & Hb%Hre); by exists a, b.
    + destruct (parse (r1 :: re)) as [l e] eqn:Ep. simpl fst; simpl snd. rewrite one_spec.
      destruct text as [|t text]; [done|]. rewrite <- stands_spec.
      destruct (_ || _); [|split; [done|by intros [? _]]].
      rewrite (IH (length (r1 :: re))) by (simpl; lia || done). rewrite Ep. tauto.
Qed.

Lemma match_loop_spec re text :
  match_loop re text = true <-> exists before after, text = before ++ after /\ prefix_matches (parse re) after.
Proof.
  induction text as [|t text IH]; cbn [match_loop]; rewrite orb_true_iff, matchhere_spec.
  - split.
    + intros [H|H]; [|done]. by exists [], [].
    + intros (a & b & E & H). symmetry in E. apply app_eq_nil in E as [-> ->]. by left.
  - rewrite IH. split.
    + intros [H|(a & b & -> & H)]; [by exists [], (t :: text)|]. by exists (t :: a), b.
    + intros ([|x a] & b & E & H); [left; simpl in E; by subst|right].
      injection E as -> ->. by exists a, b.
Qed.

(** ** Reading the file *)

(** [sizeof(buf)] *)
Definition grep_bufsz : nat := 1024.

(** The inner loop: what is written, and the bytes from [p] on that hold no
    whole line. Every round uses up a byte of [p]. *)
Fixpoint grep_lines (fuel : nat) (pattern p : list Z) : list Z * list Z :=
  match fuel with
  | O => ([], p)
  | S fuel =>
    match strchr p newline with
    | None => ([], p)
    | Some k =>
      let line := take k p in
      let r := grep_lines fuel pattern (drop (S k) p) in
      ((if grep_match pattern line then line ++ [newline] else []) ++ r.1, r.2)
    end
  end.

(** [grep(pattern, fd)] with [buf] the bytes kept and [inp] the rest of the file:
    the bytes written to the standard output. Each element of [sizes] is the
    limit the kernel puts on one [read]. *)
Fixpoint grep (sizes : list nat) (pattern buf inp : list Z) : list Z :=
  match sizes with
  | [] => []
  | k :: sizes =>
    let n := Nat.min (S k) (Nat.min (grep_bufsz - length buf - 1) (length inp)) in
    if (n =? 0)%nat then []
    else
      let buf := buf ++ take n inp in
      let r := grep_lines (S (length buf)) pattern buf in
      r.1 ++ grep sizes pattern r.2 (drop n inp)
  end.

(** ** The lines of a text *)

(** The complete lines of [cur ++ s], where [cur] is read already. *)
Fixpoint lines (cur s : list Z) : list (list Z) :=
  match s with
  | [] => []
  | c :: s => if c =? newline then cur :: lines [] s else lines (cur ++ [c]) s
  end.

(** The lines that match, each with its newline. *)
Definition selected (pattern : list Z) (l : list (list Z)) : list Z :=
  concat ((fun line => if grep_match pattern line then line ++ [newline] else []) <$> l).

Lemma lines_keep cur acc s : Forall (fun c => c <> newline) cur -> lines acc (cur ++ s) = lines (acc ++ cur) s.
Proof.
  intros H. revert acc. induction H as [|c cur Hc H IH]; intros acc; [by rewrite app_nil_r|]. cbn [app lines].
  rewrite (proj2 (Z.eqb_neq _ _) Hc), IH. by rewrite <- app_assoc.
Qed.

Lemma strchr_spec s : Forall (fun c => c <> 0) s ->
  match strchr s newline with
  | None => Forall (fun c => c <> newline) s
  | Some k => exists rest, s = take k s ++ newline :: rest /\ rest = drop (S k) s /\ Forall (fun c => c <> newline) (take k s)
  end.
Proof.
  induction 1 as [|c s Hc H IH]; cbn [strchr]; [done|]. rewrite (proj2 (Z.eqb_neq _ _) Hc).
  destruct (Z.eqb_spec c newline) as [->|Hn]; [by exists s|].
  destruct (strchr s newline) as [k|]; simpl.
  - destruct IH as (rest & E & -> & Hl). exists (drop (S k) s). split_and!; [by f_equal|done|by constructor].
  - by constructor.
Qed.

Lemma grep_lines_spec fuel pattern p inp :
  Forall (fun c => c <> 0) p -> (length p < fuel)%nat ->
  let r := grep_lines fuel pattern p in
  Forall (fun c => c <> newline) r.2 /\ Forall (fun c => c <> 0) r.2 /\ (length r.2 <= length p)%nat /\
  exists done, lines [] (p ++ inp) = done ++ lines r.2 inp /\ selected pattern done = r.1.
Proof.
  revert p. induction fuel as [|fuel IH]; intros p Hp Hf; [lia|]. cbn [grep_lines].
  pose proof (strchr_spec p Hp) as Hs. destruct (strchr p newline) as [k|].
  - destruct Hs as (rest & E & Er & Hk). destruct (IH (drop (S k) p)) as (I1 & I2 & I3 & dn & I4 & I5).
    { by apply Forall_drop. }
    { assert (0 < length p)%nat by (rewrite E, length_app; simpl; lia). rewrite length_drop. lia. }
    cbn [fst snd]. split_and!; [done|done|rewrite length_drop in I3; lia|].
    exists (take k p :: dn). split.
    + rewrite E at 1. rewrite <- app_assoc, lines_keep by done. cbn [app lines]. change (newline =? newline) with true.
      rewrite Er, I4. done.
    + unfold selected in *. cbn [fmap list_fmap concat]. by rewrite I5.
  - split_and!; [done|done|done|]. exists []. split; [|done]. by rewrite lines_keep.
Qed.

Lemma lines_grow cur s l ls : lines cur s = l :: ls -> (length cur <= length l)%nat.
Proof.
  revert cur. induction s as [|x s IH]; intros cur E; [done|]. cbn [lines] in E.
  destruct (x =? newline); [by injection E as <- _|]. apply IH in E. rewrite length_app in E. simpl in E. lia.
Qed.

Lemma grep_spec sizes pattern buf inp :
  Forall (fun c => c <> newline) buf -> Forall (fun c => c <> 0) buf -> Forall (fun c => c <> 0) inp ->
  (length inp < length sizes)%nat -> (length buf < grep_bufsz)%nat ->
  Forall (fun l => length l < grep_bufsz - 1)%nat (lines buf inp) ->
  grep sizes pattern buf inp = selected pattern (lines buf inp).
Proof.
  revert buf inp. induction sizes as [|k sizes IH]; intros buf inp Hn H0 Hi Hs Hb Hl; [simpl in Hs; lia|].
  cbn [grep]. set (n := Nat.min _ _).
  destruct (Nat.eqb_spec n 0) as [E|E].
  { assert (lines buf inp = []) as ->; [|done].
    destruct inp as [|c inp]; [done|]. assert (length buf = grep_bufsz - 1)%nat by (subst n; cbn [length] in E; lia).
    destruct (lines buf (c :: inp)) as [|l ls] eqn:El; [done|]. exfalso.
    apply Forall_cons in Hl as [Hl _]. apply lines_grow in El. lia. }
  assert (Hn' : (n <= length inp)%nat /\ (n <= grep_bufsz - length buf - 1)%nat) by lia. clearbody n.
  destruct (grep_lines_spec (S (length (buf ++ take n inp))) pattern (buf ++ take n inp) (drop n inp))
    as (G1 & G2 & G3 & dn & G4 & G5); [by apply Forall_app; split; [|apply Forall_take]|lia|].
  assert (El : lines buf inp = dn ++ lines (grep_lines (S (length (buf ++ take n inp))) pattern (buf ++ take n inp)).2 (drop n inp)).
  { rewrite <- G4, <- app_assoc, take_drop. by rewrite lines_keep. }
  rewrite El in Hl. apply Forall_app in Hl as [_ Hl].
  rewrite IH; try done.
  - rewrite El. unfold selected in *. by rewrite fmap_app, concat_app, G5.
  - by apply Forall_drop.
  - rewrite length_drop. simpl in Hs. lia.
  - pose proof (length_app buf (take n inp)). pose proof (length_take inp n). lia.
Qed.

(** C33: The matcher agrees with what patterns mean: a character matches itself
    and a dot any character, [c*] any number of characters that [c] matches, a
    final [$] requires the end of the text, a leading [^] its beginning, and any
    other pattern may match anywhere in the text. *)
Theorem grep_match_correct re text : grep_match re text = true <-> pattern_matches re text.
Proof.
  unfold grep_match, pattern_matches. destruct re as [|r re].
  - split; [done|intros _]. apply match_loop_spec. exists [], text. split; [done|apply nil_spec].
  - destruct (r =? caret); [apply matchhere_spec|apply match_loop_spec].
Qed.

(** C34: grep writes exactly the complete lines that match, in order, however
    the kernel cuts the file into pieces, provided the file holds no nul byte
    and every complete line is shorter than the buffer allows (1022 characters).
    It stops after at most one read per byte and one more. *)
Theorem grep_correct sizes pattern inp :
  Forall (fun c => c <> 0) inp -> Forall (fun l => length l < grep_bufsz - 1)%nat (lines [] inp) ->
  (length inp < length sizes)%nat ->
  grep sizes pattern [] inp =
  concat ((fun line => if grep_match pattern line then line ++ [newline] else []) <$> lines [] inp).
Proof. intros H0 Hl Hs. apply grep_spec; try done. unfold grep_bufsz. simpl. lia. Qed.

(** [a.*c] finds the second line of three, in pieces of at most two bytes. *)
Lemma grep_correct_witness :
  grep (replicate 20 1%nat) [97; 46; 42; 99] [] [97; 98; 10; 97; 98; 99; 10; 99; 10] = [97; 98; 99; 10].
Proof.
  rewrite (grep_correct (replicate 20 1%nat) [97; 46; 42; 99] [97; 98; 10; 97; 98; 99; 10; 99; 10]).
  - vm_compute. reflexivity.
  - repeat constructor; discriminate.
  - vm_compute. repeat constructor.
  - vm_compute. repeat constructor.
Defined.
