(* ===== verification/Primes.v ===== *)
(** user/primes.c: the sieve of Eratosthenes. *)

From Stdlib Require Import Znumtheory.
From S2P Require Import Prelude Machine Console Grep.

(** ** primes.c *)

(** [for (int j = i * i; j <= high; j += i) arr[j] = 0;] *)
Fixpoint cross_out (fuel : nat) (high i j : Z) (arr : list Z) : list Z :=
  match fuel with
  | O => arr
  | S fuel => if j <=? high then cross_out fuel high i (j + i) (<[Z.to_nat j := 0]> arr) else arr
  end.

(** The outer loop from [i] on. *)
Fixpoint sieve (fuel : nat) (high i : Z) (arr : list Z) : list Z :=
  match fuel with
  | O => arr
  | S fuel =>
    if i <=? high then
      sieve fuel high (i + 1)
        (if default 0 (arr !! Z.to_nat i) =? 1 then cross_out (S (Z.to_nat high)) high i (i * i) arr else arr)
    else arr
  end.

(** [arr] after the first loop; its first two elements are what the stack held. *)
Definition arr_init (x0 x1 : Z) (high : Z) : list Z := [x0; x1] ++ replicate (Z.to_nat (high - 1)) 1.

(** The numbers that main prints. *)
Definition primes_of (x0 x1 high : Z) : list Z :=
  let arr := sieve (Z.to_nat high) high 2 (arr_init x0 x1 high) in
  filter (fun i => default 0 (arr !! Z.to_nat i) = 1) (seqZ 2 (high - 1)).

Definition high : Z := 35.

(** What [main] prints. *)
Definition primes_main (x0 x1 : Z) : list Z :=
  concat ((fun i => bytes_of "prime " ++ printint_chars i 10 true ++ [10]) <$> primes_of x0 x1 high).

(** *** The sieve *)

#[local] Instance divide_dec (a b : Z) : Decision (a | b) := Zdivide_dec a b.

(** [arr] marks the numbers that no divisor below [i] has crossed out. *)
Definition sieved (high i : Z) (arr : list Z) : Prop :=
  Z.of_nat (length arr) = high + 1 /\
  forall n, 2 <= n <= high -> (arr !! Z.to_nat n = Some 1 \/ arr !! Z.to_nat n = Some 0) /\
    (arr !! Z.to_nat n = Some 0 <-> exists d, 2 <= d < i /\ (d | n) /\ d * d <= n).

Lemma cross_out_spec fuel high i j arr :
  2 <= i -> 0 <= j -> Z.of_nat (length arr) = high + 1 -> high < j + Z.of_nat fuel * i ->
  length (cross_out fuel high i j arr) = length arr /\
  forall n, 0 <= n <= high -> cross_out fuel high i j arr !! Z.to_nat n = if bool_decide (j <= n /\ (i | n - j)) then Some 0 else arr !! Z.to_nat n.
Proof.
  intros Hi. revert j arr. induction fuel as [|fuel IH]; intros j arr Hj Hl Hf; cbn [cross_out].
  - split; [done|]. intros n Hn. rewrite bool_decide_eq_false_2; [done|]. lia.
  - destruct (Z.leb_spec j high) as [Hjh|Hjh].
    + destruct (IH (j + i) (<[Z.to_nat j := 0]> arr)) as [I1 I2]; [lia|by rewrite length_insert|nia|].
      split; [by rewrite I1, length_insert|]. intros n Hn. rewrite I2 by done.
      destruct (decide (n = j)) as [->|Hne].
      * rewrite (bool_decide_eq_true_2 (j <= j /\ (i | j - j))) by (split; [lia|rewrite Z.sub_diag; apply Z.divide_0_r]).
        rewrite bool_decide_eq_false_2 by lia. apply list_lookup_insert_eq. lia.
      * rewrite list_lookup_insert_ne by lia.
        assert (Hiff : (j + i <= n /\ (i | n - (j + i))) <-> (j <= n /\ (i | n - j))).
        { split; intros [H1 [q Hq]].
          - split; [lia|]. exists (q + 1). lia.
          - assert (1 <= q) by nia. split; [nia|]. exists (q - 1). lia. }
        by rewrite (bool_decide_ext _ _ Hiff).
    + split; [done|]. intros n Hn. rewrite bool_decide_eq_false_2; [done|]. lia.
Qed.

Lemma sieve_step high i arr :
  2 <= i <= high -> sieved high i arr ->
  sieved high (i + 1) (if default 0 (arr !! Z.to_nat i) =? 1 then cross_out (S (Z.to_nat high)) high i (i * i) arr else arr).
Proof.
  intros Hi [Hl Hs]. destruct (Hs i Hi) as [Hor Hi0].
  destruct (cross_out_spec (S (Z.to_nat high)) high i (i * i) arr) as [C1 C2]; [lia|nia|done|nia|].
  set (X := cross_out _ _ _ _ _) in *. clearbody X.
  destruct Hor as [E|E]; rewrite E; [change (default 0 (Some 1) =? 1) with true|change (default 0 (Some 0) =? 1) with false]; cbv iota.
  - split; [by rewrite C1|]. intros n Hn. destruct (Hs n Hn) as [Ho Hz]. rewrite C2 by lia.
    case_bool_decide as Hc.
    + split; [by right|]. split; [|done]. intros _. destruct Hc as [Hc1 [q Hq]].
      exists i. split_and!; [lia|lia| |done]. exists (q + i). lia.
    + split; [done|]. rewrite Hz. split; intros (d & Hd1 & Hd2 & Hd3); exists d; (split; [|split; [done|done]]); [lia|].
      destruct (decide (d = i)) as [->|]; [|lia]. exfalso. apply Hc. split; [done|].
      destruct Hd2 as [q ->]. exists (q - i). lia.
  - apply Hi0 in E as (d & Hd1 & Hd2 & Hd3). split; [done|]. intros n Hn. destruct (Hs n Hn) as [Ho Hz].
    split; [done|]. rewrite Hz. split; intros (d' & Hd1' & Hd2' & Hd3').
    + exists d'. split_and!; [lia|lia|done|done].
    + destruct (decide (d' = i)) as [->|]; [|exists d'; split_and!; [lia|lia|done|done]].
      exists d. split_and!; [lia|lia| |nia]. by apply (Z.divide_trans _ i).
Qed.

Lemma sieve_spec fuel high i arr :
  2 <= i <= high + 1 -> high - i < Z.of_nat fuel -> sieved high i arr -> sieved high (high + 1) (sieve fuel high i arr).
Proof.
  revert i arr. induction fuel as [|fuel IH]; intros i arr Hi Hf Hs; cbn [sieve].
  - by replace (high + 1) with i by lia.
  - destruct (Z.leb_spec i high) as [Hle|Hgt]; [|by replace (high + 1) with i by lia].
    apply IH; [lia|lia|]. apply sieve_step; [lia|done].
Qed.

Lemma not_prime_small n : 2 <= n -> ~ prime n <-> exists d, 2 <= d /\ (d | n) /\ d * d <= n.
Proof.
  intros Hn. split.
  - intros (d & Hd & [q Hq])%not_prime_divide; [|lia]. destruct (decide (d * d <= n)).
    + exists d. split_and!; [lia|by exists q|done].
    + exists q. assert (2 <= q) by nia. split_and!; [done|exists d; lia|nia].
  - intros (d & Hd & Hdiv & Hsq) Hp. destruct (prime_divisors n Hp d Hdiv) as [H|[H|[H|H]]]; nia.
Qed.

#[local] Instance prime_decision n : Decision (prime n) := prime_dec n.

Lemma filter_ext_in (P Q : Z -> Prop) `{forall x, Decision (P x)} `{forall x, Decision (Q x)} (l : list Z) :
  (forall x, x ∈ l -> P x <-> Q x) -> filter P l = filter Q l.
Proof.
  intros Hl. induction l as [|x l IH]; [done|]. rewrite !filter_cons.
  rewrite IH by (intros y Hy; apply Hl; by right). specialize (Hl x ltac:(left)).
  destruct (decide (P x)), (decide (Q x)); tauto.
Qed.

(** The sieve prints exactly the prime numbers up to [high], in increasing
    order, whatever the two unused elements of [arr] held. The bound keeps
    [i * i] within an int. *)
Theorem primes_correct x0 x1 high :
  2 <= high <= 46340 -> primes_of x0 x1 high = filter prime (seqZ 2 (high - 1)).
Proof.
  intros Hh. unfold primes_of. cbv zeta. apply filter_ext_in. intros n Hn%elem_of_seqZ.
  assert (Hs : sieved high (high + 1) (sieve (Z.to_nat high) high 2 (arr_init x0 x1 high))).
  { apply sieve_spec; [lia|lia|]. split; [unfold arr_init; rewrite length_app, length_replicate; simpl; lia|].
    intros m Hm. unfold arr_init. rewrite lookup_app_r by (simpl; lia). simpl length.
    rewrite lookup_replicate_2 by lia. split; [by left|]. split; [done|]. intros (d & Hd & _). lia. }
  destruct (proj2 Hs n ltac:(lia)) as [Ho Hz]. clear Hs. split.
  - intros E. destruct (prime_dec n) as [?|Hnp]; [done|]. exfalso.
    apply not_prime_small in Hnp as (d & H1 & H2 & H3); [|lia].
    rewrite (proj2 Hz) in E; [done|]. exists d. split_and!; [done|nia|done|done].
  - intros Hp. destruct Ho as [->|E]; [done|]. exfalso. apply Hz in E as (d & H1 & H2 & H3).
    apply (proj2 (not_prime_small n ltac:(lia))); [|done]. exists d. split_and!; [lia|done|done].
Qed.

Lemma primes_correct_witness :
  primes_of 7 9 high = [2; 3; 5; 7; 11; 13; 17; 19; 23; 29; 31] /\
  filter prime (seqZ 2 (high - 1)) = [2; 3; 5; 7; 11; 13; 17; 19; 23; 29; 31].
Proof.
  rewrite <- (primes_correct 7 9 high ltac:(unfold high; lia)). split; vm_compute; reflexivity.
Defined.
