(* ===== verification/Xargs.v ===== *)
(** user/xargs.c: splitting the standard input into arguments. The input is the
    list of bytes that [read] gives one by one; the buffer of [read_line] is not
    initialised, so its first contents are a parameter. [malloc] succeeds. *)

From S2P Require Import Prelude Machine ProcFs Grep.

Definition space : Z := 32.

(** [char buf[512]] and [char *new_arg[MAXARG]] *)
Definition xargs_bufsz : nat := 512.

(** [new_arg[cur_num] = malloc(strlen(buf) + 1); strcpy(new_arg[cur_num], buf)]:
    outside the arrays there is no telling. *)
Definition push_arg (args : list (list Z)) (buf : list Z) : option (list (list Z)) :=
  if (length args <? MAXARG)%nat then Some (args ++ [cstring buf]) else None.

(** The loop: the rest of the input, the buffer, [i] and the arguments. *)
Fixpoint read_line_loop (inp buf : list Z) (i : nat) (args : list (list Z)) : option (list Z * list Z * nat * list (list Z)) :=
  match inp with
  | [] => Some ([], buf, i, args)
  | c :: inp =>
    if (xargs_bufsz <=? i)%nat then None
    else
      let buf := <[i := c]> buf in
      if c =? space then
        let buf := <[i := 0]> buf in
        args ← push_arg args buf; read_line_loop inp buf 0 args
      else if c =? newline then
        let buf := <[i := 0]> buf in
        args ← push_arg args buf; Some (inp, buf, 0%nat, args)
      else read_line_loop inp buf (S i) args
  end.

(** [read_line(new_arg, cur_num)] with the first [cur_num] arguments given. *)
Definition read_line (junk inp : list Z) (args : list (list Z)) : option (list Z * list (list Z)) :=
  r ← read_line_loop inp junk 0 args;
  let '(inp, buf, i, args) := r in
  if (i =? 0)%nat then Some (inp, args)
  else if (xargs_bufsz <=? i + 1)%nat then None
  else args ← push_arg args (<[(i + 1)%nat := 0]> buf); Some (inp, args).

(** The while loop of [main]: the argument vectors that are executed. *)
Fixpoint xargs_loop (fuel : nat) (junk : nat -> list Z) (inp : list Z) (base : list (list Z)) : option (list (list (list Z))) :=
  match fuel with
  | O => None
  | S fuel =>
    r ← read_line (junk fuel) inp base;
    let '(inp, args) := r in
    if (length args =? length base)%nat then Some []
    else if (length args <? MAXARG)%nat then
      rest ← xargs_loop fuel junk inp base; Some (args :: rest)
    else None
  end.

(** ** Words *)

(** A word is free of separators and nul. *)
Definition word (w : list Z) : Prop := Forall (fun c => c <> space /\ c <> newline /\ c <> 0) w /\ (length w < xargs_bufsz)%nat.

Lemma cstring_word w rest : Forall (fun c => c <> 0) w -> cstring (w ++ 0 :: rest) = w.
Proof.
  induction 1 as [|c w Hc H IH]; [done|]. cbn [app cstring]. rewrite (proj2 (Z.eqb_neq _ _) Hc). by rewrite IH.
Qed.

Lemma word_nonzero w : word w -> Forall (fun c => c <> 0) w.
Proof. intros [H _]. eapply Forall_impl; [exact H|]. simpl. tauto. Qed.

(** Reading a word fills the buffer from [i] on. *)
Lemma read_word w inp buf i args :
  Forall (fun c => c <> space /\ c <> newline /\ c <> 0) w -> (i + length w <= xargs_bufsz)%nat -> length buf = xargs_bufsz ->
  read_line_loop (w ++ inp) buf i args =
  read_line_loop inp (take i buf ++ w ++ drop (i + length w) buf) (i + length w) args.
Proof.
  intros Hw. revert i buf. induction Hw as [|c w (H1 & H2 & _) Hw IH]; intros i buf Hi Hb.
  - simpl. rewrite Nat.add_0_r, take_drop. done.
  - cbn [app read_line_loop length] in *. rewrite (proj2 (Nat.leb_gt _ _)) by lia.
    rewrite (proj2 (Z.eqb_neq _ _) H1), (proj2 (Z.eqb_neq _ _) H2).
    rewrite IH by (rewrite ?length_insert; lia). f_equal; [|lia].
    replace (i + S (length w))%nat with (S i + length w)%nat by lia.
    rewrite drop_insert_lt by lia. rewrite (take_S_r _ _ c) by (apply list_lookup_insert_eq; lia).
    rewrite take_insert_ge by lia. by rewrite <- app_assoc.
Qed.

(** The buffer with a word and its nul at the start. *)
Lemma end_word (w buf : list Z) (c : Z) :
  length buf = xargs_bufsz -> (length w < xargs_bufsz)%nat ->
  exists rest, <[length w := 0]> (<[length w := c]> (w ++ drop (length w) buf)) = w ++ 0 :: rest /\
    length (w ++ 0 :: rest) = xargs_bufsz.
Proof.
  intros Hb Hw. exists (drop (S (length w)) buf). rewrite list_insert_insert_eq. split.
  - replace (length w) with (length w + 0)%nat at 1 by lia. rewrite insert_app_r. f_equal.
    destruct (lookup_lt_is_Some_2 buf (length w)) as [x Hx]; [lia|]. by rewrite (drop_S _ _ _ Hx).
  - rewrite length_app. cbn [length]. rewrite length_drop. lia.
Qed.

(** One word and the separator [c] after it. *)
Lemma read_sep w c inp buf args :
  word w -> length buf = xargs_bufsz -> (length args < MAXARG)%nat -> c = space \/ c = newline ->
  exists buf', length buf' = xargs_bufsz /\ (exists rest, buf' = w ++ 0 :: rest) /\
    read_line_loop (w ++ c :: inp) buf 0 args =
    if c =? space then read_line_loop inp buf' 0 (args ++ [w]) else Some (inp, buf', 0%nat, args ++ [w]).
Proof.
  intros Hw Hb Ha Hc. destruct (end_word w buf c Hb (proj2 Hw)) as (rest & E & El).
  exists (w ++ 0 :: rest). split_and!; [done|by exists rest|].
  rewrite read_word by first [apply Hw|done|destruct Hw; lia]. rewrite take_0, Nat.add_0_l. cbn [app read_line_loop].
  rewrite (proj2 (Nat.leb_gt _ _)) by apply Hw. rewrite E. unfold push_arg. rewrite (proj2 (Nat.ltb_lt _ _) Ha).
  rewrite cstring_word by (by apply word_nonzero). destruct Hc as [->| ->]; done.
Qed.

(** Words with spaces between them. *)
Fixpoint join (ws : list (list Z)) : list Z :=
  match ws with
  | [] => []
  | [w] => w
  | w :: ws => w ++ space :: join ws
  end.

Lemma read_words ws inp buf args :
  ws <> [] -> Forall word ws -> length buf = xargs_bufsz -> (length args + length ws <= MAXARG)%nat ->
  exists buf', read_line_loop (join ws ++ newline :: inp) buf 0 args = Some (inp, buf', 0%nat, args ++ ws).
Proof.
  intros Hne Hw. revert buf args. induction Hw as [|w ws Hw1 Hw IH]; intros buf args Hb Ha; [done|].
  cbn [length] in Ha. destruct ws as [|w2 ws].
  - destruct (read_sep w newline inp buf args Hw1 Hb) as (buf' & _ & _ & E); [lia|by right|]. exists buf'. exact E.
  - change (join (w :: w2 :: ws)) with (w ++ space :: join (w2 :: ws)).
    destruct (read_sep w space (join (w2 :: ws) ++ newline :: inp) buf args Hw1 Hb) as (buf1 & Hb1 & _ & E); [lia|by left|].
    rewrite <- app_assoc. cbn [app]. rewrite E. change (space =? space) with true. cbv iota.
    destruct (IH ltac:(done) buf1 (args ++ [w]) Hb1) as [buf' E']; [rewrite length_app; simpl in *; lia|].
    exists buf'. by rewrite E', <- app_assoc.
Qed.

(** Xargs runs its command once per line of input, with the line's words
    after the given arguments: for complete lines of words that fit in the
    buffer and in new_arg, whatever the buffer held before. It stops at the end
    of the input. *)
Theorem xargs_correct junk base ls fuel :
  (forall k, length (junk k) = xargs_bufsz) ->
  Forall (fun ws => ws <> [] /\ Forall word ws /\ length base + length ws < MAXARG)%nat ls ->
  (length ls < fuel)%nat ->
  xargs_loop fuel junk (concat ((fun ws => join ws ++ [newline]) <$> ls)) base = Some ((fun ws => base ++ ws) <$> ls).
Proof.
  intros Hj Hls. revert fuel. induction Hls as [|ws ls (Hne & Hw & Hlen) Hls IH]; intros fuel Hf;
    (destruct fuel as [|fuel]; [simpl in Hf; lia|]); cbn [xargs_loop fmap list_fmap concat].
  - unfold read_line. simpl. by rewrite Nat.eqb_refl.
  - rewrite <- app_assoc. unfold read_line. cbn [app].
    destruct (read_words ws (concat ((fun ws => join ws ++ [newline]) <$> ls)) (junk fuel) base Hne Hw (Hj fuel)) as [buf' E]; [lia|].
    rewrite E. simpl. rewrite length_app.
    assert (0 < length ws)%nat by (destruct ws; [done|simpl; lia]).
    rewrite (proj2 (Nat.eqb_neq _ _)) by lia. rewrite (proj2 (Nat.ltb_lt _ _)) by lia.
    rewrite IH by (simpl in Hf; lia). done.
Qed.

(** C40: When the input ends without a newline, the last argument is wrong: a
    word shorter than the one read before it gets one character of that word
    appended, because the nul is stored one byte too far. *)
Theorem xargs_stale_byte junk base w v x :
  length junk = xargs_bufsz -> word w -> word v -> v <> [] -> w !! length v = Some x -> (length base + 2 <= MAXARG)%nat ->
  read_line junk (w ++ space :: v) base = Some ([], base ++ [w; v ++ [x]]).
Proof.
  intros Hj Hw Hv Hne Hx Hb. unfold read_line.
  destruct (read_sep w space v junk base Hw Hj) as (buf & Hbuf & [rest ->] & E); [lia|by left|].
  rewrite E. change (space =? space) with true. cbv iota. pose proof (lookup_lt_Some _ _ _ Hx) as Hlt.
  rewrite <- (app_nil_r v) at 1. rewrite read_word by first [apply Hv|done|destruct Hv; lia].
  rewrite take_0, Nat.add_0_l. cbn [app read_line_loop mbind option_bind].
  destruct Hw as [Hw1 Hw2]. rewrite (proj2 (Nat.eqb_neq _ _)) by (destruct v; [done|simpl; lia]).
  rewrite (proj2 (Nat.leb_gt _ _)) by lia. unfold push_arg.
  rewrite length_app. rewrite (proj2 (Nat.ltb_lt _ _)) by (simpl; lia).
  assert (Hc : exists tl, <[(length v + 1)%nat := 0]> (v ++ drop (length v) (w ++ 0 :: rest)) = (v ++ [x]) ++ 0 :: tl).
  { rewrite insert_app_r, drop_app_le by lia. rewrite (drop_S _ _ _ Hx).
    destruct (drop (S (length v)) w ++ 0 :: rest) as [|y tl] eqn:El; [by apply app_eq_nil in El as [_ ?]|].
    exists tl. rewrite <- app_assoc. cbn [app]. by rewrite El. }
  destruct Hc as [tl ->]. simpl. rewrite cstring_word.
  - by rewrite <- app_assoc.
  - apply Forall_app. split; [by apply word_nonzero|]. constructor; [|done].
    by apply (Forall_lookup_1 _ _ _ _ (word_nonzero w (conj Hw1 Hw2)) Hx).
Qed.

Lemma xargs_correct_witness :
  xargs_loop 3 (fun _ => replicate xargs_bufsz 88) [97; 32; 98; 99; 10; 100; 10] [[120]] = Some [[[120]; [97]; [98; 99]]; [[120]; [100]]].
Proof.
  assert (H1 : forall k : nat, length ((fun _ : nat => replicate xargs_bufsz 88) k) = xargs_bufsz) by (intros; apply length_replicate).
  refine (xargs_correct (fun _ => replicate xargs_bufsz 88) [[120]] [[[97]; [98; 99]]; [[100]]] 3 H1 _ _).
  - assert (Hb : forall w : list Z, (length w <= 2)%nat -> (length w < xargs_bufsz)%nat) by (unfold xargs_bufsz; intros; lia).
    repeat constructor; try done; try (apply Hb; simpl; lia); simpl; unfold MAXARG; lia.
  - simpl. lia.
Defined.

(** After "hello", the last word "a" becomes "ae". *)
Lemma xargs_stale_byte_witness :
  read_line (replicate xargs_bufsz 88) ([104; 101; 108; 108; 111] ++ space :: [97]) [] = Some ([], [[104; 101; 108; 108; 111]; [97; 101]]).
Proof.
  assert (Hb : forall w : list Z, (length w <= 5)%nat -> (length w < xargs_bufsz)%nat) by (unfold xargs_bufsz; intros; lia).
  apply (xargs_stale_byte (replicate xargs_bufsz 88) [] [104; 101; 108; 108; 111] [97] 101).
  - apply length_replicate.
  - split; [repeat constructor; done|apply Hb; simpl; lia].
  - split; [repeat constructor; done|apply Hb; simpl; lia].
  - done.
  - done.
  - simpl. unfold MAXARG. lia.
Defined.
