(* ===== verification/Find.v ===== *)
(** user/find.c: walking a directory tree. What the kernel tells about paths is
    a parameter: the type of the file at a path that can be opened, and the
    records of a directory. The bytes that follow [de] in memory are another
    one, since [strcmp] reads them when a name fills all of its DIRSIZ bytes.
    [find] holds a descriptor while it walks a directory, so the number of free
    descriptors bounds the recursion. [fstat] of an open file into a local
    variable does not fail. *)

From S2P Require Import Prelude Machine KState Blocks Console ProcFs Fs Grep.

Section find.
Context (stat_type : list Z -> option Z) (dirents : list Z -> list (Z * list Z)) (after : list Z).

(** [char buf[512]] *)
Definition find_bufsz : nat := 512.

(** [open] followed by [fstat], with [fds] free descriptors. *)
Definition type_at (fds : nat) (path : list Z) : option Z :=
  match fds with
  | O => None
  | S _ => stat_type path
  end.

(** The path in [buf] for an entry: [memmove(p, de.name, DIRSIZ); p[DIRSIZ] = 0]. *)
Definition child (path name : list Z) : list Z := path ++ slash :: cstring name.

(** [strcmp(de.name, s) == 0] *)
Definition name_is (name s : list Z) : bool := bool_decide (cstring (name ++ after) = s).

Definition line (s : list Z) : list Z := s ++ [newline].

(** The body of the while loop for one record, where [walk] is find: what is
    written, with the descriptor it is written to. *)
Definition find_entry (fds : nat) (walk : list Z -> list (Z * list Z)) (path filename : list Z) (de : Z * list Z) :
    list (Z * list Z) :=
  if de.1 =? 0 then []
  else
    let buf := child path de.2 in
    match type_at fds buf with
    | None => [(1, line (bytes_of "ls: cannot stat " ++ buf))]
    | Some t =>
      if t =? T_FILE then
        if name_is de.2 filename then [(1, line buf)] else []
      else if t =? T_DIR then
        if name_is de.2 [46] || name_is de.2 [46; 46] then [] else walk buf
      else []
    end.

(** [find(path, filename)] with [fds] free descriptors. *)
Fixpoint find (fds : nat) (path filename : list Z) : list (Z * list Z) :=
  match fds with
  | O => [(2, line (bytes_of "ls: cannot open " ++ path))]
  | S fds =>
    match stat_type path with
    | None => [(2, line (bytes_of "ls: cannot open " ++ path))]
    | Some t =>
      if (t =? T_DEVICE) || (t =? T_FILE) then [(1, line (path ++ bytes_of " is not directory"))]
      else if t =? T_DIR then
        if (find_bufsz <? length path + 1 + DIRSIZ + 1)%nat then [(1, line (bytes_of "ls: path too long"))]
        else dirents path ≫= find_entry fds (fun buf => find fds buf filename) path filename
      else []
    end
  end.

(** ** What it should find *)

(** [p] is a file called [filename] under the directory [path]. *)
Inductive located (filename : list Z) : list Z -> list Z -> Prop :=
  | located_here path inum name :
      (inum, name) ∈ dirents path -> inum <> 0 -> stat_type (child path name) = Some T_FILE ->
      cstring name = filename -> located filename path (child path name)
  | located_below path inum name p :
      (inum, name) ∈ dirents path -> inum <> 0 -> stat_type (child path name) = Some T_DIR ->
      cstring name <> [46] -> cstring name <> [46; 46] ->
      located filename (child path name) p -> located filename path p.

(** [path] is a directory tree of height at most [n]: names are shorter than
    DIRSIZ, paths fit in the buffer, and every entry can be opened. *)
Fixpoint tree (n : nat) (path : list Z) : Prop :=
  match n with
  | O => False
  | S n =>
    stat_type path = Some T_DIR /\ (length path + 1 + DIRSIZ + 1 <= find_bufsz)%nat /\
    forall inum name, (inum, name) ∈ dirents path -> inum <> 0 ->
      0 ∈ name /\
      match stat_type (child path name) with
      | None => False
      | Some t => t = T_DIR -> cstring name <> [46] -> cstring name <> [46; 46] -> tree n (child path name)
      end
  end.

Lemma cstring_app name l : 0 ∈ name -> cstring (name ++ l) = cstring name.
Proof.
  induction name as [|c name IH]; [by intros ?%elem_of_nil|]. intros [<-|H]%elem_of_cons; [done|].
  cbn [app cstring]. destruct (c =? 0); [done|]. by rewrite IH.
Qed.

Lemma name_is_short name s : 0 ∈ name -> name_is name s = bool_decide (cstring name = s).
Proof. intros H. unfold name_is. by rewrite cstring_app. Qed.

(** The files printed, one per line. *)
Definition printed (ps : list (list Z)) : list (Z * list Z) := (fun p => (1, line p)) <$> ps.

(** [out] prints the paths of [P], and nothing else. *)
Definition prints (out : list (Z * list Z)) (P : list Z -> Prop) : Prop :=
  exists ps, out = printed ps /\ forall q, q ∈ ps <-> P q.

Lemma prints_nothing (P : list Z -> Prop) : (forall q, ~ P q) -> prints [] P.
Proof. intros H. exists []. split; [done|]. intros q. rewrite elem_of_nil. specialize (H q). tauto. Qed.

Lemma prints_line p (P : list Z -> Prop) : (forall q, P q <-> q = p) -> prints [(1, line p)] P.
Proof. intros H. exists [p]. split; [done|]. intros q. by rewrite H, list_elem_of_singleton. Qed.

Lemma prints_iff out (P Q : list Z -> Prop) : (forall q, P q <-> Q q) -> prints out P -> prints out Q.
Proof. intros H (ps & E & Hp). exists ps. split; [done|]. intros q. by rewrite Hp. Qed.

Lemma prints_concat {A} (f : A -> list (Z * list Z)) (P : A -> list Z -> Prop) l :
  (forall x, x ∈ l -> prints (f x) (P x)) -> prints (l ≫= f) (fun q => exists x, x ∈ l /\ P x q).
Proof.
  induction l as [|x l IH]; intros H.
  { apply prints_nothing. intros q (x & Hx%elem_of_nil & _). done. }
  destruct (H x) as (ps & E & Hp); [apply list_elem_of_here|].
  destruct IH as (ps' & E' & Hp'); [intros y Hy; by apply H, list_elem_of_further|].
  exists (ps ++ ps'). split.
  - rewrite bind_cons, E, E'. symmetry. apply fmap_app.
  - intros q. rewrite elem_of_app, Hp, Hp'. setoid_rewrite elem_of_cons. naive_solver.
Qed.

(** What one record contributes. *)
Definition entry_finds (path filename : list Z) (de : Z * list Z) (q : list Z) : Prop :=
  de.1 <> 0 /\
  (stat_type (child path de.2) = Some T_FILE /\ cstring de.2 = filename /\ q = child path de.2 \/
   stat_type (child path de.2) = Some T_DIR /\ cstring de.2 <> [46] /\ cstring de.2 <> [46; 46] /\
     located filename (child path de.2) q).

Lemma located_entries filename path q :
  located filename path q <-> exists de, de ∈ dirents path /\ entry_finds path filename de q.
Proof.
  unfold entry_finds. split.
  - destruct 1 as [path inum name|path inum name p]; exists (inum, name); cbn [fst snd]; naive_solver.
  - intros ([inum name] & Hin & Hi & [(? & ? & ->)|(? & ? & ? & ?)]); cbn [fst snd] in *.
    + by eapply located_here.
    + by eapply located_below.
Qed.

Lemma find_entry_spec fds walk n path filename de :
  (forall p, tree n p -> prints (walk p) (located filename p)) ->
  tree (S n) path -> de ∈ dirents path ->
  prints (find_entry (S fds) walk path filename de) (entry_finds path filename de).
Proof.
  intros Hwalk (_ & _ & Ht) Hin. destruct de as [inum name]. unfold find_entry, entry_finds. cbn [fst snd type_at].
  destruct (Z.eqb_spec inum 0) as [->|Hi]; [apply prints_nothing; tauto|].
  destruct (Ht _ _ Hin Hi) as [H0 Hs]. destruct (stat_type (child path name)) as [t|]; [|done].
  rewrite !name_is_short by done. destruct (Z.eqb_spec t T_FILE) as [->|Hf].
  - case_bool_decide; [apply prints_line|apply prints_nothing]; naive_solver.
  - destruct (Z.eqb_spec t T_DIR) as [->|Hd]; [|apply prints_nothing; naive_solver].
    destruct (bool_decide_reflect (cstring name = [46])), (bool_decide_reflect (cstring name = [46; 46])); cbn [orb];
      try (apply prints_nothing; naive_solver).
    eapply prints_iff; [|apply Hwalk; by apply Hs]. naive_solver.
Qed.

(** C36: on a tree of directories less high than the number of free descriptors,
    with names shorter than DIRSIZ and paths that fit in [buf], find terminates
    and prints, one per line on standard output, exactly the paths of the files
    called [filename] under [path], and no message. *)
Theorem find_correct n fds path filename :
  (n < fds)%nat -> tree n path -> prints (find fds path filename) (located filename path).
Proof.
  revert fds path. induction n as [|n IH]; intros fds path Hn Ht; [done|].
  destruct fds as [|[|fds]]; [lia|lia|]. remember (S fds) as k eqn:Ek. cbn [find].
  pose proof Ht as (-> & Hlen & _). cbn [orb Z.eqb].
  change (T_DIR =? T_DEVICE) with false. change (T_DIR =? T_FILE) with false. change (T_DIR =? T_DIR) with true. cbn [orb].
  destruct (Nat.ltb_spec find_bufsz (length path + 1 + DIRSIZ + 1)); [lia|].
  eapply prints_iff; [intros q; symmetry; apply located_entries|]. subst k.
  apply prints_concat. intros de Hde. eapply find_entry_spec; [|done..]. intros p Hp. apply IH; [lia|done].
Qed.

(** A file whose name fills all DIRSIZ bytes of its record is never printed
    when the byte after the record on the stack is not nul: [strcmp] does not
    stop at the end of [de.name], although [buf] was given the terminator. *)
Theorem find_long_name fds walk path filename inum name c rest :
  0 ∉ name -> after = c :: rest -> c <> 0 -> inum <> 0 -> stat_type (child path name) = Some T_FILE ->
  filename = cstring name ->
  find_entry (S fds) walk path filename (inum, name) = [].
Proof.
  intros Hn Ha Hc Hi Ht ->. unfold find_entry. cbn [fst snd type_at]. rewrite (proj2 (Z.eqb_neq _ _) Hi), Ht.
  change (T_FILE =? T_FILE) with true. cbn iota. unfold name_is. rewrite Ha, bool_decide_eq_false_2; [done|].
  assert (forall l, 0 ∉ name -> cstring (name ++ l) = name ++ cstring l) as E.
  { clear. intros l. induction name as [|d name IH]; [done|]. intros Hd. cbn [app cstring].
    destruct (Z.eqb_spec d 0) as [->|]; [by destruct Hd; left|]. rewrite IH; [done|]. intros ?. apply Hd. by right. }
  rewrite E by done. rewrite <-(app_nil_r name) at 2. rewrite E by done. cbn [cstring].
  rewrite (proj2 (Z.eqb_neq _ _) Hc). intros [=]%app_inv_head.
Qed.
End find.

(** ** A small tree *)

(** [a] holds a file [f] and a directory [d], which holds a file [f]. *)
Definition ex_dirents (path : list Z) : list (Z * list Z) :=
  if bool_decide (path = bytes_of "a") then
    [(2, bytes_of "." ++ [0]); (1, bytes_of ".." ++ [0]); (3, bytes_of "f" ++ [0]); (0, [0]); (4, bytes_of "d" ++ [0])]
  else if bool_decide (path = bytes_of "a/d") then
    [(4, bytes_of "." ++ [0]); (2, bytes_of ".." ++ [0]); (5, bytes_of "f" ++ [0]); (6, bytes_of "g" ++ [0])]
  else [].

Definition ex_stat_type (path : list Z) : option Z :=
  if bool_decide (path ∈ bytes_of <$> ["a/f"; "a/d/f"; "a/d/g"; "a/fourteen_chars"]) then Some T_FILE else Some T_DIR.

Ltac ex_records :=
  intros inum name Hin%list_elem_of_In Hi; vm_compute in Hin;
  repeat (destruct Hin as [[= <- <-]|Hin];
    [split; [by refine (bool_decide_unpack _ _); vm_compute|];
     match goal with |- match ?s with _ => _ end => let v := eval vm_compute in s in change s with v end; cbn iota;
     intros ? Hdot Hdots; try done; try (by destruct Hi); try (by destruct Hdot); try (by destruct Hdots)|]); try done.

Lemma ex_tree_d : tree ex_stat_type ex_dirents 1 (bytes_of "a/d").
Proof. split; [reflexivity|]. split; [vm_compute; lia|]. ex_records.
Qed.

Lemma find_correct_witness :
  prints (find ex_stat_type ex_dirents [] 13 (bytes_of "a") (bytes_of "f"))
    (located ex_stat_type ex_dirents (bytes_of "f") (bytes_of "a")) /\
  find ex_stat_type ex_dirents [] 13 (bytes_of "a") (bytes_of "f") = printed [bytes_of "a/f"; bytes_of "a/d/f"].
Proof.
  split; [|reflexivity]. apply (find_correct ex_stat_type ex_dirents [] 2); [lia|].
  split; [reflexivity|]. split; [vm_compute; lia|]. ex_records. exact ex_tree_d.
Defined.

Lemma find_long_name_witness :
  find_entry ex_stat_type [1] 13 (fun _ => []) (bytes_of "a") (bytes_of "fourteen_chars") (7, bytes_of "fourteen_chars") = [].
Proof.
  apply (find_long_name ex_stat_type [1] 12 (fun _ => []) (bytes_of "a") (bytes_of "fourteen_chars") 7
    (bytes_of "fourteen_chars") 1 []); try done; by refine (bool_decide_unpack _ _); vm_compute.
Defined.
