(* ===== verification/Wc.v ===== *)
(** user/wc.c: counting the lines, words and bytes of a file that [read] gives
    in pieces. The results of the reads are a parameter. *)

From S2P Require Import Prelude Machine Console Ulib Grep.

(** [l], [w], [c] and [inword] *)
Record counts := mk_counts { wc_l : Z; wc_w : Z; wc_c : Z; wc_inword : bool }.

(** The string of the call of [strchr]: blank, return, tab, newline, vertical tab. *)
Definition blanks : list Z := [32; 13; 9; newline; 11].

(** [strchr(" \r\t\n\v", b)] is not null. *)
Definition is_blank (b : Z) : bool := match strchr blanks b with Some _ => true | None => false end.

(** The body of the for loop. *)
Definition wc_byte (k : counts) (b : Z) : counts :=
  let l := if b =? newline then i32 (wc_l k + 1) else wc_l k in
  let c := i32 (wc_c k + 1) in
  if is_blank b then mk_counts l (wc_w k) c false
  else if negb (wc_inword k) then mk_counts l (i32 (wc_w k + 1)) c true
  else mk_counts l (wc_w k) c (wc_inword k).

(** [wc(fd, name)]: what is printed, and whether it returns to main; [None]
    where the reads go on. A read gives [None] for an error and no byte at the
    end of the file. *)
Fixpoint wc_loop (reads : list (option (list Z))) (name : list Z) (k : counts) : option (list Z * bool) :=
  match reads with
  | [] => None
  | None :: _ => Some (bytes_of "wc: read error" ++ [newline], false)
  | Some [] :: _ =>
    Some (printint_chars (wc_l k) 10 true ++ [32] ++ printint_chars (wc_w k) 10 true ++ [32] ++
          printint_chars (wc_c k) 10 true ++ [32] ++ name ++ [newline], true)
  | Some data :: reads => wc_loop reads name (foldl wc_byte k data)
  end.

Definition wc (reads : list (option (list Z))) (name : list Z) : option (list Z * bool) :=
  wc_loop reads name (mk_counts 0 0 0 false).

(** ** The text as words *)

(** [ws] are the words of the text: longest runs of characters that are not blank. *)
Inductive words_of : list Z -> list (list Z) -> Prop :=
  | words_end : words_of [] []
  | words_blank b l ws : is_blank b = true -> words_of l ws -> words_of (b :: l) ws
  | words_word w l ws :
      w <> [] -> Forall (fun b => is_blank b = false) w ->
      match l with [] => True | b :: _ => is_blank b = true end ->
      words_of l ws -> words_of (w ++ l) (w :: ws).

(** Every text has words. *)
Lemma words_of_total text : exists ws, words_of text ws.
Proof.
  induction text as [|b text [ws IH]]; [exists []; constructor|].
  destruct (is_blank b) eqn:Hb; [exists ws; by constructor|].
  destruct IH as [|b' l ws Hb' IH|w l ws Hw Hf Hl IH].
  - exists [[b]]. apply (words_word [b] []); [done|by constructor|done|constructor].
  - exists ([b] :: ws). apply (words_word [b]); [done|by constructor|done|by constructor].
  - exists ((b :: w) :: ws). apply (words_word (b :: w)); [done|by constructor|done|done].
Qed.

Definition newlines (l : list Z) : Z := Z.of_nat (length (filter (eq newline) l)).

Lemma newlines_cons b l : newlines (b :: l) = (if b =? newline then 1 else 0) + newlines l.
Proof.
  unfold newlines. rewrite filter_cons. destruct (Z.eqb_spec b newline), (decide (newline = b)); try congruence.
  all: simpl; lia.
Qed.

Lemma newlines_app l l' : newlines (l ++ l') = newlines l + newlines l'.
Proof. unfold newlines. rewrite filter_app, length_app. lia. Qed.

Lemma newlines_bounds l : 0 <= newlines l <= Z.of_nat (length l).
Proof. unfold newlines. pose proof (length_filter (eq newline) l). lia. Qed.

Lemma i32_id x : 0 <= x < 2 ^ 31 -> i32 x = x.
Proof. intros H. unfold i32. rewrite Z.mod_small; lia. Qed.

Lemma blank_newline b : is_blank b = false -> b <> newline.
Proof. intros H ->. done. Qed.

Lemma newlines_word w : Forall (fun b => is_blank b = false) w -> newlines w = 0.
Proof.
  induction 1 as [|b w Hb Hw IH]; [done|]. by rewrite newlines_cons, IH, (proj2 (Z.eqb_neq _ _) (blank_newline _ Hb)).
Qed.

(** Inside a word only the bytes are counted. *)
Lemma wc_inside w l wd c :
  Forall (fun b => is_blank b = false) w -> 0 <= c -> c + Z.of_nat (length w) < 2 ^ 31 ->
  foldl wc_byte (mk_counts l wd c true) w = mk_counts l wd (c + Z.of_nat (length w)) true.
Proof.
  intros Hw. revert c. induction Hw as [|b w Hb Hw IH]; intros c H0 H1; [simpl; by rewrite Z.add_0_r|].
  cbn [length] in *. cbn [foldl]. unfold wc_byte at 2. cbn [wc_l wc_w wc_c wc_inword negb].
  rewrite Hb, (proj2 (Z.eqb_neq _ _) (blank_newline _ Hb)), i32_id by lia.
  rewrite IH by lia. f_equal. lia.
Qed.

(** The counts after a text that starts outside a word. *)
Lemma wc_words text ws l w c inw :
  words_of text ws -> 0 <= l <= c -> 0 <= w <= c -> c + Z.of_nat (length text) < 2 ^ 31 ->
  (inw = true -> match text with [] => True | b :: _ => is_blank b = true end) ->
  exists inw', foldl wc_byte (mk_counts l w c inw) text =
    mk_counts (l + newlines text) (w + Z.of_nat (length ws)) (c + Z.of_nat (length text)) inw'.
Proof.
  intros H. revert l w c inw. induction H as [|b text ws Hb H IH|wd text ws Hn Hf Hl H IH]; intros l w c inw Bl Bw Bc Hi.
  - exists inw. simpl. unfold newlines. simpl. by rewrite !Z.add_0_r.
  - cbn [foldl]. unfold wc_byte at 2. cbn [wc_l wc_w wc_c wc_inword]. rewrite Hb. cbn [length] in *.
    rewrite newlines_cons.
    destruct (IH (l + if b =? newline then 1 else 0) w (c + 1) false) as [inw' E]; [destruct (b =? newline); lia|lia|lia|done|].
    exists inw'. rewrite (i32_id (c + 1)) by lia. transitivity (foldl wc_byte (mk_counts (l + if b =? newline then 1 else 0) w (c + 1) false) text).
    { f_equal. f_equal. destruct (b =? newline); [apply i32_id|]; lia. }
    rewrite E. f_equal; lia.
  - destruct wd as [|b wd]; [done|]. apply Forall_cons in Hf as [Hb Hf]. destruct inw; [by specialize (Hi eq_refl); cbn in Hi; congruence|].
    cbn [app length] in Bc. rewrite length_app in Bc.
    rewrite foldl_app. cbn [foldl]. unfold wc_byte at 3. cbn [wc_l wc_w wc_c wc_inword negb].
    rewrite Hb, (proj2 (Z.eqb_neq _ _) (blank_newline _ Hb)), !i32_id by lia. rewrite wc_inside by (done || lia).
    destruct (IH l (w + 1) (c + 1 + Z.of_nat (length wd)) true) as [inw' E]; [lia..|done|].
    exists inw'. rewrite E. rewrite newlines_app. assert (newlines (b :: wd) = 0) as ->.
    { apply newlines_word. by constructor. }
    cbn [length app]. rewrite length_app. f_equal; lia.
Qed.

Lemma wc_loop_pieces pieces reads name k :
  Forall (fun p => p <> []) pieces ->
  wc_loop ((Some <$> pieces) ++ Some [] :: reads) name k =
  wc_loop [Some []] name (foldl wc_byte k (concat pieces)).
Proof.
  intros H. revert k. induction H as [|p pieces Hp H IH]; intros k; [done|].
  destruct p as [|b p]; [done|]. change (concat ((b :: p) :: pieces)) with ((b :: p) ++ concat pieces). rewrite foldl_app. apply IH.
Qed.

(** However [read] cuts the file into pieces, wc prints the number of
    newlines, the number of words (longest runs of non-blank characters, also
    those that a piece boundary cuts) and the number of bytes of the whole
    file, for files shorter than 2^31 bytes. *)
Theorem wc_correct pieces reads name ws :
  Forall (fun p => p <> []) pieces -> Z.of_nat (length (concat pieces)) < 2 ^ 31 -> words_of (concat pieces) ws ->
  wc ((Some <$> pieces) ++ Some [] :: reads) name =
  Some (printint_chars (newlines (concat pieces)) 10 true ++ [32] ++
        printint_chars (Z.of_nat (length ws)) 10 true ++ [32] ++
        printint_chars (Z.of_nat (length (concat pieces))) 10 true ++ [32] ++ name ++ [newline], true).
Proof.
  intros Hp Hlen Hw. unfold wc. rewrite wc_loop_pieces by done.
  destruct (wc_words _ _ 0 0 0 false Hw) as [inw ->]; [lia..|done|]. done.
Qed.

(** "ab c" and a newline in two pieces, cut inside the first word. *)
Lemma wc_correct_witness :
  wc [Some [97]; Some [98; 32; 99; 10]; Some []] (bytes_of "f") = Some (bytes_of "1 2 5 f" ++ [newline], true).
Proof.
  apply (wc_correct [[97]; [98; 32; 99; 10]] [] (bytes_of "f") [[97; 98]; [99]]).
  - repeat constructor; discriminate.
  - vm_compute. reflexivity.
  - apply (words_word [97; 98] [32; 99; 10]); [discriminate|repeat constructor|reflexivity|].
    apply words_blank; [reflexivity|]. apply (words_word [99] [10]); [discriminate|repeat constructor|reflexivity|].
    apply words_blank; [reflexivity|constructor].
Defined.
