(* ===== verification/Sh.v ===== *)
(** user/sh.c: the shell. The parser works on positions in the buffer of the
    line, as the code does with pointers; nulterminate then stores the nuls.
    runcmd and main are given as what their process does next: system calls whose
    outcome the kernel decides, forks, waits and exits. The calls on descriptors act on
    the table of the process. *)

From S2P Require Import Prelude Machine Console ProcFs Syscall Ulib.

(** ** Commands *)

Definition MAXARGS : nat := 10.

(** The pointers of argv and eargv, file and efile are positions in the line. *)
Inductive cmd :=
  | EXEC (argv : list (nat * nat))
  | REDIR (c : cmd) (file efile : nat) (mode fd : Z)
  | PIPE (left right : cmd)
  | LIST (left right : cmd)
  | BACK (c : cmd).

(** ** Parsing *)

Definition whitespace : list Z := [32; 9; 13; 10; 11].
Definition symbols : list Z := bytes_of "<|>&;()".

(** [strchr(toks, c)] is not null. *)
Definition has (toks : list Z) (c : Z) : bool := match strchr toks c with Some _ => true | None => false end.

(** The result of a parser: what it returns with the new value of [*ps], or
    what panic writes to the standard error before it exits. *)
Inductive pres (A : Type) :=
  | POk (a : A) (s : nat)
  | PPanic (out : list Z)
  | PNoFuel.
Arguments POk {A} a s.
Arguments PPanic {A} out.
Arguments PNoFuel {A}.

Definition pbind {A B} (m : pres A) (f : A -> nat -> pres B) : pres B :=
  match m with
  | POk a s => f a s
  | PPanic out => PPanic out
  | PNoFuel => PNoFuel
  end.

(** [panic(s)] *)
Definition sh_panic {A} (msg : list Z) : pres A := PPanic (msg ++ [10]).

(** [cmd->argv[argc] = q; cmd->eargv[argc] = eq]: [cmd] is the execcmd below
    the redirections of [ret]. *)
Fixpoint add_arg (ret : cmd) (a : nat * nat) : cmd :=
  match ret with
  | EXEC argv => EXEC (argv ++ [a])
  | REDIR c file efile mode fd => REDIR (add_arg c a) file efile mode fd
  | _ => ret
  end.

Section parser.
Context (buf : list Z) (es : nat).

Definition chr (s : nat) : Z := default 0 (buf !! s).

(** [while(s < es && p( *s)) s++], with [n] = es - s *)
Fixpoint scan (p : Z -> bool) (n s : nat) : nat :=
  match n with
  | O => s
  | S n => if p (chr s) then scan p n (S s) else s
  end.

Definition skip_ws (s : nat) : nat := scan (has whitespace) (es - s) s.

Definition word_char (c : Z) : bool := negb (has whitespace c) && negb (has symbols c).

(** The token, [q], [eq] and the new [*ps]. *)
Definition gettoken (s : nat) : Z * nat * nat * nat :=
  let s := skip_ws s in
  let q := s in
  let c := chr s in
  let '(ret, s) :=
    if c =? 0 then (c, s)
    else if has (bytes_of "|();&<") c then (c, S s)
    else if c =? 62 then if chr (S s) =? 62 then (43, S (S s)) else (c, S s)
    else (97, scan word_char (es - s) s) in
  (ret, q, s, skip_ws s).

(** Whether one of [toks] comes next, and the new [*ps]. *)
Definition peek (s : nat) (toks : list Z) : bool * nat :=
  let s := skip_ws s in (negb (chr s =? 0) && has toks (chr s), s).

Fixpoint parseredirs (fuel : nat) (c : cmd) (s : nat) : pres cmd :=
  match fuel with
  | O => PNoFuel
  | S fuel =>
    let '(more, s) := peek s (bytes_of "<>") in
    if more then
      let '(tok, _, _, s) := gettoken s in
      let '(t, q, eq, s) := gettoken s in
      if negb (t =? 97) then sh_panic (bytes_of "missing file for redirection")
      else
        let c :=
          if tok =? 60 then REDIR c q eq O_RDONLY 0
          else if tok =? 62 then REDIR c q eq (Z.lor O_WRONLY (Z.lor O_CREATE O_TRUNC)) 1
          else if tok =? 43 then REDIR c q eq (Z.lor O_WRONLY O_CREATE) 1
          else c in
        parseredirs fuel c s
    else POk c s
  end.

(** The while loop of parseexec. *)
Fixpoint parseexec_loop (fuel : nat) (ret : cmd) (argc : nat) (s : nat) : pres cmd :=
  match fuel with
  | O => PNoFuel
  | S fuel =>
    let '(stop, s) := peek s (bytes_of "|)&;") in
    if stop then POk ret s
    else
      let '(tok, q, eq, s) := gettoken s in
      if tok =? 0 then POk ret s
      else if negb (tok =? 97) then sh_panic (bytes_of "syntax")
      else
        let ret := add_arg ret (q, eq) in
        if (MAXARGS <=? S argc)%nat then sh_panic (bytes_of "too many args")
        else pbind (parseredirs fuel ret s) (fun ret s => parseexec_loop fuel ret (S argc) s)
  end.

(** The while loop of parseline. *)
Fixpoint background (fuel : nat) (c : cmd) (s : nat) : pres cmd :=
  match fuel with
  | O => PNoFuel
  | S fuel =>
    let '(amp, s) := peek s (bytes_of "&") in
    if amp then let '(_, _, _, s) := gettoken s in background fuel (BACK c) s
    else POk c s
  end.

Fixpoint parseline (fuel : nat) (s : nat) : pres cmd :=
  match fuel with
  | O => PNoFuel
  | S fuel =>
    pbind (parsepipe fuel s) (fun c s =>
    pbind (background fuel c s) (fun c s =>
    let '(semi, s) := peek s (bytes_of ";") in
    if semi then
      let '(_, _, _, s) := gettoken s in
      pbind (parseline fuel s) (fun right s => POk (LIST c right) s)
    else POk c s))
  end
with parsepipe (fuel : nat) (s : nat) : pres cmd :=
  match fuel with
  | O => PNoFuel
  | S fuel =>
    pbind (parseexec fuel s) (fun c s =>
    let '(bar, s) := peek s (bytes_of "|") in
    if bar then
      let '(_, _, _, s) := gettoken s in
      pbind (parsepipe fuel s) (fun right s => POk (PIPE c right) s)
    else POk c s)
  end
with parseblock (fuel : nat) (s : nat) : pres cmd :=
  match fuel with
  | O => PNoFuel
  | S fuel =>
    let '(opening, s) := peek s (bytes_of "(") in
    if negb opening then sh_panic (bytes_of "parseblock")
    else
      let '(_, _, _, s) := gettoken s in
      pbind (parseline fuel s) (fun c s =>
      let '(closing, s) := peek s (bytes_of ")") in
      if negb closing then sh_panic (bytes_of "syntax - missing )")
      else let '(_, _, _, s) := gettoken s in parseredirs fuel c s)
  end
with parseexec (fuel : nat) (s : nat) : pres cmd :=
  match fuel with
  | O => PNoFuel
  | S fuel =>
    let '(opening, s) := peek s (bytes_of "(") in
    if opening then parseblock fuel s
    else pbind (parseredirs fuel (EXEC []) s) (fun ret s => parseexec_loop fuel ret 0 s)
  end.
End parser.

(** The nuls are stored in the line. *)
Fixpoint nulterminate (c : cmd) (buf : list Z) : list Z :=
  match c with
  | EXEC argv => foldl (fun b a => <[a.2 := 0]> b) buf argv
  | REDIR c _ efile _ _ => <[efile := 0]> (nulterminate c buf)
  | PIPE l r => nulterminate r (nulterminate l buf)
  | LIST l r => nulterminate r (nulterminate l buf)
  | BACK c => nulterminate c buf
  end.

(** Every four levels of the recursion take a character of the line. *)
Definition parse_fuel (n : nat) : nat := 4 * n + 8.

(** [parsecmd(s)] for the line in [buf]: the command and the line with its nuls. *)
Definition parsecmd (buf : list Z) : pres (cmd * list Z) :=
  let es := length (cstring buf) in
  pbind (parseline buf es (parse_fuel es) 0) (fun c s =>
  let '(_, s) := peek buf es s [] in
  if negb (s =? es)%nat then
    PPanic (bytes_of "leftovers: " ++ cstring (drop s buf) ++ [10] ++ bytes_of "syntax" ++ [10])
  else POk (c, nulterminate c buf) s).

(** ** Running *)

(** What a descriptor stands for. A pipe is named by the place of the command that makes
    it: the number of the line, then the turns taken in the command. *)
Inductive fdobj :=
  | FD_file (path : list Z) (mode : Z)
  | FD_pipe_r (place : list nat)
  | FD_pipe_w (place : list nat)
  | FD_inherited (n : nat).

(** The table of descriptors of a process. *)
Abbreviation fds := (list (option fdobj)).

(** Calls that succeed or fail as the kernel decides. *)
Inductive query :=
  | Q_open (path : list Z) (mode : Z)
  | Q_exec (path : list Z)
  | Q_pipe
  | Q_fork
  | Q_chdir (path : list Z).

(** What the shell's processes do that can be seen: programs that start, with their
    descriptors, and end; writes to descriptor 2; changes of directory; calls that fail. *)
Inductive event :=
  | Ran (argv : list (list Z)) (t : fds)
  | Finished (argv : list (list Z))
  | Said (msg : list Z)
  | ChangedDir (path : list Z)
  | Failed (q : query).

(** What a process does until it exits. A fork gives the child and the parent something
    to do, or fails. A process waits for one of its children with the table [t]. *)
Inductive act :=
  | Do (ev : event) (k : act)
  | Try (q : query) (yes no : act)
  | Fork (child parent failed : act)
  | Wait (t : fds) (k : act)
  | Exit (status : Z).

Fixpoint dos (evs : list event) (k : act) : act :=
  match evs with
  | [] => k
  | ev :: evs => Do ev (dos evs k)
  end.

(** The writes of [fprintf(2, ...)], one byte each. *)
Definition message (msg : list Z) : list event := (fun c => Said [c]) <$> msg.

(** The lowest free descriptor. *)
Fixpoint fd_alloc (o : fdobj) (t : fds) : option (nat * fds) :=
  match t with
  | [] => None
  | None :: t => Some (0%nat, Some o :: t)
  | Some x :: t => r ← fd_alloc o t; Some (S r.1, Some x :: r.2)
  end.

(** [close(fd)] and [dup(fd)], whose results the shell ignores. *)
Definition fd_close (fd : nat) (t : fds) : fds := <[fd := None]> t.

Definition fd_dup (fd : nat) (t : fds) : fds :=
  match t !! fd with
  | Some (Some o) => match fd_alloc o t with Some r => r.2 | None => t end
  | _ => t
  end.

(** [open(path, mode)]: it fails when there is no free descriptor, or the kernel says so. *)
Definition fd_open (path : list Z) (mode : Z) (t : fds) (k : nat -> fds -> act) (failed : act) : act :=
  match fd_alloc (FD_file path mode) t with
  | Some (fd, t) => Try (Q_open path mode) (k fd t) failed
  | None => failed
  end.

(** [pipe(p)]: p[0], p[1] and the table. *)
Definition fd_pipe (place : list nat) (t : fds) (k : nat -> nat -> fds -> act) (failed : act) : act :=
  match fd_alloc (FD_pipe_r place) t with
  | Some (p0, t) =>
    match fd_alloc (FD_pipe_w place) t with
    | Some (p1, t) => Try Q_pipe (k p0 p1 t) failed
    | None => failed
    end
  | None => failed
  end.

(** [fprintf(2, ...); exit(status)] *)
Definition complain (msg : list Z) (status : Z) : act := dos (message msg) (Exit status).

Definition fork1 (child parent : act) : act := Fork child parent (complain (bytes_of "fork" ++ [10]) 1).

(** [runcmd(cmd)] at [place], with the strings of the command in [buf]. *)
Fixpoint runcmd (buf : list Z) (c : cmd) (t : fds) (place : list nat) : act :=
  match c with
  | EXEC [] => Exit 1
  | EXEC (((q, _) :: _) as argv) =>
    let path := cstring (drop q buf) in
    let args := (fun a => cstring (drop a.1 buf)) <$> argv in
    Try (Q_exec path) (Do (Ran args t) (Do (Finished args) (Exit 0)))
      (complain (bytes_of "exec " ++ path ++ bytes_of " failed" ++ [10]) 0)
  | REDIR c file _ mode fd =>
    let t := fd_close (Z.to_nat fd) t in
    let path := cstring (drop file buf) in
    fd_open path mode t (fun _ t => runcmd buf c t place)
      (complain (bytes_of "open " ++ path ++ bytes_of " failed" ++ [10]) 1)
  | LIST l r =>
    fork1 (runcmd buf l t (place ++ [0%nat])) (Wait t (runcmd buf r t (place ++ [1%nat])))
  | PIPE l r =>
    fd_pipe place t (fun p0 p1 t =>
      fork1 (runcmd buf l (fd_close p1 (fd_close p0 (fd_dup p1 (fd_close 1 t)))) (place ++ [0%nat]))
        (fork1 (runcmd buf r (fd_close p1 (fd_close p0 (fd_dup p0 (fd_close 0 t)))) (place ++ [1%nat]))
          (let t := fd_close p1 (fd_close p0 t) in Wait t (Wait t (Exit 0)))))
      (complain (bytes_of "pipe" ++ [10]) 1)
  | BACK c => fork1 (runcmd buf c t (place ++ [0%nat])) (Exit 0)
  end.

(** ** The main loop *)

(** [char buf[100]] *)
Definition sh_bufsz : nat := 100.

(** [getcmd(buf, nbuf)] after the prompt: the line, unless the input is at its end, and
    the rest of the input. *)
Definition getcmd (inp : list Z) : option (list Z) * list Z :=
  let r := gets (replicate sh_bufsz 0) sh_bufsz inp in
  (if default 0 (r.1 !! 0%nat) =? 0 then None else Some r.1, r.2).

(** [runcmd(parsecmd(buf))] in a child of the shell. The parser does not run out of fuel. *)
Definition run_line (buf : list Z) (t : fds) (place : list nat) : act :=
  match parsecmd buf with
  | POk (c, line) _ => runcmd line c t place
  | PPanic msg => complain msg 1
  | PNoFuel => Exit 1
  end.

(** [write(2, "$ ", 2)] *)
Definition prompt : event := Said (bytes_of "$ ").

(** [while((fd = open("console", O_RDWR)) >= 0)]: each round takes a descriptor. *)
Fixpoint open_console (fuel : nat) (t : fds) (k : fds -> act) : act :=
  match fuel with
  | O => k t
  | S fuel =>
    fd_open (bytes_of "console") O_RDWR t
      (fun fd t => if (3 <=? fd)%nat then k (fd_close fd t) else open_console fuel t k) (k t)
  end.

(** The loop over the lines, [n] of which were run; [inp] is what its reads get. [None] when
    [fuel] does not suffice. *)
Fixpoint sh_loop (fuel : nat) (inp : list Z) (n : nat) : option (fds -> act) :=
  match fuel with
  | O => None
  | S fuel =>
    let '(line, inp) := getcmd inp in
    match line with
    | None => Some (fun _ => Do prompt (Exit 0))
    | Some buf =>
      if (default 0 (buf !! 0%nat) =? 99) && (default 0 (buf !! 1%nat) =? 100) && (default 0 (buf !! 2%nat) =? 32) then
        let buf := <[(length (cstring buf) - 1)%nat := 0]> buf in
        let path := cstring (drop 3 buf) in
        rest ← sh_loop fuel inp n;
        Some (fun t => Do prompt (Try (Q_chdir path) (Do (ChangedDir path) (rest t))
          (dos (message (bytes_of "cannot cd " ++ path ++ [10])) (rest t))))
      else
        rest ← sh_loop fuel inp (S n);
        Some (fun t => Do prompt (fork1 (run_line buf t [n]) (Wait t (rest t))))
    end
  end.

Definition sh_main (inp : list Z) (t : fds) : option act :=
  open_console (length t) t <$> sh_loop (S (length inp)) inp 0.
