(* ===== verification/ShParse.v ===== *)
(** The parser of the shell against the abstract syntax of commands: a line
    that spells a command, with any white space between its tokens, is parsed
    to that command, and every line is parsed or refused in bounded time. *)

From S2P Require Import Prelude Machine Console ProcFs Syscall Ulib Sh.

(** ** Abstract syntax and its tokens *)

Inductive direction := Input | Output | Append.

Inductive scmd :=
  | SExec (args : list (list Z))
  | SRedir (c : scmd) (d : direction) (file : list Z)
  | SPipe (l r : scmd)
  | SList (l r : scmd)
  | SBack (c : scmd).

Inductive token := TWord (w : list Z) | TSym (c : Z) | TAppend.

Definition text_of (t : token) : list Z :=
  match t with TWord w => w | TSym c => [c] | TAppend => [62; 62] end.

(** What gettoken returns for a token. *)
Definition code (t : token) : Z := match t with TWord _ => 97 | TSym c => c | TAppend => 43 end.

Definition direction_token (d : direction) : token :=
  match d with Input => TSym 60 | Output => TSym 62 | Append => TAppend end.

Definition parens (b : bool) (l : list token) : list token := if b then TSym 40 :: l ++ [TSym 41] else l.

(** The tokens of a command where a command of level [lv] is expected: 0 a
    line, 1 what may be put in the background, 2 a pipeline, 3 one command. *)
Fixpoint toks (lv : nat) (c : scmd) : list token :=
  match c with
  | SExec args => TWord <$> args
  | SRedir c d f => toks 3 c ++ [direction_token d; TWord f]
  | SPipe l r => parens (2 <? lv)%nat (toks 3 l ++ TSym 124 :: toks 2 r)
  | SBack c => parens (1 <? lv)%nat (toks 1 c ++ [TSym 38])
  | SList l r => parens (0 <? lv)%nat (toks 1 l ++ TSym 59 :: toks 0 r)
  end.

(** Characters of words, and words. *)
Definition wordy (c : Z) : Prop := c <> 0 /\ word_char c = true.
Definition sword (w : list Z) : Prop := w <> [] /\ Forall wordy w.

(** Words are words, and argv has room for them. *)
Fixpoint scmd_ok (c : scmd) : Prop :=
  match c with
  | SExec args => Forall sword args /\ (length args < MAXARGS)%nat
  | SRedir c _ f => scmd_ok c /\ sword f
  | SPipe l r | SList l r => scmd_ok l /\ scmd_ok r
  | SBack c => scmd_ok c
  end.

Definition token_ok (t : token) : Prop :=
  match t with TWord w => sword w | TSym c => has (bytes_of "|();&<>") c = true | TAppend => True end.

Definition blank (ws : list Z) : Prop := Forall (fun c => has whitespace c = true) ws.

(** Two tokens that white space must separate. *)
Definition must_separate (t : token) (ts : list token) : Prop :=
  match t, ts with
  | TWord _, TWord _ :: _ => True
  | TSym 62, TSym 62 :: _ => True
  | TSym 62, TAppend :: _ => True
  | _, _ => False
  end.

(** [text] spells the tokens, with white space after each of them. *)
Inductive spells : list token -> list Z -> Prop :=
  | spells_end : spells [] []
  | spells_token t ws ts text :
      blank ws -> (must_separate t ts -> ws <> []) -> spells ts text -> spells (t :: ts) (text_of t ++ ws ++ text).

(** ** Characters *)

Lemma has_zero l : has l 0 = false.
Proof.
  unfold has. induction l as [|x l IH]; cbn [strchr]; [done|]. destruct (x =? 0); [done|]. by destruct (strchr l 0).
Qed.

Lemma has_elem l c : has l c = true -> c ∈ l.
Proof.
  unfold has. induction l as [|x l IH]; cbn [strchr]; [done|]. destruct (x =? 0); [done|].
  destruct (Z.eqb_spec x c) as [->|]; [left|]. destruct (strchr l c); [|done]. intros _. right. by apply IH.
Qed.

(** Case analysis on which of the characters [c] is. *)
Ltac chars H :=
  apply has_elem in H;
  match type of H with _ ∈ ?l => let v := eval vm_compute in l in change l with v in H end;
  repeat (apply elem_of_cons in H as [->|H]; [|]); [..|by apply elem_of_nil in H].

Lemma symbol_not_blank c : has (bytes_of "|();&<>") c = true -> has whitespace c = false /\ c <> 0.
Proof. intros H. chars H; done. Qed.

Lemma word_char_nonsymbol c : wordy c ->
  has whitespace c = false /\ has (bytes_of "|();&<") c = false /\ c <> 62 /\ c <> 0.
Proof.
  intros [H0 H]. unfold word_char in H. apply andb_true_iff in H as [H1%negb_true_iff H2%negb_true_iff].
  split_and!; [done| | |done].
  - destruct (has (bytes_of "|();&<") c) eqn:E; [|done]. chars E; done.
  - intros ->. done.
Qed.

(** ** Positions in the line *)

Section positions.
Context (buf : list Z) (es : nat).

(** The line goes on with [text] from [s], up to its nul at [es]. *)
Definition at_text (s : nat) (text : list Z) : Prop :=
  (s + length text = es)%nat /\ exists junk, drop s buf = text ++ 0 :: junk.

Lemma at_chr s text : at_text s text -> chr buf s = default 0 (head text).
Proof.
  intros [_ [junk H]]. unfold chr. rewrite <- (Nat.add_0_r s), <- lookup_drop, H. by destruct text.
Qed.

Lemma at_app s a b : at_text s (a ++ b) -> at_text (s + length a) b.
Proof.
  intros [Hl [junk H]]. split; [rewrite length_app in Hl; lia|]. exists junk.
  by rewrite <- drop_drop, H, <- app_assoc, drop_app_length.
Qed.

Lemma at_cons s c b : at_text s (c :: b) -> at_text (S s) b.
Proof. intros H. replace (S s) with (s + length [c])%nat by (simpl; lia). by apply at_app. Qed.

(** A scan stops where its condition fails, or at the end of the line. *)
Lemma scan_spec (p : Z -> bool) s w text :
  at_text s (w ++ text) -> Forall (fun c => p c = true) w ->
  match text with [] => True | c :: _ => p c = false end ->
  scan buf p (es - s) s = (s + length w)%nat.
Proof.
  intros Hs Hw Ht. revert s Hs. induction Hw as [|c w Hc Hw IH]; intros s Hs.
  - pose proof (at_chr _ _ Hs) as E. destruct Hs as [Hl _]. destruct text as [|c text]; cbn [app length head default] in *.
    + replace (es - s)%nat with 0%nat by lia. cbn [scan]. lia.
    + destruct (es - s)%nat; cbn [scan]; [lia|]. rewrite E. cbn. rewrite Ht. lia.
  - pose proof (at_chr _ _ Hs) as E. pose proof (at_cons _ _ _ Hs) as Hs'. destruct Hs as [Hl _]. cbn [app length] in *.
    replace (es - s)%nat with (S (es - S s)) by (destruct Hs'; lia). cbn [scan]. rewrite E. cbn. rewrite Hc, (IH _ Hs'). lia.
Qed.

(** The next token is at [s], or the line ends there. *)
Definition at_token (s : nat) (ts : list token) : Prop := exists text, spells ts text /\ at_text s text.

(** The tokens come next, after white space. *)
Definition before (s : nat) (ts : list token) : Prop :=
  exists ws text, blank ws /\ spells ts text /\ at_text s (ws ++ text).

Lemma text_of_head t : token_ok t -> exists c l, text_of t = c :: l /\ has whitespace c = false /\ c <> 0.
Proof.
  destruct t as [w|c|]; intros H; cbn in H.
  - destruct H as [Hn Hw]. destruct w as [|c w]; [done|]. apply Forall_cons in Hw as [Hc _].
    destruct (word_char_nonsymbol _ Hc) as (? & _ & _ & ?). by exists c, w.
  - destruct (symbol_not_blank _ H). by exists c, [].
  - by exists 62, [62].
Qed.

Lemma spells_head ts text : Forall token_ok ts -> spells ts text ->
  match text with [] => True | c :: _ => has whitespace c = false end.
Proof.
  intros Hts H. destruct H as [|t ws ts text]; [done|]. apply Forall_cons in Hts as [Ht _].
  destruct (text_of_head _ Ht) as (c & l & -> & Hc & _). done.
Qed.

Lemma skip_ws_spec s ts : Forall token_ok ts -> before s ts -> at_token (skip_ws buf es s) ts.
Proof.
  intros Hok (ws & text & Hws & Hsp & Hat). unfold skip_ws.
  rewrite (scan_spec _ _ ws text); [|done..|by eapply spells_head]. exists text. split; [done|by apply at_app].
Qed.

Lemma at_token_before s ts : at_token s ts -> before s ts.
Proof. intros (text & Hs & Ha). exists [], text. split_and!; [constructor|done|done]. Qed.

(** The first character of the next token, 0 at the end. *)
Definition next_char (ts : list token) : Z :=
  match ts with [] => 0 | t :: _ => default 0 (head (text_of t)) end.

Lemma at_token_chr s ts : Forall token_ok ts -> at_token s ts -> chr buf s = next_char ts.
Proof.
  intros Hok (text & Hs & Ha). rewrite (at_chr _ _ Ha). destruct Hs as [|t ws ts text]; [done|].
  apply Forall_cons in Hok as [Hok _]. cbn [next_char]. by destruct (text_of_head _ Hok) as (c & w & -> & _).
Qed.

Lemma next_char_zero ts l : Forall token_ok ts -> negb (next_char ts =? 0) && has l (next_char ts) = has l (next_char ts).
Proof.
  intros Hok. destruct (Z.eqb_spec (next_char ts) 0) as [->|]; [|done]. by rewrite has_zero.
Qed.

Lemma peek_spec s ts l : Forall token_ok ts -> before s ts ->
  exists s', peek buf es s l = (has l (next_char ts), s') /\ at_token s' ts.
Proof.
  intros Hok Hb. pose proof (skip_ws_spec _ _ Hok Hb) as Ht. exists (skip_ws buf es s). split; [|done].
  unfold peek. rewrite (at_token_chr _ _ Hok Ht). by rewrite next_char_zero.
Qed.

(** [w] stands at [q], and what follows it at [eq] is no character of a word. *)
Definition span (q eq : nat) (w : list Z) : Prop :=
  eq = (q + length w)%nat /\ exists c junk, drop q buf = w ++ c :: junk /\ ~ wordy c.

(** After a word, and after [>], comes something else. *)
Lemma after_token t ws ts text :
  token_ok t -> Forall token_ok ts -> blank ws -> (must_separate t ts -> ws <> []) -> spells ts text ->
  match t with
  | TWord _ => match ws ++ text with [] => True | c :: _ => ~ wordy c end
  | TSym c => c = 62 -> default 0 (head (ws ++ text)) <> 62
  | TAppend => True
  end.
Proof.
  intros Ht Hok Hws Hsep Hsp. destruct ws as [|b ws].
  - cbn [app]. destruct Hsp as [|t' ws' ts text' ? ? Hsp]; [by destruct t|]. apply Forall_cons in Hok as [Ht' _].
    destruct t as [w|c|]; [|intros ->|done]; destruct t' as [w'|c'|]; try (by destruct (Hsep I)); cbn [text_of app].
    + intros Hw. chars Ht'; by destruct Hw.
    + intros [_ Hw]. done.
    + destruct w' as [|d w']; [by destruct Ht'|]. destruct Ht' as [_ [Hd _]%Forall_cons]. cbn.
      by destruct (word_char_nonsymbol _ Hd) as (_ & _ & ? & _).
    + cbn. intros ->. by destruct (Hsep I).
  - apply Forall_cons in Hws as [Hb _]. cbn [app]. destruct t as [w|c|]; [|intros _|done].
    + intros [_ Hw]. unfold word_char in Hw. by rewrite Hb in Hw.
    + cbn. intros ->. done.
Qed.

Lemma wordy_scan w : Forall wordy w -> Forall (fun c => word_char c = true) w.
Proof. intros H. eapply Forall_impl; [exact H|]. by intros c []. Qed.

(** What gettoken does with the token it finds. *)
Lemma gettoken_spec s t ts : Forall token_ok (t :: ts) -> before s (t :: ts) ->
  exists q eq s', gettoken buf es s = (code t, q, eq, s') /\ before s' ts /\
    match t with TWord w => span q eq w | _ => True end.
Proof.
  intros Hok Hb. pose proof (skip_ws_spec _ _ Hok Hb) as (text & Hsp & Ha). unfold gettoken.
  set (q := skip_ws buf es s) in *. clearbody q. inversion Hsp as [|t' ws ts' text' Hws Hsep Hsp']; subst.
  apply Forall_cons in Hok as [Ht Hok]. pose proof (after_token _ _ _ _ Ht Hok Hws Hsep Hsp') as Hafter.
  pose proof (at_chr _ _ Ha) as Hc.
  assert (Hrest : forall n, n = length (text_of t) -> before (skip_ws buf es (q + n)) ts).
  { intros n ->. apply at_token_before, skip_ws_spec; [done|]. exists ws, text'. split_and!; [done..|by apply at_app]. }
  destruct t as [w|c|]; cbn [text_of code] in *.
  - destruct Ht as [Hn Hw]. destruct w as [|d w]; [done|]. cbn [app head default] in Hc. unfold default, id in Hc.
    pose proof Hw as [Hd _]%Forall_cons. destruct (word_char_nonsymbol _ Hd) as (_ & H1 & H2 & H3).
    rewrite Hc, (proj2 (Z.eqb_neq _ _) H3), H1, (proj2 (Z.eqb_neq _ _) H2).
    erewrite (scan_spec word_char q (d :: w) (ws ++ text')); [|done|by apply wordy_scan|].
    2: { destruct (ws ++ text') as [|c l] eqn:E; [done|]. destruct (word_char c) eqn:Ewc; [|done].
         destruct (decide (c = 0)) as [->|]; [|by destruct Hafter].
         exfalso. destruct ws as [|b ws]; [|apply Forall_cons in Hws as [Hb' _]; simplify_eq/=; done].
         cbn in E. subst text'. inversion Hsp' as [|t2 ? ? ? ? ? ? E2 E3]; subst. apply Forall_cons in Hok as [Ht2 _].
         destruct (text_of_head _ Ht2) as (c2 & l2 & E4 & _ & ?). rewrite E4 in E3. by injection E3 as ->. }
    eexists _, _, _. split; [reflexivity|]. split; [by apply Hrest|]. split; [done|].
    destruct Ha as [_ [junk Hj]]. rewrite <- app_assoc in Hj.
    destruct (ws ++ text') as [|c l].
    + exists 0, junk. split; [done|]. by intros [].
    + exists c, (l ++ 0 :: junk). split; [done|exact Hafter].
  - cbn [app head default] in Hc. unfold default, id in Hc. destruct (symbol_not_blank _ Ht) as [_ H0].
    rewrite Hc, (proj2 (Z.eqb_neq _ _) H0). destruct (decide (c = 62)) as [->|Hgt].
    + replace (has (bytes_of "|();&<") 62) with false by reflexivity. cbn [Z.eqb Pos.eqb].
      rewrite (at_chr _ _ (at_cons _ _ _ Ha)). rewrite (proj2 (Z.eqb_neq _ _) (Hafter eq_refl)).
      eexists _, _, _. split; [reflexivity|]. split; [|done]. rewrite <- (Nat.add_1_r q). by apply Hrest.
    + assert (has (bytes_of "|();&<") c = true) as -> by (clear -Ht Hgt; chars Ht; done).
      eexists _, _, _. split; [reflexivity|]. split; [|done]. rewrite <- (Nat.add_1_r q). by apply Hrest.
  - cbn [app head default] in Hc. unfold default, id in Hc. rewrite Hc.
    replace (has (bytes_of "|();&<") 62) with false by reflexivity. cbn [Z.eqb Pos.eqb].
    rewrite (at_chr _ _ (at_cons _ _ _ Ha)). cbn [app head default Z.eqb Pos.eqb].
    eexists _, _, _. split; [reflexivity|]. split; [|done]. replace (S (S q)) with (q + 2)%nat by lia. by apply Hrest.
Qed.

Lemma gettoken_end s : before s [] -> exists q eq s', gettoken buf es s = (0, q, eq, s') /\ before s' [].
Proof.
  intros Hb. pose proof (skip_ws_spec _ _ (Forall_nil_2 _) Hb) as Ht. unfold gettoken.
  rewrite (at_token_chr _ _ (Forall_nil_2 _) Ht). cbn [next_char Z.eqb]. eexists _, _, _. split; [reflexivity|].
  by apply at_token_before, skip_ws_spec, at_token_before.
Qed.

(** ** Commands and what they spell *)

Definition direction_mode (d : direction) : Z :=
  match d with Input => O_RDONLY | Output => Z.lor O_WRONLY (Z.lor O_CREATE O_TRUNC) | Append => Z.lor O_WRONLY O_CREATE end.
Definition direction_fd (d : direction) : Z := match d with Input => 0 | _ => 1 end.

(** The parsed command stands for [c]. *)
Fixpoint means (t : cmd) (c : scmd) : Prop :=
  match t, c with
  | EXEC argv, SExec args => Forall2 (fun a w => span a.1 a.2 w) argv args
  | REDIR t q eq mode fd, SRedir c d f => means t c /\ span q eq f /\ mode = direction_mode d /\ fd = direction_fd d
  | PIPE t u, SPipe c d => means t c /\ means u d
  | LIST t u, SList c d => means t c /\ means u d
  | BACK t, SBack c => means t c
  | _, _ => False
  end.

Definition redirect (c : scmd) (rs : list (direction * list Z)) : scmd := foldl (fun c r => SRedir c r.1 r.2) c rs.
Definition redirect_tokens (rs : list (direction * list Z)) : list token := rs ≫= fun r => [direction_token r.1; TWord r.2].

Definition follows (cs : list Z) (k : list token) : Prop := next_char k ∈ cs /\ Forall token_ok k.

Lemma redirect_tokens_ok rs : Forall (fun r => sword r.2) rs -> Forall token_ok (redirect_tokens rs).
Proof.
  induction 1 as [|[d f] rs Hf Hrs IH]; [constructor|]. repeat constructor; [by destruct d|apply Hf|apply Hf|exact IH].
Qed.

Lemma parseredirs_spec rs : forall fuel t c s k,
  Forall (fun r => sword r.2) rs -> Forall token_ok k -> has (bytes_of "<>") (next_char k) = false ->
  before s (redirect_tokens rs ++ k) -> (length rs < fuel)%nat -> means t c ->
  exists t' s', parseredirs buf es fuel t s = POk t' s' /\ before s' k /\ means t' (redirect c rs).
Proof.
  induction rs as [|[d f] rs IH]; intros fuel t c s k Hrs Hk Hn Hb Hf Hm; (destruct fuel as [|fuel]; [simpl in Hf; lia|]); cbn [parseredirs].
  - destruct (peek_spec s k (bytes_of "<>") Hk Hb) as (s' & -> & Ht). rewrite Hn.
    exists t, s'. split_and!; [done|by apply at_token_before|done].
  - apply Forall_cons in Hrs as [Hf1 Hrs]. cbn [snd] in Hf1.
    assert (Hok : Forall token_ok (redirect_tokens rs ++ k)) by (apply Forall_app; split; [by apply redirect_tokens_ok|done]).
    assert (Hok2 : Forall token_ok (TWord f :: redirect_tokens rs ++ k)) by (by constructor).
    assert (Hok3 : Forall token_ok (direction_token d :: TWord f :: redirect_tokens rs ++ k)) by (constructor; [by destruct d|done]).
    destruct (peek_spec s _ (bytes_of "<>") Hok3 Hb) as (s1 & -> & H1%at_token_before).
    replace (has (bytes_of "<>") _) with true by (by destruct d).
    destruct (gettoken_spec s1 _ _ Hok3 H1) as (q & eq & s2 & -> & H2 & _).
    destruct (gettoken_spec s2 _ _ Hok2 H2) as (q' & eq' & s3 & -> & H3 & Hspan). cbn [code Z.eqb Pos.eqb negb].
    destruct (IH fuel (REDIR t q' eq' (direction_mode d) (direction_fd d)) (SRedir c d f) s3 k) as (t' & s' & E & H4 & H5);
      [done..|simpl in Hf; lia|done|]. exists t', s'. split_and!; [|done|done]. rewrite <- E. by destruct d.
Qed.

Lemma has_word l w ts :
  sword w -> (forall c, has l c = true -> has symbols c = true) -> has l (next_char (TWord w :: ts)) = false.
Proof.
  intros [Hn Hw] Hl. destruct w as [|c w]; [done|]. apply Forall_cons in Hw as [[_ Hc] _]. cbn.
  destruct (has l c) eqn:E; [|done]. apply Hl in E. unfold word_char in Hc. rewrite E in Hc. by rewrite andb_false_r in Hc.
Qed.

Ltac symbol_sets := let c := fresh "c" in let H := fresh "H" in intros c H; chars H; done.

(** Membership of a follow set decides what peek finds. *)
Ltac follow H :=
  let E := fresh "E" in
  destruct H as [H _]; repeat (apply elem_of_cons in H as [E|H]; [rewrite E; reflexivity|]); by apply elem_of_nil in H.

Definition after_exec : list Z := [0; 124; 41; 38; 59].
Definition after_pipe : list Z := [0; 41; 38; 59].
Definition after_line : list Z := [0; 41].

Lemma follows_exec k : follows after_exec k -> k = [] \/ has (bytes_of "|)&;") (next_char k) = true.
Proof.
  intros [H Hk]. destruct k as [|t k]; [by left|right]. apply Forall_cons in Hk as [Ht _].
  destruct (text_of_head _ Ht) as (c & w & E & _ & Hc). cbn [next_char] in *. rewrite E in *. cbn in H |- *.
  apply elem_of_cons in H as [->|H]; [done|]. repeat (apply elem_of_cons in H as [->|H]; [done|]). by apply elem_of_nil in H.
Qed.

Lemma follows_pipe k : follows after_pipe k -> follows after_exec k.
Proof. intros [H Hk]. split; [|done]. unfold after_pipe, after_exec in *. set_solver. Qed.

Lemma follows_line k : follows after_line k -> follows after_pipe k.
Proof. intros [H Hk]. split; [|done]. unfold after_line, after_pipe in *. set_solver. Qed.

Lemma follows_symbol cs c k : c ∈ cs -> token_ok (TSym c) -> Forall token_ok k -> follows cs (TSym c :: k).
Proof. intros Hc Ht Hk. split; [done|by constructor]. Qed.

Lemma exec_loop_end fuel t argc s k :
  follows after_exec k -> before s k -> (0 < fuel)%nat ->
  exists s', parseexec_loop buf es fuel t argc s = POk t s' /\ before s' k.
Proof.
  intros Hk Hb Hf. destruct fuel as [|fuel]; [lia|]. cbn [parseexec_loop].
  destruct (peek_spec s k (bytes_of "|)&;") (proj2 Hk) Hb) as (s1 & -> & H1%at_token_before).
  destruct (follows_exec k Hk) as [->| ->]; [|by exists s1].
  destruct (gettoken_end s1 H1) as (q & eq & s2 & E & H2). cbn. rewrite E. by exists s2.
Qed.

Lemma exec_loop_spec ws : forall w fuel t args argc s rs k,
  Forall sword (w :: ws) -> Forall (fun r => sword r.2) rs -> follows after_exec k ->
  before s ((TWord <$> w :: ws) ++ redirect_tokens rs ++ k) ->
  (argc + length (w :: ws) < MAXARGS)%nat -> (length ws + length rs + 2 < fuel)%nat -> means t (SExec args) ->
  exists t' s', parseexec_loop buf es fuel t argc s = POk t' s' /\ before s' k /\
    means t' (redirect (SExec (args ++ w :: ws)) rs).
Proof.
  induction ws as [|w' ws IH]; intros w fuel t args argc s rs k Hws Hrs Hk Hb Ha Hf Hm;
    apply Forall_cons in Hws as [Hw Hws]; (destruct fuel as [|fuel]; [lia|]); cbn [parseexec_loop].
  all: assert (Hok : Forall token_ok ((TWord <$> w :: _) ++ redirect_tokens rs ++ k)) by
    (rewrite Forall_app, Forall_app, Forall_fmap; split_and!; [by constructor|by apply redirect_tokens_ok|apply Hk]).
  all: destruct (peek_spec s _ (bytes_of "|)&;") Hok Hb) as (s1 & -> & H1%at_token_before).
  all: rewrite fmap_cons; cbn [app]; rewrite (has_word (bytes_of "|)&;")) by (done || symbol_sets).
  all: destruct (gettoken_spec s1 _ _ Hok H1) as (q & eq & s2 & -> & H2 & Hspan); cbn [code Z.eqb Pos.eqb negb].
  all: apply Forall_cons in Hok as [_ Hok].
  all: destruct (Nat.leb_spec MAXARGS (S argc)); [cbn [length] in Ha; lia|].
  all: destruct t as [argv| | | |]; try done; cbn [add_arg].
  all: assert (Hm' : means (EXEC (argv ++ [(q, eq)])) (SExec (args ++ [w])))
         by (cbn [means] in *; apply Forall2_app; [done|by constructor]).
  - destruct (parseredirs_spec rs fuel _ _ s2 k Hrs (proj2 Hk) ltac:(follow Hk) H2 ltac:(lia) Hm') as (t' & s3 & -> & H3 & Hm3).
    cbn [pbind]. destruct (exec_loop_end fuel t' (S argc) s3 k Hk H3 ltac:(lia)) as (s' & -> & H4). by exists t', s'.
  - destruct (parseredirs_spec [] fuel (EXEC (argv ++ [(q, eq)])) (SExec (args ++ [w])) s2
      ((TWord <$> w' :: ws) ++ redirect_tokens rs ++ k)) as (t' & s3 & -> & H3 & Hm3);
      [constructor|exact Hok|apply (has_word (bytes_of "<>")); [by apply Forall_cons in Hws as []|symbol_sets]|exact H2|simpl; lia|done|].
    cbn [pbind]. destruct (IH w' fuel t' (args ++ [w]) (S argc) s3 rs k) as (t4 & s4 & E & H4 & Hm4);
      [done..|cbn [length] in *; lia|cbn [length] in *; lia|done|].
    exists t4, s4. split_and!; [done..|]. by rewrite <- app_assoc in Hm4.
Qed.

(** ** The four levels of the grammar *)

Lemma pbind_assoc {A B C} (m : pres A) (f : A -> nat -> pres B) (g : B -> nat -> pres C) :
  pbind (pbind m f) g = pbind m (fun a s => pbind (f a s) g).
Proof. by destruct m. Qed.

Lemma parseline_S fuel s : parseline buf es (S fuel) s =
  pbind (pbind (parsepipe buf es fuel s) (background buf es fuel)) (fun c s =>
  let '(semi, s) := peek buf es s (bytes_of ";") in
  if semi then
    let '(_, _, _, s) := gettoken buf es s in pbind (parseline buf es fuel s) (fun right s => POk (LIST c right) s)
  else POk c s).
Proof. by rewrite pbind_assoc. Qed.

Lemma parsepipe_S fuel s : parsepipe buf es (S fuel) s =
  pbind (parseexec buf es fuel s) (fun c s =>
  let '(bar, s) := peek buf es s (bytes_of "|") in
  if bar then
    let '(_, _, _, s) := gettoken buf es s in pbind (parsepipe buf es fuel s) (fun right s => POk (PIPE c right) s)
  else POk c s).
Proof. done. Qed.

Lemma parseexec_S fuel s : parseexec buf es (S fuel) s =
  let '(opening, s) := peek buf es s (bytes_of "(") in
  if opening then parseblock buf es fuel s
  else pbind (parseredirs buf es fuel (EXEC []) s) (fun ret s => parseexec_loop buf es fuel ret 0 s).
Proof. done. Qed.

Lemma parseblock_S fuel s : parseblock buf es (S fuel) s =
  let '(opening, s) := peek buf es s (bytes_of "(") in
  if negb opening then sh_panic (bytes_of "parseblock")
  else
    let '(_, _, _, s) := gettoken buf es s in
    pbind (parseline buf es fuel s) (fun c s =>
    let '(closing, s) := peek buf es s (bytes_of ")") in
    if negb closing then sh_panic (bytes_of "syntax - missing )")
    else let '(_, _, _, s) := gettoken buf es s in parseredirs buf es fuel c s).
Proof. done. Qed.

Definition line_spec (c : scmd) : Prop := forall fuel s k,
  follows after_line k -> before s (toks 0 c ++ k) -> (4 * length (toks 0 c) + 4 <= fuel)%nat ->
  exists t s', parseline buf es fuel s = POk t s' /\ before s' k /\ means t c.

(** The loop over [&] goes on after the command. *)
Definition back_spec (c : scmd) : Prop := forall fuel G s k,
  follows after_pipe k -> before s (toks 1 c ++ k) -> (4 * length (toks 1 c) + 3 <= fuel)%nat ->
  (length (toks 1 c) < G)%nat ->
  exists t s' G', pbind (parsepipe buf es fuel s) (background buf es G) = background buf es G' t s' /\
    (G - length (toks 1 c) <= G')%nat /\ before s' k /\ means t c.

Definition pipe_spec (c : scmd) : Prop := forall fuel s k,
  follows after_pipe k -> before s (toks 2 c ++ k) -> (4 * length (toks 2 c) + 3 <= fuel)%nat ->
  exists t s', parsepipe buf es fuel s = POk t s' /\ before s' k /\ means t c.

Definition exec_spec (c : scmd) : Prop := forall fuel s k,
  follows after_exec k -> before s (toks 3 c ++ k) -> (4 * length (toks 3 c) + 2 <= fuel)%nat ->
  exists t s', parseexec buf es fuel s = POk t s' /\ before s' k /\ means t c.

Lemma toks_ok lv c : scmd_ok c -> Forall token_ok (toks lv c).
Proof.
  assert (Hp : forall b l, Forall token_ok l -> Forall token_ok (parens b l)).
  { intros [] l Hl; [|done]. unfold parens. constructor; [done|]. apply Forall_app. split; [done|]. by repeat constructor. }
  revert lv. induction c as [args|c IH d f|l IHl r IHr|l IHl r IHr|c IH]; intros lv; cbn [scmd_ok toks].
  - intros [H _]. by rewrite Forall_fmap.
  - intros [H1 H2]. apply Forall_app. split; [by apply IH|]. repeat constructor; [by destruct d|apply H2..].
  - intros [H1 H2]. apply Hp, Forall_app. split; [by apply IHl|]. constructor; [done|by apply IHr].
  - intros [H1 H2]. apply Hp, Forall_app. split; [by apply IHl|]. constructor; [done|by apply IHr].
  - intros H. apply Hp, Forall_app. split; [by apply IH|]. by repeat constructor.
Qed.

Lemma toks_app_ok c lv k : scmd_ok c -> Forall token_ok k -> Forall token_ok (toks lv c ++ k).
Proof. intros Hc Hk. apply Forall_app. split; [by apply toks_ok|done]. Qed.

(** A symbol that peek looks for, taken by gettoken. *)
Lemma take_symbol l c s k :
  token_ok (TSym c) -> Forall token_ok k -> before s (TSym c :: k) ->
  exists s1, peek buf es s l = (has l c, s1) /\ exists q eq s2, gettoken buf es s1 = (c, q, eq, s2) /\ before s2 k.
Proof.
  intros Hc Hk Hb. assert (Hok : Forall token_ok (TSym c :: k)) by (by constructor).
  destruct (peek_spec s _ l Hok Hb) as (s1 & E & H1%at_token_before). exists s1. split; [exact E|].
  destruct (gettoken_spec s1 _ _ Hok H1) as (q & eq & s2 & E2 & H2 & _). by exists q, eq, s2.
Qed.

(** A symbol that does not come next. *)
Lemma miss_symbol l s k :
  Forall token_ok k -> has l (next_char k) = false -> before s k ->
  exists s1, peek buf es s l = (false, s1) /\ before s1 k.
Proof.
  intros Hk Hn Hb. destruct (peek_spec s k l Hk Hb) as (s1 & E & H1%at_token_before). exists s1. by rewrite E, Hn.
Qed.

Lemma pipe_of_exec c : toks 2 c = toks 3 c -> exec_spec c -> pipe_spec c.
Proof.
  intros E H fuel s k Hk Hb Hf. rewrite E in *. destruct fuel as [|fuel]; [lia|]. rewrite parsepipe_S.
  destruct (H fuel s k) as (t & s1 & -> & H1 & Hm); [by apply follows_pipe|done|lia|]. cbn [pbind].
  destruct (miss_symbol (bytes_of "|") s1 k (proj2 Hk) ltac:(follow Hk) H1) as (s2 & -> & H2). by exists t, s2.
Qed.

Lemma back_of_pipe c : toks 1 c = toks 2 c -> pipe_spec c -> back_spec c.
Proof.
  intros E H fuel G s k Hk Hb Hf HG. rewrite E in *. destruct (H fuel s k Hk Hb Hf) as (t & s1 & -> & H1 & Hm).
  exists t, s1, G. split_and!; [done|lia|done|done].
Qed.

Lemma line_of_back c : toks 0 c = toks 1 c -> back_spec c -> line_spec c.
Proof.
  intros E H fuel s k Hk Hb Hf. rewrite E in *. destruct fuel as [|fuel]; [lia|]. rewrite parseline_S.
  destruct (H fuel fuel s k (follows_line _ Hk) Hb ltac:(lia) ltac:(lia)) as (t & s1 & G & E1 & HG & H1 & Hm).
  rewrite E1. destruct G as [|G]; [lia|]. cbn [background].
  destruct (miss_symbol (bytes_of "&") s1 k (proj2 Hk) ltac:(follow Hk) H1) as (s2 & -> & H2). cbn [pbind].
  destruct (miss_symbol (bytes_of ";") s2 k (proj2 Hk) ltac:(follow Hk) H2) as (s3 & -> & H3). by exists t, s3.
Qed.

(** A pipeline. *)
Lemma pipe_native l r : scmd_ok r -> exec_spec l -> pipe_spec r -> pipe_spec (SPipe l r).
Proof.
  intros Hr Hl Hp fuel s k Hk Hb Hf. change (toks 2 (SPipe l r)) with (toks 3 l ++ TSym 124 :: toks 2 r) in *.
  rewrite <- app_assoc in Hb. cbn [app] in Hb. rewrite length_app in Hf. cbn [length] in Hf.
  pose proof (toks_app_ok r 2 k Hr (proj2 Hk)) as Hok.
  destruct fuel as [|fuel]; [lia|]. rewrite parsepipe_S.
  destruct (Hl fuel s (TSym 124 :: toks 2 r ++ k)) as (t & s1 & -> & H1 & Hm);
    [apply follows_symbol; [unfold after_exec; set_solver|done|done]|done|lia|]. cbn [pbind].
  destruct (take_symbol (bytes_of "|") 124 s1 _ eq_refl Hok H1) as (s2 & -> & q & eq & s3 & E & H3).
  replace (has (bytes_of "|") 124) with true by reflexivity. rewrite E.
  destruct (Hp fuel s3 k Hk H3 ltac:(lia)) as (u & s4 & -> & H4 & Hu). by exists (PIPE t u), s4.
Qed.

(** A command in the background. *)
Lemma back_native c : back_spec c -> back_spec (SBack c).
Proof.
  intros Hc fuel G s k Hk Hb Hf HG. change (toks 1 (SBack c)) with (toks 1 c ++ [TSym 38]) in *.
  rewrite <- app_assoc in Hb. cbn [app] in Hb. rewrite length_app in *. cbn [length] in *.
  destruct (Hc fuel G s (TSym 38 :: k)) as (t & s1 & G1 & E1 & HG1 & H1 & Hm);
    [apply follows_symbol; [unfold after_pipe; set_solver|done|apply Hk]|done|lia|lia|].
  destruct G1 as [|G1]; [lia|]. cbn [background] in E1.
  destruct (take_symbol (bytes_of "&") 38 s1 _ eq_refl (proj2 Hk) H1) as (s2 & E2 & q & eq & s3 & E & H3).
  rewrite E2 in E1. replace (has (bytes_of "&") 38) with true in E1 by reflexivity. rewrite E in E1.
  exists (BACK t), s3, G1. split_and!; [done|lia|done|done].
Qed.

(** A list of commands. *)
Lemma line_native l r : scmd_ok r -> back_spec l -> line_spec r -> line_spec (SList l r).
Proof.
  intros Hr Hl Hp fuel s k Hk Hb Hf. change (toks 0 (SList l r)) with (toks 1 l ++ TSym 59 :: toks 0 r) in *.
  rewrite <- app_assoc in Hb. cbn [app] in Hb. rewrite length_app in Hf. cbn [length] in Hf.
  pose proof (toks_app_ok r 0 k Hr (proj2 Hk)) as Hok.
  destruct fuel as [|fuel]; [lia|]. rewrite parseline_S.
  destruct (Hl fuel fuel s (TSym 59 :: toks 0 r ++ k)) as (t & s1 & G & -> & HG & H1 & Hm);
    [apply follows_symbol; [unfold after_pipe; set_solver|done|done]|done|lia|lia|].
  destruct G as [|G]; [lia|]. cbn [background].
  destruct (miss_symbol (bytes_of "&") s1 (TSym 59 :: toks 0 r ++ k)) as (s2 & -> & H2); [by constructor|done|done|]. cbn [pbind].
  destruct (take_symbol (bytes_of ";") 59 s2 _ eq_refl Hok H2) as (s3 & -> & q & eq & s4 & E & H4).
  replace (has (bytes_of ";") 59) with true by reflexivity. rewrite E.
  destruct (Hp fuel s4 k Hk H4 ltac:(lia)) as (u & s5 & -> & H5 & Hu). by exists (LIST t u), s5.
Qed.

(** One command: words or a block, then redirections. *)
Definition simple (c : scmd) : Prop := exists b rs,
  c = redirect b rs /\ Forall (fun r => sword r.2) rs /\ scmd_ok b /\
  ((exists args, b = SExec args) \/ toks 3 b = TSym 40 :: toks 0 b ++ [TSym 41] /\ line_spec b).

Lemma toks_redirect rs c : toks 3 (redirect c rs) = toks 3 c ++ redirect_tokens rs.
Proof.
  revert c. induction rs as [|[d f] rs IH]; intros c; [by rewrite app_nil_r|].
  change (redirect c ((d, f) :: rs)) with (redirect (SRedir c d f) rs). rewrite IH. cbn [toks]. by rewrite <- app_assoc.
Qed.

Lemma length_redirect_tokens rs : length (redirect_tokens rs) = (2 * length rs)%nat.
Proof. induction rs as [|r rs IH]; [done|]. cbn. fold (redirect_tokens rs). cbn in IH. unfold redirect_tokens in *. lia. Qed.

Lemma next_redirect rs k (l : list Z) :
  has l 60 = false -> has l 62 = false -> has l (next_char k) = false -> has l (next_char (redirect_tokens rs ++ k)) = false.
Proof. intros H1 H2 Hk. destruct rs as [|[[] f] rs]; done. Qed.

Lemma exec_words args rs : Forall sword args -> (length args < MAXARGS)%nat -> Forall (fun r => sword r.2) rs ->
  exec_spec (redirect (SExec args) rs).
Proof.
  intros Ha Hn Hrs fuel s k Hk Hb Hf. rewrite toks_redirect in *. rewrite length_app, length_redirect_tokens in Hf.
  cbn [toks] in *. rewrite length_fmap in Hf. rewrite <- app_assoc in Hb. destruct fuel as [|fuel]; [lia|]. rewrite parseexec_S.
  assert (Hok : Forall token_ok (redirect_tokens rs ++ k)) by (apply Forall_app; split; [by apply redirect_tokens_ok|apply Hk]).
  destruct args as [|w args].
  - destruct (miss_symbol (bytes_of "(") s _ Hok) as (s1 & -> & H1); [by apply next_redirect; [..|follow Hk]|done|].
    destruct (parseredirs_spec rs fuel (EXEC []) (SExec []) s1 k Hrs (proj2 Hk) ltac:(follow Hk) H1 ltac:(simpl in *; lia)) as (t & s2 & -> & H2 & Hm);
      [constructor|]. cbn [pbind].
    destruct (exec_loop_end fuel t 0 s2 k Hk H2 ltac:(simpl in *; lia)) as (s3 & -> & H3). by exists t, s3.
  - assert (Hok2 : Forall token_ok ((TWord <$> w :: args) ++ redirect_tokens rs ++ k)).
    { apply Forall_app. rewrite Forall_fmap. split; [exact Ha|done]. }
    pose proof Ha as [Hw _]%Forall_cons.
    destruct (miss_symbol (bytes_of "(") s _ Hok2) as (s1 & -> & H1); [apply (has_word (bytes_of "(")); [done|symbol_sets]|done|].
    destruct (parseredirs_spec [] fuel (EXEC []) (SExec []) s1 _ (Forall_nil_2 _) Hok2) as (t & s2 & -> & H2 & Hm);
      [apply (has_word (bytes_of "<>")); [done|symbol_sets]|done|simpl in *; lia|constructor|]. cbn [pbind].
    destruct (exec_loop_spec args w fuel t [] 0 s2 rs k) as (t' & s3 & E & H3 & Hm3); [done..|simpl in *; lia|done|]. by exists t', s3.
Qed.

Lemma exec_block b rs : scmd_ok b -> toks 3 b = TSym 40 :: toks 0 b ++ [TSym 41] -> line_spec b ->
  Forall (fun r => sword r.2) rs -> exec_spec (redirect b rs).
Proof.
  intros Hb0 Et Hl Hrs fuel s k Hk Hb Hf. rewrite toks_redirect, Et in *. rewrite length_app, length_redirect_tokens in Hf.
  cbn [app length] in *. rewrite <- !app_assoc in Hb. cbn [app] in Hb. rewrite length_app in Hf. cbn [length] in Hf.
  assert (Hok : Forall token_ok (redirect_tokens rs ++ k)) by (apply Forall_app; split; [by apply redirect_tokens_ok|apply Hk]).
  assert (Hok2 : Forall token_ok (TSym 41 :: redirect_tokens rs ++ k)) by (by constructor).
  pose proof (toks_app_ok b 0 _ Hb0 Hok2) as Hok3.
  destruct fuel as [|[|fuel]]; [lia..|]. rewrite parseexec_S.
  destruct (peek_spec s (TSym 40 :: toks 0 b ++ TSym 41 :: redirect_tokens rs ++ k) (bytes_of "(")) as (s1 & -> & H1%at_token_before);
    [by constructor|done|]. replace (has (bytes_of "(") _) with true by reflexivity. rewrite parseblock_S.
  destruct (take_symbol (bytes_of "(") 40 s1 _ eq_refl Hok3 H1) as (s2 & -> & q & eq & s3 & E & H3).
  replace (has (bytes_of "(") 40) with true by reflexivity. cbn [negb]. rewrite E.
  destruct (Hl fuel s3 (TSym 41 :: redirect_tokens rs ++ k)) as (t & s4 & -> & H4 & Hm);
    [apply follows_symbol; [unfold after_line; set_solver|done|done]|done|lia|]. cbn [pbind].
  destruct (take_symbol (bytes_of ")") 41 s4 _ eq_refl Hok H4) as (s5 & -> & q' & eq' & s6 & E' & H6).
  replace (has (bytes_of ")") 41) with true by reflexivity. cbn [negb]. rewrite E'.
  destruct (parseredirs_spec rs fuel t b s6 k Hrs (proj2 Hk) ltac:(follow Hk) H6 ltac:(lia) Hm) as (u & s7 & -> & H7 & Hu).
  by exists u, s7.
Qed.

Lemma exec_of_simple c : simple c -> exec_spec c.
Proof.
  intros (b & rs & -> & Hrs & Hb & [(args & ->)|(Et & Hl)]); [|by apply exec_block].
  destruct Hb. by apply exec_words.
Qed.

Lemma simple_block c : scmd_ok c -> toks 3 c = TSym 40 :: toks 0 c ++ [TSym 41] -> line_spec c -> simple c.
Proof. intros. exists c, []. split_and!; [done|constructor|done|by right]. Qed.

(** Every level parses every command. *)
Lemma parse_levels c : scmd_ok c -> line_spec c /\ back_spec c /\ pipe_spec c /\ simple c.
Proof.
  assert (Hdown : forall c, simple c -> toks 2 c = toks 3 c -> toks 1 c = toks 2 c -> toks 0 c = toks 1 c ->
    line_spec c /\ back_spec c /\ pipe_spec c /\ simple c).
  { intros d Hs E2 E1 E0. pose proof (exec_of_simple _ Hs) as He. pose proof (pipe_of_exec _ E2 He) as Hp.
    pose proof (back_of_pipe _ E1 Hp) as Hb. split_and!; [by apply line_of_back|done..]. }
  induction c as [args|c IH d f|l IHl r IHr|l IHl r IHr|c IH]; intros Hc; cbn [scmd_ok] in Hc.
  - apply Hdown; [|done..]. exists (SExec args), []. split_and!; [done|constructor|done|left; by exists args].
  - destruct Hc as [Hc Hf]. destruct (IH Hc) as (_ & _ & _ & b & rs & -> & Hrs & Hb & Hcase).
    apply Hdown; [|done..]. exists b, (rs ++ [(d, f)]). split_and!; [by unfold redirect; rewrite foldl_app| |done|done].
    apply Forall_app. split; [done|by constructor].
  - destruct Hc as [Hl Hr]. destruct (IHl Hl) as (_ & _ & _ & Sl), (IHr Hr) as (_ & _ & Pr & _).
    pose proof (pipe_native l r Hr (exec_of_simple _ Sl) Pr) as Hp. pose proof (back_of_pipe (SPipe l r) eq_refl Hp) as Hb.
    pose proof (line_of_back (SPipe l r) eq_refl Hb) as Hn. split_and!; [done..|by apply simple_block].
  - destruct Hc as [Hl Hr]. destruct (IHl Hl) as (_ & Bl & _ & _), (IHr Hr) as (Lr & _).
    pose proof (line_native l r Hr Bl Lr) as Hn. assert (Hs : simple (SList l r)) by (by apply simple_block).
    pose proof (pipe_of_exec (SList l r) eq_refl (exec_of_simple _ Hs)) as Hp. split_and!; [done|by apply back_of_pipe|done|done].
  - destruct (IH Hc) as (_ & Bc & _ & _). pose proof (back_native c Bc) as Hb.
    pose proof (line_of_back (SBack c) eq_refl Hb) as Hn. assert (Hs : simple (SBack c)) by (by apply simple_block).
    split_and!; [done|done|by apply pipe_of_exec; [|apply exec_of_simple]|done].
Qed.
End positions.

(** ** Strings in the line *)

(** The command, its strings read from the line [b]. *)
Fixpoint reads (b : list Z) (t : cmd) (c : scmd) : Prop :=
  match t, c with
  | EXEC argv, SExec args => (fun a => cstring (drop a.1 b)) <$> argv = args
  | REDIR t q _ mode fd, SRedir c d f =>
      reads b t c /\ cstring (drop q b) = f /\ mode = direction_mode d /\ fd = direction_fd d
  | PIPE t u, SPipe c d => reads b t c /\ reads b u d
  | LIST t u, SList c d => reads b t c /\ reads b u d
  | BACK t, SBack c => reads b t c
  | _, _ => False
  end.

(** Where nulterminate stores. *)
Fixpoint ends (t : cmd) : list nat :=
  match t with
  | EXEC argv => argv.*2
  | REDIR t _ eq _ _ => ends t ++ [eq]
  | PIPE t u | LIST t u => ends t ++ ends u
  | BACK t => ends t
  end.

Definition store_nuls (l : list nat) (b : list Z) : list Z := foldl (fun b e => <[e := 0]> b) b l.

Lemma nulterminate_ends t b : nulterminate t b = store_nuls (ends t) b.
Proof.
  revert b. induction t as [argv|t IH q eq m fd|t IHt u IHu|t IHt u IHu|t IH]; intros b; cbn [nulterminate ends].
  - unfold store_nuls. revert b. induction argv as [|a argv IH]; intros b; [done|]. apply IH.
  - unfold store_nuls. rewrite foldl_app, IH. done.
  - unfold store_nuls. rewrite foldl_app, IHu, IHt. done.
  - unfold store_nuls. rewrite foldl_app, IHu, IHt. done.
  - apply IH.
Qed.

Lemma length_store_nuls l b : length (store_nuls l b) = length b.
Proof. unfold store_nuls. revert b. induction l as [|e l IH]; intros b; [done|]. cbn. rewrite IH. apply length_insert. Qed.

Lemma store_nuls_lookup l b i :
  (i < length b)%nat -> store_nuls l b !! i = if bool_decide (i ∈ l) then Some 0 else b !! i.
Proof.
  unfold store_nuls. revert b. induction l as [|e l IH]; intros b Hi; [done|]. cbn. rewrite IH by (by rewrite length_insert).
  repeat case_bool_decide; try done; try (by exfalso; set_solver).
  - destruct (decide (i = e)) as [->|]; [by rewrite list_lookup_insert_eq|set_solver].
  - rewrite list_lookup_insert_ne by set_solver. done.
Qed.

(** The nuls are stored over characters that belong to no word. *)
Lemma means_ends buf t c e : means buf t c -> e ∈ ends t -> exists x, buf !! e = Some x /\ ~ wordy x.
Proof.
  assert (Hs : forall q eq w, span buf q eq w -> exists x, buf !! eq = Some x /\ ~ wordy x).
  { intros q eq w (-> & x & junk & E & Hx). exists x. split; [|done]. rewrite <- lookup_drop, E, lookup_app_r by lia.
    by rewrite Nat.sub_diag. }
  revert c. induction t as [argv|t IH q eq m fd|t IHt u IHu|t IHt u IHu|t IH]; intros c; destruct c; cbn [means ends]; try done.
  - intros H He. apply list_elem_of_fmap in He as ([q eq] & -> & Hin). apply list_elem_of_lookup in Hin as [i Hi].
    destruct (Forall2_lookup_l _ _ _ _ _ H Hi) as (w & _ & Hw). by eapply Hs.
  - intros (Hm & Hw & _) [He|He%list_elem_of_singleton]%elem_of_app; [by eapply IH|]. subst e. by eapply Hs.
  - intros [Ht Hu] [He|He]%elem_of_app; [by eapply IHt|by eapply IHu].
  - intros [Ht Hu] [He|He]%elem_of_app; [by eapply IHt|by eapply IHu].
  - apply IH.
Qed.

Lemma span_reads buf b q eq w :
  span buf q eq w -> Forall wordy w -> b !! eq = Some 0 ->
  (forall i x, buf !! i = Some x -> wordy x -> b !! i = Some x) -> cstring (drop q b) = w.
Proof.
  intros (-> & y & junk & E & _) Hw H0 Hb. revert q E H0. induction Hw as [|c w Hc Hw IH]; intros q E H0.
  - simpl in H0. rewrite Nat.add_0_r in H0. by rewrite (drop_S _ _ _ H0).
  - assert (Hq : buf !! q = Some c) by (by rewrite <- (Nat.add_0_r q), <- lookup_drop, E).
    rewrite (drop_S _ _ _ (Hb _ _ Hq Hc)). cbn [cstring]. destruct Hc as [Hc _]. rewrite (proj2 (Z.eqb_neq _ _) Hc). f_equal.
    apply IH; [|rewrite <- H0; f_equal; cbn [length]; lia].
    replace (S q) with (q + 1)%nat by lia. by rewrite <- drop_drop, E.
Qed.

(** Each string of the command ends at its nul. *)
Lemma means_reads buf b t c :
  means buf t c -> scmd_ok c -> (forall e, e ∈ ends t -> b !! e = Some 0) ->
  (forall i x, buf !! i = Some x -> wordy x -> b !! i = Some x) -> reads b t c.
Proof.
  intros Hm Hc He Hb. revert c Hm Hc He. induction t as [argv|t IH q eq m fd|t IHt u IHu|t IHt u IHu|t IH]; intros c; destruct c as [args|c d f|l r|l r|c]; cbn [means reads ends scmd_ok]; try done.
  - intros H [Ha _] He. clear -H Ha He Hb. induction H as [|[q eq] w argv args Hs H IH]; [done|].
    apply Forall_cons in Ha as [Hw Ha]. cbn. f_equal; [|apply IH; [done|set_solver]].
    eapply span_reads; [exact Hs|apply Hw|apply He; left|done].
  - intros (Hm & Hs & -> & ->) [Hc Hf] He. split_and!; [apply IH; [done..|set_solver]| |done|done].
    eapply span_reads; [exact Hs|apply Hf|apply He; set_solver|done].
  - intros [] [] He. split; [apply IHt|apply IHu]; try done; set_solver.
  - intros [] [] He. split; [apply IHt|apply IHu]; try done; set_solver.
  - intros. by apply IH.
Qed.

Lemma spells_nonzero ts text : Forall token_ok ts -> spells ts text -> Forall (fun c => c <> 0) text.
Proof.
  intros Hok H. induction H as [|t ws ts text Hws _ Hsp IH]; [constructor|]. apply Forall_cons in Hok as [Ht Hok].
  rewrite !Forall_app. split_and!; [|eapply Forall_impl; [exact Hws|]; intros c Hc ->; by rewrite has_zero in Hc|by apply IH].
  destruct t as [w|c|]; cbn [text_of].
  - destruct Ht as [_ Ht]. eapply Forall_impl; [exact Ht|]. by intros c [].
  - constructor; [|constructor]. by apply symbol_not_blank.
  - by repeat constructor.
Qed.

Lemma spells_length ts text : Forall token_ok ts -> spells ts text -> (length ts <= length text)%nat.
Proof.
  intros Hok H. induction H as [|t ws ts text Hws _ Hsp IH]; [done|]. apply Forall_cons in Hok as [Ht Hok].
  destruct (text_of_head _ Ht) as (c & l & -> & _). specialize (IH Hok). cbn [length app]. rewrite !length_app. lia.
Qed.

Lemma cstring_nonzero l junk : Forall (fun c => c <> 0) l -> cstring (l ++ 0 :: junk) = l.
Proof. induction 1 as [|c l Hc H IH]; [done|]. cbn [app cstring]. by rewrite (proj2 (Z.eqb_neq _ _) Hc), IH. Qed.

Lemma parsecmd_spells c ws text junk :
  scmd_ok c -> blank ws -> spells (toks 0 c) text ->
  exists t line s, parsecmd (ws ++ text ++ 0 :: junk) = POk (t, line) s /\ reads line t c /\
    length line = length (ws ++ text ++ 0 :: junk).
Proof.
  intros Hc Hws Hsp. pose proof (toks_ok 0 c Hc) as Hok.
  assert (Hz : Forall (fun c => c <> 0) (ws ++ text)).
  { apply Forall_app. split; [|by eapply spells_nonzero]. eapply Forall_impl; [exact Hws|]. intros x Hx ->. by rewrite has_zero in Hx. }
  set (buf := ws ++ text ++ 0 :: junk). assert (Eb : buf = (ws ++ text) ++ 0 :: junk) by (by rewrite <- app_assoc).
  assert (Ec : length (cstring buf) = length (ws ++ text)) by (by rewrite Eb, cstring_nonzero).
  unfold parsecmd. cbv zeta. rewrite Ec. set (es := length (ws ++ text)).
  destruct (proj1 (parse_levels buf es c Hc) (parse_fuel es) 0%nat []) as (t & s & -> & Hb & Hm).
  - split; [left|constructor].
  - rewrite app_nil_r. exists ws, text. split_and!; [done..|]. split; [done|]. exists junk. by rewrite Eb.
  - rewrite Forall_forall in Hok. pose proof (spells_length _ _ (toks_ok 0 c Hc) Hsp). unfold parse_fuel, es. rewrite length_app. lia.
  - cbn [pbind]. destruct (peek_spec buf es s [] [] (Forall_nil_2 _) Hb) as (s' & -> & text' & Hsp' & Hat).
    inversion Hsp'; subst. destruct Hat as [Hs' _]. cbn [length] in Hs'. rewrite Nat.add_0_r in Hs'. rewrite Hs', Nat.eqb_refl. cbn [negb].
    exists t, (nulterminate t buf), es. split; [done|]. rewrite nulterminate_ends. split; [|apply length_store_nuls].
    eapply means_reads; [exact Hm|done| |].
    + intros e He. destruct (means_ends buf t c e Hm He) as (x & Hx & _). rewrite store_nuls_lookup by (by eapply lookup_lt_Some).
      by rewrite bool_decide_eq_true_2.
    + intros i x Hi Hx. rewrite store_nuls_lookup by (by eapply lookup_lt_Some). rewrite bool_decide_eq_false_2; [done|].
      intros He. destruct (means_ends buf t c i Hm He) as (y & Hy & Hn). by simplify_eq.
Qed.

(** C26: a line that spells a command, with any white space around and between
    its tokens, is parsed to that command: the tree has the structure of the
    command (pipes bind tighter than [&], which binds tighter than [;], and
    parentheses group), and after nulterminate each of its strings, read from
    the line up to its nul, is the word of the command. *)
Theorem parse_print c ws text junk :
  scmd_ok c -> blank ws -> spells (toks 0 c) text ->
  exists t line s, parsecmd (ws ++ text ++ 0 :: junk) = POk (t, line) s /\ reads line t c /\
    length line = length (ws ++ text ++ 0 :: junk).
Proof. apply parsecmd_spells. Qed.

(** "ls a |(wc;cat)>f &" and a newline. *)
Definition ex_scmd : scmd :=
  SBack (SPipe (SExec [bytes_of "ls"; bytes_of "a"]) (SRedir (SList (SExec [bytes_of "wc"]) (SExec [bytes_of "cat"])) Output (bytes_of "f"))).

Lemma ex_scmd_ok : scmd_ok ex_scmd.
Proof. cbn. unfold MAXARGS. repeat (split || constructor || lia || discriminate). Qed.

(** Split a text after its first token and the white space behind it. *)
Ltac spell := vm_compute; repeat (first
  [ apply spells_end
  | match goal with |- spells (?t :: _) ?l =>
      first
      [ apply (spells_token t [32] _ (drop (S (length (text_of t))) l)); [by repeat constructor|done|]
      | apply (spells_token t [10] _ (drop (S (length (text_of t))) l)); [by repeat constructor|done|]
      | apply (spells_token t [] _ (drop (length (text_of t)) l)); [constructor|by cbn|] ]
    end; cbn [drop length text_of] ]).

Lemma ex_scmd_spells : spells (toks 0 ex_scmd) (bytes_of "ls a |(wc;cat)>f &").
Proof. spell. Qed.

Lemma parse_print_witness : exists t line s,
  parsecmd (bytes_of "  ls a |(wc;cat)>f &" ++ [0; 0]) = POk (t, line) s /\ reads line t ex_scmd.
Proof.
  destruct (parse_print ex_scmd [32; 32] (bytes_of "ls a |(wc;cat)>f &") [0]) as (t & line & s & H1 & H2 & _).
  - exact ex_scmd_ok.
  - by repeat constructor.
  - exact ex_scmd_spells.
  - exists t, line, s. split; [exact H1|exact H2].
Defined.

(** ** Every line is parsed or refused *)

Section total.
Context (buf : list Z) (es : nat) (Hes : chr buf es = 0).

(** The parser went on to a position from [n] to [es], and nulterminate will
    store inside the line. *)
Definition good (n : nat) (m : pres cmd) : Prop :=
  match m with
  | POk t s => (n <= s <= es)%nat /\ Forall (fun e => e <= es)%nat (ends t)
  | PPanic msg => msg <> []
  | PNoFuel => False
  end.

Lemma good_mono n n' m : (n' <= n)%nat -> good n m -> good n' m.
Proof. destruct m as [t s| |]; cbn; [|done..]. intros H [? ?]. split; [lia|done]. Qed.

Lemma good_bind n m f : good n m -> (forall t s, (n <= s <= es)%nat -> Forall (fun e => e <= es)%nat (ends t) -> good n (f t s)) -> good n (pbind m f).
Proof. destruct m as [t s| |]; cbn; [|done..]. intros [Hs Ht] Hf. by apply Hf. Qed.

Lemma scan_bounds p n s : (s <= scan buf p n s <= s + n)%nat.
Proof. revert s. induction n as [|n IH]; intros s; cbn [scan]; [lia|]. destruct (p _); [|lia]. specialize (IH (S s)). lia. Qed.

Lemma scan_stops p n s : scan buf p n s = (s + n)%nat \/ p (chr buf (scan buf p n s)) = false.
Proof.
  revert s. induction n as [|n IH]; intros s; cbn [scan]; [left; lia|]. destruct (p (chr buf s)) eqn:E; [|by right].
  destruct (IH (S s)) as [H|H]; [left; lia|by right].
Qed.

Lemma skip_ws_bounds s : (s <= es)%nat -> (s <= skip_ws buf es s <= es)%nat.
Proof. intros H. pose proof (scan_bounds (has whitespace) (es - s) s). unfold skip_ws. lia. Qed.

Lemma skip_ws_stops s : (s <= es)%nat -> has whitespace (chr buf (skip_ws buf es s)) = false.
Proof.
  intros H. destruct (scan_stops (has whitespace) (es - s) s) as [E|E]; [|done]. unfold skip_ws. rewrite E.
  replace (s + (es - s))%nat with es by lia. by rewrite Hes.
Qed.

Lemma nonzero_inside s : (s <= es)%nat -> chr buf s <> 0 -> (s < es)%nat.
Proof. intros H Hc. destruct (decide (s = es)) as [->|]; [done|lia]. Qed.

Lemma gettoken_progress s : (s <= es)%nat ->
  exists ret q eq s', gettoken buf es s = (ret, q, eq, s') /\ (s <= s' <= es)%nat /\ (eq <= es)%nat /\
    (ret = 0 <-> chr buf (skip_ws buf es s) = 0) /\ (ret <> 0 -> (s < s')%nat).
Proof.
  intros Hs. unfold gettoken. pose proof (skip_ws_bounds s Hs) as Hq. pose proof (skip_ws_stops s Hs) as Hw.
  set (q := skip_ws buf es s) in *. clearbody q.
  assert (Hend : forall ret e, (q < e <= es)%nat -> ret <> 0 -> chr buf q <> 0 -> exists ret' q' eq' s',
    (ret, q, e, skip_ws buf es e) = (ret', q', eq', s') /\ (s <= s' <= es)%nat /\ (eq' <= es)%nat /\
    (ret' = 0 <-> chr buf q = 0) /\ (ret' <> 0 -> (s < s')%nat)).
  { intros ret e He Hr Hc. pose proof (skip_ws_bounds e ltac:(lia)). eexists _, _, _, _. split; [reflexivity|].
    split_and!; [lia..|done|lia]. }
  destruct (Z.eqb_spec (chr buf q) 0) as [H0|H0].
  - pose proof (skip_ws_bounds q ltac:(lia)). rewrite H0. eexists _, _, _, _. split; [reflexivity|]. split_and!; [lia..|done|done].
  - pose proof (nonzero_inside q ltac:(lia) H0). destruct (has (bytes_of "|();&<") (chr buf q)) eqn:E1; [apply Hend; [lia|done..]|].
    destruct (Z.eqb_spec (chr buf q) 62) as [E2|E2].
    + destruct (Z.eqb_spec (chr buf (S q)) 62) as [E3|E3]; [|apply Hend; [lia|done..]].
      apply Hend; [|done..]. split; [lia|]. pose proof (nonzero_inside (S q) ltac:(lia)). lia.
    + apply Hend; [|done..]. pose proof (scan_bounds word_char (es - q) q) as Hb. split; [|lia].
      replace (es - q)%nat with (S (es - S q)) by lia. cbn [scan].
      assert (word_char (chr buf q) = true) as ->.
      { unfold word_char. rewrite Hw. cbn [negb andb]. apply negb_true_iff. destruct (has symbols (chr buf q)) eqn:E3; [|done].
        remember (chr buf q) as c. clear -E1 E2 E3. chars E3; done. }
      pose proof (scan_bounds word_char (es - S q) (S q)). lia.
Qed.

Lemma peek_bounds s l : (s <= es)%nat -> exists b s', peek buf es s l = (b, s') /\ (s <= s' <= es)%nat /\
  (b = true -> exists ret q eq s2, gettoken buf es s' = (ret, q, eq, s2) /\ (s < s2 <= es)%nat /\ (eq <= es)%nat).
Proof.
  intros Hs. pose proof (skip_ws_bounds s Hs) as Hq. pose proof (skip_ws_stops s Hs) as Hw. unfold peek.
  set (q := skip_ws buf es s) in *. clearbody q. eexists _, q. split; [reflexivity|]. split; [lia|].
  intros [Hc%negb_true_iff _]%andb_true_iff. apply Z.eqb_neq in Hc.
  destruct (gettoken_progress q ltac:(lia)) as (ret & a & b & s2 & E & H1 & H2 & H3 & H4). exists ret, a, b, s2.
  assert (Eq : skip_ws buf es q = q).
  { unfold skip_ws. destruct (es - q)%nat; [done|]. cbn [scan]. by rewrite Hw. }
  rewrite Eq in H3. split_and!; [done| |lia|done]. specialize (H4 ltac:(tauto)). lia.
Qed.

Lemma good_ok n t s : (n <= s <= es)%nat -> Forall (fun e => e <= es)%nat (ends t) -> good n (POk t s).
Proof. done. Qed.

Lemma parseredirs_good fuel : forall t s, (s <= es)%nat -> (es - s < fuel)%nat -> Forall (fun e => e <= es)%nat (ends t) ->
  good s (parseredirs buf es fuel t s).
Proof.
  induction fuel as [|fuel IH]; intros t s Hs Hf Ht; [lia|]. cbn [parseredirs].
  destruct (peek_bounds s (bytes_of "<>") Hs) as (more & s1 & -> & H1 & Hm). destruct more; [|by apply good_ok].
  destruct (Hm eq_refl) as (ret & q & eq & s2 & -> & H2 & _).
  destruct (gettoken_progress s2 ltac:(lia)) as (ret' & q' & eq' & s3 & -> & H3 & Heq & _).
  destruct (negb (ret' =? 97)); [done|]. eapply good_mono; [|apply IH]; [lia|lia|lia|].
  repeat case_match; cbn [ends]; try done; apply Forall_app; (split; [done|]); by constructor.
Qed.

Lemma ends_add_arg t a : (a.2 <= es)%nat -> Forall (fun e => e <= es)%nat (ends t) -> Forall (fun e => e <= es)%nat (ends (add_arg t a)).
Proof.
  intros Ha. induction t as [argv|t IH q eq m fd|t IHt u IHu|t IHt u IHu|t IH]; cbn [ends add_arg]; try done.
  - intros H. rewrite fmap_app. apply Forall_app. split; [done|by constructor].
  - rewrite !Forall_app. intros []. split; [by apply IH|done].
Qed.

Lemma parseexec_loop_good fuel : forall t argc s, (s <= es)%nat -> (es - s < fuel)%nat -> Forall (fun e => e <= es)%nat (ends t) ->
  good s (parseexec_loop buf es fuel t argc s).
Proof.
  induction fuel as [|fuel IH]; intros t argc s Hs Hf Ht; [lia|]. cbn [parseexec_loop].
  destruct (peek_bounds s (bytes_of "|)&;") Hs) as (stop & s1 & -> & H1 & _). destruct stop; [by apply good_ok|].
  destruct (gettoken_progress s1 ltac:(lia)) as (ret & q & eq & s2 & -> & H2 & Heq & _ & Hp).
  destruct (Z.eqb_spec ret 0) as [->|Hr]; [apply good_ok; [lia|done]|]. specialize (Hp Hr).
  destruct (negb (ret =? 97)); [done|]. destruct (MAXARGS <=? S argc)%nat; [done|].
  eapply good_mono; [|apply good_bind; [apply (parseredirs_good fuel _ s2)|]]; [lia..|by apply ends_add_arg|].
  intros u s3 H3 Hu. eapply good_mono; [|apply IH]; [lia|lia|lia|done].
Qed.

Lemma background_good fuel : forall t s, (s <= es)%nat -> (es - s < fuel)%nat -> Forall (fun e => e <= es)%nat (ends t) ->
  good s (background buf es fuel t s).
Proof.
  induction fuel as [|fuel IH]; intros t s Hs Hf Ht; [lia|]. cbn [background].
  destruct (peek_bounds s (bytes_of "&") Hs) as (amp & s1 & -> & H1 & Hm). destruct amp; [|by apply good_ok].
  destruct (Hm eq_refl) as (ret & q & eq & s2 & -> & H2 & _). eapply good_mono; [|apply IH]; [lia..|done].
Qed.

Lemma parsers_good fuel : forall s, (s <= es)%nat ->
  ((4 * (es - s) + 4 <= fuel)%nat -> good s (parseline buf es fuel s)) /\
  ((4 * (es - s) + 3 <= fuel)%nat -> good s (parsepipe buf es fuel s)) /\
  ((4 * (es - s) + 2 <= fuel)%nat -> good s (parseexec buf es fuel s)) /\
  ((4 * (es - s) + 1 <= fuel)%nat -> good s (parseblock buf es fuel s)).
Proof.
  induction fuel as [|fuel IH]; intros s Hs; [split_and!; lia|]. destruct (IH s Hs) as (_ & IHp & IHe & _). split_and!; intros Hf.
  - rewrite parseline_S. apply good_bind.
    { apply good_bind; [apply IHp; lia|]. intros t s1 H1 Ht. eapply good_mono; [|apply background_good]; [lia..|done]. }
    intros t s1 H1 Ht. destruct (peek_bounds s1 (bytes_of ";") ltac:(lia)) as (semi & s2 & -> & H2 & Hm).
    destruct semi; [|apply good_ok; [lia|done]]. destruct (Hm eq_refl) as (ret & q & eq & s3 & -> & H3 & _).
    eapply good_mono; [|apply good_bind; [apply (IH s3); lia|]]; [lia|]. intros u s4 H4 Hu. apply good_ok; [lia|]. by apply Forall_app.
  - rewrite parsepipe_S. apply good_bind; [apply IHe; lia|].
    intros t s1 H1 Ht. destruct (peek_bounds s1 (bytes_of "|") ltac:(lia)) as (bar & s2 & -> & H2 & Hm).
    destruct bar; [|apply good_ok; [lia|done]]. destruct (Hm eq_refl) as (ret & q & eq & s3 & -> & H3 & _).
    eapply good_mono; [|apply good_bind; [apply (IH s3); lia|]]; [lia|]. intros u s4 H4 Hu. apply good_ok; [lia|]. by apply Forall_app.
  - rewrite parseexec_S. destruct (peek_bounds s (bytes_of "(") Hs) as (opening & s1 & -> & H1 & _).
    destruct opening; [eapply good_mono; [|apply (IH s1)]; lia|].
    eapply good_mono; [|apply good_bind; [apply (parseredirs_good fuel (EXEC []) s1)|]]; [lia..|constructor|].
    intros u s2 H2 Hu. eapply good_mono; [|apply parseexec_loop_good]; [lia..|done].
  - rewrite parseblock_S. destruct (peek_bounds s (bytes_of "(") Hs) as (opening & s1 & -> & H1 & Hm).
    destruct opening; [|done]. cbn [negb]. destruct (Hm eq_refl) as (ret & q & eq & s2 & -> & H2 & _).
    eapply good_mono; [|apply good_bind; [apply (IH s2); lia|]]; [lia|]. intros t s3 H3 Ht.
    destruct (peek_bounds s3 (bytes_of ")") ltac:(lia)) as (closing & s4 & -> & H4 & Hm').
    destruct closing; [|done]. cbn [negb]. destruct (Hm' eq_refl) as (ret' & q' & eq' & s5 & -> & H5 & _).
    eapply good_mono; [|apply parseredirs_good]; [lia..|done].
Qed.
End total.

Lemma chr_end buf : chr buf (length (cstring buf)) = 0.
Proof.
  unfold chr. induction buf as [|c buf IH]; [done|]. cbn [cstring]. destruct (Z.eqb_spec c 0) as [->|]; [done|]. exact IH.
Qed.

(** C27: parsecmd terminates on every line, within the recursion depth that the
    length of the line bounds, and either refuses it with a message or returns
    a command; then nulterminate has stored nothing beyond the nul of the line. *)
Theorem parse_terminates buf :
  match parsecmd buf with
  | POk (t, line) s => s = length (cstring buf) /\ Forall (fun e => e <= length (cstring buf))%nat (ends t) /\
      drop (S (length (cstring buf))) line = drop (S (length (cstring buf))) buf
  | PPanic msg => msg <> []
  | PNoFuel => False
  end.
Proof.
  unfold parsecmd. cbv zeta. set (es := length (cstring buf)).
  destruct (parsers_good buf es (chr_end buf) (parse_fuel es) 0%nat ltac:(lia)) as (H & _).
  specialize (H ltac:(unfold parse_fuel; lia)). unfold good in H.
  destruct (parseline buf es (parse_fuel es) 0) as [t s|msg|] eqn:E; cbn [pbind]; [|done|done].
  - destruct H as [Hs Ht]. destruct (peek_bounds buf es (chr_end buf) s [] ltac:(lia)) as (b & s1 & -> & H1 & _).
    destruct (Nat.eqb_spec s1 es) as [->|]; cbn [negb]; [|done]. split_and!; [done|done|].
    rewrite nulterminate_ends. clearbody es. clear -Ht. unfold store_nuls. revert buf.
    induction Ht as [|e l He Ht IH]; intros b; [done|]. cbn. rewrite IH. apply drop_insert_lt. lia.
Qed.
