(* ===== verification/ShTrace.v ===== *)
(** Processes of the shell running at the same time: which traces of events a tree
    of processes that fork, wait and exit can have. *)

From S2P Require Import Prelude Machine Sh.

(** ** Interleavings *)

(** [c] has the elements of [a] and of [b], each in their order. *)
Inductive interleave {A} : list A -> list A -> list A -> Prop :=
  | il_nil : interleave [] [] []
  | il_left x a b c : interleave a b c -> interleave (x :: a) b (x :: c)
  | il_right x a b c : interleave a b c -> interleave a (x :: b) (x :: c).

Create HintDb trace.
#[export] Hint Constructors interleave : trace.

Section interleave.
Context {A : Type}.
Implicit Types a b c w : list A.

Lemma il_comm a b c : interleave a b c -> interleave b a c.
Proof. induction 1; eauto with trace. Qed.

Lemma il_nil_l b : interleave [] b b.
Proof. induction b; eauto with trace. Qed.

Lemma il_nil_inv b c : interleave [] b c -> c = b.
Proof. revert c. induction b as [|x b IH]; intros c H; inversion H; subst; [done|]. f_equal. by apply IH. Qed.

Lemma il_app a1 b1 c1 a2 b2 c2 : interleave a1 b1 c1 -> interleave a2 b2 c2 -> interleave (a1 ++ a2) (b1 ++ b2) (c1 ++ c2).
Proof. intros H1 H2. induction H1; simpl; eauto with trace. Qed.

Lemma il_prefix u a b c : interleave a b c -> interleave (u ++ a) b (u ++ c).
Proof. intros H. induction u; simpl; eauto with trace. Qed.

Lemma il_app_inv u y v w : interleave (u ++ y) v w ->
  exists v1 v2 w1 w2, v = v1 ++ v2 /\ w = w1 ++ w2 /\ interleave u v1 w1 /\ interleave y v2 w2.
Proof.
  intros H. remember (u ++ y) as uy eqn:E. revert u E. induction H as [|x a b c H IH|x a b c H IH]; intros u E.
  - destruct u, y; try done. exists [], [], [], []. eauto with trace.
  - destruct u as [|z u]; simpl in E.
    + subst y. exists [], b, [], (x :: c). eauto with trace.
    + injection E as <- ->. destruct (IH u eq_refl) as (v1 & v2 & w1 & w2 & -> & -> & H1 & H2).
      exists v1, v2, (x :: w1), w2. eauto with trace.
  - destruct (IH u E) as (v1 & v2 & w1 & w2 & -> & -> & H1 & H2). exists (x :: v1), v2, (x :: w1), w2. eauto with trace.
Qed.

Lemma il_assoc a b ab c w : interleave a b ab -> interleave ab c w ->
  exists bc, interleave b c bc /\ interleave a bc w.
Proof.
  intros H1 H2. revert a b H1. induction H2 as [|x p q r H IH|x p q r H IH]; intros a b H1.
  - inversion H1; subst. exists []. eauto with trace.
  - inversion H1; subst.
    + destruct (IH _ _ ltac:(eassumption)) as (bc & ? & ?). exists bc. eauto with trace.
    + destruct (IH _ _ ltac:(eassumption)) as (bc & ? & ?). exists (x :: bc). eauto with trace.
  - destruct (IH _ _ H1) as (bc & ? & ?). exists (x :: bc). eauto with trace.
Qed.

(** What was put beside a pair can be put beside one of them. *)
Lemma il_swap a b ab v w : interleave a b ab -> interleave ab v w ->
  exists av, interleave a v av /\ interleave av b w.
Proof.
  intros H1 H2. apply il_comm in H1. destruct (il_assoc _ _ _ _ _ H1 H2) as (av & H3 & H4).
  exists av. split; [done|]. by apply il_comm.
Qed.

Lemma il_notin x a b c : interleave a b c -> x ∉ a -> x ∉ b -> x ∉ c.
Proof. induction 1; rewrite ?elem_of_cons; naive_solver. Qed.

(** The interleavings of any number of lists. *)
Inductive merges : list (list A) -> list A -> Prop :=
  | merges_nil : merges [] []
  | merges_cons a l v w : merges l v -> interleave a v w -> merges (a :: l) w.

Lemma merges_app l1 l2 w : merges (l1 ++ l2) w -> exists w1 w2, merges l1 w1 /\ merges l2 w2 /\ interleave w1 w2 w.
Proof.
  revert w. induction l1 as [|a l1 IH]; intros w H; simpl in H.
  - exists [], w. split; [constructor|]. split; [done|apply il_nil_l].
  - inversion H as [|? ? v ? Hv Hi]; subst. destruct (IH v Hv) as (w1 & w2 & H1 & H2 & H3).
    apply il_comm in H3. apply il_comm in Hi. destruct (il_assoc _ _ _ _ _ H3 Hi) as (w1a & H4 & H5).
    exists w1a, w2. split; [|split; [done|by apply il_comm]]. econstructor; [done|]. by apply il_comm.
Qed.

(** One of the lists, and the others. *)
Lemma merges_lookup l i a w : merges l w -> l !! i = Some a ->
  exists v, interleave a v w /\ forall a' w', interleave a' v w' -> merges (<[i := a']> l) w'.
Proof.
  revert i w. induction l as [|b l IH]; intros i w H Hi; [done|]. inversion H as [|? ? v ? Hv Hil]; subst.
  destruct i as [|i]; simpl in Hi.
  - injection Hi as ->. exists v. split; [done|]. intros a' w' H'. by econstructor.
  - destruct (IH i v Hv Hi) as (v' & H1 & H2). apply il_comm in Hil.
    destruct (il_assoc _ _ _ _ _ H1 Hil) as (v'b & H3 & H4). exists v'b. split; [done|].
    intros a' w' H'. apply il_comm in H', H3. destruct (il_assoc _ _ _ _ _ H3 H') as (u & H5 & H6).
    simpl. econstructor; [apply H2, il_comm, H5|]. done.
Qed.
End interleave.
#[export] Hint Resolve il_nil_l il_prefix : trace.

(** ** Processes *)

(** A process with its children, or one that has exited and was not waited for. *)
Inductive ptree :=
  | Proc (a : act) (children : list ptree)
  | Zombie.

Definition is_zombie (T : ptree) : bool := match T with Zombie => true | _ => false end.

(** One step of the process at [addr] (the children to go down to), with the kernel's
    answer [ans]: what can be seen, the new tree, and the children that init inherits.
    wait takes a child that has exited, returns when there is no child, and otherwise
    waits. *)
Fixpoint tstep (addr : list nat) (ans : bool) (T : ptree) : option (list event * ptree * list ptree) :=
  match T with
  | Zombie => None
  | Proc a cs =>
    match addr with
    | i :: addr =>
      c ← cs !! i;
      '(ev, c, os) ← tstep addr ans c;
      Some (ev, Proc a (<[i := c]> cs), os)
    | [] =>
      match a with
      | Do ev k => Some ([ev], Proc k cs, [])
      | Try q yes no => Some (if ans then ([], Proc yes cs, []) else ([Failed q], Proc no cs, []))
      | Fork child parent failed =>
        Some (if ans then ([], Proc parent (cs ++ [Proc child []]), []) else ([Failed Q_fork], Proc failed cs, []))
      | Wait _ k =>
        match cs with
        | [] => Some ([], Proc k [], [])
        | _ => '(i, _) ← list_find is_zombie cs; Some ([], Proc k (delete i cs), [])
        end
      | Exit _ => Some ([], Zombie, cs)
      end
    end
  end.

(** A step of one of the children of init. *)
Definition fstep (addr : list nat) (ans : bool) (F : list ptree) : option (list event * list ptree) :=
  match addr with
  | i :: addr =>
    T ← F !! i;
    '(ev, T, os) ← tstep addr ans T;
    Some (ev, <[i := T]> F ++ os)
  | [] => None
  end.

(** A run: who takes each step, and the kernel's answers. *)
Fixpoint run (sched : list (list nat * bool)) (F : list ptree) : option (list event * list ptree) :=
  match sched with
  | [] => Some ([], F)
  | (addr, ans) :: sched =>
    '(ev, F) ← fstep addr ans F;
    '(tr, F) ← run sched F;
    Some (ev ++ tr, F)
  end.

(** Every process has exited. *)
Definition finished (F : list ptree) : Prop := Forall (eq Zombie) F.

(** ** Every run can be completed *)

Fixpoint asize (a : act) : nat :=
  match a with
  | Do _ k => S (asize k)
  | Try _ yes no => S (asize yes + asize no)
  | Fork child parent failed => S (asize child + asize parent + asize failed)
  | Wait _ k => S (asize k)
  | Exit _ => 1
  end.

Fixpoint tsize (T : ptree) : nat :=
  match T with
  | Proc a cs => asize a + sum_list_with tsize cs
  | Zombie => 0
  end.

Lemma asize_pos a : (0 < asize a)%nat.
Proof. destruct a; simpl; lia. Qed.

Lemma tsize_zombie T : tsize T = 0%nat -> T = Zombie.
Proof. destruct T as [a cs|]; [|done]. simpl. pose proof (asize_pos a). lia. Qed.

Lemma sum_insert cs i c c' : cs !! i = Some c ->
  (sum_list_with tsize (<[i := c']> cs) + tsize c = sum_list_with tsize cs + tsize c')%nat.
Proof.
  revert i. induction cs as [|x cs IH]; intros i Hi; [done|]. destruct i as [|i]; simpl in *.
  - injection Hi as ->. lia.
  - specialize (IH i Hi). lia.
Qed.

Lemma sum_delete cs i : (sum_list_with tsize (delete i cs) <= sum_list_with tsize cs)%nat.
Proof.
  revert i. induction cs as [|x cs IH]; intros i; [done|].
  destruct i as [|i]; [simpl; lia|]. change (delete (S i) (x :: cs)) with (x :: delete i cs). cbn [sum_list_with].
  specialize (IH i). lia.
Qed.

Lemma tstep_size addr ans T ev T' os : tstep addr ans T = Some (ev, T', os) ->
  (tsize T' + sum_list_with tsize os < tsize T)%nat.
Proof.
  revert T ev T' os. induction addr as [|i addr IH]; intros [a cs|] ev T' os H; try done; simpl in H.
  - destruct a as [e k|q y n|c p f|t k|n]; simplify_eq; simpl; rewrite ?sum_list_with_app; simpl; try lia.
    + destruct ans; simplify_eq; simpl; lia.
    + destruct ans; simplify_eq; simpl; rewrite ?sum_list_with_app; simpl; lia.
    + destruct cs as [|c cs]; [simplify_eq; simpl; lia|].
      destruct (list_find _ _) as [[i c']|]; simplify_option_eq. pose proof (sum_delete (c :: cs) i). cbn [tsize sum_list_with] in *. lia.
  - destruct (cs !! i) as [c|] eqn:Ec; [|done]. simpl in H. destruct (tstep addr ans c) as [[[ev1 c1] os1]|] eqn:Es; [|done].
    simpl in H. injection H as <- <- <-. apply IH in Es. pose proof (sum_insert cs i c c1 Ec). simpl. lia.
Qed.

(** A process that has not exited can go on, or one of those below it. *)
Lemma tstep_progress T : T <> Zombie -> exists addr r, tstep addr true T = Some r.
Proof.
  remember (tsize T) as n eqn:En. revert T En. induction (lt_wf n) as [n _ IH]. intros [a cs|] -> HT; [|done].
  destruct a as [e k|q y m|c p f|t k|m]; try by (exists []; eexists).
  destruct cs as [|c cs]; [by exists []; eexists|].
  destruct c as [a' cs'|]; [|by exists []; eexists].
  destruct (IH (tsize (Proc a' cs')) ltac:(simpl; lia) (Proc a' cs') eq_refl ltac:(done)) as (addr & [[ev T'] os] & E).
  exists (0%nat :: addr). cbn [tstep lookup list_lookup mbind option_bind]. rewrite E. by eexists.
Qed.

Lemma run_app s1 s2 F tr1 F1 : run s1 F = Some (tr1, F1) ->
  run (s1 ++ s2) F = ('(tr, F) ← run s2 F1; Some (tr1 ++ tr, F)).
Proof.
  revert F tr1 F1. induction s1 as [|[addr ans] s1 IH]; intros F tr1 F1 H; simpl in H.
  - injection H as <- <-. simpl. by destruct (run s2 F) as [[]|].
  - cbn [app run]. destruct (fstep addr ans F) as [[ev F2]|]; [|done]. simpl in *.
    destruct (run s1 F2) as [[tr F3]|] eqn:E; [|done]. simpl in H. injection H as <- <-. rewrite (IH _ _ _ E). simpl.
    destruct (run s2 F3) as [[tr' F4]|]; [|done]. simpl. by rewrite app_assoc.
Qed.

Lemma finished_or F : finished F \/ exists i T, F !! i = Some T /\ T <> Zombie.
Proof.
  induction F as [|[a cs|] F IH]; [by left; constructor|right; by exists 0%nat, (Proc a cs)|].
  destruct IH as [IH|(i & T & Hi & HT)]; [left; by constructor|right; by exists (S i), T].
Qed.

Lemma run_completes F : exists sched tr F', run sched F = Some (tr, F') /\ finished F'.
Proof.
  remember (sum_list_with tsize F) as n eqn:En. revert F En. induction (lt_wf n) as [n _ IH]. intros F ->.
  destruct (finished_or F) as [Hf|(i & T & Hi & Hne)].
  - exists [], [], F. by split.
  - destruct (tstep_progress T Hne) as (addr & [[ev T'] os] & E).
    assert (Es : fstep (i :: addr) true F = Some (ev, <[i := T']> F ++ os)) by (simpl; rewrite Hi; simpl; by rewrite E).
    destruct (IH (sum_list_with tsize (<[i := T']> F ++ os))) with (F := <[i := T']> F ++ os) as (sched & tr & F' & Hr & Hf); [|done|].
    { rewrite sum_list_with_app. pose proof (sum_insert F i T T' Hi). apply tstep_size in E. lia. }
    exists ((i :: addr, true) :: sched), (ev ++ tr), F'. split; [|done]. cbn [run]. rewrite Es. simpl. by rewrite Hr.
Qed.

(** ** Traces *)

(** What a process and those below it do, with [None] where the process exits. *)
Abbreviation word := (list (option event)).
Abbreviation lang := (word -> Prop).

(** The events of a word. *)
Fixpoint live (w : word) : word :=
  match w with
  | [] => []
  | None :: w => live w
  | Some ev :: w => Some ev :: live w
  end.

Definition alt (A B : lang) : lang := fun w => A w \/ B w.
Definition first (ev : event) (A : lang) : lang := fun w => exists a, A a /\ w = Some ev :: a.

(** [B] after [A] has exited; what [A] left behind goes on beside [B]. *)
Definition after (A B : lang) : lang := fun w =>
  exists u v b w', A (u ++ None :: v) /\ None ∉ u /\ B b /\ interleave v b w' /\ w = u ++ w'.

(** [A] and [B] at the same time, until both have exited. *)
Definition both (A B : lang) : lang := fun w =>
  exists a b w1 w2, A a /\ B b /\ interleave a b (w1 ++ None :: w2) /\ None ∉ w1 /\ w = w1 ++ w2.

(** [x], with [A] going on beside it, waited for by nobody. *)
Definition aside (A : lang) (x : word) : lang := fun w => exists a, A a /\ interleave (live a) x w.

Lemma live_app u v : live (u ++ v) = live u ++ live v.
Proof. induction u as [|[ev|] u IH]; simpl; [done|by f_equal|done]. Qed.

Lemma live_notin w : None ∉ live w.
Proof. induction w as [|[ev|] w IH]; simpl; [apply not_elem_of_nil| |done]. by apply not_elem_of_cons. Qed.

Lemma live_id w : None ∉ w -> live w = w.
Proof. induction w as [|[ev|] w IH]; simpl; [done|..]; rewrite not_elem_of_cons; [|by intros []]. intros [_ H]. by rewrite IH. Qed.

Lemma live_events evs : live (Some <$> evs) = Some <$> evs.
Proof. induction evs; simpl; [done|by f_equal]. Qed.

(** Events beside those of a word are beside the word. *)
Lemma il_live_inv a v y : interleave (live a) v y -> None ∉ v -> exists w, interleave a v w /\ live w = y.
Proof.
  revert v y. induction a as [|[ev|] a IH]; intros v y H Hv.
  - simpl in H. apply il_nil_inv in H as ->. exists v. split; [apply il_nil_l|by apply live_id].
  - simpl in H. remember (Some ev :: live a) as l eqn:E. revert E. induction H as [|x p q r H IHr|x p q r H IHr]; intros E.
    + done.
    + injection E as -> ->. destruct (IH q r H Hv) as (w & Hw & <-). exists (Some ev :: w). eauto with trace.
    + apply not_elem_of_cons in Hv as [Hx Hv]. destruct (IHr Hv E) as (w & Hw & <-). exists (x :: w).
      split; [by apply il_right|]. by destruct x.
  - simpl in H. destruct (IH v y H Hv) as (w & Hw & <-). exists (None :: w). eauto with trace.
Qed.

(** ** What a step leaves *)

(** After [ev], with [v] going on beside it, [A'] is what is left of [A]. *)
Definition absorbs (ev : list event) (v : word) (A' A : lang) : Prop :=
  forall a w, A' a -> interleave a v w -> A ((Some <$> ev) ++ w).

Lemma absorbs_nil (A' A : lang) : (forall w, A' w -> A w) -> absorbs [] [] A' A.
Proof. intros H a w Ha Hi. apply il_comm, il_nil_inv in Hi as ->. by apply H. Qed.

Lemma events_notin evs : None ∉ (Some <$> evs : word).
Proof. rewrite <- live_events. apply live_notin. Qed.

Lemma after_absorbs ev v A' A B : None ∉ v -> absorbs ev v A' A -> absorbs ev v (after A' B) (after A B).
Proof.
  intros Hv H w' w (u & x & b & y & Ha & Hu & Hb & Hi & ->) Hw.
  apply il_app_inv in Hw as (v1 & v2 & w1 & w2 & -> & -> & H1 & H2). rewrite elem_of_app in Hv.
  destruct (il_swap _ _ _ _ _ Hi H2) as (xv & H3 & H4).
  exists ((Some <$> ev) ++ w1), xv, b, w2. split_and!; [|rewrite elem_of_app; intros [?|?]|done|done|by rewrite app_assoc].
  - rewrite <- app_assoc. apply (H _ _ Ha). apply il_app; [done|]. by apply il_left.
  - by eapply events_notin.
  - by eapply (il_notin None u v1 w1); [done|done|tauto|].
Qed.

Lemma both_absorbs_l ev v A' A B : None ∉ v -> absorbs ev v A' A -> absorbs ev v (both A' B) (both A B).
Proof.
  intros Hv H w' w (a & b & u1 & u2 & Ha & Hb & Hi & Hu & ->) Hw.
  apply il_app_inv in Hw as (v1 & v2 & w1 & w2 & -> & -> & H1 & H2). rewrite elem_of_app in Hv.
  assert (Hall : interleave (u1 ++ None :: u2) (v1 ++ v2) (w1 ++ None :: w2)) by (apply il_app; [done|by apply il_left]).
  destruct (il_swap _ _ _ _ _ Hi Hall) as (av & H3 & H4).
  exists ((Some <$> ev) ++ av), b, ((Some <$> ev) ++ w1), w2. split_and!; [by apply (H a)|done| | |by rewrite app_assoc].
  - rewrite <- app_assoc. by apply il_prefix.
  - rewrite elem_of_app. intros [?|?]; [by eapply events_notin|]. by eapply (il_notin None u1 v1 w1); [done|done|tauto|].
Qed.

Lemma both_comm A B w : both A B w -> both B A w.
Proof. intros (a & b & w1 & w2 & Ha & Hb & Hi & Hu & ->). exists b, a, w1, w2. split_and!; try done. by apply il_comm. Qed.

Lemma both_absorbs_r ev v A B' B : None ∉ v -> absorbs ev v B' B -> absorbs ev v (both A B') (both A B).
Proof. intros Hv H a w Ha Hi. apply both_comm. by apply (both_absorbs_l ev v B' B A Hv H a); [apply both_comm|]. Qed.

Lemma aside_absorbs ev v A' A x : None ∉ v -> absorbs ev v A' A -> absorbs ev v (aside A' x) (aside A x).
Proof.
  intros Hv H w' w (a & Ha & Hi) Hw. destruct (il_swap _ _ _ _ _ Hi Hw) as (av & H1 & H2).
  destruct (il_live_inv _ _ _ H1 Hv) as (a' & H3 & <-). exists ((Some <$> ev) ++ a'). split; [by apply (H a)|].
  rewrite live_app, live_events. by apply il_prefix.
Qed.

Lemma alt_absorbs_l ev v A' A B : absorbs ev v A' A -> absorbs ev v A' (alt A B).
Proof. intros H a w Ha Hi. left. by eapply H. Qed.
Lemma alt_absorbs_r ev v B' A B : absorbs ev v B' B -> absorbs ev v B' (alt A B).
Proof. intros H a w Ha Hi. right. by eapply H. Qed.

Lemma absorbs_first ev A : absorbs [ev] [] A (first ev A).
Proof. intros a w Ha Hi. apply il_comm, il_nil_inv in Hi as ->. by exists a. Qed.
Lemma aside_first ev A x : absorbs [ev] [] (aside A x) (aside A (Some ev :: x)).
Proof.
  intros w' w (a & Ha & Hi) Hw. apply il_comm, il_nil_inv in Hw as ->. exists a. split; [done|]. by apply il_right.
Qed.

(** One of two has exited. *)
Lemma both_zombie (A B : lang) w : A [None] -> after B (eq [None]) w -> both A B w.
Proof.
  intros HA (u & v & b & w' & Hb & Hu & <- & Hi & ->). exists [None], (u ++ None :: v), u, w'. split_and!; try done.
  apply il_comm, (il_app u [] u); [apply il_comm, il_nil_l|]. by apply il_left.
Qed.

Lemma after_zombie (A B : lang) w : A [None] -> B w -> after A B w.
Proof. intros HA HB. exists [], [], w, w. split_and!; [done|apply not_elem_of_nil|done|apply il_nil_l|done]. Qed.

(** ** Trees and their traces *)

(** A table with three descriptors and no other. *)
Definition three (t : fds) : Prop := exists i o e, t = Some i :: Some o :: Some e :: replicate 13 None.

(** [den T A]: the shell may have come to the tree [T], and what it does from there on
    is in [A]. Processes that wait hold three descriptors. *)
Inductive den : ptree -> lang -> Prop :=
  | den_zombie : den Zombie (eq [None])
  | den_exit n : den (Proc (Exit n) []) (eq [None])
  | den_do ev k A : den (Proc k []) A -> den (Proc (Do ev k) []) (first ev A)
  | den_try q yes no A B : den (Proc yes []) A -> den (Proc no []) B ->
      den (Proc (Try q yes no) []) (alt A (first (Failed q) B))
  | den_fork_wait c t k f A B C : three t ->
      den (Proc c []) A -> den (Proc k []) B -> den (Proc f []) C ->
      den (Proc (Fork c (Wait t k) f) []) (alt (after A B) (first (Failed Q_fork) C))
  | den_wait t k T A B : three t -> den T A -> den (Proc k []) B -> den (Proc (Wait t k) [T]) (after A B)
  | den_fork_exit c n f A C : den (Proc c []) A -> den (Proc f []) C ->
      den (Proc (Fork c (Exit n) f) []) (alt (aside A [None]) (first (Failed Q_fork) C))
  | den_says evs n T A : den T A -> den (Proc (dos evs (Exit n)) [T]) (aside A ((Some <$> evs) ++ [None]))
  | den_fork_two l r t n evs m f A B C : three t ->
      den (Proc l []) A -> den (Proc r []) B -> den (Proc f []) C ->
      den (Proc (Fork l (Fork r (Wait t (Wait t (Exit n))) (dos evs (Exit m))) f) [])
        (alt (alt (both A B) (aside A ((Some <$> Failed Q_fork :: evs) ++ [None]))) (first (Failed Q_fork) C))
  | den_one l r t n evs m A B : three t -> den l A -> den (Proc r []) B ->
      den (Proc (Fork r (Wait t (Wait t (Exit n))) (dos evs (Exit m))) [l])
        (alt (both A B) (aside A ((Some <$> Failed Q_fork :: evs) ++ [None])))
  | den_two l r t n A B : three t -> den l A -> den r B -> den (Proc (Wait t (Wait t (Exit n))) [l; r]) (both A B)
  | den_more T (A B : lang) : den T A -> (forall w, A w -> B w) -> den T B.
#[export] Hint Constructors den : trace.

Lemma den_zombie_inv A : den Zombie A -> A [None].
Proof. intros H. remember Zombie as T eqn:E. induction H; try done. eauto. Qed.

Lemma den_dos evs n : den (Proc (dos evs (Exit n)) []) (eq ((Some <$> evs) ++ [None])).
Proof.
  induction evs as [|ev evs IH]; simpl; [constructor|]. eapply den_more; [by apply den_do|]. intros w (a & <- & ->). done.
Qed.

(** What is left after a step of a tree, for anything the children it leaves may do. *)
Definition leaves (ev : list event) (T' : ptree) (os : list ptree) (A : lang) : Prop :=
  exists A' Os, den T' A' /\ Forall2 den os Os /\
    forall ows v, Forall2 (fun (O : lang) w => O w) Os ows -> merges (live <$> ows) v -> absorbs ev v A' A.

Lemma leaves_none ev T' A A' : den T' A' -> absorbs ev [] A' A -> leaves ev T' [] A.
Proof.
  intros HT H. exists A', []. split_and!; [done|constructor|]. intros ows v Ho Hm. inversion Ho; subst. by inversion Hm; subst.
Qed.

Lemma leaves_nil T' (A A' : lang) : den T' A' -> (forall w, A' w -> A w) -> leaves [] T' [] A.
Proof. intros HT H. eapply leaves_none; [done|]. by apply absorbs_nil. Qed.

Lemma merges_live ows v : merges (live <$> ows) v -> None ∉ v.
Proof.
  revert v. induction ows as [|a ows IH]; intros v H; inversion H; subst; [apply not_elem_of_nil|].
  eapply il_notin; [done|apply live_notin|by apply IH].
Qed.

(** A step of a child. *)
Lemma leaves_child ev c os A (D : ptree -> ptree) (G : lang -> lang) :
  leaves ev c os A -> (forall A', den c A' -> den (D c) (G A')) ->
  (forall v A', None ∉ v -> absorbs ev v A' A -> absorbs ev v (G A') (G A)) -> leaves ev (D c) os (G A).
Proof.
  intros (A' & Os & Hc & Ho & H) HD HG. exists (G A'), Os. split_and!; [by apply HD|done|].
  intros ows v How Hm. apply HG; [by eapply merges_live|by apply (H ows)].
Qed.

Lemma leaves_more ev T' os (A B : lang) : leaves ev T' os A -> (forall w, A w -> B w) -> leaves ev T' os B.
Proof.
  intros (A' & Os & Hc & Ho & H) HAB. exists A', Os. split_and!; [done..|]. intros ows v How Hm a w Ha Hi.
  apply HAB. by eapply H.
Qed.

Lemma alt_absorbs ev v A' A B' B : absorbs ev v A' A -> absorbs ev v B' B -> absorbs ev v (alt A' B') (alt A B).
Proof. intros HA HB a w [Ha|Ha] Hi; [left; by eapply HA|right; by eapply HB]. Qed.

(** A step of the only child. *)
Lemma tstep_child i addr ans a T ev T' os : tstep (i :: addr) ans (Proc a [T]) = Some (ev, T', os) ->
  exists c, tstep addr ans T = Some (ev, c, os) /\ T' = Proc a [c].
Proof.
  destruct i as [|i]; cbn [tstep lookup list_lookup]; [|by destruct i]. cbn [mbind option_bind].
  destruct (tstep addr ans T) as [[[ev1 c] os1]|]; [|done]. cbn. intros [= <- <- <-]. by exists c.
Qed.

Lemma tstep_children i addr ans a T U ev T' os : tstep (i :: addr) ans (Proc a [T; U]) = Some (ev, T', os) ->
  exists c, (tstep addr ans T = Some (ev, c, os) /\ T' = Proc a [c; U]) \/ (tstep addr ans U = Some (ev, c, os) /\ T' = Proc a [T; c]).
Proof.
  destruct i as [|[|i]]; cbn [tstep lookup list_lookup]; [..|by destruct i]; cbn [mbind option_bind].
  - destruct (tstep addr ans T) as [[[ev1 c] os1]|]; [|done]. cbn. intros [= <- <- <-]. exists c. by left.
  - destruct (tstep addr ans U) as [[[ev1 c] os1]|]; [|done]. cbn. intros [= <- <- <-]. exists c. by right.
Qed.

Lemma says_leaves evs n T A ans ev T' os :
  den T A -> tstep [] ans (Proc (dos evs (Exit n)) [T]) = Some (ev, T', os) ->
  leaves ev T' os (aside A ((Some <$> evs) ++ [None])).
Proof.
  intros HA Hs. destruct evs as [|e evs]; cbn in Hs; injection Hs as <- <- <-.
  - exists (eq [None]), [A]. split_and!; [constructor|by constructor|]. intros ows v Ho Hm.
    inversion Ho as [|? a ? ows' Ha Ho']; subst. inversion Ho'; subst. cbn in Hm.
    inversion Hm as [|? ? v' ? Hv' Hi]; subst. inversion Hv'; subst. apply il_comm, il_nil_inv in Hi as ->.
    intros ? w <- Hw. exists a. split; [done|]. by apply il_comm.
  - eapply leaves_none; [by apply den_says|]. apply (aside_first e).
Qed.

Lemma two_leaves t n l r A B ans ev T' os : three t -> den l A -> den r B ->
  tstep [] ans (Proc (Wait t (Wait t (Exit n))) [l; r]) = Some (ev, T', os) -> leaves ev T' os (both A B).
Proof.
  intros Ht HA HB Hs. destruct l as [al cl|]; [destruct r as [ar cr|]|]; cbn in Hs; try discriminate Hs; injection Hs as <- <- <-.
  - eapply leaves_nil; [by apply den_wait, den_exit|]. intros w Hw. apply both_comm, both_zombie; [by apply den_zombie_inv|done].
  - eapply leaves_nil; [by apply den_wait, den_exit|]. intros w Hw. apply both_zombie; [by apply den_zombie_inv|done].
Qed.

Lemma den_step T A : den T A -> forall addr ans ev T' os, tstep addr ans T = Some (ev, T', os) -> leaves ev T' os A.
Proof.
  induction 1 as [|n|e k A HA IHA|q y m A B HA IHA HB IHB|c t k f A B C Ht HA IHA HB IHB HC IHC|t k T A B Ht HA IHA HB IHB
    |c n f A C HA IHA HC IHC|evs n T A HA IHA|l r t n evs m f A B C Ht HA IHA HB IHB HC IHC|l r t n evs m A B Ht HA IHA HB IHB
    |l r t n A B Ht HA IHA HB IHB|T A B HA IHA HAB]; intros [|i addr] ans ev T' os Hs;
    try (by destruct i); try discriminate Hs.
  - injection Hs as <- <- <-. eapply leaves_nil; [constructor|done].
  - injection Hs as <- <- <-. by eapply leaves_none, absorbs_first.
  - destruct ans; injection Hs as <- <- <-; [eapply leaves_nil; [exact HA|by left]|].
    by eapply leaves_none, alt_absorbs_r, absorbs_first.
  - destruct ans; injection Hs as <- <- <-; [|by eapply leaves_none, alt_absorbs_r, absorbs_first].
    eapply leaves_nil; [by apply den_wait|by left].
  - destruct T; cbn in Hs; [discriminate Hs|]. injection Hs as <- <- <-.
    eapply leaves_nil; [exact HB|]. intros w Hw. apply after_zombie; [by apply den_zombie_inv|done].
  - apply tstep_child in Hs as (c & Hs & ->). apply (leaves_child _ _ _ _ (fun c => Proc (Wait t k) [c]) (fun A => after A B)).
    + by eapply IHA.
    + intros A' HA'. by apply den_wait.
    + intros v A'. apply after_absorbs.
  - destruct ans; injection Hs as <- <- <-; [|by eapply leaves_none, alt_absorbs_r, absorbs_first].
    eapply leaves_nil; [by apply (den_says [])|by left].
  - by eapply says_leaves.
  - apply tstep_child in Hs as (c & Hs & ->).
    apply (leaves_child _ _ _ _ (fun c => Proc (dos evs (Exit n)) [c]) (fun A => aside A ((Some <$> evs) ++ [None]))).
    + by eapply IHA.
    + intros A' HA'. by apply den_says.
    + intros v A'. apply aside_absorbs.
  - destruct ans; injection Hs as <- <- <-; [|by eapply leaves_none, alt_absorbs_r, absorbs_first].
    eapply leaves_nil; [by apply den_one|by left].
  - destruct ans; injection Hs as <- <- <-.
    + eapply leaves_nil; [by apply den_two|by left].
    + eapply leaves_none; [by apply den_says|]. apply alt_absorbs_r, (aside_first (Failed Q_fork)).
  - apply tstep_child in Hs as (c & Hs & ->).
    apply (leaves_child _ _ _ _ (fun c => Proc _ [c]) (fun A => alt (both A B) (aside A ((Some <$> Failed Q_fork :: evs) ++ [None])))).
    + by eapply IHA.
    + intros A' HA'. by apply den_one.
    + intros v A' Hv Hab. apply alt_absorbs; [by apply both_absorbs_l|by apply aside_absorbs].
  - by eapply two_leaves.
  - apply tstep_children in Hs as (c & [[Hs ->]|[Hs ->]]).
    + apply (leaves_child _ _ _ _ (fun c => Proc _ [c; r]) (fun A => both A B)).
      * by eapply IHA.
      * intros A' HA'. by apply den_two.
      * intros v A' Hv. by apply both_absorbs_l.
    + apply (leaves_child _ _ _ _ (fun c => Proc _ [l; c]) (fun B => both A B)).
      * by eapply IHB.
      * intros B' HB'. by apply den_two.
      * intros v B' Hv. by apply both_absorbs_r.
  - eapply leaves_more; [by eapply IHA|done].
  - eapply leaves_more; [by eapply IHA|done].
Qed.

(** ** Runs *)

(** What trees with these languages can do together. *)
Definition traces (As : list lang) (w : word) : Prop :=
  exists ws, Forall2 (fun (A : lang) a => A a) As ws /\ merges (live <$> ws) w.

Lemma fstep_sound F As addr ans ev F' : Forall2 den F As -> fstep addr ans F = Some (ev, F') ->
  exists As', Forall2 den F' As' /\ forall w, traces As' w -> traces As ((Some <$> ev) ++ w).
Proof.
  intros HF Hs. destruct addr as [|i addr]; [done|]. cbn [fstep] in Hs.
  destruct (F !! i) as [T|] eqn:ET; [|done]. cbn in Hs. destruct (tstep addr ans T) as [[[ev1 T'] os]|] eqn:Et; [|done].
  cbn in Hs. injection Hs as <- <-.
  destruct (Forall2_lookup_l _ _ _ _ _ HF ET) as (A & EA & HT).
  destruct (den_step _ _ HT _ _ _ _ _ Et) as (A' & Os & HT' & Hos & Hab).
  exists (<[i := A']> As ++ Os). split; [apply Forall2_app; [by apply Forall2_insert|done]|].
  intros w (ws & Hws & Hm). apply Forall2_app_inv_l in Hws as (ws1 & ows & Hws1 & Hows & ->).
  rewrite fmap_app in Hm. apply merges_app in Hm as (w1 & v & Hm1 & Hm2 & Hi).
  assert (Hlen : (i < length As)%nat) by (by eapply lookup_lt_Some).
  destruct (Forall2_lookup_l _ _ _ i A' Hws1) as (a' & Ea' & Ha'); [by apply list_lookup_insert_eq|].
  destruct (merges_lookup _ i (live a') w1 Hm1) as (y & H1 & H2); [by rewrite list_lookup_fmap, Ea'|].
  destruct (il_swap _ _ _ _ _ H1 Hi) as (z & H3 & H4).
  destruct (il_live_inv _ _ _ H3 (merges_live _ _ Hm2)) as (a & H5 & <-).
  pose proof (Hab ows v Hows Hm2 a' a Ha' H5) as Ha.
  exists (<[i := (Some <$> ev1) ++ a]> ws1). split.
  - rewrite <- (list_insert_id As i A EA), <- (list_insert_insert_eq As i A A'). by apply Forall2_insert.
  - rewrite list_fmap_insert. apply H2. rewrite live_app, live_events. by apply il_prefix.
Qed.

Lemma run_sound sched F As tr F' : Forall2 den F As -> run sched F = Some (tr, F') ->
  exists As', Forall2 den F' As' /\ forall w, traces As' w -> traces As ((Some <$> tr) ++ w).
Proof.
  revert F As tr. induction sched as [|[addr ans] sched IH]; intros F As tr HF Hr; cbn [run] in Hr.
  - injection Hr as <- <-. by exists As.
  - destruct (fstep addr ans F) as [[ev F1]|] eqn:Es; [|done]. cbn in Hr. destruct (run sched F1) as [[tr1 F2]|] eqn:Er; [|done].
    cbn in Hr. injection Hr as <- <-. destruct (fstep_sound _ _ _ _ _ _ HF Es) as (As1 & HF1 & H1).
    destruct (IH _ _ _ HF1 Er) as (As2 & HF2 & H2). exists As2. split; [done|]. intros w Hw.
    rewrite fmap_app, <- app_assoc. apply H1, H2, Hw.
Qed.

Lemma finished_traces F As : Forall2 den F As -> finished F -> traces As [].
Proof.
  intros HF Hf. induction HF as [|T A F As HT HF IH]; [exists []; repeat constructor|].
  apply Forall_cons in Hf as [<- Hf]. destruct (IH Hf) as (ws & Hws & Hm). exists ([None] :: ws).
  split; [constructor; [by apply den_zombie_inv|done]|]. cbn. econstructor; [exact Hm|constructor].
Qed.

(** The trace of a run in which every process has exited. *)
Lemma run_traces T A sched tr F : den T A -> run sched [T] = Some (tr, F) -> finished F ->
  exists a, A a /\ live a = Some <$> tr.
Proof.
  intros HT Hr Hf. destruct (run_sound sched [T] [A] tr F) as (As & HF & H); [by constructor|done|].
  destruct (H [] (finished_traces _ _ HF Hf)) as (ws & Hws & Hm). rewrite app_nil_r in Hm.
  inversion Hws as [|? a ? ws' Ha Hws']; subst. inversion Hws'; subst. exists a. split; [done|].
  cbn in Hm. inversion Hm as [|? ? v ? Hv Hi]; subst. inversion Hv; subst. by apply il_comm, il_nil_inv in Hi.
Qed.

(** Processes that wait hold three descriptors, and so no end of a pipe that others use. *)
Fixpoint tidy (T : ptree) : Prop :=
  match T with
  | Zombie => True
  | Proc a cs =>
    match a with Wait t _ => three t | _ => True end /\
    (fix all (l : list ptree) : Prop := match l with [] => True | T :: l => tidy T /\ all l end) cs
  end.

Lemma den_tidy T A : den T A -> tidy T.
Proof. induction 1; simpl in *; try tauto. by destruct evs. Qed.

Lemma run_tidy T A sched tr F : den T A -> run sched [T] = Some (tr, F) -> Forall tidy F.
Proof.
  intros HT Hr. destruct (run_sound sched [T] [A] tr F) as (As & HF & _); [by constructor|done|].
  clear -HF. induction HF; constructor; [by eapply den_tidy|done].
Qed.
