(* ===== verification/ShRun.v ===== *)
(** Running commands: what the processes of a command line do, each program with the
    descriptors that the line asks for and no others, in the order in which the shell
    waits for them; and a session of the shell. *)

From S2P Require Import Prelude Machine Console ProcFs Syscall Ulib Grep Sh ShParse ShTrace.

(** ** Commands *)

(** A process with three descriptors. *)
Definition std (i o e : fdobj) : fds := Some i :: Some o :: Some e :: replicate 13 None.

Lemma three_std i o e : three (std i o e).
Proof. by exists i, o, e. Qed.

(** A call fails, and the process writes a message and exits. *)
Definition complains (q : query) (msg : list Z) : lang := first (Failed q) (eq ((Some <$> message msg) ++ [None])).
Definition fork_failed : lang := complains Q_fork (bytes_of "fork" ++ [10]).

(** What the command [c] at [place] does with the descriptors [i], [o] and [e]. A program
    starts and finishes, or its file cannot be executed. The second command of a list
    comes after the first has exited; the two of a pipeline run at the same time, at the
    ends of a pipe, and the pipeline ends with both; a command in the background is not
    waited for. Where a call fails the process says so and exits. *)
Fixpoint words (c : scmd) (i o e : fdobj) (place : list nat) : lang :=
  match c with
  | SExec [] => eq [None]
  | SExec ((path :: _) as args) =>
    alt (eq [Some (Ran args (std i o e)); Some (Finished args); None])
      (complains (Q_exec path) (bytes_of "exec " ++ path ++ bytes_of " failed" ++ [10]))
  | SRedir c d f =>
    let o' := FD_file f (direction_mode d) in
    alt (match d with Input => words c o' o e place | _ => words c i o' e place end)
      (complains (Q_open f (direction_mode d)) (bytes_of "open " ++ f ++ bytes_of " failed" ++ [10]))
  | SList l r => alt (after (words l i o e (place ++ [0%nat])) (words r i o e (place ++ [1%nat]))) fork_failed
  | SPipe l r =>
    let a := words l i (FD_pipe_w place) e (place ++ [0%nat]) in
    let b := words r (FD_pipe_r place) o e (place ++ [1%nat]) in
    alt (alt (alt (both a b) (aside a ((Some <$> Failed Q_fork :: message (bytes_of "fork" ++ [10])) ++ [None]))) fork_failed)
      (complains Q_pipe (bytes_of "pipe" ++ [10]))
  | SBack c => alt (aside (words c i o e (place ++ [0%nat])) [None]) fork_failed
  end.

Lemma den_complain msg n : den (Proc (complain msg n) []) (eq ((Some <$> message msg) ++ [None])).
Proof. apply den_dos. Qed.

Lemma fd_pipe_std place i o e k f : fd_pipe place (std i o e) k f =
  Try Q_pipe (k 3%nat 4%nat (Some i :: Some o :: Some e :: Some (FD_pipe_r place) :: Some (FD_pipe_w place) :: replicate 11 None)) f.
Proof. done. Qed.

Lemma den_runcmd b t c : reads b t c -> forall i o e place,
  den (Proc (runcmd b t (std i o e) place) []) (words c i o e place).
Proof.
  revert c. induction t as [argv|t IH q eq m fd|t IHt u IHu|t IHt u IHu|t IH]; intros c; destruct c as [args|c d f|l r|l r|c]; cbn [reads]; try done.
  - intros <- i o e place. destruct argv as [|[q eq] argv]; cbn [runcmd words fmap list_fmap]; [constructor|].
    apply den_try; [|apply den_complain]. eapply den_more; [apply den_do, den_do, den_exit|].
    intros w (a & (a' & <- & ->) & ->). done.
  - intros (Hc & Hf & -> & ->) i o e place. cbn [runcmd words]. rewrite Hf.
    destruct d; cbn [direction_fd Z.to_nat Pos.to_nat Pos.iter_op fd_close insert list_insert fd_open fd_alloc std mbind option_bind];
      (apply den_try; [by apply IH|apply den_complain]).
  - intros [Hl Hr] i o e place. cbn [runcmd words]. rewrite fd_pipe_std. apply den_try; [|apply den_complain].
    apply den_fork_two; [apply three_std|by apply IHt|by apply IHu|apply den_complain].
  - intros [Hl Hr] i o e place. cbn [runcmd words].
    apply den_fork_wait; [apply three_std|by apply IHt|by apply IHu|apply den_complain].
  - intros Hc i o e place. cbn [runcmd words]. apply den_fork_exit; [by apply IH|apply den_complain].
Qed.

(** Whatever the order in which the kernel runs the processes of a command and
    whatever calls fail, a run can always be completed, and its trace is one that the
    command says: each program has standard input and output as the line asks for
    (redirections to files, the ends of the pipe between two commands of a pipeline,
    otherwise what the shell has) and no other descriptor. Processes that wait
    hold no end of a pipe besides their own standard input and output. *)
Theorem runcmd_correct b t c i o e place sched tr F :
  reads b t c -> run sched [Proc (runcmd b t (std i o e) place) []] = Some (tr, F) ->
  Forall tidy F /\ (exists sched' tr' F', run sched' F = Some (tr', F') /\ finished F') /\
  (finished F -> exists w, words c i o e place w /\ live w = Some <$> tr).
Proof.
  intros Hc Hr. pose proof (den_runcmd b t c Hc i o e place) as Hd.
  split; [by eapply run_tidy|]. split; [apply run_completes|]. intros Hf. by eapply run_traces.
Qed.

(** ** A session *)

Inductive sline := Command (c : scmd) | ChangeDir (path : list Z).

(** [l] is a line of input for the shell, short enough for its buffer. *)
Definition input_line (x : sline) (l : list Z) : Prop :=
  (length l < sh_bufsz)%nat /\
  (exists body, l = body ++ [10] /\ Forall (fun c => c <> 10 /\ c <> 13 /\ c <> 0) body) /\
  match x with
  | Command c => scmd_ok c /\ (exists ws text, l = ws ++ text /\ blank ws /\ spells (toks 0 c) text) /\ take 3 l <> bytes_of "cd "
  | ChangeDir path => l = bytes_of "cd " ++ path ++ [10]
  end.

(** What the shell does with the lines, [n] commands having been run. *)
Fixpoint session (l : list sline) (i o e : fdobj) (n : nat) : lang :=
  match l with
  | [] => eq [Some prompt; None]
  | Command c :: l => first prompt (alt (after (words c i o e [n]) (session l i o e (S n))) fork_failed)
  | ChangeDir path :: l =>
    first prompt (alt (first (ChangedDir path) (session l i o e n))
      (first (Failed (Q_chdir path))
        (fun w => exists a, session l i o e n a /\ w = (Some <$> message (bytes_of "cannot cd " ++ path ++ [10])) ++ a)))
  end.

(** The same after main has opened the console once more, or could not. *)
Definition whole_session (l : list sline) (i o e : fdobj) : lang :=
  alt (session l i o e 0) (first (Failed (Q_open (bytes_of "console") O_RDWR)) (session l i o e 0)).

Lemma gets_line k body rest :
  Forall (fun c => c <> 10 /\ c <> 13 /\ c <> 0) body -> (length body < k)%nat ->
  gets_loop k (body ++ 10 :: rest) = (body ++ [10], rest).
Proof.
  intros Hb. revert k. induction Hb as [|c body (H1 & H2 & _) Hb IH]; intros k Hk; (destruct k as [|k]; [simpl in Hk; lia|]); [done|].
  cbn [app gets_loop]. rewrite (proj2 (Z.eqb_neq _ _) H1), (proj2 (Z.eqb_neq _ _) H2). cbn [orb].
  rewrite IH by (simpl in Hk; lia). done.
Qed.

(** The line is in the buffer, with its newline and a nul. *)
Lemma getcmd_line body rest :
  Forall (fun c => c <> 10 /\ c <> 13 /\ c <> 0) body -> (S (length body) < sh_bufsz)%nat ->
  exists junk, getcmd (body ++ 10 :: rest) = (Some (body ++ 10 :: 0 :: junk), rest).
Proof.
  intros Hb Hl. unfold getcmd, gets. rewrite gets_line by (done || lia). cbn [fst snd].
  exists (drop (S (length (body ++ [10]))) (replicate sh_bufsz 0)).
  generalize (drop (S (length (body ++ [10]))) (replicate sh_bufsz 0)). intros junk. rewrite <- app_assoc. cbn [app].
  destruct Hb as [|c body (_ & _ & H0) Hb]; [done|]. cbn [app lookup list_lookup default]. unfold default, id.
  by rewrite (proj2 (Z.eqb_neq _ _) H0).
Qed.

(** The test for "cd " at the start of the line. *)
Lemma cd_test body junk :
  (default 0 ((body ++ 10 :: 0 :: junk) !! 0%nat) =? 99) && (default 0 ((body ++ 10 :: 0 :: junk) !! 1%nat) =? 100) &&
  (default 0 ((body ++ 10 :: 0 :: junk) !! 2%nat) =? 32) = bool_decide (take 3 (body ++ [10]) = bytes_of "cd ").
Proof.
  change (bytes_of "cd ") with [99; 100; 32].
  destruct body as [|a [|b [|c body]]]; cbn [app lookup list_lookup default take]; unfold default, id; case_bool_decide as E; try done;
    simplify_eq; try done; apply not_true_iff_false; rewrite !andb_true_iff, !Z.eqb_eq; intros [[? ?] ?]; subst; done.
Qed.

Lemma cd_path path junk : Forall (fun c => c <> 10 /\ c <> 13 /\ c <> 0) path ->
  let buf := (bytes_of "cd " ++ path) ++ 10 :: 0 :: junk in
  cstring (drop 3 (<[(length (cstring buf) - 1)%nat := 0]> buf)) = path.
Proof.
  intros Hp buf. assert (Hz : Forall (fun c => c <> 0) path) by (eapply Forall_impl; [exact Hp|]; simpl; tauto).
  assert (E : cstring buf = (bytes_of "cd " ++ path) ++ [10]).
  { unfold buf. replace ((bytes_of "cd " ++ path) ++ 10 :: 0 :: junk) with (((bytes_of "cd " ++ path) ++ [10]) ++ 0 :: junk)
      by (by rewrite <- !app_assoc). apply cstring_nonzero. rewrite !Forall_app. split_and!; [|done|by repeat constructor].
    by repeat constructor. }
  rewrite E, length_app. cbn [length]. rewrite Nat.add_sub. unfold buf. rewrite <- (Nat.add_0_r (length _)), insert_app_r.
  cbn [insert list_insert]. rewrite <- app_assoc. change (drop 3 (bytes_of "cd " ++ ?x)) with x. by apply cstring_nonzero.
Qed.

Lemma den_says_then evs k A : den (Proc k []) A -> den (Proc (dos evs k) []) (fun w => exists a, A a /\ w = (Some <$> evs) ++ a).
Proof.
  intros Hk. induction evs as [|ev evs IH]; cbn [dos]; [eapply den_more; [exact Hk|]; intros w Hw; by exists w|].
  eapply den_more; [by apply den_do|]. intros w (a & (a' & Ha & ->) & ->). by exists a'.
Qed.

Lemma sh_loop_session items lines : Forall2 input_line items lines -> forall fuel n,
  (length items < fuel)%nat ->
  exists a, sh_loop fuel (concat lines) n = Some a /\ forall i o e, den (Proc (a (std i o e)) []) (session items i o e n).
Proof.
  induction 1 as [|x l items lines (Hlen & (body & -> & Hb) & Hx) H IH]; intros fuel n Hf;
    (destruct fuel as [|fuel]; [simpl in Hf; lia|]); cbn [sh_loop].
  { eexists. split; [reflexivity|]. intros i o e. eapply den_more; [apply den_do, den_exit|]. by intros w (a & <- & ->). }
  cbn [concat]. rewrite <- app_assoc. cbn [app]. rewrite length_app in Hlen. cbn [length] in Hlen, Hf.
  destruct (getcmd_line body (concat lines) Hb ltac:(lia)) as [junk ->]. rewrite cd_test.
  destruct x as [c|path].
  - destruct Hx as (Hc & (ws & text & El & Hws & Hsp) & Hcd). rewrite bool_decide_eq_false_2 by done.
    destruct (IH fuel (S n) ltac:(lia)) as (a & -> & Ha). cbn [mbind option_bind]. eexists. split; [reflexivity|]. intros i o e.
    unfold run_line. destruct (parsecmd_spells c ws text junk Hc Hws Hsp) as (t & line & s & Ep & Hr & _).
    replace (body ++ 10 :: 0 :: junk) with (ws ++ text ++ 0 :: junk) by (by rewrite app_assoc, <- El, <- app_assoc). rewrite Ep.
    cbn [session]. apply den_do, den_fork_wait; [apply three_std|by apply den_runcmd|apply Ha|apply den_complain].
  - change (bytes_of "cd " ++ path ++ [10]) with ((bytes_of "cd " ++ path) ++ [10]) in Hx. apply app_inv_tail in Hx. subst body.
    rewrite bool_decide_eq_true_2 by done. apply Forall_app in Hb as [_ Hp]. rewrite cd_path by done.
    destruct (IH fuel n ltac:(lia)) as (a & -> & Ha). cbn [mbind option_bind]. eexists. split; [reflexivity|]. intros i o e.
    cbn [session]. apply den_do, den_try; [apply den_do, Ha|]. apply den_says_then, Ha.
Qed.

(** C25: the shell. Given lines that spell commands, with any white space, or change the
    directory, however the kernel orders the processes that the shell forks and
    whatever calls fail, every run of the shell can be completed, and the trace of a complete
    run is one the lines ask for: the shell prompts, runs the command and prompts again
    when the command has exited, where it waits for the commands of lists and pipelines
    and not for those in the background; each program has exactly the descriptors its
    line asks for; at the end of the input the shell exits. All the while
    processes that wait hold three descriptors only. The trace also has the calls that
    fail, and a process says that a call failed only when it did. *)
Theorem shell_correct items lines i o e :
  Forall2 input_line items lines ->
  exists a, sh_main (concat lines) (std i o e) = Some a /\
  forall sched tr F, run sched [Proc a []] = Some (tr, F) ->
    Forall tidy F /\ (exists sched' tr' F', run sched' F = Some (tr', F') /\ finished F') /\
    (finished F -> exists w, whole_session items i o e w /\ live w = Some <$> tr).
Proof.
  intros H. unfold sh_main.
  destruct (sh_loop_session items lines H (S (length (concat lines))) 0) as (a & -> & Ha).
  { enough (length items <= length (concat lines))%nat by lia. clear -H.
    induction H as [|x l items lines (_ & (body & -> & _) & _) H IH]; [done|]. cbn [concat length]. rewrite !length_app. cbn [length]. lia. }
  eexists. split; [reflexivity|]. intros sched tr F Hr.
  assert (Hd : den (Proc (open_console (length (std i o e)) (std i o e) a) []) (whole_session items i o e)) by (apply den_try; apply Ha).
  split; [by eapply run_tidy|]. split; [apply run_completes|]. intros Hf. by eapply run_traces.
Qed.

(** ** Witnesses *)

Abbreviation terminal := (std (FD_inherited 0) (FD_inherited 1) (FD_inherited 2)).

(** "a|b" with its nuls: b starts first, and a ends last. *)
Definition pipe_sched : list (list nat * bool) :=
  [([0], true); ([0], true); ([0], true); ([0; 1], true); ([0; 1], true); ([0; 0], true); ([0; 0], true); ([0; 1], true);
   ([0; 1], true); ([0], true); ([0; 0], true); ([0; 0], true); ([0], true); ([0], true)]%nat.
Definition pipe_trace : list event :=
  [Ran [[98]] (std (FD_pipe_r []) (FD_inherited 1) (FD_inherited 2));
   Ran [[97]] (std (FD_inherited 0) (FD_pipe_w []) (FD_inherited 2)); Finished [[98]]; Finished [[97]]].

Lemma runcmd_correct_witness :
  run pipe_sched [Proc (runcmd [97; 0; 98; 0] (PIPE (EXEC [(0, 1)]) (EXEC [(2, 3)]))%nat terminal []) []] = Some (pipe_trace, [Zombie]) /\
  exists w, words (SPipe (SExec [[97]]) (SExec [[98]])) (FD_inherited 0) (FD_inherited 1) (FD_inherited 2) [] w /\ live w = Some <$> pipe_trace.
Proof.
  assert (Hr : run pipe_sched [Proc (runcmd [97; 0; 98; 0] (PIPE (EXEC [(0, 1)]) (EXEC [(2, 3)]))%nat terminal []) []] =
    Some (pipe_trace, [Zombie])) by (vm_compute; reflexivity).
  split; [exact Hr|].
  apply (runcmd_correct [97; 0; 98; 0] (PIPE (EXEC [(0, 1)]) (EXEC [(2, 3)]))%nat (SPipe (SExec [[97]]) (SExec [[98]])) _ _ _ _ _ _ _
    (conj eq_refl eq_refl) Hr). by constructor.
Defined.

(** The lines "a &" and "b": a starts when b runs already, and ends after the shell. *)
Definition back_lines : list (list Z) := [bytes_of "a &" ++ [10]; bytes_of "b" ++ [10]].
Definition back_items : list sline := [Command (SBack (SExec [bytes_of "a"])); Command (SExec [bytes_of "b"])].
Definition back_sched : list (list nat * bool) :=
  [([0], true); ([0], true); ([0], true); ([0; 0], true); ([0; 0], true); ([0], true); ([0], true); ([0], true);
   ([0; 0], true); ([0; 0], true); ([1], true); ([1], true); ([0; 0], true); ([0; 0], true); ([0], true); ([0], true); ([0], true);
   ([1], true); ([1], true)]%nat.
Definition back_trace : list event :=
  [prompt; prompt; Ran [bytes_of "b"] terminal; Ran [bytes_of "a"] terminal; Finished [bytes_of "b"]; prompt; Finished [bytes_of "a"]].

Lemma back_input : Forall2 input_line back_items back_lines.
Proof.
  constructor; [|constructor; [|constructor]].
  - split; [vm_compute; lia|]. split; [exists (bytes_of "a &"); split; [reflexivity|]; repeat constructor; discriminate|].
    split; [repeat constructor; discriminate || (vm_compute; lia)|]. split; [|discriminate].
    exists [], (bytes_of "a &" ++ [10]). split; [reflexivity|]. split; [constructor|]. spell.
  - split; [vm_compute; lia|]. split; [exists (bytes_of "b"); split; [reflexivity|]; repeat constructor; discriminate|].
    split; [repeat constructor; discriminate || (vm_compute; lia)|]. split; [|discriminate].
    exists [], (bytes_of "b" ++ [10]). split; [reflexivity|]. split; [constructor|]. spell.
Qed.

Lemma shell_correct_witness : exists a,
  sh_main (concat back_lines) terminal = Some a /\ run back_sched [Proc a []] = Some (back_trace, [Zombie; Zombie]) /\
  exists w, whole_session back_items (FD_inherited 0) (FD_inherited 1) (FD_inherited 2) w /\ live w = Some <$> back_trace.
Proof.
  destruct (shell_correct back_items back_lines (FD_inherited 0) (FD_inherited 1) (FD_inherited 2) back_input) as (a & Ha & H).
  assert (Hr : (a ← sh_main (concat back_lines) terminal; run back_sched [Proc a []]) = Some (back_trace, [Zombie; Zombie]))
    by (vm_compute; reflexivity).
  rewrite Ha in Hr. cbn [mbind option_bind] in Hr. exists a. split; [exact Ha|]. split; [exact Hr|].
  apply (H _ _ _ Hr). by repeat constructor.
Defined.
