(* ===== verification/Umalloc.v ===== *)
(** user/umalloc.c: the storage allocator of the user programs. Headers are kept
    by their address; a header that was never written, or lies outside the
    memory of the process, cannot be used. [base] is the address of the global
    of that name and [heap0] the end of the program, where the heap starts.
    Whether the kernel can give more memory is a parameter. *)

From S2P Require Import Prelude Machine.

(** [union header] *)
Record header := mk_header { h_ptr : Z; h_size : Z }.

(** The headers, [freep], and the size of the process. *)
Record ust := mk_ust { u_hdr : gmap Z header; u_freep : Z; u_brk : Z }.

Definition set_hdr (f : gmap Z header -> gmap Z header) (s : ust) : ust := mk_ust (f (u_hdr s)) (u_freep s) (u_brk s).

Inductive ures (A : Type) :=
  | UOk (a : A) (s : ust)
  | UFault
  | UNoFuel.
Arguments UOk {A} a s.
Arguments UFault {A}.
Arguments UNoFuel {A}.

Definition U (A : Type) : Type := ust -> ures A.

Global Instance u_ret : MRet U := fun A a s => UOk a s.
Global Instance u_bind : MBind U := fun A B f m s =>
  match m s with
  | UOk a s => f a s
  | UFault => UFault
  | UNoFuel => UNoFuel
  end.

(** [sizeof(Header)] *)
Definition sizeof_header : Z := 16.

Section umalloc.
Context (base heap0 : Z) (can_grow : Z -> Z -> bool).

Definition u_mapped (s : ust) (a : Z) : bool := (a =? base) || ((heap0 <=? a) && (a + sizeof_header <=? u_brk s)).

Definition get_hdr (a : Z) : U header := fun s =>
  if u_mapped s a then match u_hdr s !! a with Some h => UOk h s | None => UFault end else UFault.

(** Assignments to a field; the other field keeps what the memory held. *)
Definition set_ptr (a p : Z) : U unit := fun s =>
  if u_mapped s a then UOk tt (set_hdr (fun m => <[a := mk_header p (default 0 (h_size <$> m !! a))]> m) s) else UFault.
Definition set_size (a n : Z) : U unit := fun s =>
  if u_mapped s a then UOk tt (set_hdr (fun m => <[a := mk_header (default 0 (h_ptr <$> m !! a)) n]> m) s) else UFault.

Definition get_freep : U Z := fun s => UOk (u_freep s) s.
Definition set_freep (p : Z) : U unit := fun s => UOk tt (mk_ust (u_hdr s) p (u_brk s)).

(** [sbrk(n)] for an int [n]: the old size, or [None] for -1 (sys_sbrk and
    growproc: a negative [n] gives memory back). *)
Definition sbrk (n : Z) : U (option Z) := fun s =>
  let sz := u_brk s in
  if 0 <? n then
    if can_grow sz n then UOk (Some sz) (mk_ust (u_hdr s) (u_freep s) (sz + n)) else UOk None s
  else if n <? 0 then
    UOk (Some sz) (mk_ust (u_hdr s) (u_freep s) (if sz <=? u64 (sz + n) then sz else sz + n))
  else UOk (Some sz) s.

(** The loop of [free] from [p] on. *)
Fixpoint free_search (fuel : nat) (bp p : Z) : U Z :=
  match fuel with
  | O => fun _ => UNoFuel
  | S fuel =>
    h ← get_hdr p;
    if (bp >? p) && (bp <? h_ptr h) then mret p
    else if (p >=? h_ptr h) && ((bp >? p) || (bp <? h_ptr h)) then mret p
    else free_search fuel bp (h_ptr h)
  end.

(** A walk meets each header of the list at most once before it is back. *)
Definition list_fuel (s : ust) : nat := S (size (u_hdr s)).
Definition walking {A} (f : nat -> U A) : U A := fun s => f (list_fuel s) s.

(** [free(ap)] *)
Definition free (ap : Z) : U unit :=
  let bp := ap - sizeof_header in
  f ← get_freep;
  p ← walking (fun fuel => free_search fuel bp f);
  hb ← get_hdr bp;
  hp ← get_hdr p;
  (if bp + sizeof_header * h_size hb =? h_ptr hp then
     hn ← get_hdr (h_ptr hp);
     _ ← set_size bp (u32 (h_size hb + h_size hn));
     set_ptr bp (h_ptr hn)
   else set_ptr bp (h_ptr hp));;
  hp ← get_hdr p;
  hb ← get_hdr bp;
  (if p + sizeof_header * h_size hp =? bp then
     _ ← set_size p (u32 (h_size hp + h_size hb));
     set_ptr p (h_ptr hb)
   else set_ptr p bp);;
  set_freep p.

Definition morecore (nu : Z) : U Z :=
  let nu := if nu <? 4096 then 4096 else nu in
  p ← sbrk (i32 (nu * sizeof_header));
  match p with
  | None => mret 0
  | Some hp =>
    _ ← set_size hp nu;
    _ ← free (hp + sizeof_header);
    get_freep
  end.

(** The block at [p], with header [h], is large enough: take all of it, or its end. *)
Definition malloc_take (nunits prevp p : Z) (h : header) : U Z :=
  r ← (if h_size h =? nunits then
         _ ← set_ptr prevp (h_ptr h); mret p
       else
         let size := h_size h - nunits in
         _ ← set_size p size;
         _ ← set_size (p + sizeof_header * size) nunits;
         mret (p + sizeof_header * size));
  _ ← set_freep prevp;
  mret (r + sizeof_header).

(** The for loop of [malloc] from [prevp] and [p] on. *)
Fixpoint malloc_loop (fuel : nat) (nunits prevp p : Z) : U Z :=
  match fuel with
  | O => fun _ => UNoFuel
  | S fuel =>
    h ← get_hdr p;
    if h_size h >=? nunits then malloc_take nunits prevp p h
    else
      f ← get_freep;
      if p =? f then
        p ← morecore nunits;
        if p =? 0 then mret 0
        else h ← get_hdr p; malloc_loop fuel nunits p (h_ptr h)
      else malloc_loop fuel nunits p (h_ptr h)
  end.

(** [nunits]: the size in headers, with one for the header itself. *)
Definition units (nbytes : Z) : Z := u32 (u64 (nbytes + sizeof_header - 1) / sizeof_header + 1).

(** [malloc(nbytes)] *)
Definition malloc (nbytes : Z) : U Z :=
  f ← get_freep;
  prevp ← (if f =? 0 then
             _ ← set_ptr base base;
             _ ← set_freep base;
             _ ← set_size base 0;
             mret base
           else mret f);
  h ← get_hdr prevp;
  walking (fun fuel => malloc_loop (2 * fuel + 2) (units nbytes) prevp (h_ptr h)).
End umalloc.
