(* ===== verification/UmallocSpec.v ===== *)
(** The allocator against its contract: the blocks handed out and the blocks on
    the free list are disjoint parts of the heap and together are all of it;
    malloc finds or makes a block, free gives one back, and neighbours on the
    free list never touch. *)

From S2P Require Import Prelude Machine Umalloc.

(** ** Blocks in address order *)

(** A block is its address and its size in units, the header included. *)
Definition block_end (x : Z * Z) : Z := x.1 + sizeof_header * x.2.

(** Each block starts after the end of the one before it, and after [lo]. *)
Fixpoint ordered (lo : Z) (l : list (Z * Z)) : Prop :=
  match l with
  | [] => True
  | x :: l => lo < x.1 /\ 0 <= x.2 /\ ordered (block_end x) l
  end.

Fixpoint last_end (lo : Z) (l : list (Z * Z)) : Z :=
  match l with [] => lo | x :: l => last_end (block_end x) l end.

Lemma ordered_app lo l1 l2 : ordered lo (l1 ++ l2) <-> ordered lo l1 /\ ordered (last_end lo l1) l2.
Proof. revert lo. induction l1 as [|x l1 IH]; intros lo; cbn [app ordered last_end]; [tauto|]. rewrite IH. tauto. Qed.

Lemma last_end_app lo l1 l2 : last_end lo (l1 ++ l2) = last_end (last_end lo l1) l2.
Proof. revert lo. induction l1 as [|x l1 IH]; intros lo; [done|]. cbn [app last_end]. apply IH. Qed.

Lemma last_end_le lo l : ordered lo l -> lo <= last_end lo l.
Proof.
  revert lo. induction l as [|x l IH]; intros lo; cbn [ordered last_end]; [lia|]. intros (H1 & H2 & H).
  specialize (IH _ H). unfold block_end, sizeof_header in *. lia.
Qed.

Lemma ordered_below lo l : ordered lo l -> Forall (fun x => x.1 <= last_end lo l /\ block_end x <= last_end lo l) l.
Proof.
  revert lo. induction l as [|x l IH]; intros lo; cbn [ordered last_end]; [constructor|]. intros (H1 & H2 & H).
  constructor; [|by apply IH]. pose proof (last_end_le _ _ H). unfold block_end, sizeof_header in *. lia.
Qed.

Lemma ordered_above lo l : ordered lo l -> Forall (fun x => lo < x.1) l.
Proof.
  revert lo. induction l as [|x l IH]; intros lo; cbn [ordered]; [constructor|]. intros (H1 & H2 & H).
  constructor; [done|]. eapply Forall_impl; [by apply IH|]. intros y. unfold block_end, sizeof_header in *. lia.
Qed.

Lemma ordered_around lo l1 x l2 : ordered lo (l1 ++ x :: l2) ->
  Forall (fun y => y.1 < x.1) l1 /\ Forall (fun y => x.1 < y.1 /\ block_end x < y.1) l2.
Proof.
  intros [H1 (H2 & H3 & H4)]%ordered_app. split.
  - eapply Forall_impl; [by apply ordered_below|]. intros y. simpl. lia.
  - eapply Forall_impl; [by apply ordered_above|]. intros y. simpl. unfold block_end, sizeof_header in *. lia.
Qed.

Lemma ordered_weaken lo lo' l : lo' <= lo -> ordered lo l -> ordered lo' l.
Proof. destruct l as [|x l]; [done|]. cbn [ordered]. intros ? (? & ? & ?). split_and!; [lia|done|done]. Qed.

Lemma ordered_NoDup lo l : ordered lo l -> NoDup l.*1.
Proof.
  revert lo. induction l as [|x l IH]; intros lo; cbn [ordered fmap list_fmap]; [constructor|]. intros (H1 & H2 & H).
  constructor; [|by eapply IH]. intros Hin. apply list_elem_of_fmap in Hin as (y & E & Hy).
  pose proof (ordered_above _ _ H) as Ha. rewrite Forall_forall in Ha. specialize (Ha y Hy). simpl in Ha. unfold block_end, sizeof_header in *. lia.
Qed.

(** ** The circular list *)

Definition first_addr (l : list (Z * Z)) (e : Z) : Z := match l with [] => e | x :: _ => x.1 end.

(** The headers of [l] point each to the next one, the last to [e]. *)
Fixpoint chain (m : gmap Z header) (l : list (Z * Z)) (e : Z) : Prop :=
  match l with
  | [] => True
  | x :: l => m !! x.1 = Some (mk_header (first_addr l e) x.2) /\ chain m l e
  end.

Lemma blocks_chain_app m l1 l2 e : chain m (l1 ++ l2) e <-> chain m l1 (first_addr l2 e) /\ chain m l2 e.
Proof.
  induction l1 as [|x l1 IH]; cbn [app chain]; [tauto|]. rewrite IH.
  assert (first_addr (l1 ++ l2) e = first_addr l1 (first_addr l2 e)) as -> by (by destruct l1). tauto.
Qed.

Lemma chain_insert m a h l e : Forall (fun x => x.1 <> a) l -> chain m l e -> chain (<[a := h]> m) l e.
Proof. induction 1 as [|x l Hx H IH]; cbn [chain]; [done|]. intros []. rewrite lookup_insert_ne by done. split; [done|by apply IH]. Qed.

Lemma blocks_chain_lookup m l e x : chain m l e -> x ∈ l -> exists p, m !! x.1 = Some (mk_header p x.2).
Proof.
  induction l as [|y l IH]; [by intros _ ?%elem_of_nil|]. cbn [chain]. intros [Hy Hl] [->|Hx]%elem_of_cons; [by eexists|by apply IH].
Qed.

Lemma chain_size m l e : NoDup l.*1 -> chain m l e -> (length l <= size m)%nat.
Proof.
  intros Hn Hc. rewrite <- (length_fmap fst l), <- (size_dom (D := gset Z)).
  rewrite <- (size_list_to_set (C := gset Z)) by done. apply subseteq_size. intros a Ha.
  apply elem_of_list_to_set, list_elem_of_fmap in Ha as (x & -> & Hx). apply elem_of_dom.
  destruct (blocks_chain_lookup _ _ _ _ Hc Hx) as [p ->]. by eexists.
Qed.

Definition total (l : list (Z * Z)) : Z := foldr (fun x n => x.2 + n) 0 l.
Definition total_map (al : gmap Z Z) : Z := map_fold (fun _ n k => n + k) 0 al.

Definition apart (x y : Z * Z) : Prop := block_end x <= y.1 \/ block_end y <= x.1.

(** The memory the machine has for processes: the kernel gives out no more. *)
Definition maxmem : Z := PHYSTOP - KERNBASE.

Section heap.
Context (base heap0 : Z) (can_grow : Z -> Z -> bool).

(** A block of at least one unit in the heap, aligned like its start. *)
Definition in_heap (s : ust) (x : Z * Z) : Prop :=
  1 <= x.2 /\ heap0 <= x.1 /\ block_end x <= u_brk s /\ (sizeof_header | x.1 - heap0).

(** Free blocks in address order from [lo] on, never touching each other, in
    the heap and apart from the blocks handed out. *)
Definition blocks_ok (s : ust) (al : gmap Z Z) (lo : Z) (l : list (Z * Z)) : Prop :=
  ordered lo l /\ Forall (fun x => in_heap s x /\ map_Forall (fun a n => apart (a, n) x) al) l.

(** The state of the allocator with the blocks [fl] free and [al] handed out. *)
Record heap_ok (s : ust) (fl : list (Z * Z)) (al : gmap Z Z) : Prop := {
  ho_chain : chain (u_hdr s) ((base, 0) :: fl) base;
  ho_freep : u_freep s ∈ base :: fl.*1;
  ho_blocks : blocks_ok s al base fl;
  ho_alloc : map_Forall (fun a n => in_heap s (a, n) /\ h_size <$> u_hdr s !! a = Some n) al;
  ho_disjoint : forall a n b k, al !! a = Some n -> al !! b = Some k -> a <> b -> apart (a, n) (b, k);
  ho_total : sizeof_header * (total fl + total_map al) = u_brk s - heap0;
  ho_brk : u_brk s <= maxmem
}.

Context (Hbase : 0 < base) (Hheap : base + sizeof_header <= heap0).

Lemma in_heap_mapped s x : in_heap s x -> u_mapped base heap0 s x.1 = true.
Proof.
  intros (H1 & H2 & H3 & _). unfold u_mapped, block_end, sizeof_header in *. apply orb_true_iff. right.
  apply andb_true_iff. split; apply Z.leb_le; lia.
Qed.

Lemma base_mapped s : u_mapped base heap0 s base = true.
Proof. unfold u_mapped. by rewrite Z.eqb_refl. Qed.

Definition ring (fl : list (Z * Z)) : list (Z * Z) := (base, 0) :: fl.

Lemma ring_ordered s fl al : heap_ok s fl al -> ordered (base - 1) (ring fl).
Proof. intros H. cbn [ordered ring]. unfold block_end. cbn. rewrite Z.mul_0_r, Z.add_0_r. split_and!; [lia|lia|apply (ho_blocks _ _ _ H)]. Qed.

Lemma ring_mapped s fl al : heap_ok s fl al -> Forall (fun x => u_mapped base heap0 s x.1 = true) (ring fl).
Proof.
  intros H. constructor; [apply base_mapped|]. eapply Forall_impl; [apply (ho_blocks _ _ _ H)|]. intros x [Hx _]. by apply in_heap_mapped.
Qed.

Lemma get_hdr_run s a h : u_mapped base heap0 s a = true -> u_hdr s !! a = Some h -> get_hdr base heap0 a s = UOk h s.
Proof. intros H1 H2. unfold get_hdr. by rewrite H1, H2. Qed.

(** ** The search of free *)

Lemma free_search_S fuel bp p s h :
  u_mapped base heap0 s p = true -> u_hdr s !! p = Some h ->
  free_search base heap0 (S fuel) bp p s =
  if (p <? bp) && (bp <? h_ptr h) || (h_ptr h <=? p) && ((p <? bp) || (bp <? h_ptr h)) then UOk p s
  else free_search base heap0 fuel bp (h_ptr h) s.
Proof.
  intros H1 H2. cbn [free_search]. unfold mbind, u_bind. rewrite (get_hdr_run s p h H1 H2), !Z.gtb_ltb, !Z.geb_leb.
  by destruct (_ && _), (_ && _).
Qed.

Lemma search_up s bp u : forall p sp f2 fuel,
  chain (u_hdr s) ((p, sp) :: u ++ f2) base -> Forall (fun x => u_mapped base heap0 s x.1 = true) ((p, sp) :: u) ->
  ordered (p - 1) ((p, sp) :: u) -> Forall (fun x => x.1 < bp) ((p, sp) :: u) -> Forall (fun x => bp < x.1) f2 ->
  base <= p -> (length u < fuel)%nat ->
  free_search base heap0 fuel bp p s = UOk (List.last (p :: u.*1) 0) s.
Proof.
  induction u as [|[q sq] u IH]; intros p sp f2 fuel Hc Hm Ho Hlt Hgt Hp Hf; (destruct fuel as [|fuel]; [simpl in Hf; lia|]);
    cbn [chain app] in Hc; destruct Hc as [Hh Hc]; apply Forall_cons in Hm as [Hm1 Hm]; apply Forall_cons in Hlt as [Hl1 Hlt];
    rewrite (free_search_S _ _ _ _ _ Hm1 Hh); cbn [h_ptr fst] in *.
  - destruct f2 as [|[q sq] f2]; cbn [first_addr fst].
    + bcases; try done.
    + apply Forall_cons in Hgt as [Hq _]. cbn in Hq. bcases; try done.
  - cbn [first_addr fst]. pose proof Ho as (_ & Hs & Hq & Hs2 & Ho'). apply Forall_cons in Hlt as [Hl2 Hlt]. cbn in Hl2, Hs, Hq.
    unfold block_end, sizeof_header in Hq. cbn in Hq.
    assert (E : free_search base heap0 fuel bp q s = UOk (List.last (q :: u.*1) 0) s).
    { eapply (IH q sq f2); [done|done| | |done|lia|cbn in Hf; lia].
      - cbn [ordered fst snd]. split_and!; [lia|done|done].
      - by constructor. }
    change (List.last (p :: ((q, sq) :: u).*1) 0) with (List.last (q :: u.*1) 0). rewrite <- E. bcases; try done.
Qed.

Lemma search_down s bp v : forall p sp fuel,
  chain (u_hdr s) ((p, sp) :: v) base -> Forall (fun x => u_mapped base heap0 s x.1 = true) ((p, sp) :: v) ->
  ordered (p - 1) ((p, sp) :: v) -> Forall (fun x => bp < x.1) ((p, sp) :: v) -> base < bp ->
  free_search base heap0 (S (length v) + fuel) bp p s = free_search base heap0 fuel bp base s.
Proof.
  induction v as [|[q sq] v IH]; intros p sp fuel Hc Hm Ho Hgt Hb;
    rewrite Nat.add_succ_l; cbn [chain] in Hc; destruct Hc as [Hh Hc]; apply Forall_cons in Hm as [Hm1 Hm]; apply Forall_cons in Hgt as [Hg1 Hgt];
    rewrite (free_search_S _ _ _ _ _ Hm1 Hh); cbn [h_ptr fst first_addr] in *.
  - bcases; done.
  - pose proof Ho as (_ & Hs & Hq & Hs2 & Ho'). cbn in Hs, Hq. unfold block_end, sizeof_header in Hq. cbn in Hq.
    assert (E : free_search base heap0 (S (length v) + fuel) bp q s = free_search base heap0 fuel bp base s).
    { eapply (IH q sq); [done|done| |done|done]. cbn [ordered fst snd]. split_and!; [lia|done|done]. }
    cbn [length]. rewrite <- E. bcases; done.
Qed.

Lemma last_suffix (a : list (Z * Z)) x u t y : a ++ x :: u = t ++ [y] -> List.last (x.1 :: u.*1) 0 = y.1.
Proof.
  revert t. induction a as [|z a IH]; intros t E.
  - change (x.1 :: u.*1) with ((x :: u).*1). cbn [app] in E. rewrite E, fmap_app. apply List.last_last.
  - destruct t as [|z' t]; [by destruct a|]. injection E as _ E. by eapply IH.
Qed.

Lemma split_at lo l bp : ordered lo l -> Forall (fun x => x.1 <> bp) l ->
  exists f1 f2, l = f1 ++ f2 /\ Forall (fun x => x.1 < bp) f1 /\ Forall (fun x => bp < x.1) f2.
Proof.
  revert lo. induction l as [|x l IH]; intros lo Ho Hn; [by exists [], []|]. apply Forall_cons in Hn as [Hx Hn].
  destruct (Z.lt_ge_cases x.1 bp) as [Hlt|Hge].
  - destruct (IH (block_end x)) as (f1 & f2 & -> & H1 & H2); [apply Ho|done|]. exists (x :: f1), f2. split_and!; [done|by constructor|done].
  - exists [], (x :: l). split_and!; [done|constructor|]. destruct (ordered_around lo [] x l Ho) as [_ H]. constructor; [lia|].
    eapply Forall_impl; [exact H|]. simpl. lia.
Qed.

Lemma ordered_from lo p sp l : ordered lo ((p, sp) :: l) -> ordered (p - 1) ((p, sp) :: l).
Proof. intros (_ & H1 & H2). cbn [ordered]. split_and!; [simpl; lia|done|done]. Qed.

(** The search finds the neighbour below [bp]. *)
Lemma free_search_run s fl al bp :
  heap_ok s fl al -> heap0 <= bp -> Forall (fun x => x.1 <> bp) fl ->
  exists t1 k sk f2, ring fl = t1 ++ (k, sk) :: f2 /\ Forall (fun x => x.1 < bp) (t1 ++ [(k, sk)]) /\
    Forall (fun x => bp < x.1) f2 /\
    free_search base heap0 (list_fuel s) bp (u_freep s) s = UOk k s.
Proof.
  intros H Hbp Hne. pose proof (ring_ordered _ _ _ H) as Ho. pose proof (ring_mapped _ _ _ H) as Hm.
  assert (Hlow : base < bp) by (unfold sizeof_header in *; lia).
  destruct (split_at (base - 1) (ring fl) bp Ho) as (f1 & f2 & E & H1 & H2); [constructor; [simpl; lia|done]|].
  destruct (@exists_last _ f1) as (t1 & [k sk] & Ef); [intros ->; cbn [app] in E; subst f2; apply Forall_cons in H2 as [H2 _]; simpl in H2; lia|].
  subst f1. exists t1, k, sk, f2. rewrite <- app_assoc in E. cbn [app] in E. split_and!; [done|done|done|].
  pose proof (ho_chain _ _ _ H) as Hc. change ((base, 0) :: fl) with (ring fl) in Hc.
  assert (Hsz : (length (ring fl) <= size (u_hdr s))%nat) by (eapply chain_size; [by eapply ordered_NoDup|exact Hc]).
  assert (Hup : forall a p sp u fuel, t1 ++ [(k, sk)] = a ++ (p, sp) :: u -> (length u < fuel)%nat ->
    free_search base heap0 fuel bp p s = UOk k s).
  { intros a p sp u fuel Ea Hf. change k with ((k, sk).1). rewrite <- (last_suffix a (p, sp) u t1 (k, sk)) by (by rewrite Ea).
    assert (Er : ring fl = a ++ ((p, sp) :: u) ++ f2).
    { rewrite E. change ((k, sk) :: f2) with ([(k, sk)] ++ f2). rewrite !app_assoc. by rewrite Ea. }
    rewrite Er in Hc, Ho, Hm. apply blocks_chain_app in Hc as [_ Hc]. apply ordered_app in Ho as [Ho1 Ho]. apply ordered_app in Ho as [Ho _].
    apply Forall_app in Hm as [_ Hm]. apply Forall_app in Hm as [Hm _]. rewrite Ea in H1. apply Forall_app in H1 as [_ H1].
    assert (Hb : base <= p).
    { destruct a as [|z a]; [injection Er as -> _ _; lia|]. injection Er as <- Er. destruct Ho1 as (_ & _ & Ho1). destruct Ho as [Ho _].
      pose proof (last_end_le _ _ Ho1) as Hle. assert (last_end (block_end (base, 0)) a < p) by exact Ho. assert (block_end (base, 0) = base + 0) by done. lia. }
    eapply (search_up s bp u p sp f2); try done. by eapply ordered_from. }
  pose proof (ho_freep _ _ _ H) as Hf. change (base :: fl.*1) with (ring fl).*1 in Hf.
  apply list_elem_of_fmap in Hf as ([p sp] & -> & Hin). rewrite E in Hin.
  change ((k, sk) :: f2) with ([(k, sk)] ++ f2) in Hin. rewrite app_assoc in Hin. cbn [fst].
  assert (Hlen : (length (t1 ++ [(k, sk)]) + length f2 <= size (u_hdr s))%nat).
  { rewrite E in Hsz. rewrite !length_app in *. cbn [length] in *. lia. }
  apply elem_of_app in Hin as [Hin|Hin]; apply list_elem_of_split in Hin as (a & u & Ea).
  - eapply Hup; [exact Ea|]. rewrite Ea, !length_app in Hlen. cbn [length] in Hlen. unfold list_fuel. lia.
  - assert (Er : ring fl = (t1 ++ (k, sk) :: a) ++ (p, sp) :: u) by (by rewrite E, Ea, <- app_assoc).
    rewrite Er in Hc, Ho, Hm. apply blocks_chain_app in Hc as [_ Hc]. apply ordered_app in Ho as [_ Ho]. apply Forall_app in Hm as [_ Hm].
    rewrite Ea in H2. apply Forall_app in H2 as [_ H2]. rewrite Ea, !length_app in Hlen. cbn [length] in Hlen.
    replace (list_fuel s) with (S (length u) + (list_fuel s - S (length u)))%nat by (unfold list_fuel; lia).
    rewrite (search_down s bp u p sp); [|done|done|by eapply ordered_from|done|done].
    destruct t1 as [|z t1]; injection E as Ez E.
    + subst k. eapply (Hup [] base sk []); [done|]. cbn [length] in *. unfold list_fuel. lia.
    + destruct z as [z1 z2]. injection Ez as <- <-. eapply (Hup [] base 0 (t1 ++ [(k, sk)])); [done|].
      cbn [length app] in *. rewrite length_app in *. cbn [length] in *. unfold list_fuel. lia.
Qed.

(** ** Joining neighbours *)

Definition merge_right (x : Z * Z) (l : list (Z * Z)) : (Z * Z) * list (Z * Z) :=
  match l with
  | y :: l' => if block_end x =? y.1 then ((x.1, x.2 + y.2), l') else (x, l)
  | [] => (x, [])
  end.

Definition merge_left (p x : Z * Z) : list (Z * Z) :=
  if block_end p =? x.1 then [(p.1, p.2 + x.2)] else [p; x].

Lemma set_ptr_run s a p : u_mapped base heap0 s a = true ->
  set_ptr base heap0 a p s = UOk tt (set_hdr (fun m => <[a := mk_header p (default 0 (h_size <$> m !! a))]> m) s).
Proof. intros H. unfold set_ptr. by rewrite H. Qed.

Lemma set_size_run s a n : u_mapped base heap0 s a = true ->
  set_size base heap0 a n s = UOk tt (set_hdr (fun m => <[a := mk_header (default 0 (h_ptr <$> m !! a)) n]> m) s).
Proof. intros H. unfold set_size. by rewrite H. Qed.

Lemma u_bind_run {A B} (m : U A) (f : A -> U B) s a s' : m s = UOk a s' -> (m ≫= f) s = f a s'.
Proof. intros E. unfold mbind, u_bind. by rewrite E. Qed.

Lemma u_seq_run {A B} (m : U A) (k : U B) s a s' : m s = UOk a s' -> (m ;; k) s = k s'.
Proof. apply u_bind_run. Qed.

(** What free does once it has found its place. *)
Lemma free_run s bp n pb k sk f2 :
  free_search base heap0 (list_fuel s) bp (u_freep s) s = UOk k s ->
  u_mapped base heap0 s k = true -> u_mapped base heap0 s bp = true ->
  Forall (fun x => u_mapped base heap0 s x.1 = true) f2 ->
  u_hdr s !! k = Some (mk_header (first_addr f2 base) sk) -> u_hdr s !! bp = Some (mk_header pb n) ->
  chain (u_hdr s) f2 base -> k <> bp -> base < bp -> 0 <= n -> Forall (fun x => 0 <= n + x.2 < 2 ^ 32) f2 ->
  0 <= sk + (merge_right (bp, n) f2).1.2 < 2 ^ 32 ->
  let '(x, l) := merge_right (bp, n) f2 in
  free base heap0 (bp + sizeof_header) s =
  UOk tt (mk_ust
    (<[k := if block_end (k, sk) =? bp then mk_header (first_addr l base) (sk + x.2) else mk_header bp sk]>
     (<[bp := mk_header (first_addr l base) x.2]> (u_hdr s))) k (u_brk s)).
Proof.
  intros Hsearch Hmk Hmb Hmf Hk Hb Hc Hne Hlow Hn Hr Hl.
  destruct (merge_right (bp, n) f2) as [x l] eqn:Em. cbn [fst snd] in Hl.
  assert (Hx : x.1 = bp) by (unfold merge_right in Em; destruct f2 as [|y f2]; [|destruct (_ =? _)]; by simplify_eq/=).
  unfold free. rewrite Z.add_simpl_r. rewrite (u_bind_run _ _ _ (u_freep s) s) by done.
  rewrite (u_bind_run _ _ _ k s) by exact Hsearch.
  rewrite (u_bind_run _ _ _ _ s) by (by apply get_hdr_run). rewrite (u_bind_run _ _ _ _ s) by (by apply get_hdr_run).
  cbn [h_ptr h_size].
  set (s1 := mk_ust (<[bp := mk_header (first_addr l base) x.2]> (u_hdr s)) (u_freep s) (u_brk s)).
  rewrite (u_seq_run _ _ s tt s1).
  2: { unfold merge_right in Em. change (bp + sizeof_header * n) with (block_end (bp, n)).
       destruct f2 as [|y f2]; cbn [first_addr].
       - injection Em as <- <-. rewrite (proj2 (Z.eqb_neq _ _)) by (unfold block_end, sizeof_header; simpl; lia).
         rewrite set_ptr_run by done. unfold set_hdr, s1. by rewrite Hb.
       - destruct Hc as [Hy Hc]. apply Forall_cons in Hmf as [Hmy Hmf]. apply Forall_cons in Hr as [Hry _].
         destruct (block_end (bp, n) =? y.1); injection Em as <- <-.
         + rewrite (u_bind_run _ _ _ _ s) by (by apply get_hdr_run). cbn [h_ptr h_size].
           rewrite (u_bind_run _ _ _ _ _ (set_size_run _ _ _ Hmb)), set_ptr_run by exact Hmb.
           unfold set_hdr, s1. cbn [u_hdr u_freep u_brk]. rewrite lookup_insert_eq, insert_insert_eq. cbn.
           by rewrite u32_small by exact Hry.
         + rewrite set_ptr_run by done. unfold set_hdr, s1. by rewrite Hb. }
  assert (Hm1 : forall a, u_mapped base heap0 s1 a = u_mapped base heap0 s a) by done.
  rewrite (u_bind_run _ _ _ (mk_header (first_addr f2 base) sk) s1) by (apply get_hdr_run; [done|cbn; by rewrite lookup_insert_ne]).
  rewrite (u_bind_run _ _ _ (mk_header (first_addr l base) x.2) s1) by (apply get_hdr_run; [done|cbn; by rewrite lookup_insert_eq]).
  cbn [h_ptr h_size]. change (k + sizeof_header * sk) with (block_end (k, sk)).
  destruct (block_end (k, sk) =? bp).
  - rewrite (u_seq_run _ _ s1 tt (set_hdr (fun m => <[k := mk_header (first_addr l base) (sk + x.2)]> m) s1)); [done|].
    rewrite (u_bind_run _ _ _ _ _ (set_size_run s1 _ _ Hmk)), set_ptr_run by exact Hmk.
    unfold set_hdr, s1. cbn [u_hdr u_freep u_brk]. rewrite lookup_insert_eq, insert_insert_eq. cbn. by rewrite u32_small by exact Hl.
  - rewrite (u_seq_run _ _ s1 tt (set_hdr (fun m => <[k := mk_header bp sk]> m) s1)); [done|].
    rewrite set_ptr_run by exact Hmk. unfold set_hdr, s1. cbn [u_hdr u_freep u_brk]. by rewrite lookup_insert_ne, Hk.
Qed.

(** ** Geometry of the blocks *)

Lemma total_app l1 l2 : total (l1 ++ l2) = total l1 + total l2.
Proof. unfold total. induction l1 as [|x l1 IH]; [done|]. cbn [app foldr]. rewrite IH. lia. Qed.

Lemma total_map_insert al a n : al !! a = None -> total_map (<[a := n]> al) = n + total_map al.
Proof. intros H. unfold total_map. rewrite map_fold_insert_L; [done|intros; lia|done]. Qed.

Lemma total_map_delete al a n : al !! a = Some n -> total_map al = n + total_map (delete a al).
Proof. intros H. rewrite <- (insert_delete_id al a n) at 1 by done. by rewrite total_map_insert by apply lookup_delete_eq. Qed.

Lemma apart_ne x y : 1 <= x.2 -> 1 <= y.2 -> apart x y -> x.1 <> y.1.
Proof. unfold apart, block_end, sizeof_header. lia. Qed.

Lemma apart_join a p x : 1 <= a.2 -> block_end p = x.1 -> apart a p -> apart a x -> apart a (p.1, p.2 + x.2).
Proof. unfold apart, block_end, sizeof_header. cbn. lia. Qed.

Lemma in_heap_join s p x : in_heap s p -> in_heap s x -> block_end p = x.1 -> in_heap s (p.1, p.2 + x.2).
Proof. unfold in_heap, block_end, sizeof_header. cbn. intuition lia. Qed.

Lemma blocks_ok_app s al lo l1 l2 : blocks_ok s al lo (l1 ++ l2) <-> blocks_ok s al lo l1 /\ blocks_ok s al (last_end lo l1) l2.
Proof. unfold blocks_ok. rewrite ordered_app, Forall_app. tauto. Qed.

Lemma blocks_ok_cons s al lo x l :
  blocks_ok s al lo (x :: l) <-> lo < x.1 /\ in_heap s x /\ map_Forall (fun a n => apart (a, n) x) al /\ blocks_ok s al (block_end x) l.
Proof.
  unfold blocks_ok. cbn [ordered]. rewrite Forall_cons. split; [tauto|].
  intros (H1 & H2 & H3 & H4 & H5). split_and!; try done. destruct H2. lia.
Qed.

Lemma merge_right_ok s al x l lo :
  (forall a n, al !! a = Some n -> 1 <= n) ->
  lo < x.1 -> in_heap s x -> map_Forall (fun a n => apart (a, n) x) al -> blocks_ok s al (x.1) l -> Forall (apart x) l ->
  blocks_ok s al lo ((merge_right x l).1 :: (merge_right x l).2).
Proof.
  intros Ha Hlo Hx Hax Hl Hxl. unfold merge_right. destruct l as [|y l]; cbn [fst snd].
  - apply blocks_ok_cons. split_and!; try done.
  - apply blocks_ok_cons in Hl as (H1 & Hy & Hay & Hl). apply Forall_cons in Hxl as [Hxy _].
    destruct (Z.eqb_spec (block_end x) y.1) as [E|E]; cbn [fst snd].
    + apply blocks_ok_cons. split_and!; [done|by apply in_heap_join| |].
      * intros a n Hn. apply apart_join; [simpl; by eapply Ha|done|by apply Hax|by apply Hay].
      * replace (block_end (x.1, x.2 + y.2)) with (block_end y); [done|]. unfold block_end, sizeof_header in *. cbn. lia.
    + apply blocks_ok_cons. split_and!; try done. apply blocks_ok_cons. split_and!; try done.
      destruct Hx as [Hx _], Hy as [Hy _]. unfold apart, block_end, sizeof_header in *. lia.
Qed.

Lemma merge_left_ok s al lo p x l :
  (forall a n, al !! a = Some n -> 1 <= n) ->
  lo < p.1 -> in_heap s p -> map_Forall (fun a n => apart (a, n) p) al -> block_end p <= x.1 -> blocks_ok s al (x.1 - 1) (x :: l) ->
  blocks_ok s al lo (merge_left p x ++ l).
Proof.
  intros Ha Hlo Hp Hap Hpx (H1 & Hx & Hax & Hl)%blocks_ok_cons. unfold merge_left.
  destruct (Z.eqb_spec (block_end p) x.1) as [E|E]; cbn [app]; apply blocks_ok_cons; split_and!; try done.
  - by apply in_heap_join.
  - intros a n Hn. apply apart_join; [simpl; by eapply Ha|done|by apply Hap|by apply Hax].
  - replace (block_end (p.1, p.2 + x.2)) with (block_end x); [done|]. unfold block_end, sizeof_header in *. cbn. lia.
  - apply blocks_ok_cons. split_and!; try done. lia.
Qed.

Lemma merge_right_total x l : (merge_right x l).1.2 + total (merge_right x l).2 = x.2 + total l.
Proof. unfold merge_right. destruct l as [|y l]; [done|]. destruct (_ =? _); unfold total; simpl; lia. Qed.

Lemma merge_left_total p x l : total (merge_left p x ++ l) = p.2 + x.2 + total l.
Proof. unfold merge_left. destruct (_ =? _); unfold total; simpl; lia. Qed.

Lemma merge_right_addr x l : (merge_right x l).1.1 = x.1.
Proof. unfold merge_right. destruct l as [|y l]; [done|]. by destruct (_ =? _). Qed.

Lemma merge_right_suffix x l : exists l0, l = l0 ++ (merge_right x l).2.
Proof. unfold merge_right. destruct l as [|y l]; [by exists []|]. destruct (_ =? _); [by exists [y]|by exists []]. Qed.

Lemma merge_right_end s x l : Forall (in_heap s) l -> block_end x <= block_end (merge_right x l).1.
Proof.
  intros Hl. unfold merge_right. destruct l as [|y l]; [done|]. apply Forall_cons in Hl as [[Hy _] _].
  destruct (_ =? _); [|done]. unfold block_end, sizeof_header in *. cbn. lia.
Qed.

(** ** free *)

Lemma blocks_ok_subset s al al' lo l : al' ⊆ al -> blocks_ok s al lo l -> blocks_ok s al' lo l.
Proof.
  intros Hs [H1 H2]. split; [done|]. eapply Forall_impl; [exact H2|]. intros x [Hx Ha]. split; [done|].
  intros a n Hn. apply Ha. by eapply lookup_weaken.
Qed.

Lemma blocks_ok_apart s al lo l a n : blocks_ok s al lo l -> al !! a = Some n -> Forall (apart (a, n)) l.
Proof. intros [_ H] Hn. eapply Forall_impl; [exact H|]. intros x [_ Hx]. by apply Hx. Qed.

Lemma blocks_ok_in_heap s al lo l : blocks_ok s al lo l -> Forall (in_heap s) l.
Proof. intros [_ H]. eapply Forall_impl; [exact H|]. by intros x []. Qed.

Lemma in_heap_small s x : heap0 <= u_brk s -> u_brk s <= maxmem -> in_heap s x -> 1 <= x.2 < 2 ^ 24.
Proof.
  intros H0 H1 (H2 & H3 & H4 & _). change maxmem with (2 ^ 27) in H1. unfold block_end, sizeof_header in *. lia.
Qed.

(** The blocks after free, and the list with the freed one. *)
Lemma freed_blocks s al bp n t1 k sk f2 fl :
  (forall a j, al !! a = Some j -> 1 <= j) ->
  ring fl = t1 ++ (k, sk) :: f2 -> blocks_ok s al base fl -> in_heap s (bp, n) ->
  map_Forall (fun a j => apart (a, j) (bp, n)) al -> Forall (apart (bp, n)) fl ->
  Forall (fun x => x.1 < bp) (t1 ++ [(k, sk)]) -> Forall (fun x => bp < x.1) f2 ->
  exists fl', ring fl' = t1 ++ merge_left (k, sk) (merge_right (bp, n) f2).1 ++ (merge_right (bp, n) f2).2 /\
    blocks_ok s al base fl' /\ total fl' = total fl + n.
Proof.
  intros Ha E Hfl Hb Hab Hap Hlt Hgt. set (r := merge_right (bp, n) f2).
  assert (Hr : forall lo, lo < bp -> blocks_ok s al base f2 -> Forall (apart (bp, n)) f2 -> blocks_ok s al lo (r.1 :: r.2)).
  { intros lo Hlo Hf Hx. apply merge_right_ok; try done. destruct Hf as [Ho Hf]. split; [|done]. destruct f2 as [|y f2]; [done|].
    apply Forall_cons in Hgt as [Hy _]. cbn [ordered] in *. split_and!; [done|apply Ho..]. }
  pose proof (merge_right_total (bp, n) f2) as Ht. fold r in Ht. cbn [snd] in Ht.
  pose proof (merge_right_addr (bp, n) f2) as Hr1. fold r in Hr1. cbn [fst] in Hr1.
  destruct t1 as [|z t1]; injection E as Ez E.
  - subst k sk f2. exists (r.1 :: r.2). split_and!.
    + unfold merge_left. rewrite (proj2 (Z.eqb_neq _ _)); [done|]. destruct Hb as (_ & Hb & _). rewrite Hr1.
      unfold block_end, sizeof_header in *. cbn in *. lia.
    + apply Hr; [|done|done]. destruct Hb as (_ & Hb & _). unfold sizeof_header in *. cbn in *. lia.
    + unfold total in *. simpl. lia.
  - subst z fl. apply blocks_ok_app in Hfl as [Ht1 (Hk1 & Hk & Hak & Hf2)%blocks_ok_cons].
    apply Forall_app in Hap as [_ [Hkb Hap]%Forall_cons]. apply Forall_app in Hlt as [_ Hlt]. apply Forall_cons in Hlt as [Hlt _]. cbn [fst] in Hlt.
    assert (Hend : block_end (k, sk) <= bp).
    { destruct Hk as [Hk _], Hb as [Hb _]. unfold apart, block_end, sizeof_header in *. cbn in *. lia. }
    exists (t1 ++ merge_left (k, sk) r.1 ++ r.2). split_and!; [done| |].
    + apply blocks_ok_app. split; [done|]. apply merge_left_ok; try done; [by rewrite Hr1|]. apply Hr; [lia| |done].
      destruct Hf2 as [Ho Hf2]. split; [|done]. eapply ordered_weaken; [|exact Ho]. destruct Hk as (H1 & H2 & _).
      unfold block_end, sizeof_header in *. cbn in *. lia.
    + rewrite !total_app in *. rewrite <- total_app, merge_left_total. unfold total in *. simpl in *. lia.
Qed.

Lemma freed_chain m t1 k sk f2 bp n :
  chain m (t1 ++ (k, sk) :: f2) base -> k <> bp ->
  Forall (fun x => x.1 <> k /\ x.1 <> bp) t1 -> Forall (fun x => x.1 <> k /\ x.1 <> bp) f2 ->
  let r := merge_right (bp, n) f2 in
  chain (<[k := if block_end (k, sk) =? bp then mk_header (first_addr r.2 base) (sk + r.1.2) else mk_header bp sk]>
         (<[bp := mk_header (first_addr r.2 base) r.1.2]> m))
    (t1 ++ merge_left (k, sk) r.1 ++ r.2) base.
Proof.
  intros Hc Hne H1 H2 r. apply blocks_chain_app in Hc as [Hc1 [_ Hc2]].
  pose proof (merge_right_addr (bp, n) f2) as Hr1. fold r in Hr1. cbn [fst] in Hr1.
  destruct (merge_right_suffix (bp, n) f2) as [l0 El]. fold r in El. rewrite El in Hc2, H2.
  apply blocks_chain_app in Hc2 as [_ Hc2]. apply Forall_app in H2 as [_ H2].
  assert (Hins : forall h h' l e, chain m l e -> Forall (fun x => x.1 <> k /\ x.1 <> bp) l -> chain (<[k := h]> (<[bp := h']> m)) l e).
  { intros h h' l e Hl Hx. apply chain_insert; [|apply chain_insert; [|done]]; (eapply Forall_impl; [exact Hx|]); simpl; tauto. }
  apply blocks_chain_app. split.
  - apply Hins; [|done]. replace (first_addr _ base) with k; [exact Hc1|]. unfold merge_left. by destruct (_ =? _).
  - unfold merge_left. rewrite Hr1. destruct (block_end (k, sk) =? bp); cbn [app chain first_addr fst snd].
    + rewrite lookup_insert_eq. split; [done|by apply Hins].
    + rewrite Hr1, lookup_insert_eq, lookup_insert_ne, lookup_insert_eq by done. split_and!; [done|done|by apply Hins].
Qed.

Lemma alloc_sizes s fl al a n : heap_ok s fl al -> al !! a = Some n -> 1 <= n.
Proof. intros H Hn. by destruct (ho_alloc _ _ _ H a n Hn) as [[? _] _]. Qed.

Lemma heap0_le s fl al : heap_ok s fl al -> heap0 <= u_brk s.
Proof.
  intros H. pose proof (ho_total _ _ _ H) as Ht. assert (0 <= total fl).
  { pose proof (blocks_ok_in_heap _ _ _ _ (ho_blocks _ _ _ H)) as Hf. clear -Hf. induction Hf as [|x l [Hx _] Hf IH]; unfold total in *; simpl; lia. }
  assert (0 <= total_map al).
  { unfold total_map. assert (map_Forall (fun _ n => 0 <= n) al) as Ha by (intros a n Hn; pose proof (alloc_sizes _ _ _ _ _ H Hn); lia).
    clear -Ha. induction al as [|a n al Hn IH] using map_ind; [done|]. rewrite map_fold_insert_L; [|intros; lia|done].
    apply map_Forall_insert in Ha as [? ?]; [|done]. specialize (IH H0). lia. }
  unfold sizeof_header in *. lia.
Qed.

Lemma ring_split fl t1 k sk f2 : ring fl = t1 ++ (k, sk) :: f2 ->
  ((k, sk) = (base, 0) \/ (k, sk) ∈ fl) /\ exists p, fl = p ++ f2.
Proof.
  destruct t1 as [|z t1]; intros E; injection E as Ez E.
  - subst. split; [by left|by exists []].
  - subst fl. split; [right; apply elem_of_app; right; left|]. exists (t1 ++ [(k, sk)]). by rewrite <- app_assoc.
Qed.

Lemma delete_alloc s (al : gmap Z Z) bp :
  map_Forall (fun a n => in_heap s (a, n) /\ h_size <$> u_hdr s !! a = Some n) al ->
  forall (m : gmap Z header) k, (forall a n, al !! a = Some n -> a <> bp -> a <> k) ->
  (forall a, a <> bp -> a <> k -> m !! a = u_hdr s !! a) ->
  map_Forall (fun a n => in_heap s (a, n) /\ h_size <$> m !! a = Some n) (delete bp al).
Proof.
  intros Hal m k Hk Hm a n Ha. apply lookup_delete_Some in Ha as [Hne Ha]. destruct (Hal a n Ha) as [H1 H2].
  split; [done|]. rewrite Hm; [done|done|by eapply Hk].
Qed.

Lemma free_ok s fl al bp n :
  heap_ok s fl al -> al !! bp = Some n ->
  exists s' fl', free base heap0 (bp + sizeof_header) s = UOk tt s' /\ heap_ok s' fl' (delete bp al) /\ size (u_hdr s') = size (u_hdr s) /\
    (exists x, x ∈ fl' /\ n <= x.2).
Proof.
  intros H Hn. destruct (ho_alloc _ _ _ H bp n Hn) as [Hb Hh].
  pose proof (ho_blocks _ _ _ H) as Hfl. pose proof (blocks_ok_apart _ _ _ _ _ _ Hfl Hn) as Hap.
  pose proof (heap0_le _ _ _ H) as Hle. pose proof (ho_brk _ _ _ H) as Hbrk.
  assert (Hne : Forall (fun x => x.1 <> bp) fl).
  { pose proof (blocks_ok_in_heap _ _ _ _ Hfl) as Hf. rewrite Forall_forall in *. intros x Hx E.
    apply (apart_ne (bp, n) x); [apply Hb|apply (Hf x Hx)|by apply Hap|done]. }
  destruct (free_search_run s fl al bp H ltac:(apply Hb) Hne) as (t1 & k & sk & f2 & E & Hlt & Hgt & Hs).
  pose proof (ordered_around _ _ _ _ (eq_ind _ (ordered (base - 1)) (ring_ordered _ _ _ H) _ E)) as [Hk1 Hk2]. cbn [fst] in Hk1, Hk2.
  pose proof (ring_mapped _ _ _ H) as Hm. rewrite E in Hm. apply Forall_app in Hm as [_ [Hmk Hmf]%Forall_cons].
  pose proof (ho_chain _ _ _ H) as Hc. change ((base, 0) :: fl) with (ring fl) in Hc. rewrite E in Hc.
  pose proof Hc as [_ [Hhk Hcf]]%blocks_chain_app. destruct (ring_split _ _ _ _ _ E) as [Hkin [p Ep]].
  destruct (u_hdr s !! bp) as [[pb n']|] eqn:Hhb; [|done]. cbn in Hh. injection Hh as ->.
  apply Forall_app in Hlt as [Hlt1 [Hltk _]%Forall_cons]. cbn [fst] in Hltk.
  assert (Hsm : forall x, x ∈ fl -> 1 <= x.2 < 2 ^ 24).
  { intros x Hx. eapply in_heap_small; [exact Hle|done|]. pose proof (blocks_ok_in_heap _ _ _ _ Hfl) as Hf. rewrite Forall_forall in Hf. by apply Hf. }
  pose proof (in_heap_small _ _ Hle Hbrk Hb) as Hns. cbn [snd] in Hns.
  assert (Hf2s : Forall (fun x => 1 <= x.2 < 2 ^ 24) f2).
  { apply Forall_forall. intros x Hx. apply Hsm. rewrite Ep. apply elem_of_app. by right. }
  assert (Hsk : 0 <= sk < 2 ^ 24) by (destruct Hkin as [Ek|Hkin]; [injection Ek as -> ->; lia|specialize (Hsm _ Hkin); cbn in Hsm; lia]).
  set (r := merge_right (bp, n) f2).
  assert (Hr : n <= r.1.2 < 2 ^ 25).
  { unfold r, merge_right. destruct f2 as [|y f2]; [cbn; lia|]. apply Forall_cons in Hf2s as [? _]. destruct (_ =? _); cbn; lia. }
  pose proof (free_run s bp n pb k sk f2 Hs Hmk (in_heap_mapped _ _ Hb) Hmf Hhk Hhb Hcf ltac:(lia) ltac:(destruct Hb as (_ & Hb & _); unfold sizeof_header in *; cbn in Hb; lia)
    ltac:(lia) ltac:(eapply Forall_impl; [exact Hf2s|]; simpl; lia) ltac:(fold r; lia)) as Hrun. fold r in Hrun.
  destruct r as [x l] eqn:Er. subst r. cbn [fst snd] in *.
  assert (Hdel : delete bp al ⊆ al) by apply delete_subseteq.
  destruct (freed_blocks s (delete bp al) bp n t1 k sk f2 fl) as (fl' & E' & Hok & Ht).
  { intros a j Hj. eapply alloc_sizes; [exact H|]. by eapply lookup_weaken. }
  { done. } { by eapply blocks_ok_subset. } { done. }
  { intros a j Hj. apply lookup_delete_Some in Hj as [Hj1 Hj2]. by apply (ho_disjoint _ _ _ H). }
  { done. } { apply Forall_app. split; [done|by constructor]. } { done. }
  rewrite Er in E'. cbn [fst snd] in E'.
  pose proof (freed_chain (u_hdr s) t1 k sk f2 bp n Hc ltac:(lia)) as Hch. cbv zeta in Hch. rewrite Er in Hch. cbn [fst snd] in Hch.
  rewrite <- E' in Hch. eexists _, fl'. split; [exact Hrun|]. split; [|split; [cbn [u_hdr]; rewrite !map_size_insert_Some; [done|by eexists|rewrite lookup_insert_ne by lia; by eexists]|]].
  - split; cbn [u_hdr u_freep u_brk].
    + apply Hch.
      * rewrite Forall_forall in *. intros y Hy. specialize (Hk1 y Hy). specialize (Hlt1 y Hy). simpl in *. lia.
      * rewrite Forall_forall in *. intros y Hy. specialize (Hk2 y Hy). specialize (Hgt y Hy). simpl in *. lia.
    + change (base :: fl'.*1) with (ring fl').*1. rewrite E', !fmap_app. apply elem_of_app. right. apply elem_of_app. left.
      unfold merge_left. destruct (block_end (k, sk) =? x.1); left.
    + exact Hok.
    + eapply (delete_alloc s al bp (ho_alloc _ _ _ H) _ k); [|intros a Ha1 Ha2; by rewrite !lookup_insert_ne].
      intros a j Hj Hab ->. destruct (ho_alloc _ _ _ H _ _ Hj) as [Hja _]. destruct Hkin as [Ek|Hkin].
      * injection Ek as -> ->. destruct Hja as (_ & Hja & _). unfold sizeof_header in *. cbn in Hja. lia.
      * pose proof (blocks_ok_apart _ _ _ _ _ _ Hfl Hj) as Ha. rewrite Forall_forall in Ha.
        apply (apart_ne (k, j) (k, sk)); [apply Hja|by apply (Hsm (k, sk))|by apply Ha|done].
    + intros a j b i Ha Hi. apply (ho_disjoint _ _ _ H); by eapply lookup_weaken.
    + rewrite Ht. pose proof (ho_total _ _ _ H) as Htot. rewrite (total_map_delete al bp n Hn) in Htot. lia.
    + done.
  - assert (Hin : exists y, y ∈ ring fl' /\ n <= y.2).
    { rewrite E'. unfold merge_left. destruct (block_end (k, sk) =? x.1); [exists (k, sk + x.2)|exists x]; (split; [set_solver|cbn; lia]). }
    destruct Hin as (y & [->|Hy]%elem_of_cons & Hyn); [cbn in Hyn; lia|by exists y].
Qed.

(** ** More memory *)

Context (Hgrow : forall sz n, can_grow sz n = true -> sz + n <= maxmem).

Lemma in_heap_grow s s' x : u_brk s <= u_brk s' -> in_heap s x -> in_heap s' x.
Proof. unfold in_heap. intuition lia. Qed.

(** The new memory as a block that was handed out. *)
Lemma grown_ok s fl al nu :
  heap_ok s fl al -> 1 <= nu -> u_brk s + sizeof_header * nu <= maxmem ->
  heap_ok (mk_ust (<[u_brk s := mk_header (default 0 (h_ptr <$> u_hdr s !! u_brk s)) nu]> (u_hdr s)) (u_freep s) (u_brk s + sizeof_header * nu))
    fl (<[u_brk s := nu]> al) /\ al !! u_brk s = None.
Proof.
  intros H Hnu Hmax. set (brk := u_brk s) in *. pose proof (heap0_le _ _ _ H) as Hle. fold brk in Hle.
  pose proof (ho_blocks _ _ _ H) as Hfl. pose proof (blocks_ok_in_heap _ _ _ _ Hfl) as Hin.
  assert (Hlow : forall x, in_heap s x -> x.1 < brk).
  { intros x (H1 & H2 & H3 & _). fold brk in H3. unfold block_end, sizeof_header in *. lia. }
  assert (Hnone : al !! brk = None).
  { destruct (al !! brk) as [n|] eqn:E; [|done]. destruct (ho_alloc _ _ _ H _ _ E) as [Hx _]. specialize (Hlow _ Hx). cbn in Hlow. lia. }
  assert (Hdiv : (sizeof_header | brk - heap0)) by (unfold brk; rewrite <- (ho_total _ _ _ H); apply Z.divide_factor_l).
  assert (Hnew : forall s', u_brk s' = brk + sizeof_header * nu -> in_heap s' (brk, nu)).
  { intros s' Es. unfold in_heap. rewrite Es. unfold block_end. cbn. split_and!; [lia|lia|lia|done]. }
  assert (Hap : forall x, in_heap s x -> apart x (brk, nu)) by (intros x (_ & _ & H3 & _); by left).
  split; [|done]. split; cbn [u_hdr u_freep u_brk].
  - apply chain_insert; [|apply H]. constructor; [cbn; unfold sizeof_header in *; lia|]. eapply Forall_impl; [exact Hin|]. intros x Hx.
    specialize (Hlow x Hx). lia.
  - apply H.
  - destruct Hfl as [Ho Hfl]. split; [done|]. eapply Forall_impl; [exact Hfl|]. intros x [Hx Ha]. split.
    + eapply in_heap_grow; [|exact Hx]. cbn. fold brk. unfold sizeof_header. lia.
    + apply map_Forall_insert; [done|]. split; [|done]. destruct (Hap x Hx); [by right|by left].
  - apply map_Forall_insert; [done|]. split; [split; [by apply Hnew|by rewrite lookup_insert_eq]|].
    intros a n Ha. destruct (ho_alloc _ _ _ H a n Ha) as [H1 H2]. split; [eapply in_heap_grow; [|exact H1]; cbn; fold brk; unfold sizeof_header; lia|].
    rewrite lookup_insert_ne; [done|]. specialize (Hlow _ H1). cbn in Hlow. lia.
  - intros a n b k Ha Hb Hne. apply lookup_insert_Some in Ha, Hb.
    destruct Ha as [[<- <-]|[Ha0 Ha]], Hb as [[<- <-]|[Hb0 Hb]]; [done| | |by apply (ho_disjoint _ _ _ H)].
    + destruct (ho_alloc _ _ _ H _ _ Hb) as [Hx _]. destruct (Hap _ Hx); [by right|by left].
    + destruct (ho_alloc _ _ _ H _ _ Ha) as [Hx _]. by apply Hap.
  - rewrite total_map_insert by done. pose proof (ho_total _ _ _ H) as Ht. fold brk in Ht. unfold sizeof_header in *. lia.
  - done.
Qed.

Lemma freep_pos s fl al : heap_ok s fl al -> u_freep s <> 0.
Proof.
  intros H E. pose proof (ho_freep _ _ _ H) as Hf. rewrite E in Hf. apply elem_of_cons in Hf as [Hf|Hf]; [lia|].
  apply list_elem_of_fmap in Hf as (x & Ex & Hx). pose proof (blocks_ok_in_heap _ _ _ _ (ho_blocks _ _ _ H)) as Hin.
  rewrite Forall_forall in Hin. destruct (Hin x Hx) as (_ & H2 & _). unfold sizeof_header in *. lia.
Qed.

Lemma morecore_ok s fl al nu :
  heap_ok s fl al -> 1 <= nu < 2 ^ 27 ->
  can_grow (u_brk s) (sizeof_header * Z.max 4096 nu) = false /\ morecore base heap0 can_grow nu s = UOk 0 s \/
  exists s' fl', morecore base heap0 can_grow nu s = UOk (u_freep s') s' /\ heap_ok s' fl' al /\
    (size (u_hdr s') <= S (size (u_hdr s)))%nat /\ (exists x, x ∈ fl' /\ nu <= x.2).
Proof.
  intros H Hnu. unfold morecore. replace (if nu <? 4096 then 4096 else nu) with (Z.max 4096 nu) by (destruct (Z.ltb_spec nu 4096); lia).
  set (nu' := Z.max 4096 nu) in *. assert (Hnu' : 4096 <= nu' < 2 ^ 27 /\ nu <= nu') by lia. clearbody nu'.
  replace (i32 (nu' * sizeof_header)) with (sizeof_header * nu') by (rewrite i32_small; unfold sizeof_header; lia).
  unfold mbind, u_bind, sbrk. rewrite (proj2 (Z.ltb_lt _ _)) by (unfold sizeof_header; lia).
  destruct (can_grow (u_brk s) (sizeof_header * nu')) eqn:Eg; [|by left]. right. specialize (Hgrow _ _ Eg).
  destruct (grown_ok s fl al nu' H ltac:(lia) Hgrow) as [Hok Hnone].
  destruct (free_ok _ _ _ (u_brk s) nu' Hok) as (s' & fl' & E & Hok' & Hsz & x & Hx & Hxn); [apply lookup_insert_eq|].
  rewrite delete_insert_id in Hok' by done. exists s', fl'. pose proof (heap0_le _ _ _ H) as Hle.
  rewrite set_size_run.
  - unfold set_hdr. cbn [u_hdr u_freep u_brk]. rewrite E. split_and!; [done|done| |exists x; split; [done|lia]].
    rewrite Hsz. cbn [u_hdr]. rewrite map_size_insert. destruct (u_hdr s !! u_brk s); unfold id; lia.
  - unfold u_mapped. apply orb_true_iff. right. cbn. apply andb_true_iff. split; apply Z.leb_le; unfold sizeof_header in *; lia.
Qed.

(** ** Taking a block *)

Lemma blocks_ok_insert s al lo l r n :
  blocks_ok s al lo l -> Forall (apart (r, n)) l -> blocks_ok s (<[r := n]> al) lo l.
Proof.
  intros [Ho Hl] Hr. split; [done|]. rewrite Forall_forall in *. intros x Hx. destruct (Hl x Hx) as [H1 H2]. split; [done|].
  intros a k Ha. apply lookup_insert_Some in Ha as [[<- <-]|[_ Ha]]; [by apply Hr|by apply H2].
Qed.

(** The parts of the invariant on the blocks handed out, with one more. *)
Lemma alloc_insert s (al : gmap Z Z) (m : gmap Z header) r n :
  map_Forall (fun a k => in_heap s (a, k) /\ h_size <$> u_hdr s !! a = Some k) al ->
  (forall a n b k, al !! a = Some n -> al !! b = Some k -> a <> b -> apart (a, n) (b, k)) ->
  in_heap s (r, n) -> map_Forall (fun a k => apart (a, k) (r, n)) al -> h_size <$> m !! r = Some n ->
  (forall a k, al !! a = Some k -> m !! a = u_hdr s !! a) ->
  al !! r = None /\
  map_Forall (fun a k => in_heap s (a, k) /\ h_size <$> m !! a = Some k) (<[r := n]> al) /\
  (forall a n' b k, <[r := n]> al !! a = Some n' -> <[r := n]> al !! b = Some k -> a <> b -> apart (a, n') (b, k)).
Proof.
  intros Hal Hd Hr Hap Hh Hm.
  assert (Hnone : al !! r = None).
  { destruct (al !! r) as [k|] eqn:E; [|done]. destruct (Hal _ _ E) as [[Hk _] _]. destruct Hr as [Hr _].
    by destruct (apart_ne (r, k) (r, n) Hk Hr (Hap _ _ E)). }
  split_and!; [done| |].
  - apply map_Forall_insert; [done|]. split; [done|]. intros a k Ha. destruct (Hal a k Ha). by rewrite (Hm a k Ha).
  - intros a n' b k Ha Hb Hne. apply lookup_insert_Some in Ha, Hb.
    destruct Ha as [[<- <-]|[_ Ha]], Hb as [[<- <-]|[_ Hb]]; [done| |by apply Hap|by apply Hd].
    destruct (Hap _ _ Hb); [by right|by left].
Qed.

(** Two neighbours of the list. *)
Lemma ring_neighbours fl m1 q sq y sy m2 : ring fl = m1 ++ (q, sq) :: (y, sy) :: m2 -> exists f1, fl = f1 ++ (y, sy) :: m2 /\
  forall m2', ring (f1 ++ m2') = m1 ++ (q, sq) :: m2'.
Proof.
  destruct m1 as [|z m1]; intros E; injection E as Ez E.
  - subst. by exists [].
  - subst. exists (m1 ++ [(q, sq)]). split; [by rewrite <- app_assoc|]. intros m2'. by rewrite <- app_assoc.
Qed.

Lemma alloc_not_ring s fl al x a k : heap_ok s fl al -> x ∈ ring fl -> al !! a = Some k -> a <> x.1.
Proof.
  intros H Hx Ha E. destruct (ho_alloc _ _ _ H _ _ Ha) as [Hi _]. apply elem_of_cons in Hx as [->|Hx].
  - destruct Hi as (_ & Hi & _). unfold sizeof_header in *. cbn in *. lia.
  - pose proof (blocks_ok_apart _ _ _ _ _ _ (ho_blocks _ _ _ H) Ha) as Hap. pose proof (blocks_ok_in_heap _ _ _ _ (ho_blocks _ _ _ H)) as Hih.
    rewrite Forall_forall in Hap, Hih. apply (apart_ne (a, k) x); [apply Hi|apply (Hih _ Hx)|by apply Hap|done].
Qed.

Lemma take_all s fl al m1 q sq y n m2 :
  heap_ok s fl al -> ring fl = m1 ++ (q, sq) :: (y, n) :: m2 ->
  exists s' fl', malloc_take base heap0 n q y (mk_header (first_addr m2 base) n) s = UOk (y + sizeof_header) s' /\
    heap_ok s' fl' (<[y := n]> al) /\ al !! y = None.
Proof.
  intros H E. pose proof (ring_mapped _ _ _ H) as Hm. rewrite E in Hm. apply Forall_app in Hm as [_ [Hmq _]%Forall_cons].
  pose proof (ho_chain _ _ _ H) as Hc. change ((base, 0) :: fl) with (ring fl) in Hc. rewrite E in Hc.
  apply blocks_chain_app in Hc as [Hc1 (Hq & Hy & Hc2)]. cbn [fst snd first_addr] in *.
  pose proof (ordered_around _ _ _ _ (eq_ind _ (ordered (base - 1)) (ring_ordered _ _ _ H) _ E)) as [Hk1 Hk2]. cbn [fst] in Hk1, Hk2.
  destruct (ring_neighbours _ _ _ _ _ _ _ E) as (f1 & Ef & Ering). pose proof (ho_blocks _ _ _ H) as Hfl. rewrite Ef in Hfl.
  apply blocks_ok_app in Hfl as [Hf1 (Hly & Hiy & Hay & Hm2)%blocks_ok_cons]. cbn [fst] in Hly.
  unfold malloc_take. cbn [h_size h_ptr]. rewrite Z.eqb_refl. unfold mbind, u_bind. rewrite set_ptr_run by done.
  unfold set_hdr. rewrite Hq. cbn. eexists _, (f1 ++ m2). split; [reflexivity|].
  assert (Hyq : q < y) by (apply Forall_cons in Hk2 as [? _]; simpl in *; lia).
  assert (Hqa : forall a k, al !! a = Some k -> a <> q).
  { intros a k Ha. apply (alloc_not_ring s fl al (q, sq) a k H); [|done]. rewrite E. set_solver. }
  destruct (alloc_insert s al (<[q := mk_header (first_addr m2 base) sq]> (u_hdr s)) y n) as (Hnone & Hal & Hdis);
    [apply H|apply H|done|done|rewrite lookup_insert_ne by lia; by rewrite Hy|intros a k Ha; apply lookup_insert_ne; by apply not_eq_sym, (Hqa a k)|].
  split; [|done]. split; cbn [u_hdr u_freep u_brk]; [| | |exact Hal|exact Hdis| |apply H].
  - rewrite Ering. apply blocks_chain_app. split; [apply chain_insert; [eapply Forall_impl; [exact Hk1|]; simpl; lia|done]|]. cbn [chain fst snd].
    rewrite lookup_insert_eq. split; [done|]. apply chain_insert; [|done]. apply Forall_cons in Hk2 as [_ Hk2].
    eapply Forall_impl; [exact Hk2|]. simpl. lia.
  - change (base :: (f1 ++ m2).*1) with (ring (f1 ++ m2)).*1. rewrite Ering, fmap_app. apply elem_of_app. right. left.
  - apply blocks_ok_insert.
    + apply blocks_ok_app. split; [done|]. destruct Hm2 as [Ho Hm2]. split; [|done]. eapply ordered_weaken; [|exact Ho].
      destruct Hiy as [? _]. unfold block_end, sizeof_header in *. cbn in *. lia.
    + apply Forall_app. split.
      * destruct Hf1 as [Ho _]. eapply Forall_impl; [by apply ordered_below|]. intros x [_ Hx]. right. cbn. lia.
      * destruct Hm2 as [Ho _]. eapply Forall_impl; [by apply ordered_above|]. intros x Hx. left. by apply Z.lt_le_incl.
  - pose proof (ho_total _ _ _ H) as Ht. rewrite Ef in Ht. rewrite total_map_insert by done. rewrite !total_app in *.
    unfold total in *. simpl in *. lia.
Qed.

Lemma take_end s fl al m1 q sq y sy n m2 :
  heap_ok s fl al -> ring fl = m1 ++ (q, sq) :: (y, sy) :: m2 -> 1 <= n < sy ->
  exists s' fl', malloc_take base heap0 n q y (mk_header (first_addr m2 base) sy) s = UOk (y + sizeof_header * (sy - n) + sizeof_header) s' /\
    heap_ok s' fl' (<[y + sizeof_header * (sy - n) := n]> al) /\ al !! (y + sizeof_header * (sy - n)) = None.
Proof.
  intros H E Hn. pose proof (ho_chain _ _ _ H) as Hc. change ((base, 0) :: fl) with (ring fl) in Hc. rewrite E in Hc.
  apply blocks_chain_app in Hc as [Hc1 (Hq & Hy & Hc2)]. cbn [fst snd first_addr] in *.
  pose proof (ring_ordered _ _ _ H) as Ho. rewrite E in Ho.
  assert (Ey : ring fl = (m1 ++ [(q, sq)]) ++ (y, sy) :: m2) by (by rewrite <- app_assoc).
  pose proof (ordered_around _ _ _ _ (eq_ind _ (ordered (base - 1)) (ring_ordered _ _ _ H) _ Ey)) as [Hk1 Hk2]. cbn [fst] in Hk1, Hk2.
  destruct (ring_neighbours _ _ _ _ _ _ _ E) as (f1 & Ef & Ering). pose proof (ho_blocks _ _ _ H) as Hfl. rewrite Ef in Hfl.
  apply blocks_ok_app in Hfl as [Hf1 (Hly & Hiy & Hay & Hm2)%blocks_ok_cons]. cbn [fst] in Hly.
  set (d := sy - n) in *. set (r := y + sizeof_header * d).
  assert (Hr : y < r /\ block_end (r, n) = block_end (y, sy) /\ block_end (y, d) = r /\ r < block_end (r, n)).
  { unfold r, d, block_end, sizeof_header. cbn [fst snd]. lia. } destruct Hr as (Hyr & Her & Hed & Hrn).
  assert (Hin : forall k b, 1 <= k -> y <= b -> block_end (b, k) <= block_end (y, sy) -> (sizeof_header | b - y) -> in_heap s (b, k)).
  { intros k b Hk Hb Hbe Hdv. destruct Hiy as (_ & H2 & H3 & H4). cbn [fst] in *. unfold in_heap. cbn [fst snd]. split_and!; [done|lia|lia|].
    replace (b - heap0) with ((b - y) + (y - heap0)) by lia. by apply Z.divide_add_r. }
  assert (Hiyd : in_heap s (y, d)) by (apply Hin; [lia|lia|lia|rewrite Z.sub_diag; apply Z.divide_0_r]).
  assert (Hir : in_heap s (r, n)).
  { apply Hin; [lia|lia|lia|]. replace (r - y) with (sizeof_header * d) by (unfold r; lia). apply Z.divide_factor_l. }
  unfold malloc_take. cbn [h_size h_ptr]. rewrite (proj2 (Z.eqb_neq _ _)) by lia. cbv zeta. fold d. fold r.
  unfold mbind, u_bind. rewrite set_size_run by (by apply (in_heap_mapped _ _ Hiy)).
  rewrite set_size_run by (by apply (in_heap_mapped _ _ Hir)). unfold set_hdr. cbn. rewrite Hy. cbn. eexists _, (f1 ++ (y, d) :: m2). split; [reflexivity|].
  set (m := <[r := _]> (<[y := _]> (u_hdr s))). assert (Hm : forall a, a <> r -> a <> y -> m !! a = u_hdr s !! a).
  { intros a H1 H2. unfold m. by rewrite !lookup_insert_ne. }
  assert (Hrr : forall a k, al !! a = Some k -> apart (a, k) (r, n) /\ apart (a, k) (y, d)).
  { intros a k Ha. specialize (Hay a k Ha). destruct Hiyd as [Hd _]. cbn in Hd. unfold apart in *. cbn [fst] in *. lia. }
  destruct (alloc_insert s al m r n) as (Hnone & Hal & Hdis); [apply H|apply H|done| |unfold m; by rewrite lookup_insert_eq| |].
  { intros a k Ha. by apply Hrr. }
  { intros a k Ha. apply Hm.
    - intros ->. destruct (ho_alloc _ _ _ H _ _ Ha) as [[Hx _] _]. destruct (apart_ne (r, k) (r, n)); [done|simpl; lia|by apply Hrr|done].
    - apply (alloc_not_ring s fl al (y, sy) a k H); [|done]. rewrite E. set_solver. }
  assert (Hrm2 : Forall (fun x => x.1 <> r /\ x.1 <> y) m2).
  { eapply Forall_impl; [exact Hk2|]. intros x [_ Hx]. cbn [snd fst] in Hx. unfold block_end, sizeof_header in *. cbn [fst snd] in *. lia. }
  assert (Hrm1 : Forall (fun x => x.1 <> r /\ x.1 <> y) (m1 ++ [(q, sq)])).
  { eapply Forall_impl; [exact Hk1|]. intros x Hx. simpl in Hx. lia. }
  assert (Hchain : forall l e, Forall (fun x => x.1 <> r /\ x.1 <> y) l -> chain (u_hdr s) l e -> chain m l e).
  { intros l e Hl Hcl. unfold m. apply chain_insert; [|apply chain_insert; [|done]]; (eapply Forall_impl; [exact Hl|]); simpl; tauto. }
  split; [|done]. split; cbn [u_hdr u_freep u_brk]; [| | |exact Hal|exact Hdis| |apply H].
  - rewrite Ering. change ((q, sq) :: (y, d) :: m2) with ([(q, sq)] ++ (y, d) :: m2). rewrite app_assoc. apply blocks_chain_app. split.
    + apply Hchain; [done|]. apply blocks_chain_app. split; [done|]. by split.
    + cbn [chain fst snd]. split; [|by apply Hchain]. unfold m. rewrite lookup_insert_ne by lia. by rewrite lookup_insert_eq.
  - change (base :: (f1 ++ (y, d) :: m2).*1) with (ring (f1 ++ (y, d) :: m2)).*1. rewrite Ering, fmap_app. apply elem_of_app. right. left.
  - apply blocks_ok_insert.
    + apply blocks_ok_app. split; [done|]. apply blocks_ok_cons. split_and!; [done|done| |].
      * intros a k Ha. by apply Hrr.
      * destruct Hm2 as [Ho2 Hm2]. split; [|done]. eapply ordered_weaken; [|exact Ho2]. rewrite Hed, <- Her. unfold block_end, sizeof_header. cbn [fst snd]. lia.
    + apply Forall_app. split; [|constructor].
      * destruct Hf1 as [Ho1 _]. eapply Forall_impl; [by apply ordered_below|]. intros x [_ Hx]. right. cbn [fst]. lia.
      * right. cbn [fst]. lia.
      * destruct Hm2 as [Ho2 _]. eapply Forall_impl; [by apply ordered_above|]. intros x Hx. left. rewrite Her. by apply Z.lt_le_incl.
  - pose proof (ho_total _ _ _ H) as Ht. rewrite Ef in Ht. rewrite total_map_insert by done. rewrite !total_app in *.
    unfold total, d in *. simpl in *. lia.
Qed.

(** ** malloc *)

(** The list from the header after [f] on, back to [f]. *)
Lemma rotate s fl al : heap_ok s fl al -> exists sf Q pf,
  chain (u_hdr s) ((u_freep s, sf) :: Q) (u_freep s) /\ u_hdr s !! u_freep s = Some (mk_header pf sf) /\
  Forall (fun x => x.1 <> u_freep s) Q /\ (forall x, x ∈ ring fl <-> x ∈ (u_freep s, sf) :: Q) /\ length (ring fl) = S (length Q).
Proof.
  intros H. pose proof (ho_freep _ _ _ H) as Hf. change (base :: fl.*1) with (ring fl).*1 in Hf.
  apply list_elem_of_fmap in Hf as ([f sf] & Ef & Hin). cbn in Ef. rewrite Ef. apply list_elem_of_split in Hin as (l1 & l2 & E).
  pose proof (ho_chain _ _ _ H) as Hc. change ((base, 0) :: fl) with (ring fl) in Hc. rewrite E in Hc.
  pose proof (ordered_around _ _ _ _ (eq_ind _ (ordered (base - 1)) (ring_ordered _ _ _ H) _ E)) as [Hk1 Hk2]. cbn [fst] in Hk1, Hk2.
  apply blocks_chain_app in Hc as [Hc1 [Hh Hc2]]. cbn [fst snd first_addr] in *.
  assert (Eb : first_addr l1 f = base) by (destruct l1 as [|z l1]; injection E as ? ?; subst; done).
  assert (El : first_addr (l2 ++ l1) f = first_addr l2 base) by (destruct l2; [exact Eb|done]).
  exists sf, (l2 ++ l1), (first_addr l2 base). split_and!.
  - cbn [chain fst snd]. rewrite El. split; [done|]. apply blocks_chain_app. by rewrite Eb.
  - done.
  - apply Forall_app. split; [eapply Forall_impl; [exact Hk2|]; simpl; lia|eapply Forall_impl; [exact Hk1|]; simpl; lia].
  - intros x. rewrite E. rewrite !elem_of_app, !elem_of_cons, elem_of_app. tauto.
  - rewrite E, !length_app. cbn [length]. lia.
Qed.

Lemma malloc_loop_S fuel n prevp p s h :
  u_mapped base heap0 s p = true -> u_hdr s !! p = Some h ->
  malloc_loop base heap0 can_grow (S fuel) n prevp p s =
  if n <=? h_size h then malloc_take base heap0 n prevp p h s
  else if p =? u_freep s then
    (p ← morecore base heap0 can_grow n;
     if p =? 0 then mret 0 else h ← get_hdr base heap0 p; malloc_loop base heap0 can_grow fuel n p (h_ptr h)) s
  else malloc_loop base heap0 can_grow fuel n p (h_ptr h) s.
Proof.
  intros H1 H2. cbn [malloc_loop]. rewrite (u_bind_run _ _ _ _ _ (get_hdr_run _ _ _ H1 H2)), Z.geb_leb.
  destruct (n <=? h_size h); [done|]. rewrite (u_bind_run _ _ _ _ _ (eq_refl : get_freep s = UOk (u_freep s) s)).
  by destruct (p =? u_freep s).
Qed.

(** The walk finds the first block that is large enough, or comes back to where
    it started. *)
Lemma malloc_scan s n f sf pf Q : forall q sq fuel,
  chain (u_hdr s) ((q, sq) :: Q) f -> f = u_freep s -> u_hdr s !! f = Some (mk_header pf sf) ->
  Forall (fun x => u_mapped base heap0 s x.1 = true) ((f, sf) :: Q) -> Forall (fun x => x.1 <> f) Q ->
  (exists q' sq' y h, (q', sq') ∈ (q, sq) :: Q /\ y ∈ Q ++ [(f, sf)] /\ u_hdr s !! q' = Some (mk_header y.1 sq') /\
     u_hdr s !! y.1 = Some h /\ h_size h = y.2 /\ n <= y.2 /\
     malloc_loop base heap0 can_grow (S (length Q) + fuel) n q (first_addr Q f) s = malloc_take base heap0 n q' y.1 h s) \/
  (Forall (fun x => x.2 < n) (Q ++ [(f, sf)]) /\
   malloc_loop base heap0 can_grow (S (length Q) + fuel) n q (first_addr Q f) s =
   (p ← morecore base heap0 can_grow n;
    if p =? 0 then mret 0 else h ← get_hdr base heap0 p; malloc_loop base heap0 can_grow fuel n p (h_ptr h)) s).
Proof.
  induction Q as [|x Q IH]; intros q sq fuel Hc Ef Hf Hm Hne; destruct Hc as [Hq Hc]; cbn [fst snd first_addr length] in *; rewrite Nat.add_succ_l.
  - apply Forall_cons in Hm as [Hm _]. rewrite (malloc_loop_S _ _ _ _ _ _ Hm Hf). cbn [h_size].
    destruct (Z.leb_spec n sf) as [Hle|Hgt].
    + left. exists q, sq, (f, sf), (mk_header pf sf). split_and!; try done; set_solver.
    + right. rewrite <- Ef, Z.eqb_refl. split; [by constructor|done].
  - destruct Hc as [Hx Hc]. apply Forall_cons in Hm as [Hmf Hm]. apply Forall_cons in Hm as [Hmx Hm]. apply Forall_cons in Hne as [Hnx Hne].
    rewrite (malloc_loop_S _ _ _ _ _ _ Hmx Hx). cbn [h_size h_ptr].
    destruct (Z.leb_spec n x.2) as [Hle|Hgt].
    + left. eexists q, sq, x, _. split_and!; [left| |exact Hq|exact Hx|done|done|done]. left.
    + rewrite <- Ef, (proj2 (Z.eqb_neq _ _)) by done. destruct x as [x1 x2]. cbn [fst snd] in *.
      destruct (IH x1 x2 fuel) as [(q' & sq' & y & h & H1 & H2 & H3 & H4 & H5 & H6 & H7)|[H1 H2]]; try done; [by constructor| |].
      * left. exists q', sq', y, h. split_and!; try done; [by right|by right].
      * right. split; [by constructor|done].
Qed.

Lemma neighbours_of_ptr s fl al q sq y h :
  heap_ok s fl al -> (q, sq) ∈ ring fl -> y ∈ ring fl -> u_hdr s !! q = Some (mk_header y.1 sq) -> u_hdr s !! y.1 = Some h -> 1 <= y.2 ->
  exists m1 m2, ring fl = m1 ++ (q, sq) :: y :: m2 /\ h = mk_header (first_addr m2 base) y.2.
Proof.
  intros H Hq Hy Hhq Hhy Hy1. apply list_elem_of_split in Hq as (m1 & b & E).
  pose proof (ho_chain _ _ _ H) as Hc. change ((base, 0) :: fl) with (ring fl) in Hc.
  destruct (blocks_chain_lookup _ _ _ _ Hc Hy) as [py Hpy]. rewrite Hhy in Hpy. injection Hpy as ->.
  assert (Hne : y.1 <> base).
  { apply elem_of_cons in Hy as [->|Hy]; [done|]. pose proof (blocks_ok_in_heap _ _ _ _ (ho_blocks _ _ _ H)) as Hin.
    rewrite Forall_forall in Hin. destruct (Hin y Hy) as (_ & H2 & _). unfold sizeof_header in *. lia. }
  rewrite E in Hc. apply blocks_chain_app in Hc as [_ [Hq Hc]]. cbn [fst snd] in Hq. rewrite Hhq in Hq. injection Hq as Ey.
  destruct b as [|z m2]; [done|]. cbn [first_addr] in Ey. destruct Hc as [Hz _]. rewrite <- Ey, Hhy in Hz. injection Hz as -> Ez.
  exists m1, m2. destruct y as [y1 y2], z as [z1 z2]. cbn [fst snd] in *. by subst.
Qed.

Lemma found_ok s fl al n q sq y h :
  heap_ok s fl al -> (q, sq) ∈ ring fl -> y ∈ ring fl -> u_hdr s !! q = Some (mk_header y.1 sq) -> u_hdr s !! y.1 = Some h ->
  1 <= n <= y.2 ->
  exists r s' fl', malloc_take base heap0 n q y.1 h s = UOk (r + sizeof_header) s' /\ heap_ok s' fl' (<[r := n]> al) /\ al !! r = None.
Proof.
  intros H Hq Hy Hhq Hhy Hn. destruct (neighbours_of_ptr _ _ _ _ _ _ _ H Hq Hy Hhq Hhy ltac:(lia)) as (m1 & m2 & E & ->).
  destruct y as [y sy]. cbn [fst snd] in *. destruct (Z.eq_dec n sy) as [->|Hne].
  - destruct (take_all s fl al m1 q sq y sy m2 H E) as (s' & fl' & H1 & H2 & H3). by exists y, s', fl'.
  - destruct (take_end s fl al m1 q sq y sy n m2 H E ltac:(lia)) as (s' & fl' & H1 & H2 & H3). by eexists _, s', fl'.
Qed.

Lemma ring_size s fl al : heap_ok s fl al -> (length (ring fl) <= size (u_hdr s))%nat.
Proof. intros H. eapply chain_size; [eapply ordered_NoDup, ring_ordered, H|apply (ho_chain _ _ _ H)]. Qed.

(** One walk from [freep]. *)
Lemma malloc_walk s fl al n fuel :
  heap_ok s fl al -> 1 <= n -> (length (ring fl) <= fuel)%nat -> exists h, get_hdr base heap0 (u_freep s) s = UOk h s /\
  ((exists r s' fl', malloc_loop base heap0 can_grow fuel n (u_freep s) (h_ptr h) s = UOk (r + sizeof_header) s' /\
      heap_ok s' fl' (<[r := n]> al) /\ al !! r = None) \/
   Forall (fun x => x.2 < n) (ring fl) /\
   malloc_loop base heap0 can_grow fuel n (u_freep s) (h_ptr h) s =
   (p ← morecore base heap0 can_grow n;
    if p =? 0 then mret 0
    else h ← get_hdr base heap0 p; malloc_loop base heap0 can_grow (fuel - length (ring fl)) n p (h_ptr h)) s).
Proof.
  intros H Hn Hf. destruct (rotate s fl al H) as (sf & Q & pf & Hc & Hh & Hne & Hin & Hlen).
  pose proof (ring_mapped _ _ _ H) as Hm. rewrite Forall_forall in Hm.
  assert (Hm' : Forall (fun x => u_mapped base heap0 s x.1 = true) ((u_freep s, sf) :: Q)) by (apply Forall_forall; intros x Hx; apply Hm, Hin, Hx).
  pose proof Hm' as [Hmf _]%Forall_cons. pose proof Hc as [Hh2 _]. cbn [fst snd] in Hh2. rewrite Hh in Hh2. injection Hh2 as ->.
  eexists. split; [by apply get_hdr_run|]. cbn [h_ptr].
  destruct (malloc_scan s n (u_freep s) sf (first_addr Q (u_freep s)) Q (u_freep s) sf (fuel - length (ring fl)) Hc eq_refl Hh Hm' Hne)
    as [(q' & sq' & y & h & H1 & H2 & H3 & H4 & H5 & H6 & H7)|[H1 H2]];
    replace (S (length Q) + (fuel - length (ring fl)))%nat with fuel in * by lia.
  - left. rewrite H7. eapply (found_ok s fl al n q' sq' y h H); [by apply Hin|apply Hin; set_solver|done|done|lia].
  - right. split; [|done]. apply Forall_forall. intros x Hx%Hin. rewrite Forall_forall in H1. apply H1. set_solver.
Qed.

Lemma malloc_ok s fl al n :
  heap_ok s fl al -> 1 <= n < 2 ^ 27 -> exists h, get_hdr base heap0 (u_freep s) s = UOk h s /\
  ((exists r s' fl', malloc_loop base heap0 can_grow (2 * list_fuel s + 2) n (u_freep s) (h_ptr h) s = UOk (r + sizeof_header) s' /\
      heap_ok s' fl' (<[r := n]> al) /\ al !! r = None) \/
   can_grow (u_brk s) (sizeof_header * Z.max 4096 n) = false /\
   malloc_loop base heap0 can_grow (2 * list_fuel s + 2) n (u_freep s) (h_ptr h) s = UOk 0 s).
Proof.
  intros H Hn. pose proof (ring_size _ _ _ H) as Hsz.
  destruct (malloc_walk s fl al n (2 * list_fuel s + 2) H ltac:(lia) ltac:(unfold list_fuel; lia)) as (h & Hh & [Hfound|[_ E]]);
    exists h; (split; [done|]); [by left|]. rewrite E.
  destruct (morecore_ok s fl al n H Hn) as [[Hg Em]|(s' & fl' & Em & H' & Hsz' & x & Hx & Hxn)]; [right|left].
  - split; [done|]. by rewrite (u_bind_run _ _ _ _ _ Em).
  - rewrite (u_bind_run _ _ _ _ _ Em), (proj2 (Z.eqb_neq _ _) (freep_pos _ _ _ H')).
    pose proof (ring_size _ _ _ H') as Hsz2.
    destruct (malloc_walk s' fl' al n (2 * list_fuel s + 2 - length (ring fl)) H' ltac:(lia) ltac:(unfold list_fuel; lia)) as (h' & Hh' & [Hfound|[Hall _]]).
    + by rewrite (u_bind_run _ _ _ _ _ Hh').
    + exfalso. rewrite Forall_forall in Hall. specialize (Hall x). cbn in Hall. assert (x ∈ ring fl') by (by right). specialize (Hall H0). lia.
Qed.

(** ** The contract *)

(** The allocator before its first use, or with the blocks [al] handed out. *)
Definition allocator (s : ust) (al : gmap Z Z) : Prop :=
  u_freep s = 0 /\ al = ∅ /\ u_brk s = heap0 /\ heap0 <= maxmem \/ exists fl, heap_ok s fl al.

Lemma units_spec n : 0 <= n < 2 ^ 31 - 32 -> 1 <= units n < 2 ^ 27 /\ n <= sizeof_header * (units n - 1).
Proof.
  intros Hn. unfold units, sizeof_header. rewrite (u64_small (n + 16 - 1)) by (split; lia).
  assert (H : 0 <= (n + 16 - 1) / 16 < 2 ^ 27 - 1 /\ n <= 16 * ((n + 16 - 1) / 16)).
  { pose proof (Z.div_mod (n + 16 - 1) 16 ltac:(lia)). pose proof (Z.mod_pos_bound (n + 16 - 1) 16 ltac:(lia)). lia. }
  rewrite u32_small by (split; lia). lia.
Qed.

Lemma start_ok s : u_freep s = 0 -> u_brk s = heap0 -> heap0 <= maxmem ->
  exists s', (f ← get_freep; if f =? 0 then _ ← set_ptr base heap0 base base; _ ← set_freep base; _ ← set_size base heap0 base 0; mret base else mret f) s = UOk base s' /\
    heap_ok s' [] ∅ /\ u_freep s' = base /\ u_brk s' = heap0.
Proof.
  intros Hf Hb Hm. unfold mbind, u_bind, get_freep. rewrite Hf. cbn [Z.eqb]. rewrite set_ptr_run by apply base_mapped. cbn [set_freep].
  unfold set_freep. rewrite set_size_run by apply base_mapped. eexists. split; [reflexivity|]. split; [|done].
  split; cbn; [|left| |apply map_Forall_empty|done| |by rewrite Hb].
  - by rewrite !lookup_insert_eq.
  - by split.
  - rewrite Hb. unfold total_map. rewrite map_fold_empty. lia.
Qed.

Lemma malloc_run s al n : allocator s al -> exists s1 fl h, heap_ok s1 fl al /\ u_brk s1 = u_brk s /\
  get_hdr base heap0 (u_freep s1) s1 = UOk h s1 /\
  malloc base heap0 can_grow n s = malloc_loop base heap0 can_grow (2 * list_fuel s1 + 2) (units n) (u_freep s1) (h_ptr h) s1.
Proof.
  intros [(Hf & -> & Hb & Hm)|[fl H]].
  - destruct (start_ok s Hf Hb Hm) as (s1 & E & H & Hf1 & Hb1).
    destruct (malloc_ok s1 [] ∅ 1 H ltac:(lia)) as (h & Hh & _). exists s1, [], h. split_and!; [done|lia|done|].
    unfold malloc. unfold mbind, u_bind, get_freep in E |- *. rewrite Hf1 in Hh |- *. unfold mbind in Hh.
    destruct (if u_freep s =? 0 then _ else _) as [a s2| |]; [|done|done]. injection E as -> ->. by rewrite Hh.
  - destruct (malloc_ok s fl al 1 H ltac:(lia)) as (h & Hh & _). exists s, fl, h. split_and!; [done|done|done|].
    unfold malloc. rewrite (u_bind_run _ _ _ _ _ (eq_refl : get_freep s = UOk (u_freep s) s)), (proj2 (Z.eqb_neq _ _) (freep_pos _ _ _ H)).
    rewrite (u_bind_run _ _ _ (u_freep s) s) by done. by rewrite (u_bind_run _ _ _ _ _ Hh).
Qed.

Lemma malloc_spec s al nbytes :
  allocator s al -> 0 <= nbytes < 2 ^ 31 - 32 ->
  (exists a s', malloc base heap0 can_grow nbytes s = UOk (a + sizeof_header) s' /\
     allocator s' (<[a := units nbytes]> al) /\ al !! a = None /\ nbytes <= sizeof_header * (units nbytes - 1) /\
     heap0 <= a /\ block_end (a, units nbytes) <= u_brk s' /\ (sizeof_header | a - heap0) /\
     forall b n, al !! b = Some n -> apart (a, units nbytes) (b, n)) \/
  (exists s', malloc base heap0 can_grow nbytes s = UOk 0 s' /\ allocator s' al /\
     can_grow (u_brk s) (sizeof_header * Z.max 4096 (units nbytes)) = false).
Proof.
  intros Ha Hn. destruct (units_spec nbytes Hn) as [Hu Hb]. destruct (malloc_run s al nbytes Ha) as (s1 & fl & h & H & Hbrk & Hh & ->).
  destruct (malloc_ok s1 fl al (units nbytes) H Hu) as (h' & Hh' & [(a & s' & fl' & E & H' & Hnone)|[Hg E]]);
    rewrite Hh in Hh'; injection Hh' as <-.
  - left. exists a, s'. destruct (ho_alloc _ _ _ H' a (units nbytes) ltac:(apply lookup_insert_eq)) as [(_ & H1 & H2 & H3) _].
    split_and!; [done|right; by exists fl'|done|done|done|done|done|].
    intros b n Hbn. apply (ho_disjoint _ _ _ H'); [apply lookup_insert_eq| |congruence]. rewrite lookup_insert_ne by congruence. done.
  - right. exists s1. split_and!; [done|right; by exists fl|by rewrite <- Hbrk].
Qed.

(** C28: malloc of up to 2^31 - 33 bytes terminates. It returns a block that has
    at least the bytes asked for after its header, lies in the heap, is aligned
    like the heap and shares no byte with a block handed out before; or it
    returns 0, when the kernel gives no more memory, and hands nothing out. *)
Theorem malloc_correct s al nbytes :
  allocator s al -> 0 <= nbytes < 2 ^ 31 - 32 ->
  (exists a s', malloc base heap0 can_grow nbytes s = UOk (a + sizeof_header) s' /\
     allocator s' (<[a := units nbytes]> al) /\ al !! a = None /\ nbytes <= sizeof_header * (units nbytes - 1) /\
     heap0 <= a /\ block_end (a, units nbytes) <= u_brk s' /\ (sizeof_header | a - heap0) /\
     forall b n, al !! b = Some n -> apart (a, units nbytes) (b, n)) \/
  (exists s', malloc base heap0 can_grow nbytes s = UOk 0 s' /\ allocator s' al /\
     can_grow (u_brk s) (sizeof_header * Z.max 4096 (units nbytes)) = false).
Proof. apply malloc_spec. Qed.

(** C29: free of a block that was handed out terminates and takes it back; the
    other blocks stay handed out and untouched. *)
Theorem free_correct s al a n :
  allocator s al -> al !! a = Some n ->
  exists s', free base heap0 (a + sizeof_header) s = UOk tt s' /\ allocator s' (delete a al) /\
    forall b k, delete a al !! b = Some k -> h_size <$> u_hdr s' !! b = Some k.
Proof.
  intros [(_ & -> & _)|[fl H]] Hn; [done|]. destruct (free_ok s fl al a n H Hn) as (s' & fl' & E & H' & _).
  exists s'. split_and!; [done|right; by exists fl'|]. intros b k Hb. by destruct (ho_alloc _ _ _ H' b k Hb).
Qed.

Lemma last_end_bound lo l hi : lo <= hi -> Forall (fun x => block_end x <= hi) l -> last_end lo l <= hi.
Proof. intros Hlo Hl. revert lo Hlo. induction Hl as [|x l Hx Hl IH]; intros lo Hlo; [done|]. by apply IH. Qed.

(** Blocks that do not touch cannot fill the space between [lo] and [hi] unless
    there is only one. *)
Lemma ordered_gap lo l hi : ordered lo l -> last_end lo l <= hi -> l <> [] -> sizeof_header * total l < hi - lo.
Proof.
  revert lo. induction l as [|x l IH]; intros lo Hord Hhi Hne; [done|]. destruct Hord as (H1 & H2 & Ho). unfold total in *. cbn [foldr last_end] in *.
  destruct l as [|y l].
  - unfold block_end, sizeof_header in *. simpl in *. lia.
  - specialize (IH _ Ho Hhi ltac:(done)). unfold block_end, sizeof_header in *. lia.
Qed.

(** When everything that was handed out has been freed, the free list is a
    single block, all of the heap: adjacent free blocks have always been joined. *)
Theorem all_freed s fl :
  heap_ok s fl ∅ -> u_brk s <> heap0 -> fl = [(heap0, (u_brk s - heap0) / sizeof_header)].
Proof.
  intros H Hne. pose proof (ho_total _ _ _ H) as Ht. unfold total_map in Ht. rewrite map_fold_empty, Z.add_0_r in Ht.
  destruct (ho_blocks _ _ _ H) as [Ho Hin]. destruct fl as [|[a n] fl]; [unfold total in Ht; simpl in Ht; lia|].
  apply Forall_cons in Hin as [[(Hn & Ha & He & _) _] Hin]. destruct Ho as (_ & _ & Ho). cbn [fst snd] in *.
  destruct fl as [|y fl].
  - unfold total, block_end in *. cbn [foldr fst snd] in *. rewrite <- Ht, Z.mul_comm, Z.div_mul by done.
    unfold sizeof_header in *. f_equal. f_equal; lia.
  - exfalso. assert (Hend : last_end (block_end (a, n)) (y :: fl) <= u_brk s).
    { apply last_end_bound; [done|]. eapply Forall_impl; [exact Hin|]. by intros x [(_ & _ & ? & _) _]. }
    pose proof (ordered_gap _ _ _ Ho Hend ltac:(done)) as Hg. unfold total, block_end, sizeof_header in *. cbn [foldr fst snd] in *. lia.
Qed.
End heap.

(** ** Examples *)

(** A program of four pages, and a kernel that gives what the machine has. *)
Definition ex_grow (sz n : Z) : bool := sz + n <=? maxmem.
Definition ex_ust : ust := mk_ust ∅ 0 16384.

Lemma ex_grow_ok sz n : ex_grow sz n = true -> sz + n <= maxmem.
Proof. apply Z.leb_le. Qed.

Lemma ex_allocator : allocator 4096 16384 ex_ust ∅.
Proof. left. split_and!; [done|done|done|]. unfold maxmem, PHYSTOP, KERNBASE. lia. Qed.

Lemma malloc_correct_witness : exists a s', malloc 4096 16384 ex_grow 100 ex_ust = UOk (a + sizeof_header) s' /\
  allocator 4096 16384 s' {[a := 8]}.
Proof.
  destruct (malloc_correct 4096 16384 ex_grow ltac:(lia) ltac:(unfold sizeof_header; lia) ex_grow_ok ex_ust ∅ 100 ex_allocator ltac:(lia))
    as [(a & s' & H1 & H2 & _)|(s' & _ & _ & H)].
  - exists a, s'. split; [exact H1|]. exact H2.
  - discriminate H.
Defined.

Lemma free_correct_witness : exists a s1 s2, malloc 4096 16384 ex_grow 100 ex_ust = UOk (a + sizeof_header) s1 /\
  free 4096 16384 (a + sizeof_header) s1 = UOk tt s2 /\ allocator 4096 16384 s2 (delete a {[a := 8]}).
Proof.
  destruct (malloc_spec 4096 16384 ex_grow ltac:(lia) ltac:(unfold sizeof_header; lia) ex_grow_ok ex_ust ∅ 100 ex_allocator ltac:(lia))
    as [(a & s1 & H1 & H2 & _)|(s' & _ & _ & H)]; [|discriminate H].
  destruct (free_correct 4096 16384 ex_grow ltac:(lia) ltac:(unfold sizeof_header; lia) s1 (<[a := 8]> ∅) a 8 H2 (lookup_insert_eq _ _ _)) as (s2 & H3 & H4 & _).
  exists a, s1, s2. split; [exact H1|]. split; [exact H3|exact H4].
Defined.

(** The heap after the first page request, all of it free. *)
Definition ex_free : ust := mk_ust (<[4096 := mk_header 16384 0]> {[16384 := mk_header 4096 4096]}) 4096 81920.

Lemma ex_heap_ok : heap_ok 4096 16384 ex_free [(16384, 4096)] ∅.
Proof.
  split.
  - split; [reflexivity|]. split; [reflexivity|exact I].
  - left.
  - split; [cbn; lia|]. constructor; [|constructor]. split; [|apply map_Forall_empty].
    split_and!; [discriminate|discriminate|discriminate|apply Z.divide_0_r].
  - apply map_Forall_empty.
  - intros a n b k Ha. by rewrite lookup_empty in Ha.
  - reflexivity.
  - unfold maxmem, PHYSTOP, KERNBASE. cbn. lia.
Qed.

Lemma all_freed_witness : [(16384, 4096)] = [(16384, (u_brk ex_free - 16384) / sizeof_header)].
Proof. apply (all_freed 4096 16384 ex_free [(16384, 4096)] ex_heap_ok). discriminate. Defined.

(** The size that malloc asks of sbrk is an int: for the largest requests it
    wraps around to 16 bytes, and malloc returns a pointer to the very end of
    the memory of the process. *)
Theorem malloc_wraps :
  match malloc 4096 16384 ex_grow 4294967295 ex_ust with UOk p s' => p = 16400 /\ u_brk s' = 16400 | _ => False end.
Proof. vm_compute. split; reflexivity. Qed.
