(* ===== verification/Mkfs.v ===== *)
(** mkfs/mkfs.c: the program that builds the file system image. The image file is
    the list of its sectors; a [struct dinode] is an inode of which only the
    fields on the disk matter. The host is little-endian. Which files the host
    has, and how it cuts them when they are read, are parameters. *)

From S2P Require Import Prelude Machine KState Blocks Fs FsFile.

(** The image, [freeinode] and [freeblock]. *)
Record mkst := Mkst { mk_img : list (list Z); freeinode : Z; freeblock : Z }.

(** A run ends normally, or with [die], [exit(1)] or a failed assertion. *)
Inductive mres (A : Type) :=
  | MOk (a : A) (s : mkst)
  | MDie
  | MNoFuel.
Arguments MOk {A} a s.
Arguments MDie {A}.
Arguments MNoFuel {A}.

Definition M (A : Type) : Type := mkst -> mres A.

Global Instance m_ret : MRet M := fun A a s => MOk a s.
Global Instance m_bind : MBind M := fun A B f m s =>
  match m s with
  | MOk a s => f a s
  | MDie => MDie
  | MNoFuel => MNoFuel
  end.

Definition die {A} : M A := fun _ => MDie.
Definition mk_assert (b : bool) : M unit := if b then mret tt else die.

(** ** Parameters of the image *)

Definition NINODES : Z := 200.
Definition nbitmap : Z := FSSIZE / (BSIZE * 8) + 1.
Definition ninodeblocks : Z := NINODES / IPB + 1.
Definition nlog : Z := LOGSIZE.
Definition nmeta : Z := 2 + nlog + ninodeblocks + nbitmap.
Definition nblocks : Z := FSSIZE - nmeta.

(** The bytes stored are those of the disk, read back as a number. *)
Definition xshort (x : Z) : Z := le_val (le_bytes 2 x).
Definition xint (x : Z) : Z := le_val (le_bytes 4 x).

Definition mk_sb : superblock :=
  Superblock FSMAGIC (xint FSSIZE) (xint nblocks) (xint NINODES) (xint nlog) (xint 2) (xint (2 + nlog))
    (xint (2 + nlog + ninodeblocks)).
Definition sb_bytes (sb : superblock) : list Z :=
  concat (le_bytes 4 <$> [sb_magic sb; sb_size sb; sb_nblocks sb; sb_ninodes sb; sb_nlog sb; sb_logstart sb;
                          sb_inodestart sb; sb_bmapstart sb]).

Definition zeroes : list Z := replicate (Z.to_nat BSIZE) 0.

(** ** Sectors *)

(** [sec * BSIZE] is an unsigned int. *)
Definition seek (sec : Z) : nat := Z.to_nat (u32 (sec * BSIZE) / BSIZE).

(** A write past the end leaves a hole of zeroes. *)
Definition wsect (sec : Z) (buf : list Z) : M unit := fun s =>
  let img := mk_img s in
  let n := seek sec in
  let img' := if (n <? length img)%nat then <[n := buf]> img
              else img ++ replicate (n - length img) zeroes ++ [buf] in
  MOk tt (Mkst img' (freeinode s) (freeblock s)).

(** A read past the end gives fewer bytes than a sector. *)
Definition rsect (sec : Z) : M (list Z) := fun s =>
  match mk_img s !! seek sec with
  | Some buf => MOk buf s
  | None => MDie
  end.

(** ** Inodes *)

Definition winode (inum : Z) (ip : inode) : M unit :=
  let bn := IBLOCK inum mk_sb in
  buf ← rsect bn;
  wsect bn (dinode_write (sizeof_dinode * (inum mod IPB)) ip buf).

Definition rinode (inum : Z) : M inode :=
  buf ← rsect (IBLOCK inum mk_sb);
  mret (dinode_read (sizeof_dinode * (inum mod IPB)) buf inode0).

Definition mkfs_ialloc (type : Z) : M Z :=
  inum ← (fun s => MOk (freeinode s) (Mkst (mk_img s) (u32 (freeinode s + 1)) (freeblock s)));
  let din := i_set_size (xint 0) (i_set_nlink (i16 (xshort 1)) (i_set_type (i16 (xshort type)) inode0)) in
  winode inum din ;;
  mret inum.

(** [freeblock++] *)
Definition fresh_block : M Z := fun s => MOk (freeblock s) (Mkst (mk_img s) (freeinode s) (u32 (freeblock s + 1))).

(** [if(xint(din.addrs[k]) == 0) din.addrs[k] = xint(freeblock++);] *)
Definition fill_addr (din : inode) (k : Z) : M inode :=
  if xint (addr din k) =? 0 then b ← fresh_block; mret (with_addr din k (xint b)) else mret din.

(** The same for the entry at byte [i] of the indirect block [a]. *)
Definition fill_entry (a i : Z) (indirect : list Z) : M (list Z) :=
  if get32 i indirect =? 0 then
    b ← fresh_block;
    let indirect := put32 i (xint b) indirect in
    wsect a indirect ;;
    mret indirect
  else mret indirect.

(** The block [x] that holds block [fbn] of the file, allocated if need be. *)
Definition map_block (din : inode) (fbn : Z) : M (inode * Z) :=
  if fbn <? NDIRECT then
    din ← fill_addr din fbn;
    mret (din, xint (addr din fbn))
  else
    din ← fill_addr din NDIRECT;
    indirect ← rsect (xint (addr din NDIRECT));
    indirect ← fill_entry (xint (addr din NDIRECT)) (4 * (fbn - NDIRECT)) indirect;
    mret (din, xint (get32 (4 * (fbn - NDIRECT)) indirect)).

(** The bytes [w] are copied into the block of offset [off]. *)
Definition append_block (din : inode) (off : Z) (w : list Z) : M inode :=
  let fbn := off / BSIZE in
  dx ← map_block din fbn;
  let (din, x) := dx : inode * Z in
  buf ← rsect x;
  wsect x (put (off - fbn * BSIZE) w buf) ;;
  mret din.

(** The loop of iappend; [p] is what is left to append. *)
Fixpoint iappend_loop (fuel : nat) (din : inode) (off : Z) (p : list Z) : M (inode * Z) :=
  match fuel with
  | O => fun _ => MNoFuel
  | S fuel =>
    if Z.of_nat (length p) <=? 0 then mret (din, off)
    else
      let fbn := off / BSIZE in
      mk_assert (fbn <? MAXFILE) ;;
      let n1 := min (Z.of_nat (length p)) ((fbn + 1) * BSIZE - off) in
      din ← append_block din off (take (Z.to_nat n1) p);
      iappend_loop fuel din (off + n1) (drop (Z.to_nat n1) p)
  end.

(** Every round but the last takes a byte at least. *)
Definition iappend (inum : Z) (p : list Z) : M unit :=
  din ← rinode inum;
  dx ← iappend_loop (S (length p)) din (xint (i_size din)) p;
  let (din, off) := dx : inode * Z in
  winode inum (i_set_size (xint off) din).

(** ** The bitmap *)

Definition mkfs_bit (buf : list Z) (i : Z) : list Z :=
  bit_put i (Z.lor (bit_byte i buf) (Z.shiftl 1 (i mod 8))) buf.

Definition mkfs_balloc (used : Z) : M unit :=
  mk_assert (used <? BSIZE * 8) ;;
  wsect (sb_bmapstart mk_sb) (fold_left mkfs_bit (seqZ 0 used) zeroes).

(** ** main *)

Section main.
(** Whether the image can be created, and the pieces in which [read] delivers a
    file, [None] if it cannot be opened. *)
Context (host_create : list Z -> bool) (host_read : list Z -> option (list (list Z))).

(** A name without the directory, and without the leading underscore. *)
Definition base_name (arg : list Z) : list Z :=
  if strncmp_l 5 arg [117; 115; 101; 114; 47] =? 0 then drop 5 arg else arg.
Definition no_underscore (shortname : list Z) : list Z :=
  match shortname with
  | 95 :: rest => rest
  | _ => shortname
  end.

(** [while((cc = read(fd, buf, sizeof(buf))) > 0) iappend(inum, buf, cc);] *)
Fixpoint append_all (inum : Z) (chunks : list (list Z)) : M unit :=
  match chunks with
  | [] => mret tt
  | [] :: _ => mret tt
  | buf :: chunks => iappend inum buf ;; append_all inum chunks
  end.

Definition add_file (rootino : Z) (arg : list Z) : M unit :=
  let shortname := base_name arg in
  mk_assert (negb (existsb (Z.eqb 47) shortname)) ;;
  match host_read arg with
  | None => die
  | Some chunks =>
    let shortname := no_underscore shortname in
    inum ← mkfs_ialloc T_FILE;
    iappend rootino (dirent_write (Dirent (xshort inum) (strncpy_l DIRSIZ shortname))) ;;
    append_all inum chunks
  end.

Fixpoint add_files (rootino : Z) (args : list (list Z)) : M unit :=
  match args with
  | [] => mret tt
  | arg :: args => add_file rootino arg ;; add_files rootino args
  end.

(** [for(i = 0; i < FSSIZE; i++) wsect(i, zeroes);] *)
Fixpoint zero_sects (n : nat) (i : Z) : M unit :=
  match n with
  | O => mret tt
  | S n => wsect i zeroes ;; zero_sects n (i + 1)
  end.

(** A name copied into a zeroed entry. *)
Definition dot_entry (rootino : Z) (name : list Z) : list Z :=
  dirent_write (Dirent (xshort rootino) (put 0 (name ++ [0]) (replicate DIRSIZ 0))).

(** [off = ((off/BSIZE) + 1) * BSIZE] *)
Definition round_root (rootino : Z) : M unit :=
  din ← rinode rootino;
  let off := xint (i_size din) in
  let off := u32 ((off / BSIZE + 1) * BSIZE) in
  winode rootino (i_set_size (xint off) din).

(** The state the program starts with, after the image was truncated. *)
Definition mkst0 : mkst := Mkst [] 1 nmeta.

Definition mkfs_main (argv : list (list Z)) : M unit :=
  match argv with
  | _ :: image :: files =>
    (if host_create image then mret tt else die) ;;
    zero_sects (Z.to_nat FSSIZE) 0 ;;
    wsect 1 (put 0 (sb_bytes mk_sb) zeroes) ;;
    rootino ← mkfs_ialloc T_DIR;
    mk_assert (rootino =? ROOTINO) ;;
    iappend rootino (dot_entry rootino [46]) ;;
    iappend rootino (dot_entry rootino [46; 46]) ;;
    add_files rootino files ;;
    round_root rootino ;;
    used ← (fun s => MOk (i32 (freeblock s)) s);
    mkfs_balloc used
  | _ => die
  end.
End main.
