(* ===== verification/MkfsSpec.v ===== *)
(** mkfs/mkfs.c: the image it builds, as the kernel sees it. *)

From stdpp Require Import functions.
From S2P Require Import Prelude Machine KState Blocks Fs FsAlloc FsFile FsIo FsInode FsDir Mkfs.

(** ** Sectors *)

Definition sect (img : list (list Z)) (b : Z) : list Z := default [] (img !! Z.to_nat b).

Lemma m_bind_run {A B} (m : M A) (f : A -> M B) s a s' : m s = MOk a s' -> (m ≫= f) s = f a s'.
Proof. intros E. unfold mbind, m_bind. by rewrite E. Qed.

Lemma seek_small sec : 0 <= sec < FSSIZE -> seek sec = Z.to_nat sec.
Proof.
  intros Hs. unfold seek, FSSIZE, BSIZE in *. rewrite u32_small by lia. by rewrite Z.div_mul by lia.
Qed.

Lemma xint_small v : 0 <= v < 4294967296 -> xint v = v.
Proof. intros Hv. unfold xint. rewrite le_val_bytes. by apply Z.mod_small. Qed.

Lemma wsect_run img fi fb sec buf :
  0 <= sec < FSSIZE -> length img = Z.to_nat FSSIZE ->
  wsect sec buf (Mkst img fi fb) = MOk tt (Mkst (<[Z.to_nat sec := buf]> img) fi fb).
Proof.
  intros Hs Hl. unfold wsect. rewrite seek_small by done. cbn [mk_img freeinode freeblock].
  destruct (Nat.ltb_spec (Z.to_nat sec) (length img)); [done|]. lia.
Qed.

Lemma rsect_run img fi fb sec :
  0 <= sec < FSSIZE -> length img = Z.to_nat FSSIZE ->
  rsect sec (Mkst img fi fb) = MOk (sect img sec) (Mkst img fi fb).
Proof.
  intros Hs Hl. unfold rsect, sect. rewrite seek_small by done. cbn [mk_img].
  destruct (lookup_lt_is_Some_2 img (Z.to_nat sec)) as [d ->]; [lia|done].
Qed.

Lemma sect_insert img sec buf b :
  0 <= sec < FSSIZE -> length img = Z.to_nat FSSIZE -> 0 <= b ->
  sect (<[Z.to_nat sec := buf]> img) b = if decide (b = sec) then buf else sect img b.
Proof.
  intros Hs Hl Hb. unfold sect. case_decide as E.
  - subst. by rewrite list_lookup_insert_eq by lia.
  - by rewrite list_lookup_insert_ne by lia.
Qed.

(** ** What the map of a file depends on *)

Lemma slot_ext L L' x x' k :
  i_addrs x' = i_addrs x -> (ind x <> 0 -> L' (ind x) = L (ind x)) -> slot L' x' k = slot L x k.
Proof.
  intros Ha Hi. unfold slot. assert (Hind : ind x' = ind x) by (unfold ind, addr; by rewrite Ha). rewrite Hind.
  destruct (k <? 13); [unfold addr; by rewrite Ha|]. destruct (Z.eqb_spec (ind x) 0); [done|]. by rewrite Hi.
Qed.

Lemma fbyte_ext L L' x x' off :
  slot L' x' (slot_of (off / BSIZE)) = slot L x (slot_of (off / BSIZE)) ->
  (slot L x (slot_of (off / BSIZE)) <> 0 -> L' (slot L x (slot_of (off / BSIZE))) = L (slot L x (slot_of (off / BSIZE)))) ->
  fbyte L' x' off = fbyte L x off.
Proof.
  intros Hs Hl. unfold fbyte. rewrite Hs. destruct (Z.eqb_spec (slot L x (slot_of (off / BSIZE))) 0); [done|]. by rewrite Hl.
Qed.

(** ** Offsets *)

Lemma same_fblock o off : o / BSIZE = off / BSIZE -> o - o mod BSIZE = off - off mod BSIZE.
Proof. unfold BSIZE. intros. rewrite !Z.mod_eq by lia. lia. Qed.

Lemma later_block o off n : off <= o -> o / BSIZE <> off / BSIZE -> off mod BSIZE + n <= BSIZE -> off + n <= o.
Proof.
  unfold BSIZE. intros Ho Hn Hm. assert (off / 1024 <= o / 1024) by (by apply Z.div_le_mono).
  rewrite Z.mod_eq in Hm by lia. pose proof (Z.mul_div_le o 1024). lia.
Qed.

(** ** The invariant of the blocks *)

(** Files 1 to [fi - 1], with inodes [X], content [C] and the first [N] slots of
    their maps in use, lie in different blocks from [nmeta] to [fb - 1]; the blocks
    from [fb] on are zero. *)
Record core (img : list (list Z)) (fi fb : Z) (X : Z -> inode) (N : Z -> Z) (C : Z -> list Z) : Prop := {
  co_len : length img = Z.to_nat FSSIZE;
  co_sect : forall b, 0 <= b < FSSIZE -> length (sect img b) = Z.to_nat BSIZE;
  co_fb : nmeta <= fb <= FSSIZE;
  co_zero : forall b, fb <= b < FSSIZE -> sect img b = zeroes;
  co_addrs : forall i, 1 <= i < fi -> length (i_addrs (X i)) = 13%nat;
  co_fill : forall i k, 1 <= i < fi -> 0 <= k < nslots -> slot (sect img) (X i) k <> 0 <-> k < N i;
  co_slot : forall i k, 1 <= i < fi -> 0 <= k < nslots -> slot (sect img) (X i) k <> 0 ->
    nmeta <= slot (sect img) (X i) k < fb;
  co_inj : forall i k j l, 1 <= i < fi -> 0 <= k < nslots -> 1 <= j < fi -> 0 <= l < nslots ->
    slot (sect img) (X i) k <> 0 -> slot (sect img) (X i) k = slot (sect img) (X j) l -> i = j /\ k = l;
  co_byte : forall i off, 1 <= i < fi -> 0 <= off < MAXFILE * BSIZE ->
    fbyte (sect img) (X i) off = default 0 (C i !! Z.to_nat off) }.

Lemma slot12_range : 0 <= 12 < nslots.
Proof. rewrite nslots_eq. lia. Qed.

Lemma nmeta_eq : nmeta = 46.
Proof. done. Qed.

Section core.
Context (img : list (list Z)) (fi fb : Z) (X : Z -> inode) (N : Z -> Z) (C : Z -> list Z).
Context (H : core img fi fb X N C).
Notation L := (sect img).

Lemma co_ind i : 1 <= i < fi -> ind (X i) <> 0 -> nmeta <= ind (X i) < fb.
Proof. intros Hi Hn. exact (co_slot _ _ _ _ _ _ H i 12 Hi slot12_range Hn). Qed.

(** The indirect blocks of two files are different, and hold no data. *)
Lemma co_ind_ne i j k : 1 <= i < fi -> 1 <= j < fi -> 0 <= k < nslots -> ~ (j = i /\ k = 12) ->
  slot L (X j) k <> 0 -> slot L (X j) k <> ind (X i).
Proof.
  intros Hi Hj Hk Hd Hn E. apply Hd. apply (co_inj _ _ _ _ _ _ H j k i 12 Hj Hk Hi slot12_range Hn E).
Qed.

(** Changes outside the data blocks do not matter, nor do those of other fields
    of the inodes. *)
Lemma core_meta img' X' N' C' :
  length img' = Z.to_nat FSSIZE -> (forall b, 0 <= b < FSSIZE -> length (sect img' b) = Z.to_nat BSIZE) ->
  (forall b, nmeta <= b < FSSIZE -> sect img' b = sect img b) ->
  (forall i, 1 <= i < fi -> i_addrs (X' i) = i_addrs (X i)) ->
  (forall i, 1 <= i < fi -> N' i = N i) -> (forall i, 1 <= i < fi -> C' i = C i) ->
  core img' fi fb X' N' C'.
Proof.
  intros Hl Hs Hd Ha HN HC. pose proof (co_fb _ _ _ _ _ _ H) as Hfb.
  assert (Es : forall i k, 1 <= i < fi -> slot (sect img') (X' i) k = slot L (X i) k).
  { intros i k Hi. apply slot_ext; [by apply Ha|]. intros Hn. apply Hd. pose proof (co_ind i Hi Hn). lia. }
  split; [done|done|done|..].
  - intros b Hb. rewrite Hd by lia. by apply H.
  - intros i Hi. rewrite Ha by done. by apply H.
  - intros i k Hi Hk. rewrite Es, HN by done. by apply H.
  - intros i k Hi Hk. rewrite Es by done. by apply H.
  - intros i k j l Hi Hk Hj Hl2. rewrite !Es by done. by apply H.
  - intros i off Hi Ho. rewrite HC by done. rewrite <- (co_byte _ _ _ _ _ _ H i off) by done.
    apply fbyte_ext; [by apply Es|]. intros Hn. apply Hd.
    destruct (slot_of_range _ (file_block _ Ho)) as [Hk _]. pose proof (co_slot _ _ _ _ _ _ H i _ Hi Hk Hn). lia.
Qed.

(** Block [fb] becomes the next slot of file [i]. *)
Lemma core_fresh i img' x' :
  1 <= i < fi -> fb < FSSIZE -> 0 <= N i < nslots -> length (i_addrs x') = 13%nat -> length img' = Z.to_nat FSSIZE ->
  (forall k, 0 <= k < nslots -> slot (sect img') x' k = if decide (k = N i) then fb else slot L (X i) k) ->
  (forall b, 0 <= b < FSSIZE -> length (sect img' b) = Z.to_nat BSIZE) ->
  (forall b, 0 <= b < FSSIZE -> b <> ind (X i) -> sect img' b = sect img b) ->
  core img' fi (fb + 1) (<[i := x']> X) (<[i := N i + 1]> N) C.
Proof.
  intros Hi Hf HNi Ha Hl Hslot Hlen Hframe. pose proof (co_fb _ _ _ _ _ _ H) as Hfb. rewrite nmeta_eq in Hfb.
  assert (Es : forall j k, 1 <= j < fi -> 0 <= k < nslots ->
    slot (sect img') (<[i := x']> X j) k = if decide (j = i /\ k = N i) then fb else slot L (X j) k).
  { intros j k Hj Hk. destruct (decide (j = i)) as [->|Hji].
    - rewrite fn_lookup_insert, Hslot by done. repeat case_decide; naive_solver.
    - rewrite fn_lookup_insert_ne by done. rewrite decide_False by naive_solver.
      apply slot_ext; [done|]. intros Hn. pose proof (co_ind j Hj Hn) as Hr. rewrite nmeta_eq in Hr. apply Hframe; [lia|].
      apply (co_ind_ne i j 12 Hi Hj slot12_range); [naive_solver|done]. }
  assert (Hfree : forall j k, 1 <= j < fi -> 0 <= k < nslots -> slot L (X j) k <> fb).
  { intros j k Hj Hk E. assert (slot L (X j) k <> 0) as Hn by lia. pose proof (co_slot _ _ _ _ _ _ H j k Hj Hk Hn). lia. }
  split; [done|done|rewrite nmeta_eq; lia|..].
  - intros b Hb. rewrite Hframe; [apply H; lia|lia|]. intros E.
    assert (ind (X i) <> 0) as Hn by lia. pose proof (co_ind i Hi Hn). lia.
  - intros j Hj. destruct (decide (j = i)) as [->|]; [by rewrite fn_lookup_insert|]. rewrite fn_lookup_insert_ne by done. by apply H.
  - intros j k Hj Hk. rewrite Es by done. destruct (decide (j = i)) as [->|Hji].
    + rewrite fn_lookup_insert. pose proof (co_fill _ _ _ _ _ _ H i k Hj Hk). case_decide; lia.
    + rewrite fn_lookup_insert_ne by done. rewrite decide_False by naive_solver. by apply H.
  - intros j k Hj Hk. rewrite Es by done. rewrite nmeta_eq. case_decide as E; [lia|]. intros Hn.
    pose proof (co_slot _ _ _ _ _ _ H j k Hj Hk Hn) as Hr. rewrite nmeta_eq in Hr. lia.
  - intros j k j' k' Hj Hk Hj' Hk' Hn E. rewrite Es in Hn by done. rewrite !Es in E by done.
    destruct (decide (j = i /\ k = N i)) as [[-> ->]|D1], (decide (j' = i /\ k' = N i)) as [[-> ->]|D2].
    + done.
    + exfalso. by apply (Hfree j' k').
    + exfalso. by apply (Hfree j k).
    + by apply (co_inj _ _ _ _ _ _ H).
  - intros j off Hj Ho. rewrite <- (co_byte _ _ _ _ _ _ H j off) by done.
    destruct (slot_of_range _ (file_block _ Ho)) as [Hk Hk12]. unfold fbyte. rewrite Es by done. case_decide as E.
    + destruct E as [-> Ek]. assert (slot L (X i) (slot_of (off / BSIZE)) = 0) as ->.
      { pose proof (co_fill _ _ _ _ _ _ H i _ Hj Hk) as Hw. destruct (decide (slot L (X i) (slot_of (off / BSIZE)) = 0)); [done|]. apply Hw in n. lia. }
      rewrite (proj2 (Z.eqb_neq fb 0)) by lia. rewrite Z.eqb_refl. rewrite Hframe; [|lia|].
      * rewrite (co_zero _ _ _ _ _ _ H) by lia. unfold zeroes. destruct (replicate _ 0 !! _) eqn:Er; [|done]. by apply lookup_replicate in Er as [-> _].
      * intros Ei. assert (ind (X i) <> 0) as Hn by lia. pose proof (co_ind i Hi Hn). lia.
    + destruct (Z.eqb_spec (slot L (X j) (slot_of (off / BSIZE))) 0) as [|Hn]; [done|].
      pose proof (co_slot _ _ _ _ _ _ H j _ Hj Hk Hn) as Hr. rewrite nmeta_eq in Hr.
      rewrite Hframe; [done|lia|]. apply co_ind_ne; try done. naive_solver.
Qed.

(** Bytes are stored at the end of file [i], in a block it has. *)
Lemma core_write i p :
  let off := Z.of_nat (length (C i)) in
  let a := slot L (X i) (slot_of (off / BSIZE)) in
  1 <= i < fi -> 0 <= off < MAXFILE * BSIZE -> a <> 0 -> off mod BSIZE + Z.of_nat (length p) <= BSIZE ->
  core (<[Z.to_nat a := put (off mod BSIZE) p (L a)]> img) fi fb X N (<[i := C i ++ p]> C).
Proof.
  intros off a Hi Ho Ha Hp. pose proof (co_fb _ _ _ _ _ _ H) as Hfb. pose proof (co_len _ _ _ _ _ _ H) as Hlen.
  destruct (slot_of_range _ (file_block _ Ho)) as [Hk Hk12].
  pose proof (co_slot _ _ _ _ _ _ H i _ Hi Hk Ha) as Hr. fold a in Hr. rewrite nmeta_eq in *.
  assert (HaF : 0 <= a < FSSIZE) by lia. pose proof (co_sect _ _ _ _ _ _ H a HaF) as HLa.
  assert (Hm : 0 <= off mod BSIZE < BSIZE) by (by apply Z.mod_pos_bound).
  set (d := put (off mod BSIZE) p (L a)). set (img' := <[Z.to_nat a := d]> img).
  assert (Hs : forall b, 0 <= b -> sect img' b = if decide (b = a) then d else L b) by (intros; by apply sect_insert).
  assert (Es : forall j k, 1 <= j < fi -> slot (sect img') (X j) k = slot L (X j) k).
  { intros j k Hj. apply slot_ext; [done|]. intros Hn. pose proof (co_ind j Hj Hn) as Hjr. rewrite nmeta_eq in Hjr.
    rewrite Hs by lia. rewrite decide_False; [done|]. intros E. apply (co_ind_ne j i _ Hj Hi Hk); [naive_solver|done|by rewrite E]. }
  split; [unfold img'; by rewrite length_insert|..|by apply H| | | |].
  - intros b Hb. rewrite Hs by lia. case_decide; [|by apply H].
    unfold d. rewrite length_put; [done|lia|]. rewrite HLa. unfold BSIZE in *. lia.
  - rewrite nmeta_eq. done.
  - intros b Hb. rewrite Hs by lia. rewrite decide_False by lia. by apply H.
  - intros j k Hj Hk'. rewrite Es by done. by apply H.
  - intros j k Hj Hk'. rewrite Es by done. by apply H.
  - intros j k j' k' Hj Hk1 Hj' Hk2. rewrite !Es by done. by apply H.
  - intros j o Hj Hoo. destruct (slot_of_range _ (file_block _ Hoo)) as [Hko _].
    pose proof (co_byte _ _ _ _ _ _ H j o Hj Hoo) as Hold.
    destruct (decide (slot L (X j) (slot_of (o / BSIZE)) = a)) as [E|E].
    + destruct (co_inj _ _ _ _ _ _ H j _ i _ Hj Hko Hi Hk ltac:(congruence) E) as [-> Eb].
      apply slot_of_inj in Eb. rewrite fn_lookup_insert. unfold fbyte in *. rewrite Es, E in * by done.
      rewrite (proj2 (Z.eqb_neq a 0) Ha) in *. rewrite Hs, decide_True by (done || lia).
      unfold d. rewrite lookup_put by (rewrite ?HLa; unfold BSIZE in *; lia).
      pose proof (same_fblock _ _ Eb) as Eo.
      assert (0 <= o mod BSIZE < BSIZE) by (by apply Z.mod_pos_bound).
      case_decide as D.
      * rewrite lookup_app_r by lia. do 2 f_equal. lia.
      * rewrite Hold. destruct (decide (o < off)); [by rewrite lookup_app_l by lia|].
        rewrite (lookup_ge_None_2 (C i)) by lia. rewrite lookup_ge_None_2; [done|]. rewrite length_app. lia.
    + replace (fbyte (sect img') (X j) o) with (fbyte L (X j) o).
      2:{ symmetry. apply fbyte_ext; [by apply Es|]. intros Hn. pose proof (co_slot _ _ _ _ _ _ H j _ Hj Hko Hn) as Hr'. rewrite nmeta_eq in Hr'.
          rewrite Hs by lia. by rewrite decide_False. }
      rewrite Hold. destruct (decide (j = i)) as [->|]; [|by rewrite fn_lookup_insert_ne].
      rewrite fn_lookup_insert. destruct (decide (o < off)); [by rewrite lookup_app_l by lia|].
      rewrite (lookup_ge_None_2 (C i)) by lia. rewrite lookup_ge_None_2; [done|]. rewrite length_app.
      assert (Hne : o / BSIZE <> off / BSIZE) by (intros Eb; apply E; unfold a; by rewrite Eb).
      pose proof (later_block o off _ ltac:(lia) Hne Hp). lia.
Qed.
End core.

(** ** Allocation *)

Lemma core_same img fi fb X N C X' N' C' :
  core img fi fb X N C -> (forall i, 1 <= i < fi -> i_addrs (X' i) = i_addrs (X i)) ->
  (forall i, 1 <= i < fi -> N' i = N i) -> (forall i, 1 <= i < fi -> C' i = C i) -> core img fi fb X' N' C'.
Proof. intros H HX HN HC. by apply (core_meta _ _ _ _ _ _ H); try apply H. Qed.

Lemma fn_insert_at {A} (f : Z -> A) i j a : f i = a -> <[i := a]> f j = f j.
Proof. intros <-. destruct (decide (j = i)) as [->|]; [apply fn_lookup_insert|]. by rewrite fn_lookup_insert_ne. Qed.

Lemma addr_with_addr x k v j : length (i_addrs x) = 13%nat -> 0 <= k < 13 -> 0 <= j ->
  addr (with_addr x k v) j = if decide (j = k) then v else addr x j.
Proof.
  intros Hl Hk Hj. unfold addr, with_addr. cbn [i_addrs i_set_addrs]. case_decide as E.
  - subst. by rewrite list_lookup_insert_eq by lia.
  - by rewrite list_lookup_insert_ne by lia.
Qed.

Lemma get32_zeroes off : 0 <= off -> off + 4 <= BSIZE -> get32 off zeroes = 0.
Proof.
  intros H0 H1. unfold get32, slice, zeroes. rewrite drop_replicate, take_replicate.
  replace (Z.to_nat 4 `min` (Z.to_nat BSIZE - Z.to_nat off))%nat with 4%nat by (unfold BSIZE in *; lia). done.
Qed.

(** The fields of an inode other than its map. *)
Definition same_fields (x' x : inode) : Prop := x' = i_set_addrs (i_addrs x') x.

Lemma same_fields_refl x : same_fields x x.
Proof. by destruct x. Qed.

Lemma same_fields_trans x y z : same_fields x y -> same_fields y z -> same_fields x z.
Proof. unfold same_fields. intros -> ->. done. Qed.

Lemma fresh_block_run img fi fb : 0 <= fb < FSSIZE -> fresh_block (Mkst img fi fb) = MOk fb (Mkst img fi (fb + 1)).
Proof. intros Hf. unfold fresh_block, FSSIZE in *. cbn [mk_img freeinode freeblock]. by rewrite u32_small by lia. Qed.

(** A slot of [addrs]. *)
Lemma fill_addr_run img fi fb X N C i k :
  let n := Z.max (N i) (k + 1) in
  core img fi fb X N C -> 1 <= i < fi -> 0 <= k < 13 -> k <= N i -> fb + (n - N i) <= FSSIZE ->
  exists x', fill_addr (X i) k (Mkst img fi fb) = MOk x' (Mkst img fi (fb + (n - N i))) /\ same_fields x' (X i) /\
    core img fi (fb + (n - N i)) (<[i := x']> X) (<[i := n]> N) C.
Proof.
  intros n H Hi Hk HkN Hfull. pose proof (co_fb _ _ _ _ _ _ H) as Hfb. rewrite nmeta_eq in Hfb.
  assert (Hk' : 0 <= k < nslots) by (rewrite nslots_eq; lia).
  pose proof (co_fill _ _ _ _ _ _ H i k Hi Hk') as Hf. pose proof (co_slot _ _ _ _ _ _ H i k Hi Hk') as Hs.
  assert (Ek : slot (sect img) (X i) k = addr (X i) k) by (unfold slot; by rewrite (proj2 (Z.ltb_lt k 13)) by lia).
  rewrite Ek in *. unfold FSSIZE in *. unfold fill_addr. rewrite xint_small.
  2:{ destruct (decide (addr (X i) k = 0)); [lia|]. rewrite nmeta_eq in Hs. specialize (Hs n0). lia. }
  destruct (Z.eqb_spec (addr (X i) k) 0) as [E|E].
  - assert (N i = k) as HN by (destruct (decide (k < N i)); [tauto|lia]).
    unfold n in *. rewrite Z.max_r in * by lia. replace (k + 1 - N i) with 1 in * by lia.
    exists (with_addr (X i) k (xint fb)).
    erewrite m_bind_run by (apply fresh_block_run; unfold FSSIZE; lia). split; [done|]. split; [done|].
    rewrite xint_small by lia. rewrite <- HN. apply core_fresh with (img := img); try done; try apply H; try (unfold FSSIZE; lia).
    + cbn [with_addr i_addrs i_set_addrs]. rewrite length_insert. by apply H.
    + rewrite HN. intros j Hj. pose proof (co_addrs _ _ _ _ _ _ H i Hi) as Hl.
      unfold slot at 1. destruct (Z.ltb_spec j 13) as [Hj13|Hj13].
      * rewrite addr_with_addr by (done || lia). case_decide; [done|]. unfold slot. by rewrite (proj2 (Z.ltb_lt j 13)) by lia.
      * rewrite decide_False by lia. unfold ind. rewrite addr_with_addr by (done || unfold NDIRECT; lia). case_decide as E12.
        -- rewrite (proj2 (Z.eqb_neq fb 0)) by lia. rewrite (co_zero _ _ _ _ _ _ H) by (unfold FSSIZE; lia).
           rewrite nslots_eq in Hj. rewrite get32_zeroes by (unfold BSIZE; lia).
           unfold slot, ind. rewrite (proj2 (Z.ltb_ge j 13)) by lia. by rewrite E12, E.
        -- unfold slot, ind. by rewrite (proj2 (Z.ltb_ge j 13)) by lia.
  - assert (k < N i) by tauto. unfold n in *. rewrite Z.max_l in * by lia. replace (fb + (N i - N i)) with fb by lia.
    exists (X i). split; [done|]. split; [apply same_fields_refl|].
    apply (core_same _ _ _ _ _ _ _ _ _ H); try done; intros j _; by rewrite fn_insert_at.
Qed.

(** An entry of the indirect block. *)
Lemma fill_entry_run img fi fb X N C i j :
  let n := Z.max (N i) (13 + j + 1) in
  core img fi fb X N C -> 1 <= i < fi -> 0 <= j < NINDIRECT -> 13 + j <= N i -> fb + (n - N i) <= FSSIZE ->
  exists img' buf,
    fill_entry (ind (X i)) (4 * j) (sect img (ind (X i))) (Mkst img fi fb) = MOk buf (Mkst img' fi (fb + (n - N i))) /\
    get32 (4 * j) buf = slot (sect img') (X i) (13 + j) /\
    core img' fi (fb + (n - N i)) X (<[i := n]> N) C /\
    forall b, 0 <= b < nmeta -> sect img' b = sect img b.
Proof.
  intros n H Hi Hj HjN Hfull. pose proof (co_fb _ _ _ _ _ _ H) as Hfb. rewrite nmeta_eq in Hfb.
  unfold NINDIRECT in Hj. change (BSIZE / 4) with 256 in Hj. pose proof (co_len _ _ _ _ _ _ H) as Hlen.
  assert (Hk' : 0 <= 13 + j < nslots) by (rewrite nslots_eq; lia).
  assert (Hind : ind (X i) <> 0) by (apply (co_fill _ _ _ _ _ _ H i 12 Hi slot12_range); lia).
  pose proof (co_ind _ _ _ _ _ _ H i Hi Hind) as Hir. rewrite nmeta_eq in Hir.
  assert (HiF : 0 <= ind (X i) < FSSIZE) by lia. pose proof (co_sect _ _ _ _ _ _ H _ HiF) as Hil.
  assert (Ek : forall k, 13 <= k -> slot (sect img) (X i) k = get32 (4 * (k - 13)) (sect img (ind (X i)))).
  { intros k Hk. unfold slot. rewrite (proj2 (Z.ltb_ge k 13)) by lia. by rewrite (proj2 (Z.eqb_neq _ 0) Hind). }
  pose proof (co_fill _ _ _ _ _ _ H i _ Hi Hk') as Hf. rewrite Ek in Hf by lia. replace (13 + j - 13) with j in Hf by lia.
  unfold fill_entry. destruct (Z.eqb_spec (get32 (4 * j) (sect img (ind (X i)))) 0) as [E|E].
  - assert (N i = 13 + j) as HN by (destruct (decide (13 + j < N i)); [tauto|lia]).
    unfold n in *. rewrite Z.max_r in * by lia. replace (13 + j + 1 - N i) with 1 in * by lia.
    set (d := put32 (4 * j) (xint fb) (sect img (ind (X i)))).
    assert (Hd : length d = Z.to_nat BSIZE) by (unfold d; rewrite length_put32; rewrite ?Hil; unfold BSIZE; lia).
    exists (<[Z.to_nat (ind (X i)) := d]> img), d.
    assert (Hs : forall b, 0 <= b -> sect (<[Z.to_nat (ind (X i)) := d]> img) b = if decide (b = ind (X i)) then d else sect img b)
      by (intros; by apply sect_insert).
    assert (Hslot : forall k, 0 <= k < nslots ->
      slot (sect (<[Z.to_nat (ind (X i)) := d]> img)) (X i) k = if decide (k = N i) then fb else slot (sect img) (X i) k).
    { intros k Hk. rewrite nslots_eq in Hk. destruct (decide (k < 13)) as [Hk13|Hk13].
      - rewrite decide_False by lia. unfold slot. by rewrite (proj2 (Z.ltb_lt k 13)) by lia.
      - rewrite Ek by lia. unfold slot. rewrite (proj2 (Z.ltb_ge k 13)), (proj2 (Z.eqb_neq _ 0) Hind) by lia.
        rewrite Hs, decide_True by (done || lia). unfold d, FSSIZE, BSIZE in *. case_decide as Ekn.
        + rewrite Ekn, HN. replace (13 + j - 13) with j by lia. rewrite get32_put32 by lia.
          rewrite xint_small by lia. apply u32_small. lia.
        + apply get32_put32_ne; lia. }
    erewrite m_bind_run by (apply fresh_block_run; lia). erewrite m_bind_run by (by apply wsect_run).
    split; [done|]. split; [|split].
    + rewrite Hslot by done. rewrite decide_True by done. unfold d, FSSIZE, BSIZE in *. rewrite get32_put32 by lia.
      rewrite xint_small by lia. apply u32_small. lia.
    + replace (13 + j + 1) with (N i + 1) by lia.
      eapply core_same; [eapply (core_fresh _ _ _ _ _ _ H i _ (X i)); try done|..]; try done.
      * lia.
      * lia.
      * by apply H.
      * by rewrite length_insert.
      * intros b Hb. rewrite Hs by lia. case_decide; [done|by apply H].
      * intros b Hb Hbi. rewrite Hs by lia. by rewrite decide_False.
      * intros k _. cbn beta. by rewrite (fn_insert_at X i k).
    + intros b Hb. rewrite nmeta_eq in Hb. rewrite Hs by lia. by rewrite decide_False by lia.
  - assert (13 + j < N i) by tauto. unfold n in *. rewrite Z.max_l in * by lia. replace (fb + (N i - N i)) with fb by lia.
    exists img, (sect img (ind (X i))). split; [done|]. split; [rewrite Ek by lia; do 2 f_equal; lia|]. split; [|done].
    apply (core_same _ _ _ _ _ _ _ _ _ H); try done. intros k _. by rewrite fn_insert_at.
Qed.

(** ** Appending to a file *)

(** The slots of a file of [n] bytes, the one of its indirect block included. *)
Definition slots_for (n : Z) : Z := if n <=? 0 then 0 else slot_of ((n - 1) / BSIZE) + 1.

Lemma slots_for_next off : 0 <= off ->
  slots_for off <= slot_of (off / BSIZE) + 1 /\ Z.min 12 (slot_of (off / BSIZE)) <= slots_for off /\
  (12 < off / BSIZE -> slot_of (off / BSIZE) <= slots_for off).
Proof.
  intros Ho. unfold slots_for, slot_of, NDIRECT, BSIZE. destruct (Z.leb_spec off 0).
  - assert (off = 0) as -> by lia. change (0 / 1024) with 0. rewrite (proj2 (Z.ltb_lt 0 12)) by lia. lia.
  - assert ((off - 1) / 1024 = off / 1024 \/ (off - 1) / 1024 = off / 1024 - 1) by (Z.div_mod_to_equations; lia).
    destruct (Z.ltb_spec ((off - 1) / 1024) 12), (Z.ltb_spec (off / 1024) 12); lia.
Qed.

Lemma slots_for_add off n : 0 <= off -> 0 < n -> off mod BSIZE + n <= BSIZE ->
  slots_for (off + n) = slot_of (off / BSIZE) + 1.
Proof.
  intros Ho Hn Hm. unfold slots_for. rewrite (proj2 (Z.leb_gt (off + n) 0)) by lia.
  replace ((off + n - 1) / BSIZE) with (off / BSIZE); [done|]. unfold BSIZE in *. Z.div_mod_to_equations. lia.
Qed.

Lemma slots_for_mono a b : a <= b -> slots_for a <= slots_for b.
Proof.
  intros Hab. unfold slots_for. destruct (Z.leb_spec a 0), (Z.leb_spec b 0); try lia.
  - assert (0 <= (b - 1) / BSIZE) by (apply Z.div_pos; [lia|done]). unfold slot_of. destruct (_ <? _); lia.
  - assert ((a - 1) / BSIZE <= (b - 1) / BSIZE) by (apply Z.div_le_mono; [done|lia]).
    unfold slot_of. destruct (Z.ltb_spec ((a - 1) / BSIZE) NDIRECT), (Z.ltb_spec ((b - 1) / BSIZE) NDIRECT); lia.
Qed.

(** The block of the end of a file, and the map with it. *)
Lemma map_block_run img fi fb X N C i :
  let off := Z.of_nat (length (C i)) in
  let k := slot_of (off / BSIZE) in
  core img fi fb X N C -> 1 <= i < fi -> off < MAXFILE * BSIZE -> N i = slots_for off -> fb + (k + 1 - N i) <= FSSIZE ->
  exists img' x',
    map_block (X i) (off / BSIZE) (Mkst img fi fb) = MOk (x', slot (sect img') x' k) (Mkst img' fi (fb + (k + 1 - N i))) /\
    same_fields x' (X i) /\ core img' fi (fb + (k + 1 - N i)) (<[i := x']> X) (<[i := k + 1]> N) C /\
    forall b, 0 <= b < nmeta -> sect img' b = sect img b.
Proof.
  intros off k H Hi Ho HN Hfull. destruct (slots_for_next off) as (Hhi & Hlo & Hlo'); [lia|]. rewrite <- HN in *. fold k in Hhi, Hlo, Hlo'.
  assert (Hor : 0 <= off < MAXFILE * BSIZE) by lia.
  destruct (slot_of_range _ (file_block _ Hor)) as [Hk _]. fold k in Hk. rewrite nslots_eq in Hk.
  assert (Hfbn : 0 <= off / BSIZE) by (apply Z.div_pos; [lia|done]).
  unfold map_block. destruct (Z.ltb_spec (off / BSIZE) NDIRECT) as [Hd|Hd].
  - assert (Ek : k = off / BSIZE) by (unfold k, slot_of; by rewrite (proj2 (Z.ltb_lt _ _) Hd)). unfold NDIRECT in Hd. rewrite <- Ek in *.
    destruct (fill_addr_run img fi fb X N C i k H Hi) as (x' & E & Hx' & Hc); [lia|lia|rewrite Z.max_r by lia; done|].
    rewrite Z.max_r in E, Hc by lia. erewrite m_bind_run by exact E. exists img, x'. split; [|done]. unfold mret, m_ret. repeat f_equal.
    assert (slot (sect img) x' k = addr x' k) as -> by (unfold slot; by rewrite (proj2 (Z.ltb_lt k 13)) by lia).
    apply xint_small.
    destruct (decide (addr x' k = 0)) as [->|Hn]; [lia|].
    assert (Ha : slot (sect img) (<[i := x']> X i) k = addr x' k) by (rewrite fn_lookup_insert; unfold slot; by rewrite (proj2 (Z.ltb_lt k 13)) by lia).
    pose proof (co_slot _ _ _ _ _ _ Hc i k Hi ltac:(rewrite nslots_eq; lia)) as Hr. rewrite Ha in Hr. specialize (Hr Hn).
    pose proof (co_fb _ _ _ _ _ _ Hc). rewrite nmeta_eq in *. unfold FSSIZE in *. lia.
  - assert (Ek : k = off / BSIZE + 1) by (unfold k, slot_of; by rewrite (proj2 (Z.ltb_ge _ _) Hd)). unfold NDIRECT in Hd.
    assert (Hfull1 : fb + (Z.max (N i) (12 + 1) - N i) <= FSSIZE) by lia.
    destruct (fill_addr_run img fi fb X N C i 12 H Hi) as (x' & E & Hx' & Hc); [lia|lia|done|].
    erewrite m_bind_run by exact E. set (n1 := Z.max (N i) (12 + 1)) in *. set (fb1 := fb + (n1 - N i)) in *.
    destruct (fill_entry_run img fi fb1 (<[i := x']> X) (<[i := n1]> N) C i (k - 13) Hc Hi) as (img' & buf & E2 & Hbuf & Hc2 & Hme).
    { unfold NINDIRECT. change (BSIZE / 4) with 256. lia. }
    { rewrite fn_lookup_insert. lia. }
    { rewrite fn_lookup_insert. lia. }
    rewrite (fn_lookup_insert X i x') in E2, Hbuf. rewrite (fn_lookup_insert N i n1) in E2, Hc2. replace (13 + (k - 13) + 1) with (k + 1) in * by lia.
    assert (Hn1 : n1 <= k + 1) by (unfold n1; lia). rewrite (Z.max_r n1) in E2, Hc2 by done.
    replace (fb1 + (k + 1 - n1)) with (fb + (k + 1 - N i)) in * by lia. replace (13 + (k - 13)) with k in * by lia.
    assert (Hind : ind x' <> 0).
    { pose proof (co_fill _ _ _ _ _ _ Hc i 12 Hi slot12_range) as Hf. rewrite !fn_lookup_insert in Hf. apply Hf. lia. }
    pose proof (co_ind _ _ _ _ _ _ Hc i Hi) as Hir. rewrite fn_lookup_insert, nmeta_eq in Hir. specialize (Hir Hind).
    pose proof (co_fb _ _ _ _ _ _ Hc) as Hfb1. pose proof (co_fb _ _ _ _ _ _ Hc2) as Hfb2.
    change (addr x' NDIRECT) with (ind x'). unfold FSSIZE in *. rewrite xint_small by lia.
    erewrite m_bind_run by (apply rsect_run; [unfold FSSIZE; lia|apply Hc]).
    replace (off / BSIZE - NDIRECT) with (k - 13) by (unfold NDIRECT; lia). erewrite m_bind_run by exact E2.
    exists img', x'. split; [|split; [done|split; [|done]]].
    + rewrite Hbuf. unfold mret, m_ret. repeat f_equal. apply xint_small.
      destruct (decide (slot (sect img') x' k = 0)) as [->|Hn]; [lia|].
      pose proof (co_slot _ _ _ _ _ _ Hc2 i k Hi ltac:(rewrite nslots_eq; lia)) as Hr. rewrite fn_lookup_insert in Hr. specialize (Hr Hn).
      rewrite nmeta_eq in Hr. lia.
    + eapply core_same; [exact Hc2|done| |done]. intros j _. cbn beta.
      destruct (decide (j = i)) as [->|]; [by rewrite !fn_lookup_insert|by rewrite !fn_lookup_insert_ne].
Qed.

(** One round: the part of [p] that goes to the last block of the file. *)
Lemma append_block_run img fi fb X N C i p :
  let off := Z.of_nat (length (C i)) in
  let k := slot_of (off / BSIZE) in
  core img fi fb X N C -> 1 <= i < fi -> off < MAXFILE * BSIZE -> N i = slots_for off -> fb + (k + 1 - N i) <= FSSIZE ->
  off mod BSIZE + Z.of_nat (length p) <= BSIZE ->
  exists img' x', same_fields x' (X i) /\
    append_block (X i) off p (Mkst img fi fb) = MOk x' (Mkst img' fi (fb + (k + 1 - N i))) /\
    core img' fi (fb + (k + 1 - N i)) (<[i := x']> X) (<[i := k + 1]> N) (<[i := C i ++ p]> C) /\
    forall b, 0 <= b < nmeta -> sect img' b = sect img b.
Proof.
  intros off k H Hi Ho HN Hfull Hp.
  destruct (map_block_run img fi fb X N C i H Hi Ho HN Hfull) as (img1 & x' & E & Hx' & Hc & Hme). fold off k in E, Hc.
  assert (Hor : 0 <= off < MAXFILE * BSIZE) by lia.
  destruct (slot_of_range _ (file_block _ Hor)) as [Hk _]. fold k in Hk.
  set (a := slot (sect img1) x' k) in *.
  assert (Ha : a <> 0).
  { pose proof (co_fill _ _ _ _ _ _ Hc i k Hi Hk) as Hf. rewrite !fn_lookup_insert in Hf. apply Hf. lia. }
  pose proof (co_slot _ _ _ _ _ _ Hc i k Hi Hk) as Har. rewrite fn_lookup_insert in Har. specialize (Har Ha). fold a in Har.
  pose proof (co_fb _ _ _ _ _ _ Hc) as Hfb. pose proof (co_len _ _ _ _ _ _ Hc) as Hlen. rewrite nmeta_eq in Har.
  assert (HaF : 0 <= a < FSSIZE) by lia.
  unfold append_block. erewrite m_bind_run by exact E. cbv beta iota. erewrite m_bind_run by (by apply rsect_run). erewrite m_bind_run by (by apply wsect_run).
  replace (off - off / BSIZE * BSIZE) with (off mod BSIZE) by (rewrite Z.mod_eq by done; lia).
  eexists _, x'. split; [done|]. split; [done|]. split.
  - pose proof (core_write _ _ _ _ _ _ Hc i p Hi Hor) as Hw. cbn zeta in Hw. rewrite fn_lookup_insert in Hw. by apply Hw.
  - intros b Hb. rewrite nmeta_eq in Hb. rewrite sect_insert by (done || lia). rewrite decide_False by lia. apply Hme. rewrite nmeta_eq. lia.
Qed.

Lemma iappend_loop_run fuel : forall img fi fb X N C i p,
  let off := Z.of_nat (length (C i)) in
  let off' := off + Z.of_nat (length p) in
  core img fi fb X N C -> 1 <= i < fi -> off' <= MAXFILE * BSIZE -> N i = slots_for off ->
  fb + (slots_for off' - N i) <= FSSIZE -> (length p < fuel)%nat ->
  exists img' x', same_fields x' (X i) /\
    iappend_loop fuel (X i) off p (Mkst img fi fb) = MOk (x', off') (Mkst img' fi (fb + (slots_for off' - N i))) /\
    core img' fi (fb + (slots_for off' - N i)) (<[i := x']> X) (<[i := slots_for off']> N) (<[i := C i ++ p]> C) /\
    forall b, 0 <= b < nmeta -> sect img' b = sect img b.
Proof.
  induction fuel as [|fuel IH]; intros img fi fb X N C i p off off' H Hi Hmax HN Hfull Hfuel; [lia|].
  cbn [iappend_loop]. destruct (Z.leb_spec (Z.of_nat (length p)) 0) as [Hp|Hp].
  - destruct p; [|simpl in Hp; lia]. unfold off' in *. rewrite Z.add_0_r, HN in *. rewrite Z.sub_diag, Z.add_0_r in *.
    exists img, (X i). split; [apply same_fields_refl|]. split; [done|]. split; [|done].
    eapply core_same; [exact H|..]; intros j _; cbn beta; apply fn_insert_at || (f_equal; apply fn_insert_at); by rewrite ?app_nil_r, ?HN.
  - set (n1 := min (Z.of_nat (length p)) ((off / BSIZE + 1) * BSIZE - off)). set (w := take (Z.to_nat n1) p).
    assert (Hm : (off / BSIZE + 1) * BSIZE - off = BSIZE - off mod BSIZE) by (rewrite Z.mod_eq by done; lia).
    assert (0 <= off mod BSIZE < BSIZE) by (by apply Z.mod_pos_bound).
    assert (Hn1 : 0 < n1 <= Z.of_nat (length p) /\ off mod BSIZE + n1 <= BSIZE).
    { unfold n1, min. rewrite Hm. destruct (Z.ltb_spec (Z.of_nat (length p)) (BSIZE - off mod BSIZE)); lia. }
    assert (Hw : Z.of_nat (length w) = n1) by (unfold w; rewrite length_take; lia).
    pose proof (slots_for_add off n1 ltac:(lia) ltac:(lia) ltac:(lia)) as Hsl.
    pose proof (slots_for_mono (off + n1) off' ltac:(lia)) as Hmono.
    assert (Hlt : off < MAXFILE * BSIZE) by lia.
    destruct (file_block off) as [_ Hfbn]; [lia|]. rewrite (proj2 (Z.ltb_lt _ _) Hfbn). erewrite m_bind_run by reflexivity.
    destruct (append_block_run img fi fb X N C i w H Hi Hlt HN) as (img1 & x1 & Hx1 & E1 & Hc1 & Hme1); fold off; [lia|lia|].
    fold off in E1, Hc1. erewrite m_bind_run by exact E1. rewrite <- Hsl in *.
    pose proof (IH _ _ _ _ _ _ i (drop (Z.to_nat n1) p) Hc1 Hi) as IH1. cbn zeta in IH1.
    rewrite (fn_lookup_insert X), (fn_lookup_insert N), (fn_lookup_insert C), length_app, length_drop, Nat2Z.inj_add, Hw in IH1.
    fold off in IH1. replace (off + n1 + Z.of_nat (length p - Z.to_nat n1)) with off' in IH1 by lia.
    destruct IH1 as (img2 & x2 & Hx2 & E2 & Hc2 & Hme2); [done|done|lia|lia|].
    exists img2, x2. split; [by eapply same_fields_trans|].
    replace (fb + (slots_for (off + n1) - N i) + (slots_for off' - slots_for (off + n1))) with (fb + (slots_for off' - N i)) in * by lia.
    split; [exact E2|]. split; [|intros b Hb; by rewrite Hme2, Hme1].
    eapply core_same; [exact Hc2|..]; intros j _; cbn beta; (destruct (decide (j = i)) as [->|];
      [rewrite ?fn_lookup_insert|by rewrite !fn_lookup_insert_ne]); try done.
    rewrite <- app_assoc. f_equal. unfold w. by rewrite take_drop.
Qed.

(** ** Inodes on the disk *)

(** Inode [i] as the kernel reads it. *)
Definition ondisk (L : Z -> list Z) (i : Z) : inode :=
  dinode_read (sizeof_dinode * (i mod IPB)) (L (IBLOCK i mk_sb)) inode0.

Definition mk_inode (type size : Z) (addrs : list Z) : inode :=
  i_set_addrs addrs (i_set_size size (i_set_nlink 1 (i_set_type type inode0))).

Lemma dinode_read_ext off d d' y :
  (forall a n, off <= a -> a + n <= off + 64 -> slice a n d' = slice a n d) -> dinode_read off d' y = dinode_read off d y.
Proof.
  intros Hs. unfold dinode_read, get16, get32. rewrite !Hs by lia. f_equal.
  apply list_fmap_ext. intros i k Hk. apply lookup_seqZ in Hk as [-> ?]. by rewrite Hs by lia.
Qed.

Lemma IBLOCK_eq i : 0 <= i < NINODES -> IBLOCK i mk_sb = i / 16 + 32 /\ 32 <= i / 16 + 32 < 45.
Proof.
  intros Hi. unfold NINODES in Hi. assert (0 <= i / 16 < 13) by (split; [apply Z.div_pos|apply Z.div_lt_upper_bound]; lia).
  split; [|lia]. unfold IBLOCK. change (sb_inodestart mk_sb) with 32. change IPB with 16. rewrite u32_small; lia.
Qed.

Lemma rinode_run img fi fb i :
  length img = Z.to_nat FSSIZE -> 0 <= i < NINODES -> rinode i (Mkst img fi fb) = MOk (ondisk (sect img) i) (Mkst img fi fb).
Proof.
  intros Hl Hi. destruct (IBLOCK_eq i Hi) as [Eb Hb]. unfold rinode.
  erewrite m_bind_run by (apply rsect_run; [rewrite Eb; unfold FSSIZE; lia|done]). done.
Qed.

(** The inode is on the disk, the other inodes and the other blocks are as they
    were. *)
Lemma winode_run img fi fb i type size addrs :
  let x := mk_inode type size addrs in
  length img = Z.to_nat FSSIZE -> (forall b, 0 <= b < FSSIZE -> length (sect img b) = Z.to_nat BSIZE) ->
  0 <= i < NINODES -> dinode_fits x ->
  exists img', winode i x (Mkst img fi fb) = MOk tt (Mkst img' fi fb) /\
    length img' = Z.to_nat FSSIZE /\ (forall b, 0 <= b < FSSIZE -> length (sect img' b) = Z.to_nat BSIZE) /\
    (forall b, 0 <= b < 32 \/ 45 <= b -> sect img' b = sect img b) /\
    ondisk (sect img') i = x /\
    forall j, 0 <= j < NINODES -> j <> i -> ondisk (sect img') j = ondisk (sect img) j.
Proof.
  intros x Hl Hs Hi Hx. destruct (IBLOCK_eq i Hi) as [Eb Hb]. set (bn := i / 16 + 32) in *.
  assert (HbF : 0 <= bn < FSSIZE) by (unfold FSSIZE; lia). pose proof (Hs bn HbF) as Hbl.
  assert (Ho : 0 <= sizeof_dinode * (i mod IPB) /\ sizeof_dinode * (i mod IPB) + 64 <= 1024).
  { change IPB with 16. unfold sizeof_dinode. pose proof (Z.mod_pos_bound i 16). lia. }
  set (off := sizeof_dinode * (i mod IPB)) in *. set (d := dinode_write off x (sect img bn)).
  assert (Hd : length d = Z.to_nat BSIZE).
  { unfold d. rewrite length_dinode_write; [done|lia|rewrite Hbl; unfold BSIZE; lia|apply Hx]. }
  destruct (dinode_stored off x inode0 (sect img bn) Hx) as [Hrd Hfr]; [lia|rewrite Hbl; unfold BSIZE; lia|]. fold d in Hrd, Hfr.
  assert (Hset : forall b, 0 <= b -> sect (<[Z.to_nat bn := d]> img) b = if decide (b = bn) then d else sect img b)
    by (intros; by apply sect_insert).
  unfold winode. rewrite Eb. erewrite m_bind_run by (by apply rsect_run). rewrite wsect_run by done.
  eexists. split; [done|]. split; [by rewrite length_insert|]. split; [|split; [|split]].
  - intros b Hb'. fold off d. rewrite Hset by lia. case_decide; [done|by apply Hs].
  - intros b Hb'. fold off d. rewrite Hset by lia. by rewrite decide_False by lia.
  - unfold ondisk. fold off d. rewrite Eb, Hset, decide_True by (done || lia). rewrite Hrd. done.
  - intros j Hj Hji. destruct (IBLOCK_eq j Hj) as [Ebj Hbj]. unfold ondisk. fold off d. rewrite Ebj, Hset by lia. case_decide as E; [|done].
    rewrite E. apply dinode_read_ext. intros a n Ha Hn. apply Hfr.
    + unfold sizeof_dinode in Ha. change IPB with 16 in Ha. pose proof (Z.mod_pos_bound j 16). lia.
    + assert (j mod 16 <> i mod 16) by (unfold bn in E; rewrite !Z.mod_eq by lia; lia).
      unfold off, sizeof_dinode in *. change IPB with 16 in *. lia.
Qed.

(** ** The state between two operations *)

Definition sb_block : list Z := put 0 (sb_bytes mk_sb) zeroes.
Definition ilen (l : list Z) : Z := Z.of_nat (length l).
Definition type_of (i : Z) : Z := if i =? ROOTINO then T_DIR else T_FILE.

(** The inodes are on the disk, and the files have the slots they need. *)
Record good (img : list (list Z)) (fi fb : Z) (X : Z -> inode) (C : Z -> list Z) : Prop := {
  g_core : core img fi fb X (fun i => slots_for (ilen (C i))) C;
  g_fi : 1 <= fi <= NINODES;
  g_max : forall i, 1 <= i < fi -> ilen (C i) <= MAXFILE * BSIZE;
  g_sb : forall b, 0 <= b < 32 -> sect img b = if decide (b = 1) then sb_block else zeroes;
  g_ino : forall i, 1 <= i < fi -> ondisk (sect img) i = X i;
  g_fields : forall i, 1 <= i < fi -> X i = mk_inode (type_of i) (ilen (C i)) (i_addrs (X i)) }.

(** The inodes of the invariant fit the disk. *)
Lemma core_fits img fi fb X N C i type size :
  core img fi fb X N C -> 1 <= i < fi -> 0 <= type < 32768 -> 0 <= size < 4294967296 ->
  dinode_fits (mk_inode type size (i_addrs (X i))).
Proof.
  intros H Hi Ht Hs. pose proof (co_addrs _ _ _ _ _ _ H i Hi) as Hl. pose proof (co_fb _ _ _ _ _ _ H) as Hfb.
  split; cbn; try lia.
  intros k a Hk. pose proof (lookup_lt_Some _ _ _ Hk) as Hk13. rewrite Hl in Hk13.
  assert (Ea : slot (sect img) (X i) (Z.of_nat k) = a).
  { unfold slot. rewrite (proj2 (Z.ltb_lt (Z.of_nat k) 13)) by lia. unfold addr. by rewrite Nat2Z.id, Hk. }
  destruct (decide (a = 0)) as [->|Hn]; [lia|]. rewrite <- Ea in Hn.
  pose proof (co_slot _ _ _ _ _ _ H i (Z.of_nat k) Hi ltac:(rewrite nslots_eq; lia) Hn). rewrite nmeta_eq in *. unfold FSSIZE in *. lia.
Qed.

Lemma type_of_range i : 0 <= type_of i < 32768.
Proof. unfold type_of, T_DIR, T_FILE. destruct (_ =? _); lia. Qed.

Lemma max_size : MAXFILE * BSIZE = 274432.
Proof. done. Qed.

(** The in-memory inode of a file goes to the disk. *)
Lemma good_winode img0 img fi fb X C i x :
  core img fi fb (<[i := x]> X) (fun i => slots_for (ilen (C i))) C -> 1 <= i < fi -> fi <= NINODES ->
  (forall j, 1 <= j < fi -> ilen (C j) <= MAXFILE * BSIZE) ->
  (forall b, 0 <= b < 32 -> sect img0 b = if decide (b = 1) then sb_block else zeroes) -> (forall b, 0 <= b < nmeta -> sect img b = sect img0 b) ->
  (forall j, 1 <= j < fi -> j <> i -> ondisk (sect img0) j = X j) ->
  (forall j, 1 <= j < fi -> j <> i -> X j = mk_inode (type_of j) (ilen (C j)) (i_addrs (X j))) ->
  exists img' X', winode i (mk_inode (type_of i) (ilen (C i)) (i_addrs x)) (Mkst img fi fb) = MOk tt (Mkst img' fi fb) /\
    good img' fi fb X' C.
Proof.
  intros H Hi Hfi Hmax Hsb Hme Hino Hfields. rewrite nmeta_eq in Hme.
  assert (Hin : forall j, 1 <= j < fi -> ondisk (sect img) j = ondisk (sect img0) j).
  { intros j Hj. unfold ondisk. destruct (IBLOCK_eq j ltac:(lia)) as [-> Hb]. by rewrite Hme by lia. }
  pose proof (type_of_range i) as Ht. pose proof (Hmax i Hi) as Hm. rewrite max_size in Hm.
  pose proof (core_fits _ _ _ _ _ _ i (type_of i) (ilen (C i)) H Hi Ht ltac:(unfold ilen in *; lia)) as Hfits. rewrite fn_lookup_insert in Hfits.
  destruct (winode_run img fi fb i (type_of i) (ilen (C i)) (i_addrs x)) as (img' & E & W1 & W2 & W3 & W4 & W5);
    [apply H|apply H|lia|done|].
  exists img', (<[i := mk_inode (type_of i) (ilen (C i)) (i_addrs x)]> X). split; [exact E|]. split; [|lia|done|..].
  - eapply core_meta; [exact H|done|done|..|done|done].
    + intros b Hb. rewrite nmeta_eq in Hb. apply W3. lia.
    + intros j Hj. destruct (decide (j = i)) as [->|]; [by rewrite !fn_lookup_insert|by rewrite !fn_lookup_insert_ne].
  - intros b Hb. rewrite W3, Hme by lia. by apply Hsb.
  - intros j Hj. destruct (decide (j = i)) as [->|Hji]; [by rewrite fn_lookup_insert|].
    rewrite fn_lookup_insert_ne, W5, Hin by (done || lia). by apply Hino.
  - intros j Hj. destruct (decide (j = i)) as [->|Hji]; [by rewrite !fn_lookup_insert|].
    rewrite !fn_lookup_insert_ne by done. by apply Hfields.
Qed.

Lemma iappend_run img fi fb X C i p :
  let fb' := fb + (slots_for (ilen (C i ++ p)) - slots_for (ilen (C i))) in
  good img fi fb X C -> 1 <= i < fi -> ilen (C i ++ p) <= MAXFILE * BSIZE -> fb' <= FSSIZE ->
  exists img' X', iappend i p (Mkst img fi fb) = MOk tt (Mkst img' fi fb') /\ good img' fi fb' X' (<[i := C i ++ p]> C).
Proof.
  intros fb' [H Hfi Hmax Hsb Hino Hfields] Hi Hlen Hfull. pose proof max_size as Hms.
  unfold iappend. erewrite m_bind_run by (apply rinode_run; [apply H|lia]). rewrite Hino by done.
  assert (Esz : i_size (X i) = ilen (C i)) by (by rewrite Hfields by done). rewrite Esz.
  assert (Hl : ilen (C i ++ p) = ilen (C i) + Z.of_nat (length p)) by (unfold ilen; rewrite length_app; lia).
  pose proof (Hmax i Hi). rewrite xint_small by (unfold ilen in *; lia).
  destruct (iappend_loop_run (S (length p)) img fi fb X _ C i p H Hi) as (img1 & x1 & Hx1 & E1 & Hc1 & Hme1);
    fold (ilen (C i)); rewrite <- ?Hl; [done|done|done|lia|].
  fold (ilen (C i)) in E1, Hc1. rewrite <- Hl in E1, Hc1. fold fb' in E1, Hc1.
  erewrite m_bind_run by exact E1. cbv beta iota. rewrite xint_small by (unfold ilen in *; lia).
  assert (Ex : i_set_size (ilen (C i ++ p)) x1 = mk_inode (type_of i) (ilen (C i ++ p)) (i_addrs x1)).
  { unfold same_fields in Hx1. rewrite Hx1, Hfields by done. done. }
  rewrite Ex. pose proof (good_winode img img1 fi fb' X (<[i := C i ++ p]> C) i x1) as Hg. rewrite fn_lookup_insert in Hg. apply Hg; try done; try lia.
  - eapply core_same; [exact Hc1|done| |done]. intros j _. cbn beta. destruct (decide (j = i)) as [->|]; [by rewrite !fn_lookup_insert|by rewrite !fn_lookup_insert_ne].
  - intros j Hj. destruct (decide (j = i)) as [->|]; [by rewrite !fn_lookup_insert|rewrite !fn_lookup_insert_ne by done; by apply Hmax].
  - intros j Hj _. by apply Hino.
  - intros j Hj Hji. rewrite fn_lookup_insert_ne by done. by apply Hfields.
Qed.

(** A new file is empty. *)
Lemma slot_blank L x k : i_addrs x = replicate 13 0 -> slot L x k = 0.
Proof.
  intros Hx. assert (Ha : forall j, addr x j = 0).
  { intros j. unfold addr. rewrite Hx. destruct (replicate 13 0 !! _) eqn:E; [|done]. by apply lookup_replicate in E as [-> _]. }
  unfold slot, ind. rewrite !Ha. by destruct (k <? 13).
Qed.

Lemma core_new img fi fb X N C x :
  core img fi fb X N C -> 1 <= fi -> i_addrs x = replicate 13 0 ->
  core img (fi + 1) fb (<[fi := x]> X) (<[fi := 0]> N) (<[fi := []]> C).
Proof.
  intros H Hfi Hx.
  assert (Hcase : forall i, 1 <= i < fi + 1 -> i = fi \/ (i <> fi /\ 1 <= i < fi)) by lia.
  split; try apply H.
  - intros i Hi. destruct (Hcase i Hi) as [->|[Hne Hlt]]; [by rewrite fn_lookup_insert, Hx|]. rewrite fn_lookup_insert_ne by done. by apply H.
  - intros i k Hi Hk. destruct (Hcase i Hi) as [->|[Hne Hlt]].
    + rewrite !fn_lookup_insert, slot_blank by done. lia.
    + rewrite !fn_lookup_insert_ne by done. by apply H.
  - intros i k Hi Hk. destruct (Hcase i Hi) as [->|[Hne Hlt]].
    + by rewrite !fn_lookup_insert, slot_blank by done.
    + rewrite !fn_lookup_insert_ne by done. by apply H.
  - intros i k j l Hi Hk Hj Hl Hn E. destruct (Hcase i Hi) as [->|[Hne Hlt]].
    { by rewrite !fn_lookup_insert, slot_blank in Hn by done. }
    destruct (Hcase j Hj) as [->|[Hne2 Hlt2]].
    { rewrite fn_lookup_insert_ne in Hn, E by done. by rewrite fn_lookup_insert, (slot_blank _ x) in E by done. }
    rewrite (fn_lookup_insert_ne X _ i) in Hn, E by done. rewrite (fn_lookup_insert_ne X _ j) in E by done.
    by apply (co_inj _ _ _ _ _ _ H i k j l).
  - intros i off Hi Ho. destruct (Hcase i Hi) as [->|[Hne Hlt]].
    + rewrite !fn_lookup_insert. unfold fbyte. by rewrite slot_blank.
    + rewrite !fn_lookup_insert_ne by done. by apply H.
Qed.

Lemma ialloc_run img fi fb X C :
  good img fi fb X C -> fi < NINODES ->
  exists img' X', mkfs_ialloc (type_of fi) (Mkst img fi fb) = MOk fi (Mkst img' (fi + 1) fb) /\
    good img' (fi + 1) fb X' (<[fi := []]> C).
Proof.
  intros [H Hfi Hmax Hsb Hino Hfields] Hlt. unfold mkfs_ialloc.
  assert (E0 : (fun s => MOk (freeinode s) (Mkst (mk_img s) (u32 (freeinode s + 1)) (freeblock s))) (Mkst img fi fb) = MOk fi (Mkst img (fi + 1) fb)).
  { cbn [freeinode mk_img freeblock]. unfold NINODES in *. by rewrite u32_small by lia. }
  erewrite m_bind_run by exact E0. clear E0.
  assert (Hx : i_set_size (xint 0) (i_set_nlink (i16 (xshort 1)) (i_set_type (i16 (xshort (type_of fi))) inode0)) =
               mk_inode (type_of fi) 0 (replicate 13 0)).
  { unfold type_of. by destruct (fi =? ROOTINO). }
  rewrite Hx. clear Hx. set (x := mk_inode (type_of fi) 0 (replicate 13 0)).
  pose proof (core_new _ _ _ _ _ _ x H ltac:(lia) eq_refl) as Hc.
  destruct (good_winode img img (fi + 1) fb X (<[fi := []]> C) fi x) as (img' & X' & E & Hg); try done; try lia.
  - eapply core_same; [exact Hc|done| |done]. intros j _. cbn beta. destruct (decide (j = fi)) as [->|]; [by rewrite !fn_lookup_insert|by rewrite !fn_lookup_insert_ne].
  - intros j Hj. destruct (decide (j = fi)) as [->|]; [by rewrite fn_lookup_insert|rewrite fn_lookup_insert_ne by done; apply Hmax; lia].
  - intros j Hj Hne. apply Hino. lia.
  - intros j Hj Hne. rewrite fn_lookup_insert_ne by done. apply Hfields. lia.
  - rewrite fn_lookup_insert in E. erewrite m_bind_run by exact E. by exists img', X'.
Qed.

Lemma good_same img fi fb X C C' : good img fi fb X C -> (forall j, C' j = C j) -> good img fi fb X C'.
Proof.
  intros [H Hfi Hmax Hsb Hino Hfields] HC. split; try done.
  - eapply core_same; [exact H|done|..]; intros j _; cbn beta; by rewrite HC.
  - intros j Hj. rewrite HC. by apply Hmax.
  - intros j Hj. rewrite HC. by apply Hfields.
Qed.

(** ** The files *)

Section files.
Context (host_create : list Z -> bool) (host_read : list Z -> option (list (list Z))).

(** The pieces of a file, as [read] with a buffer of a block delivers them. *)
Definition pieces_ok (chunks : list (list Z)) : Prop := Forall (fun c => c <> [] /\ ilen c <= BSIZE) chunks.

Lemma append_all_run chunks : forall img fi fb X C i,
  let c := C i ++ concat chunks in
  let fb' := fb + (slots_for (ilen c) - slots_for (ilen (C i))) in
  good img fi fb X C -> 1 <= i < fi -> pieces_ok chunks -> ilen c <= MAXFILE * BSIZE -> fb' <= FSSIZE ->
  exists img' X', append_all i chunks (Mkst img fi fb) = MOk tt (Mkst img' fi fb') /\ good img' fi fb' X' (<[i := c]> C).
Proof.
  induction chunks as [|d chunks IH]; intros img fi fb X C i c fb' Hg Hi Hp Hlen Hfull.
  - unfold fb', c in *. cbn [concat] in *. rewrite app_nil_r in *. rewrite Z.sub_diag, Z.add_0_r in *. exists img, X. split; [done|].
    eapply good_same; [exact Hg|]. intros j. by apply fn_insert_at.
  - apply Forall_cons in Hp as [[Hd Hdl] Hp]. destruct d as [|d0 d]; [done|]. set (dd := d0 :: d) in *.
    assert (Hc1 : c = (C i ++ dd) ++ concat chunks) by (unfold c; cbn [concat]; by rewrite app_assoc).
    assert (Hl : ilen (C i) <= ilen (C i ++ dd) <= ilen c) by (rewrite Hc1; unfold ilen; rewrite !length_app; lia).
    pose proof (slots_for_mono _ _ (proj1 Hl)). pose proof (slots_for_mono _ _ (proj2 Hl)).
    change (append_all i (dd :: chunks)) with (iappend i dd ;; append_all i chunks).
    destruct (iappend_run img fi fb X C i dd Hg Hi) as (img1 & X1 & E1 & Hg1); [lia|lia|].
    erewrite m_bind_run by exact E1.
    pose proof (IH _ _ _ _ _ i Hg1 Hi Hp) as IH1. cbn zeta in IH1. rewrite !(fn_lookup_insert C) in IH1. rewrite <- Hc1 in IH1.
    destruct IH1 as (img2 & X2 & E2 & Hg2); [done|lia|]. exists img2, X2. 
    replace fb' with (fb + (slots_for (ilen (C i ++ dd)) - slots_for (ilen (C i))) + (slots_for (ilen c) - slots_for (ilen (C i ++ dd)))) by lia.
    split; [exact E2|]. eapply good_same; [exact Hg2|]. intros j.
    destruct (decide (j = i)) as [->|]; [by rewrite !fn_lookup_insert|by rewrite !fn_lookup_insert_ne].
Qed.

(** What the image is to hold: the name and the content of a file, and the
    entries of the directory. *)
Definition short_name (arg : list Z) : list Z := no_underscore (base_name arg).
Definition content (arg : list Z) : list Z := concat (default [] (host_read arg)).
Fixpoint dir_list (i : Z) (args : list (list Z)) : list dirent :=
  match args with
  | [] => []
  | arg :: args => Dirent i (strncpy_l DIRSIZ (short_name arg)) :: dir_list (i + 1) args
  end.
Definition dir_bytes (des : list dirent) : list Z := concat (dirent_write <$> des).
Definition content_slots (args : list (list Z)) : Z := foldr (fun arg n => slots_for (ilen (content arg)) + n) 0 args.

(** A file that can be added. *)
Definition arg_ok (arg : list Z) : Prop :=
  47 ∉ base_name arg /\ ilen (content arg) <= MAXFILE * BSIZE /\
  exists chunks, host_read arg = Some chunks /\ pieces_ok chunks.

Lemma slots_for_nonneg n : 0 <= slots_for n.
Proof. destruct (Z.le_gt_cases n 0); [unfold slots_for; by rewrite (proj2 (Z.leb_le n 0))|]. apply (slots_for_mono 0 n). lia. Qed.

Lemma add_file_run img fi fb X C arg :
  let D := C 1 ++ dir_bytes (dir_list fi [arg]) in
  let fb' := fb + (slots_for (ilen D) - slots_for (ilen (C 1))) + slots_for (ilen (content arg)) in
  good img fi fb X C -> 2 <= fi < NINODES -> arg_ok arg -> ilen D <= MAXFILE * BSIZE -> fb' <= FSSIZE ->
  exists img' X', add_file host_read 1 arg (Mkst img fi fb) = MOk tt (Mkst img' (fi + 1) fb') /\
    good img' (fi + 1) fb' X' (<[fi := content arg]> (<[1 := D]> C)).
Proof.
  intros D fb' Hg Hfi (Hslash & Hmax & chunks & Hread & Hp) HD Hfull.
  assert (Hc : content arg = concat chunks) by (unfold content; by rewrite Hread). unfold fb' in *. clear fb'. rewrite Hc in *.
  unfold add_file. replace (existsb (Z.eqb 47) (base_name arg)) with false.
  2:{ symmetry. apply not_true_iff_false. rewrite existsb_exists. intros (z & Hz & E). apply Z.eqb_eq in E. subst. by apply Hslash, list_elem_of_In. }
  rewrite Hread. erewrite m_bind_run by reflexivity. change T_FILE with (type_of 2).
  replace (type_of 2) with (type_of fi) by (unfold type_of, ROOTINO; by rewrite (proj2 (Z.eqb_neq fi 1)) by lia).
  destruct (ialloc_run img fi fb X C Hg) as (img1 & X1 & E1 & Hg1); [lia|]. erewrite m_bind_run by exact E1.
  set (w := dirent_write _). assert (HDw : C 1 ++ w = D).
  { unfold D, w, dir_bytes. cbn [dir_list fmap list_fmap concat]. rewrite app_nil_r. unfold short_name. repeat f_equal.
    unfold xshort. rewrite le_val_bytes. apply Z.mod_small. unfold NINODES in *. simpl. lia. }
  pose proof (iappend_run img1 (fi + 1) fb X1 (<[fi := []]> C) 1 w) as Hd. cbn zeta in Hd.
  rewrite (fn_lookup_insert_ne C fi 1), HDw in Hd by lia. pose proof (slots_for_nonneg (ilen (concat chunks))).
  destruct Hd as (img2 & X2 & E2 & Hg2); [done|lia|done|lia|]. erewrite m_bind_run by exact E2.
  pose proof (append_all_run chunks _ _ _ _ _ fi Hg2) as Ha. cbn zeta in Ha.
  rewrite (fn_lookup_insert_ne _ 1 fi), (fn_lookup_insert C) in Ha by lia. cbn [app] in Ha. change (slots_for (ilen [])) with 0 in Ha. rewrite Z.sub_0_r in Ha.
  destruct Ha as (img3 & X3 & E3 & Hg3); [lia|done|done|done|]. exists img3, X3. split; [exact E3|].
  eapply good_same; [exact Hg3|]. intros j. destruct (decide (j = fi)) as [->|]; [by rewrite !fn_lookup_insert|].
  rewrite !(fn_lookup_insert_ne _ fi) by done. destruct (decide (j = 1)) as [->|]; [by rewrite !fn_lookup_insert|by rewrite !fn_lookup_insert_ne by done].
Qed.

Lemma dir_bytes_cons de des : dir_bytes (de :: des) = dirent_write de ++ dir_bytes des.
Proof. done. Qed.

Lemma add_files_run args : forall img fi fb X C,
  let D := C 1 ++ dir_bytes (dir_list fi args) in
  let fi' := fi + Z.of_nat (length args) in
  let fb' := fb + (slots_for (ilen D) - slots_for (ilen (C 1))) + content_slots args in
  good img fi fb X C -> 2 <= fi -> fi' <= NINODES -> Forall arg_ok args -> ilen D <= MAXFILE * BSIZE -> fb' <= FSSIZE ->
  exists img' X' C', add_files host_read 1 args (Mkst img fi fb) = MOk tt (Mkst img' fi' fb') /\ good img' fi' fb' X' C' /\
    C' 1 = D /\ (forall j, 1 < j < fi -> C' j = C j) /\ forall k arg, args !! k = Some arg -> C' (fi + Z.of_nat k) = content arg.
Proof.
  induction args as [|arg args IH]; intros img fi fb X C D fi' fb' Hg Hfi Hfi' Hok HD Hfull.
  - unfold fb', fi', D in *. cbn in *. rewrite app_nil_r in *. rewrite Z.sub_diag, !Z.add_0_r in *. by exists img, X, C.
  - apply Forall_cons in Hok as [Ha Hok]. cbn [length dir_list content_slots foldr] in fi', fb', D.
    set (D1 := C 1 ++ dir_bytes (dir_list fi [arg])).
    assert (HD1 : D = D1 ++ dir_bytes (dir_list (fi + 1) args)).
    { unfold D, D1. rewrite dir_bytes_cons. cbn [dir_list]. rewrite dir_bytes_cons. rewrite app_nil_r. by rewrite app_assoc. }
    assert (Hl : ilen (C 1) <= ilen D1 <= ilen D) by (rewrite HD1; unfold D1, ilen; rewrite !length_app; lia).
    pose proof (slots_for_mono _ _ (proj1 Hl)) as Hm1. pose proof (slots_for_mono _ _ (proj2 Hl)) as Hm2.
    pose proof (slots_for_nonneg (ilen (content arg))) as Hn1.
    assert (Hn2 : 0 <= content_slots args).
    { clear. induction args as [|a args IH]; [done|]. simpl. pose proof (slots_for_nonneg (ilen (content a))). lia. }
    fold (content_slots args) in fb'. cbn [add_files].
    destruct (add_file_run img fi fb X C arg Hg) as (img1 & X1 & E1 & Hg1); fold D1; [unfold fi' in *; lia|done|lia|unfold fb' in *; lia|].
    fold D1 in E1, Hg1. erewrite m_bind_run by exact E1.
    pose proof (IH _ _ _ _ _ Hg1) as IH1. cbn zeta in IH1.
    rewrite (fn_lookup_insert_ne _ fi 1), (fn_lookup_insert C) in IH1 by lia. rewrite <- HD1 in IH1.
    destruct IH1 as (img2 & X2 & C2 & E2 & Hg2 & HC1 & HCo & HCn); [lia|unfold fi' in *; lia|done|done|unfold fb' in *; lia|].
    exists img2, X2, C2. replace fi' with (fi + 1 + Z.of_nat (length args)) by (unfold fi'; lia).
    replace fb' with (fb + (slots_for (ilen D1) - slots_for (ilen (C 1))) + slots_for (ilen (content arg)) + (slots_for (ilen D) - slots_for (ilen D1)) +
      content_slots args) by (unfold fb'; lia).
    split; [exact E2|]. split; [exact Hg2|]. split; [done|]. split.
    + intros j Hj. rewrite HCo by lia. rewrite (fn_lookup_insert_ne _ fi j), (fn_lookup_insert_ne C 1 j) by lia. done.
    + intros [|k] a Hk.
      * injection Hk as <-. rewrite Z.add_0_r, HCo by lia. by rewrite fn_lookup_insert.
      * rewrite <- (HCn k a Hk). f_equal. lia.
Qed.
End files.
