(* ===== verification/MkfsProof.v ===== *)
(** mkfs/mkfs.c: the whole program. The image it builds is one the kernel's file
    system can be started on. *)

From stdpp Require Import functions.
From S2P Require Import Prelude Machine KState Blocks Fs FsAlloc FsFile FsIo FsInode FsDir Mkfs MkfsSpec.

(** ** The empty image *)

Lemma zero_sects_run n : forall img fi fb, (length img + n <= Z.to_nat FSSIZE)%nat ->
  zero_sects n (Z.of_nat (length img)) (Mkst img fi fb) = MOk tt (Mkst (img ++ replicate n zeroes) fi fb).
Proof.
  induction n as [|n IH]; intros img fi fb Hn; cbn [zero_sects].
  - cbn [replicate]. by rewrite app_nil_r.
  - assert (E : wsect (Z.of_nat (length img)) zeroes (Mkst img fi fb) = MOk tt (Mkst (img ++ [zeroes]) fi fb)).
    { unfold wsect. rewrite seek_small by (unfold FSSIZE in *; lia). cbn [mk_img freeinode freeblock]. rewrite Nat2Z.id, Nat.ltb_irrefl, Nat.sub_diag. done. }
    erewrite m_bind_run by exact E. replace (Z.of_nat (length img) + 1) with (Z.of_nat (length (img ++ [zeroes]))) by (rewrite length_app; simpl; lia).
    rewrite IH by (rewrite length_app; simpl; lia). by rewrite <- app_assoc.
Qed.

Lemma sect_replicate n b : 0 <= b < Z.of_nat n -> sect (replicate n zeroes) b = zeroes.
Proof. intros Hb. unfold sect. rewrite lookup_replicate_2 by lia. done. Qed.

Lemma good_start :
  good (<[Z.to_nat 1 := sb_block]> (replicate (Z.to_nat FSSIZE) zeroes)) 1 nmeta (fun _ => inode0) (fun _ => []).
Proof.
  set (img0 := replicate (Z.to_nat FSSIZE) zeroes). assert (Hl0 : length img0 = Z.to_nat FSSIZE) by apply length_replicate.
  assert (Hs : forall b, 0 <= b < FSSIZE -> sect (<[Z.to_nat 1 := sb_block]> img0) b = if decide (b = 1) then sb_block else zeroes).
  { intros b Hb. rewrite (sect_insert img0 1 sb_block b) by (done || lia). case_decide; [done|]. apply sect_replicate. unfold FSSIZE in *. lia. }
  split; try (intros i Hi; lia).
  - split; try (intros i Hi; lia); try (intros i j Hi; lia).
    + by rewrite length_insert.
    + intros b Hb. rewrite Hs by done. by case_decide.
    + rewrite nmeta_eq. unfold FSSIZE. lia.
    + intros b Hb. rewrite nmeta_eq in Hb. rewrite Hs by lia. by rewrite decide_False by lia.
  - unfold NINODES. lia.
  - intros b Hb. apply Hs. unfold FSSIZE. lia.
Qed.

Lemma sb_block_parse : sb_parse sb_block = mk_sb.
Proof. vm_compute. reflexivity. Qed.

Lemma mk_sb_ok : sb_ok 2 nlog mk_sb.
Proof. split; vm_compute; intuition discriminate. Qed.

(** ** The bitmap *)

Lemma mkfs_bits n : forall d used, length d = Z.to_nat BSIZE -> 0 <= used -> used + Z.of_nat n <= BPB ->
  let d' := fold_left mkfs_bit (seqZ used (Z.of_nat n)) d in
  length d' = Z.to_nat BSIZE /\
  forall b, 0 <= b < BPB -> bit_at b d' = bit_at b d || ((used <=? b) && (b <? used + Z.of_nat n)).
Proof.
  induction n as [|n IH]; intros d u Hd Hu Hn d'.
  - split; [done|]. intros b Hb. destruct (Z.leb_spec u b), (Z.ltb_spec b (u + Z.of_nat 0)); try lia; by rewrite orb_false_r.
  - unfold d'. rewrite seqZ_cons by lia. cbn [fold_left]. replace (Z.pred (Z.of_nat (S n))) with (Z.of_nat n) by lia. replace (Z.succ u) with (u + 1) by lia.
    assert (Hd1 : length (mkfs_bit d u) = Z.to_nat BSIZE) by (unfold mkfs_bit; by rewrite length_bit_put).
    destruct (IH (mkfs_bit d u) (u + 1) Hd1) as [Hl Hb]; [lia|lia|]. split; [exact Hl|]. intros b Hbr. rewrite Hb by done.
    unfold mkfs_bit. fold (bit_mask u). rewrite bit_set by (done || lia). rewrite <- orb_assoc. f_equal.
    destruct (Z.eqb_spec b u), (Z.leb_spec (u + 1) b), (Z.ltb_spec b (u + 1 + Z.of_nat n)), (Z.leb_spec u b), (Z.ltb_spec b (u + Z.of_nat (S n))); done || lia.
Qed.

(** ** The end of main *)

(** The image, with the root directory rounded up to blocks and the bitmap. *)
Definition round_up (n : Z) : Z := (n / BSIZE + 1) * BSIZE.

Record built (img : list (list Z)) (fi fb : Z) (X : Z -> inode) (C : Z -> list Z) : Prop := {
  bu_core : core img fi fb X (fun i => slots_for (ilen (C i))) C;
  bu_max : forall i, 1 <= i < fi -> ilen (C i) <= MAXFILE * BSIZE;
  bu_sb : sect img 1 = sb_block;
  bu_used : forall b, 0 <= b < FSSIZE -> used mk_sb (sect img) b = (b <? fb);
  bu_root : ondisk (sect img) 1 = mk_inode T_DIR (round_up (ilen (C 1))) (i_addrs (X 1));
  bu_file : forall i, 1 < i < fi -> ondisk (sect img) i = mk_inode T_FILE (ilen (C i)) (i_addrs (X i)) }.

Lemma round_root_run img fi fb X C :
  good img fi fb X C -> 2 <= fi ->
  exists img', round_root 1 (Mkst img fi fb) = MOk tt (Mkst img' fi fb) /\
    core img' fi fb X (fun i => slots_for (ilen (C i))) C /\
    (forall b, 0 <= b < 32 -> sect img' b = if decide (b = 1) then sb_block else zeroes) /\
    ondisk (sect img') 1 = mk_inode T_DIR (round_up (ilen (C 1))) (i_addrs (X 1)) /\
    forall i, 1 < i < fi -> ondisk (sect img') i = mk_inode T_FILE (ilen (C i)) (i_addrs (X i)).
Proof.
  intros [H Hfi Hmax Hsb Hino Hfields] Hfi2. unfold round_root. unfold NINODES in Hfi.
  erewrite m_bind_run by (apply rinode_run; [apply H|unfold NINODES; lia]). rewrite Hino by lia.
  rewrite Hfields by lia. cbn [i_size i_set_addrs i_set_size mk_inode]. pose proof (Hmax 1 ltac:(lia)) as Hm. rewrite max_size in Hm.
  rewrite (xint_small (ilen (C 1))) by (unfold ilen in *; lia). fold (round_up (ilen (C 1))).
  assert (Hr : 0 <= round_up (ilen (C 1)) < 4294967296).
  { unfold round_up, BSIZE. assert (0 <= ilen (C 1) / 1024 < 300) by (split; [apply Z.div_pos|apply Z.div_lt_upper_bound]; unfold ilen in *; lia). lia. }
  rewrite u32_small, xint_small by lia.
  change (i_set_size _ _) with (mk_inode T_DIR (round_up (ilen (C 1))) (i_addrs (X 1))).
  destruct (winode_run img fi fb 1 T_DIR (round_up (ilen (C 1))) (i_addrs (X 1))) as (img' & E & W1 & W2 & W3 & W4 & W5);
    [apply H|apply H|unfold NINODES; lia|eapply core_fits; [exact H|lia|done|lia]|].
  exists img'. split; [exact E|]. split.
  { eapply core_meta; [exact H|done|done|..]; try done. intros b Hb. rewrite nmeta_eq in Hb. apply W3. lia. }
  split; [intros b Hb; rewrite W3 by lia; by apply Hsb|]. split; [exact W4|].
  intros i Hi. rewrite W5 by (unfold NINODES; lia). rewrite Hino, Hfields by lia. unfold type_of, ROOTINO. by rewrite (proj2 (Z.eqb_neq i 1)) by lia.
Qed.

Lemma balloc_run img fi fb used :
  length img = Z.to_nat FSSIZE -> 0 <= used <= FSSIZE ->
  exists d, mkfs_balloc used (Mkst img fi fb) = MOk tt (Mkst (<[Z.to_nat 45 := d]> img) fi fb) /\
    length d = Z.to_nat BSIZE /\ forall b, 0 <= b < BPB -> bit_at b d = (b <? used).
Proof.
  intros Hl Hu. unfold FSSIZE in Hu.
  destruct (mkfs_bits (Z.to_nat used) zeroes 0) as [H1 H2]; [done|lia|unfold BPB, BSIZE; lia|]. rewrite Z2Nat.id in H1, H2 by lia.
  exists (fold_left mkfs_bit (seqZ 0 used) zeroes). unfold mkfs_balloc.
  rewrite (proj2 (Z.ltb_lt used (BSIZE * 8))) by (unfold BSIZE; lia). erewrite m_bind_run by reflexivity.
  split; [apply wsect_run; [unfold FSSIZE; vm_compute; intuition discriminate|done]|]. split; [exact H1|].
  intros b Hb. rewrite H2 by done. rewrite (proj2 (Z.leb_le 0 b)) by lia. rewrite andb_true_l.
  assert (bit_at b zeroes = false) as ->; [|done].
  unfold bit_at, bit_byte, zeroes. destruct (replicate _ 0 !! _) eqn:E; [apply lookup_replicate in E as [-> _]|]; apply Z.bits_0.
Qed.

Lemma finish_run img fi fb X C :
  good img fi fb X C -> 2 <= fi ->
  exists img',
    (round_root 1 ;; used ← (fun s => MOk (i32 (freeblock s)) s); mkfs_balloc used) (Mkst img fi fb) = MOk tt (Mkst img' fi fb) /\
    built img' fi fb X C /\ forall b, 2 <= b < 32 -> sect img' b = zeroes.
Proof.
  intros Hg Hfi. destruct (round_root_run _ _ _ _ _ Hg Hfi) as (img1 & E1 & Hc & Hsb & Hroot & Hfile). 
  erewrite m_bind_run by exact E1. pose proof (co_fb _ _ _ _ _ _ Hc) as Hfb. pose proof (co_len _ _ _ _ _ _ Hc) as Hlen.
  assert (E2 : (fun s => MOk (i32 (freeblock s)) s) (Mkst img1 fi fb) = MOk fb (Mkst img1 fi fb)).
  { cbn [freeblock]. rewrite nmeta_eq in Hfb. unfold FSSIZE in *. by rewrite i32_small by lia. }
  erewrite m_bind_run by exact E2. rewrite nmeta_eq in Hfb.
  destruct (balloc_run img1 fi fb fb Hlen) as (d & E3 & Hd & Hbits); [lia|]. rewrite E3.
  exists (<[Z.to_nat 45 := d]> img1). split; [done|].
  assert (Hs : forall b, 0 <= b -> sect (<[Z.to_nat 45 := d]> img1) b = if decide (b = 45) then d else sect img1 b)
    by (intros; apply sect_insert; unfold FSSIZE in *; lia).
  assert (Hin : forall i, 0 <= i < NINODES -> ondisk (sect (<[Z.to_nat 45 := d]> img1)) i = ondisk (sect img1) i).
  { intros i Hi. unfold ondisk. destruct (IBLOCK_eq i Hi) as [-> Hb]. rewrite Hs by lia. by rewrite decide_False by lia. }
  pose proof (g_fi _ _ _ _ _ Hg). split; [|intros b Hb; rewrite Hs, decide_False, Hsb, decide_False by lia; done]. split.
  - eapply core_meta; [exact Hc|..]; try done.
    + by rewrite length_insert.
    + intros b Hb. rewrite Hs by lia. case_decide; [done|]. by apply (co_sect _ _ _ _ _ _ Hc).
    + intros b Hb. rewrite nmeta_eq in Hb. rewrite Hs by lia. by rewrite decide_False by lia.
  - apply Hg.
  - rewrite Hs by lia. rewrite decide_False by lia. by apply Hsb.
  - intros b Hb. unfold used. rewrite (BBLOCK_eq _ _ _ mk_sb_ok) by (vm_compute (sb_size mk_sb); unfold FSSIZE in *; lia).
    unfold FSSIZE, BPB, BSIZE in *. rewrite Z.mod_small, Z.div_small by lia. change (sb_bmapstart mk_sb) with 45.
    rewrite Hs, decide_True by lia. apply Hbits; lia.
  - rewrite Hin by (unfold NINODES; lia). exact Hroot.
  - intros i Hi. rewrite Hin by lia. by apply Hfile.
Qed.

(** ** The image as the kernel reads it *)

(** The inode ilock reads for the entry [y] of the inode table. *)
Definition load (L : Z -> list Z) (y : inode) : inode :=
  dinode_read (sizeof_dinode * (i_inum y mod IPB)) (L (IBLOCK (i_inum y) mk_sb)) y.

Lemma load_ondisk L y i type size addrs : i_inum y = i -> ondisk L i = mk_inode type size addrs ->
  i_type (load L y) = type /\ i_nlink (load L y) = 1 /\ i_size (load L y) = size /\ i_addrs (load L y) = addrs /\
  i_dev (load L y) = i_dev y /\ i_inum (load L y) = i.
Proof.
  intros <- E. split_and!; try done; unfold load.
  - by apply (f_equal i_type) in E.
  - by apply (f_equal i_nlink) in E.
  - by apply (f_equal i_size) in E.
  - by apply (f_equal i_addrs) in E.
Qed.

(** A file has a block for its end unless it fills its blocks. *)
Lemma slots_for_block n : 0 <= n -> slot_of (n / BSIZE) < slots_for n <-> n mod BSIZE <> 0.
Proof.
  intros Hn. split.
  - intros Hlt Em. destruct (decide (n = 0)) as [->|Hn0]; [done|]. revert Hlt. apply Z.le_ngt.
    unfold slots_for. rewrite (proj2 (Z.leb_gt n 0)) by lia. unfold BSIZE in *. rewrite Z.mod_eq in Em by done.
    assert ((n - 1) / 1024 < n / 1024) by (apply Z.div_lt_upper_bound; lia). unfold slot_of.
    destruct (Z.ltb_spec ((n - 1) / 1024) NDIRECT), (Z.ltb_spec (n / 1024) NDIRECT); lia.
  - intros Em. pose proof (Z.mod_pos_bound n BSIZE eq_refl). assert (0 <= n / BSIZE) by (by apply Z.div_pos).
    pose proof (slots_for_add (n / BSIZE * BSIZE) (n mod BSIZE)) as Hs. rewrite Z.div_mul, Z.mod_mul in Hs by done.
    replace (n / BSIZE * BSIZE + n mod BSIZE) with n in Hs by (rewrite Z.mod_eq by done; lia).
    rewrite Hs; unfold BSIZE in *; lia.
Qed.

Section built.
Context (img : list (list Z)) (fi fb : Z) (X : Z -> inode) (C : Z -> list Z) (B : built img fi fb X C).

(** What the disk holds: the image in its first blocks. *)
Context (L : Z -> list Z) (HL : forall b, 0 <= b < FSSIZE -> L b = sect img b).

Lemma built_block b : nmeta <= b < fb -> L b = sect img b.
Proof. intros Hb. apply HL. pose proof (co_fb _ _ _ _ _ _ (bu_core _ _ _ _ _ B)). rewrite nmeta_eq in *. lia. Qed.

Lemma built_slots x i k : 1 <= i < fi -> i_addrs x = i_addrs (X i) -> slot L x k = slot (sect img) (X i) k.
Proof.
  intros Hi Ha. apply slot_ext; [done|]. intros Hn. apply built_block. by apply (co_ind _ _ _ _ _ _ (bu_core _ _ _ _ _ B)).
Qed.

Lemma built_ondisk i : 0 <= i < NINODES -> ondisk L i = ondisk (sect img) i.
Proof. intros Hi. unfold ondisk. destruct (IBLOCK_eq i Hi) as [-> Hb]. by rewrite HL by (unfold FSSIZE; lia). Qed.

Lemma built_used b : 0 <= b < FSSIZE -> used mk_sb L b = (b <? fb).
Proof.
  intros Hb. rewrite <- (bu_used _ _ _ _ _ B) by done. unfold used. rewrite HL; [done|].
  rewrite (BBLOCK_eq _ _ _ mk_sb_ok) by (vm_compute (sb_size mk_sb); unfold FSSIZE in *; lia).
  unfold FSSIZE, BPB, BSIZE in *. rewrite Z.div_small by lia. vm_compute (sb_bmapstart mk_sb). lia.
Qed.

Lemma built_contents x i : 1 <= i < fi -> i_addrs x = i_addrs (X i) -> ilen (C i) <= i_size x <= MAXFILE * BSIZE ->
  contents L x = C i ++ replicate (Z.to_nat (i_size x - ilen (C i))) 0.
Proof.
  intros Hi Ha Hs. apply list_eq. intros k. unfold contents. rewrite lookup_fbytes. unfold ilen in *. case_decide as Hk.
  - rewrite Z.add_0_l. transitivity (Some (fbyte (sect img) (X i) (Z.of_nat k))).
    { f_equal. apply fbyte_ext; [by apply built_slots|]. intros Hn. apply built_block.
      apply (co_slot _ _ _ _ _ _ (bu_core _ _ _ _ _ B)); [done|apply slot_of_range, file_block; lia|done]. }
    rewrite (co_byte _ _ _ _ _ _ (bu_core _ _ _ _ _ B)) by (done || lia). rewrite Nat2Z.id.
    destruct (decide (k < length (C i))%nat) as [Hlt|Hge].
    + destruct (lookup_lt_is_Some_2 _ _ Hlt) as [v Hv]. by rewrite lookup_app_l, Hv by done.
    + rewrite lookup_app_r by lia. rewrite lookup_replicate_2 by lia. by rewrite lookup_ge_None_2 by lia.
  - symmetry. apply lookup_ge_None_2. rewrite length_app, length_replicate. lia.
Qed.

Lemma built_meta : meta_used mk_sb L.
Proof.
  intros b Hb. change (dstart mk_sb) with 46 in Hb. pose proof (co_fb _ _ _ _ _ _ (bu_core _ _ _ _ _ B)) as Hfb. rewrite nmeta_eq in Hfb.
  rewrite built_used by (unfold FSSIZE; lia). apply Z.ltb_lt. lia.
Qed.

Lemma built_map x i : 1 <= i < fi -> i_addrs x = i_addrs (X i) -> map_ok mk_sb L x.
Proof.
  intros Hi Ha. pose proof (bu_core _ _ _ _ _ B) as H. pose proof (co_fb _ _ _ _ _ _ H) as Hfb.
  assert (Es : forall k, slot L x k = slot (sect img) (X i) k) by (intros; by apply built_slots). split.
  - rewrite Ha. by apply (co_addrs _ _ _ _ _ _ H).
  - intros k Hk Hn. rewrite Es in *. pose proof (co_slot _ _ _ _ _ _ H i k Hi Hk Hn) as Hr. change (dstart mk_sb) with 46. rewrite nmeta_eq in *.
    change (sb_size mk_sb) with 2000. unfold FSSIZE in *. split; [lia|]. rewrite built_used by (unfold FSSIZE; lia). apply Z.ltb_lt. lia.
  - intros k k' Hk Hk'. rewrite !Es. intros Hn E. by apply (co_inj _ _ _ _ _ _ H i k i k').
Qed.

(** Every byte of a file has a block. *)
Lemma built_slot x i o : 1 <= i < fi -> i_addrs x = i_addrs (X i) -> 0 <= o < ilen (C i) -> slot L x (slot_of (o / BSIZE)) <> 0.
Proof.
  intros Hi Ha Ho. rewrite (built_slots x i) by done. pose proof (bu_max _ _ _ _ _ B i Hi) as Hm.
  apply (co_fill _ _ _ _ _ _ (bu_core _ _ _ _ _ B)); [done|apply slot_of_range, file_block; lia|]. cbn beta.
  pose proof (slots_for_mono (o + 1) (ilen (C i)) ltac:(lia)) as Hmono.
  rewrite slots_for_add in Hmono; [lia|lia|lia|]. pose proof (Z.mod_pos_bound o BSIZE eq_refl). lia.
Qed.

(** A file holds its content, and is one the kernel's operations apply to. *)
Lemma built_file y i : 1 < i < fi -> fi <= NINODES -> i_inum y = i ->
  let x := load L y in
  i_type x = T_FILE /\ i_nlink x = 1 /\ contents L x = C i /\ file_ok (i_dev y) mk_sb L x.
Proof.
  intros Hi Hfi Hy x. pose proof (bu_file _ _ _ _ _ B i Hi) as Hd. rewrite <- built_ondisk in Hd by lia.
  destruct (load_ondisk L y i _ _ _ Hy Hd) as (E1 & E2 & E3 & E4 & E5 & E6). fold x in E1, E2, E3, E4, E5, E6.
  pose proof (bu_max _ _ _ _ _ B i ltac:(lia)) as Hm. split; [done|]. split; [done|]. split.
  - rewrite (built_contents x i) by (try done; lia). rewrite E3, Z.sub_diag. cbn [replicate Z.to_nat]. by rewrite app_nil_r.
  - split; [apply (built_map x i); [lia|done]|apply built_meta| |rewrite E3; unfold ilen in *; lia|done|].
    + intros o Ho. rewrite E3 in Ho. apply (built_slot x i); [lia|done|done].
    + rewrite E6. change (sb_ninodes mk_sb) with NINODES. lia.
Qed.

(** The root directory: its last block is missing exactly when the entries fill
    the blocks before it. *)
Lemma built_root y : 2 <= fi <= NINODES -> i_inum y = ROOTINO -> ilen (C 1) < 16384 ->
  let x := load L y in
  i_type x = T_DIR /\ i_nlink x = 1 /\
  contents L x = C 1 ++ replicate (Z.to_nat (round_up (ilen (C 1)) - ilen (C 1))) 0 /\
  (file_ok (i_dev y) mk_sb L x <-> ilen (C 1) mod BSIZE <> 0).
Proof.
  intros Hfi Hy Hsmall x. pose proof (bu_root _ _ _ _ _ B) as Hd. rewrite <- built_ondisk in Hd by (unfold NINODES; lia).
  destruct (load_ondisk L y 1 _ _ _ Hy Hd) as (E1 & E2 & E3 & E4 & E5 & E6). fold x in E1, E2, E3, E4, E5, E6.
  set (n := ilen (C 1)) in *. assert (Hn : 0 <= n) by (unfold n, ilen; lia).
  assert (Hr : n <= round_up n <= 16384).
  { unfold round_up, BSIZE. pose proof (Z.mul_succ_div_gt n 1024). assert (n / 1024 < 16) by (apply Z.div_lt_upper_bound; lia). lia. }
  pose proof max_size as Hmax. assert (Hi : 1 <= 1 < fi) by lia. split; [done|]. split; [done|]. split.
  - rewrite (built_contents x 1) by (try done; fold n; rewrite E3; lia). by rewrite E3.
  - assert (Hlast : forall o, 0 <= o < round_up n -> o / BSIZE <= n / BSIZE).
    { intros o Ho. unfold round_up in Ho. assert (o / BSIZE < n / BSIZE + 1); [|lia]. apply Z.div_lt_upper_bound; [done|lia]. }
    assert (Hfill : slot L x (slot_of (n / BSIZE)) <> 0 <-> n mod BSIZE <> 0).
    { rewrite (built_slots x 1) by done.
      rewrite (co_fill _ _ _ _ _ _ (bu_core _ _ _ _ _ B) 1) by (done || apply slot_of_range, file_block; lia). cbn beta. fold n.
      by apply slots_for_block. }
    rewrite <- Hfill. split.
    + intros F. pose proof (fo_filled _ _ _ _ F (n / BSIZE * BSIZE)) as Hf. rewrite Z.div_mul in Hf by done. apply Hf.
      rewrite E3. unfold round_up, BSIZE. assert (0 <= n / 1024) by (by apply Z.div_pos). lia.
    + intros Hs. split; [apply (built_map x 1); done|apply built_meta| |rewrite E3; lia|done|rewrite E6; vm_compute; intuition discriminate].
      intros o Ho. rewrite E3 in Ho. pose proof (Hlast o Ho). destruct (decide (o / BSIZE = n / BSIZE)) as [->|Hne]; [done|].
      apply (built_slot x 1); [done|done|]. fold n.
      assert (o < n); [|lia]. apply Z.nle_gt. intros ?. assert (n / BSIZE <= o / BSIZE) by (by apply Z.div_le_mono). lia.
Qed.

Lemma built_apart y y' k k' : fi <= NINODES -> 1 <= i_inum y < fi -> 1 <= i_inum y' < fi -> i_inum y <> i_inum y' ->
  0 <= k < nslots -> 0 <= k' < nslots -> slot L (load L y) k = slot L (load L y') k' -> slot L (load L y) k = 0.
Proof.
  intros Hfi Hy Hy' Hne Hk Hk'.
  assert (Ea : forall z, 1 <= i_inum z < fi -> i_addrs (load L z) = i_addrs (X (i_inum z))).
  { intros z Hz. destruct (decide (i_inum z = 1)) as [E|E].
    - rewrite E. eapply load_ondisk; [exact E|]. rewrite built_ondisk by (unfold NINODES; lia). apply B.
    - eapply load_ondisk; [done|]. rewrite built_ondisk by lia. apply B. lia. }
  rewrite (built_slots _ (i_inum y)), (built_slots _ (i_inum y')) by (done || by apply Ea). intros E.
  destruct (decide (slot (sect img) (X (i_inum y)) k = 0)) as [|Hn]; [done|].
  destruct (co_inj _ _ _ _ _ _ (bu_core _ _ _ _ _ B) _ _ _ _ Hy Hk Hy' Hk' Hn E). done.
Qed.
End built.

(** ** Directory entries *)

Lemma slice_pieces m ls : forall k v, Forall (fun l => length l = m) ls -> ls !! k = Some v ->
  slice (Z.of_nat (m * k)) (Z.of_nat m) (concat ls) = v.
Proof.
  induction ls as [|l ls IH]; intros k v Hf Hk; [done|]. apply Forall_cons in Hf as [Hl Hf]. destruct k as [|k].
  - injection Hk as <-. unfold slice. rewrite Nat.mul_0_r. cbn [concat]. rewrite drop_0, Nat2Z.id, take_app_le by lia. by rewrite take_ge by lia.
  - rewrite <- (IH k v Hf Hk). unfold slice. cbn [concat]. rewrite !Nat2Z.id. f_equal. rewrite drop_app_ge by lia. f_equal. lia.
Qed.

Definition entry_ok (de : dirent) : Prop := 0 <= de_inum de < 65536 /\ length (de_name de) = DIRSIZ.

Lemma pieces_entries des : Forall entry_ok des -> Forall (fun l => length l = 16%nat) (dirent_write <$> des).
Proof. intros Hf. apply Forall_fmap. eapply Forall_impl; [exact Hf|]. intros de [_ Hn]. by apply length_dirent_write. Qed.

Lemma length_dir_bytes des : Forall entry_ok des -> length (dir_bytes des) = (16 * length des)%nat.
Proof.
  induction des as [|de des IH]; intros Hf; [done|]. apply Forall_cons in Hf as [[_ Hn] Hf].
  unfold dir_bytes in *. cbn [fmap list_fmap concat]. rewrite length_app, IH, length_dirent_write by done. simpl. lia.
Qed.

Lemma entries_dir_bytes des : Forall entry_ok des -> entries (dir_bytes des) = des.
Proof.
  intros Hf. unfold entries. rewrite length_dir_bytes by done. unfold sizeof_dirent.
  replace (Z.of_nat (16 * length des) / 16) with (Z.of_nat (length des)).
  2:{ rewrite Nat2Z.inj_mul, Z.mul_comm. by rewrite Z.div_mul. }
  apply list_eq. intros k. rewrite list_lookup_fmap. destruct (decide (k < length des)%nat) as [Hk|Hk].
  - destruct (lookup_lt_is_Some_2 des k Hk) as [de Hde]. rewrite (proj2 (lookup_seqZ 0 _ k (Z.of_nat k))) by lia. rewrite Hde. simpl. f_equal.
    unfold entry_at, sizeof_dirent. replace (16 * Z.of_nat k) with (Z.of_nat (16 * k)) by lia.
    unfold dir_bytes. change 16 with (Z.of_nat 16). rewrite (slice_pieces 16 _ k (dirent_write de)); [|by apply pieces_entries|by rewrite list_lookup_fmap, Hde].
    destruct (proj1 (Forall_lookup _ _) Hf k de Hde). by apply dirent_roundtrip.
  - rewrite lookup_seqZ_ge by lia. symmetry. apply lookup_ge_None_2. lia.
Qed.

Definition free_entry : dirent := Dirent 0 (replicate DIRSIZ 0).

Lemma dir_bytes_free m : dir_bytes (replicate m free_entry) = replicate (16 * m) 0.
Proof.
  induction m as [|m IH]; [done|]. replace (16 * S m)%nat with (16 + 16 * m)%nat by lia. rewrite replicate_add, <- IH. done.
Qed.

Lemma entries_padded des m : Forall entry_ok des ->
  entries (dir_bytes des ++ replicate (16 * m) 0) = des ++ replicate m free_entry.
Proof.
  intros Hf. rewrite <- dir_bytes_free.
  assert (E : dir_bytes des ++ dir_bytes (replicate m free_entry) = dir_bytes (des ++ replicate m free_entry)).
  { unfold dir_bytes. by rewrite fmap_app, concat_app. }
  rewrite E. apply entries_dir_bytes. apply Forall_app. split; [done|]. apply Forall_replicate. split; [simpl; lia|done].
Qed.

(** ** The whole program *)

Section mkfs.
Context (host_create : list Z -> bool) (host_read : list Z -> option (list (list Z))).
Notation content := (content host_read).
Notation arg_ok := (arg_ok host_read).

Definition root_entries (args : list (list Z)) : list dirent :=
  Dirent ROOTINO (strncpy_l DIRSIZ [46]) :: Dirent ROOTINO (strncpy_l DIRSIZ [46; 46]) :: dir_list 2 args.

Lemma dir_list_ok args : forall i, 0 <= i -> i + Z.of_nat (length args) <= 65536 -> Forall entry_ok (dir_list i args).
Proof.
  induction args as [|arg args IH]; intros i Hi Hn; [constructor|]. cbn [length] in Hn. constructor; [|apply IH; lia].
  split; cbn [de_inum de_name]; [lia|apply length_strncpy].
Qed.

Lemma length_dir_list args : forall i, length (dir_list i args) = length args.
Proof. induction args as [|arg args IH]; intros i; simpl; [done|]. by rewrite IH. Qed.

Lemma root_entries_ok args : 2 + Z.of_nat (length args) <= NINODES -> Forall entry_ok (root_entries args).
Proof. intros Hn. unfold NINODES in Hn. repeat (constructor; [split; [vm_compute; intuition discriminate|done]|]). apply dir_list_ok; lia. Qed.

Lemma ilen_root args : 2 + Z.of_nat (length args) <= NINODES -> ilen (dir_bytes (root_entries args)) = 16 * (2 + Z.of_nat (length args)).
Proof. intros Hn. unfold ilen. rewrite length_dir_bytes by (by apply root_entries_ok). cbn [root_entries length]. rewrite length_dir_list. lia. Qed.

(** The blocks the image needs. *)
Definition blocks_needed (args : list (list Z)) : Z :=
  nmeta + slots_for (16 * (2 + Z.of_nat (length args))) + content_slots host_read args.

Lemma mkfs_run prog image args :
  let n := Z.of_nat (length args) in
  host_create image = true -> Forall arg_ok args -> 2 + n <= NINODES -> blocks_needed args <= FSSIZE ->
  exists img X C,
    mkfs_main host_create host_read (prog :: image :: args) mkst0 = MOk tt (Mkst img (2 + n) (blocks_needed args)) /\
    built img (2 + n) (blocks_needed args) X C /\ (forall b, 2 <= b < 32 -> sect img b = zeroes) /\ C 1 = dir_bytes (root_entries args) /\
    forall k arg, args !! k = Some arg -> C (2 + Z.of_nat k) = content arg.
Proof.
  intros n Hc Hok Hn Hfull. pose proof max_size as Hmax. unfold mkfs_main, mkst0. rewrite Hc. erewrite m_bind_run by reflexivity.
  erewrite m_bind_run by (apply (zero_sects_run (Z.to_nat FSSIZE) []); done). cbn [app].
  erewrite m_bind_run by (apply wsect_run; [unfold FSSIZE; lia|apply length_replicate]).
  destruct (ialloc_run _ _ _ _ _ good_start) as (img1 & X1 & E1 & G1); [done|]. change (type_of 1) with T_DIR in E1.
  erewrite m_bind_run by exact E1. erewrite m_bind_run by reflexivity. cbn beta.
  set (w1 := dot_entry 1 [46]). set (w2 := dot_entry 1 [46; 46]).
  set (C0 := <[1 := []]> (fun _ : Z => @nil Z)) in *.
  destruct (iappend_run img1 2 nmeta X1 C0 1 w1 G1) as (img2 & X2 & E2 & G2); [lia|vm_compute; discriminate|vm_compute; discriminate|].
  change (nmeta + _) with 47 in E2, G2. change (C0 1 ++ w1) with w1 in G2. erewrite m_bind_run by exact E2.
  pose proof (iappend_run img2 2 47 X2 (<[1 := w1]> C0) 1 w2) as Hw2. cbn zeta in Hw2. rewrite !(fn_lookup_insert C0) in Hw2.
  destruct Hw2 as (img3 & X3 & E3 & G3); [done|lia|vm_compute; discriminate|vm_compute; discriminate|].
  change (47 + _) with 47 in E3, G3. erewrite m_bind_run by exact E3.
  pose proof (add_files_run host_read args img3 2 47 X3 _ G3) as Ha. cbn zeta in Ha. rewrite !(fn_lookup_insert (<[1 := w1]> C0)) in Ha.
  assert (HD : (w1 ++ w2) ++ dir_bytes (dir_list 2 args) = dir_bytes (root_entries args)) by done. rewrite HD, (ilen_root args Hn) in Ha.
  assert (Hfb : 47 + (slots_for (16 * (2 + Z.of_nat (length args))) - slots_for (ilen (w1 ++ w2))) + content_slots host_read args = blocks_needed args).
  { change (slots_for (ilen (w1 ++ w2))) with 1. unfold blocks_needed. rewrite nmeta_eq. lia. }
  rewrite Hfb in Ha. destruct Ha as (img4 & X4 & C4 & E4 & G4 & HC1 & _ & HCf); [lia|done|done|unfold NINODES in *; lia|done|].
  erewrite m_bind_run by exact E4. destruct (finish_run _ _ _ _ _ G4) as (img5 & E5 & B & Hlog); [lia|].
  exists img5, X4, C4. split; [exact E5|]. split; [exact B|]. split; [exact Hlog|]. split; [done|exact HCf].
Qed.

(** The entry of a file is the one a lookup of its name finds, if no file before
    it has the same name. *)
Lemma lookup_dir_list args : forall i k arg rest, 0 < i -> args !! k = Some arg ->
  (forall j arg', (j < k)%nat -> args !! j = Some arg' -> name_of (short_name arg') <> name_of (short_name arg)) ->
  lookup_name (short_name arg) (dir_list i args ++ rest) =
    Some (k, Dirent (i + Z.of_nat k) (strncpy_l DIRSIZ (short_name arg))).
Proof.
  induction args as [|a args IH]; intros i k arg rest Hi Hk Hd; [done|]. unfold lookup_name in *. cbn [dir_list app list_find]. destruct k as [|k].
  - injection Hk as <-. rewrite decide_True, Z.add_0_r; [done|]. split; [simpl; lia|]. apply cut_strncpy.
  - rewrite decide_False.
    + rewrite (IH (i + 1) k arg rest) by (done || lia || (intros j arg' Hj Ha; apply (Hd (S j)); [lia|done])).
      replace (i + Z.of_nat (S k)) with (i + 1 + Z.of_nat k) by lia. reflexivity.
    + intros [_ E]. apply (Hd 0%nat a); [lia|done|]. cbn [de_name] in E. unfold name_of in *. by rewrite cut_strncpy in E.
Qed.

(** What the kernel finds in an image with the files [args]. *)
Record image_ok (L : Z -> list Z) (fb : Z) (args : list (list Z)) : Prop := {
  im_sb : sb_parse (L 1) = mk_sb /\ sb_ok 2 nlog mk_sb;
  im_used : forall b, 0 <= b < FSSIZE -> used mk_sb L b = (b <? fb);
  im_root : forall y, i_inum y = ROOTINO ->
    let x := load L y in
    i_type x = T_DIR /\ i_nlink x = 1 /\
    (exists m, entries (contents L x) = root_entries args ++ replicate m free_entry) /\
    (file_ok (i_dev y) mk_sb L x <-> (16 * (2 + Z.of_nat (length args))) mod BSIZE <> 0);
  im_lookup : forall y k arg, i_inum y = ROOTINO -> args !! k = Some arg ->
    name_of (short_name arg) <> [46] -> name_of (short_name arg) <> [46; 46] ->
    (forall j arg', (j < k)%nat -> args !! j = Some arg' -> name_of (short_name arg') <> name_of (short_name arg)) ->
    lookup_name (short_name arg) (entries (contents L (load L y))) =
      Some (2 + k, Dirent (2 + Z.of_nat k) (strncpy_l DIRSIZ (short_name arg)))%nat;
  im_file : forall y k arg, args !! k = Some arg -> i_inum y = 2 + Z.of_nat k ->
    let x := load L y in
    i_type x = T_FILE /\ i_nlink x = 1 /\ contents L x = content arg /\ file_ok (i_dev y) mk_sb L x;
  im_apart : forall y y' k k', 1 <= i_inum y < 2 + Z.of_nat (length args) -> 1 <= i_inum y' < 2 + Z.of_nat (length args) ->
    i_inum y <> i_inum y' -> 0 <= k < nslots -> 0 <= k' < nslots ->
    slot L (load L y) k = slot L (load L y') k' -> slot L (load L y) k = 0 }.

Lemma round_up_pad n : exists m, Z.to_nat (round_up (16 * n) - 16 * n) = (16 * m)%nat.
Proof. exists (Z.to_nat (64 * (16 * n / BSIZE + 1) - n)). unfold round_up, BSIZE. lia. Qed.

Lemma built_image_ok img fb X C L args :
  let n := Z.of_nat (length args) in
  built img (2 + n) fb X C -> (forall b, 0 <= b < FSSIZE -> L b = sect img b) -> 2 + n <= NINODES -> C 1 = dir_bytes (root_entries args) ->
  (forall k arg, args !! k = Some arg -> C (2 + Z.of_nat k) = content arg) -> image_ok L fb args.
Proof.
  intros n B HL Hn HC1 HCf. assert (Hn0 : 0 <= n) by apply Nat2Z.is_nonneg.
  assert (Hroot : forall y, i_inum y = ROOTINO -> let x := load L y in
    i_type x = T_DIR /\ i_nlink x = 1 /\
    (exists m, entries (contents L x) = root_entries args ++ replicate m free_entry) /\
    (file_ok (i_dev y) mk_sb L x <-> (16 * (2 + n)) mod BSIZE <> 0)).
  { intros y Hy x. assert (Hfi : 2 <= 2 + n <= NINODES) by lia. pose proof (built_root _ _ _ _ _ B L HL y Hfi Hy) as Hr. rewrite HC1, ilen_root in Hr by done. fold n in Hr.
    destruct Hr as (R1 & R2 & R3 & R4); [unfold NINODES in *; lia|]. fold x in R1, R2, R3, R4. split; [done|]. split; [done|]. split; [|done].
    rewrite R3. destruct (round_up_pad (2 + n)) as [m ->]. exists m. apply entries_padded. by apply root_entries_ok. }
  split; [split; [|apply mk_sb_ok]|by apply (built_used _ _ _ _ _ B)|exact Hroot|..].
  - rewrite HL by (unfold FSSIZE; lia). rewrite (bu_sb _ _ _ _ _ B). apply sb_block_parse.
  - intros y k arg Hy Hk H1 H2 Hd. destruct (Hroot y Hy) as (_ & _ & [m ->] & _). unfold lookup_name, root_entries. cbn [app list_find].
    rewrite !decide_False by (intros [_ E]; cbn [de_name] in E; unfold name_of in *; rewrite cut_strncpy in E; by rewrite <- E in *).
    pose proof (lookup_dir_list args 2 k arg (replicate m free_entry) ltac:(lia) Hk Hd) as E. unfold lookup_name in E. rewrite E. done.
  - intros y k arg Hk Hy. pose proof (lookup_lt_Some _ _ _ Hk).
    pose proof (built_file _ _ _ _ _ B L HL y (2 + Z.of_nat k) ltac:(lia) Hn Hy) as Hf. by rewrite (HCf k arg Hk) in Hf.
  - intros y y' k k'. by apply (built_apart _ _ _ _ _ B L HL).
Qed.

(** C15: mkfs succeeds whenever the files fit, and builds an image the kernel's file
    system starts from: the super block describes the layout, the bitmap marks
    exactly the blocks in use, the root directory lists the files under their
    short names, and every file, read through its inode as the kernel does, has
    the bytes the host delivered, in blocks of its own. The root directory lacks
    its last block exactly when the entries fill the blocks before it. *)
Theorem mkfs_correct prog image args :
  host_create image = true -> Forall arg_ok args -> 2 + Z.of_nat (length args) <= NINODES -> blocks_needed args <= FSSIZE ->
  exists s, mkfs_main host_create host_read (prog :: image :: args) mkst0 = MOk tt s /\
    freeblock s = blocks_needed args /\ image_ok (sect (mk_img s)) (freeblock s) args.
Proof.
  intros Hc Hok Hn Hfull. destruct (mkfs_run prog image args Hc Hok Hn Hfull) as (img & X & C & E & B & _ & HC1 & HCf).
  eexists. split; [exact E|]. split; [done|]. by apply (built_image_ok img _ X C _).
Qed.
End mkfs.

(** Two files, one of them read in two pieces. *)
Definition host_ex (arg : list Z) : option (list (list Z)) :=
  if decide (arg = [117; 115; 101; 114; 47; 95; 108; 115]) then Some [[127; 69]; [76]]
  else if decide (arg = [82]) then Some [[104; 105]]
  else None.

Lemma host_ex_ok : Forall (arg_ok host_ex) [[117; 115; 101; 114; 47; 95; 108; 115]; [82]].
Proof.
  constructor; [|constructor; [|constructor]]; (split; [refine (bool_decide_unpack _ _); vm_compute; reflexivity|]; split; [vm_compute; discriminate|]).
  - exists [[127; 69]; [76]]. split; [reflexivity|]. repeat constructor; vm_compute; discriminate.
  - exists [[104; 105]]. split; [reflexivity|]. repeat constructor; vm_compute; discriminate.
Qed.

Lemma mkfs_correct_witness : exists s,
  mkfs_main (fun _ => true) host_ex [[]; [102]; [117; 115; 101; 114; 47; 95; 108; 115]; [82]] mkst0 = MOk tt s /\
  let L := sect (mk_img s) in
  lookup_name [108; 115] (entries (contents L (load L (i_set_id 1 1 inode0)))) = Some (2%nat, Dirent 2 (strncpy_l DIRSIZ [108; 115])) /\
  contents L (load L (i_set_id 1 2 inode0)) = [127; 69; 76].
Proof.
  destruct (mkfs_correct (fun _ => true) host_ex [] [102] [[117; 115; 101; 114; 47; 95; 108; 115]; [82]]) as (s & E & _ & [_ _ _ Hlook Hfile _]).
  - reflexivity.
  - apply host_ex_ok.
  - vm_compute. discriminate.
  - vm_compute. discriminate.
  - exists s. split; [exact E|]. cbn zeta. split.
    + pose proof (Hlook (i_set_id 1 1 inode0) 0%nat [117; 115; 101; 114; 47; 95; 108; 115] eq_refl eq_refl) as H1.
      assert (E1 : short_name [117; 115; 101; 114; 47; 95; 108; 115] = [108; 115]) by (vm_compute; reflexivity).
      rewrite E1 in H1. apply H1; [vm_compute; discriminate|vm_compute; discriminate|]. intros j arg' Hj. lia.
    + pose proof (Hfile (i_set_id 1 2 inode0) 0%nat [117; 115; 101; 114; 47; 95; 108; 115] eq_refl eq_refl) as (_ & _ & H1 & _).
      assert (E1 : content host_ex [117; 115; 101; 114; 47; 95; 108; 115] = [127; 69; 76]) by (vm_compute; reflexivity).
      rewrite E1 in H1. exact H1.
Defined.
