(* ===== verification/MkfsBoot.v ===== *)
(** The kernel started on an image of mkfs: the composition of mkfs/mkfs.c with
    fsinit, initlog and the buffer cache. *)

From stdpp Require Import functions.
From S2P Require Import Prelude Machine KState Blocks Spinlock Kalloc Proc ProcSpec Sleeplock Bio BioList BioSpec BioProof Log LogSpec LogProof Fs FsSpec FsAlloc FsFile FsIo FsInode FsDir Mkfs MkfsSpec MkfsProof.

(** The log is not part of the image. *)
Lemma built_log img fi fb X C b h :
  built img fi fb X C -> fi <= NINODES -> 2 <= b < 32 -> length h = Z.to_nat BSIZE -> built (<[Z.to_nat b := h]> img) fi fb X C.
Proof.
  intros [H Hmax Hsb Hused Hroot Hfile] Hfi Hb Hh. pose proof (co_len _ _ _ _ _ _ H) as Hlen.
  assert (Hs : forall n, 0 <= n -> sect (<[Z.to_nat b := h]> img) n = if decide (n = b) then h else sect img n)
    by (intros; apply sect_insert; unfold FSSIZE in *; lia).
  assert (Hin : forall i, 0 <= i < NINODES -> ondisk (sect (<[Z.to_nat b := h]> img)) i = ondisk (sect img) i).
  { intros i Hi. unfold ondisk. destruct (IBLOCK_eq i Hi) as [-> Hb']. rewrite Hs by lia. by rewrite decide_False by lia. }
  split; [|done|..].
  - eapply core_meta; [exact H|by rewrite length_insert|..]; try done.
    + intros n Hn. rewrite Hs by lia. case_decide; [done|]. by apply (co_sect _ _ _ _ _ _ H).
    + intros n Hn. rewrite nmeta_eq in Hn. rewrite Hs by lia. by rewrite decide_False by lia.
  - rewrite Hs by lia. by rewrite decide_False by lia.
  - intros n Hn. rewrite <- Hused by done. unfold used. rewrite (BBLOCK_eq _ _ _ mk_sb_ok) by (vm_compute (sb_size mk_sb); unfold FSSIZE in *; lia).
    unfold FSSIZE, BPB, BSIZE in *. rewrite Z.div_small by lia. change (sb_bmapstart mk_sb) with 45. rewrite Hs by lia. by rewrite decide_False by lia.
  - by rewrite Hin by (unfold NINODES; lia).
  - intros i Hi. rewrite Hin by lia. by apply Hfile.
Qed.

(** The image has the size the super block says. *)
Lemma built_size img fi fb X C : built img fi fb X C ->
  length img = Z.to_nat FSSIZE /\ Forall (fun d => length d = Z.to_nat BSIZE) img.
Proof.
  intros B. pose proof (bu_core _ _ _ _ _ B) as H. split; [apply H|]. apply Forall_lookup. intros i d Hd.
  pose proof (lookup_lt_Some _ _ _ Hd) as Hi. rewrite (co_len _ _ _ _ _ _ H) in Hi.
  pose proof (co_sect _ _ _ _ _ _ H (Z.of_nat i)) as Hs. unfold sect in Hs. rewrite Nat2Z.id, Hd in Hs. apply Hs. unfold FSSIZE in *. lia.
Qed.

Section boot.
Context `{DiskDriver} (me : nat) (pid dev : Z).
Notation bc := (bc me pid dev).

Definition set_sb (sb : superblock) (s : kst) : kst := set_fs (fs_set_sb sb (k_fs s)) s.

Lemma bc_set_sb v sb s : bc v s -> bc v (set_sb sb s).
Proof. intros [A B C D E]. split; [by apply fctx_fs|exact B|exact C|exact D|exact E]. Qed.

(** readsb reads block 1. *)
Lemma readsb_wp v e s Q :
  bc v s -> bv_held v = ∅ -> bv_pins v = ∅ -> bv_dirty v = ∅ ->
  (forall bs, bc v (with_bufs bs (set_sb (sb_parse (bv_L v 1)) s)) -> Q tt e (with_bufs bs (set_sb (sb_parse (bv_L v 1)) s))) ->
  wp (readsb dev) e s Q.
Proof.
  intros Hbc Hh Hp Hd HQ. unfold readsb. apply wp_bind.
  eapply bread_wp; [exact Hbc|intros i; by rewrite Hh, lookup_empty|right; rewrite Hh, Hp; vm_compute; lia|].
  intros b bs Hb Hbc1. assert (Hb1 : bv_held (bv_hold b 1 v) !! b = Some 1) by apply lookup_insert_eq.
  destruct (held_buf _ _ _ _ _ _ _ Hbc1 Hb1) as (x & _ & Hx & _ & _ & Hdat & _).
  apply wp_bind. eapply wp_run; [by apply get_buf_run|]. apply wp_seq, wp_modk. rewrite Hdat.
  cbn [bv_L bv_hold]. set (sb := sb_parse (bv_L v 1)). pose proof (bc_set_sb _ sb _ Hbc1) as Hbc2.
  eapply brelse_wp; [exact Hbc2|exact Hb1|cbn [bv_dirty bv_hold]; rewrite Hd; set_solver|].
  intros bs2 Hbc3. apply (HQ bs2).
  assert (Ev : bv_drop b (bv_hold b 1 v) = v) by (destruct v; unfold bv_drop, bv_hold; cbn in *; by rewrite delete_insert_id).
  rewrite Ev in Hbc3. exact Hbc3.
Qed.

(** fsinit on a disk with an empty log. *)
Lemma fsinit_wp d e s Q :
  let sb := sb_parse (disk_block d 1) in
  let start := i32 (sb_logstart sb) in
  let lsize := i32 (sb_nlog sb) in
  fs_disk (k_fs s) = d -> bc (empty_view d) s -> length (lh_block (log_lh (fs_log (k_fs s)))) = Z.to_nat LOGSIZE ->
  sb_magic sb = FSMAGIC -> tx_ok start lsize [] -> header_is [] (disk_block d start) ->
  (forall s' l h L', log_is dev start lsize (log_outstanding (fs_log (k_fs s))) (log_committing (fs_log (k_fs s))) [] l ->
     length h = Z.to_nat BSIZE -> bc (BView L' ∅ ∅ ∅) s' -> fs_sb (k_fs s') = sb -> fs_log (k_fs s') = l ->
     fs_disk (k_fs s') = <[start := h]> d -> Q tt e s') ->
  wp (fsinit dev) e s Q.
Proof.
  intros sb start lsize Hdk Hbc Hlen Hmagic Ht Hhd HQ. unfold fsinit. apply wp_seq. eapply readsb_wp; [exact Hbc|done..|].
  intros bs Hbc1. change (sb_parse (bv_L (empty_view d) 1)) with sb in *. set (s1 := with_bufs bs (set_sb sb s)) in *.
  apply wp_bind. unfold get_sb. apply wp_gets. change (fs_sb (k_fs s1)) with sb. apply wp_seq. unfold when. rewrite Hmagic.
  cbn [negb]. rewrite Z.eqb_refl. cbn [negb]. apply wp_ret.
  eapply initlog_wp; [reflexivity|reflexivity|exact Ht|exact Hlen|exact Hbc1|done..|].
  intros s' l L' h Hl Hh Hbc' [bs' ->]. apply (HQ _ l h L'); [exact Hl|apply Hh|exact Hbc'|done|done|].
  change (fs_disk (k_fs (set_log l (log_lock_init s1)))) with (fs_disk (k_fs s)). by rewrite Hdk.
Qed.
End boot.

(** C14: The kernel starts from an image of mkfs: fsinit accepts the super block,
    finds nothing to recover, and leaves the buffer cache and the log ready for
    the first transaction, with the files and the directory of the image in
    place. *)
Theorem mkfs_boots `{DiskDriver} host_create host_read prog image args :
  host_create image = true -> Forall (arg_ok host_read) args -> 2 + Z.of_nat (length args) <= NINODES ->
  blocks_needed host_read args <= FSSIZE ->
  exists s, mkfs_main host_create host_read (prog :: image :: args) mkst0 = MOk tt s /\
    length (mk_img s) = Z.to_nat FSSIZE /\ Forall (fun d => length d = Z.to_nat BSIZE) (mk_img s) /\
    forall me pid dev e t,
      (forall b, 0 <= b < FSSIZE -> disk_block (fs_disk (k_fs t)) b = sect (mk_img s) b) ->
      bc me pid dev (empty_view (fs_disk (k_fs t))) t -> length (lh_block (log_lh (fs_log (k_fs t)))) = Z.to_nat LOGSIZE ->
      exists t' L', fsinit dev e t = Ok tt e t' /\ fs_sb (k_fs t') = mk_sb /\
        log_is dev 2 nlog (log_outstanding (fs_log (k_fs t))) (log_committing (fs_log (k_fs t))) [] (fs_log (k_fs t')) /\
        bc me pid dev (BView L' ∅ ∅ ∅) t' /\ image_ok host_read L' (freeblock s) args.
Proof.
  intros Hc Hok Hn Hfull. destruct (mkfs_run host_create host_read prog image args Hc Hok Hn Hfull) as (img & X & C & E & B & Hz & HC1 & HCf).
  eexists. split; [exact E|]. cbn [mk_img freeblock]. destruct (built_size _ _ _ _ _ B) as [Hil Hs].
  split; [exact Hil|]. split; [exact Hs|]. intros me pid dev e t Hdisk Hbc Hlen. set (d := fs_disk (k_fs t)) in *.
  assert (Hsb : sb_parse (disk_block d 1) = mk_sb).
  { rewrite Hdisk by (unfold FSSIZE; lia). rewrite (bu_sb _ _ _ _ _ B). apply sb_block_parse. }
  assert (Hw : wp (fsinit dev) e t (fun _ e' t' => e' = e /\ exists L', fs_sb (k_fs t') = mk_sb /\
    log_is dev 2 nlog (log_outstanding (fs_log (k_fs t))) (log_committing (fs_log (k_fs t))) [] (fs_log (k_fs t')) /\
    bc me pid dev (BView L' ∅ ∅ ∅) t' /\ image_ok host_read L' (blocks_needed host_read args) args)).
  { eapply (fsinit_wp me pid dev d); rewrite ?Hsb; change (i32 (sb_logstart mk_sb)) with 2; change (i32 (sb_nlog mk_sb)) with nlog;
      [done|exact Hbc|exact Hlen|done|by eapply tx_ok_nil, tx_ex| |].
    - rewrite Hdisk, Hz by (unfold FSSIZE; lia). apply zeros_header.
    - intros t' l h L' Hl Hh Hbc' Hsb' Hlog Hdk. split; [done|]. exists L'. split; [done|]. split; [by rewrite Hlog|]. split; [exact Hbc'|].
      eapply (built_image_ok host_read _ _ X C L'); [apply (built_log _ _ _ _ _ 2 h B); [done|lia|done]| |done|done|done].
      intros b Hb. rewrite (bc_clean _ _ _ _ _ Hbc') by apply not_elem_of_empty. rewrite Hdk, disk_block_insert. cbn [bv_L].
      rewrite sect_insert by (unfold FSSIZE in *; try apply B; lia). case_decide; [done|]. by apply Hdisk. }
  apply wp_elim in Hw as ([] & e' & t' & Hrun & -> & L' & Hrest). by exists t', L'.
Qed.

(** The disk with the image in its first blocks. *)
Definition disk_of (img : list (list Z)) : gmap Z (list Z) := kmap Z.of_nat (map_seq 0 img).

Lemma disk_of_sect img b : 0 <= b < Z.of_nat (length img) -> disk_block (disk_of img) b = sect img b.
Proof.
  intros Hb. unfold disk_block, disk_of, sect. rewrite <- (Z2Nat.id b) at 1 by lia.
  rewrite lookup_kmap, lookup_map_seq_0 by apply _. destruct (lookup_lt_is_Some_2 img (Z.to_nat b)) as [d ->]; [lia|done].
Qed.

Lemma disk_of_ok img : Forall (fun d => length d = Z.to_nat BSIZE) img -> disk_ok (disk_of img).
Proof.
  intros Hf n b Hb. unfold disk_of in Hb. apply lookup_kmap_Some in Hb as (i & -> & Hi); [|apply _].
  rewrite lookup_map_seq_0 in Hi. by eapply (proj1 (Forall_lookup _ _) Hf).
Qed.

(** The kernel starts on the image with two files, and can read the first. *)
Lemma mkfs_boots_witness : exists s t' L',
  mkfs_main (fun _ => true) host_ex [[]; [102]; [117; 115; 101; 114; 47; 95; 108; 115]; [82]] mkst0 = MOk tt s /\
  @fsinit sync_disk 1 [] (kst_fs (disk_of (mk_img s))) = Ok tt [] t' /\ fs_sb (k_fs t') = mk_sb /\
  contents L' (load L' (i_set_id 1 2 inode0)) = [127; 69; 76].
Proof.
  destruct (@mkfs_boots sync_disk (fun _ => true) host_ex [] [102] [[117; 115; 101; 114; 47; 95; 108; 115]; [82]]) as (s & E & Hl & Hs & Hboot).
  - reflexivity.
  - apply host_ex_ok.
  - vm_compute. discriminate.
  - vm_compute. discriminate.
  - destruct (Hboot 0%nat 1 1 [] (kst_fs (disk_of (mk_img s)))) as (t' & L' & Ht & Hsb & _ & _ & [_ _ _ _ Hfile _]).
    + intros b Hb. apply disk_of_sect. rewrite Hl. unfold FSSIZE in *. lia.
    + apply bc_kst_fs, disk_of_ok, Hs.
    + reflexivity.
    + exists s, t', L'. split; [exact E|]. split; [exact Ht|]. split; [exact Hsb|].
      pose proof (Hfile (i_set_id 1 2 inode0) 0%nat [117; 115; 101; 114; 47; 95; 108; 115] eq_refl eq_refl) as (_ & _ & H1 & _).
      assert (E1 : content host_ex [117; 115; 101; 114; 47; 95; 108; 115] = [127; 69; 76]) by (vm_compute; reflexivity).
      rewrite E1 in H1. exact H1.
Defined.
