(* ===== verification/Stable.v ===== *)
(** Which code touches open files, descriptors and the fields that make up a process. The
    view of a state is the reference counts of ftable, what every process has (its memory,
    its files, its directory, its name) and the process of the running hart. A computation is
    stable for a view if it changes it only through what other threads do while it
    waits; the instances derive this from the text of the kernel, function by function.
    Routines that do change a process, or the counts, are stable for coarser views. *)

From S2P Require Import Prelude Machine KState Blocks Spinlock KString Kalloc Vm Proc Sleeplock Bio Log Fs Console Virtio File ProcFs Syscall.

(** What belongs to a process: nobody else changes it while the process is alive. Page
    table and trapframe are addresses; what is in these pages is not part of it. *)
Record pcore := PCore {
  pc_pid : Z;
  pc_kstack : Z;
  pc_sz : Z;
  pc_pagetable : Z;
  pc_trapframe : Z;
  pc_ofile : list (option nat);
  pc_cwd : option nat;
  pc_name : list Z }.
Definition pcore_of (p : proc) : pcore :=
  PCore (p_pid p) (p_kstack p) (p_sz p) (p_pagetable p) (p_trapframe p) (p_ofile p) (p_cwd p) (p_name p).

Record pview := PView {
  pv_refs : list Z;
  pv_cores : list pcore;
  pv_parents : list (option nat);
  pv_cur : option (option nat) }.

Definition pv (s : kst) : pview :=
  PView (f_ref <$> v_files (k_vfs s)) (pcore_of <$> ps_procs (k_ps s)) (p_parent <$> ps_procs (k_ps s)) (c_proc <$> h_cpus (k_hw s) !! h_hart (k_hw s)).

(** ** Stability *)

(** The instances are found by the name of the function alone. *)
#[local] Hint Constants Opaque : typeclass_instances.

Section view.
Context {V : Type} (view : kst -> V).

(** Whatever the others do keeps the invariant. *)
Definition env_keeps (I : V -> Prop) (e : env) : Prop := Forall (fun g => forall s, I (view s) -> I (view (g s))) e.

Lemma env_keeps_suffix I e e' : env_keeps I e -> e' `suffix_of` e -> env_keeps I e'.
Proof. intros He [k ->]. by apply Forall_app in He as [_ He]. Qed.

Class Stable {A} (m : K A) : Prop :=
  stable : forall (I : V -> Prop) e s a e' s',
    env_keeps I e -> I (view s) -> m e s = Ok a e' s' -> e' `suffix_of` e /\ I (view s').

#[export] Instance stable_ret {A} (a : A) : Stable (mret a).
Proof. intros I e s b e' s' He HI H. by injection H as _ <- <-. Qed.

#[export] Instance stable_bind {A B} (m : K A) (k : A -> K B) : Stable m -> (forall a, Stable (k a)) -> Stable (m ≫= k).
Proof.
  intros Hm Hk I e s b e' s' He HI. unfold mbind, K_bind. destruct (m e s) as [a e1 s1|msg| | |] eqn:E; try done.
  intros H. destruct (Hm I _ _ _ _ _ He HI E) as [He1 HI1].
  destruct (Hk a I _ _ _ _ _ (env_keeps_suffix _ _ _ He He1) HI1 H) as [He2 HI2]. split; [by trans e1|done].
Qed.

#[export] Instance stable_gets {A} (g : kst -> A) : Stable (gets g).
Proof. intros I e s b e' s' He HI H. by injection H as _ <- <-. Qed.
#[export] Instance stable_panic {A} msg : Stable (@panic A msg).
Proof. by intros I e s b e' s'. Qed.
#[export] Instance stable_fault {A} : Stable (@fault A).
Proof. by intros I e s b e' s'. Qed.
#[export] Instance stable_nofuel {A} : Stable (@nofuel A).
Proof. by intros I e s b e' s'. Qed.
#[export] Instance stable_block {A} : Stable (@block A).
Proof. by intros I e s b e' s'. Qed.
#[export] Instance stable_deref {A} (o : option A) : Stable (deref o).
Proof. destruct o; cbn [deref]; apply _. Qed.
#[export] Instance stable_when b m : Stable m -> Stable (when b m).
Proof. intros H. unfold when. destruct b; apply _. Qed.
#[export] Instance stable_forK {A} (l : list A) body : (forall x, Stable (body x)) -> Stable (forK l body).
Proof. intros H. induction l; simpl; apply _. Qed.

#[export] Instance stable_interfere : Stable interfere.
Proof.
  intros I e s b e' s' He HI. unfold interfere. destruct e as [|g e]; [done|]. apply Forall_cons in He as [Hg He].
  intros H. injection H as _ <- <-. split; [by exists [g]|]. by apply Hg.
Qed.

Lemma stable_modk g : (forall s, view (g s) = view s) -> Stable (modk g).
Proof. intros Hg I e s b e' s' He HI H. injection H as _ <- <-. by rewrite Hg. Qed.

#[export] Instance stable_sleeping {A} (f : nat -> K A) : (forall n, Stable (f n)) -> Stable (sleeping f).
Proof. intros H I e s b e' s' He HI. unfold sleeping. by apply H. Qed.
End view.

#[export] Hint Extern 1 (Stable _ (modk _)) => apply stable_modk; intros; reflexivity : typeclass_instances.

(** What is stable for a view is stable for a coarser one. *)
Lemma stable_coarser {V W} (view : kst -> V) (coarse : kst -> W) (h : V -> W) {A} (m : K A) :
  (forall s, coarse s = h (view s)) -> Stable view m -> Stable coarse m.
Proof.
  intros Hh Hm I e s a e' s' He HI H. rewrite Hh in *. apply (Hm (fun v => I (h v)) e s a e' s'); [|done|done].
  eapply Forall_impl; [exact He|]. intros g Hg t. rewrite <- !Hh. apply Hg.
Qed.

(** ** Computations that change the view *)

Section moves.
Context {V X : Type} (view : kst -> V) (P : X -> V -> Prop).

(** The other threads keep what the view says, at every index. *)
Definition others_keep (e : env) : Prop := forall x, env_keeps view (P x) e.

Lemma others_keep_suffix e e' : others_keep e -> e' `suffix_of` e -> others_keep e'.
Proof. intros He Hs x. by eapply env_keeps_suffix. Qed.
Lemma others_keep_nil : others_keep [].
Proof. intros x. by apply Forall_nil. Qed.

(** When [m] returns, the index has changed as [Q] says. *)
Definition moves {A} (m : K A) (x : X) (Q : A -> X -> Prop) : Prop :=
  forall e s a e' s', others_keep e -> P x (view s) -> m e s = Ok a e' s' ->
    e' `suffix_of` e /\ exists x', Q a x' /\ P x' (view s').

Lemma moves_stable {A} (m : K A) x : Stable view m -> moves m x (fun _ x' => x' = x).
Proof.
  intros Hm e s a e' s' He Hb H. destruct (Hm _ _ _ _ _ _ (He x) Hb H) as [Hs Hb']. split; [done|]. by exists x.
Qed.

Lemma moves_result {A} (m : K A) x (R : A -> Prop) : Stable view m ->
  (forall e s a e' s', m e s = Ok a e' s' -> R a) -> moves m x (fun a x' => x' = x /\ R a).
Proof.
  intros Hm HR e s a e' s' He Hb H. destruct (moves_stable m x Hm _ _ _ _ _ He Hb H) as (Hs & x' & -> & Hb').
  split; [done|]. exists x. split; [|done]. split; [done|]. by eapply HR.
Qed.

Lemma moves_bind {A B} (m : K A) (k : A -> K B) x Q R :
  moves m x Q -> (forall a x', Q a x' -> moves (k a) x' R) -> moves (m ≫= k) x R.
Proof.
  intros Hm Hk e s b e' s' He Hb. unfold mbind, K_bind. destruct (m e s) as [a e1 s1|msg| | |] eqn:E; try done. intros H.
  destruct (Hm _ _ _ _ _ He Hb E) as (Hs & x1 & HQ & Hb1).
  destruct (Hk _ _ HQ _ _ _ _ _ (others_keep_suffix _ _ He Hs) Hb1 H) as (Hs2 & Hrest). split; [by trans e1|done].
Qed.

Lemma moves_mono {A} (m : K A) x (Q R : A -> X -> Prop) :
  moves m x Q -> (forall a x', Q a x' -> R a x') -> moves m x R.
Proof.
  intros Hm HQ e s a e' s' He Hb H. destruct (Hm _ _ _ _ _ He Hb H) as (Hs & x' & H1 & H2). split; [done|]. exists x'. auto.
Qed.

Lemma moves_ret {A} (a : A) x (Q : A -> X -> Prop) : Q a x -> moves (mret a) x Q.
Proof. intros HQ e s b e' s' He Hb H. injection H as <- <- <-. split; [done|]. by exists x. Qed.

Lemma moves_seq_stable {A B} (m : K A) (k : A -> K B) x R : Stable view m -> (forall a, moves (k a) x R) -> moves (m ≫= k) x R.
Proof. intros Hm Hk. eapply moves_bind; [by apply moves_stable|]. intros a x' ->. apply Hk. Qed.

(** Whatever is left is stable. *)
Lemma moves_rest {A} (m : K A) x (R : A -> X -> Prop) : Stable view m -> (forall a, R a x) -> moves m x R.
Proof. intros Hm HR. eapply moves_mono; [by apply moves_stable|]. by intros a x' ->. Qed.

Lemma moves_end {A} (m : K A) x (R : X -> Prop) e s a e' s' :
  others_keep e -> P x (view s) -> m e s = Ok a e' s' -> Stable view m -> R x ->
  e' `suffix_of` e /\ exists x', R x' /\ P x' (view s').
Proof.
  intros He Hb H Hm HR. destruct (moves_stable m x Hm _ _ _ _ _ He Hb H) as (Hs & x' & -> & Hb'). split; [done|]. by exists x.
Qed.

Lemma moves_deref {A} (o : option A) x : moves (deref o) x (fun a x' => o = Some a /\ x' = x).
Proof. destruct o as [a|]; [by apply moves_ret|]. by intros e s a e' s' ? ? H. Qed.

(** A computation that does not return. *)
Lemma moves_never {A} (m : K A) x Q : (forall e s a e' s', m e s <> Ok a e' s') -> moves m x Q.
Proof. intros Hm e s a e' s' _ _ H. by apply Hm in H. Qed.
End moves.

(** Splits a computation into its parts. *)
Ltac stable_step :=
  lazymatch goal with
  | |- forall _, _ => intros ?
  | |- Stable _ (_ ≫= _) => apply stable_bind
  | |- Stable _ (when _ _) => apply stable_when
  | |- Stable _ (forK _ _) => apply stable_forK
  | |- Stable _ (sleeping _) => apply stable_sleeping
  | |- Stable _ (match ?x with _ => _ end) => destruct x
  | |- Stable _ (let x := _ in _) => cbv zeta
  | |- Stable _ _ =>
    match goal with
    | H : context [Stable _ _] |- _ => apply H
    | _ => apply _
    end
  end.
Ltac stable := cbv zeta; repeat stable_step.

(** ** Fields the view does not show *)

Lemma insert_same {A B} (f : A -> B) (l : list A) i x y : l !! i = Some x -> f y = f x -> f <$> <[i := y]> l = f <$> l.
Proof. intros Hx E. rewrite list_fmap_insert, E. apply list_insert_id. by rewrite list_lookup_fmap, Hx. Qed.

Lemma stable_upd_proc i g : (forall p, pcore_of (g p) = pcore_of p /\ p_parent (g p) = p_parent p) -> Stable pv (upd_proc i g).
Proof.
  intros Hg I e s b e' s' He HI. unfold upd_proc, get_proc, mbind, K_bind, gets, deref, modk.
  destruct (ps_procs (k_ps s) !! i) as [p|] eqn:Ep; [|done]. intros H. injection H as _ <- <-. split; [done|].
  replace (pv _) with (pv s); [done|]. unfold pv. cbn.
  by rewrite (insert_same pcore_of _ i p), (insert_same p_parent _ i p) by (done || apply Hg).
Qed.
#[export] Hint Extern 1 (Stable pv (upd_proc _ _)) => apply stable_upd_proc; intros; split; reflexivity : typeclass_instances.

Lemma stable_upd_cpu c g : (forall x, c_proc (g x) = c_proc x) -> Stable pv (upd_cpu c g).
Proof.
  intros Hg I e s b e' s' He HI. unfold upd_cpu, get_cpu, mbind, K_bind, gets, deref, modk.
  destruct (h_cpus (k_hw s) !! c) as [x|] eqn:Ex; [|done]. intros H. injection H as _ <- <-. split; [done|].
  replace (pv _) with (pv s); [done|]. unfold pv. cbn. f_equal.
  rewrite <- !list_lookup_fmap. by rewrite (insert_same c_proc _ c x).
Qed.
#[export] Hint Extern 1 (Stable pv (upd_cpu _ _)) => apply stable_upd_cpu; intros; reflexivity : typeclass_instances.

Lemma stable_upd_file f g : (forall x, f_ref (g x) = f_ref x) -> Stable pv (upd_file f g).
Proof.
  intros Hg I e s b e' s' He HI. unfold upd_file, get_file, mbind, K_bind, gets, deref, modk.
  destruct (v_files (k_vfs s) !! f) as [x|] eqn:Ex; [|done]. intros H. injection H as _ <- <-. split; [done|].
  replace (pv _) with (pv s); [done|]. unfold pv. cbn. by rewrite (insert_same f_ref _ f x).
Qed.
#[export] Hint Extern 1 (Stable pv (upd_file _ _)) => apply stable_upd_file; intros; reflexivity : typeclass_instances.

(** ** spinlock.c *)

#[export] Instance stable_cpuid : Stable pv cpuid.
Proof. unfold cpuid. stable. Qed.
#[export] Instance stable_mycpu : Stable pv mycpu.
Proof. unfold mycpu. stable. Qed.
#[export] Instance stable_intr_get : Stable pv intr_get.
Proof. unfold intr_get. stable. Qed.
#[export] Instance stable_intr_set b : Stable pv (intr_set b).
Proof. unfold intr_set. stable. Qed.
#[export] Instance stable_get_cpu c : Stable pv (get_cpu c).
Proof. unfold get_cpu. stable. Qed.
#[export] Instance stable_get_lock l : Stable pv (get_lock l).
Proof. unfold get_lock. stable. Qed.
#[export] Instance stable_put_lock l x : Stable pv (put_lock l x).
Proof. unfold put_lock. stable. Qed.
#[export] Instance stable_initlock l n : Stable pv (initlock l n).
Proof. unfold initlock. stable. Qed.
#[export] Instance stable_holding l : Stable pv (holding l).
Proof. unfold holding. stable. Qed.
#[export] Instance stable_push_off : Stable pv push_off.
Proof. unfold push_off, intr_off. stable. Qed.
#[export] Instance stable_pop_off : Stable pv pop_off.
Proof. unfold pop_off, intr_on. stable. Qed.

#[export] Instance stable_acquire_spin l : Stable pv (acquire_spin l).
Proof.
  intros I e. induction e as [|g e IH]; intros s a e' s' He HI; cbn [acquire_spin]; destruct (h_locks (k_hw s) !! l) as [lk|]; try done;
    destruct (lk_locked lk =? 0); try done; try (intros H; injection H as _ <- <-; done).
  apply Forall_cons in He as [Hg He]. intros H. apply IH in H as [[k ->] HI']; [|done|by apply Hg]. split; [by exists (g :: k)|done].
Qed.
#[export] Instance stable_acquire l : Stable pv (acquire l).
Proof. unfold acquire. stable. Qed.
#[export] Instance stable_release l : Stable pv (release l).
Proof. unfold release. stable. Qed.

(** ** Memory *)

#[export] Instance stable_getmem : Stable pv getmem.
Proof. unfold getmem. stable. Qed.
#[export] Instance stable_setmem f : Stable pv (setmem f).
Proof. unfold setmem. stable. Qed.
#[export] Instance stable_kload64 a : Stable pv (kload64 a).
Proof. unfold kload64. stable. Qed.
#[export] Instance stable_kstore64 a v : Stable pv (kstore64 a v).
Proof. unfold kstore64. stable. Qed.
#[export] Instance stable_kload8 a : Stable pv (kload8 a).
Proof. unfold kload8. stable. Qed.
#[export] Instance stable_kstore8 a v : Stable pv (kstore8 a v).
Proof. unfold kstore8. stable. Qed.
#[export] Instance stable_printf msg : Stable pv (printf msg).
Proof. unfold printf. stable. Qed.

(** ** kalloc.c *)

#[export] Instance stable_kmemset dst c n : Stable pv (kmemset dst c n).
Proof. unfold kmemset. stable. Qed.
#[export] Instance stable_kmemmove dst src n : Stable pv (kmemmove dst src n).
Proof. unfold kmemmove. stable. Qed.
#[export] Instance stable_get_freelist : Stable pv (get_freelist).
Proof. unfold get_freelist. stable. Qed.
#[export] Instance stable_set_freelist a : Stable pv (set_freelist a).
Proof. unfold set_freelist. stable. Qed.
#[export] Instance stable_kfree pa : Stable pv (kfree pa).
Proof. unfold kfree. stable. Qed.
#[export] Instance stable_kalloc : Stable pv (kalloc).
Proof. unfold kalloc. stable. Qed.

(** ** vm.c *)

#[export] Instance stable_walk_loop level pagetable va alloc : Stable pv (walk_loop level pagetable va alloc).
Proof. revert pagetable va alloc. induction level; intros; cbn [walk_loop]; stable. Qed.
#[export] Instance stable_walk pagetable va alloc : Stable pv (walk pagetable va alloc).
Proof. unfold walk. stable. Qed.
#[export] Instance stable_walkaddr pagetable va : Stable pv (walkaddr pagetable va).
Proof. unfold walkaddr. stable. Qed.
#[export] Instance stable_mappages_loop fuel pagetable a last pa perm : Stable pv (mappages_loop fuel pagetable a last pa perm).
Proof. revert pagetable a last pa perm. induction fuel; intros; cbn [mappages_loop]; stable. Qed.
#[export] Instance stable_mappages pagetable va size pa perm : Stable pv (mappages pagetable va size pa perm).
Proof. unfold mappages. stable. Qed.
#[export] Instance stable_uvmunmap_loop fuel pagetable a bound do_free : Stable pv (uvmunmap_loop fuel pagetable a bound do_free).
Proof. revert pagetable a bound do_free. induction fuel; intros; cbn [uvmunmap_loop]; stable. Qed.
#[export] Instance stable_uvmunmap pagetable va npages do_free : Stable pv (uvmunmap pagetable va npages do_free).
Proof. unfold uvmunmap. stable. Qed.
#[export] Instance stable_uvmcreate : Stable pv (uvmcreate).
Proof. unfold uvmcreate. stable. Qed.
#[export] Instance stable_uvmdealloc pagetable oldsz newsz : Stable pv (uvmdealloc pagetable oldsz newsz).
Proof. unfold uvmdealloc. stable. Qed.
#[export] Instance stable_uvmalloc_loop fuel pagetable oldsz a newsz xperm : Stable pv (uvmalloc_loop fuel pagetable oldsz a newsz xperm).
Proof. revert pagetable oldsz a newsz xperm. induction fuel; intros; cbn [uvmalloc_loop]; stable. Qed.
#[export] Instance stable_uvmalloc pagetable oldsz newsz xperm : Stable pv (uvmalloc pagetable oldsz newsz xperm).
Proof. unfold uvmalloc. stable. Qed.
#[export] Instance stable_freewalk depth pagetable : Stable pv (freewalk depth pagetable).
Proof. revert pagetable. induction depth; intros; cbn [freewalk]; stable. Qed.
#[export] Instance stable_uvmfree pagetable sz : Stable pv (uvmfree pagetable sz).
Proof. unfold uvmfree. stable. Qed.
#[export] Instance stable_uvmcopy_loop fuel old new i sz : Stable pv (uvmcopy_loop fuel old new i sz).
Proof. revert old new i sz. induction fuel; intros; cbn [uvmcopy_loop]; stable. Qed.
#[export] Instance stable_uvmcopy old new sz : Stable pv (uvmcopy old new sz).
Proof. unfold uvmcopy. stable. Qed.
#[export] Instance stable_uvmclear pagetable va : Stable pv (uvmclear pagetable va).
Proof. unfold uvmclear. stable. Qed.
#[export] Instance stable_copyout_loop fuel pagetable dstva src : Stable pv (copyout_loop fuel pagetable dstva src).
Proof. revert pagetable dstva src. induction fuel; intros; cbn [copyout_loop]; stable. Qed.
#[export] Instance stable_copyout pagetable dstva src : Stable pv (copyout pagetable dstva src).
Proof. unfold copyout. stable. Qed.
#[export] Instance stable_copyin_loop fuel pagetable srcva len acc : Stable pv (copyin_loop fuel pagetable srcva len acc).
Proof. revert pagetable srcva len acc. induction fuel; intros; cbn [copyin_loop]; stable. Qed.
#[export] Instance stable_copyin pagetable srcva len : Stable pv (copyin pagetable srcva len).
Proof. unfold copyin. stable. Qed.
#[export] Instance stable_copyinstr_loop fuel pagetable srcva max acc : Stable pv (copyinstr_loop fuel pagetable srcva max acc).
Proof. revert pagetable srcva max acc. induction fuel; intros; cbn [copyinstr_loop]; stable. Qed.
#[export] Instance stable_copyinstr pagetable srcva max : Stable pv (copyinstr pagetable srcva max).
Proof. unfold copyinstr. stable. Qed.

(** ** proc.c *)

#[export] Instance stable_get_proc i : Stable pv (get_proc i).
Proof. unfold get_proc. stable. Qed.
#[export] Instance stable_myproc : Stable pv (myproc).
Proof. unfold myproc. stable. Qed.
#[export] Instance stable_curproc : Stable pv (curproc).
Proof. unfold curproc. stable. Qed.
#[export] Instance stable_allocpid : Stable pv (allocpid).
Proof. unfold allocpid. stable. Qed.
#[export] Instance stable_proc_pagetable i : Stable pv (proc_pagetable i).
Proof. unfold proc_pagetable. stable. Qed.
#[export] Instance stable_proc_freepagetable pagetable sz : Stable pv (proc_freepagetable pagetable sz).
Proof. unfold proc_freepagetable. stable. Qed.
#[export] Instance stable_allocproc_find l : Stable pv (allocproc_find l).
Proof. induction l; intros; cbn [allocproc_find]; stable. Qed.
#[export] Instance stable_swtch : Stable pv (swtch).
Proof. unfold swtch. stable. Qed.
#[export] Instance stable_sched : Stable pv (sched).
Proof. unfold sched. stable. Qed.
#[export] Instance stable_sleep ch lk : Stable pv (sleep ch lk).
Proof. unfold sleep. stable. Qed.
#[export] Instance stable_wakeup ch : Stable pv (wakeup ch).
Proof. unfold wakeup. stable. Qed.
#[export] Instance stable_kill_loop l pid : Stable pv (kill_loop l pid).
Proof. revert pid. induction l; intros; cbn [kill_loop]; stable. Qed.
#[export] Instance stable_kill pid : Stable pv (kill pid).
Proof. unfold kill. stable. Qed.
#[export] Instance stable_killed i : Stable pv (killed i).
Proof. unfold killed. stable. Qed.
#[export] Instance stable_either_copyout dst src : Stable pv (either_copyout dst src).
Proof. unfold either_copyout. stable. Qed.
#[export] Instance stable_either_copyin src len : Stable pv (either_copyin src len).
Proof. unfold either_copyin. stable. Qed.

(** ** sleeplock.c *)

#[export] Instance stable_get_sl x : Stable pv (get_sl x).
Proof. unfold get_sl. stable. Qed.
#[export] Instance stable_put_sl x v : Stable pv (put_sl x v).
Proof. unfold put_sl. stable. Qed.
#[export] Instance stable_initsleeplock x name : Stable pv (initsleeplock x name).
Proof. unfold initsleeplock. stable. Qed.
#[export] Instance stable_acquiresleep_loop fuel x : Stable pv (acquiresleep_loop fuel x).
Proof. revert x. induction fuel; intros; cbn [acquiresleep_loop]; stable. Qed.
#[export] Instance stable_acquiresleep x : Stable pv (acquiresleep x).
Proof. unfold acquiresleep. stable. Qed.
#[export] Instance stable_releasesleep x : Stable pv (releasesleep x).
Proof. unfold releasesleep. stable. Qed.
#[export] Instance stable_holdingsleep x : Stable pv (holdingsleep x).
Proof. unfold holdingsleep. stable. Qed.

(** The driver of the disk is a parameter of what follows. *)
Section driver.
Context `{DD : DiskDriver} `{Hdisk : !forall b w, Stable pv (virtio_disk_rw b w)}.

(** ** bio.c *)

#[export] Instance stable_get_buf b : Stable pv (get_buf b).
Proof. unfold get_buf. stable. Qed.
#[export] Instance stable_upd_buf b g : Stable pv (upd_buf b g).
Proof. unfold upd_buf. stable. Qed.
#[export] Instance stable_bget_cached fuel b dev blockno : Stable pv (bget_cached fuel b dev blockno).
Proof. revert b dev blockno. induction fuel; intros; cbn [bget_cached]; stable. Qed.
#[export] Instance stable_bget_lru fuel b : Stable pv (bget_lru fuel b).
Proof. revert b. induction fuel; intros; cbn [bget_lru]; stable. Qed.
#[export] Instance stable_bget dev blockno : Stable pv (bget dev blockno).
Proof. unfold bget. stable. Qed.
#[export] Instance stable_bread dev blockno : Stable pv (bread dev blockno).
Proof. unfold bread. stable. Qed.
#[export] Instance stable_bwrite b : Stable pv (bwrite b).
Proof. unfold bwrite. stable. Qed.
#[export] Instance stable_brelse_move b : Stable pv (brelse_move b).
Proof. unfold brelse_move. stable. Qed.
#[export] Instance stable_brelse b : Stable pv (brelse b).
Proof. unfold brelse. stable. Qed.
#[export] Instance stable_bpin b : Stable pv (bpin b).
Proof. unfold bpin. stable. Qed.
#[export] Instance stable_bunpin b : Stable pv (bunpin b).
Proof. unfold bunpin. stable. Qed.

(** ** log.c *)

#[export] Instance stable_get_log : Stable pv (get_log).
Proof. unfold get_log. stable. Qed.
#[export] Instance stable_upd_log g : Stable pv (upd_log g).
Proof. unfold upd_log. stable. Qed.
#[export] Instance stable_log_n : Stable pv (log_n).
Proof. unfold log_n. stable. Qed.
#[export] Instance stable_log_set_n n : Stable pv (log_set_n n).
Proof. unfold log_set_n. stable. Qed.
#[export] Instance stable_log_block i : Stable pv (log_block i).
Proof. unfold log_block. stable. Qed.
#[export] Instance stable_log_set_block i v : Stable pv (log_set_block i v).
Proof. unfold log_set_block. stable. Qed.
#[export] Instance stable_buf_get32 b off : Stable pv (buf_get32 b off).
Proof. unfold buf_get32. stable. Qed.
#[export] Instance stable_buf_put32 b off v : Stable pv (buf_put32 b off v).
Proof. unfold buf_put32. stable. Qed.
#[export] Instance stable_for_below fuel i bound body :
  Stable pv bound -> (forall j, Stable pv (body j)) -> Stable pv (for_below fuel i bound body).
Proof. intros Hb Hbody. revert i. induction fuel; intros; cbn [for_below]; stable. Qed.
#[export] Instance stable_install_one recovering tail : Stable pv (install_one recovering tail).
Proof. unfold install_one. stable. Qed.
#[export] Instance stable_install_trans recovering : Stable pv (install_trans recovering).
Proof. unfold install_trans. stable. Qed.
#[export] Instance stable_write_head_one buf i : Stable pv (write_head_one buf i).
Proof. unfold write_head_one. stable. Qed.
#[export] Instance stable_write_head : Stable pv (write_head).
Proof. unfold write_head. stable. Qed.
#[export] Instance stable_begin_op_loop fuel : Stable pv (begin_op_loop fuel).
Proof. induction fuel; intros; cbn [begin_op_loop]; stable. Qed.
#[export] Instance stable_begin_op : Stable pv (begin_op).
Proof. unfold begin_op. stable. Qed.
#[export] Instance stable_write_log_one tail : Stable pv (write_log_one tail).
Proof. unfold write_log_one. stable. Qed.
#[export] Instance stable_write_log : Stable pv (write_log).
Proof. unfold write_log. stable. Qed.
#[export] Instance stable_commit : Stable pv (commit).
Proof. unfold commit. stable. Qed.
#[export] Instance stable_end_op : Stable pv (end_op).
Proof. unfold end_op. stable. Qed.
#[export] Instance stable_log_search fuel i n : Stable pv (log_search fuel i n).
Proof. revert i n. induction fuel; intros; cbn [log_search]; stable. Qed.
#[export] Instance stable_log_write b : Stable pv (log_write b).
Proof. unfold log_write. stable. Qed.

(** ** fs.c *)

#[export] Instance stable_get_inode i : Stable pv (get_inode i).
Proof. unfold get_inode. stable. Qed.
#[export] Instance stable_upd_inode i g : Stable pv (upd_inode i g).
Proof. unfold upd_inode. stable. Qed.
#[export] Instance stable_get_sb : Stable pv (get_sb).
Proof. unfold get_sb. stable. Qed.
#[export] Instance stable_get_addr ip i : Stable pv (get_addr ip i).
Proof. unfold get_addr. stable. Qed.
#[export] Instance stable_set_addr ip i v : Stable pv (set_addr ip i v).
Proof. unfold set_addr. stable. Qed.
#[export] Instance stable_bzero dev bno : Stable pv (bzero dev bno).
Proof. unfold bzero. stable. Qed.
#[export] Instance stable_balloc_loop fuel dev b : Stable pv (balloc_loop fuel dev b).
Proof. revert dev b. induction fuel; intros; cbn [balloc_loop]; stable. Qed.
#[export] Instance stable_balloc dev : Stable pv (balloc dev).
Proof. unfold balloc. stable. Qed.
#[export] Instance stable_bfree dev b : Stable pv (bfree dev b).
Proof. unfold bfree. stable. Qed.
#[export] Instance stable_iget_find l empty dev inum : Stable pv (iget_find l empty dev inum).
Proof. revert empty dev inum. induction l; intros; cbn [iget_find]; stable. Qed.
#[export] Instance stable_iget dev inum : Stable pv (iget dev inum).
Proof. unfold iget. stable. Qed.
#[export] Instance stable_ialloc_loop fuel dev inum type : Stable pv (ialloc_loop fuel dev inum type).
Proof. revert dev inum type. induction fuel; intros; cbn [ialloc_loop]; stable. Qed.
#[export] Instance stable_ialloc dev type : Stable pv (ialloc dev type).
Proof. unfold ialloc. stable. Qed.
#[export] Instance stable_iupdate ip : Stable pv (iupdate ip).
Proof. unfold iupdate. stable. Qed.
#[export] Instance stable_idup ip : Stable pv (idup ip).
Proof. unfold idup. stable. Qed.
#[export] Instance stable_ilock p : Stable pv (ilock p).
Proof. unfold ilock. stable. Qed.
#[export] Instance stable_iunlock p : Stable pv (iunlock p).
Proof. unfold iunlock. stable. Qed.
#[export] Instance stable_itrunc_one ip i : Stable pv (itrunc_one ip i).
Proof. unfold itrunc_one. stable. Qed.
#[export] Instance stable_itrunc_indirect ip bp j : Stable pv (itrunc_indirect ip bp j).
Proof. unfold itrunc_indirect. stable. Qed.
#[export] Instance stable_itrunc ip : Stable pv (itrunc ip).
Proof. unfold itrunc. stable. Qed.
#[export] Instance stable_iput ip : Stable pv (iput ip).
Proof. unfold iput. stable. Qed.
#[export] Instance stable_iunlockput p : Stable pv (iunlockput p).
Proof. unfold iunlockput. stable. Qed.
#[export] Instance stable_bmap ip bn : Stable pv (bmap ip bn).
Proof. unfold bmap. stable. Qed.
#[export] Instance stable_stati ip : Stable pv (stati ip).
Proof. unfold stati. stable. Qed.
#[export] Instance stable_readi_loop fuel ip dst off n tot acc : Stable pv (readi_loop fuel ip dst off n tot acc).
Proof. revert ip dst off n tot acc. induction fuel; intros; cbn [readi_loop]; stable. Qed.
#[export] Instance stable_readi ip dst off n : Stable pv (readi ip dst off n).
Proof. unfold readi. stable. Qed.
#[export] Instance stable_writei_loop fuel ip src off n tot : Stable pv (writei_loop fuel ip src off n tot).
Proof. revert ip src off n tot. induction fuel; intros; cbn [writei_loop]; stable. Qed.
#[export] Instance stable_writei ip src off n : Stable pv (writei ip src off n).
Proof. unfold writei. stable. Qed.
#[export] Instance stable_dirlookup_loop fuel dp name off : Stable pv (dirlookup_loop fuel dp name off).
Proof. revert dp name off. induction fuel; intros; cbn [dirlookup_loop]; stable. Qed.
#[export] Instance stable_dirlookup dp name : Stable pv (dirlookup dp name).
Proof. unfold dirlookup. stable. Qed.
#[export] Instance stable_dirlink_find fuel dp off : Stable pv (dirlink_find fuel dp off).
Proof. revert dp off. induction fuel; intros; cbn [dirlink_find]; stable. Qed.
#[export] Instance stable_dirlink dp name inum : Stable pv (dirlink dp name inum).
Proof. unfold dirlink. stable. Qed.
#[export] Instance stable_namex_loop fuel ip path nameiparent name : Stable pv (namex_loop fuel ip path nameiparent name).
Proof. revert ip path nameiparent name. induction fuel; intros; cbn [namex_loop]; stable. Qed.
#[export] Instance stable_namex path nameiparent name : Stable pv (namex path nameiparent name).
Proof. unfold namex. stable. Qed.
#[export] Instance stable_namei path : Stable pv (namei path).
Proof. unfold namei. stable. Qed.
#[export] Instance stable_nameiparent path name : Stable pv (nameiparent path name).
Proof. unfold nameiparent. stable. Qed.

(** ** uart.c, console.c and printf.c *)

#[export] Instance stable_get_dev : Stable pv (get_dev).
Proof. unfold get_dev. stable. Qed.
#[export] Instance stable_upd_dev f : Stable pv (upd_dev f).
Proof. unfold upd_dev. stable. Qed.
#[export] Instance stable_get_uart : Stable pv (get_uart).
Proof. unfold get_uart. stable. Qed.
#[export] Instance stable_upd_uart f : Stable pv (upd_uart f).
Proof. unfold upd_uart. stable. Qed.
#[export] Instance stable_get_cons : Stable pv (get_cons).
Proof. unfold get_cons. stable. Qed.
#[export] Instance stable_upd_cons f : Stable pv (upd_cons f).
Proof. unfold upd_cons. stable. Qed.
#[export] Instance stable_ReadReg reg : Stable pv (ReadReg reg).
Proof. unfold ReadReg. stable. Qed.
#[export] Instance stable_WriteReg reg v : Stable pv (WriteReg reg v).
Proof. unfold WriteReg. stable. Qed.
#[export] Instance stable_uartstart_loop fuel : Stable pv (uartstart_loop fuel).
Proof. induction fuel; intros; cbn [uartstart_loop]; stable. Qed.
#[export] Instance stable_uartstart : Stable pv (uartstart).
Proof. unfold uartstart. stable. Qed.
#[export] Instance stable_stop_if_panicked : Stable pv (stop_if_panicked).
Proof. unfold stop_if_panicked. stable. Qed.
#[export] Instance stable_uartputc_wait fuel : Stable pv (uartputc_wait fuel).
Proof. induction fuel; intros; cbn [uartputc_wait]; stable. Qed.
#[export] Instance stable_uartputc c : Stable pv (uartputc c).
Proof. unfold uartputc. stable. Qed.
#[export] Instance stable_uartputc_spin fuel : Stable pv (uartputc_spin fuel).
Proof. induction fuel; intros; cbn [uartputc_spin]; stable. Qed.
#[export] Instance stable_uartputc_sync c : Stable pv (uartputc_sync c).
Proof. unfold uartputc_sync. stable. Qed.
#[export] Instance stable_consputc c : Stable pv (consputc c).
Proof. unfold consputc. stable. Qed.
#[export] Instance stable_printint xx base sign : Stable pv (printint xx base sign).
Proof. unfold printint. stable. Qed.
#[export] Instance stable_printptr_loop n x : Stable pv (printptr_loop n x).
Proof. revert x. induction n; intros; cbn [printptr_loop]; stable. Qed.
#[export] Instance stable_printptr x : Stable pv (printptr x).
Proof. unfold printptr. stable. Qed.
#[export] Instance stable_put_string s : Stable pv (put_string s).
Proof. induction s; intros; cbn [put_string]; stable. Qed.
#[export] Instance stable_printf_loop fmt ap : Stable pv (printf_loop fmt ap).
Proof.
  revert ap. induction fmt as [fmt IH] using (induction_ltof1 _ (@length Z)); unfold ltof in IH; intros.
  destruct fmt as [|c fmt]; cbn [printf_loop]; stable; simpl; lia.
Qed.
#[export] Instance stable_kprintf fmt ap : Stable pv (kprintf fmt ap).
Proof. unfold kprintf. stable. Qed.
#[export] Instance stable_consolewrite_loop k src i : Stable pv (consolewrite_loop k src i).
Proof. revert src i. induction k; intros; cbn [consolewrite_loop]; stable. Qed.
#[export] Instance stable_consolewrite src n : Stable pv (consolewrite src n).
Proof. unfold consolewrite. stable. Qed.
#[export] Instance stable_consoleread_wait fuel : Stable pv (consoleread_wait fuel).
Proof. induction fuel; intros; cbn [consoleread_wait]; stable. Qed.
#[export] Instance stable_consoleread_loop n dst target : Stable pv (consoleread_loop n dst target).
Proof. revert dst target. induction n; intros; cbn [consoleread_loop]; stable. Qed.
#[export] Instance stable_consoleread dst n : Stable pv (consoleread dst n).
Proof. unfold consoleread. stable. Qed.

(** ** file.c and pipe.c *)

#[export] Instance stable_get_file f : Stable pv (get_file f).
Proof. unfold get_file. stable. Qed.
#[export] Instance stable_get_pipe pi : Stable pv (get_pipe pi).
Proof. unfold get_pipe. stable. Qed.
#[export] Instance stable_upd_pipe pi g : Stable pv (upd_pipe pi g).
Proof. unfold upd_pipe. stable. Qed.
#[export] Instance stable_pipeclose pi writable : Stable pv (pipeclose pi writable).
Proof. unfold pipeclose. stable. Qed.
#[export] Instance stable_pipewrite_loop fuel pi pr addr n i : Stable pv (pipewrite_loop fuel pi pr addr n i).
Proof. revert pi pr addr n i. induction fuel; intros; cbn [pipewrite_loop]; stable. Qed.
#[export] Instance stable_pipewrite pi addr n : Stable pv (pipewrite pi addr n).
Proof. unfold pipewrite. stable. Qed.
#[export] Instance stable_piperead_wait fuel pi pr : Stable pv (piperead_wait fuel pi pr).
Proof. revert pi pr. induction fuel; intros; cbn [piperead_wait]; stable. Qed.
#[export] Instance stable_piperead_loop k pi pr addr i : Stable pv (piperead_loop k pi pr addr i).
Proof. revert pi pr addr i. induction k; intros; cbn [piperead_loop]; stable. Qed.
#[export] Instance stable_piperead pi addr n : Stable pv (piperead pi addr n).
Proof. unfold piperead. stable. Qed.
#[export] Instance stable_filestat f addr : Stable pv (filestat f addr).
Proof. unfold filestat. stable. Qed.
#[export] Instance stable_get_devsw major : Stable pv (get_devsw major).
Proof. unfold get_devsw. stable. Qed.
#[export] Instance stable_fileread f addr n : Stable pv (fileread f addr n).
Proof. unfold fileread. stable. Qed.
#[export] Instance stable_filewrite_loop fuel f addr n i : Stable pv (filewrite_loop fuel f addr n i).
Proof. revert f addr n i. induction fuel; intros; cbn [filewrite_loop]; stable. Qed.
#[export] Instance stable_filewrite f addr n : Stable pv (filewrite f addr n).
Proof. unfold filewrite. stable. Qed.

(** ** exec.c *)

#[export] Instance stable_tf_load i off : Stable pv (tf_load i off).
Proof. unfold tf_load. stable. Qed.
#[export] Instance stable_tf_store i off v : Stable pv (tf_store i off v).
Proof. unfold tf_store. stable. Qed.
#[export] Instance stable_loadseg_loop fuel pagetable va ip offset sz i : Stable pv (loadseg_loop fuel pagetable va ip offset sz i).
Proof. revert pagetable va ip offset sz i. induction fuel; intros; cbn [loadseg_loop]; stable. Qed.
#[export] Instance stable_loadseg pagetable va ip offset sz : Stable pv (loadseg pagetable va ip offset sz).
Proof. unfold loadseg. stable. Qed.
#[export] Instance stable_exec_load k ip pagetable off sz : Stable pv (exec_load k ip pagetable off sz).
Proof. revert ip pagetable off sz. induction k; intros; cbn [exec_load]; stable. Qed.
#[export] Instance stable_exec_args argv argc pagetable sp stackbase ustack : Stable pv (exec_args argv argc pagetable sp stackbase ustack).
Proof. revert argc pagetable sp stackbase ustack. induction argv; intros; cbn [exec_args]; stable. Qed.
#[export] Instance stable_exec_bad pagetable sz ip : Stable pv (exec_bad pagetable sz ip).
Proof. unfold exec_bad. stable. Qed.

(** ** syscall.c, sysproc.c and sysfile.c *)

#[export] Instance stable_fetchaddr addr : Stable pv (fetchaddr addr).
Proof. unfold fetchaddr. stable. Qed.
#[export] Instance stable_fetchstr addr max : Stable pv (fetchstr addr max).
Proof. unfold fetchstr. stable. Qed.
#[export] Instance stable_argraw n : Stable pv (argraw n).
Proof. unfold argraw. stable. Qed.
#[export] Instance stable_argint n : Stable pv (argint n).
Proof. unfold argint. stable. Qed.
#[export] Instance stable_argaddr n : Stable pv (argaddr n).
Proof. unfold argaddr. stable. Qed.
#[export] Instance stable_argstr n max : Stable pv (argstr n max).
Proof. unfold argstr. stable. Qed.
#[export] Instance stable_sys_getpid : Stable pv (sys_getpid).
Proof. unfold sys_getpid. stable. Qed.
#[export] Instance stable_get_ticks : Stable pv (get_ticks).
Proof. unfold get_ticks. stable. Qed.
#[export] Instance stable_sys_sleep_loop fuel ticks0 n : Stable pv (sys_sleep_loop fuel ticks0 n).
Proof. revert ticks0 n. induction fuel; intros; cbn [sys_sleep_loop]; stable. Qed.
#[export] Instance stable_sys_sleep : Stable pv (sys_sleep).
Proof. unfold sys_sleep. stable. Qed.
#[export] Instance stable_sys_kill : Stable pv (sys_kill).
Proof. unfold sys_kill. stable. Qed.
#[export] Instance stable_sys_uptime : Stable pv (sys_uptime).
Proof. unfold sys_uptime. stable. Qed.
#[export] Instance stable_argfd n : Stable pv (argfd n).
Proof. unfold argfd. stable. Qed.
#[export] Instance stable_sys_read : Stable pv (sys_read).
Proof. unfold sys_read. stable. Qed.
#[export] Instance stable_sys_write : Stable pv (sys_write).
Proof. unfold sys_write. stable. Qed.
#[export] Instance stable_sys_fstat : Stable pv (sys_fstat).
Proof. unfold sys_fstat. stable. Qed.
#[export] Instance stable_link_bad ip : Stable pv (link_bad ip).
Proof. unfold link_bad. stable. Qed.
#[export] Instance stable_sys_link : Stable pv (sys_link).
Proof. unfold sys_link. stable. Qed.
#[export] Instance stable_isdirempty_loop fuel dp off : Stable pv (isdirempty_loop fuel dp off).
Proof. revert dp off. induction fuel; intros; cbn [isdirempty_loop]; stable. Qed.
#[export] Instance stable_isdirempty dp : Stable pv (isdirempty dp).
Proof. unfold isdirempty. stable. Qed.
#[export] Instance stable_unlink_bad dp : Stable pv (unlink_bad dp).
Proof. unfold unlink_bad. stable. Qed.
#[export] Instance stable_sys_unlink : Stable pv (sys_unlink).
Proof. unfold sys_unlink. stable. Qed.
#[export] Instance stable_create_fail ip dp : Stable pv (create_fail ip dp).
Proof. unfold create_fail. stable. Qed.
#[export] Instance stable_create path type major minor : Stable pv (create path type major minor).
Proof. unfold create. stable. Qed.
#[export] Instance stable_open_inode path omode : Stable pv (open_inode path omode).
Proof. unfold open_inode. stable. Qed.
#[export] Instance stable_sys_mkdir : Stable pv (sys_mkdir).
Proof. unfold sys_mkdir. stable. Qed.
#[export] Instance stable_sys_mknod : Stable pv (sys_mknod).
Proof. unfold sys_mknod. stable. Qed.
#[export] Instance stable_sys_exec_args k uargv i argv : Stable pv (sys_exec_args k uargv i argv).
Proof. revert uargv i argv. induction k; intros; cbn [sys_exec_args]; stable. Qed.

End driver.

(** ** Descriptors only *)

Record fview := FView {
  fv_refs : list Z;
  fv_tables : list (list (option nat));
  fv_cur : option (option nat) }.

Definition fv_of (v : pview) : fview := FView (pv_refs v) (pc_ofile <$> pv_cores v) (pv_cur v).
Definition fv (s : kst) : fview :=
  FView (f_ref <$> v_files (k_vfs s)) (p_ofile <$> ps_procs (k_ps s)) (c_proc <$> h_cpus (k_hw s) !! h_hart (k_hw s)).

Lemma fv_pv s : fv s = fv_of (pv s).
Proof. unfold fv, fv_of. cbn. f_equal. by rewrite <- list_fmap_compose. Qed.

#[export] Instance stable_fv {A} (m : K A) : Stable pv m -> Stable fv m.
Proof. apply (stable_coarser pv fv fv_of). apply fv_pv. Qed.

Lemma stable_fv_upd_proc i g : (forall p, p_ofile (g p) = p_ofile p) -> Stable fv (upd_proc i g).
Proof.
  intros Hg I e s b e' s' He HI. unfold upd_proc, get_proc, mbind, K_bind, gets, deref, modk.
  destruct (ps_procs (k_ps s) !! i) as [p|] eqn:Ep; [|done]. intros H. injection H as _ <- <-. split; [done|].
  replace (fv _) with (fv s); [done|]. unfold fv. cbn. by rewrite (insert_same p_ofile _ i p).
Qed.
#[export] Hint Extern 1 (Stable fv (upd_proc _ _)) => apply stable_fv_upd_proc; intros; reflexivity : typeclass_instances.

#[export] Instance stable_freeproc i : Stable fv (freeproc i).
Proof. unfold freeproc. stable. Qed.
#[export] Instance stable_allocproc : Stable fv (allocproc).
Proof. unfold allocproc. stable. Qed.
#[export] Instance stable_growproc n : Stable fv (growproc n).
Proof. unfold growproc. stable. Qed.
#[export] Instance stable_reparent p : Stable fv (reparent p).
Proof. unfold reparent. stable. Qed.
#[export] Instance stable_wait_scan l p addr havekids : Stable fv (wait_scan l p addr havekids).
Proof. revert p addr havekids. induction l; intros; cbn [wait_scan]; stable. Qed.
#[export] Instance stable_wait_loop fuel p addr : Stable fv (wait_loop fuel p addr).
Proof. revert p addr. induction fuel; intros; cbn [wait_loop]; stable. Qed.
#[export] Instance stable_wait addr : Stable fv (wait addr).
Proof. unfold wait. stable. Qed.
#[export] Instance stable_sys_wait : Stable fv (sys_wait).
Proof. unfold sys_wait. stable. Qed.
#[export] Instance stable_sys_sbrk : Stable fv (sys_sbrk).
Proof. unfold sys_sbrk. stable. Qed.

Section stable_driver.
Context `{DD : DiskDriver} `{Hdisk : !forall b w, Stable pv (virtio_disk_rw b w)}.

#[export] Instance stable_exec_stack p path argv elf pagetable sz : Stable fv (exec_stack p path argv elf pagetable sz).
Proof. unfold exec_stack. stable. Qed.
#[export] Instance stable_exec path argv : Stable fv (exec path argv).
Proof. unfold exec. stable. Qed.
#[export] Instance stable_sys_chdir : Stable fv (sys_chdir).
Proof. unfold sys_chdir. stable. Qed.
#[export] Instance stable_sys_exec : Stable fv (sys_exec).
Proof. unfold sys_exec. stable. Qed.

End stable_driver.

(** ** virtio_disk.c *)

#[export] Instance stable_get_disk : Stable pv get_disk.
Proof. unfold get_disk. stable. Qed.
#[export] Instance stable_upd_disk f : Stable pv (upd_disk f).
Proof. unfold upd_disk. stable. Qed.
#[export] Instance stable_vwrite r v : Stable pv (vwrite r v).
Proof. unfold vwrite. stable. Qed.
#[export] Instance stable_set_desc i x : Stable pv (set_desc i x).
Proof. unfold set_desc. stable. Qed.
#[export] Instance stable_set_free i x : Stable pv (set_free i x).
Proof. unfold set_free. stable. Qed.
#[export] Instance stable_set_info i f : Stable pv (set_info i f).
Proof. unfold set_info. stable. Qed.
#[export] Instance stable_set_op i x : Stable pv (set_op i x).
Proof. unfold set_op. stable. Qed.
#[export] Instance stable_alloc_desc_loop l : Stable pv (alloc_desc_loop l).
Proof. induction l; cbn [alloc_desc_loop]; stable. Qed.
#[export] Instance stable_alloc_desc : Stable pv alloc_desc.
Proof. unfold alloc_desc. stable. Qed.
#[export] Instance stable_free_desc i : Stable pv (free_desc i).
Proof. unfold free_desc. stable. Qed.
#[export] Instance stable_free_chain_loop fuel i : Stable pv (free_chain_loop fuel i).
Proof. revert i. induction fuel; intros; cbn [free_chain_loop]; stable. Qed.
#[export] Instance stable_free_chain i : Stable pv (free_chain i).
Proof. unfold free_chain. stable. Qed.
#[export] Instance stable_alloc3_desc_loop k idx : Stable pv (alloc3_desc_loop k idx).
Proof. revert idx. induction k; intros; cbn [alloc3_desc_loop]; stable. Qed.
#[export] Instance stable_alloc3_desc : Stable pv alloc3_desc.
Proof. unfold alloc3_desc. stable. Qed.
#[export] Instance stable_alloc3_wait fuel : Stable pv (alloc3_wait fuel).
Proof. induction fuel; cbn [alloc3_wait]; stable. Qed.
#[export] Instance stable_format_request b w sector i0 i1 i2 : Stable pv (format_request b w sector i0 i1 i2).
Proof. unfold format_request. stable. Qed.
#[export] Instance stable_post_request b w sector i0 i1 i2 : Stable pv (post_request b w sector i0 i1 i2).
Proof. unfold post_request. stable. Qed.
#[export] Instance stable_rw_wait fuel b : Stable pv (rw_wait fuel b).
Proof. induction fuel; cbn [rw_wait]; stable. Qed.

(** What the clients of the disk assume of its driver holds of virtio_disk_rw. *)
#[export] Instance stable_virtio_rw b w : Stable pv (virtio_rw b w).
Proof. unfold virtio_rw. stable. Qed.

(** ** The running process *)

(** curproc returns [me] where the view says that [me] runs. *)
Lemma curproc_moves {V X} (view : kst -> V) (P : X -> V -> Prop) (me : nat) x :
  (forall s, P x (view s) -> pv_cur (pv s) = Some (Some me)) -> Stable view push_off -> Stable view pop_off ->
  moves view P curproc x (fun i x' => i = me /\ x' = x).
Proof.
  intros Hcur Hpush Hpop. unfold curproc, myproc. intros e s a e' s' He Hb H. kinv H. kinv E. kinv E. kinv E. kinv E.
  destruct (Hpush _ _ _ _ _ _ (He x) Hb E0) as [S1 B1].
  injection E1 as <- <- <-. unfold get_cpu in E2. kinv E2. injection E1 as <- <- <-.
  destruct (h_cpus (k_hw s1) !! h_hart (k_hw s1)) as [c|] eqn:Ec; [|done]. injection E2 as <- <- <-.
  destruct (Hpop _ _ _ _ _ _ (others_keep_suffix _ _ _ _ He S1 x) B1 E3) as [S2 B2].
  pose proof (Hcur _ B1) as Hc. cbn in Hc. rewrite Ec in Hc. injection Hc as Hc.
  injection E as <- <- <-. rewrite Hc in H. injection H as <- <- <-. split; [by trans e1|]. by exists x.
Qed.

(** ** exit *)

Section exit.
Context `{DD : DiskDriver}.

Lemma exit_never n e s a e' s' : exit n e s <> Ok a e' s'.
Proof. intros H. unfold exit in H. do 20 (try kinv H). done. Qed.

Lemma sys_exit_never e s a e' s' : sys_exit e s <> Ok a e' s'.
Proof. intros H. unfold sys_exit in H. kinv H. kinv H. by apply exit_never in E0. Qed.
End exit.
