(* ===== verification/FileRefs.v ===== *)
(** file.c, sysfile.c: the reference counts of open files. In every state a system call
    starts from or returns to, the count of an open file is the number of
    descriptors that refer to it. *)

From S2P Require Import Prelude Machine KState Blocks Spinlock KString Kalloc Vm Proc ProcSpec ProcMem Sleeplock Bio BioProof Log Fs Console File ProcFs Syscall Stable.

#[local] Hint Constants Opaque : typeclass_instances.

(** ** Counting descriptors *)

Definition is_file (f : nat) (o : option nat) : Z := if decide (o = Some f) then 1 else 0.
Fixpoint count (f : nat) (t : list (option nat)) : Z :=
  match t with
  | [] => 0
  | o :: t => is_file f o + count f t
  end.
Fixpoint total (f : nat) (ts : list (list (option nat))) : Z :=
  match ts with
  | [] => 0
  | t :: ts => count f t + total f ts
  end.

Lemma count_insert f t k o o' : t !! k = Some o -> count f (<[k := o']> t) = count f t - is_file f o + is_file f o'.
Proof.
  revert k. induction t as [|x t IH]; intros [|k] Hk; [done|done| |].
  - injection Hk as ->. change (<[0%nat := o']> (o :: t)) with (o' :: t). cbn [count]. lia.
  - change (<[S k := o']> (x :: t)) with (x :: <[k := o']> t). cbn [count]. rewrite (IH k Hk). lia.
Qed.

Lemma total_insert f ts i t t' : ts !! i = Some t -> total f (<[i := t']> ts) = total f ts - count f t + count f t'.
Proof.
  revert i. induction ts as [|x ts IH]; intros [|i] Hi; [done|done| |].
  - injection Hi as ->. change (<[0%nat := t']> (t :: ts)) with (t' :: ts). cbn [total]. lia.
  - change (<[S i := t']> (x :: ts)) with (x :: <[i := t']> ts). cbn [total]. rewrite (IH i Hi). lia.
Qed.

(** ** The balance *)

(** The thread of process [me], whose descriptors are [T], holds [d f] references to
    file [f] that are not in a table yet. *)
Record bal (me : nat) (T : list (option nat)) (d : nat -> Z) (v : fview) : Prop := {
  ba_cur : fv_cur v = Some (Some me);
  ba_table : fv_tables v !! me = Some T;
  ba_refs : forall f r, fv_refs v !! f = Some r -> r = total f (fv_tables v) + d f }.

Lemma bal_ext me T d d' v : (forall f, d' f = d f) -> bal me T d v -> bal me T d' v.
Proof. intros Hd [A B C]. split; [done|done|]. intros f r Hr. rewrite Hd. by apply C. Qed.

Definition bump (f : nat) (n : Z) (d : nat -> Z) : nat -> Z := fun g => if decide (g = f) then d g + n else d g.

Lemma bump_bump f n m d g : bump f n (bump f m d) g = bump f (m + n) d g.
Proof. unfold bump. case_decide; [lia|done]. Qed.

Ltac bumps :=
  intros ?; unfold bump in *; repeat match goal with H : forall g : nat, _ = _ |- _ => rewrite H end;
  repeat case_decide; first [done | lia].

Section moves.
Context (me : nat).

(** The table of [me] and what it holds, as the index of the moves. *)
Definition balx (x : list (option nat) * (nat -> Z)) : fview -> Prop := bal me x.1 x.2.
Abbreviation moves := (moves fv balx).

(** ** Access *)

(** The process that runs is [me]. *)
Lemma moves_curproc T d : moves curproc (T, d) (fun i '(T', d') => i = me /\ T' = T /\ d' = d).
Proof.
  eapply moves_mono; [apply (curproc_moves fv balx me); [|apply _..]|].
  - intros s Hb. by apply ba_cur in Hb.
  - by intros i [T' d'] [-> [= -> ->]].
Qed.

(** ** Reference counts *)

Lemma get_file_inv f e s x e' s' : get_file f e s = Ok x e' s' -> v_files (k_vfs s) !! f = Some x /\ e' = e /\ s' = s.
Proof.
  unfold get_file. intros H. kinv H. injection E as <- <- <-. destruct (v_files (k_vfs s) !! f) as [y|]; [|done].
  by injection H as <- <- <-.
Qed.

Lemma upd_file_inv f g e s u e' s' : upd_file f g e s = Ok u e' s' ->
  exists x, v_files (k_vfs s) !! f = Some x /\ e' = e /\ v_files (k_vfs s') !! f = Some (g x) /\
    fv s' = FView (<[f := f_ref (g x)]> (fv_refs (fv s))) (fv_tables (fv s)) (fv_cur (fv s)).
Proof.
  unfold upd_file. intros H. kinv H. apply get_file_inv in E as (Hx & -> & ->). injection H as <- <- <-.
  exists a. split; [done|]. split; [done|]. split.
  - cbn. apply list_lookup_insert_eq. by eapply lookup_lt_Some.
  - unfold fv. cbn. by rewrite list_fmap_insert.
Qed.

Lemma bal_bump T d v f r r' n : bal me T d v -> fv_refs v !! f = Some r -> r' = r + n ->
  bal me T (bump f n d) (FView (<[f := r']> (fv_refs v)) (fv_tables v) (fv_cur v)).
Proof.
  intros [A B C] Hr ->. split; [done|done|]. cbn. intros g r'. unfold bump. case_decide as Hg; [subst g|].
  - rewrite list_lookup_insert_eq by (by eapply lookup_lt_Some). intros [= <-]. rewrite (C f r Hr). lia.
  - rewrite list_lookup_insert_ne by done. apply C.
Qed.

Lemma fv_refs_lookup s f x : v_files (k_vfs s) !! f = Some x -> fv_refs (fv s) !! f = Some (f_ref x).
Proof. intros H. cbn. by rewrite list_lookup_fmap, H. Qed.

Lemma moves_upd_ref f g n T d : (forall x, f_ref (g x) = f_ref x + n) ->
  moves (upd_file f g) (T, d) (fun _ '(T', d') => T' = T /\ d' = bump f n d).
Proof.
  intros Hg e s u e' s' He Hb H. apply upd_file_inv in H as (x & Hx & -> & _ & ->). split; [done|].
  exists (T, bump f n d). split; [done|]. eapply bal_bump; [done|by apply fv_refs_lookup|apply Hg].
Qed.

Lemma moves_filealloc_loop l T d :
  moves (filealloc_loop l) (T, d) (fun o '(T', d') => T' = T /\ d' = match o with Some f => bump f 1 d | None => d end).
Proof.
  induction l as [|f l IH]; cbn [filealloc_loop]; [apply moves_seq_stable; [apply _|]; intros _; by apply moves_ret|].
  intros e s a e' s' He Hb H. kinv H. apply get_file_inv in E as (Hx & -> & ->).
  destruct (Z.eqb_spec (f_ref a0) 0) as [Hz|Hz]; [|exact (IH e s a e' s' He Hb H)].
  kinv H. apply upd_file_inv in E as (y & Hy & -> & _ & Ev). rewrite Hx in Hy. injection Hy as <-.
  assert (Hb1 : bal me T (bump f 1 d) (fv s0)).
  { rewrite Ev. eapply bal_bump; [done|by apply fv_refs_lookup|]. cbn. lia. }
  revert H. apply (moves_seq_stable fv balx _ _ (T, bump f 1 d) (fun o '(T', d') => T' = T /\ d' = match o with Some f => bump f 1 d | None => d end));
    [apply _| |done|done]. intros _. by apply moves_ret.
Qed.

Lemma moves_filealloc T d : moves filealloc (T, d) (fun o '(T', d') => T' = T /\ d' = match o with Some f => bump f 1 d | None => d end).
Proof. unfold filealloc. apply moves_seq_stable; [apply _|]. intros _. apply moves_filealloc_loop. Qed.

Lemma moves_filedup f T d : moves (filedup f) (T, d) (fun g '(T', d') => g = f /\ T' = T /\ d' = bump f 1 d).
Proof.
  unfold filedup. apply moves_seq_stable; [apply _|]. intros _. apply moves_seq_stable; [apply _|]. intros x.
  apply moves_seq_stable; [apply _|]. intros _. eapply moves_bind; [by apply (moves_upd_ref f _ 1)|].
  intros _ [T' d'] [-> ->]. apply moves_seq_stable; [apply _|]. intros _. by apply moves_ret.
Qed.

(** ** Descriptors *)

Lemma moves_get_proc T d : moves (get_proc me) (T, d) (fun p '(T', d') => p_ofile p = T /\ T' = T /\ d' = d).
Proof.
  intros e s p e' s' He Hb H. unfold get_proc in H. kinv H. injection E as <- <- <-.
  destruct (ps_procs (k_ps s) !! me) as [x|] eqn:Ex; [|done]. injection H as <- <- <-. split; [done|].
  exists (T, d). split; [|done]. pose proof (ba_table _ _ _ _ Hb) as Ht. cbn in Ht. rewrite list_lookup_fmap, Ex in Ht. by injection Ht.
Qed.

Lemma upd_ofile_inv i fd o e s u e' s' : upd_proc i (fun p => p_set_ofile (<[fd := o]> (p_ofile p)) p) e s = Ok u e' s' ->
  exists t, fv_tables (fv s) !! i = Some t /\ e' = e /\
    fv s' = FView (fv_refs (fv s)) (<[i := <[fd := o]> t]> (fv_tables (fv s))) (fv_cur (fv s)).
Proof.
  unfold upd_proc, get_proc, mbind, K_bind, gets, deref, modk.
  destruct (ps_procs (k_ps s) !! i) as [x|] eqn:Ex; [|done]. intros H. injection H as _ <- <-.
  exists (p_ofile x). split; [cbn; by rewrite list_lookup_fmap, Ex|]. split; [done|]. unfold fv. cbn. by rewrite list_fmap_insert.
Qed.

Lemma bal_fd T d d' v fd o o' : bal me T d v -> T !! fd = Some o -> (forall g, d' g = d g + is_file g o - is_file g o') ->
  bal me (<[fd := o']> T) d' (FView (fv_refs v) (<[me := <[fd := o']> T]> (fv_tables v)) (fv_cur v)).
Proof.
  intros [A B C] Ho Hd. split; cbn; [done|apply list_lookup_insert_eq; by eapply lookup_lt_Some|].
  intros f r Hr. rewrite (total_insert f _ me T) by done. rewrite (count_insert f T fd o) by done. rewrite Hd, (C f r Hr). lia.
Qed.

Lemma moves_set_fd fd o o' T d d' : T !! fd = Some o -> (forall g, d' g = d g + is_file g o - is_file g o') ->
  moves (upd_proc me (fun p => p_set_ofile (<[fd := o']> (p_ofile p)) p)) (T, d) (fun _ '(T1, d1) => T1 = <[fd := o']> T /\ d1 = d').
Proof.
  intros Ho Hd e s u e' s' He Hb H. apply upd_ofile_inv in H as (t & Ht & -> & ->). split; [done|].
  rewrite (ba_table _ _ _ _ Hb) in Ht. injection Ht as <-. exists (<[fd := o']> T, d'). split; [done|]. by eapply bal_fd.
Qed.

Lemma is_file_None g : is_file g None = 0.
Proof. done. Qed.
Lemma is_file_Some g f : is_file g (Some f) = if decide (g = f) then 1 else 0.
Proof. unfold is_file. do 2 case_decide; congruence. Qed.

(** What fdalloc returns, and where the file went. *)
Definition fd_given (f : nat) (T : list (option nat)) (d : nat -> Z) (r : Z) (x : list (option nat) * (nat -> Z)) : Prop :=
  (r = -1 /\ x = (T, d)) \/
  exists fd, r = Z.of_nat fd /\ T !! fd = Some None /\ x = (<[fd := Some f]> T, bump f (-1) d).

Lemma moves_fdalloc_loop l f T d : moves (fdalloc_loop l me f) (T, d) (fd_given f T d).
Proof.
  induction l as [|fd l IH]; cbn [fdalloc_loop]; [apply moves_ret; by left|].
  eapply moves_bind; [apply moves_get_proc|]. intros p [T' d'] (Hp & -> & ->).
  rewrite Hp. eapply moves_bind; [apply moves_deref|]. intros [g|] x (Hx & ->); [apply IH|].
  eapply moves_bind; [apply (moves_set_fd fd None (Some f) T d (bump f (-1) d)); [done|]|].
  - intros g. rewrite is_file_None, is_file_Some. unfold bump. case_decide; lia.
  - intros _ [T' d'] [-> ->]. apply moves_ret. right. by exists fd.
Qed.

Lemma moves_fdalloc f T d : moves (fdalloc f) (T, d) (fd_given f T d).
Proof. unfold fdalloc. eapply moves_bind; [apply moves_curproc|]. intros i [T' d'] (-> & -> & ->). apply moves_fdalloc_loop. Qed.

Lemma moves_clear_fd fd f T d : T !! fd = Some (Some f) ->
  moves (clear_fd me (Z.of_nat fd)) (T, d) (fun _ '(T', d') => T' = <[fd := None]> T /\ d' = bump f 1 d).
Proof.
  intros Hf. unfold clear_fd. rewrite Nat2Z.id. apply (moves_set_fd fd (Some f) None); [done|].
  intros g. rewrite is_file_None, is_file_Some. unfold bump. case_decide; lia.
Qed.

Lemma moves_argfd n T d : moves (argfd n) (T, d) (fun o '(T', d') => T' = T /\ d' = d /\ match o with Some (fd, f) => T !! fd = Some (Some f) | None => True end).
Proof.
  unfold argfd. apply moves_seq_stable; [apply _|]. intros fd. destruct ((fd <? 0) || (fd >=? Z.of_nat NOFILE)); [by apply moves_ret|].
  eapply moves_bind; [apply moves_curproc|]. intros i [T' d'] (-> & -> & ->).
  eapply moves_bind; [apply moves_get_proc|]. intros p [T' d'] (-> & -> & ->).
  eapply moves_bind; [apply moves_deref|]. intros [f|] x (Hf & ->); by apply moves_ret.
Qed.

Section driver.
Context `{DD : DiskDriver} `{Hdisk : !forall b w, Stable pv (virtio_disk_rw b w)}.

(** The part of fileclose that changes the count: it goes down by one, and reaches
    zero before the entry is given back. *)
Lemma moves_fileclose f T d : moves (fileclose f) (T, d) (fun _ '(T', d') => T' = T /\ d' = bump f (-1) d).
Proof.
  unfold fileclose. apply moves_seq_stable; [apply _|]. intros _.
  intros e s a e' s' He Hb H. kinv H. apply get_file_inv in E as (Hx & -> & ->).
  unfold when in H. destruct (Z.ltb_spec (f_ref a0) 1) as [Hl|Hl]; kinv H; [done|]. injection E as <- <- <-.
  kinv H. apply upd_file_inv in E as (y & Hy & -> & Hn & Ev). rewrite Hx in Hy. injection Hy as <-.
  assert (Hb1 : balx (T, bump f (-1) d) (fv s0)).
  { rewrite Ev. eapply bal_bump; [exact Hb|by apply fv_refs_lookup|]. cbn. lia. }
  kinv H. apply get_file_inv in E as (Hx1 & -> & ->). rewrite Hn in Hx1. injection Hx1 as <-. cbn [f_ref f_set_ref] in H.
  destruct (Z.gtb_spec (f_ref a0 - 1) 0) as [Hp|Hp].
  { by eapply moves_end; [exact He|exact Hb1|exact H|apply _|]. }
  kinv H. apply get_file_inv in E as (Hx1 & -> & ->). rewrite Hn in Hx1. injection Hx1 as <-.
  kinv H. apply upd_file_inv in E as (y & Hy & -> & Hn2 & Ev2). rewrite Hn in Hy. injection Hy as <-.
  assert (Hb2 : balx (T, bump f (-1) d) (fv s1)).
  { rewrite Ev2. apply (bal_ext _ _ (bump f 0 (bump f (-1) d))).
    - cbn [snd]. intros g. unfold bump. case_decide; lia.
    - eapply bal_bump; [exact Hb1|by apply fv_refs_lookup|]. cbn. lia. }
  eapply moves_end; [exact He|exact Hb2|exact H|stable|done].
Qed.

(** ** System calls *)

(** After it the table may differ, but nothing is held outside it. *)
Definition balanced (m : K Z) : Prop := forall T d, moves m (T, d) (fun _ '(T', d') => forall g, d' g = d g).

Lemma balanced_stable m : Stable fv m -> balanced m.
Proof. intros Hm T d. by apply moves_rest. Qed.

Lemma balanced_sys_dup : balanced sys_dup.
Proof.
  intros T d. unfold sys_dup. eapply moves_bind; [apply moves_argfd|]. intros [[fd f]|] [T' d'] (-> & -> & Hf); [|by apply moves_ret].
  eapply moves_bind; [apply moves_fdalloc|]. intros r x' [(-> & ->)|(k & -> & Hk & ->)].
  - by apply moves_ret.
  - replace (Z.of_nat k <? 0) with false by (symmetry; apply Z.ltb_ge; lia).
    eapply moves_bind; [apply moves_filedup|]. intros _ [T' d'] (_ & -> & ->). apply moves_ret.
    intros g. rewrite bump_bump. unfold bump. case_decide; lia.
Qed.

Lemma balanced_sys_close : balanced sys_close.
Proof.
  intros T d. unfold sys_close. eapply moves_bind; [apply moves_argfd|]. intros [[fd f]|] [T' d'] (-> & -> & Hf); [|by apply moves_ret].
  eapply moves_bind; [apply moves_curproc|]. intros i [T' d'] (-> & -> & ->).
  eapply moves_bind; [by apply moves_clear_fd|]. intros _ [T' d'] (-> & ->).
  eapply moves_bind; [apply moves_fileclose|]. intros _ [T' d'] (-> & ->). apply moves_ret.
  intros g. rewrite bump_bump. unfold bump. case_decide; lia.
Qed.

Lemma balanced_sys_open : balanced sys_open.
Proof.
  intros T d. unfold sys_open. apply moves_seq_stable; [apply _|]. intros omode. apply moves_seq_stable; [apply _|]. intros path.
  destruct (path.1 <? 0); [by apply moves_ret|]. apply moves_seq_stable; [apply _|]. intros _.
  apply moves_seq_stable; [apply _|]. intros [ip|]; [|apply moves_rest; [stable|done]].
  apply moves_seq_stable; [apply _|]. intros x. destruct (_ && _); [apply moves_rest; [stable|done]|].
  eapply moves_bind; [apply moves_filealloc|]. intros [f|] [T' d'] (-> & ->).
  2: { apply moves_seq_stable; [apply _|]. intros _. apply moves_rest; [stable|done]. }
  eapply moves_bind; [apply moves_fdalloc|]. intros r x' [(-> & ->)|(k & -> & Hk & ->)].
  - eapply moves_bind; [apply moves_fileclose|]. intros _ [T' d'] (-> & ->). apply moves_rest; [stable|]. intros _. bumps.
  - replace (Z.of_nat k <? 0) with false by (symmetry; apply Z.ltb_ge; lia). apply moves_rest; [stable|]. intros _. bumps.
Qed.

Lemma moves_pipealloc T d :
  moves pipealloc (T, d) (fun o '(T', d') => T' = T /\ forall g, d' g = match o with Some (f0, f1) => bump f1 1 (bump f0 1 d) g | None => d g end).
Proof.
  unfold pipealloc. eapply moves_bind; [apply moves_filealloc|]. intros [f0|] [T' d'] (-> & ->).
  2: { do 2 (apply moves_seq_stable; [stable|]; intros ?). by apply moves_ret. }
  eapply moves_bind; [apply moves_filealloc|]. intros [f1|] [T' d'] (-> & ->); (apply moves_seq_stable; [apply _|]); intros pi.
  - destruct (pi =? 0).
    + eapply moves_bind; [apply moves_fileclose|]. intros _ [T' d'] (-> & ->).
      eapply moves_bind; [apply moves_fileclose|]. intros _ [T' d'] (-> & ->). apply moves_ret. split; [done|]. bumps.
    + do 10 (apply moves_seq_stable; [apply _|]; intros ?). by apply moves_ret.
  - eapply moves_bind; [apply moves_fileclose|]. intros _ [T' d'] (-> & ->). apply moves_ret. split; [done|]. bumps.
Qed.

(** Both files of a pipe are closed. *)
Lemma moves_close_both f0 f1 T d d0 : (forall g, d0 g = bump f1 (-1) (bump f0 (-1) d) g) ->
  moves (fileclose f0 ;; fileclose f1 ;; mret (-1)) (T, d) (fun _ '(T', d') => forall g, d' g = d0 g).
Proof.
  intros Hd. eapply moves_bind; [apply moves_fileclose|]. intros _ [T' d'] (-> & ->).
  eapply moves_bind; [apply moves_fileclose|]. intros _ [T' d'] (-> & ->). by apply moves_ret.
Qed.

Lemma balanced_sys_pipe : balanced sys_pipe.
Proof.
  intros T d. unfold sys_pipe. eapply moves_bind; [apply moves_curproc|]. intros i [T' d'] (-> & -> & ->).
  apply moves_seq_stable; [apply _|]. intros fdarray. eapply moves_bind; [apply moves_pipealloc|].
  intros [[rf wf]|] [T' d1] (-> & Hd); [|by apply moves_ret].
  eapply moves_bind; [apply moves_fdalloc|]. intros r x' [(-> & ->)|(k & -> & Hk & ->)].
  - apply moves_seq_stable; [change (-1 <? 0) with true; apply _|]. intros r.
    apply moves_seq_stable; [change (-1 >=? 0) with false; cbn [when]; apply _|]. intros _. apply moves_close_both. bumps.
  - replace (Z.of_nat k <? 0) with false by (symmetry; apply Z.ltb_ge; lia).
    replace (Z.of_nat k >=? 0) with true by (symmetry; apply Z.geb_le; lia). cbn [orb when].
    eapply moves_bind; [apply moves_fdalloc|]. intros r x' [(-> & ->)|(m & -> & Hm & ->)].
    + assert (HT : <[k := Some rf]> T !! k = Some (Some rf)) by (apply list_lookup_insert_eq; by eapply lookup_lt_Some).
      eapply moves_bind; [by apply (moves_clear_fd k rf)|]. intros _ [T' d'] (-> & ->).
      apply moves_close_both. bumps.
    + replace (Z.of_nat m <? 0) with false by (symmetry; apply Z.ltb_ge; lia). cbn [orb].
      assert (Hne : k <> m).
      { intros ->. rewrite list_lookup_insert_eq in Hm by (by eapply lookup_lt_Some). done. }
      apply moves_seq_stable; [apply _|]. intros p. apply moves_seq_stable; [apply _|]. intros r.
      apply moves_seq_stable; [stable|]. intros r'. destruct (r' <? 0).
      2: { apply moves_ret. bumps. }
      eapply moves_bind; [apply (moves_clear_fd k rf)|].
      { rewrite list_lookup_insert_ne by done. apply list_lookup_insert_eq. by eapply lookup_lt_Some. }
      intros _ [T' d'] (-> & ->). eapply moves_bind; [apply (moves_clear_fd m wf)|].
      { rewrite list_lookup_insert_ne by done. apply list_lookup_insert_eq. rewrite length_insert.
        rewrite list_lookup_insert_ne in Hm by done. by eapply lookup_lt_Some. }
      intros _ [T' d'] (-> & ->). apply moves_close_both.
      bumps.
Qed.

(** ** exit *)

Lemma moves_exit_close fd T d :
  moves (exit_close me fd) (T, d) (fun _ '(T', d') => T' = <[fd := None]> T /\ forall g, d' g = d g).
Proof.
  unfold exit_close. eapply moves_bind; [apply moves_get_proc|]. intros p [T' d'] (-> & -> & ->).
  eapply moves_bind; [apply moves_deref|]. intros [f|] x (Hf & ->).
  - eapply moves_bind; [apply moves_fileclose|]. intros _ [T' d'] (-> & ->). eapply moves_mono.
    + apply (moves_set_fd fd (Some f) None T _ (bump f 1 (bump f (-1) d))); [done|].
      intros g. rewrite is_file_None, is_file_Some. unfold bump. case_decide; lia.
    + intros _ [T' d'] (-> & ->). split; [done|]. bumps.
  - apply moves_ret. split; [|done]. symmetry. by apply list_insert_id.
Qed.

Lemma moves_exit_files l T d :
  moves (forK l (exit_close me)) (T, d) (fun _ '(T', d') =>
    length T' = length T /\ (forall fd, fd ∈ l -> (fd < length T)%nat -> T' !! fd = Some None) /\
    (forall fd, fd ∉ l -> T' !! fd = T !! fd) /\ forall g, d' g = d g).
Proof.
  revert T d. induction l as [|k l IH]; intros T d; cbn [forK].
  { apply moves_ret. split_and!; [done| |done|done]. intros fd Hfd. by apply not_elem_of_nil in Hfd. }
  eapply moves_bind; [apply moves_exit_close|]. intros _ [T1 d1] (-> & Hd1).
  eapply moves_mono; [apply IH|]. cbn beta. rewrite length_insert. intros _ [T' d'] (HL & Hin & Hout & Hd).
  split; [done|]. split; [|split].
  - intros fd Hfd Hlt. destruct (decide (fd ∈ l)) as [Hl|Hl]; [by apply Hin|]. rewrite Hout by done.
    apply elem_of_cons in Hfd as [->|?]; [|done]. by apply list_lookup_insert_eq.
  - intros fd [Hne Hl]%not_elem_of_cons. rewrite Hout by done. by apply list_lookup_insert_ne.
  - intros g. by rewrite Hd, Hd1.
Qed.

(** ** fork *)

(** Nothing waits: what is stable leaves the view as it is. *)
Lemma stable_exact {A} (m : K A) s a e' s' : Stable fv m -> m [] s = Ok a e' s' -> e' = [] /\ fv s' = fv s.
Proof.
  intros Hm H. destruct (Hm (fun v => v = fv s) [] s a e' s') as [Hs Hv]; [by apply Forall_nil|done|done|].
  split; [|done]. by apply suffix_nil_inv.
Qed.

Lemma keeps_push_off : Keeps k_ps push_off.
Proof. unfold push_off, intr_get, intr_off, intr_set, mycpu, cpuid, upd_cpu, get_cpu. apply _. Qed.
Lemma keeps_holding l : Keeps k_ps (holding l).
Proof. unfold holding, get_lock, mycpu, cpuid. apply _. Qed.

Lemma acquire_ps l s a e' s' : acquire l [] s = Ok a e' s' -> e' = [] /\ k_ps s' = k_ps s.
Proof.
  intros H. split; [by apply (stable_exact (acquire l) s a e' s' _ H)|].
  unfold acquire in H. kinv H. destruct (stable_exact push_off _ _ _ _ _ E) as [-> _]. apply keeps_push_off in E as <-.
  kinv H. destruct (stable_exact (holding l) _ _ _ _ _ E) as [-> _]. apply keeps_holding in E as <-.
  kinv H. destruct a1; [done|]. injection E as <- <- <-. kinv H. unfold acquire_spin in E.
  destruct (h_locks (k_hw s1) !! l) as [lk|]; [|done]. destruct (lk_locked lk =? 0); [|done]. injection E as <- <- <-.
  kinv H. injection E as <- <- <-. kinv H. unfold get_lock in E. kinv E. injection E0 as <- <- <-.
  destruct (h_locks _ !! l); [|done]. injection E as <- <- <-. by injection H as <- <- <-.
Qed.

Lemma release_ps l s a e' s' : release l [] s = Ok a e' s' -> e' = [] /\ k_ps s' = k_ps s.
Proof.
  intros H. split; [by apply (stable_exact (release l) s a e' s' _ H)|]. revert H. by apply (keeps_release k_ps).
Qed.

Lemma allocproc_find_unused l s np e' s' : allocproc_find l [] s = Ok (Some np) e' s' ->
  exists p, ps_procs (k_ps s) !! np = Some p /\ p_state p = UNUSED.
Proof.
  revert s. induction l as [|i l IH]; intros s H; cbn [allocproc_find] in H; [done|].
  kinv H. apply acquire_ps in E as [-> Ep]. kinv H. unfold get_proc in E. kinv E. injection E0 as <- <- <-.
  rewrite Ep in E. destruct (ps_procs (k_ps s) !! i) as [p|] eqn:Hp; [|done]. injection E as <- <- <-.
  destruct (bool_decide_reflect (p_state p = UNUSED)) as [Hu|Hu].
  - injection H as <- <- <-. by exists p.
  - kinv H. apply release_ps in E as [-> Er]. rewrite <- Ep, <- Er. by apply IH.
Qed.

Lemma allocproc_unused s np e' s' : allocproc [] s = Ok (Some np) e' s' ->
  e' = [] /\ fv s' = fv s /\ exists p, ps_procs (k_ps s) !! np = Some p /\ p_state p = UNUSED.
Proof.
  intros H. destruct (stable_exact allocproc _ _ _ _ _ H) as [He Hv]. split; [done|]. split; [done|].
  unfold allocproc in H. kinv H. destruct a as [i|]; [|done].
  assert (Hi : i = np).
  { kinv H. kinv H. kinv H. kinv H. kinv H. destruct (_ =? 0); [by kinv H; kinv H|].
    kinv H. kinv H. destruct (_ =? 0); [by kinv H; kinv H|]. kinv H. kinv H. by injection H. }
  subst i. by eapply allocproc_find_unused.
Qed.

Lemma filedup_exact f s a e' s' T d : bal me T d (fv s) -> filedup f [] s = Ok a e' s' ->
  e' = [] /\ a = f /\ bal me T (bump f 1 d) (fv s') /\ fv_tables (fv s') = fv_tables (fv s).
Proof.
  intros Hb H. pose proof (others_keep_nil fv balx) as He.
  destruct (moves_filedup f T d _ _ _ _ _ He Hb H) as (Hs & [T' d'] & (-> & -> & ->) & Hb'). apply suffix_nil_inv in Hs as ->.
  split; [done|]. split; [done|]. split; [done|]. unfold filedup in H.
  kinv H. destruct (stable_exact (acquire L_ftable) _ _ _ _ _ E) as [-> V0].
  kinv H. apply get_file_inv in E0 as (_ & -> & ->). kinv H.
  destruct (stable_exact (when (f_ref a0 <? 1) (panic "filedup")) _ _ _ _ _ E0) as [-> V1].
  kinv H. apply upd_file_inv in E1 as (x & _ & -> & _ & V2).
  kinv H. destruct (stable_exact (release L_ftable) _ _ _ _ _ E1) as [-> V3]. injection H as <-.
  by rewrite V3, V2, V1, V0.
Qed.

(** The child's table [C] while the descriptors [l] are still to be copied. *)
Record copying (np : nat) (T C : list (option nat)) (l : list nat) : Prop := {
  cp_len : length C = length T;
  cp_todo : forall fd, fd ∈ l -> C !! fd = Some None;
  cp_done : forall fd, fd ∉ l -> C !! fd = T !! fd }.

Lemma copying_step np T C fd f l : fd ∉ l -> copying np T C (fd :: l) -> T !! fd = Some (Some f) ->
  copying np T (<[fd := Some f]> C) l.
Proof.
  intros Hfd [A B D] Ho. split; [by rewrite length_insert| |].
  - intros k Hk. rewrite list_lookup_insert_ne by (intros ->; done). apply B. by right.
  - intros k Hk. destruct (decide (k = fd)) as [->|Hn].
    + rewrite Ho. apply list_lookup_insert_eq. rewrite A. by eapply lookup_lt_Some.
    + rewrite list_lookup_insert_ne by done. apply D. by apply not_elem_of_cons.
Qed.

(** The child takes the new reference. *)
Lemma bal_child T d v np C fd f : np <> me -> bal me T (bump f 1 d) v -> fv_tables v !! np = Some C -> C !! fd = Some None ->
  bal me T d (FView (fv_refs v) (<[np := <[fd := Some f]> C]> (fv_tables v)) (fv_cur v)).
Proof.
  intros Hne [A B D] Ht Hc. split; cbn; [done|by rewrite list_lookup_insert_ne|].
  intros g r Hr. rewrite (total_insert g _ np C) by done. rewrite (count_insert g C fd None) by done.
  rewrite is_file_None, is_file_Some, (D g r Hr). unfold bump. case_decide; lia.
Qed.

Lemma fork_dup_step np fd l T C d s a e' s' :
  np <> me -> fd ∉ l -> copying np T C (fd :: l) -> bal me T d (fv s) -> fv_tables (fv s) !! np = Some C ->
  fork_dup me np fd [] s = Ok a e' s' ->
  e' = [] /\ exists C', copying np T C' l /\ bal me T d (fv s') /\ fv_tables (fv s') = <[np := C']> (fv_tables (fv s)).
Proof.
  intros Hne Hfd Hc Hb Ht H. pose proof (others_keep_nil fv balx) as He.
  unfold fork_dup in H. kinv H. destruct (moves_get_proc T d _ _ _ _ _ He Hb E) as (_ & [? ?] & (Hp & _) & _).
  destruct (stable_exact (get_proc me) _ _ _ _ _ E) as [-> V0]. clear E. rewrite <- V0 in Hb, Ht |- *. clear V0. rewrite Hp in H.
  kinv H. destruct (T !! fd) as [o|] eqn:Ho; [|done]. injection E as <- <- <-.
  pose proof (cp_todo _ _ _ _ Hc fd ltac:(left)) as HC. destruct o as [f|].
  - kinv H. destruct (filedup_exact _ _ _ _ _ _ _ Hb E) as (-> & -> & Hb1 & Ht1). rewrite <- Ht1 in Ht |- *.
    apply upd_ofile_inv in H as (C1 & HC1 & -> & V1). rewrite Ht in HC1. injection HC1 as <-. split; [done|].
    exists (<[fd := Some f]> C). rewrite V1. split; [by apply copying_step|]. split; [|done].
    apply (bal_child T d (fv s1) np C fd f); done.
  - injection H as <- <- <-. split; [done|]. exists C. split; [|split; [done|by rewrite list_insert_id]].
    destruct Hc as [A B D]. split; [done| |].
    + intros k Hk. apply B. by right.
    + intros k Hk. destruct (decide (k = fd)) as [->|Hn]; [congruence|]. apply D. by apply not_elem_of_cons.
Qed.

Lemma fork_dup_all np l T C d s a e' s' :
  np <> me -> NoDup l -> copying np T C l -> bal me T d (fv s) -> fv_tables (fv s) !! np = Some C ->
  forK l (fork_dup me np) [] s = Ok a e' s' ->
  e' = [] /\ bal me T d (fv s') /\ fv_tables (fv s') = <[np := T]> (fv_tables (fv s)).
Proof.
  intros Hne. revert C s. induction l as [|fd l IH]; intros C s Hnd Hc Hb Ht H; cbn [forK] in H.
  - injection H as <- <- <-. split; [done|]. split; [done|].
    replace T with C; [by rewrite list_insert_id|]. apply list_eq. intros k. apply (cp_done _ _ _ _ Hc). apply not_elem_of_nil.
  - apply NoDup_cons in Hnd as [Hfd Hnd]. kinv H.
    destruct (fork_dup_step np fd l T C d _ _ _ _ Hne Hfd Hc Hb Ht E) as (-> & C' & Hc' & Hb' & Ht').
    assert (Hl : (np < length (fv_tables (fv s)))%nat) by (by eapply lookup_lt_Some).
    destruct (IH C' s0 Hnd Hc' Hb') as (-> & Hb2 & Ht2); [rewrite Ht'; by apply list_lookup_insert_eq|done|].
    split; [done|]. split; [done|]. by rewrite Ht2, Ht', list_insert_insert_eq.
Qed.

(** A process slot that can be handed out has no open files. *)
Definition unused_empty (s : kst) : Prop :=
  forall i p, ps_procs (k_ps s) !! i = Some p -> p_state p = UNUSED -> p_ofile p = replicate NOFILE None.

Lemma keeps_curproc : Keeps k_ps curproc.
Proof.
  unfold curproc, myproc, push_off, pop_off, intr_get, intr_off, intr_on, intr_set, mycpu, cpuid, upd_cpu, get_cpu. apply _.
Qed.

Lemma copying_start np T : length T = NOFILE -> copying np T (replicate NOFILE None) (seq 0 NOFILE).
Proof.
  intros HT. split; [by rewrite length_replicate| |].
  - intros fd Hfd. apply lookup_replicate_2. apply elem_of_seq in Hfd. lia.
  - intros fd Hfd. assert (Hge : (NOFILE <= fd)%nat) by (apply Nat.nlt_ge; intros Hlt; apply Hfd, elem_of_seq; lia).
    rewrite !lookup_ge_None_2; [done| |]; by rewrite ?length_replicate, ?HT.
Qed.

(** The next operation waits for nothing and is stable: it goes from the same view. *)
Ltac still H :=
  let E := fresh "E" in let V := fresh "V" in
  apply bind_inv in H as (? & ? & ? & E & H);
  match type of E with ?m [] _ = _ =>
    let S := fresh "S" in assert (S : Stable fv m) by stable;
    destruct (stable_exact m _ _ _ _ S E) as [-> V]; clear S E; rewrite <- V in *; clear V end.

Lemma fork_view s r e' s' T d :
  length T = NOFILE -> unused_empty s -> (forall p, ps_procs (k_ps s) !! me = Some p -> p_state p <> UNUSED) ->
  bal me T d (fv s) -> fork [] s = Ok r e' s' ->
  e' = [] /\ bal me T d (fv s') /\
  (r = -1 /\ fv_tables (fv s') = fv_tables (fv s) \/
   exists np, np <> me /\ fv_tables (fv s) !! np = Some (replicate NOFILE None) /\ fv_tables (fv s') = <[np := T]> (fv_tables (fv s))).
Proof.
  intros HT Hu Hme Hb H. pose proof (others_keep_nil fv balx) as He. unfold fork in H.
  kinv H. pose proof (keeps_curproc _ _ _ _ _ E) as Kp.
  destruct (moves_curproc T d _ _ _ _ _ He Hb E) as (_ & [? ?] & (-> & _) & _).
  destruct (stable_exact curproc _ _ _ _ _ E) as [-> V1]. clear E.
  kinv H. destruct a as [np|].
  2: { destruct (stable_exact allocproc _ _ _ _ _ E) as [-> V]. injection H as <- <- <-. rewrite V, V1. split; [done|]. split; [done|]. by left. }
  apply allocproc_unused in E as (-> & V & p & Hp & Hpu). rewrite Kp in Hp. clear Kp.
  assert (Hne : np <> me) by (intros ->; by apply (Hme p)).
  assert (Ht : fv_tables (fv s) !! np = Some (replicate NOFILE None)).
  { cbn. rewrite list_lookup_fmap, Hp. cbn. by rewrite (Hu np p). }
  rewrite <- V1, <- V in Hb, Ht |- *. clear V1 V.
  do 3 still H. destruct (_ <? 0).
  { still H. still H. injection H as <- <- <-. split; [done|]. split; [done|]. by left. }
  do 3 still H. kinv H.
  destruct (fork_dup_all np _ T (replicate NOFILE None) d _ _ _ _ Hne (NoDup_seq _ _) ltac:(by apply copying_start) Hb Ht E) as (-> & Hb1 & Ht1).
  apply stable_exact in H as [-> V]; [|stable]. rewrite V. split; [done|]. split; [done|]. right. by exists np.
Qed.

(** ** Every system call *)

Lemma balanced_sys_exit : balanced sys_exit.
Proof.
  intros T d. apply moves_never, sys_exit_never.
Qed.

Lemma syscalls_balanced num f : syscalls num = Some f -> num <> 1 -> balanced f.
Proof.
  intros H Hn. unfold syscalls in H.
  repeat (destruct num as [|num|num]; try done; try (destruct num as [num|num|]; try done));
    injection H as <-;
    first [ apply balanced_sys_exit | apply balanced_sys_dup | apply balanced_sys_close | apply balanced_sys_open | apply balanced_sys_pipe
          | apply balanced_stable; apply _ ].
Qed.

End driver.
End moves.

(** C10: the reference counts of the open files are exact. If, in a state, the count of
    every entry of ftable is the number of descriptors, over all processes, that refer to
    it, and process [me] makes a system call other than fork, then the same holds when the
    call returns: whether it succeeds or fails, whichever of its error paths it takes,
    whatever files it closes or opens, and whatever the other threads do while it waits, so
    long as they keep the counts exact themselves. The disk driver is any that touches no
    file and no descriptor. *)
Theorem syscalls_keep_refs `{DD : DiskDriver} me num f T e s r e' s' :
  (forall b w, Stable pv (virtio_disk_rw b w)) ->
  syscalls num = Some f -> num <> 1 -> others_keep fv (balx me) e ->
  bal me T (fun _ => 0) (fv s) -> f e s = Ok r e' s' ->
  exists T', bal me T' (fun _ => 0) (fv s').
Proof.
  intros Hd Hf Hn He Hb H. destruct (syscalls_balanced me num f Hf Hn T _ _ _ _ _ _ He Hb H) as (_ & [T' d'] & Hd' & Hb').
  exists T'. by apply (bal_ext _ _ d').
Qed.

(** C11: processes share open files by counted references. A fork that fails leaves every
    descriptor as it was; one that succeeds gives the descriptors of the caller to an entry
    of the process table that had none, the caller keeps its own, and every count is
    still the number of descriptors that refer to the file. When exit has closed the files
    of its process, the process has no descriptor left and the counts are exact again. *)
Theorem fork_exit_refs `{DD : DiskDriver} me T s :
  (forall b w, Stable pv (virtio_disk_rw b w)) -> length T = NOFILE -> bal me T (fun _ => 0) (fv s) ->
  (forall r e' s', unused_empty s -> (forall p, ps_procs (k_ps s) !! me = Some p -> p_state p <> UNUSED) ->
     fork [] s = Ok r e' s' ->
     bal me T (fun _ => 0) (fv s') /\
     (r = -1 /\ fv_tables (fv s') = fv_tables (fv s) \/
      exists np, np <> me /\ fv_tables (fv s) !! np = Some (replicate NOFILE None) /\
        fv_tables (fv s') = <[np := T]> (fv_tables (fv s)))) /\
  (forall e r e' s', others_keep fv (balx me) e -> forK (seq 0 NOFILE) (exit_close me) e s = Ok r e' s' ->
     bal me (replicate NOFILE None) (fun _ => 0) (fv s')).
Proof.
  intros Hd HT Hb. split.
  - intros r e' s' Hu Hme H. by destruct (fork_view me s r e' s' T _ HT Hu Hme Hb H) as (_ & Hb' & Hv).
  - intros e r e' s' He H. destruct (moves_exit_files me _ T _ _ _ _ _ _ He Hb H) as (_ & [T' d'] & (HL & Hin & _ & Hd') & Hb').
    replace (replicate NOFILE None) with T'; [by apply (bal_ext _ _ d')|].
    apply list_eq_same_length with NOFILE; [by rewrite length_replicate|congruence|].
    intros i x y Hi Hx Hy. apply lookup_replicate in Hy as [-> _].
    rewrite (Hin i) in Hx; [congruence|apply elem_of_seq; lia|by rewrite HT].
Qed.

(** ** Witnesses *)

(** Process 0 has file 3 open as descriptor 0; six pages are free. *)
Definition free_pages : list Z := (fun i => PHYSTOP - Z.of_nat (S i) * PGSIZE) <$> seq 0 6.
Definition kst_refs : kst :=
  let p := p_set_cwd (Some 0%nat) (p_set_ofile (Some 3%nat :: replicate 15 None) proc_run) in
  let mem := foldr (fun '(a, b) m => store64 m a b) ∅ (zip free_pages (tail free_pages ++ [0])) in
  set_phys (Phys mem (hd 0 free_pages))
    (set_vfs (Vfs (<[3%nat := File FD_PIPE 1 1 0 0 None 0 0]> (replicate NFILE file0)) ∅)
       (with_procs (<[0%nat := p]> (replicate NPROC proc0)) (kst_fs ∅))).

Lemma bal_check me T v :
  fv_cur v = Some (Some me) -> fv_tables v !! me = Some T ->
  forallb (fun f => default 0 (fv_refs v !! f) =? total f (fv_tables v)) (seq 0 (length (fv_refs v))) = true ->
  bal me T (fun _ => 0) v.
Proof.
  intros Hc Ht Hr. split; [done|done|]. intros f r Hf. rewrite forallb_forall in Hr.
  specialize (Hr f ltac:(apply list_elem_of_In, elem_of_seq; apply lookup_lt_Some in Hf; lia)).
  rewrite Hf in Hr. apply Z.eqb_eq in Hr. cbn in Hr. lia.
Qed.

Lemma bal_refs : bal 0 (Some 3%nat :: replicate 15 None) (fun _ => 0) (fv kst_refs).
Proof. apply bal_check; by vm_compute. Qed.

Lemma stable_sync_disk b w : Stable pv (@virtio_disk_rw sync_disk b w).
Proof. change (Stable pv (x ← get_buf b; modk (fun s => set_fs (disk_done b x w (k_fs s)) s))). stable. Qed.

Lemma unused_empty_refs : unused_empty kst_refs.
Proof.
  intros i p Hp. change (ps_procs (k_ps kst_refs)) with (<[0%nat := p_set_cwd (Some 0%nat) (p_set_ofile (Some 3%nat :: replicate 15 None) proc_run)]> (replicate NPROC proc0)) in Hp.
  destruct i as [|i]; [by injection Hp as <-|]. rewrite list_lookup_insert_ne in Hp by done. by apply lookup_replicate in Hp as [-> _].
Qed.

Lemma syscalls_keep_refs_witness :
  match @syscalls sync_disk 10 with
  | Some f =>
    match f [] kst_refs with
    | Ok r _ s' => r = 1 /\ exists T', bal 0 T' (fun _ => 0) (fv s')
    | _ => False
    end
  | None => False
  end.
Proof.
  change (@syscalls sync_disk 10) with (Some sys_dup). cbn iota.
  assert (Hr : value_of (sys_dup [] kst_refs) = Some 1) by (vm_compute; reflexivity).
  destruct (sys_dup [] kst_refs) as [r e' s'| | | |] eqn:E; try discriminate Hr. injection Hr as ->. split; [done|].
  exact (@syscalls_keep_refs sync_disk 0 10 sys_dup _ [] kst_refs 1 e' s' stable_sync_disk eq_refl ltac:(lia)
    (others_keep_nil fv (balx 0)) bal_refs E).
Defined.

Lemma fork_exit_refs_witness :
  match @fork [] kst_refs with
  | Ok r _ s' => r = 1 /\ bal 0 (Some 3%nat :: replicate 15 None) (fun _ => 0) (fv s')
  | _ => False
  end.
Proof.
  assert (Hr : value_of (fork [] kst_refs) = Some 1) by (vm_compute; reflexivity).
  destruct (fork [] kst_refs) as [r e' s'| | | |] eqn:E; try discriminate Hr. injection Hr as ->. split; [done|].
  apply (proj1 (@fork_exit_refs sync_disk 0 (Some 3%nat :: replicate 15 None) kst_refs stable_sync_disk eq_refl bal_refs) 1 e' s' unused_empty_refs); [|exact E].
  intros p [= <-]. done.
Defined.
