(* ===== verification/SysFrame.v ===== *)
(** sysfile.c, sysproc.c, exec.c: what a system call may change of the process that makes
    it, and that one that fails changes nothing of it. *)

From S2P Require Import Prelude Machine KState Blocks Spinlock KString Kalloc Vm Proc ProcSpec ProcMem Sleeplock Bio BioProof Log LogProof Fs FsExample Console File ProcFs Syscall Stable FileRefs.

#[local] Hint Constants Opaque : typeclass_instances.

(** ** The view without the reference counts *)

Record cview := CView {
  cv_cores : list pcore;
  cv_parents : list (option nat);
  cv_cur : option (option nat) }.
Definition cv_of (v : pview) : cview := CView (pv_cores v) (pv_parents v) (pv_cur v).
Definition cv (s : kst) : cview := cv_of (pv s).

#[export] Instance stable_cv {A} (m : K A) : Stable pv m -> Stable cv m.
Proof. by apply (stable_coarser pv cv cv_of). Qed.

Lemma stable_cv_upd_file f g : Stable cv (upd_file f g).
Proof. unfold upd_file. apply stable_bind; [apply _|]. intros x. by apply stable_modk. Qed.
#[export] Hint Extern 0 (Stable cv (upd_file _ _)) => apply stable_cv_upd_file : typeclass_instances.

#[export] Instance stable_filealloc_loop l : Stable cv (filealloc_loop l).
Proof. induction l; cbn [filealloc_loop]; stable. Qed.
#[export] Instance stable_filealloc : Stable cv filealloc.
Proof. unfold filealloc. stable. Qed.
#[export] Instance stable_filedup f : Stable cv (filedup f).
Proof. unfold filedup. stable. Qed.

Section driver.
Context `{DD : DiskDriver} `{Hdisk : !forall b w, Stable pv (virtio_disk_rw b w)}.

#[export] Instance stable_fileclose f : Stable cv (fileclose f).
Proof. unfold fileclose. stable. Qed.
#[export] Instance stable_pipealloc : Stable cv pipealloc.
Proof. unfold pipealloc. stable. Qed.
End driver.

(** ** The process that runs *)

Definition pc_set_ofile (t : list (option nat)) (c : pcore) : pcore :=
  PCore (pc_pid c) (pc_kstack c) (pc_sz c) (pc_pagetable c) (pc_trapframe c) t (pc_cwd c) (pc_name c).
Definition pc_set_cwd (d : option nat) (c : pcore) : pcore :=
  PCore (pc_pid c) (pc_kstack c) (pc_sz c) (pc_pagetable c) (pc_trapframe c) (pc_ofile c) d (pc_name c).
Definition pc_set_image (pt sz : Z) (name : list Z) (c : pcore) : pcore :=
  PCore (pc_pid c) (pc_kstack c) sz pt (pc_trapframe c) (pc_ofile c) (pc_cwd c) name.

Section frame.
Context (me : nat).

(** Process [me], which is not its own parent, runs and has [c]. *)
Record holds (c : pcore) (v : cview) : Prop := {
  ho_cur : cv_cur v = Some (Some me);
  ho_core : cv_cores v !! me = Some c;
  ho_parent : cv_parents v !! me <> Some (Some me) }.

Abbreviation moves := (moves cv holds).

Lemma holds_curproc c : moves curproc c (fun i c' => i = me /\ c' = c).
Proof. apply (curproc_moves cv holds me); [|apply _..]. intros s Hb. by apply ho_cur in Hb. Qed.

Lemma holds_get_proc c : moves (get_proc me) c (fun p c' => pcore_of p = c /\ c' = c).
Proof.
  intros e s p e' s' He Hb H. unfold get_proc in H. kinv H. injection E as <- <- <-.
  destruct (ps_procs (k_ps s) !! me) as [x|] eqn:Ex; [|done]. injection H as <- <- <-. split; [done|].
  exists c. split; [|done]. pose proof (ho_core _ _ Hb) as Ht. cbn in Ht. rewrite list_lookup_fmap, Ex in Ht. by injection Ht.
Qed.

(** The state after [upd_proc]. *)
Lemma upd_proc_cv i g e s u e' s' : upd_proc i g e s = Ok u e' s' ->
  exists p, ps_procs (k_ps s) !! i = Some p /\ e' = e /\
    cv s' = CView (<[i := pcore_of (g p)]> (cv_cores (cv s))) (<[i := p_parent (g p)]> (cv_parents (cv s))) (cv_cur (cv s)).
Proof.
  unfold upd_proc, get_proc, mbind, K_bind, gets, deref, modk.
  destruct (ps_procs (k_ps s) !! i) as [x|] eqn:Ex; [|done]. intros H. injection H as _ <- <-.
  exists x. split; [done|]. split; [done|]. unfold cv, cv_of. cbn. by rewrite !list_fmap_insert.
Qed.

(** [me] changes what it has. *)
Lemma holds_upd_me g h c :
  (forall p, pcore_of (g p) = h (pcore_of p) /\ p_parent (g p) = p_parent p) ->
  moves (upd_proc me g) c (fun _ c' => c' = h c).
Proof.
  intros Hg e s u e' s' He [A B C] H. apply upd_proc_cv in H as (p & Hp & -> & ->). split; [done|].
  exists (h c). split; [done|]. destruct (Hg p) as [-> ->].
  assert (Hc : pcore_of p = c) by (cbn in B; rewrite list_lookup_fmap, Hp in B; by injection B). rewrite Hc.
  split; cbn [cv_cur cv_cores cv_parents]; [done|apply list_lookup_insert_eq; by eapply lookup_lt_Some|].
  rewrite list_lookup_insert_eq; [|cbn; rewrite length_fmap; by eapply lookup_lt_Some].
  intros [= Hpa]. apply C. cbn. by rewrite list_lookup_fmap, Hp, <- Hpa.
Qed.

(** [me] changes another process. *)
Lemma holds_upd_other i g c : i <> me -> moves (upd_proc i g) c (fun _ c' => c' = c).
Proof.
  intros Hi e s u e' s' He [A B C] H. apply upd_proc_cv in H as (p & Hp & -> & ->). split; [done|].
  exists c. split; [done|]. split; cbn [cv_cur cv_cores cv_parents]; [done| |]; by rewrite list_lookup_insert_ne.
Qed.

(** The next step is stable. *)
Ltac step := apply moves_seq_stable; [stable|]; intros ?.

(** ** sysproc.c *)

Definition pc_set_sz (sz : Z) (c : pcore) : pcore := pc_set_image (pc_pagetable c) sz (pc_name c) c.

Lemma holds_set_sz sz c : moves (upd_proc me (p_set_sz sz)) c (fun _ c' => c' = pc_set_sz sz c).
Proof. by apply (holds_upd_me (p_set_sz sz) (pc_set_sz sz)). Qed.

Lemma holds_growproc n c : moves (growproc n) c (fun r c' => (r = -1 /\ c' = c) \/ (r = 0 /\ exists sz, c' = pc_set_sz sz c)).
Proof.
  unfold growproc. eapply moves_bind; [apply holds_curproc|]. intros i c' (-> & ->). step.
  destruct (0 <? n); [|destruct (n <? 0)].
  1: step; destruct (_ =? 0); [apply moves_ret; by left|].
  2: step.
  all: eapply moves_bind; [apply holds_set_sz|].
  all: intros _ c' ->; apply moves_ret; right; split; [done|]; by eexists.
Qed.

Lemma holds_freeproc i c : i <> me -> moves (freeproc i) c (fun _ c' => c' = c).
Proof.
  intros Hi. unfold freeproc. do 2 step.
  eapply moves_bind; [by apply holds_upd_other|]. intros _ c' ->. do 2 step.
  do 8 (eapply moves_bind; [by apply holds_upd_other|]; intros _ ? ->). by apply holds_upd_other.
Qed.

Lemma get_parent_other pp c : moves (get_proc pp) c (fun q c' => c' = c /\ (p_parent q = Some me -> pp <> me)).
Proof.
  intros e s q e' s' He Hb H. unfold get_proc in H. kinv H. injection E as <- <- <-.
  destruct (ps_procs (k_ps s) !! pp) as [x|] eqn:Ex; [|done]. injection H as <- <- <-. split; [done|].
  exists c. split; [|done]. split; [done|]. intros Hp ->. apply (ho_parent _ _ Hb). cbn. by rewrite list_lookup_fmap, Ex, <- Hp.
Qed.

Lemma holds_wait_scan l addr k c : moves (wait_scan l me addr k) c (fun _ c' => c' = c).
Proof.
  revert k. induction l as [|pp l IH]; intros k; cbn [wait_scan]; [by apply moves_ret|].
  eapply moves_bind; [apply get_parent_other|]. intros q c' (-> & Hq). case_bool_decide as Hp; [|apply IH].
  do 2 step. case_bool_decide; [|step; apply IH]. step. destruct (_ <? 0); [by apply moves_rest; [stable|]|].
  eapply moves_bind; [by apply holds_freeproc, Hq|]. intros _ c' ->. by apply moves_rest; [stable|].
Qed.

Lemma holds_wait addr c : moves (wait addr) c (fun _ c' => c' = c).
Proof.
  unfold wait. eapply moves_bind; [apply holds_curproc|]. intros i c' (-> & ->). step.
  unfold sleeping. intros e s. generalize (S (length e)). intros fuel. revert e s. change (moves (wait_loop fuel me addr) c (fun _ c' => c' = c)).
  induction fuel as [|fuel IH]; cbn [wait_loop]; [by apply moves_rest; [stable|]|].
  eapply moves_bind; [apply holds_wait_scan|]. intros [pid|hk] c' ->; [by apply moves_ret|].
  step. destruct (_ : bool); [by apply moves_rest; [stable|]|]. step. apply IH.
Qed.

Section calls.
Context `{DD : DiskDriver} `{Hdisk : !forall b w, Stable pv (virtio_disk_rw b w)}.

(** ** exec.c *)

Lemma exec_bad_fails pt sz ip c : moves (exec_bad pt sz ip) c (fun r c' => r = -1 /\ c' = c).
Proof. unfold exec_bad. do 2 step. by apply moves_ret. Qed.

(** The arguments before the null pointer. *)
Fixpoint count_args (argv : list Z) : nat :=
  match argv with
  | [] => 0
  | a :: argv => if a =? 0 then 0 else S (count_args argv)
  end.

Lemma exec_args_count argv : forall argc pt sp base us e s sp' us' e' s',
  exec_args argv argc pt sp base us e s = Ok (Some (sp', us')) e' s' -> argc = length us ->
  length us' = (length us + count_args argv)%nat /\ (length us' < MAXARG)%nat.
Proof.
  induction argv as [|a argv IH]; intros argc pt sp base us e s sp' us' e' s' H Hus; cbn [exec_args count_args] in *; [done|].
  destruct (a =? 0).
  - destruct (Nat.ltb_spec argc MAXARG); [|done]. injection H as <- <- <- <-. lia.
  - destruct (MAXARG <=? argc)%nat; [done|]. do 2 kinv H. cbv zeta in H.
    match type of H with context [?x <? base] => destruct (x <? base); [done|] end. kinv H.
    match type of H with context [?x <? 0] => destruct (x <? 0); [done|] end. apply IH in H; [|rewrite length_app; simpl; lia]. rewrite length_app in H. simpl in H. lia.
Qed.

(** The new image for [argc] arguments, or nothing. *)
Definition new_image (path : list Z) (argc : nat) (c : pcore) (r : Z) (c' : pcore) : Prop :=
  (r = -1 /\ c' = c) \/
  (r = Z.of_nat argc /\ (argc < MAXARG)%nat /\
   exists pt sz, pt <> 0 /\ sz <> 0 /\ c' = pc_set_image pt sz (safestrcpy_l sizeof_name (pc_name c) (exec_last path path)) c).

Lemma bad_image path n pt sz ip c : moves (exec_bad pt sz ip) c (new_image path n c).
Proof. eapply moves_mono; [apply exec_bad_fails|]. intros r c' [-> ->]. by left. Qed.

Lemma holds_exec_stack path argv elf pt sz c : pt <> 0 -> moves (exec_stack me path argv elf pt sz) c (new_image path (count_args argv) c).
Proof.
  intros Hpt. unfold exec_stack. do 2 step. destruct (Z.eqb_spec a0 0) as [|Hsz]; [apply bad_image|]. step.
  eapply moves_bind.
  { apply (moves_result cv holds _ _
      (fun r => forall sp us, r = Some (sp, us) -> length us = count_args argv /\ (length us < MAXARG)%nat)); [stable|].
    intros e s r e' s' H sp us ->. by apply exec_args_count in H. }
  intros r c' [-> Hr]. destruct r as [[sp ustack]|]; [|apply bad_image]. destruct (Hr sp ustack eq_refl) as [Hlen Hmax]. cbv zeta. destruct (_ <? _); [apply bad_image|]. step.
  destruct (_ <? 0); [apply bad_image|]. step.
  set (h0 := fun c => pc_set_image (pc_pagetable c) (pc_sz c) (safestrcpy_l sizeof_name (pc_name c) (exec_last path path)) c).
  eapply moves_bind; [by apply (holds_upd_me _ h0)|]. intros _ c' ->. step.
  set (h1 := fun c => pc_set_image pt (pc_sz c) (pc_name c) c).
  eapply moves_bind; [by apply (holds_upd_me _ h1)|]. intros _ c' ->.
  eapply moves_bind; [apply holds_set_sz|]. intros _ c' ->. do 3 step. apply moves_ret. right. rewrite <- Hlen. split; [done|]. split; [done|]. by exists pt, a0.
Qed.

Lemma holds_exec path argv c : moves (exec path argv) c (new_image path (count_args argv) c).
Proof.
  unfold exec. eapply moves_bind; [apply holds_curproc|]. intros i c' (-> & ->). do 2 step.
  destruct a0 as [ip|]; [|step; apply moves_ret; by left]. do 2 step.
  destruct (negb _); [apply bad_image|]. destruct (negb _); [apply bad_image|]. step.
  destruct (Z.eqb_spec a2 0) as [|Hpt]; [apply bad_image|]. step. destruct (negb _); [apply bad_image|]. do 2 step.
  by apply holds_exec_stack.
Qed.

Lemma holds_chdir c : moves sys_chdir c (fun r c' => (r = -1 /\ c' = c) \/ (r = 0 /\ exists d, c' = pc_set_cwd d c)).
Proof.
  unfold sys_chdir. eapply moves_bind; [apply holds_curproc|]. intros i c' (-> & ->). do 3 step.
  destruct a1 as [ip|]; [|step; apply moves_ret; by left]. do 2 step. destruct (negb _).
  - do 2 step. apply moves_ret. by left.
  - do 5 step. eapply moves_bind; [by apply (holds_upd_me (p_set_cwd (Some ip)) (pc_set_cwd (Some ip)))|]. intros _ c' ->.
    apply moves_ret. right. split; [done|]. by eexists.
Qed.

(** ** Descriptors *)

Definition set_fd (fd : nat) (o : option nat) (c : pcore) : pcore := pc_set_ofile (<[fd := o]> (pc_ofile c)) c.

Lemma set_fd_twice fd o o' c : pc_ofile c !! fd = Some o -> set_fd fd o (set_fd fd o' c) = c.
Proof. intros Ho. unfold set_fd. cbn [pc_ofile pc_set_ofile]. rewrite list_insert_insert_eq, list_insert_id by done. by destruct c. Qed.

Lemma set_fd_comm i j o o' c : i <> j -> set_fd i o (set_fd j o' c) = set_fd j o' (set_fd i o c).
Proof. intros Hij. unfold set_fd, pc_set_ofile. cbn. f_equal. by apply list_insert_insert_ne. Qed.

Lemma holds_set_fd fd o c :
  moves (upd_proc me (fun p => p_set_ofile (<[fd := o]> (p_ofile p)) p)) c (fun _ c' => c' = set_fd fd o c).
Proof. by apply (holds_upd_me _ (set_fd fd o)). Qed.

Lemma holds_clear_fd fd c : moves (clear_fd me (Z.of_nat fd)) c (fun _ c' => c' = set_fd fd None c).
Proof. unfold clear_fd. rewrite Nat2Z.id. apply holds_set_fd. Qed.

(** A free descriptor was taken, or there was none. *)
Definition fd_taken (f : nat) (c : pcore) (r : Z) (c' : pcore) : Prop :=
  (r = -1 /\ c' = c) \/ exists fd, r = Z.of_nat fd /\ pc_ofile c !! fd = Some None /\ c' = set_fd fd (Some f) c.

Lemma holds_fdalloc f c : moves (fdalloc f) c (fd_taken f c).
Proof.
  unfold fdalloc. eapply moves_bind; [apply holds_curproc|]. intros i c' (-> & ->).
  induction (seq 0 NOFILE) as [|fd l IH]; cbn [fdalloc_loop]; [apply moves_ret; by left|].
  eapply moves_bind; [apply holds_get_proc|]. intros p c' (Hp & ->).
  eapply moves_bind; [apply moves_deref|]. intros [g|] c' (Hx & ->); [apply IH|].
  eapply moves_bind; [apply holds_set_fd|]. intros _ c' ->. apply moves_ret. right. exists fd. split; [done|].
  split; [|done]. by rewrite <- Hp.
Qed.

(** A call that fails leaves everything, one that succeeds may change the descriptors. *)
Definition fds_only (c : pcore) (r : Z) (c' : pcore) : Prop :=
  (exists t, c' = pc_set_ofile t c) /\ (r = -1 -> c' = c).

Lemma fds_same r c : fds_only c r c.
Proof. split; [|done]. exists (pc_ofile c). by destruct c. Qed.
Lemma fds_changed r t c : 0 <= r -> fds_only c r (pc_set_ofile t c).
Proof. split; [by exists t|lia]. Qed.

Lemma holds_dup c : moves sys_dup c (fds_only c).
Proof.
  unfold sys_dup. step. destruct a as [[k f]|]; [|apply moves_ret, fds_same].
  eapply moves_bind; [apply holds_fdalloc|]. intros r c' [(-> & ->)|(fd & -> & Hfd & ->)]; [apply moves_ret, fds_same|].
  replace (Z.of_nat fd <? 0) with false by (symmetry; apply Z.ltb_ge; lia). step. apply moves_ret, fds_changed. lia.
Qed.

Lemma holds_close c : moves sys_close c (fds_only c).
Proof.
  unfold sys_close. step. destruct a as [[k f]|]; [|apply moves_ret, fds_same].
  eapply moves_bind; [apply holds_curproc|]. intros i c' (-> & ->).
  eapply moves_bind; [apply holds_clear_fd|]. intros _ c' ->. step. by apply moves_ret, fds_changed.
Qed.

Lemma holds_open c : moves sys_open c (fds_only c).
Proof.
  unfold sys_open. do 2 step. destruct (_ <? 0); [apply moves_ret, fds_same|]. do 2 step.
  destruct a2 as [ip|]; [|step; apply moves_ret, fds_same]. step.
  destruct (_ && _); [do 2 step; apply moves_ret, fds_same|]. step.
  destruct a3 as [f|]; [|do 3 step; apply moves_ret, fds_same].
  eapply moves_bind; [apply holds_fdalloc|]. intros r c' [(-> & ->)|(fd & -> & Hfd & ->)].
  - do 3 step. apply moves_ret, fds_same.
  - replace (Z.of_nat fd <? 0) with false by (symmetry; apply Z.ltb_ge; lia). do 7 step. apply moves_ret, fds_changed. lia.
Qed.

Lemma holds_pipe c : moves sys_pipe c (fds_only c).
Proof.
  unfold sys_pipe. eapply moves_bind; [apply holds_curproc|]. intros i c' (-> & ->). do 2 step.
  destruct a0 as [[rf wf]|]; [|apply moves_ret, fds_same].
  eapply moves_bind; [apply holds_fdalloc|]. intros r c' [(-> & ->)|(k & -> & Hk & ->)].
  { apply moves_seq_stable; [change (-1 <? 0) with true; apply _|]. intros r.
    apply moves_seq_stable; [change (-1 >=? 0) with false; cbn [when]; apply _|]. intros _. do 2 step. apply moves_ret, fds_same. }
  replace (Z.of_nat k <? 0) with false by (symmetry; apply Z.ltb_ge; lia).
  replace (Z.of_nat k >=? 0) with true by (symmetry; apply Z.geb_le; lia). cbn [orb when].
  eapply moves_bind; [apply holds_fdalloc|]. intros r c' [(-> & ->)|(m & -> & Hm & ->)].
  - eapply moves_bind; [apply holds_clear_fd|]. intros _ c' ->. do 2 step. apply moves_ret.
    rewrite set_fd_twice by done. apply fds_same.
  - replace (Z.of_nat m <? 0) with false by (symmetry; apply Z.ltb_ge; lia). cbn [orb]. do 3 step. destruct (_ <? 0).
    + assert (Hne : k <> m).
      { intros ->. cbn in Hm. by rewrite list_lookup_insert_eq in Hm by (by eapply lookup_lt_Some). }
      eapply moves_bind; [apply holds_clear_fd|]. intros _ c' ->. eapply moves_bind; [apply holds_clear_fd|]. intros _ c' ->.
      do 2 step. apply moves_ret. rewrite (set_fd_comm k m) by done. rewrite set_fd_twice.
      * rewrite set_fd_twice by done. apply fds_same.
      * rewrite set_fd_twice by done. cbn in Hm. by rewrite list_lookup_insert_ne in Hm.
    + apply moves_ret. split; [|done]. by exists (<[m := Some wf]> (<[k := Some rf]> (pc_ofile c))).
Qed.

(** ** Every system call *)

(** What the system call [num] may change of its process when it returns [r]. *)
Definition changes (num : Z) (c : pcore) (r : Z) (c' : pcore) : Prop :=
  (r = -1 -> c' = c) /\
  match num with
  | 4 | 10 | 15 | 21 => exists t, c' = pc_set_ofile t c
  | 7 => exists pt sz name, c' = pc_set_image pt sz name c
  | 9 => exists d, c' = pc_set_cwd d c
  | 12 => exists sz, c' = pc_set_sz sz c
  | _ => c' = c
  end.

Lemma holds_sbrk c : 0 <= pc_sz c -> moves sys_sbrk c (changes 12 c).
Proof.
  intros Hsz. unfold sys_sbrk. step. eapply moves_bind; [apply holds_curproc|]. intros i c' (-> & ->).
  eapply moves_bind; [apply holds_get_proc|]. intros p c' (Hp & ->).
  eapply moves_bind; [apply holds_growproc|]. intros r c' [(-> & ->)|(-> & sz & ->)]; apply moves_ret.
  - split; [done|]. exists (pc_sz c). by destruct c.
  - split; [|by exists sz]. rewrite <- Hp in Hsz. cbn in *. lia.
Qed.

Lemma holds_sys_exec c : moves sys_exec c (changes 7 c).
Proof.
  assert (Hsame : forall r, changes 7 c r c) by (intros r; split; [done|]; exists (pc_pagetable c), (pc_sz c), (pc_name c); by destruct c).
  unfold sys_exec. do 2 step. destruct (_ <? 0); [by apply moves_ret|]. step. destruct a1.2.
  - eapply moves_bind; [apply holds_exec|]. intros r c' H. step. apply moves_ret.
    destruct H as [[-> ->]|(Hr & _ & pt & sz & _ & _ & ->)]; [done|]. split; [lia|]. by do 3 eexists.
  - step. step. by apply moves_ret.
Qed.

Lemma frame_stable num m c : Stable cv m -> (forall r, changes num c r c) -> moves m c (changes num c).
Proof. intros Hm Hc. by apply moves_rest. Qed.

Lemma holds_sys_wait c : moves sys_wait c (changes 3 c).
Proof. unfold sys_wait. step. eapply moves_mono; [apply holds_wait|]. by intros r c' ->. Qed.

Lemma holds_sys_chdir c : moves sys_chdir c (changes 9 c).
Proof.
  eapply moves_mono; [apply holds_chdir|]. intros r c' [[-> ->]|[-> [d ->]]].
  - split; [done|]. exists (pc_cwd c). by destruct c.
  - split; [done|]. by exists d.
Qed.

Lemma syscalls_frame_moves num f c : syscalls num = Some f -> num <> 1 -> 0 <= pc_sz c -> moves f c (changes num c).
Proof.
  intros H Hn Hsz. unfold syscalls in H.
  repeat (destruct num as [|num|num]; try done; try (destruct num as [num|num|]; try done));
    injection H as <-;
    first [ by apply holds_sbrk | apply holds_sys_exec | apply moves_never, sys_exit_never
          | apply frame_stable; [apply _|done]
          | eapply moves_mono; [first [apply holds_dup | apply holds_close | apply holds_open | apply holds_pipe]|];
            intros r c' [? ?]; by split
          | by apply holds_sys_wait | apply holds_sys_chdir ].
Qed.
End calls.
End frame.

(** C12: a system call changes of the process that makes it only what it is for, and one
    that fails changes nothing. Whatever path it takes, when a system call other than fork
    returns -1 the process has the same page table, size, descriptors, directory,
    trapframe, pid and name as before; when it succeeds, open, close, dup and pipe
    changed descriptors only, chdir the directory only, sbrk the size only, exec the
    page table, the size and the name only, and every other call nothing. Page tables and
    trapframes are compared as addresses, not by what they hold. The others may do anything meanwhile that leaves what belongs to the process alone. *)
Theorem syscalls_frame `{DD : DiskDriver} me num f c e s r e' s' :
  (forall b w, Stable pv (virtio_disk_rw b w)) ->
  syscalls num = Some f -> num <> 1 -> others_keep cv (holds me) e ->
  0 <= pc_sz c -> holds me c (cv s) -> f e s = Ok r e' s' ->
  exists c', changes num c r c' /\ holds me c' (cv s').
Proof.
  intros Hd Hf Hn He Hsz Hb H. by destruct (syscalls_frame_moves me num f c Hf Hn Hsz _ _ _ _ _ He Hb H) as (_ & Hres).
Qed.


(** Process 0 in an empty directory, with one descriptor. *)
Definition kst_dir : kst :=
  with_procs (<[0%nat := p_set_cwd (Some 0%nat) (p_set_ofile (Some 3%nat :: replicate 15 None) proc_run)]> (replicate NPROC proc0))
    (kst_file 0 T_DIR).
Definition core_dir : pcore := PCore 1 0 0 0 0 (Some 3%nat :: replicate 15 None) (Some 0%nat) (replicate 16 0).

Lemma holds_dir : holds 0 core_dir (cv kst_dir).
Proof. split; [reflexivity|reflexivity|]. by vm_compute. Qed.

(** open of a path that cannot be read from user memory. *)
Lemma syscalls_frame_witness :
  match @syscalls sync_disk 15 with
  | Some f => match f [] kst_dir with Ok r _ s' => r = -1 /\ holds 0 core_dir (cv s') | _ => False end
  | None => False
  end.
Proof.
  change (@syscalls sync_disk 15) with (Some (@sys_open sync_disk)). cbn iota.
  assert (Hr : value_of (@sys_open sync_disk [] kst_dir) = Some (-1)) by (vm_compute; reflexivity).
  destruct (@sys_open sync_disk [] kst_dir) as [r e' s'| | | |] eqn:E; try discriminate Hr. injection Hr as ->. split; [done|].
  destruct (@syscalls_frame sync_disk 0 15 _ core_dir [] kst_dir (-1) e' s' stable_sync_disk eq_refl ltac:(lia)
    (others_keep_nil cv (holds 0)) ltac:(by vm_compute) holds_dir E) as (c' & [Hc _] & Hh). by rewrite (Hc eq_refl) in Hh.
Defined.




