(* ===== verification/FdTypes.v ===== *)
(** sysfile.c: the types of the tables of descriptors. Every process has NOFILE slots, each
    empty or an index into ftable, in every state a system call starts from or returns
    to. *)

From S2P Require Import Prelude Machine KState Blocks Spinlock KString Kalloc Vm Proc ProcSpec ProcMem Sleeplock Bio BioProof Log Fs Console File ProcFs Syscall Stable FileRefs SysFrame.

#[local] Hint Constants Opaque : typeclass_instances.

(** ** The tables *)

Record tview := TView { tv_tables : list (list (option nat)); tv_cur : option (option nat) }.
Definition tv_of (v : fview) : tview := TView (fv_tables v) (fv_cur v).
Definition tv (s : kst) : tview := tv_of (fv s).

#[export] Instance stable_tv {A} (m : K A) : Stable fv m -> Stable tv m.
Proof. by apply (stable_coarser fv tv tv_of). Qed.

Lemma stable_tv_cv {A} (m : K A) : Stable cv m -> Stable tv m.
Proof.
  apply (stable_coarser cv tv (fun v => TView (pc_ofile <$> cv_cores v) (cv_cur v))).
  intros s. unfold tv, tv_of, fv, cv, cv_of. cbn. f_equal. by rewrite <- list_fmap_compose.
Qed.

#[export] Instance stable_tv_filedup f : Stable tv (filedup f).
Proof. apply stable_tv_cv. apply _. Qed.
#[export] Instance stable_tv_upd_file f g : Stable tv (upd_file f g).
Proof. apply stable_tv_cv. apply _. Qed.

(** ** The invariant *)

Definition fd_ok (o : option nat) : Prop := match o with Some f => (f < NFILE)%nat | None => True end.
Definition table_ok (t : list (option nat)) : Prop := length t = NOFILE /\ Forall fd_ok t.

Lemma table_ok_insert t fd o : table_ok t -> fd_ok o -> table_ok (<[fd := o]> t).
Proof. intros [HL Ht] Ho. split; [by rewrite length_insert|by apply Forall_insert]. Qed.

Section typed.
Context (me : nat).

Record typed (x : unit) (v : tview) : Prop := {
  ty_cur : tv_cur v = Some (Some me);
  ty_tables : Forall table_ok (tv_tables v) }.

Abbreviation moves := (moves tv typed).
(** [m] keeps the types, and returns what [Q] says. *)
Abbreviation gives m Q := (moves m tt (fun a _ => Q a)).

Ltac step := apply moves_seq_stable; [stable|]; intros ?.

Lemma typed_curproc : gives curproc (fun i => i = me).
Proof.
  eapply moves_mono; [apply (curproc_moves tv typed me); [|apply _..]|].
  - intros s Hb. by apply ty_cur in Hb.
  - by intros i x' [-> _].
Qed.

Lemma typed_get_proc i : gives (get_proc i) (fun p => table_ok (p_ofile p)).
Proof.
  intros e s p e' s' He Hb H. unfold get_proc in H. kinv H. injection E as <- <- <-.
  destruct (ps_procs (k_ps s) !! i) as [x|] eqn:Ex; [|done]. injection H as <- <- <-. split; [done|].
  exists tt. split; [|done]. apply (Forall_lookup_1 _ _ i _ (ty_tables _ _ Hb)). cbn. by rewrite list_lookup_fmap, Ex.
Qed.

Lemma typed_set_fd i fd o : fd_ok o -> gives (upd_proc i (fun p => p_set_ofile (<[fd := o]> (p_ofile p)) p)) (fun _ => True).
Proof.
  intros Ho e s u e' s' He Hb H. apply upd_ofile_inv in H as (t & Ht & -> & Hv). split; [done|]. exists tt. split; [done|].
  unfold tv. rewrite Hv. destruct Hb as [Hc Hts]. split; [exact Hc|]. cbn.
  apply Forall_insert; [exact Hts|]. apply table_ok_insert; [|done]. exact (Forall_lookup_1 _ _ i _ Hts Ht).
Qed.

Lemma typed_filealloc : gives filealloc fd_ok.
Proof.
  unfold filealloc. step. assert (Hl : Forall (fun f => (f < NFILE)%nat) (seq 0 NFILE)) by (apply Forall_forall; intros f ?%elem_of_seq; lia).
  induction Hl as [|f l Hf Hl IH]; cbn [filealloc_loop]; [step; by apply moves_ret|].
  step. destruct (_ =? 0); [|exact IH]. do 2 step. by apply moves_ret.
Qed.

Lemma typed_argfd n : gives (argfd n) (fun o => match o with Some (_, f) => (f < NFILE)%nat | None => True end).
Proof.
  unfold argfd. step. destruct (_ || _); [by apply moves_ret|].
  eapply moves_bind; [apply typed_curproc|]. intros i [] ->. eapply moves_bind; [apply typed_get_proc|]. intros p [] [_ Hp].
  eapply moves_bind; [apply moves_deref|]. intros [f|] x (Hf & ->); apply moves_ret; [|done].
  exact (Forall_lookup_1 _ _ _ _ Hp Hf).
Qed.

Lemma typed_fdalloc f : (f < NFILE)%nat -> gives (fdalloc f) (fun _ => True).
Proof.
  intros Hf. unfold fdalloc. eapply moves_bind; [apply typed_curproc|]. intros i [] ->.
  induction (seq 0 NOFILE) as [|fd l IH]; cbn [fdalloc_loop]; [by apply moves_ret|]. do 2 step.
  destruct a0; [exact IH|]. eapply moves_bind; [by apply typed_set_fd|]. intros _ [] _. by apply moves_ret.
Qed.

Section calls.
Context `{DD : DiskDriver} `{Hdisk : !forall b w, Stable pv (virtio_disk_rw b w)}.

#[local] Instance stable_tv_fileclose f : Stable tv (fileclose f).
Proof. apply stable_tv_cv. apply _. Qed.

Lemma typed_pipealloc : gives pipealloc (fun o => match o with Some (f0, f1) => (f0 < NFILE)%nat /\ (f1 < NFILE)%nat | None => True end).
Proof.
  unfold pipealloc. eapply moves_bind; [apply typed_filealloc|]. intros [f0|] [] H0.
  2: { do 2 step. by apply moves_ret. }
  eapply moves_bind; [apply typed_filealloc|]. intros [f1|] [] H1; step.
  - destruct (_ =? 0); [do 2 step; by apply moves_ret|]. do 10 step. by apply moves_ret.
  - step. by apply moves_ret.
Qed.

Lemma typed_dup : gives sys_dup (fun _ => True).
Proof.
  unfold sys_dup. eapply moves_bind; [apply typed_argfd|]. intros [[k f]|] [] Hf; [|by apply moves_ret].
  eapply moves_bind; [by apply typed_fdalloc|]. intros r [] _. destruct (_ <? 0); [by apply moves_ret|].
  step. by apply moves_ret.
Qed.

Lemma typed_clear_fd i fd : gives (clear_fd i fd) (fun _ => True).
Proof. unfold clear_fd. by apply typed_set_fd. Qed.

Lemma typed_close : gives sys_close (fun _ => True).
Proof.
  unfold sys_close. step. destruct a as [[k f]|]; [|by apply moves_ret]. step.
  eapply moves_bind; [apply typed_clear_fd|]. intros _ [] _. step. by apply moves_ret.
Qed.

Lemma typed_open : gives sys_open (fun _ => True).
Proof.
  unfold sys_open. do 2 step. destruct (_ <? 0); [by apply moves_ret|]. do 2 step.
  destruct a2 as [ip|]; [|by apply moves_rest; [stable|]]. step. destruct (_ && _); [by apply moves_rest; [stable|]|].
  eapply moves_bind; [apply typed_filealloc|]. intros [f|] [] Hf; [|by apply moves_rest; [stable|]].
  eapply moves_bind; [by apply typed_fdalloc|]. intros r [] _. destruct (_ <? 0); by apply moves_rest; [stable|].
Qed.

Lemma typed_pipe : gives sys_pipe (fun _ => True).
Proof.
  unfold sys_pipe. do 2 step. eapply moves_bind; [apply typed_pipealloc|]. intros [[rf wf]|] [] Hf; [|by apply moves_ret].
  destruct Hf as [Hr Hw]. eapply moves_bind; [by apply typed_fdalloc|]. intros fd0 [] _.
  eapply moves_bind.
  { instantiate (1 := fun _ _ => True). destruct (fd0 <? 0); [by apply moves_ret|by apply typed_fdalloc]. }
  intros fd1 [] _. destruct (_ || _).
  - eapply moves_bind.
    { instantiate (1 := fun _ _ => True). unfold when. destruct (_ >=? _); [apply typed_clear_fd|by apply moves_ret]. }
    intros _ [] _. by apply moves_rest; [stable|].
  - do 3 step. destruct (_ <? 0); [|by apply moves_ret].
    eapply moves_bind; [apply typed_clear_fd|]. intros _ [] _. eapply moves_bind; [apply typed_clear_fd|]. intros _ [] _.
    by apply moves_rest; [stable|].
Qed.

Lemma typed_filedup f : gives (filedup f) (fun g => g = f).
Proof. unfold filedup. do 5 step. by apply moves_ret. Qed.

Lemma typed_fork_dup np fd : gives (fork_dup me np fd) (fun _ => True).
Proof.
  unfold fork_dup. eapply moves_bind; [apply typed_get_proc|]. intros p [] [_ Hp].
  eapply moves_bind; [apply moves_deref|]. intros [f|] x (Hf & ->); [|by apply moves_ret].
  eapply moves_bind; [apply typed_filedup|]. intros g [] ->. apply typed_set_fd. exact (Forall_lookup_1 _ _ _ _ Hp Hf).
Qed.

Lemma typed_fork : gives fork (fun _ => True).
Proof.
  unfold fork. eapply moves_bind; [apply typed_curproc|]. intros i [] ->. step. destruct a as [np|]; [|by apply moves_ret].
  do 3 step. destruct (_ <? 0); [by apply moves_rest; [stable|]|]. do 3 step.
  eapply (moves_bind tv typed _ _ tt (fun _ _ => True)); [|intros _ [] _; by apply moves_rest; [stable|]].
  induction (seq 0 NOFILE) as [|fd l IH]; cbn [forK]; [by apply moves_ret|].
  eapply moves_bind; [apply typed_fork_dup|]. intros _ [] _. exact IH.
Qed.

Lemma syscalls_typed_moves num f : syscalls num = Some f -> gives f (fun _ => True).
Proof.
  intros H. unfold syscalls in H.
  repeat (destruct num as [|num|num]; try done; try (destruct num as [num|num|]; try done));
    injection H as <-;
    first [ apply typed_dup | apply typed_close | apply typed_open | apply typed_pipe | apply typed_fork
          | apply moves_never, sys_exit_never | apply moves_rest; [apply _|done] ].
Qed.
End calls.
End typed.

(** C13: the tables of descriptors are well typed. If every process has NOFILE slots, each of
    them empty or the index of an entry of ftable, then the same holds when any system call
    returns, fork included, so long as what the others do meanwhile keeps it: the code never
    stores or follows a file outside the table. *)
Theorem descriptors_typed `{DD : DiskDriver} me num f e s r e' s' :
  (forall b w, Stable pv (virtio_disk_rw b w)) ->
  syscalls num = Some f -> env_keeps tv (typed me tt) e ->
  typed me tt (tv s) -> f e s = Ok r e' s' -> typed me tt (tv s').
Proof.
  intros Hd Hf He Hb H. assert (He' : others_keep tv (typed me) e) by (by intros []).
  by destruct (syscalls_typed_moves me num f Hf _ _ _ _ _ He' Hb H) as (_ & [] & _ & Hres).
Qed.

Lemma descriptors_typed_witness :
  match @syscalls sync_disk 1 with
  | Some f => match f [] kst_refs with Ok r _ s' => r = 1 /\ typed 0 tt (tv s') | _ => False end
  | None => False
  end.
Proof.
  change (@syscalls sync_disk 1) with (Some sys_fork). cbn iota.
  assert (Hr : value_of (sys_fork [] kst_refs) = Some 1) by (vm_compute; reflexivity).
  destruct (sys_fork [] kst_refs) as [r e' s'| | | |] eqn:E; try discriminate Hr. injection Hr as ->. split; [done|].
  apply (@descriptors_typed sync_disk 0 1 sys_fork [] kst_refs 1 e' s' stable_sync_disk eq_refl (Forall_nil_2 _)); [|exact E].
  split; [reflexivity|]. apply Forall_forall. intros t Ht.
  assert (Hb : forallb (fun t => (length t =? NOFILE)%nat && forallb (fun o => match o with Some f => (f <? NFILE)%nat | None => true end) t)
    (tv_tables (tv kst_refs)) = true) by (vm_compute; reflexivity).
  rewrite forallb_forall in Hb. specialize (Hb t (proj1 (list_elem_of_In _ _) Ht)). apply andb_prop in Hb as [HL Ho].
  apply Nat.eqb_eq in HL. split; [done|]. apply Forall_forall. intros o Hin. rewrite forallb_forall in Ho.
  specialize (Ho o (proj1 (list_elem_of_In _ _) Hin)). destruct o as [f|]; [|done]. by apply Nat.ltb_lt.
Defined.
