(* ===== verification/Asm.v ===== *)
(** The assembly: entry.S, kernelvec.S, swtch.S and trampoline.S, on a machine
    with the instructions they use. Memory is a function from physical addresses of
    doublewords; [xlate] is the translation of the page table that satp names, a
    parameter, and so is what the C function of a [call] does. *)

From stdpp Require Import functions.
From S2P Require Import Prelude Machine.

(** ** Registers *)

Inductive reg :=
  | zero | ra | sp | gp | tp | t0 | t1 | t2 | s0 | s1 | a0 | a1 | a2 | a3 | a4 | a5 | a6 | a7
  | s2 | s3 | s4 | s5 | s6 | s7 | s8 | s9 | s10 | s11 | t3 | t4 | t5 | t6.
#[global] Instance reg_eq_dec : EqDecision reg.
Proof. solve_decision. Defined.

Inductive asm_csr := sscratch | satp | sip | mscratch | mhartid.
#[global] Instance asm_csr_eq_dec : EqDecision asm_csr.
Proof. solve_decision. Defined.

Record mach := Mach { m_reg : reg -> Z; m_csr : asm_csr -> Z; m_mem : Z -> Z }.

(** The register [zero] reads as 0 and cannot be changed. *)
Definition rget (r : reg) (m : mach) : Z := if decide (r = zero) then 0 else m_reg m r.
Definition rset (r : reg) (v : Z) (m : mach) : mach :=
  if decide (r = zero) then m else Mach (<[r := v]> (m_reg m)) (m_csr m) (m_mem m).
Definition cset (c : asm_csr) (v : Z) (m : mach) : mach := Mach (m_reg m) (<[c := v]> (m_csr m)) (m_mem m).
Definition store (a v : Z) (m : mach) : mach := Mach (m_reg m) (m_csr m) (<[a := v]> (m_mem m)).

(** ** Instructions *)

Inductive instr :=
  | Sd (src : reg) (off : Z) (base : reg)
  | Ld (dst : reg) (off : Z) (base : reg)
  | Addi (dst src : reg) (imm : Z)
  | Add (dst src1 src2 : reg)
  | Mul (dst src1 src2 : reg)
  | Li (dst : reg) (imm : Z)
  | Csrr (dst : reg) (c : asm_csr)
  | Csrw (c : asm_csr) (src : reg)
  | Csrrw (dst : reg) (c : asm_csr) (src : reg)
  | Sfence_vma
  | Call (f : string)
  | Jr (r : reg)
  | Ret
  | Sret
  | Mret.

(** How a piece of code ends: a jump, a return, a return from a trap, or a call
    that does not come back. *)
Inductive exit_kind :=
  | ExJump (pc : Z)
  | ExSret
  | ExMret
  | ExCall (f : string).

Inductive ares :=
  | AEnd (x : exit_kind) (m : mach)
  | AFault.

Section run.
Context (xlate : Z -> Z -> option Z) (callee : string -> mach -> option mach) (link : Z).

(** The physical address of [off(base)]. *)
Definition addr_of (off : Z) (base : reg) (m : mach) : option Z := xlate (m_csr m satp) (u64 (rget base m + off)).

Fixpoint run (code : list instr) (m : mach) : ares :=
  match code with
  | [] => AFault
  | i :: code =>
    match i with
    | Sd src off base =>
      match addr_of off base m with
      | Some a => run code (store a (rget src m) m)
      | None => AFault
      end
    | Ld dst off base =>
      match addr_of off base m with
      | Some a => run code (rset dst (m_mem m a) m)
      | None => AFault
      end
    | Addi dst src imm => run code (rset dst (u64 (rget src m + imm)) m)
    | Add dst x y => run code (rset dst (u64 (rget x m + rget y m)) m)
    | Mul dst x y => run code (rset dst (u64 (rget x m * rget y m)) m)
    | Li dst imm => run code (rset dst imm m)
    | Csrr dst c => run code (rset dst (m_csr m c) m)
    | Csrw c src => run code (cset c (rget src m) m)
    | Csrrw dst c src => run code (rset dst (m_csr m c) (cset c (rget src m) m))
    | Sfence_vma => run code m
    | Call f =>
      match callee f (rset ra link m) with
      | Some m => run code m
      | None => AEnd (ExCall f) (rset ra link m)
      end
    | Jr r => AEnd (ExJump (rget r m)) m
    | Ret => AEnd (ExJump (rget ra m)) m
    | Sret => AEnd ExSret m
    | Mret => AEnd ExMret m
    end
  end.
End run.

(** ** swtch.S *)

Definition swtch_code : list instr :=
  [Sd ra 0 a0; Sd sp 8 a0; Sd s0 16 a0; Sd s1 24 a0; Sd s2 32 a0; Sd s3 40 a0; Sd s4 48 a0; Sd s5 56 a0; Sd s6 64 a0;
   Sd s7 72 a0; Sd s8 80 a0; Sd s9 88 a0; Sd s10 96 a0; Sd s11 104 a0;
   Ld ra 0 a1; Ld sp 8 a1; Ld s0 16 a1; Ld s1 24 a1; Ld s2 32 a1; Ld s3 40 a1; Ld s4 48 a1; Ld s5 56 a1; Ld s6 64 a1;
   Ld s7 72 a1; Ld s8 80 a1; Ld s9 88 a1; Ld s10 96 a1; Ld s11 104 a1;
   Ret].

(** ** trampoline.S *)

Definition uservec : list instr :=
  [Csrw sscratch a0;
   Li a0 TRAPFRAME;
   Sd ra 40 a0; Sd sp 48 a0; Sd gp 56 a0; Sd tp 64 a0; Sd t0 72 a0; Sd t1 80 a0; Sd t2 88 a0; Sd s0 96 a0; Sd s1 104 a0;
   Sd a1 120 a0; Sd a2 128 a0; Sd a3 136 a0; Sd a4 144 a0; Sd a5 152 a0; Sd a6 160 a0; Sd a7 168 a0;
   Sd s2 176 a0; Sd s3 184 a0; Sd s4 192 a0; Sd s5 200 a0; Sd s6 208 a0; Sd s7 216 a0; Sd s8 224 a0; Sd s9 232 a0;
   Sd s10 240 a0; Sd s11 248 a0; Sd t3 256 a0; Sd t4 264 a0; Sd t5 272 a0; Sd t6 280 a0;
   Csrr t0 sscratch;
   Sd t0 112 a0;
   Ld sp 8 a0;
   Ld tp 32 a0;
   Ld t0 16 a0;
   Ld t1 0 a0;
   Sfence_vma;
   Csrw satp t1;
   Sfence_vma;
   Jr t0].

Definition userret : list instr :=
  [Sfence_vma;
   Csrw satp a0;
   Sfence_vma;
   Li a0 TRAPFRAME;
   Ld ra 40 a0; Ld sp 48 a0; Ld gp 56 a0; Ld tp 64 a0; Ld t0 72 a0; Ld t1 80 a0; Ld t2 88 a0; Ld s0 96 a0; Ld s1 104 a0;
   Ld a1 120 a0; Ld a2 128 a0; Ld a3 136 a0; Ld a4 144 a0; Ld a5 152 a0; Ld a6 160 a0; Ld a7 168 a0;
   Ld s2 176 a0; Ld s3 184 a0; Ld s4 192 a0; Ld s5 200 a0; Ld s6 208 a0; Ld s7 216 a0; Ld s8 224 a0; Ld s9 232 a0;
   Ld s10 240 a0; Ld s11 248 a0; Ld t3 256 a0; Ld t4 264 a0; Ld t5 272 a0; Ld t6 280 a0;
   Ld a0 112 a0;
   Sret].

(** ** kernelvec.S *)

Definition kernelvec : list instr :=
  [Addi sp sp (-256);
   Sd ra 0 sp; Sd sp 8 sp; Sd gp 16 sp; Sd tp 24 sp; Sd t0 32 sp; Sd t1 40 sp; Sd t2 48 sp; Sd s0 56 sp; Sd s1 64 sp;
   Sd a0 72 sp; Sd a1 80 sp; Sd a2 88 sp; Sd a3 96 sp; Sd a4 104 sp; Sd a5 112 sp; Sd a6 120 sp; Sd a7 128 sp;
   Sd s2 136 sp; Sd s3 144 sp; Sd s4 152 sp; Sd s5 160 sp; Sd s6 168 sp; Sd s7 176 sp; Sd s8 184 sp; Sd s9 192 sp;
   Sd s10 200 sp; Sd s11 208 sp; Sd t3 216 sp; Sd t4 224 sp; Sd t5 232 sp; Sd t6 240 sp;
   Call "kerneltrap";
   Ld ra 0 sp; Ld sp 8 sp; Ld gp 16 sp; Ld t0 32 sp; Ld t1 40 sp; Ld t2 48 sp; Ld s0 56 sp; Ld s1 64 sp;
   Ld a0 72 sp; Ld a1 80 sp; Ld a2 88 sp; Ld a3 96 sp; Ld a4 104 sp; Ld a5 112 sp; Ld a6 120 sp; Ld a7 128 sp;
   Ld s2 136 sp; Ld s3 144 sp; Ld s4 152 sp; Ld s5 160 sp; Ld s6 168 sp; Ld s7 176 sp; Ld s8 184 sp; Ld s9 192 sp;
   Ld s10 200 sp; Ld s11 208 sp; Ld t3 216 sp; Ld t4 224 sp; Ld t5 232 sp; Ld t6 240 sp;
   Addi sp sp 256;
   Sret].

Definition timervec : list instr :=
  [Csrrw a0 mscratch a0;
   Sd a1 0 a0; Sd a2 8 a0; Sd a3 16 a0;
   Ld a1 24 a0;
   Ld a2 32 a0;
   Ld a3 0 a1;
   Add a3 a3 a2;
   Sd a3 0 a1;
   Li a1 2;
   Csrw sip a1;
   Ld a3 16 a0; Ld a2 8 a0; Ld a1 0 a0;
   Csrrw a0 mscratch a0;
   Mret].

(** ** entry.S *)

Definition entry_code (stack0 : Z) : list instr :=
  [Li sp stack0;
   Li a0 (1024 * 4);
   Csrr a1 mhartid;
   Addi a1 a1 1;
   Mul a0 a0 a1;
   Add sp sp a0;
   Call "start"].
