(* ===== verification/AsmSpec.v ===== *)
(** The assembly keeps the registers: across a context switch, a trap from user
    space, an interrupt in the kernel and a timer interrupt. *)

From stdpp Require Import functions.
From S2P Require Import Prelude Machine Asm.

(** ** Saving and restoring a list of registers *)

Definition saves (base : reg) (l : list (reg * Z)) : list instr := (fun p => Sd p.1 p.2 base) <$> l.
Definition restores (base : reg) (l : list (reg * Z)) : list instr := (fun p => Ld p.1 p.2 base) <$> l.

(** ** What an instruction changes *)

Lemma reg_rset r v m : r <> zero -> m_reg (rset r v m) r = v.
Proof. intros Hr. unfold rset. rewrite decide_False by done. cbn [m_reg]. apply fn_lookup_insert. Qed.
Lemma reg_rset_ne r v m r' : r <> r' -> m_reg (rset r v m) r' = m_reg m r'.
Proof. intros Hr. unfold rset. case_decide; [done|]. cbn [m_reg]. by apply fn_lookup_insert_ne. Qed.
Lemma csr_rset r v m : m_csr (rset r v m) = m_csr m.
Proof. unfold rset. by case_decide. Qed.
Lemma mem_rset r v m : m_mem (rset r v m) = m_mem m.
Proof. unfold rset. by case_decide. Qed.
Lemma csr_cset c v m : m_csr (cset c v m) c = v.
Proof. apply fn_lookup_insert. Qed.
Lemma csr_cset_ne c v m c' : c <> c' -> m_csr (cset c v m) c' = m_csr m c'.
Proof. intros Hc. by apply fn_lookup_insert_ne. Qed.
Lemma mem_store a v m a' : m_mem (store a v m) a' = if decide (a' = a) then v else m_mem m a'.
Proof. cbn [store m_mem]. case_decide as E; [subst; apply fn_lookup_insert|by apply fn_lookup_insert_ne]. Qed.
Lemma reg_cset c v m : m_reg (cset c v m) = m_reg m.
Proof. done. Qed.
Lemma mem_cset c v m : m_mem (cset c v m) = m_mem m.
Proof. done. Qed.
Lemma reg_store a v m : m_reg (store a v m) = m_reg m.
Proof. done. Qed.
Lemma csr_store a v m : m_csr (store a v m) = m_csr m.
Proof. done. Qed.
Lemma rget_reg r m : r <> zero -> rget r m = m_reg m r.
Proof. intros Hr. unfold rget. by rewrite decide_False. Qed.

(** Evaluates registers of a state built by [rset], [cset] and [store]. *)
Ltac asm_eval :=
  repeat first
    [ rewrite reg_rset by discriminate | rewrite reg_rset_ne by discriminate | rewrite csr_rset | rewrite mem_rset
    | rewrite csr_cset | rewrite csr_cset_ne by discriminate | rewrite rget_reg by discriminate
    | rewrite reg_cset | rewrite mem_cset | rewrite reg_store | rewrite csr_store | progress cbn [m_reg m_csr m_mem] ].

Section run.
Context (xlate : Z -> Z -> option Z) (callee : string -> mach -> option mach) (link : Z).
Notation run := (run xlate callee link).
Notation addr_of := (addr_of xlate).

(** The slots of [l] lie at [p] when [base] points there. *)
Definition reachable (base : reg) (p : Z) (l : list (reg * Z)) (m : mach) : Prop :=
  forall r off, (r, off) ∈ l -> addr_of off base m = Some (p + off).

Lemma addr_of_ext off base m m' : m_reg m' base = m_reg m base -> m_csr m' satp = m_csr m satp -> addr_of off base m' = addr_of off base m.
Proof. intros Hb Hs. unfold Asm.addr_of, rget. by rewrite Hb, Hs. Qed.

Lemma run_sd src off base code m a : addr_of off base m = Some a -> run (Sd src off base :: code) m = run code (store a (rget src m) m).
Proof. intros E. cbn [Asm.run]. by rewrite E. Qed.
Lemma run_ld dst off base code m a : addr_of off base m = Some a -> run (Ld dst off base :: code) m = run code (rset dst (m_mem m a) m).
Proof. intros E. cbn [Asm.run]. by rewrite E. Qed.
Lemma run_csrr dst c code m : run (Csrr dst c :: code) m = run code (rset dst (m_csr m c) m).
Proof. done. Qed.
Lemma run_csrw c src code m : run (Csrw c src :: code) m = run code (cset c (rget src m) m).
Proof. done. Qed.
Lemma run_csrrw dst c src code m : run (Csrrw dst c src :: code) m = run code (rset dst (m_csr m c) (cset c (rget src m) m)).
Proof. done. Qed.
Lemma run_li dst imm code m : run (Li dst imm :: code) m = run code (rset dst imm m).
Proof. done. Qed.
Lemma run_addi dst src imm code m : run (Addi dst src imm :: code) m = run code (rset dst (u64 (rget src m + imm)) m).
Proof. done. Qed.
Lemma run_add dst x y code m : run (Add dst x y :: code) m = run code (rset dst (u64 (rget x m + rget y m)) m).
Proof. done. Qed.
Lemma run_mul dst x y code m : run (Mul dst x y :: code) m = run code (rset dst (u64 (rget x m * rget y m)) m).
Proof. done. Qed.
Lemma run_sfence code m : run (Sfence_vma :: code) m = run code m.
Proof. done. Qed.
Lemma run_jr r code m : run (Jr r :: code) m = AEnd (ExJump (rget r m)) m.
Proof. done. Qed.

Lemma run_saves base p code l : forall m,
  reachable base p l m -> NoDup l.*2 -> zero ∉ l.*1 ->
  exists mem, run (saves base l ++ code) m = run code (Mach (m_reg m) (m_csr m) mem) /\
    (forall r off, (r, off) ∈ l -> mem (p + off) = m_reg m r) /\
    (forall a, (forall off, off ∈ l.*2 -> a <> p + off) -> mem a = m_mem m a).
Proof.
  induction l as [|[r off] l IH]; intros m Hr Hd Hz.
  - exists (m_mem m). split; [by destruct m|]. split; [by intros r off ?%elem_of_nil|done].
  - apply NoDup_cons in Hd as [Hn Hd]. cbn in Hz. apply not_elem_of_cons in Hz as [Hrz Hz]. cbn [saves fmap list_fmap app Asm.run fst snd].
    rewrite (Hr r off) by (by left). rewrite rget_reg by done. set (m1 := store _ _ m).
    destruct (IH m1) as (mem & E & Hs & Ho); [|done|done|].
    { intros r' off' Hin. rewrite (addr_of_ext off' base m m1) by done. apply (Hr r'). by right. }
    exists mem. split; [exact E|]. split.
    + intros r' off' [[= -> ->]|Hin]%elem_of_cons; [|by apply Hs].
      rewrite Ho; [apply fn_lookup_insert|]. intros o Ho' Ep. apply Hn. by replace off with o by lia.
    + intros a Ha. cbn [fmap list_fmap snd] in Ha. rewrite Ho by (intros o Hin; apply Ha; by right). apply fn_lookup_insert_ne.
      intros E'. apply (Ha off); [by left|done].
Qed.

(** The base may be restored on the way if its slot holds the value it has. *)
Lemma run_restores base p code l : forall m,
  reachable base p l m -> NoDup l.*1 -> zero ∉ l.*1 -> (forall off, (base, off) ∈ l -> m_mem m (p + off) = m_reg m base) ->
  exists rs, run (restores base l ++ code) m = run code (Mach rs (m_csr m) (m_mem m)) /\
    (forall r off, (r, off) ∈ l -> rs r = m_mem m (p + off)) /\ (forall r, r ∉ l.*1 -> rs r = m_reg m r).
Proof.
  induction l as [|[r off] l IH]; intros m Hr Hd Hz Hb.
  - exists (m_reg m). split; [by destruct m|]. split; [by intros r off ?%elem_of_nil|done].
  - apply NoDup_cons in Hd as [Hn Hd]. cbn in Hz, Hn. apply not_elem_of_cons in Hz as [Hrz Hz]. cbn [restores fmap list_fmap app Asm.run fst snd].
    rewrite (Hr r off) by (by left). unfold rset. rewrite decide_False by done. set (m1 := Mach _ _ _).
    assert (Eb : m_reg m1 base = m_reg m base).
    { cbn. destruct (decide (base = r)) as [->|]; [rewrite fn_lookup_insert; apply Hb; by left|by rewrite fn_lookup_insert_ne]. }
    destruct (IH m1) as (rs & E & Hs & Ho); [|done|done| |].
    { intros r' off' Hin. rewrite (addr_of_ext off' base m m1) by done. apply (Hr r'). by right. }
    { intros o Hin. rewrite Eb. apply Hb. by right. }
    exists rs. split; [exact E|]. split.
    + intros r' off' [[= -> ->]|Hin]%elem_of_cons; [|by apply Hs]. rewrite Ho by done. apply fn_lookup_insert.
    + intros r' Hr'. cbn [fmap list_fmap fst] in Hr'. apply not_elem_of_cons in Hr' as [Hne Hr']. rewrite Ho by done. by apply fn_lookup_insert_ne.
Qed.

Lemma not_saved r off (l : list (reg * Z)) : r ∉ l.*1 -> (r, off) ∉ l.
Proof. intros Hn Hin. apply Hn. apply list_elem_of_fmap. by exists (r, off). Qed.

Lemma not_slot r off (l : list (reg * Z)) : off ∉ l.*2 -> (r, off) ∉ l.
Proof. intros Hn Hin. apply Hn. apply list_elem_of_fmap. by exists (r, off). Qed.

(** ** Context switch *)

(** [struct context] *)
Definition context_regs : list (reg * Z) :=
  [(ra, 0); (sp, 8); (s0, 16); (s1, 24); (s2, 32); (s3, 40); (s4, 48); (s5, 56); (s6, 64); (s7, 72); (s8, 80); (s9, 88);
   (s10, 96); (s11, 104)].
Definition sizeof_context : Z := 112.

(** The kernel's addresses are mapped to themselves. *)
Definition direct (m : mach) (p n : Z) : Prop := forall a, p <= a < p + n -> xlate (m_csr m satp) (u64 a) = Some a.

Lemma context_off r off : (r, off) ∈ context_regs -> 0 <= off < sizeof_context.
Proof.
  intros Hin. assert (Hall : Forall (fun p : reg * Z => 0 <= p.2 < sizeof_context) context_regs) by (repeat constructor; simpl; unfold sizeof_context; lia).
  rewrite Forall_forall in Hall. by apply Hall in Hin.
Qed.

Lemma reachable_direct base p l n m : (forall r off, (r, off) ∈ l -> 0 <= off < n) -> base <> zero -> m_reg m base = p -> direct m p n -> reachable base p l m.
Proof. intros Hl Hb Hp Hd r off Hin. unfold Asm.addr_of. rewrite rget_reg, Hp by done. apply Hd. specialize (Hl r off Hin). lia. Qed.

Lemma swtch_run m old new :
  m_reg m a0 = old -> m_reg m a1 = new -> direct m old sizeof_context -> direct m new sizeof_context ->
  old + sizeof_context <= new \/ new + sizeof_context <= old ->
  exists m', run swtch_code m = AEnd (ExJump (m_mem m new)) m' /\ m_csr m' = m_csr m /\
    (forall r off, (r, off) ∈ context_regs -> m_mem m' (old + off) = m_reg m r /\ m_reg m' r = m_mem m (new + off)) /\
    (forall r, r ∉ context_regs.*1 -> m_reg m' r = m_reg m r) /\
    (forall a, a < old \/ old + sizeof_context <= a -> m_mem m' a = m_mem m a).
Proof.
  intros H0 H1 D0 D1 Hapart. change swtch_code with (saves a0 context_regs ++ (restores a1 context_regs ++ [Ret])).
  destruct (run_saves a0 old (restores a1 context_regs ++ [Ret]) context_regs m) as (mem & E1 & S1 & O1).
  { eapply reachable_direct; [apply context_off|done|done|done]. }
  { refine (bool_decide_unpack _ _). vm_compute. reflexivity. }
  { refine (bool_decide_unpack _ _). vm_compute. reflexivity. }
  rewrite E1. destruct (run_restores a1 new [Ret] context_regs (Mach (m_reg m) (m_csr m) mem)) as (rs & E2 & S2 & O2).
  { eapply reachable_direct; [apply context_off|done|done|done]. }
  { refine (bool_decide_unpack _ _). vm_compute. reflexivity. }
  { refine (bool_decide_unpack _ _). vm_compute. reflexivity. }
  { intros off Hin. by apply not_saved in Hin; [|refine (bool_decide_unpack _ _); vm_compute; reflexivity]. }
  rewrite E2. cbn [m_mem m_csr m_reg] in *.
  assert (Ho : forall a, a < old \/ old + sizeof_context <= a -> mem a = m_mem m a).
  { intros a Ha. apply O1. intros off Hoff E. apply list_elem_of_fmap in Hoff as ([r o] & -> & Hin). apply context_off in Hin. cbn [snd] in E. lia. }
  eexists. cbn [Asm.run]. rewrite rget_reg by done. cbn [m_reg].
  assert (Era : rs ra = m_mem m new).
  { rewrite (S2 ra 0) by (by left). rewrite Z.add_0_r. apply Ho. unfold sizeof_context in *. lia. }
  rewrite Era. split; [done|]. split; [done|]. cbn [m_mem m_reg]. split; [|split; [exact O2|exact Ho]].
  intros r off Hin. split; [by apply S1|]. rewrite (S2 r off Hin). apply Ho. apply context_off in Hin. lia.
Qed.

(** C17: swtch(old, new) saves the stack pointer, the return address and the callee-saved
    registers in [old], touches no other memory, and goes on with those of [new]. A thread
    that was switched away from continues, when another thread switches back to its
    context, at the return address of its own call and with the registers it had. *)
Theorem swtch_resumes m old new :
  m_reg m a0 = old -> m_reg m a1 = new -> direct m old sizeof_context -> direct m new sizeof_context ->
  old + sizeof_context <= new \/ new + sizeof_context <= old ->
  exists m1, run swtch_code m = AEnd (ExJump (m_mem m new)) m1 /\
    (forall r off, (r, off) ∈ context_regs -> m_mem m1 (old + off) = m_reg m r /\ m_reg m1 r = m_mem m (new + off)) /\
    (forall r, r ∉ context_regs.*1 -> m_reg m1 r = m_reg m r) /\
    (forall a, a < old \/ old + sizeof_context <= a -> m_mem m1 a = m_mem m a) /\
    forall m2 cur, m_reg m2 a0 = cur -> m_reg m2 a1 = old -> direct m2 cur sizeof_context -> direct m2 old sizeof_context ->
      cur + sizeof_context <= old \/ old + sizeof_context <= cur ->
      (forall a, old <= a < old + sizeof_context -> m_mem m2 a = m_mem m1 a) ->
      exists m3, run swtch_code m2 = AEnd (ExJump (m_reg m ra)) m3 /\ forall r, r ∈ context_regs.*1 -> m_reg m3 r = m_reg m r.
Proof.
  intros H0 H1 D0 D1 Hap. destruct (swtch_run m old new H0 H1 D0 D1 Hap) as (m1 & E1 & _ & S1 & O1 & M1).
  exists m1. split; [exact E1|]. split; [exact S1|]. split; [exact O1|]. split; [exact M1|].
  intros m2 cur G0 G1 F0 F1 Hap2 Hkeep. destruct (swtch_run m2 cur old G0 G1 F0 F1 Hap2) as (m3 & E3 & _ & S3 & _).
  exists m3. rewrite E3. split.
  - do 2 f_equal. rewrite Hkeep by (unfold sizeof_context; lia). replace old with (old + 0) at 1 by lia. apply S1. by left.
  - intros r Hr. apply list_elem_of_fmap in Hr as ([r' off] & -> & Hin). cbn [fst]. pose proof (context_off _ _ Hin).
    rewrite (proj2 (S3 _ _ Hin)), Hkeep by lia. by apply S1.
Qed.

(** ** Traps from user space *)

(** [struct trapframe]: the registers other than a0, and all of them. *)
Definition tf_regs0 : list (reg * Z) :=
  [(ra, 40); (sp, 48); (gp, 56); (tp, 64); (t0, 72); (t1, 80); (t2, 88); (s0, 96); (s1, 104); (a1, 120); (a2, 128); (a3, 136);
   (a4, 144); (a5, 152); (a6, 160); (a7, 168); (s2, 176); (s3, 184); (s4, 192); (s5, 200); (s6, 208); (s7, 216); (s8, 224);
   (s9, 232); (s10, 240); (s11, 248); (t3, 256); (t4, 264); (t5, 272); (t6, 280)].
Definition tf_regs : list (reg * Z) := (a0, 112) :: tf_regs0.
Definition sizeof_trapframe : Z := 288.

(** The page table [us] has the trapframe at [pa]. *)
Definition tf_mapped (us pa : Z) : Prop :=
  forall off, 0 <= off < sizeof_trapframe -> xlate us (TRAPFRAME + off) = Some (pa + off).

Lemma tf_addr us pa off m : tf_mapped us pa -> m_csr m satp = us -> m_reg m a0 = TRAPFRAME -> 0 <= off < sizeof_trapframe ->
  addr_of off a0 m = Some (pa + off).
Proof.
  intros Hm Hs Ha Ho. unfold Asm.addr_of. rewrite rget_reg, Ha, Hs by done. rewrite u64_small; [by apply Hm|].
  change TRAPFRAME with 274877898752. unfold sizeof_trapframe in Ho. lia.
Qed.

Lemma tf_off r off : (r, off) ∈ tf_regs -> 40 <= off < sizeof_trapframe.
Proof.
  intros Hin. assert (Hall : Forall (fun p : reg * Z => 40 <= p.2 < sizeof_trapframe) tf_regs) by (repeat constructor; simpl; unfold sizeof_trapframe; lia).
  rewrite Forall_forall in Hall. by apply Hall in Hin.
Qed.

Lemma tf_regs_all r : r <> zero -> r <> a0 -> exists off, (r, off) ∈ tf_regs0.
Proof.
  intros Hz Ha. assert (Hin : r ∈ tf_regs0.*1) by (destruct r; try done; refine (bool_decide_unpack _ _); vm_compute; reflexivity).
  apply list_elem_of_fmap in Hin as ([r' off] & -> & Hin). by exists off.
Qed.

Lemma uservec_run m us pa :
  m_csr m satp = us -> tf_mapped us pa ->
  exists m1, run uservec m = AEnd (ExJump (m_mem m (pa + 16))) m1 /\
    m_csr m1 satp = m_mem m pa /\ m_reg m1 sp = m_mem m (pa + 8) /\ m_reg m1 tp = m_mem m (pa + 32) /\
    (forall r off, (r, off) ∈ tf_regs -> m_mem m1 (pa + off) = m_reg m r) /\
    (forall a, a < pa + 40 \/ pa + sizeof_trapframe <= a -> m_mem m1 a = m_mem m a).
Proof.
  intros Hs Hm.
  set (tail := [Csrr t0 sscratch; Sd t0 112 a0; Ld sp 8 a0; Ld tp 32 a0; Ld t0 16 a0; Ld t1 0 a0; Sfence_vma; Csrw satp t1; Sfence_vma; Jr t0]).
  change uservec with (Csrw sscratch a0 :: Li a0 TRAPFRAME :: saves a0 tf_regs0 ++ tail).
  rewrite run_csrw, run_li. set (m0 := rset a0 TRAPFRAME (cset sscratch (rget a0 m) m)).
  destruct (run_saves a0 pa tail tf_regs0 m0) as (mem & E1 & S1 & O1).
  { intros r off Hin. apply (tf_addr us); [done| |done|].
    - by unfold m0; asm_eval.
    - pose proof (tf_off r off ltac:(by right)). lia. }
  { refine (bool_decide_unpack _ _). vm_compute. reflexivity. }
  { refine (bool_decide_unpack _ _). vm_compute. reflexivity. }
  rewrite E1. clear E1. unfold tail.
  assert (Hadr : forall off mm, m_csr mm satp = us -> m_reg mm a0 = TRAPFRAME -> 0 <= off < sizeof_trapframe -> addr_of off a0 mm = Some (pa + off))
    by (intros; by apply (tf_addr us)).
  rewrite run_csrr. erewrite run_sd, !run_ld
    by (apply Hadr; [by asm_eval; unfold m0; asm_eval|by asm_eval; unfold m0; asm_eval|unfold sizeof_trapframe; lia]).
  rewrite run_sfence, run_csrw, run_sfence, run_jr.
  assert (Hkeep : forall off, 0 <= off < 40 -> (if decide (pa + off = pa + 112) then m_reg m a0 else mem (pa + off)) = m_mem m (pa + off)).
  { intros off Hoff. rewrite decide_False by lia. apply O1. intros o Ho E. apply list_elem_of_fmap in Ho as ([r o'] & -> & Hin). cbn [snd] in E.
    pose proof (tf_off r o' ltac:(by right)). lia. }
  match goal with |- exists m1, AEnd _ ?mm = _ /\ _ => exists mm end.
  unfold m0. asm_eval. rewrite !mem_store. asm_eval. rewrite !Hkeep by lia. rewrite Z.add_0_r.
  split; [done|]. split; [done|]. split; [done|]. split; [done|]. split.
  - intros r off Hin. rewrite mem_store. asm_eval. apply elem_of_cons in Hin as [[= -> ->]|Hin]; [by rewrite decide_True|].
    rewrite decide_False.
    + rewrite (S1 r off Hin). unfold m0. rewrite reg_rset_ne; [done|]. intros <-.
      by apply not_saved in Hin; [|refine (bool_decide_unpack _ _); vm_compute; reflexivity].
    + intros E. assert (off = 112) as -> by lia. revert Hin. apply not_slot. refine (bool_decide_unpack _ _). vm_compute. reflexivity.
  - intros a Ha. rewrite mem_store, decide_False by (unfold sizeof_trapframe in *; lia). asm_eval. apply O1. intros o Ho E.
    apply list_elem_of_fmap in Ho as ([r o'] & -> & Hin). cbn [snd] in E. pose proof (tf_off r o' ltac:(by right)). unfold sizeof_trapframe in *. lia.
Qed.

Lemma userret_run m us pa :
  m_reg m a0 = us -> tf_mapped us pa ->
  exists m', run userret m = AEnd ExSret m' /\ m_csr m' satp = us /\ m_mem m' = m_mem m /\
    forall r off, (r, off) ∈ tf_regs -> m_reg m' r = m_mem m (pa + off).
Proof.
  intros Ha Hm. change userret with (Sfence_vma :: Csrw satp a0 :: Sfence_vma :: Li a0 TRAPFRAME :: restores a0 tf_regs0 ++ [Ld a0 112 a0; Sret]).
  rewrite run_sfence, run_csrw, run_sfence, run_li. set (m0 := rset a0 TRAPFRAME (cset satp (rget a0 m) m)).
  assert (Hs0 : m_csr m0 satp = us) by (by unfold m0; asm_eval). assert (Ha0 : m_reg m0 a0 = TRAPFRAME) by (by unfold m0; asm_eval).
  assert (Hnot : a0 ∉ tf_regs0.*1) by (refine (bool_decide_unpack _ _); vm_compute; reflexivity).
  destruct (run_restores a0 pa [Ld a0 112 a0; Sret] tf_regs0 m0) as (rs & E & S & O).
  { intros r off Hin. apply (tf_addr us); [done|done|done|]. pose proof (tf_off r off ltac:(by right)). lia. }
  { refine (bool_decide_unpack _ _). vm_compute. reflexivity. }
  { refine (bool_decide_unpack _ _). vm_compute. reflexivity. }
  { intros off Hin. by apply not_saved in Hin. }
  rewrite E. assert (Hra0 : rs a0 = TRAPFRAME) by (rewrite O; done).
  erewrite run_ld by (by apply (tf_addr us)). eexists. split; [done|]. rewrite csr_rset, mem_rset. cbn [m_mem m_csr].
  split; [done|]. split; [by unfold m0; asm_eval|]. intros r off Hin.
  assert (Hmem : m_mem m0 = m_mem m) by (by unfold m0; asm_eval). rewrite Hmem in *.
  apply elem_of_cons in Hin as [[= -> ->]|Hin]; [by rewrite reg_rset|].
  rewrite reg_rset_ne; [cbn [m_reg]; by apply S|]. intros <-. by apply not_saved in Hin.
Qed.

(** C16: A trap is transparent to the user program. uservec stores every register in the
    trapframe and nothing outside it, and enters the kernel at the handler, on the
    stack, the hart id and the page table that the trapframe names. When the kernel
    has left the saved registers alone, except a0 where a system call puts its result,
    userret resumes the user page table with the same registers. *)
Theorem trap_transparent m us pa :
  m_csr m satp = us -> tf_mapped us pa ->
  exists m1, run uservec m = AEnd (ExJump (m_mem m (pa + 16))) m1 /\
    m_csr m1 satp = m_mem m pa /\ m_reg m1 sp = m_mem m (pa + 8) /\ m_reg m1 tp = m_mem m (pa + 32) /\
    (forall r off, (r, off) ∈ tf_regs -> m_mem m1 (pa + off) = m_reg m r) /\
    (forall a, a < pa + 40 \/ pa + sizeof_trapframe <= a -> m_mem m1 a = m_mem m a) /\
    forall m2, m_reg m2 a0 = us -> (forall r off, (r, off) ∈ tf_regs -> r <> a0 -> m_mem m2 (pa + off) = m_mem m1 (pa + off)) ->
      exists m3, run userret m2 = AEnd ExSret m3 /\ m_csr m3 satp = us /\ m_mem m3 = m_mem m2 /\
        m_reg m3 a0 = m_mem m2 (pa + 112) /\ forall r, r <> zero -> r <> a0 -> m_reg m3 r = m_reg m r.
Proof.
  intros Hs Hm. destruct (uservec_run m us pa Hs Hm) as (m1 & E1 & C1 & C2 & C3 & S1 & O1).
  exists m1. do 6 (split; [done|]). intros m2 Ha Hkeep. destruct (userret_run m2 us pa Ha Hm) as (m3 & E3 & D1 & D2 & D3).
  exists m3. do 3 (split; [done|]). split; [apply D3; by left|]. intros r Hz Hra0.
  destruct (tf_regs_all r Hz Hra0) as [off Hin]. assert (Hin' : (r, off) ∈ tf_regs) by (by right).
  by rewrite (D3 r off Hin'), (Hkeep r off Hin' Hra0), (S1 r off Hin').
Qed.

(** ** Interrupts in the kernel *)

Definition kv_saved : list (reg * Z) :=
  [(ra, 0); (sp, 8); (gp, 16); (tp, 24); (t0, 32); (t1, 40); (t2, 48); (s0, 56); (s1, 64); (a0, 72); (a1, 80); (a2, 88); (a3, 96);
   (a4, 104); (a5, 112); (a6, 120); (a7, 128); (s2, 136); (s3, 144); (s4, 152); (s5, 160); (s6, 168); (s7, 176); (s8, 184);
   (s9, 192); (s10, 200); (s11, 208); (t3, 216); (t4, 224); (t5, 232); (t6, 240)].
Definition kv_restored : list (reg * Z) := filter (fun p => p.1 <> tp) kv_saved.

Lemma kv_off r off : (r, off) ∈ kv_saved -> 0 <= off < 256.
Proof.
  intros Hin. assert (Hall : Forall (fun p : reg * Z => 0 <= p.2 < 256) kv_saved) by (repeat constructor; simpl; lia).
  rewrite Forall_forall in Hall. by apply Hall in Hin.
Qed.

Lemma kv_regs_all r : r <> zero -> r <> tp -> exists off, (r, off) ∈ kv_restored.
Proof.
  intros Hz Ha. assert (Hin : r ∈ kv_restored.*1) by (destruct r; try done; refine (bool_decide_unpack _ _); vm_compute; reflexivity).
  apply list_elem_of_fmap in Hin as ([r' off] & -> & Hin). by exists off.
Qed.
Lemma kv_restored_saved r off : (r, off) ∈ kv_restored -> (r, off) ∈ kv_saved.
Proof. intros Hin. by apply list_elem_of_filter in Hin as [_ Hin]. Qed.

(** What the calling convention promises of a C function: the stack pointer and the
    frames above it are as they were. *)
Definition keeps_frame (f : string) : Prop :=
  forall m, exists m', callee f m = Some m' /\ m_reg m' sp = m_reg m sp /\ m_csr m' satp = m_csr m satp /\
    forall a, m_reg m sp <= a < m_reg m sp + 256 -> m_mem m' a = m_mem m a.

(** C37: An interrupt in the kernel is transparent to the code it interrupts: kernelvec saves
    all registers on the kernel stack, calls kerneltrap, and returns with every
    register as it was but tp, which kerneltrap may have changed by moving the thread to
    another hart. *)
Theorem kernelvec_transparent m :
  256 <= m_reg m sp < 2 ^ 64 -> direct m (m_reg m sp - 256) 256 -> keeps_frame "kerneltrap" ->
  exists m1 m2 m3, callee "kerneltrap" m1 = Some m2 /\ m_reg m1 tp = m_reg m tp /\ m_reg m1 sp = m_reg m sp - 256 /\
    (forall a, a < m_reg m sp - 256 \/ m_reg m sp <= a -> m_mem m1 a = m_mem m a) /\
    run kernelvec m = AEnd ExSret m3 /\ m_mem m3 = m_mem m2 /\ m_reg m3 tp = m_reg m2 tp /\
    forall r, r <> zero -> r <> tp -> m_reg m3 r = m_reg m r.
Proof.
  intros Hsp Hd Hk. set (p := m_reg m sp - 256) in *.
  set (tail := Call "kerneltrap" :: restores sp kv_restored ++ [Addi sp sp 256; Sret]).
  change kernelvec with (Addi sp sp (-256) :: saves sp kv_saved ++ tail).
  rewrite run_addi. assert (Ep : u64 (rget sp m + -256) = p) by (rewrite rget_reg by done; rewrite u64_small; unfold p; lia). rewrite Ep.
  set (m0 := rset sp p m). assert (Hsp0 : m_reg m0 sp = p) by (by unfold m0; asm_eval).
  assert (Hd0 : direct m0 p 256) by (unfold direct, m0; by rewrite csr_rset).
  destruct (run_saves sp p tail kv_saved m0) as (mem & E1 & S1 & O1).
  { eapply reachable_direct; [apply kv_off|done|done|done]. }
  { refine (bool_decide_unpack _ _). vm_compute. reflexivity. }
  { refine (bool_decide_unpack _ _). vm_compute. reflexivity. }
  rewrite E1. set (m1 := rset ra link (Mach (m_reg m0) (m_csr m0) mem)).
  destruct (Hk m1) as (m2 & E2 & K1 & K2 & K3). assert (Hsp1 : m_reg m1 sp = p) by (unfold m1; by asm_eval). rewrite Hsp1 in *.
  assert (Hc1 : m_csr m1 = m_csr m) by (unfold m1, m0; by asm_eval). assert (Hm1 : m_mem m1 = mem) by (unfold m1; by asm_eval).
  destruct (run_restores sp p [Addi sp sp 256; Sret] kv_restored m2) as (rs & E3 & S3 & O3).
  { eapply (reachable_direct _ _ _ 256); [intros r off Hin; by apply (kv_off r), kv_restored_saved|done|done|]. unfold direct. by rewrite K2, Hc1. }
  { refine (bool_decide_unpack _ _). vm_compute. reflexivity. }
  { refine (bool_decide_unpack _ _). vm_compute. reflexivity. }
  { intros off Hin. apply kv_restored_saved in Hin. pose proof (kv_off _ _ Hin). rewrite K3 by lia. rewrite Hm1, (S1 _ _ Hin). congruence. }
  assert (Hval : forall r off, (r, off) ∈ kv_restored -> rs r = m_reg m0 r).
  { intros r off Hin. rewrite (S3 _ _ Hin). apply kv_restored_saved in Hin. pose proof (kv_off _ _ Hin). rewrite K3 by lia. by rewrite Hm1, (S1 _ _ Hin). }
  exists m1, m2, (rset sp (m_reg m sp) (Mach rs (m_csr m2) (m_mem m2))). split; [exact E2|]. split; [by unfold m1, m0; asm_eval|]. split; [done|]. split.
  { intros a Ha. rewrite Hm1, O1; [by unfold m0; asm_eval|]. intros off Ho E. apply list_elem_of_fmap in Ho as ([r o] & -> & Hin). cbn [snd] in E.
    pose proof (kv_off _ _ Hin). unfold p in *. lia. }
  split.
  { unfold tail. cbn [Asm.run]. fold m1. rewrite E2, E3, run_addi. cbn [Asm.run]. do 2 f_equal. rewrite rget_reg by done. cbn [m_reg].
    destruct (kv_regs_all sp) as [off Hin]; [done|done|]. rewrite (Hval sp off Hin), Hsp0. rewrite u64_small; unfold p; lia. }
  split; [by rewrite mem_rset|]. split; [rewrite reg_rset_ne by done; apply O3; refine (bool_decide_unpack _ _); vm_compute; reflexivity|].
  intros r Hz Ht. destruct (decide (r = sp)) as [->|Hr]; [by rewrite reg_rset|]. rewrite reg_rset_ne by done. cbn [m_reg].
  destruct (kv_regs_all r Hz Ht) as [off Hin]. rewrite (Hval r off Hin). unfold m0. by rewrite reg_rset_ne.
Qed.
End run.

(** ** The timer, in machine mode *)

Section machine_mode.
Context (callee : string -> mach -> option mach) (link : Z).

(** Machine mode uses physical addresses. *)
Definition bare (s a : Z) : option Z := Some a.
Notation mrun := (run bare callee link).

Lemma bare_addr off base m : base <> zero -> 0 <= m_reg m base + off < 2 ^ 64 -> addr_of bare off base m = Some (m_reg m base + off).
Proof. intros Hb Hr. unfold addr_of, bare. rewrite rget_reg by done. by rewrite u64_small by lia. Qed.

(** The timer interrupt, which can come between any two instructions of the kernel or
    of a user program, changes no register. It sets the next interrupt one interval
    later, raises a software interrupt for the kernel, and otherwise writes only to
    the scratch area that timerinit set up for the hart. *)
Theorem timervec_transparent m scratch cmp interval :
  m_csr m mscratch = scratch -> 0 <= scratch -> scratch + 40 <= 2 ^ 64 -> 0 <= cmp < 2 ^ 64 ->
  m_mem m (scratch + 24) = cmp -> m_mem m (scratch + 32) = interval -> cmp + 8 <= scratch \/ scratch + 40 <= cmp ->
  exists m', mrun timervec m = AEnd ExMret m' /\ (forall r, r <> zero -> m_reg m' r = m_reg m r) /\
    m_mem m' cmp = u64 (m_mem m cmp + interval) /\ m_csr m' sip = 2 /\
    (forall c, c <> sip -> m_csr m' c = m_csr m c) /\
    (forall a, a <> cmp -> a < scratch \/ scratch + 24 <= a -> m_mem m' a = m_mem m a).
Proof.
  intros Hs H0 H1 Hc H24 H32 Hap. unfold timervec. rewrite run_csrrw.
  set (m1 := rset a0 (m_csr m mscratch) (cset mscratch (rget a0 m) m)).
  assert (Ha0 : m_reg m1 a0 = scratch) by (unfold m1; by asm_eval).
  erewrite run_sd by (apply bare_addr; [done|rewrite Ha0; lia]). rewrite Ha0.
  erewrite run_sd by (apply bare_addr; [done|rewrite reg_store, Ha0; lia]). rewrite reg_store, Ha0.
  erewrite run_sd by (apply bare_addr; [done|rewrite !reg_store, Ha0; lia]). rewrite !reg_store, Ha0.
  set (m2 := store (scratch + 16) _ _).
  assert (Hreg2 : m_reg m2 = m_reg m1) by done. assert (Hcsr2 : m_csr m2 = m_csr m1) by done.
  assert (Hmem2 : forall a, m_mem m2 a = if decide (a = scratch + 16) then m_reg m a3 else if decide (a = scratch + 8) then m_reg m a2
    else if decide (a = scratch + 0) then m_reg m a1 else m_mem m a).
  { intros a. unfold m2. rewrite !mem_store. unfold m1. by asm_eval. }
  erewrite run_ld by (apply bare_addr; [done|rewrite Hreg2, Ha0; lia]). rewrite Hreg2, Ha0.
  rewrite Hmem2, !decide_False, H24 by lia.
  erewrite run_ld by (apply bare_addr; [done|asm_eval; rewrite Hreg2, Ha0; lia]). asm_eval. rewrite Hreg2, Ha0, Hmem2, !decide_False, H32 by lia.
  erewrite run_ld by (apply bare_addr; [done|asm_eval; lia]). asm_eval. rewrite Z.add_0_r, Hmem2, !decide_False by lia.
  rewrite run_add. asm_eval. set (next := u64 (m_mem m cmp + interval)).
  erewrite run_sd by (apply bare_addr; [done|asm_eval; lia]). asm_eval. rewrite Z.add_0_r.
  rewrite run_li, run_csrw. asm_eval. set (m4 := cset sip 2 _).
  assert (Ha4 : m_reg m4 a0 = scratch) by (unfold m4; asm_eval; by rewrite Hreg2).
  assert (Hmem4 : forall a, m_mem m4 a = if decide (a = cmp) then next else m_mem m2 a) by (intros a; unfold m4; asm_eval; rewrite mem_store; by asm_eval).
  erewrite run_ld by (apply bare_addr; [done|rewrite Ha4; lia]). rewrite Ha4, Hmem4, decide_False, Hmem2, decide_True by lia.
  erewrite run_ld by (apply bare_addr; [done|asm_eval; rewrite Ha4; lia]). asm_eval. rewrite Ha4, Hmem4, decide_False, Hmem2, decide_False, decide_True by lia.
  erewrite run_ld by (apply bare_addr; [done|asm_eval; rewrite Ha4; lia]). asm_eval. rewrite Ha4, Hmem4, decide_False, Hmem2, !decide_False, decide_True by lia.
  rewrite run_csrrw. eexists. split; [done|]. asm_eval. rewrite Ha4.
  assert (Hcsr4 : forall c, c <> sip -> m_csr m4 c = m_csr m1 c) by (intros c Hcs; unfold m4; rewrite csr_cset_ne by done; asm_eval; by rewrite Hcsr2).
  split; [|split; [|split; [|split]]].
  - intros r Hr. destruct (decide (r = a0)) as [->|N0]; [asm_eval; rewrite Hcsr4 by done; unfold m1; by asm_eval|]. rewrite reg_rset_ne, reg_cset by done.
    destruct (decide (r = a1)) as [->|N1]; [by asm_eval|]. rewrite reg_rset_ne by done.
    destruct (decide (r = a2)) as [->|N2]; [by asm_eval|]. rewrite reg_rset_ne by done.
    destruct (decide (r = a3)) as [->|N3]; [by asm_eval|]. rewrite reg_rset_ne by done.
    unfold m4. asm_eval. rewrite !reg_rset_ne, reg_store, !reg_rset_ne by done. rewrite Hreg2. unfold m1. by rewrite reg_rset_ne.
  - rewrite Hmem4. by rewrite decide_True.
  - unfold m4. by asm_eval.
  - intros c Hcs. destruct (decide (c = mscratch)) as [->|Nc]; [asm_eval; done|]. rewrite csr_cset_ne by done. rewrite !csr_rset. rewrite Hcsr4 by done.
    unfold m1. rewrite csr_rset. by rewrite csr_cset_ne by done.
  - intros a Ha Hout. rewrite Hmem4, decide_False, Hmem2 by done. by rewrite !decide_False by lia.
Qed.

(** The stack of a hart is the page below the address entry.S computes, a different one
    for every hart. *)
Lemma entry_stack m stack0 h :
  m_csr m mhartid = h -> 0 <= h < Z.of_nat NCPU -> 0 <= stack0 -> stack0 + 4096 * Z.of_nat NCPU < 2 ^ 64 -> (forall m', callee "start" m' = None) ->
  exists m', mrun (entry_code stack0) m = AEnd (ExCall "start") m' /\ m_reg m' sp = stack0 + 4096 * (h + 1).
Proof.
  intros Hh Hr H0 H1 Hst. unfold NCPU in *. unfold entry_code. rewrite !run_li, run_csrr, run_addi, run_mul, run_add. cbn [run]. rewrite Hst.
  eexists. split; [done|]. asm_eval. rewrite Hh. rewrite (u64_small (h + 1)) by lia.
  rewrite (u64_small (1024 * 4 * (h + 1))) by lia. rewrite u64_small by lia. lia.
Qed.
End machine_mode.

(** ** Witnesses *)

(** A machine whose registers have different values. *)
Definition reg_val (r : reg) : Z :=
  match r with
  | a0 => 4096 | a1 => 8192 | ra => 100 | sp => 40960 | s0 => 11 | s1 => 12 | s2 => 13 | tp => 1 | t0 => 5 | _ => 7
  end.
Definition mach_ex : mach := Mach reg_val (fun c => if decide (c = satp) then 9 else if decide (c = mscratch) then 16384 else 0) (fun a => a + 1).
Definition callee_ex (f : string) (m : mach) : option mach := Some (rset tp 2 (rset t0 77 m)).

Lemma bare_direct m p n : 0 <= p -> p + n <= 2 ^ 64 -> direct bare m p n.
Proof. intros H0 Hn a Ha. unfold bare. by rewrite u64_small by lia. Qed.

Lemma swtch_resumes_witness : exists m1 m3,
  run bare callee_ex 0 swtch_code mach_ex = AEnd (ExJump 8193) m1 /\ m_reg m1 sp = 8201 /\
  run bare callee_ex 0 swtch_code (rset a0 8192 (rset a1 4096 m1)) = AEnd (ExJump 100) m3 /\ m_reg m3 sp = 40960 /\ m_reg m3 s2 = 13.
Proof.
  destruct (swtch_resumes bare callee_ex 0 mach_ex 4096 8192) as (m1 & E1 & S1 & O1 & M1 & Hback);
    [reflexivity|reflexivity|apply bare_direct; vm_compute; discriminate|apply bare_direct; vm_compute; discriminate|left; vm_compute; discriminate|].
  destruct (Hback (rset a0 8192 (rset a1 4096 m1)) 8192) as (m3 & E3 & S3).
  - by asm_eval.
  - by asm_eval.
  - apply bare_direct; vm_compute; discriminate.
  - apply bare_direct; vm_compute; discriminate.
  - right. vm_compute. discriminate.
  - intros a Ha. by asm_eval.
  - exists m1, m3. split; [exact E1|]. split; [refine (eq_trans (proj2 (S1 sp 8 _)) _); [by right; left|reflexivity]|]. split; [exact E3|].
    split; [refine (eq_trans (S3 sp _) _)|refine (eq_trans (S3 s2 _) _)]; try reflexivity; refine (bool_decide_unpack _ _); vm_compute; reflexivity.
Defined.

(** A page table that has the trapframe at 12288. *)
Definition xlate_ex (s a : Z) : option Z := if s =? 9 then Some (a - TRAPFRAME + 12288) else Some a.

Lemma trap_transparent_witness : exists m1 m3,
  run xlate_ex callee_ex 0 uservec mach_ex = AEnd (ExJump 12305) m1 /\ m_reg m1 sp = 12297 /\
  run xlate_ex callee_ex 0 userret (rset a0 9 m1) = AEnd ExSret m3 /\ m_reg m3 sp = 40960 /\ m_reg m3 a0 = 4096.
Proof.
  destruct (trap_transparent xlate_ex callee_ex 0 mach_ex 9 12288) as (m1 & E1 & _ & C2 & _ & S1 & _ & Hback);
    [reflexivity|intros off Ho; unfold xlate_ex; cbn [Z.eqb Pos.eqb]; f_equal; lia|].
  destruct (Hback (rset a0 9 m1)) as (m3 & E3 & _ & _ & Ha & Hr).
  - by asm_eval.
  - intros r off _ _. by asm_eval.
  - exists m1, m3. split; [exact E1|]. split; [exact C2|]. split; [exact E3|]. split; [exact (Hr sp ltac:(discriminate) ltac:(discriminate))|].
    rewrite Ha, mem_rset. apply (S1 a0 112). by left.
Defined.

Lemma kernelvec_transparent_witness : exists m3,
  run bare callee_ex 0 kernelvec mach_ex = AEnd ExSret m3 /\ m_reg m3 t0 = 5 /\ m_reg m3 sp = 40960 /\ m_reg m3 tp = 2.
Proof.
  destruct (kernelvec_transparent bare callee_ex 0 mach_ex) as (m1 & m2 & m3 & E1 & _ & _ & _ & E3 & _ & Ht & Hr).
  - vm_compute. split; [discriminate|reflexivity].
  - apply bare_direct; vm_compute; discriminate.
  - intros m. eexists. split; [reflexivity|]. asm_eval. done.
  - exists m3. split; [exact E3|]. split; [exact (Hr t0 ltac:(discriminate) ltac:(discriminate))|].
    split; [exact (Hr sp ltac:(discriminate) ltac:(discriminate))|]. rewrite Ht. injection E1 as <-. by asm_eval.
Defined.

Lemma timervec_transparent_witness : exists m',
  run bare callee_ex 0 timervec (store 16408 32768 mach_ex) = AEnd ExMret m' /\ m_reg m' a3 = 7 /\ m_csr m' sip = 2 /\
  m_mem m' 32768 = 32769 + 16417.
Proof.
  destruct (timervec_transparent callee_ex 0 (store 16408 32768 mach_ex) 16384 32768 16417) as (m' & E & Hr & Hm & Hsip & _ & Ho).
  - reflexivity.
  - discriminate.
  - vm_compute. discriminate.
  - vm_compute. split; [discriminate|reflexivity].
  - reflexivity.
  - reflexivity.
  - right. vm_compute. discriminate.
  - exists m'. split; [exact E|]. split; [exact (Hr a3 ltac:(discriminate))|]. split; [exact Hsip|exact Hm].
Defined.
