(* ===== verification/TrapSpec.v ===== *)
(** trap.c: the way back to user space prepares the next trap, and a trap in the kernel
    leaves the interrupted code its control registers. *)

From stdpp Require Import functions.
From S2P Require Import Prelude Machine KState Blocks Spinlock KString Kalloc Vm Proc ProcSpec ProcMem Sleeplock Bio BioProof Log Fs Console Virtio File ProcFs Syscall Trap Asm AsmSpec.

(** ** usertrapret *)

(** The words of the trapframe that usertrapret fills. *)
Definition tf_filled (ly : layout) (satp hart : Z) (p : proc) (m : mem) : mem :=
  store64 (store64 (store64 (store64 m (p_trapframe p + tf_kernel_satp) satp) (p_trapframe p + tf_kernel_sp) (u64 (p_kstack p + PGSIZE)))
    (p_trapframe p + tf_kernel_trap) (ld_usertrap ly)) (p_trapframe p + tf_kernel_hartid) hart.

(** The status with which the kernel goes to user space. *)
Definition user_sstatus (x : Z) : Z :=
  Z.lor (Z.land (Z.lor (Z.land x (u64 (Z.lnot SSTATUS_SIE))) 0) (u64 (Z.lnot SSTATUS_SPP))) SSTATUS_SPIE.

Lemma usertrapret_run me p e s :
  kthread (Some me) s -> ps_procs (k_ps s) !! me = Some p ->
  exists s', usertrapret e s = Ok (MAKE_SATP (p_pagetable p)) e s' /\
    ph_mem (k_phys s') = tf_filled (k_layout s) (d_csr (k_dev s) R_satp) (Z.of_nat (h_hart (k_hw s))) p (ph_mem (k_phys s)) /\
    d_csr (k_dev s') R_stvec = u64 (TRAMPOLINE + (ld_uservec (k_layout s) - ld_trampoline (k_layout s))) /\
    d_csr (k_dev s') R_sstatus = u64 (user_sstatus (d_csr (k_dev s) R_sstatus)) /\
    d_csr (k_dev s') R_sepc = u64 (load64 (ph_mem (k_phys s')) (p_trapframe p + tf_epc)) /\
    d_csr (k_dev s') R_satp = d_csr (k_dev s) R_satp /\
    h_sie (k_hw s') !! h_hart (k_hw s) = Some (negb (Z.land (user_sstatus (d_csr (k_dev s) R_sstatus)) SSTATUS_SIE =? 0)) /\
    k_ps s' = k_ps s /\ k_fs s' = k_fs s /\ k_vfs s' = k_vfs s.
Proof.
  intros Hk Hp. unfold usertrapret. erewrite bind_run by (by apply curproc_run).
  destruct (kt_hart _ _ Hk) as (c & b & Hc & Hb & _). clear Hk.
  destruct s as [ly [ht sie cpus lks] [mem fl] ps fs vf dv out]. cbn in Hp, Hc, Hb.
  unfold r_tp, r_sstatus, w_sstatus, intr_get, intr_off, intr_set, cpuid, w_csr, r_csr, upd_dev, get_dev, tf_store, tf_load, get_proc, kstore64, kload64, setmem, getmem. krun.
  do 8 (cbn -[store64 load64 u64 Z.land Z.lor insert lookup list_insert list_lookup]; rewrite ?Hp).
  assert (Hs : <[ht := false]> sie !! ht = Some false) by (apply list_lookup_insert_eq; by eapply lookup_lt_Some).
  rewrite Hs. do 4 (cbn -[store64 load64 u64 Z.land Z.lor insert lookup list_insert list_lookup]; rewrite ?Hp).
  eexists. split; [reflexivity|]. split_and!; try reflexivity.
  cbn -[store64 load64 u64 Z.land Z.lor insert lookup list_insert list_lookup]. apply list_lookup_insert_eq. rewrite length_insert. by eapply lookup_lt_Some.
Qed.

Lemma tf_filled_words ly satp hart p m : is_u64 satp -> is_u64 (ld_usertrap ly) -> is_u64 hart ->
  let m' := tf_filled ly satp hart p m in
  load64 m' (p_trapframe p) = satp /\ load64 m' (p_trapframe p + 8) = u64 (p_kstack p + PGSIZE) /\
  load64 m' (p_trapframe p + 16) = ld_usertrap ly /\ load64 m' (p_trapframe p + 32) = hart /\
  forall off, off = 24 \/ 40 <= off -> load64 m' (p_trapframe p + off) = load64 m (p_trapframe p + off).
Proof.
  intros H1 H2 H3 m'. unfold m', tf_filled, tf_kernel_satp, tf_kernel_sp, tf_kernel_trap, tf_kernel_hartid. rewrite Z.add_0_r.
  split_and!.
  - rewrite !load64_store64_ne by lia. rewrite load64_store64_eq. by apply u64_small.
  - rewrite !load64_store64_ne by lia. rewrite load64_store64_eq. apply u64_small, u64_range.
  - rewrite !load64_store64_ne by lia. rewrite load64_store64_eq. by apply u64_small.
  - rewrite load64_store64_eq. by apply u64_small.
  - intros off Hoff. by rewrite !load64_store64_ne by lia.
Qed.

Lemma user_sstatus_bits x :
  Z.testbit (u64 (user_sstatus x)) 8 = false /\ Z.testbit (u64 (user_sstatus x)) 5 = true /\ Z.land (user_sstatus x) SSTATUS_SIE = 0.
Proof.
  unfold u64. rewrite !Z.mod_pow2_bits_low by lia. unfold user_sstatus, SSTATUS_SPP, SSTATUS_SPIE, SSTATUS_SIE.
  split_and!.
  - rewrite Z.lor_spec, Z.land_spec. change (Z.testbit (u64 (Z.lnot (Z.shiftl 1 8))) 8) with false. by rewrite andb_false_r.
  - rewrite Z.lor_spec. change (Z.testbit (Z.shiftl 1 5) 5) with true. apply orb_true_r.
  - apply Z.bits_inj'. intros n Hn. rewrite Z.bits_0, Z.land_spec. destruct (decide (n = 1)) as [->|Hne].
    + rewrite Z.lor_spec, Z.land_spec, Z.lor_spec, Z.land_spec. change (Z.testbit (u64 (Z.lnot (Z.shiftl 1 1))) 1) with false.
      change (Z.testbit (Z.shiftl 1 5) 1) with false. by rewrite andb_false_r.
    + change (Z.shiftl 1 1) with (2 ^ 1). rewrite Z.pow2_bits_false by done. apply andb_false_r.
Qed.

(** C18: the way back to user space. usertrapret terminates and hands userret the page
    table of the process. It leaves interrupts off, the status such that sret goes to user
    mode and turns interrupts on, the program counter that the trapframe has, and the
    saved user registers alone. And it prepares the next trap: stvec is the address of
    uservec in the trampoline page, and uservec, run with the page table of the process
    and the memory the kernel left, jumps to usertrap with the kernel's page table, this
    hart's id and the top of the kernel stack of the process. *)
Theorem usertrapret_correct me p e s :
  kthread (Some me) s -> ps_procs (k_ps s) !! me = Some p ->
  is_u64 (d_csr (k_dev s) R_satp) -> is_u64 (ld_usertrap (k_layout s)) -> is_u64 (Z.of_nat (h_hart (k_hw s))) ->
  exists s', usertrapret e s = Ok (MAKE_SATP (p_pagetable p)) e s' /\
    let m := ph_mem (k_phys s) in let m' := ph_mem (k_phys s') in let tf := p_trapframe p in
    h_sie (k_hw s') !! h_hart (k_hw s) = Some false /\
    Z.testbit (d_csr (k_dev s') R_sstatus) 8 = false /\ Z.testbit (d_csr (k_dev s') R_sstatus) 5 = true /\
    d_csr (k_dev s') R_sepc = load64 m (tf + tf_epc) /\
    (forall r off, (r, off) ∈ tf_regs -> load64 m' (tf + off) = load64 m (tf + off)) /\
    d_csr (k_dev s') R_stvec = u64 (TRAMPOLINE + (ld_uservec (k_layout s) - ld_trampoline (k_layout s))) /\
    forall xlate callee link a,
      m_csr a satp = MAKE_SATP (p_pagetable p) -> tf_mapped xlate (MAKE_SATP (p_pagetable p)) tf ->
      (forall off, 0 <= off < sizeof_trapframe -> m_mem a (tf + off) = load64 m' (tf + off)) ->
      exists a1, run xlate callee link uservec a = AEnd (ExJump (ld_usertrap (k_layout s))) a1 /\
        m_csr a1 satp = d_csr (k_dev s) R_satp /\ m_reg a1 sp = u64 (p_kstack p + PGSIZE) /\
        m_reg a1 tp = Z.of_nat (h_hart (k_hw s)).
Proof.
  intros Hk Hp H1 H2 H3. destruct (usertrapret_run me p e s Hk Hp) as (s' & E & Hm & Hst & Hss & Hpc & _ & Hie & _).
  destruct (user_sstatus_bits (d_csr (k_dev s) R_sstatus)) as (B8 & B5 & BI).
  destruct (tf_filled_words (k_layout s) _ _ p (ph_mem (k_phys s)) H1 H2 H3) as (W0 & W8 & W16 & W32 & Wr).
  exists s'. split; [done|]. cbv zeta. rewrite Hm, Hss, Hpc, Hie, BI in *. split_and!; [done|done|done| | |done|].
  - unfold tf_epc. rewrite Wr by lia. apply u64_small, load64_range.
  - intros r off Hin. apply Wr. apply tf_off in Hin. lia.
  - intros xlate callee link a Ha Hmap Hmem. destruct (uservec_run xlate callee link a _ _ Ha Hmap) as (a1 & -> & C1 & C2 & C3 & _).
    exists a1. rewrite C1, C2, C3. pose proof (Hmem 0 ltac:(done)) as M0. rewrite Z.add_0_r in M0.
    rewrite M0, !Hmem, W0, W8, W16, W32 by done. done.
Qed.

(** ** kerneltrap *)

Lemma r_csr_inv c e s v e' s' : r_csr c e s = Ok v e' s' -> v = d_csr (k_dev s) c /\ e' = e /\ s' = s.
Proof. intros H. by injection H as <- <- <-. Qed.

Lemma r_sstatus_inv e s v e' s' : r_sstatus e s = Ok v e' s' ->
  exists b : bool, h_sie (k_hw s) !! h_hart (k_hw s) = Some b /\ e' = e /\ s' = s /\
    v = Z.lor (Z.land (d_csr (k_dev s) R_sstatus) (u64 (Z.lnot SSTATUS_SIE))) (if b then SSTATUS_SIE else 0).
Proof.
  unfold r_sstatus. intros H. kinv H. apply r_csr_inv in E as (-> & -> & ->). kinv H.
  unfold intr_get in E. kinv E. injection E0 as <- <- <-. kinv E. injection E0 as <- <- <-.
  destruct (h_sie (k_hw s) !! h_hart (k_hw s)) as [b|]; [|done]. injection E as <- <- <-. injection H as <- <- <-. by exists b.
Qed.

Lemma intr_get_inv e s v e' s' : intr_get e s = Ok v e' s' -> h_sie (k_hw s) !! h_hart (k_hw s) = Some v /\ e' = e /\ s' = s.
Proof.
  unfold intr_get. intros H. kinv H. injection E as <- <- <-. kinv H. injection E as <- <- <-.
  destruct (h_sie (k_hw s) !! h_hart (k_hw s)) as [b|]; [|done]. by injection H as <- <- <-.
Qed.

(** The end of kerneltrap. *)
Lemma restore_inv sepc x e s u e' s' : (w_csr R_sepc sepc ;; w_sstatus x) e s = Ok u e' s' ->
  d_csr (k_dev s') R_sepc = u64 sepc /\ d_csr (k_dev s') R_sstatus = u64 x /\
  (Z.land x SSTATUS_SIE = 0 -> h_sie (k_hw s') !! h_hart (k_hw s') <> Some true).
Proof.
  unfold w_sstatus. intros H. kinv H. kinv H. injection E as <- <- <-. injection E0 as <- <- <-. injection H as <- <- <-.
  split; [done|]. split; [done|]. cbn -[Z.land insert lookup list_insert list_lookup]. intros ->. cbn -[insert lookup list_insert list_lookup]. intros Hl.
  destruct (decide (h_hart (k_hw s) < length (h_sie (k_hw s)))%nat) as [Hlt|Hge].
  - by rewrite list_lookup_insert_eq in Hl.
  - rewrite lookup_ge_None_2 in Hl by (rewrite length_insert; lia). done.
Qed.

(** C19: kerneltrap leaves the interrupted code its control registers. Whatever the
    interrupt was, whether or not another process ran meanwhile and took traps of its own,
    and on whichever hart it resumes, when kerneltrap returns the saved program counter is
    the one of the interruption, the status has its bits, it says that sret stays in
    supervisor mode, and interrupts are off until then. *)
Theorem kerneltrap_restores e s e' s' :
  is_u64 (d_csr (k_dev s) R_sepc) -> kerneltrap e s = Ok tt e' s' ->
  d_csr (k_dev s') R_sepc = d_csr (k_dev s) R_sepc /\
  (forall n, 0 <= n < 64 -> n <> 1 -> Z.testbit (d_csr (k_dev s') R_sstatus) n = Z.testbit (d_csr (k_dev s) R_sstatus) n) /\
  Z.testbit (d_csr (k_dev s') R_sstatus) 8 = true /\ h_sie (k_hw s') !! h_hart (k_hw s') <> Some true.
Proof.
  intros Hpc H. unfold kerneltrap in H. kinv H. apply r_csr_inv in E as (-> & -> & ->).
  kinv H. apply r_sstatus_inv in E as (b & Hb & -> & -> & ->). kinv H. apply r_csr_inv in E as (-> & -> & ->).
  kinv H. destruct (Z.eqb_spec (Z.land (Z.lor (Z.land (d_csr (k_dev s) R_sstatus) (u64 (Z.lnot SSTATUS_SIE))) (if b then SSTATUS_SIE else 0)) SSTATUS_SPP) 0) as [|Hspp]; [done|].
  injection E as <- <- <-. kinv H. apply intr_get_inv in E as (Hb' & -> & ->). rewrite Hb in Hb'. injection Hb' as <-.
  kinv H. destruct b; [done|]. injection E as <- <- <-. kinv H. kinv H. kinv H.
  apply restore_inv in H as (R1 & R2 & R3). rewrite Z.lor_0_r in *. set (x := d_csr (k_dev s) R_sstatus) in *.
  assert (Hbits : forall n, 0 <= n < 64 -> n <> 1 -> Z.testbit (u64 (Z.land x (u64 (Z.lnot SSTATUS_SIE)))) n = Z.testbit x n).
  { intros n Hn H1. unfold u64 at 1. rewrite Z.mod_pow2_bits_low by lia. rewrite Z.land_spec. unfold u64. rewrite Z.mod_pow2_bits_low by lia.
    rewrite Z.lnot_spec by lia. change SSTATUS_SIE with (2 ^ 1). rewrite Z.pow2_bits_false by lia. apply andb_true_r. }
  rewrite R1, R2. split; [by apply u64_small|]. split; [exact Hbits|]. split.
  - rewrite Hbits by lia. destruct (Z.testbit x 8) eqn:E8; [done|]. destruct Hspp. apply Z.bits_inj'. intros n Hn.
    rewrite Z.bits_0, !Z.land_spec. destruct (decide (n = 8)) as [->|Hne]; [by rewrite E8|].
    change SSTATUS_SPP with (2 ^ 8). rewrite Z.pow2_bits_false by done. apply andb_false_r.
  - apply R3. apply Z.bits_inj'. intros n Hn. rewrite Z.bits_0, !Z.land_spec. destruct (decide (n = 1)) as [->|Hne].
    + change (Z.testbit (u64 (Z.lnot SSTATUS_SIE)) 1) with false. by rewrite andb_false_r.
    + change SSTATUS_SIE with (2 ^ 1) at 2. rewrite Z.pow2_bits_false by done. apply andb_false_r.
Qed.
(** ** Witnesses *)

(** A page table that maps the trapframe at [tf] and the rest to itself. *)
Definition xlate_ex (us : Z) (tf : Z) (satp va : Z) : option Z :=
  Some (if (satp =? us) && (TRAPFRAME <=? va) && (va <? TRAPFRAME + sizeof_trapframe) then tf + (va - TRAPFRAME) else va).

Lemma tf_mapped_ex us tf : tf_mapped (xlate_ex us tf) us tf.
Proof.
  intros off Hoff. unfold xlate_ex. rewrite Z.eqb_refl. rewrite (proj2 (Z.leb_le _ _)) by lia. rewrite (proj2 (Z.ltb_lt _ _)) by lia.
  cbn [andb]. do 2 f_equal. lia.
Qed.

(** The process of [kst_pr] enters user space; its next trap comes back. *)
Lemma usertrapret_correct_witness : exists s' a1,
  usertrapret [] kst_pr = Ok (MAKE_SATP 0) [] s' /\
  run (xlate_ex (MAKE_SATP 0) 0) (fun _ _ => None) 0 uservec
    (Mach (fun _ => 7) (fun c => if decide (c = satp) then MAKE_SATP 0 else 0) (load64 (ph_mem (k_phys s')))) =
    AEnd (ExJump (ld_usertrap layout0)) a1 /\ m_reg a1 tp = 0.
Proof.
  destruct (usertrapret_correct 0 proc_run [] kst_pr kthread_pr eq_refl ltac:(by vm_compute) ltac:(by vm_compute) ltac:(by vm_compute))
    as (s' & E & _ & _ & _ & _ & _ & _ & Hnext).
  destruct (Hnext (xlate_ex (MAKE_SATP 0) 0) (fun _ _ => None) 0
    (Mach (fun _ => 7) (fun c => if decide (c = satp) then MAKE_SATP 0 else 0) (load64 (ph_mem (k_phys s'))))) as (a1 & R & _ & _ & T).
  - reflexivity.
  - apply tf_mapped_ex.
  - reflexivity.
  - exists s', a1. split; [exact E|]. split; [exact R|exact T].
Defined.

(** A timer interrupt in the scheduler of hart 1. *)
Definition csr_ex (c : csr) : Z :=
  match c with R_scause => 0x8000000000000001 | R_sstatus => SSTATUS_SPP | R_sepc => KERNBASE + 64 | _ => 0 end.
Definition kst_timer : kst :=
  set_dev (d_set_csr csr_ex (k_dev kst_pr))
    (set_hw (Hw 1 (replicate NCPU false) (replicate NCPU cpu0) (h_locks (k_hw kst_pr))) kst_pr).

Lemma kerneltrap_restores_witness :
  match @kerneltrap [] kst_timer with
  | Ok _ _ s' => d_csr (k_dev s') R_sepc = KERNBASE + 64 /\ Z.testbit (d_csr (k_dev s') R_sstatus) 8 = true
  | _ => False
  end.
Proof.
  assert (Hr : match @kerneltrap [] kst_timer with Ok _ _ _ => true | _ => false end = true) by (vm_compute; reflexivity).
  destruct (kerneltrap [] kst_timer) as [[] e' s'| | | |] eqn:E; try discriminate Hr.
  destruct (kerneltrap_restores [] kst_timer e' s' ltac:(by vm_compute) E) as (H1 & _ & H8 & _). split; [exact H1|exact H8].
Defined.
