(* ===== verification/Uprog.v ===== *)
(** user/cat.c, echo.c, ls.c, rm.c, mkdir.c, ln.c, kill.c, sleep.c and stat of ulib.c, over
    the system calls they make. The calls act on a state of type [W], the files and
    processes of the system as the programs see them; what they rely on of it are the
    laws of [SysLaws]. An argument is the list of its characters before the nul. *)

From S2P Require Import Prelude Machine KState Blocks Console ProcFs Fs Syscall Ulib Find.

(** ** System calls *)

Record sys (W : Type) := Sys {
  u_open : list Z -> Z -> W -> Z * W;
  u_read : Z -> Z -> W -> (Z * list Z) * W;
  u_write : Z -> list Z -> W -> Z * W;
  u_close : Z -> W -> Z * W;
  u_fstat : Z -> W -> (Z * stat) * W;
  u_link : list Z -> list Z -> W -> Z * W;
  u_unlink : list Z -> W -> Z * W;
  u_mkdir : list Z -> W -> Z * W;
  u_kill : Z -> W -> Z * W;
  u_sleep : Z -> W -> Z * W }.
Arguments u_open {W}. Arguments u_read {W}. Arguments u_write {W}. Arguments u_close {W}. Arguments u_fstat {W}.
Arguments u_link {W}. Arguments u_unlink {W}. Arguments u_mkdir {W}. Arguments u_kill {W}. Arguments u_sleep {W}.

(** A program goes on with a value, has called exit, or is stuck: the fuel
    of a loop is used up, or an argument it looks at is not there. *)
Inductive ures (A : Type) := Goes (a : A) | Exits (status : Z) | Stuck.
Arguments Goes {A} a. Arguments Exits {A} status. Arguments Stuck {A}.

Section uprog.
Context {W : Type} (sy : sys W).

Definition prog (A : Type) : Type := W -> ures A * W.
#[global] Instance prog_ret : MRet prog := fun A a w => (Goes a, w).
#[global] Instance prog_bind : MBind prog := fun A B f m w =>
  match m w with
  | (Goes a, w) => f a w
  | (Exits n, w) => (Exits n, w)
  | (Stuck, w) => (Stuck, w)
  end.

Definition call {A} (f : W -> A * W) : prog A := fun w => let (a, w) := f w in (Goes a, w).
Definition u_exit {A} (status : Z) : prog A := fun w => (Exits status, w).
Definition stuck {A} : prog A := fun w => (Stuck, w).

(** A loop over the arguments, or over the bytes that fprintf gives to putc. *)
Fixpoint each {A} (f : A -> prog unit) (l : list A) : prog unit :=
  match l with
  | [] => mret tt
  | x :: l => f x ;; each f l
  end.

(** fprintf with its effect: putc writes one byte. *)
Definition say (fd : Z) (fmt : list Z) (ap : list farg) : prog unit :=
  match fprintf fd fmt ap with
  | Some (fd, bs) => each (fun c => call (u_write sy fd [c]) ;; mret tt) bs
  | None => stuck
  end.

(** ** cat.c *)

Fixpoint cat (fuel : nat) (fd : Z) : prog unit :=
  match fuel with
  | O => stuck
  | S fuel =>
    r ← call (u_read sy fd 512);
    if r.1 >? 0 then
      n ← call (u_write sy 1 (take (Z.to_nat r.1) r.2));
      if negb (n =? r.1) then say 2 (line (bytes_of "cat: write error")) [] ;; u_exit 1
      else cat fuel fd
    else if r.1 <? 0 then say 2 (line (bytes_of "cat: read error")) [] ;; u_exit 1
    else mret tt
  end.

(** The loop of main. *)
Fixpoint cat_files (fuel : nat) (args : list (list Z)) : prog unit :=
  match args with
  | [] => mret tt
  | arg :: args =>
    fd ← call (u_open sy arg 0);
    if fd <? 0 then say 2 (line (bytes_of "cat: cannot open %s")) [A_str (Some arg)] ;; u_exit 1
    else cat fuel fd ;; call (u_close sy fd) ;; cat_files fuel args
  end.

Definition cat_main (fuel : nat) (argv : list (list Z)) : prog unit :=
  if (length argv <=? 1)%nat then cat fuel 0 ;; u_exit 0
  else cat_files fuel (tail argv) ;; u_exit 0.

(** ** echo.c *)

Fixpoint echo_args (args : list (list Z)) : prog unit :=
  match args with
  | [] => mret tt
  | arg :: args =>
    call (u_write sy 1 arg) ;;
    (if negb (length args =? 0)%nat then call (u_write sy 1 [32]) else call (u_write sy 1 [10])) ;;
    echo_args args
  end.

Definition echo_main (argv : list (list Z)) : prog unit := echo_args (tail argv) ;; u_exit 0.

(** ** stat of ulib.c *)

(** [st] is what the caller's variable holds, and keeps when the file does not open. *)
Definition u_stat (n : list Z) (st : stat) : prog (Z * stat) :=
  fd ← call (u_open sy n O_RDONLY);
  if fd <? 0 then mret (-1, st)
  else
    r ← call (u_fstat sy fd);
    call (u_close sy fd) ;;
    mret r.

(** ** ls.c *)

(** [for(p=path+strlen(path); p >= path && *p != '/'; p--)]: [l] is the part before
    [p] backwards, [p] the part from [p + 1] on. *)
Fixpoint fmtname_scan (l p : list Z) : list Z :=
  match l with
  | [] => p
  | c :: l => if negb (c =? 47) then fmtname_scan l (c :: p) else p
  end.

Definition fmtname (path : list Z) : list Z :=
  let p := fmtname_scan (reverse path) [] in
  if (DIRSIZ <=? length p)%nat then p else p ++ replicate (DIRSIZ - length p) 32.

(** The loop over the entries; [buf] is the path with its slash. *)
Fixpoint ls_entries (fuel : nat) (fd : Z) (buf : list Z) (st : stat) : prog unit :=
  match fuel with
  | O => stuck
  | S fuel =>
    r ← call (u_read sy fd sizeof_dirent);
    if negb (r.1 =? sizeof_dirent) then mret tt
    else
      let de := dirent_read r.2 in
      if de_inum de =? 0 then ls_entries fuel fd buf st
      else
        let buf' := buf ++ cstring (de_name de) in
        s ← u_stat buf' st;
        if s.1 <? 0 then
          say 1 (line (bytes_of "ls: cannot stat %s")) [A_str (Some buf')] ;; ls_entries fuel fd buf s.2
        else
          say 1 (line (bytes_of "%s %d %d %d"))
            [A_str (Some (fmtname buf')); A_int (st_type s.2); A_int (i32 (st_ino s.2)); A_int (i32 (st_size s.2))] ;;
          ls_entries fuel fd buf s.2
  end.

Definition ls (fuel : nat) (path : list Z) : prog unit :=
  fd ← call (u_open sy path 0);
  if fd <? 0 then say 2 (line (bytes_of "ls: cannot open %s")) [A_str (Some path)]
  else
    s ← call (u_fstat sy fd);
    if s.1 <? 0 then
      say 2 (line (bytes_of "ls: cannot stat %s")) [A_str (Some path)] ;; call (u_close sy fd) ;; mret tt
    else
      let st := s.2 in
      (if (st_type st =? T_DEVICE) || (st_type st =? T_FILE) then
         say 1 (line (bytes_of "%s %d %d %l"))
           [A_str (Some (fmtname path)); A_int (st_type st); A_int (i32 (st_ino st)); A_ptr (st_size st)]
       else if st_type st =? T_DIR then
         if Z.of_nat (length path) + 1 + Z.of_nat DIRSIZ + 1 >? 512 then say 1 (line (bytes_of "ls: path too long")) []
         else ls_entries fuel fd (path ++ [47]) st
       else mret tt) ;;
      call (u_close sy fd) ;; mret tt.

Definition ls_main (fuel : nat) (argv : list (list Z)) : prog unit :=
  if (length argv <? 2)%nat then ls fuel (bytes_of ".") ;; u_exit 0
  else each (ls fuel) (tail argv) ;; u_exit 0.

(** ** rm.c, mkdir.c *)

Fixpoint rm_args (args : list (list Z)) : prog unit :=
  match args with
  | [] => mret tt
  | arg :: args =>
    r ← call (u_unlink sy arg);
    if r <? 0 then say 2 (line (bytes_of "rm: %s failed to delete")) [A_str (Some arg)]
    else rm_args args
  end.

Definition rm_main (argv : list (list Z)) : prog unit :=
  if (length argv <? 2)%nat then say 2 (line (bytes_of "Usage: rm files...")) [] ;; u_exit 1
  else rm_args (tail argv) ;; u_exit 0.

Fixpoint mkdir_args (args : list (list Z)) : prog unit :=
  match args with
  | [] => mret tt
  | arg :: args =>
    r ← call (u_mkdir sy arg);
    if r <? 0 then say 2 (line (bytes_of "mkdir: %s failed to create")) [A_str (Some arg)]
    else mkdir_args args
  end.

Definition mkdir_main (argv : list (list Z)) : prog unit :=
  if (length argv <? 2)%nat then say 2 (line (bytes_of "Usage: mkdir files...")) [] ;; u_exit 1
  else mkdir_args (tail argv) ;; u_exit 0.

(** ** ln.c, kill.c, sleep.c *)

Definition ln_main (argv : list (list Z)) : prog unit :=
  match argv with
  | [_; old; new] =>
    r ← call (u_link sy old new);
    (if r <? 0 then say 2 (line (bytes_of "link %s %s: failed")) [A_str (Some old); A_str (Some new)] else mret tt) ;;
    u_exit 0
  | _ => say 2 (line (bytes_of "Usage: ln old new")) [] ;; u_exit 1
  end.

Definition kill_main (argv : list (list Z)) : prog unit :=
  if (length argv <? 2)%nat then say 2 (line (bytes_of "usage: kill pid...")) [] ;; u_exit 1
  else each (fun arg => call (u_kill sy (atoi arg)) ;; mret tt) (tail argv) ;; u_exit 0.

Definition sleep_main (argv : list (list Z)) : prog unit :=
  if (length argv =? 1)%nat then say 1 (line (bytes_of "argc is wrong")) [] ;; u_exit 1
  else match argv with
  | _ :: arg :: _ => call (u_sleep sy (atoi arg)) ;; u_exit 0
  | _ => stuck
  end.
End uprog.

(** ** What the calls promise *)

(** What a program sees: the files by path with their contents, what is left to read on
    the open descriptors, and what was written to descriptors 1 and 2. A pipe has no [stat]. *)
Record uview := UView {
  v_files : gmap (list Z) (stat * list Z);
  v_fds : gmap Z (option stat * list Z);
  v_out : list Z;
  v_err : list Z }.

Definition set_fds (f : gmap Z (option stat * list Z) -> gmap Z (option stat * list Z)) (v : uview) : uview :=
  UView (v_files v) (f (v_fds v)) (v_out v) (v_err v).
Definition add_out (bs : list Z) (v : uview) : uview := UView (v_files v) (v_fds v) (v_out v ++ bs) (v_err v).
Definition add_err (bs : list Z) (v : uview) : uview := UView (v_files v) (v_fds v) (v_out v) (v_err v ++ bs).

(** An inode that is not a device gives all that is asked for as long as there is any. *)
Definition whole (st : option stat) : bool :=
  match st with
  | Some st => negb (st_type st =? T_DEVICE)
  | None => false
  end.

(** The calls as documented, for a process with descriptors 0, 1 and 2 open: read gives a part
    of what is left, and nothing only at the end; open takes a new descriptor, one of
    the 16 of a process. *)
Class SysLaws {W} (sy : sys W) (view : W -> uview) : Prop := {
  law_open p w : exists fd w', u_open sy p 0 w = (fd, w') /\
    match v_files (view w) !! p with
    | Some (st, l) =>
      (size (v_fds (view w)) < 16)%nat ->
      2 < fd /\ v_fds (view w) !! fd = None /\ view w' = set_fds <[fd := (Some st, l)]> (view w)
    | None => fd < 0 /\ view w' = view w
    end;
  law_read fd n w st l : v_fds (view w) !! fd = Some (st, l) -> 0 < n -> exists data l' w',
    u_read sy fd n w = ((Z.of_nat (length data), data), w') /\ l = data ++ l' /\
    Z.of_nat (length data) <= n /\ (data = [] -> l = []) /\
    (whole st = true -> length data = Nat.min (Z.to_nat n) (length l)) /\
    view w' = set_fds <[fd := (st, l')]> (view w);
  law_write1 bs w : exists w', u_write sy 1 bs w = (Z.of_nat (length bs), w') /\ view w' = add_out bs (view w);
  law_write2 bs w : exists w', u_write sy 2 bs w = (Z.of_nat (length bs), w') /\ view w' = add_err bs (view w);
  law_close fd w : exists r w', u_close sy fd w = (r, w') /\ view w' = set_fds (delete fd) (view w);
  law_fstat fd w st l : v_fds (view w) !! fd = Some (Some st, l) -> exists w',
    u_fstat sy fd w = ((0, st), w') /\ view w' = view w }.

(** ** Correctness *)

Lemma cstring_id l : Forall (fun c => c <> 0) l -> cstring l = l.
Proof. induction 1 as [|c l Hc _ IH]; cbn [cstring]; [done|]. by rewrite (proj2 (Z.eqb_neq _ _) Hc), IH. Qed.

Lemma cstring_no_nul l : Forall (fun c => c <> 0) (cstring l).
Proof. induction l as [|c l IH]; cbn [cstring]; [done|]. destruct (Z.eqb_spec c 0); by constructor. Qed.

Section laws.
Context {W : Type} (sy : sys W) (view : W -> uview) `{!SysLaws sy view}.

(** Running [m] from [w] ends with [r] and the view [v]. *)
Definition runs {A} (m : prog (W := W) A) (w : W) (r : ures A) (v : uview) : Prop :=
  exists w', m w = (r, w') /\ view w' = v.

Lemma runs_bind {A B} (m : prog (W := W) A) (f : A -> prog (W := W) B) w a v r v' :
  runs m w (Goes a) v -> (forall w', view w' = v -> runs (f a) w' r v') -> runs (m ≫= f) w r v'.
Proof.
  intros (w1 & E & Hv) Hf. destruct (Hf w1 Hv) as (w2 & E2 & Hv2). exists w2. split; [|done].
  unfold mbind, prog_bind. by rewrite E.
Qed.

Lemma runs_exits {A B} (m : prog (W := W) A) (f : A -> prog (W := W) B) w n v :
  runs m w (Exits n) v -> runs (m ≫= f) w (Exits n) v.
Proof. intros (w1 & E & Hv). exists w1. split; [|done]. unfold mbind, prog_bind. by rewrite E. Qed.

Lemma runs_ret {A} (a : A) w v : view w = v -> runs (mret a) w (Goes a) v.
Proof. intros <-. by exists w. Qed.

Lemma runs_exit {A} n w v : view w = v -> runs (u_exit (A := A) n) w (Exits n) v.
Proof. intros <-. by exists w. Qed.

Lemma runs_call {A} (f : W -> A * W) w a w' v : f w = (a, w') -> view w' = v -> runs (call f) w (Goes a) v.
Proof. intros E <-. exists w'. unfold call. by rewrite E. Qed.

Lemma runs_write1 bs w : runs (call (u_write sy 1 bs)) w (Goes (Z.of_nat (length bs))) (add_out bs (view w)).
Proof. destruct (law_write1 bs w) as (w' & E & Hv). by eapply runs_call. Qed.

Lemma runs_write2 bs w : runs (call (u_write sy 2 bs)) w (Goes (Z.of_nat (length bs))) (add_err bs (view w)).
Proof. destruct (law_write2 bs w) as (w' & E & Hv). by eapply runs_call. Qed.

Lemma add_out_nil v : add_out [] v = v.
Proof. destruct v. unfold add_out. cbn. by rewrite app_nil_r. Qed.
Lemma add_err_nil v : add_err [] v = v.
Proof. destruct v. unfold add_err. cbn. by rewrite app_nil_r. Qed.
Lemma add_out_app a b v : add_out b (add_out a v) = add_out (a ++ b) v.
Proof. unfold add_out. cbn. by rewrite app_assoc. Qed.
Lemma add_err_app a b v : add_err b (add_err a v) = add_err (a ++ b) v.
Proof. unfold add_err. cbn. by rewrite app_assoc. Qed.

Lemma runs_putcs1 bs w : runs (each (fun c => call (u_write sy 1 [c]) ;; mret tt) bs) w (Goes tt) (add_out bs (view w)).
Proof.
  revert w. induction bs as [|c bs IH]; intros w; cbn [each].
  - apply runs_ret. by rewrite add_out_nil.
  - eapply runs_bind; [eapply runs_bind; [apply runs_write1|intros; by apply runs_ret]|]. intros w' Hv.
    change (c :: bs) with ([c] ++ bs). rewrite <- add_out_app, <- Hv. apply IH.
Qed.

Lemma runs_putcs2 bs w : runs (each (fun c => call (u_write sy 2 [c]) ;; mret tt) bs) w (Goes tt) (add_err bs (view w)).
Proof.
  revert w. induction bs as [|c bs IH]; intros w; cbn [each].
  - apply runs_ret. by rewrite add_err_nil.
  - eapply runs_bind; [eapply runs_bind; [apply runs_write2|intros; by apply runs_ret]|]. intros w' Hv.
    change (c :: bs) with ([c] ++ bs). rewrite <- add_err_app, <- Hv. apply IH.
Qed.

Lemma runs_say1 fmt ap bs w : vprintf fmt ap false = Some bs -> runs (say sy 1 fmt ap) w (Goes tt) (add_out bs (view w)).
Proof. intros E. unfold say, fprintf. rewrite E. apply runs_putcs1. Qed.

Lemma runs_say2 fmt ap bs w : vprintf fmt ap false = Some bs -> runs (say sy 2 fmt ap) w (Goes tt) (add_err bs (view w)).
Proof. intros E. unfold say, fprintf. rewrite E. apply runs_putcs2. Qed.

(** *** cat *)

Lemma runs_cat fuel fd w st l :
  v_fds (view w) !! fd = Some (st, l) -> (length l < fuel)%nat ->
  runs (cat sy fuel fd) w (Goes tt) (add_out l (set_fds <[fd := (st, [])]> (view w))).
Proof.
  revert w l. induction fuel as [|fuel IH]; intros w l Hl Hf; [lia|]. cbn [cat].
  destruct (law_read fd 512 w st l Hl ltac:(lia)) as (data & l' & w1 & E & -> & Hn & He & _ & Hv).
  eapply runs_bind; [by eapply runs_call|]. intros w2 Hv2. cbn [fst snd].
  destruct data as [|c data].
  - specialize (He eq_refl). cbn in He. subst l'. apply runs_ret. by rewrite Hv2, add_out_nil.
  - replace (Z.of_nat (length (c :: data)) >? 0) with true by (cbn [length]; symmetry; apply Z.gtb_lt; lia).
    eapply runs_bind; [apply runs_write1|]. intros w3 Hv3.
    rewrite Nat2Z.id, firstn_all, Z.eqb_refl. cbn [negb].
    rewrite Nat2Z.id, firstn_all, Hv2 in Hv3.
    replace (add_out ((c :: data) ++ l') (set_fds <[fd:=(st, [])]> (view w)))
      with (add_out l' (set_fds <[fd:=(st, [])]> (view w3))).
    + apply IH; [rewrite Hv3; cbn; by rewrite lookup_insert_eq|]. rewrite length_app in Hf. cbn [length] in Hf. lia.
    + rewrite Hv3. unfold add_out, set_fds. cbn [v_files v_fds v_out v_err]. by rewrite insert_insert_eq, app_assoc.
Qed.

(** What cat copies of its arguments, up to the first that is not there. *)
Fixpoint cat_spec (files : gmap (list Z) (stat * list Z)) (args : list (list Z)) : list Z * option (list Z) :=
  match args with
  | [] => ([], None)
  | arg :: args =>
    match files !! arg with
    | Some f => let r := cat_spec files args in (f.2 ++ r.1, r.2)
    | None => ([], Some arg)
    end
  end.

Lemma vprintf_cannot_open arg : Forall (fun c => c <> 0) arg ->
  vprintf (line (bytes_of "cat: cannot open %s")) [A_str (Some arg)] false = Some (bytes_of "cat: cannot open " ++ line arg).
Proof. intros H. lazy -[cstring]. rewrite cstring_id by done. done. Qed.

Lemma runs_open p w st l :
  v_files (view w) !! p = Some (st, l) -> (size (v_fds (view w)) < 16)%nat -> exists fd,
  2 < fd /\ v_fds (view w) !! fd = None /\
  runs (call (u_open sy p 0)) w (Goes fd) (set_fds <[fd := (Some st, l)]> (view w)).
Proof.
  intros Hp Hs. destruct (law_open p w) as (fd & w' & E & H). rewrite Hp in H. destruct (H Hs) as (? & ? & ?).
  exists fd. split_and!; [done..|]. by eapply runs_call.
Qed.

Lemma runs_open_none p w : v_files (view w) !! p = None -> exists fd,
  fd < 0 /\ runs (call (u_open sy p 0)) w (Goes fd) (view w).
Proof.
  intros Hp. destruct (law_open p w) as (fd & w' & E & H). rewrite Hp in H. destruct H as [? ?].
  exists fd. split; [done|]. by eapply runs_call.
Qed.

Lemma runs_close fd w : exists r, runs (call (u_close sy fd)) w (Goes r) (set_fds (delete fd) (view w)).
Proof. destruct (law_close fd w) as (r & w' & E & H). exists r. by eapply runs_call. Qed.

Definition message (m : option (list Z)) : list Z :=
  match m with
  | Some arg => bytes_of "cat: cannot open " ++ line arg
  | None => []
  end.

Lemma runs_cat_files fuel args w r :
  cat_spec (v_files (view w)) args = r ->
  Forall (Forall (fun c => c <> 0)) args -> (size (v_fds (view w)) < 16)%nat ->
  (forall p f, v_files (view w) !! p = Some f -> (length f.2 < fuel)%nat) ->
  runs (cat_files sy fuel args) w (if r.2 is Some _ then Exits 1 else Goes tt) (add_err (message r.2) (add_out r.1 (view w))).
Proof.
  intros Hr Ha Hs Hf. revert w r Hr Hs Hf. induction Ha as [|arg args Harg Ha IH]; intros w r Hr Hs Hf; cbn [cat_files cat_spec] in *.
  { subst r. apply runs_ret. by rewrite add_out_nil, add_err_nil. }
  destruct (v_files (view w) !! arg) as [[st l]|] eqn:E; subst r; cbn [fst snd].
  - destruct (runs_open arg w st l E Hs) as (fd & Hfd & Hn & Ho).
    eapply runs_bind; [exact Ho|]. intros w1 Hv1. destruct (Z.ltb_spec fd 0); [lia|].
    eapply runs_bind; [eapply runs_cat with (st := Some st) (l := l)|].
    { rewrite Hv1. cbn. by rewrite lookup_insert_eq. }
    { exact (Hf _ _ E). }
    intros w2 Hv2. destruct (runs_close fd w2) as (k & Hc). eapply runs_bind; [exact Hc|]. intros w3 Hv3.
    assert (Hv : view w3 = add_out l (view w)).
    { rewrite Hv3, Hv2, Hv1. unfold add_out, set_fds. cbn [v_files v_fds v_out v_err].
      by rewrite insert_insert_eq, delete_insert_id. }
    rewrite <- add_out_app, <- Hv.
    apply IH; rewrite Hv; [done..|].
    exact Hf.
  - destruct (runs_open_none arg w E) as (fd & Hfd & Ho).
    eapply runs_bind; [exact Ho|]. intros w1 Hv1. destruct (Z.ltb_spec fd 0); [|lia].
    eapply runs_bind; [by apply runs_say2, vprintf_cannot_open|]. intros w2 Hv2. apply runs_exit.
    by rewrite Hv2, Hv1, add_out_nil.
Qed.

(** cat with arguments copies the files one after the other to the output,
    whatever the pieces in which read gives them; at the first that is not there it stops
    with a message and status 1. Without arguments it copies descriptor 0. Every
    descriptor it opens it closes. A file shorter than the fuel is copied to its end. *)
Theorem cat_correct fuel name args w :
  Forall (Forall (fun c => c <> 0)) args -> (size (v_fds (view w)) < 16)%nat ->
  (forall p f, v_files (view w) !! p = Some f -> (length f.2 < fuel)%nat) ->
  (forall r, args <> [] -> cat_spec (v_files (view w)) args = r ->
    runs (cat_main sy fuel (name :: args)) w (Exits (if r.2 is Some _ then 1 else 0))
      (add_err (message r.2) (add_out r.1 (view w)))) /\
  (forall st l, v_fds (view w) !! 0 = Some (st, l) -> (length l < fuel)%nat ->
    runs (cat_main sy fuel [name]) w (Exits 0) (add_out l (set_fds <[0 := (st, [])]> (view w)))).
Proof.
  intros Ha Hs Hf. split.
  - intros r Hne Hr. unfold cat_main. destruct args as [|arg args]; [done|]. cbn [length Nat.leb tail].
    pose proof (runs_cat_files fuel _ w r Hr Ha Hs Hf) as H. destruct (r.2).
    + by apply runs_exits.
    + eapply runs_bind; [exact H|]. intros w1 Hv. by apply runs_exit.
  - intros st l Hl Hfl. unfold cat_main. cbn [length Nat.leb].
    eapply runs_bind; [by apply runs_cat|]. intros w1 Hv. by apply runs_exit.
Qed.

(** *** echo *)

(** The arguments with a space between them and a newline at the end. *)
Fixpoint echo_spec (args : list (list Z)) : list Z :=
  match args with
  | [] => []
  | [arg] => line arg
  | arg :: args => arg ++ 32 :: echo_spec args
  end.

(** echo writes its arguments with one space between any two and a newline after the
    last one, and nothing without arguments. *)
Theorem echo_correct name args w :
  runs (echo_main sy (name :: args)) w (Exits 0) (add_out (echo_spec args) (view w)).
Proof.
  unfold echo_main. cbn [tail]. apply (runs_bind _ _ _ tt (add_out (echo_spec args) (view w))); [|intros; by apply runs_exit].
  revert w. induction args as [|arg args IH]; intros w; cbn [echo_args]; [apply runs_ret; by rewrite add_out_nil|].
  eapply runs_bind; [apply runs_write1|]. intros w1 Hv1. destruct args as [|b args]; cbn [length Nat.eqb negb].
  - eapply runs_bind; [apply runs_write1|]. intros w2 Hv2. apply runs_ret. by rewrite Hv2, Hv1, add_out_app.
  - eapply runs_bind; [apply runs_write1|]. intros w2 Hv2.
    change (echo_spec (arg :: b :: args)) with (arg ++ [32] ++ echo_spec (b :: args)).
    rewrite <- !add_out_app, <- Hv1, <- Hv2. apply IH.
Qed.

(** *** rm and mkdir *)

(** The calls on [args] in order, none of which fails. *)
Inductive all_done (f : list Z -> W -> Z * W) : list (list Z) -> W -> W -> Prop :=
  | done_nil w : all_done f [] w w
  | done_cons arg args r w w1 w2 : f arg w = (r, w1) -> 0 <= r -> all_done f args w1 w2 -> all_done f (arg :: args) w w2.

Lemma rm_args_app a c w w1 : all_done (u_unlink sy) a w w1 -> rm_args sy (a ++ c) w = rm_args sy c w1.
Proof.
  induction 1 as [|arg args r w w1 w2 E Hr _ IH]; [done|]. cbn [rm_args app]. rewrite <- IH.
  unfold mbind, prog_bind, call. rewrite E. by destruct (Z.ltb_spec r 0); [lia|].
Qed.

Lemma mkdir_args_app a c w w1 : all_done (u_mkdir sy) a w w1 -> mkdir_args sy (a ++ c) w = mkdir_args sy c w1.
Proof.
  induction 1 as [|arg args r w w1 w2 E Hr _ IH]; [done|]. cbn [mkdir_args app]. rewrite <- IH.
  unfold mbind, prog_bind, call. rewrite E. by destruct (Z.ltb_spec r 0); [lia|].
Qed.

Lemma vprintf_rm x : Forall (fun c => c <> 0) x ->
  vprintf (line (bytes_of "rm: %s failed to delete")) [A_str (Some x)] false =
  Some (bytes_of "rm: " ++ x ++ line (bytes_of " failed to delete")).
Proof. intros H. lazy -[cstring]. by rewrite cstring_id. Qed.

(** rm removes the arguments in order up to the first that fails, says so, and leaves
    the ones after it alone; its status is 0 in both cases. *)
Theorem rm_correct name a w w1 : all_done (u_unlink sy) a w w1 ->
  (a <> [] -> rm_main sy (name :: a) w = (Exits 0, w1)) /\
  (forall x b r w2, u_unlink sy x w1 = (r, w2) -> r < 0 -> Forall (fun c => c <> 0) x ->
    runs (rm_main sy (name :: a ++ x :: b)) w (Exits 0)
      (add_err (bytes_of "rm: " ++ x ++ line (bytes_of " failed to delete")) (view w2))).
Proof.
  intros Ha. split.
  - intros Hne. unfold rm_main. destruct a as [|y a]; [done|]. cbn [length Nat.ltb Nat.leb tail].
    unfold mbind, prog_bind. by rewrite <- (app_nil_r (y :: a)), (rm_args_app _ _ _ _ Ha).
  - intros x b r w2 E Hr Hx. unfold rm_main.
    replace (length (name :: a ++ x :: b) <? 2)%nat with false by (cbn [length]; rewrite length_app; symmetry; apply Nat.ltb_ge; cbn; lia).
    cbn [tail]. eapply runs_bind; [|intros w4 Hv; by apply runs_exit].
    unfold runs. setoid_rewrite (rm_args_app _ (x :: b) _ _ Ha). cbn [rm_args].
    eapply (runs_bind (call (u_unlink sy x))); [by eapply runs_call|]. intros w3 <-. destruct (Z.ltb_spec r 0); [|lia].
    by apply runs_say2, vprintf_rm.
Qed.

Lemma vprintf_mkdir x : Forall (fun c => c <> 0) x ->
  vprintf (line (bytes_of "mkdir: %s failed to create")) [A_str (Some x)] false =
  Some (bytes_of "mkdir: " ++ x ++ line (bytes_of " failed to create")).
Proof. intros H. lazy -[cstring]. by rewrite cstring_id. Qed.

(** mkdir makes the directories in order up to the first that fails, in the same way. *)
Theorem mkdir_correct name a w w1 : all_done (u_mkdir sy) a w w1 ->
  (a <> [] -> mkdir_main sy (name :: a) w = (Exits 0, w1)) /\
  (forall x b r w2, u_mkdir sy x w1 = (r, w2) -> r < 0 -> Forall (fun c => c <> 0) x ->
    runs (mkdir_main sy (name :: a ++ x :: b)) w (Exits 0)
      (add_err (bytes_of "mkdir: " ++ x ++ line (bytes_of " failed to create")) (view w2))).
Proof.
  intros Ha. split.
  - intros Hne. unfold mkdir_main. destruct a as [|y a]; [done|]. cbn [length Nat.ltb Nat.leb tail].
    unfold mbind, prog_bind. by rewrite <- (app_nil_r (y :: a)), (mkdir_args_app _ _ _ _ Ha).
  - intros x b r w2 E Hr Hx. unfold mkdir_main.
    replace (length (name :: a ++ x :: b) <? 2)%nat with false by (cbn [length]; rewrite length_app; symmetry; apply Nat.ltb_ge; cbn; lia).
    cbn [tail]. eapply runs_bind; [|intros w4 Hv; by apply runs_exit].
    unfold runs. setoid_rewrite (mkdir_args_app _ (x :: b) _ _ Ha). cbn [mkdir_args].
    eapply (runs_bind (call (u_mkdir sy x))); [by eapply runs_call|]. intros w3 <-. destruct (Z.ltb_spec r 0); [|lia].
    by apply runs_say2, vprintf_mkdir.
Qed.

(** *** ls *)

(** A name padded with blanks to the width of a directory entry's. *)
Definition padded (name : list Z) : list Z := name ++ replicate (DIRSIZ - length name) 32.

Lemma fmtname_scan_app a b p : Forall (fun c => c <> 47) a -> fmtname_scan (a ++ 47 :: b) p = reverse a ++ p.
Proof.
  intros Ha. revert p. induction Ha as [|c a Hc Ha IH]; intros p; cbn [fmtname_scan app]; [done|].
  rewrite (proj2 (Z.eqb_neq _ _) Hc). cbn [negb]. by rewrite IH, reverse_cons, <- app_assoc.
Qed.

Lemma fmtname_last path name : Forall (fun c => c <> 47) name -> fmtname (path ++ 47 :: name) = padded name.
Proof.
  intros Hn. unfold fmtname, padded.
  rewrite reverse_app, reverse_cons, <- app_assoc. cbn [app].
  rewrite fmtname_scan_app by (by apply Forall_reverse). rewrite reverse_involutive, app_nil_r.
  destruct (Nat.leb_spec DIRSIZ (length name)); [|done].
  replace (DIRSIZ - length name)%nat with 0%nat by lia. by rewrite app_nil_r.
Qed.

(** The line for a record of the directory [path]. *)
Definition ls_line (files : gmap (list Z) (stat * list Z)) (path : list Z) (rec : list Z) : list Z :=
  let de := dirent_read rec in
  if de_inum de =? 0 then []
  else match files !! child path (de_name de) with
  | Some (st, _) =>
    padded (cstring (de_name de)) ++ 32 :: u_printint (st_type st) 10 true ++ 32 :: u_printint (i32 (st_ino st)) 10 true ++
    32 :: line (u_printint (i32 (st_size st)) 10 true)
  | None => bytes_of "ls: cannot stat " ++ line (child path (de_name de))
  end.

Lemma vprintf_ls_stat x : Forall (fun c => c <> 0) x ->
  vprintf (line (bytes_of "ls: cannot stat %s")) [A_str (Some x)] false = Some (bytes_of "ls: cannot stat " ++ line x).
Proof. intros H. lazy -[cstring]. by rewrite cstring_id. Qed.

Lemma vprintf_ls x a b c : Forall (fun c => c <> 0) x ->
  vprintf (line (bytes_of "%s %d %d %d")) [A_str (Some x); A_int a; A_int b; A_int c] false =
  Some (x ++ 32 :: u_printint a 10 true ++ 32 :: u_printint b 10 true ++ 32 :: line (u_printint c 10 true)).
Proof. intros H. lazy -[cstring u_printint]. rewrite cstring_id by done. reflexivity. Qed.

Lemma padded_no_nul name : Forall (fun c => c <> 0) name -> Forall (fun c => c <> 0) (padded name).
Proof. intros H. apply Forall_app. split; [done|]. by apply Forall_replicate. Qed.

(** stat of a path leaves everything as it was. *)
Lemma runs_stat p st w : (size (v_fds (view w)) < 16)%nat -> exists r st',
  runs (u_stat sy p st) w (Goes (r, st')) (view w) /\
  match v_files (view w) !! p with
  | Some f => r = 0 /\ st' = f.1
  | None => r < 0
  end.
Proof.
  intros Hs. unfold u_stat. destruct (v_files (view w) !! p) as [[st1 l]|] eqn:E.
  - destruct (runs_open p w st1 l E Hs) as (fd & Hfd & Hn & Ho). exists 0, st1. split; [|done].
    eapply runs_bind; [exact Ho|]. intros w1 Hv1. destruct (Z.ltb_spec fd 0); [lia|].
    destruct (law_fstat fd w1 st1 l) as (w2 & E2 & Hv2); [rewrite Hv1; cbn; by rewrite lookup_insert_eq|].
    eapply runs_bind; [by eapply runs_call|]. intros w3 Hv3. destruct (runs_close fd w3) as (k & Hc).
    eapply runs_bind; [exact Hc|]. intros w4 Hv4. apply runs_ret. rewrite Hv4, Hv3, Hv1.
    unfold set_fds. cbn [v_files v_fds v_out v_err]. rewrite delete_insert_id by done. by destruct (view w).
  - destruct (runs_open_none p w E) as (fd & Hfd & Ho). exists (-1), st. split; [|lia].
    eapply runs_bind; [exact Ho|]. intros w1 Hv1. destruct (Z.ltb_spec fd 0); [|lia]. by apply runs_ret.
Qed.

(** A record as a directory has it: 16 bytes, and no slash in the name. *)
Definition rec_ok (rec : list Z) : Prop :=
  length rec = 16%nat /\ Forall (fun c => c <> 47) (cstring (de_name (dirent_read rec))).

Lemma runs_read_whole fd n w st a b :
  v_fds (view w) !! fd = Some (st, a ++ b) -> whole st = true -> 0 < n ->
  Z.of_nat (length a) = n \/ (a = [] /\ b = []) ->
  runs (call (u_read sy fd n)) w (Goes (Z.of_nat (length a), a)) (set_fds <[fd := (st, b)]> (view w)).
Proof.
  intros Hl Hw Hn Ha. destruct (law_read fd n w st _ Hl Hn) as (data & l' & w' & E & Hd & _ & _ & Hlen & Hv).
  specialize (Hlen Hw). rewrite length_app in Hlen.
  assert (a = data /\ b = l') as [-> ->].
  { apply app_inj_1; [|done]. destruct Ha as [Ha|[-> ->]]; [lia|]. cbn in Hlen. cbn. lia. }
  by eapply runs_call.
Qed.

(** One round of the loop: the line of a record. *)
Lemma runs_ls_entry fuel fd path st0 rec rest st w r v :
  rec_ok rec -> Forall (fun c => c <> 0) path -> whole st0 = true ->
  v_fds (view w) !! fd = Some (st0, rec ++ rest) -> (size (v_fds (view w)) < 16)%nat ->
  (forall st' w', view w' = add_out (ls_line (v_files (view w)) path rec) (set_fds <[fd := (st0, rest)]> (view w)) ->
    runs (ls_entries sy fuel fd (path ++ [47]) st') w' r v) ->
  runs (ls_entries sy (S fuel) fd (path ++ [47]) st) w r v.
Proof.
  intros [Hlen Hsl] Hp Hw Hl Hs Hk. cbn [ls_entries].
  eapply runs_bind; [apply (runs_read_whole _ _ _ st0 rec rest); [done..|left; by rewrite Hlen]|].
  intros w1 Hv1. cbn [fst snd]. rewrite Hlen. cbn [Z.of_nat]. rewrite Z.eqb_refl. cbn [negb].
  unfold ls_line in Hk. destruct (de_inum (dirent_read rec) =? 0).
  { apply Hk. by rewrite Hv1, add_out_nil. }
  set (name := de_name (dirent_read rec)) in *.
  replace ((path ++ [47]) ++ cstring name) with (child path name) by (unfold child; by rewrite <- app_assoc).
  assert (Hc : Forall (fun c => c <> 0) (child path name)).
  { apply Forall_app. split; [done|]. constructor; [done|]. apply cstring_no_nul. }
  assert (Hsz : (size (v_fds (view w1)) < 16)%nat).
  { rewrite Hv1. cbn. rewrite map_size_insert_Some; [done|by rewrite Hl]. }
  destruct (runs_stat (child path name) st w1 Hsz) as (k & st' & Hst & Hres).
  eapply runs_bind; [exact Hst|]. intros w2 Hv2. cbn [fst snd].
  rewrite Hv1 in Hres. change (v_files (set_fds _ (view w))) with (v_files (view w)) in Hres.
  destruct (v_files (view w) !! child path name) as [[st1 l]|].
  - destruct Hres as [-> ->]. cbn [Z.ltb Z.compare fst]. eapply runs_bind; [apply runs_say1, vprintf_ls|].
    + unfold child. rewrite fmtname_last by done. apply padded_no_nul, cstring_no_nul.
    + intros w3 Hv3. apply Hk. rewrite Hv3, Hv2, Hv1. unfold child. by rewrite fmtname_last.
  - destruct (Z.ltb_spec k 0); [|lia]. eapply runs_bind; [by apply runs_say1, vprintf_ls_stat|].
    intros w3 Hv3. apply Hk. by rewrite Hv3, Hv2, Hv1.
Qed.

Lemma runs_ls_entries fuel fd path st0 recs st w :
  Forall rec_ok recs -> Forall (fun c => c <> 0) path -> whole st0 = true -> (length recs < fuel)%nat ->
  v_fds (view w) !! fd = Some (st0, concat recs) -> (size (v_fds (view w)) < 16)%nat ->
  runs (ls_entries sy fuel fd (path ++ [47]) st) w (Goes tt)
    (add_out (concat (ls_line (v_files (view w)) path <$> recs)) (set_fds <[fd := (st0, [])]> (view w))).
Proof.
  intros Hr Hp Hw. revert fuel st w. induction Hr as [|rec recs Hrec Hr IH]; intros fuel st w Hf Hl Hs;
    (destruct fuel as [|fuel]; [cbn in Hf; lia|]).
  - cbn [ls_entries]. eapply runs_bind; [apply (runs_read_whole _ _ _ st0 [] []); [done..|by right]|].
    intros w1 Hv1. apply runs_ret. by rewrite Hv1, add_out_nil.
  - eapply runs_ls_entry; [done..|]. intros st' w' Hv.
    assert (E : add_out (concat (ls_line (v_files (view w)) path <$> rec :: recs)) (set_fds <[fd := (st0, [])]> (view w)) =
      add_out (concat (ls_line (v_files (view w')) path <$> recs)) (set_fds <[fd := (st0, [])]> (view w'))).
    { rewrite Hv. unfold add_out, set_fds. cbn [v_files v_fds v_out v_err fmap list_fmap concat].
      by rewrite insert_insert_eq, app_assoc. }
    rewrite E. apply IH; [cbn in Hf; lia| |]; rewrite Hv; cbn; [by rewrite lookup_insert_eq|].
    by rewrite map_size_insert_Some; [|rewrite Hl].
Qed.

(** ls of a directory prints, for the records in use and in their order, a line with
    the name padded to 14 characters and the type, inode number and size of the file, or
    that the file cannot be examined; the records not in use are skipped. It closes what
    it opens. The fuel is more than the number of records. *)
Theorem ls_correct fuel path recs st w :
  v_files (view w) !! path = Some (st, concat recs) -> st_type st = T_DIR -> Forall rec_ok recs ->
  Forall (fun c => c <> 0) path -> Z.of_nat (length path) + 16 <= 512 ->
  (length recs < fuel)%nat -> (size (v_fds (view w)) < 15)%nat ->
  runs (ls sy fuel path) w (Goes tt) (add_out (concat (ls_line (v_files (view w)) path <$> recs)) (view w)).
Proof.
  intros Hp Ht Hr Hz Hlen Hf Hs. unfold ls.
  destruct (runs_open path w st _ Hp) as (fd & Hfd & Hn & Ho); [lia|].
  eapply runs_bind; [exact Ho|]. intros w1 Hv1. destruct (Z.ltb_spec fd 0); [lia|].
  destruct (law_fstat fd w1 st (concat recs)) as (w2 & E2 & Hv2); [rewrite Hv1; cbn; by rewrite lookup_insert_eq|].
  eapply runs_bind; [by eapply runs_call|]. intros w3 Hv3. cbn [fst snd]. cbn [Z.ltb Z.compare].
  rewrite Ht. cbn [Z.eqb T_DIR T_DEVICE T_FILE Pos.eqb orb].
  destruct (Z.gtb_spec (Z.of_nat (length path) + 1 + Z.of_nat DIRSIZ + 1) 512); [unfold DIRSIZ in *; lia|].
  eapply runs_bind.
  { apply (runs_ls_entries _ _ _ (Some st) recs); [done..| |done| |].
    - cbn. by rewrite Ht.
    - rewrite Hv3, Hv1. cbn. by rewrite lookup_insert_eq.
    - rewrite Hv3, Hv1. cbn. rewrite map_size_insert_None by done. lia. }
  intros w4 Hv4. destruct (runs_close fd w4) as (k & Hc). eapply runs_bind; [exact Hc|]. intros w5 Hv5. apply runs_ret.
  rewrite Hv5, Hv4, Hv3, Hv1. unfold add_out, set_fds. cbn [v_files v_fds v_out v_err].
  by rewrite insert_insert_eq, delete_insert_id.
Qed.
End laws.

(** ** A system that keeps the laws *)

(** The calls on the view itself. A pipe or a device gives at most three bytes at a time. *)
Definition next_fd (m : gmap Z (option stat * list Z)) : Z := foldr (fun e k => Z.max (e.1 + 1) k) 3 (map_to_list m).

Definition small_sys : sys uview := {|
  u_open p mode v :=
    match v_files v !! p with
    | Some (st, l) => let fd := next_fd (v_fds v) in (fd, set_fds <[fd := (Some st, l)]> v)
    | None => (-1, v)
    end;
  u_read fd n v :=
    match v_fds v !! fd with
    | Some (st, l) =>
      let k := if whole st then Z.to_nat n else Nat.min 3 (Z.to_nat n) in
      ((Z.of_nat (length (take k l)), take k l), set_fds <[fd := (st, drop k l)]> v)
    | None => ((-1, []), v)
    end;
  u_write fd bs v :=
    if fd =? 1 then (Z.of_nat (length bs), add_out bs v)
    else if fd =? 2 then (Z.of_nat (length bs), add_err bs v) else (-1, v);
  u_close fd v := (0, set_fds (delete fd) v);
  u_fstat fd v :=
    match v_fds v !! fd with
    | Some (Some st, _) => ((0, st), v)
    | _ => ((-1, Stat 0 0 0 0 0), v)
    end;
  u_link old new v :=
    match v_files v !! old with
    | Some f => (0, UView (<[new := f]> (v_files v)) (v_fds v) (v_out v) (v_err v))
    | None => (-1, v)
    end;
  u_unlink p v :=
    match v_files v !! p with
    | Some f => (0, UView (delete p (v_files v)) (v_fds v) (v_out v) (v_err v))
    | None => (-1, v)
    end;
  u_mkdir p v :=
    match v_files v !! p with
    | Some f => (-1, v)
    | None => (0, UView (<[p := (Stat 1 7 T_DIR 1 0, [])]> (v_files v)) (v_fds v) (v_out v) (v_err v))
    end;
  u_kill pid v := (-1, v);
  u_sleep n v := (0, v) |}.

Lemma next_fd_above m fd e : m !! fd = Some e -> fd < next_fd m.
Proof.
  intros H%elem_of_map_to_list. unfold next_fd. induction (map_to_list m) as [|x l IH]; [by apply not_elem_of_nil in H|].
  cbn. apply elem_of_cons in H as [<-|H]; [cbn; lia|]. specialize (IH H). lia.
Qed.

Lemma next_fd_new m : 2 < next_fd m /\ m !! next_fd m = None.
Proof.
  split; [unfold next_fd; induction (map_to_list m); cbn; lia|].
  destruct (m !! next_fd m) eqn:E; [|done]. apply next_fd_above in E. lia.
Qed.

#[export] Instance small_sys_laws : SysLaws small_sys id.
Proof.
  split; unfold id.
  - intros p v. cbn. destruct (v_files v !! p) as [[st l]|]; do 2 eexists; (split; [done|]); [|split; [lia|done]].
    intros _. destruct (next_fd_new (v_fds v)). done.
  - intros fd n v st l E Hn. cbn. rewrite E.
    set (k := if whole st then Z.to_nat n else Nat.min 3 (Z.to_nat n)).
    assert (Hk : (0 < k <= Z.to_nat n)%nat) by (unfold k; destruct (whole st); lia).
    exists (take k l), (drop k l). eexists. split; [done|]. split; [by rewrite take_drop|].
    split_and!; [rewrite length_take; lia|destruct k, l; done || lia| |done].
    intros H. rewrite length_take. unfold k. by rewrite H.
  - intros bs v. by eexists.
  - intros bs v. by eexists.
  - intros fd v. by do 2 eexists.
  - intros fd v st l E. cbn. rewrite E. by eexists.
Qed.

(** Two files, and a directory that has them, a removed entry and one that is not there. *)
Definition small_recs : list (list Z) := [5 :: 0 :: 97 :: replicate 13 0; 0 :: 0 :: 120 :: replicate 13 0; 8 :: 0 :: 121 :: replicate 13 0].
Definition small_view : uview :=
  UView (list_to_map [
      (bytes_of "a", (Stat 1 5 T_FILE 1 6, bytes_of "hello "));
      (bytes_of "b", (Stat 1 6 T_FILE 1 5, bytes_of "world"));
      (bytes_of "d/a", (Stat 1 5 T_FILE 1 6, bytes_of "hello "));
      (bytes_of "d", (Stat 1 9 T_DIR 1 48, concat small_recs))])
    (list_to_map [(0, (None, bytes_of "typed in")); (1, (None, [])); (2, (None, []))]) [] [].

Lemma small_view_short p f : v_files small_view !! p = Some f -> (length f.2 < 100)%nat.
Proof.
  assert (H : map_Forall (fun _ f => (length f.2 < 100)%nat) (v_files small_view)) by (apply (bool_decide_unpack _); by vm_compute).
  apply H.
Qed.

Lemma cat_correct_witness :
  runs id (cat_main small_sys 100 [bytes_of "cat"; bytes_of "a"; bytes_of "b"; bytes_of "c"; bytes_of "a"]) small_view (Exits 1)
    (add_err (line (bytes_of "cat: cannot open c")) (add_out (bytes_of "hello world") small_view)) /\
  runs id (cat_main small_sys 100 [bytes_of "cat"]) small_view (Exits 0)
    (add_out (bytes_of "typed in") (set_fds <[0 := (None, [])]> small_view)).
Proof.
  assert (Hs : (size (v_fds small_view) < 16)%nat) by (apply Nat.ltb_lt; by vm_compute).
  split.
  - apply (cat_correct small_sys id 100 (bytes_of "cat") [bytes_of "a"; bytes_of "b"; bytes_of "c"; bytes_of "a"] small_view
      ltac:(repeat constructor; done) Hs small_view_short) with (r := (bytes_of "hello world", Some (bytes_of "c"))); [done|].
    by vm_compute.
  - apply (cat_correct small_sys id 100 (bytes_of "cat") [] small_view ltac:(done) Hs small_view_short); [by vm_compute|].
    apply Nat.ltb_lt. by vm_compute.
Defined.

Lemma ls_correct_witness :
  runs id (ls small_sys 100 (bytes_of "d")) small_view (Goes tt)
    (add_out (line (bytes_of "a              2 5 6") ++ line (bytes_of "ls: cannot stat d/y")) small_view).
Proof.
  apply (ls_correct small_sys id 100 (bytes_of "d") small_recs (Stat 1 9 T_DIR 1 48) small_view); [by vm_compute|done| | | | |].
  - repeat constructor; done.
  - repeat constructor; done.
  - done.
  - apply Nat.ltb_lt. by vm_compute.
  - apply Nat.ltb_lt. by vm_compute.
Defined.
